(* ===== verification/_CoqProject ===== *)
-Q . S2P
Prelude.v
Bytes.v
Utf8.v
Message.v
Properties.v
MessageId.v
MessageDecoder.v
MessageCodec.v
ReferenceResource.v
RunningFlags.v
FileName.v
Numerals.v
MappedFile.v
MessageExtEncoder.v
AppendCallback.v
MappedFileQueue.v
Hasher.v
MessageUtils.v
IndexFile.v
RouteInfo.v
RouteProperties.v
Rebalance.v
LockManager.v
BitsArray.v
OrderedMap.v
ProcessQueue.v
Offsets.v
OrderInfo.v
DispatchRequest.v
ConsumeQueue.v
ConsumeQueueRecovery.v
StoreCheckpoint.v
IndexService.v
CheckMessage.v
QueueOffsets.v
ConsumeQueueStore.v
CommitLog.v
CommitLogRecovery.v
CommitLogPut.v
Reput.v
MessageStore.v
StoreReads.v
StoreRoundtrip.v
MessageBatch.v
Remoting.v
ConfigFile.v
PublishInfo.v
ClientManagers.v
ProducerManager.v
PopInfo.v
PopCheckPoint.v
PopBuffer.v
PopRuns.v
Attributes.v
TopicConfigs.v
Subscriptions.v
OffsetStores.v
PullHold.v
PutHooks.v
Schedule.v
Transactions.v
