(* ===== verification/Prelude.v ===== *)
(** * A verification library for rocketmq-rust

    RocketMQ is a message broker.  A producer chooses a queue of a topic and
    sends a message to the broker of that queue.  The broker's store appends the
    message to a commit log of fixed-size memory-mapped segments; a background
    service reads the log and enters each record into the consume queue of its
    topic and queue id and into the index by key; a consumer reads the consume
    queue at its offset and gets the bytes of the records from the log.
    Consumers and producers find brokers through a name server, share the queues
    of a topic among themselves and commit the offsets they have consumed.  This
    library models the parts of that path that hold state or bytes, and proves
    what each promises to the next, up to the path from a put to a read.

    ** Parts, files and sources

    Data and codecs.
    - [Prelude] (this file): the outcome of a Rust call (a value or a panic),
      machine integers as [Z] with their casts, slices and in-place writes of
      lists, the hint databases [rmq] and [rmq_casts].
    - [Bytes], [Utf8]: the big-endian buffers of the [bytes] crate, and UTF-8
      validation and lossy conversion of the Rust standard library.
    - [Message]: [MessageExt], [MessageExtBrokerInner], record versions, system
      flags and socket addresses of [rocketmq-common/src/common].
    - [Numerals]: decimal forms of integers, [to_string] and [parse].
    - [Properties], [MessageUtils]: [string_to_message_properties] and
      [message_properties_to_string] of [message_decoder.rs]; [delete_property]
      of [message_utils.rs].
    - [MessageId]: [build_message_id] and [decode_message_id].
    - [MessageDecoder], [MessageCodec]: [decode], [decodes_batch], [encode], the
      client's batch body and [decode_properties] of [message_decoder.rs].
    - [Remoting]: commands, flags, JSON and binary headers and the frames of the
      network protocol ([remoting_command.rs], [rocketmq_serializable.rs]).

    Files of the store.
    - [ReferenceResource]: [reference_resource_counter.rs], call by call and as
      a step relation [cstep] of interleaved callers.
    - [RunningFlags], [FileName], [StoreCheckpoint]: the flag word, the names of
      segments, and [store_checkpoint.rs].
    - [MappedFile]: one segment, [default_mapped_file_impl.rs]: the memory is a
      byte list, the positions are the fields of the struct.
    - [MappedFileQueue]: [mapped_file_queue.rs], the list of segments.
    - [MessageExtEncoder], [AppendCallback]: [encode] of
      [message_ext_encoder.rs] and [do_append] of
      [append_message_callback.rs].  The callback is written against the class
      [MappedFileOps] with its laws [MappedFileLaws], as the source is generic in
      the trait [MappedFile]; [DefaultMappedFile] is an instance.
    - [Hasher], [IndexFile], [IndexService]: [string_hasher.rs],
      [index_header.rs], [index_file.rs] and [index_service.rs].

    The store.
    - [DispatchRequest], [CheckMessage]: what the log makes of a record,
      [check_message_and_return_size] of [commit_log.rs].
    - [CommitLog]: the log: loading, reads, both recoveries, [put_message],
      flushing and replication decisions.  What it asks of the rest of the store
      (dispatching, truncating and destroying queues, queue offsets) is the class
      [LogClient].  [CommitLogRecovery] and [CommitLogPut] hold the theorems.
    - [ConsumeQueue], [ConsumeQueueRecovery]: [single_consume_queue.rs].
    - [QueueOffsets], [ConsumeQueueStore]: [queue_offset_operator.rs] and the
      table of queues, [local_file_consume_queue_store.rs].
    - [Reput]: [do_reput] of [local_file_message_store.rs], against [LogClient].
    - [MessageStore]: [LocalFileMessageStore]: its state is the log, what the log
      is the client of ([Consumers]: queues, index, checkpoint, flags), the reput
      offset and the flags of its life; its instance [store_client] of
      [LogClient] joins the components.  Putting, dispatching, reading by queue
      and log offset, queries, loading, recovery, start, shutdown, deletion.
    - [StoreReads], [StoreRoundtrip]: what reads return; from puts to reads.
    - [MessageBatch]: [encode_batch], [do_append_batch] and [put_messages]: a
      batch of messages becomes the records of the log in one append.

    Name server and clients.
    - [RouteInfo], [RouteProperties]: [route_info_manager.rs] and its theorems.
    - [Rebalance]: the five strategies of [rebalance_strategy/], with the class
      [Partitions] for the law a strategy must satisfy.
    - [BitsArray]: [bits_array.rs] of the filter crate.
    - [OrderedMap], [ProcessQueue]: the consumer's buffer of pulled messages,
      [process_queue.rs], and the ordered map it uses.
    - [OffsetStores]: the offset stores of a consumer, [consumer/store/].
    - [PublishInfo]: the producer's choice of a queue and its latency faults.
    - [Subscriptions]: expressions of tags ([filter_api.rs]), the filter of the
      broker ([expression_message_filter.rs]) and the one of the client
      ([pull_api_wrapper.rs]).

    The broker.
    - [LockManager]: the broker's queue locks, [rebalance_lock_manager.rs], with
      the sections under its lock as the steps clients interleave.
    - [ClientManagers], [ProducerManager]: [consumer_manager.rs],
      [consumer_group_info.rs] and [producer_manager.rs], with expiry and
      closed channels; listeners' notices are recorded in the state.
    - [PopInfo], [PopCheckPoint], [PopBuffer], [PopRuns]: POP consumption: keys
      and receipts, checkpoints and acknowledgements, queue locks, and the
      buffer that merges them, [pop_buffer_merge_service.rs]; the shared
      checkpoints are cells of a store, and the visits of the scan interleave
      with the other calls as steps.
    - [Attributes], [TopicConfigs]: attributes of topics, the topic table and
      the subscription groups ([topic_config_manager.rs],
      [subscription_group_manager.rs]).
    - [PullHold]: pull requests that wait for messages,
      [pull_request_hold_service.rs], with the sections under its locks as steps.
    - [PutHooks], [Schedule]: what the broker does to a message before it is put
      ([hook_utils.rs]), and the delivery of delayed messages
      ([schedule_message_service.rs]).
    - [Offsets], [OrderInfo]: [consumer_offset_manager.rs] and the entries of
      [consumer_order_info_manager.rs].
    - [ConfigFile]: safe writing and loading of configuration files, the class
      [ConfigManager] with its laws [ConfigLaws], the consumer offsets and the
      name server's KV table as instances.

    ** What the theorems show

    - End to end: messages put into the store one after the other are answered as
      stored, dispatched by one run of the reput service, and read back in order
      from their queues with bytes that decode to them ([stored_messages_read]).
    - Codecs: properties, ids, stored records of both versions, batch bodies and
      streams of frames round-trip ([decode_stored_record], [stream_decodes]).
    - Log: a segment refines a bounded append-only log; a put stores exactly its
      record and, with synchronous flushing, is durable when answered
      ([put_message_stores], [put_message_durable]); recovery keeps every record
      before the first damaged one, dispatches it once, and always ends
      ([recover_abnormally_restores], [recovery_terminates]).
    - Queues and index: the reput service dispatches every record once and in
      order ([reput_dispatches_all]); the table of queues refines a map from
      queues to sequences of units ([store_dispatch_refines]); restarts and
      truncations keep the right units; the index holds every key; a read returns
      the longest run its limits allow ([get_message_returns]).
    - Name server: in every reachable state routes do not dangle
      ([routes_resolve]); what registering does to the tables.
    - Clients and broker: shares of the strategies partition the queues; leases
      are exclusive in every interleaving; the process queue accounts for every
      message; offsets survive a stop at any moment ([consumer_offsets_durable]).
    - Consumers of the broker: a client that sends heartbeats stays connected
      ([consumer_stays]); a popped message that is not acknowledged is not lost
      from the buffer, and the consumer offset passes only finished checkpoints,
      in the order of the POPs ([unacked_checkpoint_kept], [commit_in_order]);
      the two tag filters agree ([tag_filters_agree]); held pull requests are
      conserved and the expired ones woken ([requests_conserved],
      [expired_requests_woken]).
    - Topics: what a request may do to attributes ([alter_spec]) and that
      topics survive a restart ([topics_survive_restart]).
    - Delayed messages: the redirected message is restored
      ([delayed_message_restored]), not delivered early ([delivered_in_time]),
      and all due messages are delivered ([due_messages_delivered]).
    - Defects of the sources that modelling exposed are theorems too: among
      them [put_rollover_panics], [recovery_drops_segments],
      [get_message_spins], [check_self_blocks], [select_phy_offset_misses],
      [blank_marker_lost], [reput_stuck], [register_keeps_stale_topic],
      [failed_delivery_skipped], [spaced_tag_missed], [sparse_ack_lost] and
      [memory_first_misses].

    ** Conventions

    - Integers are [Z] kept in range by the casts of the prelude; arithmetic
      wraps as in a release build.  [usize] is 64 bits.
    - Loops over bytes take fuel; every iteration consumes at least one byte, so
      the length of the buffer is enough, and lemmas such as [parse_loop_fuel]
      show it.  Loops of the store answer [loop_end]: [Ended] with the result,
      [Deadlock] where the code waits for a lock it holds, [OutOfFuel] when the
      fuel is used up.  [recovery_terminates] shows that [recover_fuel] (a round
      per byte) is enough for recovery; [reput_dispatches_all] needs one round
      per segment; [get_message_returns] one per unit; [get_message_spins] and
      [count_inner_msg_num_diverges] state that no fuel is enough.  Loops over
      text ([split_sub], [strip]) take its length as fuel, [decode_messages] the
      length of the body, and [commit_queue] the length of the queue it empties.
    - The iteration order of a [HashMap] is an argument where the result shows
      it, and otherwise the order of [map_to_list].
    - Code outside the repository is a parameter: the CRC-32 function, the
      compressors, the machine-room resolver, the JSON printer, the answers of
      the file system and the clock.
    - What runs under one lock is one step.

    ** Not modelled

    - Network I/O: connections, channels, the client's and the broker's remote
      calls, and the request processors, which decode a header, call one of the
      operations modelled here and encode the answer through some hundred header
      and body types that derived code serializes.
    - Tasks and timers of the runtime (start, stop, sleeping loops): the bodies
      of the loops are the operations modelled here, their schedule is arbitrary.
    - The operating system's part of mapped files (warm-up, locking in memory,
      renaming), the high-availability, timer-wheel, clean-up and allocation
      services, which are mostly empty in the source, and statistics.
    - The long polling of POP, transactions, failover to another broker, the
      client's runtime objects, the expression language of filters, the command
      line, tools and configuration. *)

From stdpp Require Import base gmap list strings fin_maps sorting.
From Stdlib Require Import ZArith Lia.

Declare Scope rmq_scope.
Delimit Scope rmq_scope with rmq.
Open Scope Z_scope.

(** ** Outcomes: a value or a Rust panic *)

(** A Rust call either returns or panics (an out-of-range slice, an [unwrap]
    of [None], a read past the end of a buffer).  Errors the code handles are
    values of the code's own [Option]/[Result] types, inside [Done]. *)
Inductive outcome (A : Type) : Type :=
| Done (a : A)
| Panic.
Arguments Done {A} _.
Arguments Panic {A}.

Definition obind {A B : Type} (m : outcome A) (k : A → outcome B) : outcome B :=
  match m with
  | Done a => k a
  | Panic => Panic
  end.

Notation "'let*' x ':=' m 'in' k" := (obind m (λ x, k))
  (at level 10, x pattern, m at level 100, k at level 200) : rmq_scope.

(** [Option::unwrap]. *)
Definition unwrap {A : Type} (o : option A) : outcome A :=
  match o with
  | Some a => Done a
  | None => Panic
  end.

(** Injectivity without reducing the values, unlike [injection]. *)
Lemma done_inj {A : Type} (a b : A) : Done a = Done b → a = b.
Proof. congruence. Qed.

Lemma some_inj {A : Type} (a b : A) : Some a = Some b → a = b.
Proof. congruence. Qed.

Lemma obind_done {A B : Type} (m : outcome A) (k : A → outcome B) (b : B) :
  obind m k = Done b → ∃ a, m = Done a ∧ k a = Done b.
Proof. destruct m; simpl; [eauto | done]. Qed.

(** ** Machine integers *)

(** A [w]-bit integer is a [Z]; casts with [as] and the wrapping arithmetic of
    a release build reduce it to its range. *)
Definition wrap_u (w : Z) (z : Z) : Z := z mod 2 ^ w.
Definition wrap_s (w : Z) (z : Z) : Z := (z + 2 ^ (w - 1)) mod 2 ^ w - 2 ^ (w - 1).

Definition as_i16 (z : Z) : Z := wrap_s 16 z.
Definition as_i32 (z : Z) : Z := wrap_s 32 z.
Definition as_i64 (z : Z) : Z := wrap_s 64 z.
Definition as_u8 (z : Z) : Z := wrap_u 8 z.
Definition as_u16 (z : Z) : Z := wrap_u 16 z.
Definition as_u32 (z : Z) : Z := wrap_u 32 z.
Definition as_u64 (z : Z) : Z := wrap_u 64 z.
(** [usize] is 64 bits wide on the supported targets. *)
Definition as_usize (z : Z) : Z := wrap_u 64 z.

Definition in_u (w z : Z) : Prop := 0 ≤ z < 2 ^ w.
Definition in_s (w z : Z) : Prop := - 2 ^ (w - 1) ≤ z < 2 ^ (w - 1).

Definition i32_MAX : Z := 2147483647.
Definition i32_MIN : Z := -2147483648.
Definition i64_MAX : Z := 9223372036854775807.

(** Rust's [/] and [%] on signed integers truncate toward zero. *)
Definition rdiv (a b : Z) : Z := Z.quot a b.
Definition rrem (a b : Z) : Z := Z.rem a b.

Lemma wrap_u_id (w z : Z) : in_u w z → wrap_u w z = z.
Proof. intros H. by apply Z.mod_small. Qed.

Lemma wrap_s_id (w z : Z) : 0 < w → in_s w z → wrap_s w z = z.
Proof.
  intros Hw [H1 H2]. unfold wrap_s.
  assert (2 ^ w = 2 * 2 ^ (w - 1)) as Hp.
  { replace w with (Z.succ (w - 1)) at 1 by lia. rewrite Z.pow_succ_r; lia. }
  rewrite Z.mod_small; lia.
Qed.

Lemma wrap_u_range (w z : Z) : 0 ≤ w → in_u w (wrap_u w z).
Proof. intros Hw. apply Z.mod_pos_bound. by apply Z.pow_pos_nonneg. Qed.

Lemma wrap_s_range (w z : Z) : 0 < w → in_s w (wrap_s w z).
Proof.
  intros Hw. unfold in_s, wrap_s.
  assert (2 ^ w = 2 * 2 ^ (w - 1)) as Hp.
  { replace w with (Z.succ (w - 1)) at 1 by lia. rewrite Z.pow_succ_r; lia. }
  assert (0 < 2 ^ w) as Hpos by (apply Z.pow_pos_nonneg; lia).
  pose proof (Z.mod_pos_bound (z + 2 ^ (w - 1)) (2 ^ w) Hpos). lia.
Qed.

(** A signed wrap only depends on the bits below its width. *)
Lemma wrap_s_mod (w z : Z) : wrap_s w (z mod 2 ^ w) = wrap_s w z.
Proof. unfold wrap_s. by rewrite Zplus_mod_idemp_l. Qed.

(** Unfolds the casts of a goal whose arguments are known to be in range. *)
Ltac unfold_casts :=
  unfold as_i16, as_i32, as_i64, as_u8, as_u16, as_u32, as_u64, as_usize in *.

Ltac in_range := unfold in_u, in_s in *; simpl Z.pow in *; simpl Z.sub in *; lia.

Lemma as_i32_id (z : Z) : in_s 32 z → as_i32 z = z.
Proof. intros. by apply wrap_s_id. Qed.
Lemma as_i64_id (z : Z) : in_s 64 z → as_i64 z = z.
Proof. intros. by apply wrap_s_id. Qed.
Lemma as_i16_id (z : Z) : in_s 16 z → as_i16 z = z.
Proof. intros. by apply wrap_s_id. Qed.
Lemma as_u64_id (z : Z) : in_u 64 z → as_u64 z = z.
Proof. apply wrap_u_id. Qed.
Lemma as_u32_id (z : Z) : in_u 32 z → as_u32 z = z.
Proof. apply wrap_u_id. Qed.
Lemma as_u16_id (z : Z) : in_u 16 z → as_u16 z = z.
Proof. apply wrap_u_id. Qed.
Lemma as_usize_id (z : Z) : in_u 64 z → as_usize z = z.
Proof. apply wrap_u_id. Qed.

Create HintDb rmq.
Create Rewrite HintDb rmq_casts.
#[export] Hint Rewrite as_i16_id as_i32_id as_i64_id as_u16_id as_u32_id as_u64_id
  as_usize_id using in_range : rmq_casts.

(** Removes every cast whose argument [lia] can place in range. *)
Ltac simpl_casts := autorewrite with rmq_casts in *.

(** ** Lists *)

(** [slice[from..to]] for indices the caller has checked. *)
Definition slice {A : Type} (l : list A) (from to : nat) : list A :=
  take (to - from) (drop from l).

(** Overwrites [length d] elements of [l] from index [i] on; the caller has
    checked [i + length d <= length l]. *)
Definition splice {A : Type} (l : list A) (i : nat) (d : list A) : list A :=
  take i l ++ d ++ drop (i + length d) l.

Lemma splice_length {A : Type} (l : list A) (i : nat) (d : list A) :
  (i + length d ≤ length l)%nat → length (splice l i d) = length l.
Proof.
  intros H. unfold splice. rewrite !length_app, length_take, length_drop. lia.
Qed.

Lemma slice_length {A : Type} (l : list A) (i j : nat) :
  (i ≤ j ≤ length l)%nat → length (slice l i j) = (j - i)%nat.
Proof. intros H. unfold slice. rewrite length_take, length_drop. lia. Qed.

Lemma slice_splice_same {A : Type} (l : list A) (i : nat) (d : list A) :
  (i + length d ≤ length l)%nat → slice (splice l i d) i (i + length d) = d.
Proof.
  intros H. unfold slice, splice.
  replace (i + length d - i)%nat with (length d) by lia.
  rewrite drop_app_length' by (rewrite length_take; lia).
  by rewrite take_app_length.
Qed.

(** Bytes outside the window a splice writes are unchanged. *)
Lemma splice_lookup_out {A : Type} (l : list A) (i k : nat) (d : list A) :
  (i + length d ≤ length l)%nat → (k < i ∨ i + length d ≤ k)%nat →
  splice l i d !! k = l !! k.
Proof.
  intros Hl Hk. unfold splice. destruct Hk as [Hk | Hk].
  - rewrite lookup_app_l by (rewrite length_take; lia).
    by rewrite lookup_take_lt by lia.
  - rewrite lookup_app_r by (rewrite length_take; lia).
    rewrite lookup_app_r by (rewrite length_take; lia).
    rewrite lookup_drop, length_take. f_equal. lia.
Qed.

Lemma slice_ext {A : Type} (l1 l2 : list A) (i j : nat) :
  (∀ k, (i ≤ k < j)%nat → l1 !! k = l2 !! k) → slice l1 i j = slice l2 i j.
Proof.
  intros H. apply list_eq. intros k. unfold slice.
  destruct (decide (k < j - i)%nat) as [Hk | Hk].
  - rewrite !lookup_take_lt, !lookup_drop by done. apply H. lia.
  - rewrite !lookup_take_ge by lia. done.
Qed.

(** A window disjoint from what a splice writes reads the old contents. *)
Lemma slice_splice_out {A : Type} (l : list A) (i a b : nat) (d : list A) :
  (i + length d ≤ length l)%nat → (b ≤ i ∨ i + length d ≤ a)%nat →
  slice (splice l i d) a b = slice l a b.
Proof.
  intros Hl Hd. apply slice_ext. intros k Hk. apply splice_lookup_out; lia.
Qed.

#[export] Hint Resolve slice_splice_same slice_splice_out splice_length : rmq.
