(* ===== verification/Bytes.v ===== *)
(** * Bytes: the byte buffers of the [bytes] crate the codecs read and write

    [BytesMut::put_*] appends big-endian integers; [Buf::get_*] reads them from
    the front and panics when too few bytes remain.  Strings are Rust [str]s,
    that is byte sequences, represented by Rocq's [string]. *)

From stdpp Require Import base gmap list strings.
From coqutil Require Import Word.LittleEndianList Byte.
From Stdlib Require Import ZArith Lia.
From Stdlib Require Strings.String Strings.Byte.
From S2P Require Import Prelude.
Open Scope Z_scope.
Open Scope rmq_scope.

Abbreviation byte := Init.Byte.byte.
Abbreviation buffer := (list byte).

(** ** Big-endian integers *)

(** The [n] big-endian bytes of [z] modulo [2^(8 n)]: [z.to_be_bytes()]. *)
Definition be_bytes (n : nat) (z : Z) : buffer := reverse (le_split n z).

(** The unsigned value of a big-endian byte string. *)
Definition be_value (bs : buffer) : Z := le_combine (reverse bs).

Lemma be_bytes_length (n : nat) (z : Z) : length (be_bytes n z) = n.
Proof. unfold be_bytes. by rewrite length_reverse, length_le_split. Qed.

Lemma be_value_bytes (n : nat) (z : Z) :
  be_value (be_bytes n z) = z mod 2 ^ (Z.of_nat n * 8).
Proof. unfold be_value, be_bytes. by rewrite reverse_involutive, le_combine_split. Qed.

Lemma be_bytes_value (bs : buffer) : be_bytes (length bs) (be_value bs) = bs.
Proof.
  unfold be_value, be_bytes. rewrite <- (length_reverse bs).
  by rewrite split_le_combine, reverse_involutive.
Qed.

Definition put_u8 (z : Z) : buffer := be_bytes 1 z.
Definition put_i16 (z : Z) : buffer := be_bytes 2 z.
Definition put_i32 (z : Z) : buffer := be_bytes 4 z.
Definition put_u32 (z : Z) : buffer := be_bytes 4 z.
Definition put_i64 (z : Z) : buffer := be_bytes 8 z.

Lemma put_u8_length z : length (put_u8 z) = 1%nat.
Proof. apply be_bytes_length. Qed.
Lemma put_i16_length z : length (put_i16 z) = 2%nat.
Proof. apply be_bytes_length. Qed.
Lemma put_i32_length z : length (put_i32 z) = 4%nat.
Proof. apply be_bytes_length. Qed.
Lemma put_u32_length z : length (put_u32 z) = 4%nat.
Proof. apply be_bytes_length. Qed.
Lemma put_i64_length z : length (put_i64 z) = 8%nat.
Proof. apply be_bytes_length. Qed.

Create Rewrite HintDb rmq_len.
#[export] Hint Rewrite @length_app be_bytes_length put_u8_length put_i16_length put_i32_length
  put_u32_length put_i64_length : rmq_len.

(** Computes the length of a buffer built from integers and known pieces. *)
Ltac buf_len := autorewrite with rmq_len in *; simpl length in *; lia.

(** ** Readers: [Buf] methods on a cursor over the remaining bytes *)

Definition reader (A : Type) : Type := buffer → outcome (A * buffer).

(** [split_to(n)] / [copy_to_slice] of an [n]-byte array. *)
Definition get_bytes (n : Z) : reader buffer := λ b,
  if decide (n ≤ Z.of_nat (length b)) then Done (take (Z.to_nat n) b, drop (Z.to_nat n) b)
  else Panic.

Definition get_uint (n : nat) : reader Z := λ b,
  let* (v, b') := get_bytes (Z.of_nat n) b in Done (be_value v, b').
Definition get_sint (n : nat) : reader Z := λ b,
  let* (v, b') := get_uint n b in Done (wrap_s (Z.of_nat n * 8) v, b').

Definition get_u8 : reader Z := get_uint 1.
Definition get_i16 : reader Z := get_sint 2.
Definition get_i32 : reader Z := get_sint 4.
Definition get_u32 : reader Z := get_uint 4.
Definition get_i64 : reader Z := get_sint 8.

Lemma get_bytes_app (n : Z) (v rest : buffer) :
  Z.of_nat (length v) = n → get_bytes n (v ++ rest) = Done (v, rest).
Proof.
  intros <-. unfold get_bytes. rewrite decide_True by (rewrite length_app; lia).
  by rewrite Nat2Z.id, take_app_length, drop_app_length.
Qed.

Lemma get_bytes_0 (b : buffer) : get_bytes 0 b = Done ([], b).
Proof. unfold get_bytes. by rewrite decide_True by lia. Qed.

Lemma get_bytes_short (n : Z) (b : buffer) :
  Z.of_nat (length b) < n → get_bytes n b = Panic.
Proof. intros H. unfold get_bytes. by rewrite decide_False by lia. Qed.

(** A successful read splits the buffer. *)
Lemma get_bytes_split (n : Z) (b v rest : buffer) :
  0 ≤ n → get_bytes n b = Done (v, rest) → b = v ++ rest ∧ Z.of_nat (length v) = n.
Proof.
  unfold get_bytes. intros Hn. case_decide; [| done]. intros [= <- <-].
  by rewrite take_drop, length_take_le; [| lia]; split; [| lia].
Qed.

Lemma get_uint_put (n : nat) (z : Z) (rest : buffer) :
  in_u (Z.of_nat n * 8) z → get_uint n (be_bytes n z ++ rest) = Done (z, rest).
Proof.
  intros H. unfold get_uint. rewrite get_bytes_app by (by rewrite be_bytes_length). simpl.
  rewrite be_value_bytes. by rewrite Z.mod_small.
Qed.

Lemma get_sint_put (n : nat) (z : Z) (rest : buffer) :
  in_s (Z.of_nat n * 8) z → (0 < n)%nat →
  get_sint n (be_bytes n z ++ rest) = Done (z, rest).
Proof.
  intros H Hn. unfold get_sint, get_uint.
  rewrite get_bytes_app by (by rewrite be_bytes_length). simpl.
  rewrite be_value_bytes, wrap_s_mod, wrap_s_id; [done | lia | done].
Qed.

(** A signed write of any integer reads back its two's-complement wrap. *)
Lemma get_sint_put_wrap (n : nat) (z : Z) (rest : buffer) :
  get_sint n (be_bytes n z ++ rest) = Done (wrap_s (Z.of_nat n * 8) z, rest).
Proof.
  unfold get_sint, get_uint. rewrite get_bytes_app by (by rewrite be_bytes_length). simpl.
  by rewrite be_value_bytes, wrap_s_mod.
Qed.

(** [used b b' n]: reading [n] bytes takes the cursor from [b] to [b']. *)
Definition used (b b' : buffer) (n : Z) : Prop :=
  ∃ u, b = u ++ b' ∧ Z.of_nat (length u) = n.

Lemma used_0 (b : buffer) : used b b 0.
Proof. by exists []. Qed.
Lemma used_trans (a b c : buffer) (n k : Z) : used a b n → used b c k → used a c (n + k).
Proof.
  intros (u & -> & Hu) (v & -> & Hv). exists (u ++ v).
  rewrite (assoc_L (++)), length_app. split; [done | lia].
Qed.
Lemma get_bytes_used (n : Z) (b v b' : buffer) :
  0 ≤ n → get_bytes n b = Done (v, b') → used b b' n.
Proof. intros Hn H. apply get_bytes_split in H as [-> H]; [| done]. by exists v. Qed.
Lemma get_uint_used (n : nat) (z : Z) (b b' : buffer) :
  get_uint n b = Done (z, b') → used b b' (Z.of_nat n) ∧ 0 ≤ z.
Proof.
  unfold get_uint. intros H. apply obind_done in H as ([v x] & H & Hz).
  apply done_inj in Hz as [= <- <-]. split; [| apply le_combine_bound].
  apply get_bytes_used in H; [done | lia].
Qed.
Lemma get_sint_used (n : nat) (z : Z) (b b' : buffer) :
  (0 < n)%nat → get_sint n b = Done (z, b') →
  used b b' (Z.of_nat n) ∧ in_s (Z.of_nat n * 8) z.
Proof.
  unfold get_sint. intros Hn H. apply obind_done in H as ([v x] & H & Hz).
  apply done_inj in Hz as [= <- <-]. apply get_uint_used in H as [H _].
  split; [done | apply wrap_s_range; lia].
Qed.

Section ReadBack.
Variable rest : buffer.

Lemma get_put_u8 z : in_u 8 z → get_u8 (put_u8 z ++ rest) = Done (z, rest).
Proof. apply (get_uint_put 1). Qed.
Lemma get_put_i16 z : in_s 16 z → get_i16 (put_i16 z ++ rest) = Done (z, rest).
Proof. intros. by apply (get_sint_put 2); [| lia]. Qed.
Lemma get_put_i32 z : in_s 32 z → get_i32 (put_i32 z ++ rest) = Done (z, rest).
Proof. intros. by apply (get_sint_put 4); [| lia]. Qed.
Lemma get_put_u32 z : in_u 32 z → get_u32 (put_u32 z ++ rest) = Done (z, rest).
Proof. apply (get_uint_put 4). Qed.
Lemma get_put_i64 z : in_s 64 z → get_i64 (put_i64 z ++ rest) = Done (z, rest).
Proof. intros. by apply (get_sint_put 8); [| lia]. Qed.
End ReadBack.

(** The high byte of a short length prefix below 256 is zero. *)
Lemma put_i16_small (z : Z) : 0 ≤ z < 256 → put_i16 z = put_u8 0 ++ put_u8 z.
Proof.
  intros H. unfold put_i16, put_u8, be_bytes, le_split.
  replace (Z.shiftr z 8) with 0; [done |].
  rewrite Z.shiftr_div_pow2 by lia. symmetry. by apply Z.div_small.
Qed.

(** ** Strings as bytes *)

Definition str_bytes (s : string) : buffer := String.list_byte_of_string s.
Definition bytes_str (b : buffer) : string := String.string_of_list_byte b.

Lemma bytes_str_bytes (s : string) : bytes_str (str_bytes s) = s.
Proof. apply String.string_of_list_byte_of_string. Qed.

Lemma str_bytes_str (b : buffer) : str_bytes (bytes_str b) = b.
Proof. apply String.list_byte_of_string_of_list_byte. Qed.

#[export] Instance byte_eq_dec : EqDecision byte.
Proof. intros x y. destruct (Byte.byte_eq_dec x y); [left | right]; done. Defined.
