(* ===== verification/Utf8.v ===== *)
(** * Utf8: the standard library's UTF-8 checks

    [str::from_utf8] and [String::from_utf8_lossy] as the message codec uses
    them.  A scan step looks at the front of the buffer and either consumes one
    well-formed character or one maximal ill-formed prefix. *)

From stdpp Require Import base list strings.
From coqutil Require Import Byte.
From Stdlib Require Import ZArith Lia.
From S2P Require Import Prelude Bytes.
Open Scope Z_scope.

Definition between (lo hi : Z) (b : byte) : bool :=
  (lo <=? byte.unsigned b) && (byte.unsigned b <=? hi).

(** A continuation byte [10xxxxxx]. *)
Definition is_cont (b : byte) : bool := between 128 191 b.

(** The bytes allowed in second position after the lead byte [b]. *)
Definition second_ok (b c : byte) : bool :=
  let v := byte.unsigned b in
  if v =? 224 then between 160 191 c
  else if v =? 237 then between 128 159 c
  else if v =? 240 then between 144 191 c
  else if v =? 244 then between 128 143 c
  else is_cont c.

(** The length of the character a lead byte announces; 0 for a byte that
    starts none. *)
Definition lead_len (b : byte) : nat :=
  let v := byte.unsigned b in
  if v <=? 127 then 1
  else if (194 <=? v) && (v <=? 223) then 2
  else if (224 <=? v) && (v <=? 239) then 3
  else if (240 <=? v) && (v <=? 244) then 4
  else 0.

Inductive scan := Char (len : nat) | Bad (len : nat).

(** One step of the scan; [None] at the end of the buffer. *)
Definition utf8_step (bs : buffer) : option scan :=
  match bs with
  | [] => None
  | b :: rest =>
      Some match lead_len b with
      | 1%nat => Char 1
      | 2%nat =>
          match rest with
          | c :: _ => if second_ok b c then Char 2 else Bad 1
          | [] => Bad 1
          end
      | 3%nat =>
          match rest with
          | c :: rest' =>
              if second_ok b c then
                match rest' with
                | d :: _ => if is_cont d then Char 3 else Bad 2
                | [] => Bad 2
                end
              else Bad 1
          | [] => Bad 1
          end
      | 4%nat =>
          match rest with
          | c :: rest' =>
              if second_ok b c then
                match rest' with
                | d :: rest'' =>
                    if is_cont d then
                      match rest'' with
                      | e :: _ => if is_cont e then Char 4 else Bad 3
                      | [] => Bad 3
                      end
                    else Bad 2
                | [] => Bad 2
                end
              else Bad 1
          | [] => Bad 1
          end
      | _ => Bad 1
      end
  end.

(** The three bytes of U+FFFD. *)
Definition replacement : buffer := [Byte.xef; Byte.xbf; Byte.xbd].

Fixpoint utf8_valid_fuel (fuel : nat) (bs : buffer) : bool :=
  match fuel with
  | O => match bs with [] => true | _ => false end
  | S f =>
      match utf8_step bs with
      | None => true
      | Some (Char n) => utf8_valid_fuel f (drop n bs)
      | Some (Bad _) => false
      end
  end.

(** Every step consumes at least one byte, so the length is enough fuel. *)
Definition utf8_valid (bs : buffer) : bool := utf8_valid_fuel (length bs) bs.

Fixpoint lossy_fuel (fuel : nat) (bs : buffer) : buffer :=
  match fuel with
  | O => []
  | S f =>
      match utf8_step bs with
      | None => []
      | Some (Char n) => take n bs ++ lossy_fuel f (drop n bs)
      | Some (Bad n) => replacement ++ lossy_fuel f (drop n bs)
      end
  end.

Definition from_utf8 (bs : buffer) : option string :=
  if utf8_valid bs then Some (bytes_str bs) else None.
Definition from_utf8_lossy (bs : buffer) : string := bytes_str (lossy_fuel (length bs) bs).

(** ** Lemmas *)

(** A character lies inside the buffer and has a positive length. *)
Lemma utf8_step_char (bs : buffer) (n : nat) :
  utf8_step bs = Some (Char n) → (0 < n ≤ length bs)%nat.
Proof.
  intros H. unfold utf8_step in H.
  repeat (case_match; simplify_eq/=; try lia).
Qed.

(** A step only depends on the character it reads. *)
Lemma utf8_step_app (bs rest : buffer) (n : nat) :
  utf8_step bs = Some (Char n) → utf8_step (bs ++ rest) = Some (Char n).
Proof.
  intros H. unfold utf8_step in *.
  destruct bs as [| b bs]; [done |]. simpl.
  repeat (case_match; simplify_eq/=; try done).
Qed.

Lemma utf8_valid_fuel_mono (f1 f2 : nat) (bs : buffer) :
  (f1 ≤ f2)%nat → utf8_valid_fuel f1 bs = true → utf8_valid_fuel f2 bs = true.
Proof.
  revert f2 bs. induction f1 as [| f1 IH]; intros f2 bs Hle H.
  - destruct bs; [| done]. by destruct f2.
  - destruct f2 as [| f2]; [lia |]. simpl in *.
    destruct (utf8_step bs) as [[n | n] |]; [| done | done]. apply IH; [lia | done].
Qed.

Lemma utf8_valid_fuel_app (f1 f2 : nat) (b1 b2 : buffer) :
  utf8_valid_fuel f1 b1 = true → utf8_valid_fuel f2 b2 = true →
  utf8_valid_fuel (f1 + f2) (b1 ++ b2) = true.
Proof.
  revert b1. induction f1 as [| f1 IH]; intros b1 H1 H2.
  - by destruct b1.
  - simpl in *. destruct (utf8_step b1) as [[n | n] |] eqn:Hs; [| done |].
    + rewrite (utf8_step_app _ _ _ Hs). pose proof (utf8_step_char _ _ Hs).
      rewrite drop_app_le by lia. by apply IH.
    + destruct b1; [| done]. simpl app.
      pose proof (utf8_valid_fuel_mono f2 (S (f1 + f2)) b2 ltac:(lia) H2) as H. done.
Qed.

Lemma utf8_valid_app (b1 b2 : buffer) :
  utf8_valid b1 = true → utf8_valid b2 = true → utf8_valid (b1 ++ b2) = true.
Proof. unfold utf8_valid. rewrite length_app. apply utf8_valid_fuel_app. Qed.

Lemma from_utf8_valid (bs : buffer) :
  utf8_valid bs = true → from_utf8 bs = Some (bytes_str bs).
Proof. intros H. unfold from_utf8. by rewrite H. Qed.

(** On well-formed input the lossy conversion is the identity. *)
Lemma from_utf8_lossy_valid (bs : buffer) :
  utf8_valid bs = true → from_utf8_lossy bs = bytes_str bs.
Proof.
  unfold from_utf8_lossy, utf8_valid. intros H. f_equal.
  generalize (length bs) as f, H. clear H. intros f. revert bs.
  induction f as [| f IH]; intros bs H; simpl in *; [by destruct bs |].
  destruct (utf8_step bs) as [[n | n] |] eqn:Hs; [| done | by destruct bs].
  rewrite (IH _ H). apply take_drop.
Qed.
