(* ===== verification/Message.v ===== *)
(** * Message: the message data model of [rocketmq-common]

    [Message], [MessageExt], [MessageExtBrokerInner] and the enumerations and
    flag words they carry ([MessageSysFlag], [MessageVersion],
    [CompressionType]). *)

From stdpp Require Import base gmap list strings.
From Stdlib Require Import ZArith Lia.
From S2P Require Import Prelude Bytes.
Open Scope Z_scope.
Open Scope rmq_scope.

(** ** System flags *)
Module MessageSysFlag.
Definition COMPRESSED_FLAG : Z := 1.
Definition TRANSACTION_PREPARED_TYPE : Z := Z.shiftl 1 2.
Definition TRANSACTION_COMMIT_TYPE : Z := Z.shiftl 2 2.
Definition TRANSACTION_ROLLBACK_TYPE : Z := Z.shiftl 3 2.
Definition BORNHOST_V6_FLAG : Z := Z.shiftl 1 4.
Definition STOREHOSTADDRESS_V6_FLAG : Z := Z.shiftl 1 5.
Definition INNER_BATCH_FLAG : Z := Z.shiftl 1 7.
Definition COMPRESSION_LZ4_TYPE : Z := Z.shiftl 1 8.
Definition COMPRESSION_ZSTD_TYPE : Z := Z.shiftl 2 8.
Definition COMPRESSION_ZLIB_TYPE : Z := Z.shiftl 3 8.
Definition COMPRESSION_TYPE_COMPARATOR : Z := Z.shiftl 7 8.

Definition get_transaction_value (flag : Z) : Z := Z.land flag TRANSACTION_ROLLBACK_TYPE.
Definition reset_transaction_value (flag transaction_type : Z) : Z :=
  Z.lor (Z.land flag (Z.lnot TRANSACTION_ROLLBACK_TYPE)) transaction_type.
Definition clear_compressed_flag (flag : Z) : Z := Z.land flag (Z.lnot COMPRESSED_FLAG).
Definition check (flag expected_flag : Z) : bool := negb (Z.land flag expected_flag =? 0).
End MessageSysFlag.

(** ** Compression types *)
Inductive CompressionType := LZ4 | Zstd | Zlib.

(** [CompressionType::find_by_value]: panics on a value it does not know. *)
Definition find_by_value (value : Z) : outcome CompressionType :=
  if value =? 1 then Done LZ4
  else if value =? 2 then Done Zstd
  else if (value =? 0) || (value =? 3) then Done Zlib
  else Panic.

Definition get_compression_flag (c : CompressionType) : Z :=
  match c with
  | LZ4 => MessageSysFlag.COMPRESSION_LZ4_TYPE
  | Zstd => MessageSysFlag.COMPRESSION_ZSTD_TYPE
  | Zlib => MessageSysFlag.COMPRESSION_ZLIB_TYPE
  end.

Definition get_compression_type (flag : Z) : outcome CompressionType :=
  find_by_value (Z.shiftr (Z.land flag MessageSysFlag.COMPRESSION_TYPE_COMPARATOR) 8).

(** ** Message versions *)
Definition MESSAGE_MAGIC_CODE_V1 : Z := -626843481.
Definition MESSAGE_MAGIC_CODE_V2 : Z := -626843477.
Definition BLANK_MAGIC_CODE : Z := -875286124.

Inductive MessageVersion := V1 | V2.

#[export] Instance MessageVersion_eq_dec : EqDecision MessageVersion.
Proof. solve_decision. Defined.

Definition value_of_magic_code (magic_code : Z) : option MessageVersion :=
  if magic_code =? MESSAGE_MAGIC_CODE_V1 then Some V1
  else if magic_code =? MESSAGE_MAGIC_CODE_V2 then Some V2
  else None.

Definition get_magic_code (v : MessageVersion) : Z :=
  match v with V1 => MESSAGE_MAGIC_CODE_V1 | V2 => MESSAGE_MAGIC_CODE_V2 end.

Definition get_topic_length_size (v : MessageVersion) : Z :=
  match v with V1 => 1 | V2 => 2 end.

(** Reads the topic length: one unsigned byte, or a signed short cast to
    [usize]. *)
Definition get_topic_length (v : MessageVersion) : reader Z := λ b,
  match v with
  | V1 => get_u8 b
  | V2 => let* (n, b') := get_i16 b in Done (as_usize n, b')
  end.

Lemma value_of_get_magic_code (v : MessageVersion) :
  value_of_magic_code (get_magic_code v) = Some v.
Proof. by destruct v. Qed.

(** ** Addresses *)
Inductive SocketAddr :=
| SockV4 (ip : buffer) (port : Z)
| SockV6 (ip : buffer) (port flowinfo scope_id : Z).

Definition octets (a : SocketAddr) : buffer :=
  match a with SockV4 ip _ => ip | SockV6 ip _ _ _ => ip end.
Definition port (a : SocketAddr) : Z :=
  match a with SockV4 _ p => p | SockV6 _ p _ _ => p end.

(** [MessageExt::socket_address_2_byte_buffer]: the octets and the port as an
    [i32]. *)
Definition socket_address_2_byte_buffer (a : SocketAddr) : buffer :=
  match a with
  | SockV4 ip p => ip ++ put_i32 p
  | SockV6 ip p _ _ => ip ++ put_i32 p
  end.

(** Octets of the right number, a 16-bit port, and for an IPv6 address no flow
    label or scope, which the wire format drops. *)
Definition wf_addr (a : SocketAddr) : Prop :=
  match a with
  | SockV4 ip p => length ip = 4%nat ∧ in_u 16 p
  | SockV6 ip p flow scope => length ip = 16%nat ∧ in_u 16 p ∧ flow = 0 ∧ scope = 0
  end.

Definition is_v6 (a : SocketAddr) : bool :=
  match a with SockV4 _ _ => false | SockV6 _ _ _ _ => true end.

Lemma socket_address_length (a : SocketAddr) :
  wf_addr a →
  length (socket_address_2_byte_buffer a) = if is_v6 a then 20%nat else 8%nat.
Proof.
  destruct a; simpl; intros H; unfold put_i32;
    rewrite length_app, be_bytes_length; destruct H as [-> _]; done.
Qed.

Lemma socket_bytes_octets (a : SocketAddr) :
  socket_address_2_byte_buffer a = octets a ++ put_i32 (port a).
Proof. by destruct a. Qed.

(** ** Messages *)
Record Message := mkMessage {
  topic : string;
  flag : Z;
  properties : gmap string string;
  body : option buffer;
  compressed_body : option buffer;
  transaction_id : option string;
}.

Definition default_message : Message :=
  mkMessage "" 0 ∅ None None None.

Record MessageExt := mkMessageExt {
  message : Message;
  broker_name : string;
  queue_id : Z;
  store_size : Z;
  queue_offset : Z;
  sys_flag : Z;
  born_timestamp : Z;
  born_host : SocketAddr;
  store_timestamp : Z;
  store_host : SocketAddr;
  msg_id : string;
  commit_log_offset : Z;
  body_crc : Z;
  reconsume_times : Z;
  prepared_transaction_offset : Z;
}.

(** 127.0.0.1:10911 *)
Definition default_host : SocketAddr :=
  SockV4 [Byte.x7f; Byte.x00; Byte.x00; Byte.x01] 10911.

Definition default_message_ext : MessageExt :=
  mkMessageExt default_message "" 0 0 0 0 0 default_host 0 default_host "" 0 0 0 0.

Record MessageExtBrokerInner := mkBrokerInner {
  message_ext_inner : MessageExt;
  properties_string : string;
  tags_code : Z;
  encoded_buff : option buffer;
  encode_completed : bool;
  version : MessageVersion;
}.

(** The store time, set on entry to the log and again under its lock. *)
Definition set_inner (e : MessageExt) (m : MessageExtBrokerInner) : MessageExtBrokerInner :=
  mkBrokerInner e (properties_string m) (tags_code m) (encoded_buff m) (encode_completed m)
    (version m).
Definition set_msg_timestamp (t : Z) (m : MessageExtBrokerInner) : MessageExtBrokerInner :=
  let e := message_ext_inner m in
  set_inner (mkMessageExt (message e) (broker_name e) (queue_id e) (store_size e) (queue_offset e)
    (sys_flag e) (born_timestamp e) (born_host e) t (store_host e) (msg_id e)
    (commit_log_offset e) (body_crc e) (reconsume_times e) (prepared_transaction_offset e)) m.

Lemma set_msg_timestamp_same (m : MessageExtBrokerInner) :
  set_msg_timestamp (store_timestamp (message_ext_inner m)) m = m.
Proof. by destruct m as [[]]. Qed.

(** ** Facts about the flag words *)

(** Setting the transaction bits keeps every other flag. *)
Lemma reset_transaction_value_get (f t : Z) :
  Z.land t (Z.lnot MessageSysFlag.TRANSACTION_ROLLBACK_TYPE) = 0 →
  MessageSysFlag.get_transaction_value (MessageSysFlag.reset_transaction_value f t) = t ∧
  Z.land (MessageSysFlag.reset_transaction_value f t)
         (Z.lnot MessageSysFlag.TRANSACTION_ROLLBACK_TYPE) =
  Z.land f (Z.lnot MessageSysFlag.TRANSACTION_ROLLBACK_TYPE).
Proof.
  unfold MessageSysFlag.get_transaction_value, MessageSysFlag.reset_transaction_value.
  set (m := MessageSysFlag.TRANSACTION_ROLLBACK_TYPE). intros Ht. split.
  - rewrite Z.land_lor_distr_l, <- Z.land_assoc, (Z.land_comm (Z.lnot m)), Z.land_lnot_diag,
      Z.land_0_r, Z.lor_0_l.
    transitivity (Z.lor (Z.land t m) (Z.land t (Z.lnot m))).
    + by rewrite Ht, Z.lor_0_r.
    + by rewrite <- Z.land_lor_distr_r, Z.lor_lnot_diag, Z.land_m1_r.
  - by rewrite Z.land_lor_distr_l, Ht, Z.lor_0_r, <- Z.land_assoc, Z.land_diag.
Qed.
