(* ===== verification/Properties.v ===== *)
(** * Properties: the property-string codec of [message_decoder.rs]

    A message carries its properties as one string of [name SOH value STX]
    entries.  [string_to_message_properties] scans it by byte index;
    [message_properties_to_string] prints a [HashMap] in its (unspecified)
    iteration order, which the model takes as an argument. *)

From stdpp Require Import base gmap list strings.
From Stdlib Require Import ZArith Lia.
From S2P Require Import Prelude Bytes Utf8 Message.
Open Scope nat_scope.

Definition NAME_VALUE_SEPARATOR : byte := Byte.x01.
Definition PROPERTY_SEPARATOR : byte := Byte.x02.

(** [str::find] of a one-byte character. *)
Fixpoint find_byte (c : byte) (bs : buffer) : option nat :=
  match bs with
  | [] => None
  | b :: bs' => if decide (b = c) then Some O else S <$> find_byte c bs'
  end.

(** ** Parsing *)

(** The [while index < len] loop. *)
Fixpoint parse_loop (fuel : nat) (bs : buffer) (index : nat) (map : gmap string string)
  : gmap string string :=
  match fuel with
  | O => map
  | S f =>
      if index <? length bs then
        let new_index :=
          match find_byte PROPERTY_SEPARATOR (drop index bs) with
          | Some i => index + i
          | None => length bs
          end in
        let map' :=
          if 3 <=? new_index - index then
            match find_byte NAME_VALUE_SEPARATOR (slice bs index new_index) with
            | Some kv =>
                let kv_sep_index := index + kv in
                if (index <? kv_sep_index) && (kv_sep_index <? new_index - 1) then
                  let k := slice bs index kv_sep_index in
                  let v := slice bs (kv_sep_index + 1) new_index in
                  <[bytes_str k := bytes_str v]> map
                else map
            | None => map
            end
          else map in
        parse_loop f bs (new_index + 1) map'
      else map
  end.

(** [string_to_message_properties] (and [str_to_message_properties], which has
    the same body): every iteration advances the index, so the length of the
    string is enough fuel. *)
Definition string_to_message_properties (s : option string) : gmap string string :=
  match s with
  | None => ∅
  | Some p => parse_loop (length (str_bytes p)) (str_bytes p) 0 ∅
  end.

(** ** Printing *)

Definition entry_bytes (e : string * string) : buffer :=
  str_bytes e.1 ++ [NAME_VALUE_SEPARATOR] ++ str_bytes e.2 ++ [PROPERTY_SEPARATOR].

(** [message_properties_to_string] over the entries in iteration order. *)
Definition message_properties_to_string (entries : list (string * string)) : string :=
  bytes_str (concat (entry_bytes <$> entries)).

(** ** Well-formed entries *)

Definition no_byte (c : byte) (s : string) : Prop := c ∉ str_bytes s.

(** Neither separator may occur in a name, and a value must not contain the
    entry separator (it may contain the name separator). *)
Definition sep_free (e : string * string) : Prop :=
  no_byte NAME_VALUE_SEPARATOR e.1 ∧ no_byte PROPERTY_SEPARATOR e.1 ∧
  no_byte PROPERTY_SEPARATOR e.2.

Definition nonempty_entry (e : string * string) : Prop := e.1 ≠ "" ∧ e.2 ≠ "".
#[export] Instance nonempty_entry_dec e : Decision (nonempty_entry e).
Proof. unfold nonempty_entry. apply _. Defined.

(** Decides whether concrete entries are well formed. *)
Ltac solve_sep_free :=
  vm_compute; repeat split; intros H; inversion H;
  repeat match goal with H : _ ∈ _ |- _ => inversion H; clear H end.

(** ** Lemmas *)

Lemma find_byte_none (c : byte) (bs : buffer) : c ∉ bs → find_byte c bs = None.
Proof.
  induction bs as [| b bs IH]; intros H; [done |]. simpl.
  rewrite decide_False by set_solver. by rewrite IH by set_solver.
Qed.

Lemma find_byte_app (c : byte) (bs rest : buffer) :
  c ∉ bs → find_byte c (bs ++ c :: rest) = Some (length bs).
Proof.
  induction bs as [| b bs IH]; intros H; simpl.
  - by rewrite decide_True.
  - rewrite decide_False by set_solver. by rewrite IH by set_solver.
Qed.

Lemma find_byte_lt (c : byte) (bs : buffer) (i : nat) :
  find_byte c bs = Some i → i < length bs.
Proof.
  revert i. induction bs as [| b bs IH]; intros i H; [done |]. simpl in *.
  case_decide; simplify_eq/=; [lia |].
  destruct (find_byte c bs) as [j |]; simplify_eq/=. specialize (IH j eq_refl). lia.
Qed.

Lemma str_bytes_nil (s : string) : str_bytes s = [] ↔ s = "".
Proof.
  split; intros H.
  - by rewrite <- (bytes_str_bytes s), H.
  - by subst.
Qed.

(** The same scan on the unread suffix. *)
Fixpoint parse_suffix (fuel : nat) (rest : buffer) (map : gmap string string)
  : gmap string string :=
  match fuel with
  | O => map
  | S f =>
      match rest with
      | [] => map
      | _ =>
          let n := default (length rest) (find_byte PROPERTY_SEPARATOR rest) in
          let seg := take n rest in
          let map' :=
            if 3 <=? n then
              match find_byte NAME_VALUE_SEPARATOR seg with
              | Some kv =>
                  if (0 <? kv) && (kv <? n - 1) then
                    <[bytes_str (take kv seg) := bytes_str (drop (kv + 1) seg)]> map
                  else map
              | None => map
              end
            else map in
          parse_suffix f (drop (n + 1) rest) map'
      end
  end.

Lemma slice_from_drop {A} (bs : list A) (i n : nat) :
  slice bs i (i + n) = take n (drop i bs).
Proof. unfold slice. f_equal. lia. Qed.

Lemma parse_loop_suffix (fuel i : nat) (bs : buffer) (m : gmap string string) :
  parse_loop fuel bs i m = parse_suffix fuel (drop i bs) m.
Proof.
  revert i m. induction fuel as [| f IH]; intros i m; [done |]. cbn [parse_loop parse_suffix].
  destruct (Nat.ltb_spec i (length bs)) as [Hi | Hi]; cycle 1.
  { by rewrite drop_ge by lia. }
  destruct (drop i bs) as [| b0 r0] eqn:Hd.
  { apply (f_equal length) in Hd. rewrite length_drop in Hd. simpl in Hd. lia. }
  rewrite <- Hd. clear b0 r0 Hd. set (rest := drop i bs) in *.
  assert (length rest = length bs - i) as Hlen by (unfold rest; apply length_drop).
  set (n := default (length rest) (find_byte PROPERTY_SEPARATOR rest)).
  assert (match find_byte PROPERTY_SEPARATOR rest with Some j => i + j | None => length bs end
          = i + n) as ->.
  { unfold n. destruct (find_byte _ rest); simpl; [done | lia]. }
  cbv zeta. rewrite IH. replace (i + n + 1) with (i + (n + 1)) by lia.
  rewrite <- drop_drop. fold rest. f_equal.
  replace (i + n - i) with n by lia. rewrite slice_from_drop. fold rest.
  destruct (3 <=? n) eqn:H3; [| done].
  destruct (find_byte NAME_VALUE_SEPARATOR (take n rest)) as [kv |] eqn:Hkv; [| done].
  apply find_byte_lt in Hkv. rewrite length_take in Hkv.
  replace (i <? i + kv) with (0 <? kv)
    by (destruct (Nat.ltb_spec 0 kv), (Nat.ltb_spec i (i + kv)); lia).
  replace (i + kv <? i + n - 1) with (kv <? n - 1)
    by (destruct (Nat.ltb_spec kv (n - 1)), (Nat.ltb_spec (i + kv) (i + n - 1)); lia).
  destruct ((0 <? kv) && (kv <? n - 1)); [| done].
  rewrite slice_from_drop. fold rest. unfold slice.
  replace (i + n - (i + kv + 1)) with (n - (kv + 1)) by lia.
  replace (drop (i + kv + 1) bs) with (drop (kv + 1) rest)
    by (unfold rest; rewrite drop_drop; f_equal; lia).
  rewrite take_take, Nat.min_l by lia. by rewrite skipn_firstn_comm.
Qed.

(** One printed entry at the front is one iteration. *)
Lemma parse_suffix_entry (f : nat) (e : string * string) (rest : buffer)
    (m : gmap string string) :
  sep_free e →
  parse_suffix (S f) (entry_bytes e ++ rest) m =
  parse_suffix f rest (if decide (nonempty_entry e) then <[e.1 := e.2]> m else m).
Proof.
  destruct e as [k v]. intros (Hk1 & Hk2 & Hv2). cbn [fst snd] in *. unfold no_byte in *.
  set (seg := str_bytes k ++ [NAME_VALUE_SEPARATOR] ++ str_bytes v).
  assert (entry_bytes (k, v) ++ rest = seg ++ PROPERTY_SEPARATOR :: rest) as ->.
  { unfold entry_bytes, seg. cbn [fst snd]. by rewrite <- !(assoc_L (++)). }
  assert (PROPERTY_SEPARATOR ∉ seg) as Hsep.
  { unfold seg, NAME_VALUE_SEPARATOR, PROPERTY_SEPARATOR in *.
    rewrite !elem_of_app, list_elem_of_singleton. intros [?|[?|?]]; [done | discriminate | done]. }
  cbn [parse_suffix]. rewrite (find_byte_app _ _ _ Hsep).
  destruct (seg ++ PROPERTY_SEPARATOR :: rest) as [| b0 r0] eqn:Hne;
    [by destruct seg |]. rewrite <- Hne. clear b0 r0 Hne. cbn [default from_option id].
  rewrite take_app_length. cbv zeta.
  rewrite drop_app_ge, (Nat.add_comm (length seg)), Nat.add_sub by lia. cbn [drop].
  rewrite (skipn_O rest). f_equal.
  assert (find_byte NAME_VALUE_SEPARATOR seg = Some (length (str_bytes k))) as ->
    by (apply find_byte_app, Hk1).
  assert (length seg = length (str_bytes k) + 1 + length (str_bytes v)) as Hlen.
  { unfold seg. rewrite !length_app. simpl. lia. }
  rewrite Hlen. unfold seg at 1 2. rewrite take_app_length.
  rewrite app_assoc, drop_app_length', !bytes_str_bytes by (rewrite length_app; simpl; lia).
  pose proof (str_bytes_nil k) as Hk. pose proof (str_bytes_nil v) as Hv.
  rewrite <- length_zero_iff_nil in Hk, Hv.
  destruct (decide _) as [[H1 H2] | Hn]; unfold nonempty_entry in *; cbn [fst snd] in *.
  - rewrite (proj2 (Nat.leb_le 3 _)), (proj2 (Nat.ltb_lt 0 _)), (proj2 (Nat.ltb_lt _ _));
      [done | | |]; assert (length (str_bytes k) ≠ 0 ∧ length (str_bytes v) ≠ 0) by tauto; lia.
  - destruct (3 <=? _) eqn:H3; [| done].
    destruct (Nat.ltb_spec 0 (length (str_bytes k))); [| done].
    destruct (Nat.ltb_spec (length (str_bytes k))
                (length (str_bytes k) + 1 + length (str_bytes v) - 1)); [| done].
    destruct Hn. split; intros ->; simpl in *; lia.
Qed.

Lemma parse_suffix_nil (f : nat) (m : gmap string string) : parse_suffix f [] m = m.
Proof. by destruct f. Qed.

Lemma entry_bytes_pos (e : string * string) : 2 ≤ length (entry_bytes e).
Proof. unfold entry_bytes. rewrite !length_app. simpl. lia. Qed.

(** What printing and parsing back leaves: entries with an empty name or value
    are dropped, and a repeated name keeps its last value. *)
Definition kept (m : gmap string string) (entries : list (string * string))
  : gmap string string :=
  foldl (λ m e, if decide (nonempty_entry e) then <[e.1 := e.2]> m else m) m entries.

Lemma parse_suffix_entries (entries : list (string * string)) (f : nat)
    (m : gmap string string) :
  Forall sep_free entries → length (concat (entry_bytes <$> entries)) ≤ f →
  parse_suffix f (concat (entry_bytes <$> entries)) m = kept m entries.
Proof.
  intros Hall. revert f m. induction Hall as [| e es He _ IH]; intros f m Hf; csimpl.
  - apply parse_suffix_nil.
  - csimpl in Hf. rewrite length_app in Hf. pose proof (entry_bytes_pos e).
    destruct f as [| f]; [lia |]. rewrite parse_suffix_entry by done. apply IH. lia.
Qed.

(** Any fuel at least the length of the unread part gives the same map. *)
Lemma parse_suffix_fuel (f1 f2 : nat) (rest : buffer) (m : gmap string string) :
  length rest ≤ f1 → length rest ≤ f2 → parse_suffix f1 rest m = parse_suffix f2 rest m.
Proof.
  revert f2 rest m. induction f1 as [| f1 IH]; intros f2 rest m H1 H2.
  { destruct rest; [| simpl in *; lia]. by rewrite !parse_suffix_nil. }
  destruct rest as [| b rest]; [by rewrite !parse_suffix_nil |].
  destruct f2 as [| f2]; [simpl in *; lia |].
  cbn [parse_suffix]. cbv zeta. apply IH; rewrite length_drop; simpl in *; lia.
Qed.

Lemma kept_lookup_notin (entries : list (string * string)) (m : gmap string string) k :
  k ∉ entries.*1 → kept m entries !! k = m !! k.
Proof.
  revert m. induction entries as [| [k' v'] es IH]; intros m H; [done |].
  cbn [fmap list_fmap fst] in H. apply not_elem_of_cons in H as [Hne H].
  unfold kept. cbn [foldl]. fold (kept m es).
  change (foldl _ ?m0 es) with (kept m0 es). rewrite IH by done.
  case_decide; simpl; [by rewrite lookup_insert_ne by done | done].
Qed.

Lemma kept_list_to_map (entries : list (string * string)) (m : gmap string string) :
  NoDup entries.*1 → Forall nonempty_entry entries →
  kept m entries = list_to_map entries ∪ m.
Proof.
  intros Hnd Hne. revert m. induction entries as [| [k v] es IH]; intros m.
  { by rewrite list_to_map_nil, map_empty_union. }
  apply NoDup_cons in Hnd as [Hk Hnd]. apply Forall_cons in Hne as [Hkv Hne].
  unfold kept. cbn [foldl]. change (foldl _ ?m0 es) with (kept m0 es).
  rewrite IH by done. rewrite decide_True by done. simpl.
  rewrite <- insert_union_l, insert_union_r; [done |].
  by apply not_elem_of_list_to_map_1.
Qed.

Lemma kept_permutation (entries : list (string * string)) (m : gmap string string) :
  entries ≡ₚ map_to_list m → map_Forall (λ k v, k ≠ "" ∧ v ≠ "") m →
  kept ∅ entries = m.
Proof.
  intros Hp Hne.
  assert (NoDup entries.*1) as Hnd by (rewrite Hp; apply NoDup_fst_map_to_list).
  rewrite kept_list_to_map, map_union_empty; [| done |].
  - rewrite (list_to_map_proper _ (map_to_list m)) by done. apply list_to_map_to_list.
  - rewrite Hp. apply Forall_forall. intros [k v] Hin%elem_of_map_to_list.
    apply (Hne _ _ Hin).
Qed.

Lemma parse_print_kept (entries : list (string * string)) :
  Forall sep_free entries →
  string_to_message_properties (Some (message_properties_to_string entries)) =
  kept ∅ entries.
Proof.
  intros H. unfold string_to_message_properties, message_properties_to_string.
  rewrite str_bytes_str, parse_loop_suffix, drop_0. by apply parse_suffix_entries.
Qed.

Lemma message_properties_to_string_valid (entries : list (string * string)) :
  Forall (λ e, utf8_valid (str_bytes e.1) = true ∧ utf8_valid (str_bytes e.2) = true)
    entries →
  utf8_valid (str_bytes (message_properties_to_string entries)) = true.
Proof.
  unfold message_properties_to_string. rewrite str_bytes_str.
  induction 1 as [| e es [H1 H2] _ IH]; csimpl; [done |].
  unfold entry_bytes. repeat apply utf8_valid_app; done.
Qed.

(** ** Theorems *)

(** printing a property map in any iteration order and parsing the string
    back gives the same map, for names and values that are not empty and do
    not contain the separators. *)
Theorem properties_roundtrip (m : gmap string string) (entries : list (string * string)) :
  entries ≡ₚ map_to_list m →
  map_Forall (λ k v, sep_free (k, v) ∧ nonempty_entry (k, v)) m →
  string_to_message_properties (Some (message_properties_to_string entries)) = m.
Proof.
  intros Hp Hm. rewrite parse_print_kept.
  - apply kept_permutation; [done |]. intros k v Hkv. apply (Hm _ _ Hkv).
  - rewrite Hp. apply Forall_forall. intros [k v] Hin%elem_of_map_to_list.
    apply (Hm _ _ Hin).
Qed.

Lemma properties_roundtrip_witness :
  string_to_message_properties
    (Some (message_properties_to_string (map_to_list
       (<["KEYS" := "k1 k2"]> {["TAGS" := "a"]} : gmap string string)))) =
  <["KEYS" := "k1 k2"]> {["TAGS" := "a"]}.
Proof.
  apply (properties_roundtrip (<["KEYS" := "k1 k2"]> {["TAGS" := "a"]})); [done |].
  apply map_Forall_insert_2; [| apply map_Forall_singleton];
    vm_compute; repeat split; intros H; inversion H;
    repeat match goal with H : _ ∈ _ |- _ => inversion H; clear H end.
Defined.

(** the general law: entries with an empty name or an empty value are lost
    by the round trip, and of entries with the same name the last one wins. *)
Theorem properties_roundtrip_general (entries : list (string * string)) (k : string) :
  Forall sep_free entries →
  string_to_message_properties (Some (message_properties_to_string entries)) !! k =
  snd <$> last (filter (λ e, nonempty_entry e ∧ e.1 = k) entries).
Proof.
  intros H. rewrite parse_print_kept by done. clear H.
  induction entries as [| e es IH] using rev_ind; [done |].
  rewrite filter_app. unfold kept. rewrite foldl_app. cbn [foldl].
  fold (kept ∅ es). rewrite filter_cons, filter_nil.
  destruct (decide (nonempty_entry e)) as [He | He]; cycle 1.
  - rewrite decide_False by tauto. by rewrite app_nil_r.
  - destruct (decide (e.1 = k)) as [<- | Hk].
    + rewrite decide_True by tauto. rewrite last_snoc. by rewrite lookup_insert_eq.
    + rewrite decide_False by tauto. by rewrite app_nil_r, lookup_insert_ne by done.
Qed.

Lemma properties_roundtrip_general_witness :
  string_to_message_properties
    (Some (message_properties_to_string [("a", "1"); ("b", ""); ("a", "2")])) !! "a" =
  Some "2".
Proof.
  rewrite (properties_roundtrip_general [("a", "1"); ("b", ""); ("a", "2")] "a"); [done |].
  repeat constructor; vm_compute; intros H; inversion H;
    repeat match goal with H : _ ∈ _ |- _ => inversion H; clear H end.
Defined.

(** The length of the string is enough fuel: more of it changes nothing. *)
Lemma parse_loop_fuel (bs : buffer) (extra : nat) :
  parse_loop (length bs + extra) bs 0 ∅ = parse_loop (length bs) bs 0 ∅.
Proof.
  rewrite !parse_loop_suffix, !drop_0. apply parse_suffix_fuel; lia.
Qed.
