(* ===== verification/MessageId.v ===== *)
(** * MessageId: message ids ([message_utils.rs], [util_all.rs])

    A message id is the hexadecimal text of the store host's address, its port
    and the physical offset.  [str::to_uppercase] and [str::chars] are modelled
    on ASCII text, which is what [bytes_to_string] produces. *)

From stdpp Require Import base list strings.
From coqutil Require Import Byte.
From Stdlib Require Import ZArith Lia.
From S2P Require Import Prelude Bytes Message.
Open Scope Z_scope.
Open Scope rmq_scope.

(** ** Hexadecimal *)

Definition HEX_ARRAY : list byte :=
  [Byte.x30; Byte.x31; Byte.x32; Byte.x33; Byte.x34; Byte.x35; Byte.x36; Byte.x37;
   Byte.x38; Byte.x39; Byte.x41; Byte.x42; Byte.x43; Byte.x44; Byte.x45; Byte.x46].

Definition hex_at (v : Z) : byte := default Byte.x00 (HEX_ARRAY !! Z.to_nat v).

Definition byte_hex (b : byte) : buffer :=
  let v := byte.unsigned b in [hex_at (Z.shiftr v 4); hex_at (Z.land v 15)].

(** [bytes_to_string] *)
Definition bytes_to_string (src : buffer) : string := bytes_str (src ≫= byte_hex).

Definition to_uppercase (b : byte) : byte :=
  let v := byte.unsigned b in
  if (97 <=? v) && (v <=? 122) then byte.of_Z (v - 32) else b.

Definition char_to_byte (c : byte) : Z :=
  let v := byte.unsigned c in
  if (48 <=? v) && (v <=? 57) then v - 48
  else if (65 <=? v) && (v <=? 70) then v - 65 + 10
  else 0.

(** The [for i in 0..length] loop, two characters at a time. *)
Fixpoint hex_pairs (cs : buffer) : buffer :=
  match cs with
  | hi :: lo :: rest =>
      byte.of_Z (Z.lor (as_u8 (Z.shiftl (char_to_byte hi) 4)) (char_to_byte lo))
        :: hex_pairs rest
  | _ => []
  end.

(** [string_to_bytes] *)
Definition string_to_bytes (hex_string : string) : option buffer :=
  match str_bytes hex_string with
  | [] => None
  | cs => Some (hex_pairs (to_uppercase <$> cs))
  end.

(** ** Message ids *)

Record MessageId := mkMessageId { address : SocketAddr; offset : Z }.

Definition build_message_id (socket_addr : SocketAddr) (wrote_offset : Z) : string :=
  bytes_to_string
    (match socket_addr with
     | SockV4 ip p => ip ++ put_i32 p
     | SockV6 ip p _ _ => ip ++ put_i32 p
     end ++ put_i64 wrote_offset).

Definition decode_message_id (msg_id : string) : outcome MessageId :=
  let* buf := unwrap (string_to_bytes msg_id) in
  let* (addr, buf) :=
    if (length (str_bytes msg_id) =? 32)%nat then
      let* (ip, buf) := get_bytes 4 buf in
      let* (p, buf) := get_i32 buf in
      Done (SockV4 ip (as_u16 p), buf)
    else
      let* (ip, buf) := get_bytes 16 buf in
      let* (p, buf) := get_i32 buf in
      Done (SockV6 ip (as_u16 p) 0 0, buf) in
  let* (off, buf) := get_i64 buf in
  Done (mkMessageId addr off).

(** [build_batch_message_id]: one id per physical position, comma separated. *)
Fixpoint batch_ids (host : buffer) (phy_pos : list Z) : buffer :=
  match phy_pos with
  | [] => []
  | [p] => (host ++ put_i64 p) ≫= byte_hex
  | p :: ps => ((host ++ put_i64 p) ≫= byte_hex) ++ [Byte.x2c] ++ batch_ids host ps
  end.

(** [copy_from_slice] panics unless the address has [store_host_length] bytes. *)
Definition build_batch_message_id (socket_addr : SocketAddr) (store_host_length : Z)
    (batch_size : Z) (phy_pos : list Z) : outcome string :=
  if batch_size =? 0 then Done ""
  else
    let host := socket_address_2_byte_buffer socket_addr in
    if Z.of_nat (length host) =? store_host_length
    then Done (bytes_str (batch_ids host phy_pos)) else Panic.

(** ** Lemmas *)

(** Both digits of a byte read back as its value; checked for all 256 bytes. *)
Lemma hex_pair_byte (b : byte) :
  hex_pairs (to_uppercase <$> byte_hex b) = [b].
Proof. by destruct b. Qed.

Lemma hex_pairs_bytes (bs : buffer) :
  hex_pairs (to_uppercase <$> (bs ≫= byte_hex)) = bs.
Proof.
  induction bs as [| b bs IH]; [done |]. csimpl.
  pose proof (hex_pair_byte b) as Hb. injection Hb as Hb. f_equal; [apply Hb | apply IH].
Qed.

Lemma byte_hex_length (bs : buffer) : length (bs ≫= byte_hex) = (2 * length bs)%nat.
Proof. induction bs as [| b bs IH]; csimpl; [done | rewrite IH; lia]. Qed.

Lemma string_to_bytes_to_string (bs : buffer) :
  bs ≠ [] → string_to_bytes (bytes_to_string bs) = Some bs.
Proof.
  intros Hne. unfold string_to_bytes, bytes_to_string. rewrite str_bytes_str.
  destruct (bs ≫= byte_hex) as [| c cs] eqn:E.
  - by destruct bs.
  - by rewrite <- E, hex_pairs_bytes.
Qed.

(** The port survives its trip through an [i32]. *)
Lemma port_i32 (p : Z) (rest : buffer) :
  in_u 16 p → get_i32 (put_i32 p ++ rest) = Done (p, rest).
Proof. intros H. apply get_put_i32. in_range. Qed.

(** ** Theorems *)

(** decoding the id built for a store address and a physical offset gives
    that address and that offset back, for IPv4 and IPv6 addresses. *)
Theorem message_id_roundtrip (a : SocketAddr) (off : Z) :
  wf_addr a → in_s 64 off →
  decode_message_id (build_message_id a off) = Done (mkMessageId a off).
Proof.
  intros Ha Ho. unfold decode_message_id, build_message_id.
  rewrite string_to_bytes_to_string by (destruct a as [[] | []]; done). simpl unwrap.
  unfold bytes_to_string at 1. rewrite str_bytes_str, byte_hex_length.
  assert (get_i64 (put_i64 off) = Done (off, [])) as Hoff
    by (rewrite <- (app_nil_r (put_i64 off)); by apply get_put_i64).
  destruct a as [ip p | ip p fl sc]; simpl in Ha.
  - destruct Ha as [Hip Hp]. autorewrite with rmq_len. rewrite Hip. cbn [Nat.eqb Nat.add Nat.mul].
    cbn [obind]. rewrite <- (assoc_L (++)), get_bytes_app by lia. cbn [obind].
    rewrite port_i32 by done. cbn [obind]. rewrite Hoff. cbn [obind]. by rewrite as_u16_id.
  - destruct Ha as (Hip & Hp & -> & ->). autorewrite with rmq_len. rewrite Hip.
    cbn [Nat.eqb Nat.add Nat.mul].
    cbn [obind]. rewrite <- (assoc_L (++)), get_bytes_app by lia. cbn [obind].
    rewrite port_i32 by done. cbn [obind]. rewrite Hoff. cbn [obind]. by rewrite as_u16_id.
Qed.

Lemma message_id_roundtrip_witness :
  decode_message_id (build_message_id default_host 4096) =
  Done (mkMessageId default_host 4096).
Proof. apply (message_id_roundtrip default_host 4096); simpl; [split; [done |] |]; in_range. Defined.
