(* ===== verification/MessageDecoder.v ===== *)
(** * MessageDecoder: decoding stored messages and the client batch format
    ([message_decoder.rs])

    [decode] reads one record of the commit log; [encode_message] and
    [decode_message] are the format of a batch body.  The CRC and the
    compression codecs are third-party crates: they are parameters of the
    section. *)

From stdpp Require Import base gmap list strings.
From Stdlib Require Import ZArith Lia.
From S2P Require Import Prelude Bytes Utf8 Message Properties MessageId.
Open Scope Z_scope.
Open Scope rmq_scope.

Definition MESSAGE_MAGIC_CODE_POSITION : Z := 4.
Definition SYSFLAG_POSITION : Z := 4 + 4 + 4 + 4 + 4 + 8 + 8.
Definition BORN_TIMESTAMP_POSITION : Z := 4 + 4 + 4 + 4 + 4 + 8 + 8 + 4 + 8.

Section Decoder.
(** [crc32fast::Hasher] over a buffer. *)
Variable crc32fast : buffer → Z.
(** [CompressionType::decompression], which unwraps the codec's result. *)
Variable decompression : CompressionType → buffer → outcome buffer.

(** [CRC32Utils::crc32] *)
Definition crc32 (buf : buffer) : Z :=
  match buf with
  | [] => 0
  | _ => Z.land (crc32fast buf) 2147483647
  end.

(** The born and store host fields: the octets and the port, and the length of
    the address. *)
Definition read_host (v6 : bool) : reader (SocketAddr * Z) := λ b,
  if v6 then
    let* (ip, b) := get_bytes 16 b in
    let* (p, b) := get_i32 b in
    Done ((SockV6 ip (as_u16 p) 0 0, 16), b)
  else
    let* (ip, b) := get_bytes 4 b in
    let* (p, b) := get_i32 b in
    Done ((SockV4 ip (as_u16 p), 4), b).

(** Field 15: [None] when the CRC check fails, otherwise the message body. *)
Definition read_body_field (read_body de_compress_body check_crc : bool)
    (crc flags sysf born_len store_len : Z) : reader (option (option buffer)) := λ b,
  let* (body_len, b) := get_i32 b in
  if 0 <? body_len then
    if read_body then
      let* (bytes, b) := get_bytes body_len b in
      if check_crc && negb (crc32 bytes =? crc) then Done (None, b)
      else if de_compress_body &&
              (Z.land sysf MessageSysFlag.COMPRESSED_FLAG =? MessageSysFlag.COMPRESSED_FLAG)
      then
        let* ct := find_by_value
                     (Z.shiftr (Z.land flags MessageSysFlag.COMPRESSION_TYPE_COMPARATOR) 8) in
        let* plain := decompression ct bytes in
        Done (Some (Some plain), b)
      else Done (Some (Some bytes), b)
    else
      let* (_, b) := get_bytes (BORN_TIMESTAMP_POSITION + born_len + 4 + 8 + store_len + 4
                                + 4 + 8 + 4 + body_len) b in
      Done (Some None, b)
  else Done (Some None, b).

(** Field 17: the property map, with the raw string added on request. *)
Definition read_properties (is_set_properties_string : bool)
  : reader (gmap string string) := λ b,
  let* (properties_length, b) := get_i16 b in
  if 0 <? properties_length then
    let* (bytes, b) := get_bytes properties_length b in
    let ps := from_utf8_lossy bytes in
    let m := string_to_message_properties (Some ps) in
    Done (if is_set_properties_string then <["propertiesString" := ps]> m else m, b)
  else Done (∅, b).

(** Fields 15 to 17 and the message id, on the message whose fixed fields
    have been read. *)
Definition decode_rest (read_body de_compress_body is_set_properties_string check_crc : bool)
    (version : MessageVersion) (msg_ext : MessageExt)
    (born_host_ip_length store_host_ip_length : Z) : reader (option MessageExt) := λ b,
  let* (obody, b) :=
    read_body_field read_body de_compress_body check_crc (body_crc msg_ext)
      (flag (message msg_ext)) (sys_flag msg_ext) born_host_ip_length store_host_ip_length b in
  match obody with
  | None => Done (None, b)
  | Some body =>
      let* (topic_len, b) := get_topic_length version b in
      let* (topic_bytes, b) := get_bytes topic_len b in
      let* topic_str := unwrap (from_utf8 topic_bytes) in
      let* (properties, b) := read_properties is_set_properties_string b in
      Done (Some
        (mkMessageExt (mkMessage topic_str (flag (message msg_ext)) properties body None None)
           (broker_name msg_ext) (queue_id msg_ext) (store_size msg_ext)
           (queue_offset msg_ext) (sys_flag msg_ext) (born_timestamp msg_ext)
           (born_host msg_ext) (store_timestamp msg_ext) (store_host msg_ext)
           (build_message_id (store_host msg_ext) (commit_log_offset msg_ext))
           (commit_log_offset msg_ext) (body_crc msg_ext) (reconsume_times msg_ext)
           (prepared_transaction_offset msg_ext)), b)
  end.

(** [decode] *)
Definition decode (read_body de_compress_body is_client is_set_properties_string
    check_crc : bool) : reader (option MessageExt) := λ b,
  if is_client then Panic else
  let* (store_size, b) := get_i32 b in
  let* (magic_code, b) := get_i32 b in
  let* version := unwrap (value_of_magic_code magic_code) in
  let* (body_crc, b) := get_u32 b in
  let* (queue_id, b) := get_i32 b in
  let* (flag, b) := get_i32 b in
  let* (queue_offset, b) := get_i64 b in
  let* (physic_offset, b) := get_i64 b in
  let* (sys_flag, b) := get_i32 b in
  let* (born_time_stamp, b) := get_i64 b in
  let* (born, b) :=
    read_host (MessageSysFlag.check sys_flag MessageSysFlag.BORNHOST_V6_FLAG) b in
  let* (store_timestamp, b) := get_i64 b in
  let* (store, b) :=
    read_host (MessageSysFlag.check sys_flag MessageSysFlag.STOREHOSTADDRESS_V6_FLAG) b in
  let* (reconsume_times, b) := get_i32 b in
  let* (prepared_transaction_offset, b) := get_i64 b in
  decode_rest read_body de_compress_body is_set_properties_string check_crc version
    (mkMessageExt (mkMessage "" flag ∅ None None None) "" queue_id store_size queue_offset
       sys_flag born_time_stamp born.1 store_timestamp store.1 "" physic_offset body_crc
       reconsume_times prepared_transaction_offset)
    born.2 store.2 b.

(** [decodes_batch]: decodes until the buffer is empty or a record fails its
    check; [None] when the fuel runs out. *)
Fixpoint decodes_batch_loop (fuel : nat) (read_body decompress_body : bool)
    (b : buffer) (messages : list MessageExt) : option (outcome (list MessageExt)) :=
  match fuel with
  | O => None
  | S f =>
      match b with
      | [] => Some (Done messages)
      | _ =>
          match decode read_body decompress_body false false false b with
          | Done (Some m, b') => decodes_batch_loop f read_body decompress_body b' (messages ++ [m])
          | Done (None, _) => Some (Done messages)
          | Panic => Some Panic
          end
      end
  end.

Definition decodes_batch (b : buffer) (read_body decompress_body : bool)
  : option (outcome (list MessageExt)) :=
  decodes_batch_loop (S (length b)) read_body decompress_body b [].

(** ** The stored record *)

(** The byte layout of one record, as a function of the decoded message: the
    format both the encoder and the decoder follow. *)
Definition topic_field (v : MessageVersion) (t : buffer) : buffer :=
  match v with
  | V1 => put_u8 (Z.of_nat (length t)) ++ t
  | V2 => put_i16 (Z.of_nat (length t)) ++ t
  end.

Definition header_bytes (v : MessageVersion) (m : MessageExt) : buffer :=
  put_i32 (store_size m) ++ put_i32 (get_magic_code v) ++ put_u32 (body_crc m) ++
  put_i32 (queue_id m) ++ put_i32 (flag (message m)) ++ put_i64 (queue_offset m) ++
  put_i64 (commit_log_offset m) ++ put_i32 (sys_flag m) ++ put_i64 (born_timestamp m) ++
  socket_address_2_byte_buffer (born_host m) ++ put_i64 (store_timestamp m) ++
  socket_address_2_byte_buffer (store_host m) ++ put_i32 (reconsume_times m) ++
  put_i64 (prepared_transaction_offset m).

Definition record_bytes (v : MessageVersion) (m : MessageExt) (body_data props : buffer)
  : buffer :=
  header_bytes v m ++
  put_i32 (Z.of_nat (length body_data)) ++ body_data ++
  topic_field v (str_bytes (topic (message m))) ++
  put_i16 (Z.of_nat (length props)) ++ props.

(** The integer fields fit their widths, the addresses are well formed and
    agree with the IPv6 flags. *)
Record wf_header (m : MessageExt) : Prop := {
  wf_store_size : in_s 32 (store_size m);
  wf_body_crc : in_u 32 (body_crc m);
  wf_queue_id : in_s 32 (queue_id m);
  wf_flag : in_s 32 (flag (message m));
  wf_queue_offset : in_s 64 (queue_offset m);
  wf_commit_log_offset : in_s 64 (commit_log_offset m);
  wf_sys_flag : in_s 32 (sys_flag m);
  wf_born_timestamp : in_s 64 (born_timestamp m);
  wf_store_timestamp : in_s 64 (store_timestamp m);
  wf_reconsume : in_s 32 (reconsume_times m);
  wf_prepared : in_s 64 (prepared_transaction_offset m);
  wf_born_host : wf_addr (born_host m);
  wf_store_host : wf_addr (store_host m);
  wf_born_flag :
    MessageSysFlag.check (sys_flag m) MessageSysFlag.BORNHOST_V6_FLAG = is_v6 (born_host m);
  wf_store_flag :
    MessageSysFlag.check (sys_flag m) MessageSysFlag.STOREHOSTADDRESS_V6_FLAG =
    is_v6 (store_host m);
}.

(** The lengths fit their prefixes and the text is UTF-8. *)
Record wf_record (v : MessageVersion) (m : MessageExt) (body_data props : buffer) : Prop := {
  wf_hdr : wf_header m;
  wf_body_len : in_s 32 (Z.of_nat (length body_data));
  wf_topic_len :
    Z.of_nat (length (str_bytes (topic (message m)))) < match v with V1 => 256 | V2 => 32768 end;
  wf_topic_utf8 : utf8_valid (str_bytes (topic (message m))) = true;
  wf_props_len : in_s 16 (Z.of_nat (length props));
  wf_props_utf8 : utf8_valid props = true;
}.

(** ** Lemmas *)

Lemma read_host_put (a : SocketAddr) (rest : buffer) :
  wf_addr a →
  read_host (is_v6 a) (socket_address_2_byte_buffer a ++ rest) =
  Done ((a, if is_v6 a then 16 else 4), rest).
Proof.
  destruct a as [ip p | ip p fl sc]; simpl; intros H; unfold read_host.
  - destruct H as [Hip Hp]. rewrite <- (assoc_L (++)), get_bytes_app by lia. cbn [obind].
    rewrite port_i32 by done. cbn [obind]. by rewrite as_u16_id.
  - destruct H as (Hip & Hp & -> & ->).
    rewrite <- (assoc_L (++)), get_bytes_app by lia. cbn [obind].
    rewrite port_i32 by done. cbn [obind]. by rewrite as_u16_id.
Qed.

Lemma get_topic_put (v : MessageVersion) (t rest : buffer) :
  Z.of_nat (length t) < match v with V1 => 256 | V2 => 32768 end →
  get_topic_length v (topic_field v t ++ rest) = Done (Z.of_nat (length t), t ++ rest).
Proof.
  intros H. unfold get_topic_length, topic_field. destruct v; rewrite <- (assoc_L (++)).
  - by rewrite get_put_u8 by in_range.
  - rewrite get_put_i16 by in_range. simpl. by rewrite as_usize_id by in_range.
Qed.

(** The body field of a record that needs no decompression and whose CRC is
    right or not checked. *)
Lemma read_body_put (dc cc : bool) (crc flags sysf bl sl : Z) (data rest : buffer) :
  in_s 32 (Z.of_nat (length data)) →
  (cc = true → data ≠ [] → crc32 data = crc) →
  (dc = true → Z.land sysf MessageSysFlag.COMPRESSED_FLAG = 0) →
  read_body_field true dc cc crc flags sysf bl sl
    (put_i32 (Z.of_nat (length data)) ++ data ++ rest) =
  Done (Some match data with [] => None | _ => Some data end, rest).
Proof.
  intros Hl Hcrc Hdc. unfold read_body_field. rewrite get_put_i32 by done. cbn [obind].
  destruct data as [| d ds] eqn:E; [done |]. rewrite <- E in *.
  rewrite (proj2 (Z.ltb_lt _ _)) by (subst; simpl; lia).
  rewrite get_bytes_app by done. cbn [obind].
  assert (cc && negb (crc32 data =? crc) = false) as ->.
  { destruct cc; [| done]. rewrite Hcrc by (subst; done). by rewrite Z.eqb_refl. }
  destruct dc; simpl; [| by subst]. rewrite Hdc by done. by subst.
Qed.

Lemma read_properties_put (set : bool) (props rest : buffer) :
  in_s 16 (Z.of_nat (length props)) → utf8_valid props = true →
  read_properties set (put_i16 (Z.of_nat (length props)) ++ props ++ rest) =
  Done (let m := string_to_message_properties (Some (bytes_str props)) in
        match props with
        | [] => ∅
        | _ => if set then <["propertiesString" := bytes_str props]> m else m
        end, rest).
Proof.
  intros Hl Hv. unfold read_properties. rewrite get_put_i16 by done. cbn [obind].
  destruct props as [| b bs]; [done |].
  rewrite (proj2 (Z.ltb_lt _ _)) by (simpl; lia).
  rewrite get_bytes_app by done. cbn [obind]. by rewrite from_utf8_lossy_valid.
Qed.
(** The message as it stands after the fixed fields have been read. *)
Definition header_of (m : MessageExt) : MessageExt :=
  mkMessageExt (mkMessage "" (flag (message m)) ∅ None None None) "" (queue_id m)
    (store_size m) (queue_offset m) (sys_flag m) (born_timestamp m) (born_host m)
    (store_timestamp m) (store_host m) "" (commit_log_offset m) (body_crc m)
    (reconsume_times m) (prepared_transaction_offset m).

Definition ip_length (a : SocketAddr) : Z := if is_v6 a then 16 else 4.

(** The fixed fields of a well-formed record read back. *)
Lemma decode_header (v : MessageVersion) (m : MessageExt) (tail : buffer)
    (rb dc set cc : bool) :
  wf_header m →
  decode rb dc false set cc (header_bytes v m ++ tail) =
  decode_rest rb dc set cc v (header_of m) (ip_length (born_host m))
    (ip_length (store_host m)) tail.
Proof.
  intros []. unfold decode, header_bytes. rewrite <- !(assoc_L (++)).
  assert (in_s 32 (get_magic_code v)) by (by destruct v).
  do 2 (rewrite get_put_i32 by done; cbn [obind]).
  rewrite value_of_get_magic_code. cbn [unwrap obind].
  rewrite get_put_u32 by done. cbn [obind].
  do 2 (rewrite get_put_i32 by done; cbn [obind]).
  do 2 (rewrite get_put_i64 by done; cbn [obind]).
  rewrite get_put_i32 by done; cbn [obind]. rewrite get_put_i64 by done; cbn [obind].
  rewrite wf_born_flag0, read_host_put by done. cbn [obind].
  rewrite get_put_i64 by done; cbn [obind].
  rewrite wf_store_flag0, read_host_put by done. cbn [obind].
  rewrite get_put_i32 by done; cbn [obind]. by rewrite get_put_i64 by done.
Qed.

(** What decoding the record of [m] returns. *)
Definition decoded (set : bool) (m : MessageExt) (data props : buffer) : MessageExt :=
  let ps := bytes_str props in
  let pm := string_to_message_properties (Some ps) in
  mkMessageExt
    (mkMessage (topic (message m)) (flag (message m))
       match props with
       | [] => ∅
       | _ => if set then <["propertiesString" := ps]> pm else pm
       end
       match data with [] => None | _ => Some data end None None)
    "" (queue_id m) (store_size m) (queue_offset m) (sys_flag m) (born_timestamp m)
    (born_host m) (store_timestamp m) (store_host m)
    (build_message_id (store_host m) (commit_log_offset m))
    (commit_log_offset m) (body_crc m) (reconsume_times m) (prepared_transaction_offset m).

Lemma decode_record (v : MessageVersion) (m : MessageExt) (data props rest : buffer)
    (dc set cc : bool) :
  wf_record v m data props →
  (cc = true → data ≠ [] → crc32 data = body_crc m) →
  (dc = true → Z.land (sys_flag m) MessageSysFlag.COMPRESSED_FLAG = 0) →
  decode true dc false set cc (record_bytes v m data props ++ rest) =
  Done (Some (decoded set m data props), rest).
Proof.
  intros [] Hcrc Hdc. unfold record_bytes. rewrite <- !(assoc_L (++)).
  rewrite decode_header by done. unfold decode_rest.
  rewrite read_body_put by done. cbn [obind].
  rewrite get_topic_put by done. cbn [obind].
  rewrite get_bytes_app by done. cbn [obind].
  rewrite from_utf8_valid, bytes_str_bytes by done. cbn [unwrap obind].
  by rewrite read_properties_put by done.
Qed.

(** ** Batches of records *)

Lemma record_bytes_nonempty (v : MessageVersion) (m : MessageExt) (data props rest : buffer) :
  record_bytes v m data props ++ rest ≠ [].
Proof.
  intros H. apply (f_equal length) in H. unfold record_bytes, header_bytes in H.
  rewrite !length_app, put_i32_length in H. simpl in H. lia.
Qed.

(** A record a batch may hold: decodable without CRC check. *)
Definition batch_item (dc : bool) (r : MessageVersion * MessageExt * buffer * buffer) : Prop :=
  let '(v, m, data, props) := r in
  wf_record v m data props ∧
  (dc = true → Z.land (sys_flag m) MessageSysFlag.COMPRESSED_FLAG = 0).

Definition item_bytes (r : MessageVersion * MessageExt * buffer * buffer) : buffer :=
  let '(v, m, data, props) := r in record_bytes v m data props.
Definition item_decoded (r : MessageVersion * MessageExt * buffer * buffer) : MessageExt :=
  let '(v, m, data, props) := r in decoded false m data props.

Lemma decodes_batch_loop_items (dc : bool)
    (items : list (MessageVersion * MessageExt * buffer * buffer)) (fuel : nat)
    (acc : list MessageExt) :
  Forall (batch_item dc) items → (length items < fuel)%nat →
  decodes_batch_loop fuel true dc (concat (item_bytes <$> items)) acc =
  Some (Done (acc ++ (item_decoded <$> items))).
Proof.
  intros Hall. revert fuel acc. induction Hall as [| r rs Hr _ IH]; intros fuel acc Hf.
  - destruct fuel; [simpl in *; lia |]. simpl. by rewrite app_nil_r.
  - destruct fuel as [| fuel]; [simpl in *; lia |]. rewrite !fmap_cons.
    destruct r as [[[v m] data] props]. destruct Hr as [Hwf Hdc].
    cbn [concat decodes_batch_loop item_bytes].
    destruct (record_bytes v m data props ++ _) as [| b0 bs] eqn:E;
      [by apply record_bytes_nonempty in E |].
    rewrite <- E, decode_record by done. rewrite IH by (simpl in *; lia).
    by rewrite <- (assoc_L (++)).
Qed.

Lemma item_bytes_pos (r : MessageVersion * MessageExt * buffer * buffer) :
  (1 ≤ length (item_bytes r))%nat.
Proof.
  destruct r as [[[v m] data] props]. cbn. unfold record_bytes, header_bytes.
  rewrite !length_app, put_i32_length. lia.
Qed.

Lemma items_length (items : list (MessageVersion * MessageExt * buffer * buffer)) :
  (length items ≤ length (concat (item_bytes <$> items)))%nat.
Proof.
  induction items as [| r rs IH]; csimpl; [lia |].
  rewrite length_app. pose proof (item_bytes_pos r). lia.
Qed.
End Decoder.

(** ** The batch format of the client *)
Section Batch.

(** [encode_message]; the iteration order of the property map is an argument. *)
Definition encode_message (order : list (string * string)) (m : Message) : outcome buffer :=
  let* body := unwrap (body m) in
  let properties_bytes := str_bytes (message_properties_to_string order) in
  let store_size := 4 + 4 + 4 + 4 + 4 + Z.of_nat (length body) + 2
                    + Z.of_nat (length properties_bytes) in
  Done (put_i32 store_size ++ put_i32 0 ++ put_u32 0 ++ put_i32 (flag m) ++
        put_i32 (Z.of_nat (length body)) ++ body ++
        put_i16 (Z.of_nat (length properties_bytes)) ++ properties_bytes).

(** [encode_messages] concatenates the encoded messages. *)
Fixpoint encode_messages (ms : list (list (string * string) * Message)) : outcome buffer :=
  match ms with
  | [] => Done []
  | (order, m) :: ms' =>
      let* b := encode_message order m in
      let* rest := encode_messages ms' in
      Done (b ++ rest)
  end.

(** [decode_message] *)
Definition decode_message : reader Message := λ b,
  let* (_, b) := get_i32 b in
  let* (_, b) := get_i32 b in
  let* (_, b) := get_i32 b in
  let* (flag, b) := get_i32 b in
  let* (body_len, b) := get_i32 b in
  let* (body, b) := get_bytes (as_usize body_len) b in
  let* (properties_length, b) := get_i16 b in
  let* (properties, b) := get_bytes (as_usize properties_length) b in
  let* ps := unwrap (from_utf8 properties) in
  Done (mkMessage "" flag (string_to_message_properties (Some ps)) (Some body) None None, b).

(** [decode_messages]: [while buffer.has_remaining()]. *)
Fixpoint decode_messages_loop (fuel : nat) (b : buffer) (messages : list Message)
  : option (outcome (list Message)) :=
  match fuel with
  | O => None
  | S f =>
      match b with
      | [] => Some (Done messages)
      | _ =>
          match decode_message b with
          | Done (m, b') => decode_messages_loop f b' (messages ++ [m])
          | Panic => Some Panic
          end
      end
  end.

(** Every message read consumes its 22 fixed bytes, so the length is enough
    fuel. *)
Definition decode_messages (b : buffer) : option (outcome (list Message)) :=
  decode_messages_loop (S (length b)) b [].

(** [count_inner_msg_num]: skips from one size prefix to the next. *)
Fixpoint count_loop (fuel : nat) (b : buffer) (count : Z) : option (outcome Z) :=
  match fuel with
  | O => None
  | S f =>
      match b with
      | [] => Some (Done count)
      | _ =>
          match get_i32 (take 4 b) with
          | Panic => Some Panic
          | Done (size, _) =>
              if Z.of_nat (length b) <? as_usize size then Some (Done count)
              else count_loop f (drop (Z.to_nat (as_usize size)) b) (as_u32 (count + 1))
          end
      end
  end.

Definition count_inner_msg_num (fuel : nat) (bytes : option buffer) : option (outcome Z) :=
  match bytes with
  | None => Some (Done 0)
  | Some b => count_loop fuel b 0
  end.

(** A message the batch format represents. *)
Definition wf_batch_message (om : list (string * string) * Message) : Prop :=
  let '(order, m) := om in
  ∃ data, body m = Some data ∧
    in_s 32 (22 + Z.of_nat (length data)
             + Z.of_nat (length (str_bytes (message_properties_to_string order)))) ∧
    in_s 32 (flag m) ∧
    in_s 16 (Z.of_nat (length (str_bytes (message_properties_to_string order)))) ∧
    order ≡ₚ map_to_list (properties m) ∧
    map_Forall (λ k v, sep_free (k, v) ∧ nonempty_entry (k, v)) (properties m) ∧
    utf8_valid (str_bytes (message_properties_to_string order)) = true.

(** The part of a message the batch format carries. *)
Definition batch_view (m : Message) : Message :=
  mkMessage "" (flag m) (properties m) (body m) None None.

Lemma parse_print_perm (m : gmap string string) (order : list (string * string)) :
  order ≡ₚ map_to_list m →
  map_Forall (λ k v, sep_free (k, v) ∧ nonempty_entry (k, v)) m →
  string_to_message_properties (Some (message_properties_to_string order)) = m.
Proof.
  intros Hp Hm. rewrite parse_print_kept.
  - apply kept_permutation; [done |]. intros k v Hkv. apply (Hm _ _ Hkv).
  - rewrite Hp. apply Forall_forall. intros [k v] Hin%elem_of_map_to_list.
    apply (Hm _ _ Hin).
Qed.

Lemma decode_encode_message (order : list (string * string)) (m : Message)
    (b rest : buffer) :
  wf_batch_message (order, m) → encode_message order m = Done b →
  decode_message (b ++ rest) = Done (batch_view m, rest).
Proof.
  intros (data & Hbody & Hsize & Hflag & Hplen & Hp & Hm & Hv) He.
  unfold encode_message in He. rewrite Hbody in He. cbn [unwrap obind] in He.
  apply done_inj in He as <-. set (ps := str_bytes (message_properties_to_string order)) in *.
  unfold decode_message. rewrite <- !(assoc_L (++)).
  rewrite get_put_i32 by in_range. cbn [obind].
  rewrite get_put_i32 by in_range. cbn [obind]. change (put_u32 0) with (put_i32 0).
  rewrite get_put_i32 by in_range. cbn [obind].
  rewrite get_put_i32 by done. cbn [obind].
  rewrite get_put_i32 by in_range. cbn [obind].
  rewrite as_usize_id, get_bytes_app by first [done | in_range]. cbn [obind].
  rewrite get_put_i16 by done. cbn [obind].
  rewrite as_usize_id, get_bytes_app by first [done | in_range]. cbn [obind].
  rewrite from_utf8_valid by done. cbn [unwrap obind]. unfold ps at 1.
  rewrite bytes_str_bytes, (parse_print_perm (properties m)) by done.
  unfold batch_view. by rewrite Hbody.
Qed.

Lemma encode_message_shape (order : list (string * string)) (m : Message) (b : buffer) :
  wf_batch_message (order, m) → encode_message order m = Done b →
  (22 ≤ length b)%nat ∧ Z.of_nat (length b) < 2 ^ 31 ∧
  ∃ tail, b = put_i32 (Z.of_nat (length b)) ++ tail.
Proof.
  intros (data & Hbody & Hsize & _ & _ & _) He.
  unfold encode_message in He. rewrite Hbody in He. cbn [unwrap obind] in He.
  apply done_inj in He as <-. autorewrite with rmq_len. split_and!; [lia | in_range |].
  eexists. f_equal. f_equal. lia.
Qed.

Lemma encode_messages_done (ms : list (list (string * string) * Message)) :
  Forall wf_batch_message ms → ∃ b, encode_messages ms = Done b.
Proof.
  induction 1 as [| [order m] ms (data & Hb & _) _ [rest IH]]; [by eexists |].
  cbn [encode_messages]. unfold encode_message. rewrite Hb. cbn [unwrap obind].
  rewrite IH. by eexists.
Qed.

Lemma encode_messages_cons (order : list (string * string)) (m : Message) ms (b : buffer) :
  encode_messages ((order, m) :: ms) = Done b →
  ∃ b1 b2, encode_message order m = Done b1 ∧ encode_messages ms = Done b2 ∧ b = b1 ++ b2.
Proof.
  intros H. cbn [encode_messages] in H.
  apply obind_done in H as (b1 & H1 & H). apply obind_done in H as (b2 & H2 & H).
  injection H as <-. eauto.
Qed.

Lemma decode_messages_loop_encoded ms (b : buffer) (fuel : nat) (acc : list Message) :
  Forall wf_batch_message ms → encode_messages ms = Done b → (length b < fuel)%nat →
  decode_messages_loop fuel b acc = Some (Done (acc ++ (batch_view ∘ snd <$> ms))).
Proof.
  intros Hall. revert b fuel acc.
  induction Hall as [| [order m] ms Hm _ IH]; intros b fuel acc He Hf.
  - injection He as <-. destruct fuel; [simpl in *; lia |]. simpl. by rewrite app_nil_r.
  - apply encode_messages_cons in He as (b1 & b2 & H1 & H2 & ->).
    pose proof (encode_message_shape _ _ _ Hm H1) as (Hlen & _).
    destruct fuel as [| fuel]; [lia |]. cbn [decode_messages_loop].
    destruct (b1 ++ b2) as [| x xs] eqn:E;
      [apply app_eq_nil in E as [-> _]; simpl in *; lia |]. rewrite <- E in *.
    rewrite (decode_encode_message _ _ _ _ Hm H1), (IH b2) by
      (try done; rewrite length_app in Hf; lia).
    rewrite fmap_cons, <- (assoc_L (++)). done.
Qed.

Lemma count_loop_encoded ms (b : buffer) (fuel : nat) (count : Z) :
  Forall wf_batch_message ms → encode_messages ms = Done b → (length b < fuel)%nat →
  in_u 32 (count + Z.of_nat (length ms)) → 0 ≤ count →
  count_loop fuel b count = Some (Done (count + Z.of_nat (length ms))).
Proof.
  intros Hall. revert b fuel count.
  induction Hall as [| [order m] ms Hm _ IH]; intros b fuel count He Hf Hc Hc0.
  - injection He as <-. destruct fuel; [simpl in *; lia |]. simpl. by rewrite Z.add_0_r.
  - apply encode_messages_cons in He as (b1 & b2 & H1 & H2 & ->).
    pose proof (encode_message_shape _ _ _ Hm H1) as (Hlen & Hmax & tail & Htail).
    destruct fuel as [| fuel]; [lia |]. cbn [count_loop].
    destruct (b1 ++ b2) as [| x xs] eqn:E;
      [apply app_eq_nil in E as [-> _]; simpl in *; lia |]. rewrite <- E in *.
    assert (take 4 (b1 ++ b2) = put_i32 (Z.of_nat (length b1)) ++ []) as ->.
    { rewrite Htail at 1. rewrite <- (assoc_L (++)), take_app_length', app_nil_r; [done |].
      by rewrite put_i32_length. }
    rewrite get_put_i32 by in_range. rewrite as_usize_id by in_range.
    rewrite (proj2 (Z.ltb_ge _ _)) by (rewrite length_app; lia).
    rewrite Nat2Z.id, drop_app_length. simpl length in *. rewrite as_u32_id by in_range.
    rewrite (IH b2); [f_equal; f_equal; lia | done | | in_range | lia].
    rewrite length_app in Hf. lia.
Qed.
End Batch.
