(* ===== verification/MessageCodec.v ===== *)
(** * MessageCodec: [encode], [decode_properties] and the theorems about the
    message codec *)

From stdpp Require Import base gmap list strings.
From Stdlib Require Import ZArith Lia.
From S2P Require Import Prelude Bytes Utf8 Message Properties MessageId MessageDecoder.
Open Scope Z_scope.
Open Scope rmq_scope.

Section Encode.
(** [Compressor::compress] at level 5; [None] is its error. *)
Variable compress : CompressionType → buffer → option buffer.

(** [encode]: the whole message for the wire.  [inr tt] is the compressor's
    error; the iteration order of the properties is an argument. *)
Definition encode (order : list (string * string)) (m : MessageExt) (need_compress : bool)
  : outcome (buffer + unit) :=
  let* body := unwrap (body (message m)) in
  let topics := str_bytes (topic (message m)) in
  let properties_bytes := str_bytes (message_properties_to_string order) in
  let* new_body :=
    if need_compress &&
       (Z.land (sys_flag m) MessageSysFlag.COMPRESSED_FLAG =? MessageSysFlag.COMPRESSED_FLAG)
    then
      let* ct := get_compression_type (sys_flag m) in
      Done (match compress ct body with Some c => inl (Some c) | None => inr tt end)
    else Done (inl None) in
  match new_body with
  | inr e => Done (inr e)
  | inl nb =>
      let data := default body nb in
      Done (inl (
        put_i32 (store_size m) ++ put_i32 MESSAGE_MAGIC_CODE_V1 ++ put_u32 (body_crc m) ++
        put_i32 (queue_id m) ++ put_i32 (flag (message m)) ++ put_i64 (queue_offset m) ++
        put_i64 (commit_log_offset m) ++ put_i32 (sys_flag m) ++ put_i64 (born_timestamp m) ++
        octets (born_host m) ++ put_i32 (port (born_host m)) ++ put_i64 (store_timestamp m) ++
        octets (store_host m) ++ put_i32 (port (store_host m)) ++
        put_i32 (reconsume_times m) ++ put_i64 (prepared_transaction_offset m) ++
        put_i32 (Z.of_nat (length data)) ++ data ++
        put_i16 (Z.of_nat (length topics)) ++ topics ++
        put_i16 (Z.of_nat (length properties_bytes)) ++ properties_bytes))
  end.
End Encode.

(** [decode_properties]: reads the property map of a record without decoding
    the rest.  The code computes the positions from the start of the record and
    keeps using them after it has advanced the buffer past the topic length. *)
Definition read_i32_at (b : buffer) (pos : Z) : Z :=
  wrap_s 32 (be_value (slice b (Z.to_nat pos) (Z.to_nat pos + 4))).
Definition read_i16_at (b : buffer) (pos : Z) : Z :=
  wrap_s 16 (be_value (slice b (Z.to_nat pos) (Z.to_nat pos + 2))).

Definition decode_properties (b : buffer) : outcome (option (gmap string string)) :=
  let len := Z.of_nat (length b) in
  if len <? SYSFLAG_POSITION + 4 then Done None else
  let sys_flag := read_i32_at b SYSFLAG_POSITION in
  match value_of_magic_code (read_i32_at b MESSAGE_MAGIC_CODE_POSITION) with
  | None => Done None
  | Some version =>
      let bornhost_length :=
        if Z.land sys_flag MessageSysFlag.BORNHOST_V6_FLAG =? 0 then 8 else 20 in
      let storehost_address_length :=
        if Z.land sys_flag MessageSysFlag.STOREHOSTADDRESS_V6_FLAG =? 0 then 8 else 20 in
      let body_size_position :=
        4 + 4 + 4 + 4 + 4 + 8 + 8 + 4 + 8 + bornhost_length + 8 + storehost_address_length
        + 4 + 8 in
      if len <? body_size_position + 4 then Done None else
      let body_size := as_usize (read_i32_at b body_size_position) in
      let topic_length_position := as_usize (body_size_position + 4 + body_size) in
      if len <? topic_length_position then Done None else
      let* (_, b) := get_bytes topic_length_position b in
      let* (topic_length, b) := get_topic_length version b in
      let properties_position :=
        as_usize (topic_length_position + get_topic_length_size version + topic_length) in
      let len := Z.of_nat (length b) in
      if len <? as_usize (properties_position + 2) then Done None else
      let properties_length := read_i16_at b properties_position in
      let properties_start := as_usize (properties_position + 2) in
      if 0 <? properties_length then
        let stop := as_usize (properties_start + properties_length) in
        if len <? stop then Done None else
        match from_utf8 (slice b (Z.to_nat properties_start) (Z.to_nat stop)) with
        | Some s => Done (Some (string_to_message_properties (Some s)))
        | None => Done None
        end
      else Done None
  end.

(** ** Theorems *)

(** The message a record determines: a decoded message has no broker name, no
    compressed body and no transaction id, and its id is computed from the
    store host and the physical offset. *)
Definition as_decoded (m : MessageExt) : MessageExt :=
  mkMessageExt
    (mkMessage (topic (message m)) (flag (message m)) (properties (message m))
       (body (message m)) None None)
    "" (queue_id m) (store_size m) (queue_offset m) (sys_flag m) (born_timestamp m)
    (born_host m) (store_timestamp m) (store_host m)
    (build_message_id (store_host m) (commit_log_offset m))
    (commit_log_offset m) (body_crc m) (reconsume_times m) (prepared_transaction_offset m).

Lemma decoded_as_decoded (m : MessageExt) (data : buffer) (order : list (string * string)) :
  body (message m) = Some data → data ≠ [] →
  order ≡ₚ map_to_list (properties (message m)) →
  map_Forall (λ k v, sep_free (k, v) ∧ nonempty_entry (k, v)) (properties (message m)) →
  decoded false m data (str_bytes (message_properties_to_string order)) = as_decoded m.
Proof.
  intros Hb Hne Hp Hm. unfold decoded, as_decoded.
  rewrite bytes_str_bytes, (parse_print_perm (properties (message m))), Hb by done.
  f_equal. f_equal; [| by destruct data].
  destruct (str_bytes _) eqn:E; [| done].
  apply str_bytes_nil in E. rewrite <- (parse_print_perm (properties (message m)) order) by done.
  by rewrite E.
Qed.

(** decoding the stored record of a message gives that message back: every
    field, the body and the whole property map, in either record version, and
    leaves the rest of the buffer unread. *)
Theorem decode_stored_record (crc32fast : buffer → Z)
    (decompression : CompressionType → buffer → outcome buffer)
    (v : MessageVersion) (m : MessageExt) (data rest : buffer)
    (order : list (string * string)) (dc cc : bool) :
  wf_record v m data (str_bytes (message_properties_to_string order)) →
  body (message m) = Some data → data ≠ [] →
  order ≡ₚ map_to_list (properties (message m)) →
  map_Forall (λ k v, sep_free (k, v) ∧ nonempty_entry (k, v)) (properties (message m)) →
  (cc = true → crc32 crc32fast data = body_crc m) →
  (dc = true → Z.land (sys_flag m) MessageSysFlag.COMPRESSED_FLAG = 0) →
  decode crc32fast decompression true dc false false cc
    (record_bytes v m data (str_bytes (message_properties_to_string order)) ++ rest) =
  Done (Some (as_decoded m), rest).
Proof.
  intros Hwf Hb Hne Hp Hm Hcc Hdc. rewrite decode_record by auto.
  by rewrite decoded_as_decoded.
Qed.

Definition sample_message : MessageExt :=
  mkMessageExt
    (mkMessage "TopicTest" 0 {["TAGS" := "TagA"]} (Some (str_bytes "hello")) None None)
    "" 3 120 7 0 1700000000000 default_host 1700000000001 default_host "" 4096 0 0 0.

Lemma sample_wf (v : MessageVersion) :
  wf_record v sample_message (str_bytes "hello")
    (str_bytes (message_properties_to_string [("TAGS", "TagA")])).
Proof. constructor; [constructor |..]; by destruct v; vm_compute. Qed.

Lemma decode_stored_record_witness :
  decode (λ _, 0) (λ _ b, Done b) true true false false true
    (record_bytes V1 sample_message (str_bytes "hello")
       (str_bytes (message_properties_to_string [("TAGS", "TagA")])) ++ [Byte.xff]) =
  Done (Some (as_decoded sample_message), [Byte.xff]).
Proof.
  apply (decode_stored_record (λ _, 0) (λ _ b, Done b) V1 sample_message (str_bytes "hello")
           [Byte.xff] [("TAGS", "TagA")] true true);
    [apply sample_wf | done | done | done | | done | done].
  apply map_Forall_singleton. solve_sep_free.
Defined.

(** when the CRC is checked and does not match the stored one, [decode]
    reports failure ([None]) and does not produce a message. *)
Theorem decode_rejects_bad_crc (crc32fast : buffer → Z)
    (decompression : CompressionType → buffer → outcome buffer)
    (v : MessageVersion) (m : MessageExt) (data props rest : buffer) (dc set : bool) :
  wf_record v m data props → data ≠ [] → crc32 crc32fast data ≠ body_crc m →
  ∃ b, decode crc32fast decompression true dc false set true
         (record_bytes v m data props ++ rest) = Done (None, b).
Proof.
  intros [] Hne Hcrc. unfold record_bytes. rewrite <- !(assoc_L (++)).
  rewrite decode_header by done. unfold decode_rest, read_body_field.
  rewrite get_put_i32 by done. cbn [obind].
  rewrite (proj2 (Z.ltb_lt _ _)) by (destruct data; simpl in *; [done | lia]).
  rewrite get_bytes_app by done. cbn [obind body_crc header_of].
  rewrite (proj2 (Z.eqb_neq _ _)) by done. simpl. by eexists.
Qed.

Lemma decode_rejects_bad_crc_witness :
  ∃ b, decode (λ _, 5) (λ _ b, Done b) true true false false true
         (record_bytes V1 sample_message (str_bytes "hello")
            (str_bytes (message_properties_to_string [("TAGS", "TagA")])) ++ []) =
       Done (None, b).
Proof.
  apply (decode_rejects_bad_crc (λ _, 5) (λ _ b, Done b)); [apply sample_wf | done | done].
Defined.

(** a buffer holding any number of stored records decodes to exactly their
    messages, in order; the fuel [decodes_batch] uses is enough. *)
Theorem decodes_batch_records (crc32fast : buffer → Z)
    (decompression : CompressionType → buffer → outcome buffer) (dc : bool)
    (items : list (MessageVersion * MessageExt * buffer * buffer)) :
  Forall (batch_item dc) items →
  decodes_batch crc32fast decompression (concat (item_bytes <$> items)) true dc =
  Some (Done (item_decoded <$> items)).
Proof.
  intros H. unfold decodes_batch. rewrite decodes_batch_loop_items; [done | done |].
  pose proof (items_length items). lia.
Qed.

Lemma decodes_batch_records_witness :
  let r := (V2, sample_message, str_bytes "hello",
            str_bytes (message_properties_to_string [("TAGS", "TagA")])) in
  decodes_batch (λ _, 0) (λ _ b, Done b) (concat (item_bytes <$> [r; r])) true true =
  Some (Done (item_decoded <$> [r; r])).
Proof.
  apply (decodes_batch_records (λ _, 0) (λ _ b, Done b) true).
  repeat constructor; by vm_compute.
Defined.

(** the client's batch body: decoding what [encode_messages] wrote gives
    the messages back in order (flag, body and properties), and
    [count_inner_msg_num] counts them. *)
Theorem batch_roundtrip (ms : list (list (string * string) * Message)) :
  Forall wf_batch_message ms → Z.of_nat (length ms) < 2 ^ 32 →
  ∃ b, encode_messages ms = Done b ∧
    decode_messages b = Some (Done (batch_view ∘ snd <$> ms)) ∧
    count_inner_msg_num (S (length b)) (Some b) = Some (Done (Z.of_nat (length ms))).
Proof.
  intros Hall Hn. destruct (encode_messages_done _ Hall) as [b Hb]. exists b.
  split_and!; [done | |].
  - unfold decode_messages. by rewrite (decode_messages_loop_encoded ms b) by (done || lia).
  - unfold count_inner_msg_num.
    by rewrite (count_loop_encoded ms b) by (done || lia || in_range).
Qed.

Definition sample_batch : list (list (string * string) * Message) :=
  [([("KEYS", "k")], mkMessage "t" 1 {["KEYS" := "k"]} (Some (str_bytes "a")) None None);
   ([], mkMessage "t" 0 ∅ (Some []) None None)].

Lemma batch_roundtrip_witness :
  ∃ b, encode_messages sample_batch = Done b ∧
    decode_messages b = Some (Done (batch_view ∘ snd <$> sample_batch)) ∧
    count_inner_msg_num (S (length b)) (Some b) = Some (Done 2).
Proof.
  apply (batch_roundtrip sample_batch); [| done].
  repeat constructor.
  - exists (str_bytes "a"). split_and!; try (vm_compute; done).
    apply map_Forall_singleton. solve_sep_free.
  - exists []. split_and!; try (vm_compute; done).
Defined.

(** on a body whose first size prefix is zero [count_inner_msg_num] makes
    no progress: no number of iterations finishes the loop. *)
Theorem count_inner_msg_num_diverges (tail : buffer) (fuel : nat) :
  count_inner_msg_num fuel (Some (put_i32 0 ++ tail)) = None.
Proof.
  unfold count_inner_msg_num. generalize 0 at 2 as c.
  induction fuel as [| f IH]; intros c; [done |]. cbn [count_loop].
  destruct (put_i32 0 ++ tail) as [| x xs] eqn:E; [done |]. rewrite <- E.
  rewrite take_app_length' by (by rewrite put_i32_length).
  rewrite <- (app_nil_r (put_i32 0)) at 1. rewrite get_put_i32 by in_range.
  rewrite (proj2 (Z.ltb_ge _ _)) by (change (as_usize 0) with 0; lia).
  change (as_usize 0) with 0. cbn [Z.to_nat drop]. rewrite E. apply IH.
Qed.

(** [encode] writes the topic length as two bytes under the magic code of
    version 1, whose topic length [decode] reads as one byte: whatever [decode]
    makes of an encoded message with a topic of fewer than 256 bytes, the topic
    it returns is empty. *)
Theorem encode_decode_loses_topic (crc32fast : buffer → Z)
    (decompression : CompressionType → buffer → outcome buffer)
    (compress : CompressionType → buffer → option buffer)
    (order : list (string * string)) (m m' : MessageExt) (data b rest : buffer)
    (set : bool) :
  wf_header m → body (message m) = Some data → in_s 32 (Z.of_nat (length data)) →
  (length (str_bytes (topic (message m))) < 256)%nat →
  encode compress order m false = Done (inl b) →
  decode crc32fast decompression true false false set false b = Done (Some m', rest) →
  topic (message m') = "".
Proof.
  intros Hh Hb Hl Ht He Hd. unfold encode in He. rewrite Hb in He. cbn [unwrap obind andb] in He.
  apply done_inj in He. assert (∀ x y : buffer, @inl _ unit x = inl y → x = y) as Hinl
    by congruence. apply Hinl in He. subst b. clear Hinl.
  set (ps := str_bytes (message_properties_to_string order)) in *.
  set (t := str_bytes (topic (message m))) in *. cbn [default from_option id] in Hd.
  assert (put_i16 (Z.of_nat (length t)) = put_u8 0 ++ put_u8 (Z.of_nat (length t))) as Hsplit
    by (apply put_i16_small; lia).
  pose proof (decode_header crc32fast decompression V1 m
    (put_i32 (Z.of_nat (length data)) ++ data ++ put_u8 0 ++ put_u8 (Z.of_nat (length t)) ++ t
     ++ put_i16 (Z.of_nat (length ps)) ++ ps) true false set false Hh) as Hdec.
  unfold header_bytes, get_magic_code in Hdec. rewrite <- !(assoc_L (++)) in Hdec.
  rewrite !socket_bytes_octets, Hsplit, <- !(assoc_L (++)) in *.
  rewrite Hdec in Hd. unfold decode_rest in Hd. rewrite read_body_put in Hd by done.
  cbn [obind get_topic_length] in Hd. rewrite get_put_u8 in Hd by in_range. cbn [obind] in Hd.
  rewrite <- (app_nil_l (put_u8 (Z.of_nat (length t)) ++ _)), get_bytes_app in Hd by done.
  cbn [obind unwrap from_utf8] in Hd. cbn in Hd.
  destruct (read_properties _ _) as [[pm r] |]; [| done]. cbn [obind] in Hd.
  apply done_inj in Hd. by injection Hd as <- _.
Qed.

(** A message with topic [A] and a long property value, which decodes. *)
Definition long_property : string := bytes_str (replicate 330 Byte.x76).
Definition mismatch_sample : MessageExt :=
  mkMessageExt (mkMessage "A" 0 {["K" := long_property]} (Some [Byte.x61]) None None)
    "" 0 0 0 0 0 default_host 0 default_host "" 0 0 0 0.

Lemma encode_decode_loses_topic_witness :
  ∃ b m' rest,
    encode (λ _ d, Some d) [("K", long_property)] mismatch_sample false = Done (inl b) ∧
    decode (λ _, 0) (λ _ d, Done d) true false false false false b = Done (Some m', rest) ∧
    topic (message m') = "".
Proof.
  eexists _, _, _. split_and!; [vm_compute; reflexivity .. |].
  eapply (encode_decode_loses_topic (λ _, 0) (λ _ d, Done d) (λ _ d, Some d)
            [("K", long_property)] mismatch_sample _ [Byte.x61] _ _ false);
    [constructor; by vm_compute | done | done | vm_compute; lia | vm_compute; reflexivity
    | vm_compute; reflexivity].
Defined.

(** a compressed body is decompressed with the algorithm named by the
    user's [flag] word, not by the system flags: with no compression bits in
    [flag], LZ4 in the system flags still selects Zlib. *)
Theorem decode_selects_codec_by_flag (crc32fast : buffer → Z)
    (decompression : CompressionType → buffer → outcome buffer)
    (flags sysf bl sl : Z) (data rest : buffer) :
  data ≠ [] → in_s 32 (Z.of_nat (length data)) →
  Z.land sysf MessageSysFlag.COMPRESSED_FLAG = MessageSysFlag.COMPRESSED_FLAG →
  Z.land flags MessageSysFlag.COMPRESSION_TYPE_COMPARATOR = 0 →
  read_body_field crc32fast decompression true true false 0 flags sysf bl sl
    (put_i32 (Z.of_nat (length data)) ++ data ++ rest) =
  (let* plain := decompression Zlib data in Done (Some (Some plain), rest)).
Proof.
  intros Hne Hl Hs Hf. unfold read_body_field. rewrite get_put_i32 by done. cbn [obind].
  rewrite (proj2 (Z.ltb_lt _ _)) by (destruct data; simpl in *; [done | lia]).
  rewrite get_bytes_app by done. cbn [obind andb]. rewrite Hs, Z.eqb_refl, Hf. done.
Qed.

Lemma decode_selects_codec_by_flag_witness :
  let sysf := Z.lor MessageSysFlag.COMPRESSED_FLAG (get_compression_flag LZ4) in
  get_compression_type sysf = Done LZ4 ∧
  read_body_field (λ _, 0)
    (λ c d, Done match c with Zlib => [Byte.x00] | _ => d end) true true false 0 0 sysf 4 4
    (put_i32 2 ++ [Byte.x61; Byte.x62] ++ []) = Done (Some (Some [Byte.x00]), []).
Proof.
  split; [done |].
  apply (decode_selects_codec_by_flag (λ _, 0)
           (λ c d, Done match c with Zlib => [Byte.x00] | _ => d end) 0 _ 4 4
           [Byte.x61; Byte.x62] []); by vm_compute.
Defined.

(** ** [decode_properties] on a stored record *)

Lemma read_i32_at_put (pre post : buffer) (pos z : Z) :
  Z.of_nat (length pre) = pos → in_s 32 z →
  read_i32_at (pre ++ put_i32 z ++ post) pos = z.
Proof.
  intros Hpos Hz. unfold read_i32_at. rewrite <- Hpos, Nat2Z.id, slice_from_drop.
  rewrite drop_app_length, take_app_length' by (by rewrite put_i32_length).
  unfold put_i32. rewrite be_value_bytes, (wrap_s_mod 32). by apply wrap_s_id.
Qed.

Lemma host_length_flag (m : MessageExt) (a : SocketAddr) (f : Z) :
  wf_addr a → MessageSysFlag.check (sys_flag m) f = is_v6 a →
  Z.of_nat (length (socket_address_2_byte_buffer a)) =
  if Z.land (sys_flag m) f =? 0 then 8 else 20.
Proof.
  intros Ha Hf. rewrite socket_address_length by done. rewrite <- Hf.
  unfold MessageSysFlag.check. by destruct (Z.land _ _ =? 0).
Qed.

Lemma header_length (v : MessageVersion) (m : MessageExt) :
  Z.of_nat (length (header_bytes v m)) =
  68 + Z.of_nat (length (socket_address_2_byte_buffer (born_host m)))
  + Z.of_nat (length (socket_address_2_byte_buffer (store_host m))).
Proof. unfold header_bytes. autorewrite with rmq_len. lia. Qed.

Lemma get_topic_length_field (v : MessageVersion) (t rest : buffer) :
  Z.of_nat (length t) < match v with V1 => 256 | V2 => 32768 end →
  Z.of_nat (length (topic_field v t ++ rest)) =
  get_topic_length_size v + Z.of_nat (length t) + Z.of_nat (length rest).
Proof. intros H. unfold topic_field. destruct v; autorewrite with rmq_len; simpl; lia. Qed.

(** The fixed positions of a record. *)
Lemma record_sys_flag (v : MessageVersion) (m : MessageExt) (tail : buffer) :
  wf_header m → read_i32_at (header_bytes v m ++ tail) SYSFLAG_POSITION = sys_flag m.
Proof.
  intros []. unfold header_bytes.
  set (pre := put_i32 (store_size m) ++ put_i32 (get_magic_code v) ++ put_u32 (body_crc m) ++
    put_i32 (queue_id m) ++ put_i32 (flag (message m)) ++ put_i64 (queue_offset m) ++
    put_i64 (commit_log_offset m)).
  rewrite <- (read_i32_at_put pre (put_i64 (born_timestamp m) ++
    socket_address_2_byte_buffer (born_host m) ++ put_i64 (store_timestamp m) ++
    socket_address_2_byte_buffer (store_host m) ++ put_i32 (reconsume_times m) ++
    put_i64 (prepared_transaction_offset m) ++ tail) SYSFLAG_POSITION (sys_flag m)) at 2.
  - unfold pre. by rewrite <- !(assoc_L (++)).
  - unfold pre, SYSFLAG_POSITION. autorewrite with rmq_len. lia.
  - done.
Qed.

Lemma record_magic (v : MessageVersion) (m : MessageExt) (tail : buffer) :
  read_i32_at (header_bytes v m ++ tail) MESSAGE_MAGIC_CODE_POSITION = get_magic_code v.
Proof.
  unfold header_bytes. rewrite <- !(assoc_L (++)).
  apply read_i32_at_put; [unfold MESSAGE_MAGIC_CODE_POSITION; by rewrite put_i32_length |].
  by destruct v.
Qed.

(** [decode_properties] uses record positions on the buffer it has
    already advanced, so on a stored record whose property string is not longer
    than everything before it, it finds no properties. *)
Theorem decode_properties_misses (v : MessageVersion) (m : MessageExt) (data props : buffer) :
  wf_record v m data props →
  Z.of_nat (length props) < 88 + Z.of_nat (length data) →
  decode_properties (record_bytes v m data props) = Done None.
Proof.
  intros [Hh ? ? ? ? ?] Hshort. unfold decode_properties, record_bytes.
  assert (Hh' := Hh). destruct Hh' as [].
  pose proof (header_length v m) as Hhl.
  rewrite (host_length_flag m (born_host m) MessageSysFlag.BORNHOST_V6_FLAG) in Hhl by done.
  rewrite (host_length_flag m (store_host m) MessageSysFlag.STOREHOSTADDRESS_V6_FLAG)
    in Hhl by done.
  rewrite record_sys_flag, record_magic, value_of_get_magic_code by done.
  set (bl := if Z.land (sys_flag m) MessageSysFlag.BORNHOST_V6_FLAG =? 0 then 8 else 20) in *.
  set (sl := if Z.land (sys_flag m) MessageSysFlag.STOREHOSTADDRESS_V6_FLAG =? 0
             then 8 else 20) in *.
  assert (8 ≤ bl ≤ 20 ∧ 8 ≤ sl ≤ 20) as [Hbl Hsl]
    by (unfold bl, sl; clear; repeat destruct (_ =? 0); lia).
  replace (4 + 4 + 4 + 4 + 4 + 8 + 8 + 4 + 8 + bl + 8 + sl + 4 + 8)
    with (Z.of_nat (length (header_bytes v m))) by lia.
  set (t := str_bytes (topic (message m))) in *.
  set (tail := topic_field v t ++ put_i16 (Z.of_nat (length props)) ++ props).
  assert (Htail : Z.of_nat (length tail) =
            get_topic_length_size v + Z.of_nat (length t) + 2 + Z.of_nat (length props)).
  { unfold tail. rewrite get_topic_length_field by done. autorewrite with rmq_len. lia. }
  assert (1 ≤ get_topic_length_size v ≤ 2) by (destruct v; simpl; lia).
  rewrite (read_i32_at_put _ _ _ (Z.of_nat (length data))) by done.
  assert (Hlen : Z.of_nat (length (header_bytes v m ++
            put_i32 (Z.of_nat (length data)) ++ data ++ tail)) =
          Z.of_nat (length (header_bytes v m)) + 4 + Z.of_nat (length data)
          + Z.of_nat (length tail)) by (autorewrite with rmq_len; lia).
  assert (Z.of_nat (length props) < 2 ^ 15) by in_range.
  assert (Z.of_nat (length data) < 2 ^ 31) by in_range.
  assert (Z.of_nat (length t) < 32768) by (destruct v; lia).
  rewrite Hlen. unfold SYSFLAG_POSITION.
  rewrite (as_usize_id (Z.of_nat (length data))) by in_range.
  rewrite (as_usize_id (_ + 4 + _)) by in_range.
  repeat (rewrite (proj2 (Z.ltb_ge _ _)) by lia).
  replace (header_bytes v m ++ put_i32 (Z.of_nat (length data)) ++ data ++ tail)
    with ((header_bytes v m ++ put_i32 (Z.of_nat (length data)) ++ data) ++ tail)
    by (by rewrite <- !(assoc_L (++))).
  rewrite get_bytes_app by (autorewrite with rmq_len; lia). cbn [obind].
  unfold tail. rewrite get_topic_put by done. cbn [obind].
  rewrite (as_usize_id (_ + _ + Z.of_nat (length t))) by in_range.
  rewrite (as_usize_id (_ + 2)) by in_range.
  rewrite (proj2 (Z.ltb_lt _ _)); [done |].
  autorewrite with rmq_len. lia.
Qed.

Lemma decode_properties_misses_witness :
  decode_properties
    (record_bytes V1 sample_message (str_bytes "hello")
       (str_bytes (message_properties_to_string [("TAGS", "TagA")]))) = Done None.
Proof.
  apply (decode_properties_misses V1 sample_message (str_bytes "hello"));
    [apply sample_wf | by vm_compute].
Defined.
