(* ===== verification/ReferenceResource.v ===== *)
(** * ReferenceResource: the reference counter of mapped files
    ([reference_resource_counter.rs])

    The counter starts at 1 (the owner's reference).  [hold] takes a reference
    while the resource is available, [release] gives one back and marks the
    resource cleaned up when none is left, [shutdown] drops the owner's
    reference once and, after the forcing interval, drives the counter
    negative.  The methods are first modelled one call at a time, then as the
    atomic steps concurrent callers interleave. *)

From stdpp Require Import base list relations.
From Stdlib Require Import ZArith Lia.
From S2P Require Import Prelude.
Open Scope Z_scope.

Record ReferenceResourceCounter := mkRef {
  ref_count : Z;
  available : bool;
  cleanup_over : bool;
  first_shutdown_timestamp : Z;
}.

Definition new : ReferenceResourceCounter := mkRef 1 true false 0.

Definition is_available (r : ReferenceResourceCounter) : bool := available r.

(** [fetch_add]/[fetch_sub] on the [AtomicI64] wrap around. *)
Definition add_count (d : Z) (r : ReferenceResourceCounter) : ReferenceResourceCounter :=
  mkRef (as_i64 (ref_count r + d)) (available r) (cleanup_over r) (first_shutdown_timestamp r).

Definition hold (r : ReferenceResourceCounter) : ReferenceResourceCounter * bool :=
  if is_available r then
    if 0 <? ref_count r then (add_count 1 r, true)
    else (add_count (-1) (add_count 1 r), false)
  else (r, false).

(** [cleanup] of the counter always reports success. *)
Definition cleanup (current_ref : Z) : bool := true.

Definition release (r : ReferenceResourceCounter) : ReferenceResourceCounter :=
  let r := add_count (-1) r in
  let value := ref_count r in
  if 0 <? value then r
  else mkRef (ref_count r) (available r) (cleanup value) (first_shutdown_timestamp r).

(** [now] is [get_current_millis()]. *)
Definition shutdown (now interval_forcibly : Z) (r : ReferenceResourceCounter)
  : ReferenceResourceCounter :=
  if available r then
    release (mkRef (ref_count r) false (cleanup_over r) now)
  else if (0 <? ref_count r) &&
          (interval_forcibly <=? as_u64 (now - first_shutdown_timestamp r)) then
    release (mkRef (as_i64 (-1000 - ref_count r)) (available r) (cleanup_over r)
               (first_shutdown_timestamp r))
  else r.

Definition get_ref_count (r : ReferenceResourceCounter) : Z := ref_count r.

Definition is_cleanup_over (r : ReferenceResourceCounter) : bool :=
  (get_ref_count r <=? 0) && cleanup_over r.

(** ** One call at a time *)

(** A live counter with [h] outstanding holds. *)
Definition live (h : nat) (r : ReferenceResourceCounter) : Prop :=
  available r = true ∧ cleanup_over r = false ∧ ref_count r = 1 + Z.of_nat h.

(** A counter the owner has shut down, with [h] outstanding holds. *)
Definition closing (h : nat) (r : ReferenceResourceCounter) : Prop :=
  available r = false ∧ ref_count r = Z.of_nat h ∧
  cleanup_over r = bool_decide (h = O).

Lemma add_count_small (d : Z) (r : ReferenceResourceCounter) :
  in_s 64 (ref_count r + d) → ref_count (add_count d r) = ref_count r + d.
Proof. intros H. by apply as_i64_id. Qed.

Lemma hold_live (h : nat) (r : ReferenceResourceCounter) :
  Z.of_nat h < 2 ^ 62 → live h r → live (S h) (hold r).1 ∧ (hold r).2 = true.
Proof.
  intros Hh (Ha & Hc & Hr). unfold hold, is_available. rewrite Ha.
  rewrite (proj2 (Z.ltb_lt _ _)) by lia. split; [| done].
  split_and!; [done | done |]. cbn [fst]. rewrite add_count_small; [lia | in_range].
Qed.

Lemma release_live (h : nat) (r : ReferenceResourceCounter) :
  Z.of_nat h < 2 ^ 62 → live (S h) r → live h (release r).
Proof.
  intros Hh (Ha & Hc & Hr). unfold release.
  rewrite add_count_small by in_range. rewrite (proj2 (Z.ltb_lt _ _)) by lia.
  split_and!; [done | done |]. rewrite add_count_small; [lia | in_range].
Qed.

Lemma shutdown_live (now interval : Z) (h : nat) (r : ReferenceResourceCounter) :
  Z.of_nat h < 2 ^ 62 → live h r → closing h (shutdown now interval r).
Proof.
  intros Hh (Ha & Hc & Hr). unfold shutdown. rewrite Ha. unfold release.
  assert (ref_count (add_count (-1) (mkRef (ref_count r) false (cleanup_over r) now)) =
          Z.of_nat h) as Hn by (rewrite add_count_small; simpl; [lia | in_range]).
  rewrite Hn. destruct (Z.ltb_spec 0 (Z.of_nat h)).
  - split_and!; [done | done |]. simpl. rewrite Hc. by rewrite bool_decide_eq_false_2 by lia.
  - split_and!; [done | done |]. cbn. by rewrite bool_decide_eq_true_2 by lia.
Qed.

Lemma release_closing (h : nat) (r : ReferenceResourceCounter) :
  Z.of_nat h < 2 ^ 62 → closing (S h) r → closing h (release r).
Proof.
  intros Hh (Ha & Hr & Hc). unfold release.
  assert (ref_count (add_count (-1) r) = Z.of_nat h) as Hn
    by (rewrite add_count_small; [lia | in_range]).
  rewrite Hn. destruct (Z.ltb_spec 0 (Z.of_nat h)).
  - split_and!; [done | done |]. simpl. rewrite Hc. by rewrite !bool_decide_eq_false_2 by lia.
  - split_and!; [done | done |]. cbn. by rewrite bool_decide_eq_true_2 by lia.
Qed.

Lemma release_closing_all (h k : nat) (r : ReferenceResourceCounter) :
  Z.of_nat h < 2 ^ 62 → (k ≤ h)%nat → closing h r → closing (h - k) (Nat.iter k release r).
Proof.
  intros Hh Hk Hr. induction k as [| k IH]; simpl; [by rewrite Nat.sub_0_r |].
  apply release_closing; [lia |]. replace (S (h - S k)) with (h - k)%nat by lia.
  apply IH. lia.
Qed.

Lemma hold_closing (h : nat) (r : ReferenceResourceCounter) :
  closing h r → hold r = (r, false).
Proof. intros (Ha & _). unfold hold, is_available. by rewrite Ha. Qed.

Lemma live_iter_hold (n : nat) :
  Z.of_nat n < 2 ^ 62 → live n (Nat.iter n (λ r, (hold r).1) new).
Proof.
  induction n as [| n IH]; intros Hn; [done |]. simpl.
  apply hold_live; [lia |]. apply IH. lia.
Qed.

(** used one call at a time the counter is exact: after [n] holds and a
    shutdown, a further hold is refused, and the resource counts as cleaned up
    when [k] holds have been released if and only if all [n] have. *)
Theorem reference_lifecycle (n k : nat) (now interval : Z) :
  Z.of_nat n < 2 ^ 62 → (k ≤ n)%nat →
  let held := Nat.iter n (λ r, (hold r).1) new in
  let r := Nat.iter k release (shutdown now interval held) in
  (hold r).2 = false ∧ (is_cleanup_over r = true ↔ k = n).
Proof.
  intros Hn Hk held r.
  assert (closing (n - k) r) as Hr.
  { apply release_closing_all; [done | done |]. by apply shutdown_live, live_iter_hold. }
  split; [by rewrite (hold_closing _ _ Hr) |].
  destruct Hr as (_ & Hc & Ho). unfold is_cleanup_over, get_ref_count. rewrite Hc, Ho.
  rewrite andb_true_iff, bool_decide_eq_true, Z.leb_le. lia.
Qed.

Lemma reference_lifecycle_witness :
  let r := Nat.iter 2 release (shutdown 5 0 (Nat.iter 2 (λ r, (hold r).1) new)) in
  (hold r).2 = false ∧ (is_cleanup_over r = true ↔ (2 = 2)%nat).
Proof. apply (reference_lifecycle 2 2 5 0); lia. Defined.

(** ** Concurrent callers *)

(** The callers in the forcible branch of [shutdown]: [forcing] have seen the
    resource shut down and a positive counter, [read] have read the counter
    again, [forced_releasing] have stored the negative value and are about to
    release.  [forced] says whether one of them ever stored it. *)
Record forcers := mkF {
  forcing : nat;
  read : list Z;
  forced_releasing : nat;
  forced : bool;
}.

(** The counter and how many callers are between two atomic operations:
    [checked] have seen the resource available and are about to add,
    [undoing] added to a dead counter and are about to subtract, [holders]
    returned [true] from [hold], [storing] brought the counter to zero or below
    in [release] and are about to store the cleanup flag.  [owner_ref] says
    whether the owner's reference is still counted, [owner_pending] whether the
    shutdown has won its compare-exchange and is about to release. *)
Record cstate := mkC {
  rc : ReferenceResourceCounter;
  checked : nat;
  undoing : nat;
  holders : nat;
  storing : nat;
  owner_ref : bool;
  owner_pending : bool;
  force : forcers;
}.

Definition no_force : forcers := mkF 0 [] 0 false.
Definition cinit : cstate := mkC new 0 0 0 0 true false no_force.

Definition close (r : ReferenceResourceCounter) : ReferenceResourceCounter :=
  mkRef (ref_count r) false (cleanup_over r) (first_shutdown_timestamp r).
Definition mark (r : ReferenceResourceCounter) : ReferenceResourceCounter :=
  mkRef (ref_count r) (available r) (cleanup 0) (first_shutdown_timestamp r).
Definition store_count (v : Z) (r : ReferenceResourceCounter) : ReferenceResourceCounter :=
  mkRef (as_i64 v) (available r) (cleanup_over r) (first_shutdown_timestamp r).

(** The caller that brings the counter to zero goes on to store the flag. *)
Definition after_release (r : ReferenceResourceCounter) (n : nat) : nat :=
  if 0 <? ref_count (add_count (-1) r) then n else S n.

(** One atomic operation of one caller.  Fewer than [2^62] callers are inside
    the counter at a time.  The forcing interval may be over at any time. *)
Inductive cstep : cstate → cstate → Prop :=
| step_check r c u h s o p f :
    is_available r = true →
    cstep (mkC r c u h s o p f) (mkC r (S c) u h s o p f)
| step_add_ok r c u h s o p f :
    0 < ref_count r → Z.of_nat (h + u) < 2 ^ 62 →
    cstep (mkC r (S c) u h s o p f) (mkC (add_count 1 r) c u (S h) s o p f)
| step_add_fail r c u h s o p f :
    ref_count r ≤ 0 → Z.of_nat (h + u) < 2 ^ 62 →
    cstep (mkC r (S c) u h s o p f) (mkC (add_count 1 r) c (S u) h s o p f)
| step_undo r c u h s o p f :
    cstep (mkC r c (S u) h s o p f) (mkC (add_count (-1) r) c u h s o p f)
| step_release r c u h s o p f :
    cstep (mkC r c u (S h) s o p f) (mkC (add_count (-1) r) c u h (after_release r s) o p f)
| step_shutdown r c u h s o f :
    available r = true →
    cstep (mkC r c u h s o false f) (mkC (close r) c u h s o true f)
| step_owner_release r c u h s f :
    cstep (mkC r c u h s true true f) (mkC (add_count (-1) r) c u h (after_release r s) false false f)
| step_store r c u h s o p f :
    cstep (mkC r c u h (S s) o p f) (mkC (mark r) c u h s o p f)
| step_force_check r c u h s o p n l k b :
    available r = false → 0 < ref_count r →
    cstep (mkC r c u h s o p (mkF n l k b)) (mkC r c u h s o p (mkF (S n) l k b))
| step_force_read r c u h s o p n l k b :
    cstep (mkC r c u h s o p (mkF (S n) l k b)) (mkC r c u h s o p (mkF n (ref_count r :: l) k b))
| step_force_store r c u h s o p n l1 v l2 k b :
    cstep (mkC r c u h s o p (mkF n (l1 ++ v :: l2) k b))
      (mkC (store_count (-1000 - v) r) c u h s o p (mkF n (l1 ++ l2) (S k) true))
| step_force_release r c u h s o p n l k b :
    cstep (mkC r c u h s o p (mkF n l (S k) b))
      (mkC (add_count (-1) r) c u h (after_release r s) o p (mkF n l k b)).

(** Until the counter is forced, it is the number of references that count. *)
Definition cinv (st : cstate) : Prop :=
  forced (force st) = false →
  forced_releasing (force st) = O ∧
  ref_count (rc st) =
    Z.of_nat (holders st) + Z.of_nat (undoing st) + (if owner_ref st then 1 else 0) ∧
  Z.of_nat (holders st + undoing st) ≤ 2 ^ 62 ∧
  (available (rc st) = true → owner_ref st = true ∧ owner_pending st = false) ∧
  ((0 < storing st)%nat ∨ cleanup_over (rc st) = true → owner_ref st = false).

Lemma after_release_pos (r : ReferenceResourceCounter) (n : nat) :
  in_s 64 (ref_count r - 1) → (n < after_release r n)%nat → ref_count r ≤ 1.
Proof.
  intros Hr. unfold after_release. rewrite add_count_small by in_range.
  destruct (Z.ltb_spec 0 (ref_count r + -1)); lia.
Qed.

(** A counter once forced stays so. *)
Lemma forced_back (st st' : cstate) :
  cstep st st' → forced (force st') = false → forced (force st) = false.
Proof. by destruct 1. Qed.

Lemma cinv_step (st st' : cstate) : cinv st → cstep st st' → cinv st'.
Proof.
  intros Hi Hst Hf. destruct (Hi (forced_back _ _ Hst Hf)) as (Hk & Hn & Hb & Ha & Hs). clear Hi.
  assert (∀ d, -1 ≤ d ≤ 1 → ref_count (add_count d (rc st)) = ref_count (rc st) + d) as Hadd.
  { intros d Hd. apply add_count_small. rewrite Hn. unfold in_s. simpl Z.pow in *.
    destruct (owner_ref st); lia. }
  destruct Hst; unfold after_release; simpl in *; rewrite ?Hadd by lia; try done.
  - split_and!; [done | lia | lia | done | done].
  - split_and!; [done | lia | lia | done | done].
  - split_and!; [done | lia | lia | done | done].
  - split_and!; [done | lia | lia | done |]. intros H.
    destruct (Z.ltb_spec 0 (ref_count r + -1)); [by apply Hs |].
    destruct o; [lia | done].
  - split_and!; [done | lia | lia | | done]. intros Hav. by destruct (Ha Hav).
  - split_and!; [done | done | done | done |]. intros _. apply Hs. left. lia.
Qed.

Lemma cinv_reachable (st : cstate) : rtc cstep cinit st → cinv st.
Proof.
  assert (cinv cinit) as H0.
  { intros _. split_and!; simpl; [done | done | lia | done |]. intros [? | ?]; [lia | done]. }
  intros H. revert H0. induction H as [| x y z Hxy _ IH]; [done |].
  intros Hx. apply IH. by apply (cinv_step x).
Qed.

(** C37: in every interleaving of callers, as long as no shutdown has forced the
    counter after its interval, the counter equals the number of outstanding
    references, and the step that brings it to zero happens only when the owner
    and every holder have given theirs back. *)
Theorem cleanup_only_when_unreferenced (st st' : cstate) :
  rtc cstep cinit st → cstep st st' → forced (force st') = false →
  ref_count (rc st') = Z.of_nat (holders st') + Z.of_nat (undoing st') +
                       (if owner_ref st' then 1 else 0) ∧
  ((storing st < storing st')%nat → holders st' = O ∧ owner_ref st' = false).
Proof.
  intros Hr Hst Hf. pose proof (cinv_reachable _ Hr) as Hi.
  destruct (cinv_step _ _ Hi Hst Hf) as (_ & Hn' & Hb' & _ & Hs'). split; [done |]. intros Hlt.
  destruct (Hi (forced_back _ _ Hst Hf)) as (Hk & Hn & Hb & _ & _).
  destruct Hst; simpl in *; try lia.
  - apply after_release_pos in Hlt; [| unfold in_s; simpl Z.pow; destruct o; lia].
    destruct o; [lia |]. split_and!; [lia | done].
  - apply after_release_pos in Hlt; [| unfold in_s; simpl Z.pow; lia].
    split_and!; [lia | done].
Qed.

(** The states of one run: two callers check, the owner shuts down. *)
Definition race_start : cstate := mkC (close new) 2 0 0 0 true true no_force.
Lemma race_start_reachable : rtc cstep cinit race_start.
Proof.
  eapply rtc_l; [by apply step_check |]. eapply rtc_l; [by apply step_check |].
  eapply rtc_l; [by apply step_shutdown |]. done.
Qed.

Lemma cleanup_only_when_unreferenced_witness :
  let st' := mkC (add_count (-1) (close new)) 2 0 0 1 false false no_force in
  ref_count (rc st') = 0 ∧ ((0 < storing st')%nat → holders st' = O ∧ owner_ref st' = false).
Proof.
  apply (cleanup_only_when_unreferenced race_start
           (mkC (add_count (-1) (close new)) 2 0 0 1 false false no_force));
    [apply race_start_reachable | apply step_owner_release | reflexivity].
Defined.

(** A shutdown that forces the counter marks the resource as cleaned up while a
    caller holds it. *)
Theorem forced_while_held :
  ∃ st, rtc cstep cinit st ∧ is_cleanup_over (rc st) = true ∧ holders st = 1%nat.
Proof.
  eexists. split.
  - eapply rtc_l; [by apply step_check |]. eapply rtc_l; [by apply step_add_ok |].
    eapply rtc_l; [by apply step_shutdown |]. eapply rtc_l; [apply step_owner_release |].
    eapply rtc_l; [by apply step_force_check |]. eapply rtc_l; [apply step_force_read |].
    eapply rtc_l; [apply (step_force_store _ _ _ _ _ _ _ _ [] _ []) |].
    eapply rtc_l; [apply step_force_release |]. eapply rtc_l; [apply step_store |]. done.
  - done.
Qed.

(** two callers that passed the availability check before the shutdown
    can revive the counter after it reached zero: a hold returns [true] on a
    resource already marked cleaned up. *)
Theorem hold_succeeds_after_cleanup :
  ∃ st, rtc cstep cinit st ∧ cleanup_over (rc st) = true ∧ owner_ref st = false ∧
        holders st = 1%nat ∧ forced (force st) = false.
Proof.
  eexists. split.
  - etrans; [apply race_start_reachable |].
    eapply rtc_l; [apply step_owner_release |]. eapply rtc_l; [apply step_store |].
    eapply rtc_l; [by apply step_add_fail |]. eapply rtc_l; [by apply step_add_ok |]. done.
  - done.
Qed.
