(* ===== verification/RunningFlags.v ===== *)
(** * RunningFlags: the store's state word ([running_flags.rs])

    The store keeps its state in one [AtomicI32] of bit flags.  Each method is
    modelled on the word, and the whole type is shown to implement a set of
    flags. *)

From stdpp Require Import base gmap finite list.
From Stdlib Require Import ZArith Lia.
From S2P Require Import Prelude.
Open Scope Z_scope.

Definition NOT_READABLE_BIT : Z := 1.
Definition NOT_WRITEABLE_BIT : Z := Z.shiftl 1 1.
Definition WRITE_LOGICS_QUEUE_ERROR_BIT : Z := Z.shiftl 1 2.
Definition WRITE_INDEX_FILE_ERROR_BIT : Z := Z.shiftl 1 3.
Definition DISK_FULL_BIT : Z := Z.shiftl 1 4.
Definition FENCED_BIT : Z := Z.shiftl 1 5.
Definition LOGIC_DISK_FULL_BIT : Z := Z.shiftl 1 6.

Definition new_flags : Z := 0.
Definition fetch_or (m z : Z) : Z := Z.lor z m.
Definition fetch_and_not (m z : Z) : Z := Z.land z (Z.lnot m).

Definition is_readable (z : Z) : bool := Z.land z NOT_READABLE_BIT =? 0.
Definition is_fenced (z : Z) : bool := negb (Z.land z FENCED_BIT =? 0).
Definition is_writeable (z : Z) : bool :=
  Z.land z (Z.lor (Z.lor (Z.lor (Z.lor (Z.lor NOT_WRITEABLE_BIT WRITE_LOGICS_QUEUE_ERROR_BIT)
    DISK_FULL_BIT) WRITE_INDEX_FILE_ERROR_BIT) FENCED_BIT) LOGIC_DISK_FULL_BIT) =? 0.
Definition is_cq_writeable (z : Z) : bool :=
  Z.land z (Z.lor (Z.lor (Z.lor NOT_WRITEABLE_BIT WRITE_LOGICS_QUEUE_ERROR_BIT)
    WRITE_INDEX_FILE_ERROR_BIT) LOGIC_DISK_FULL_BIT) =? 0.
Definition is_logics_queue_error (z : Z) : bool :=
  Z.land z WRITE_LOGICS_QUEUE_ERROR_BIT =? WRITE_LOGICS_QUEUE_ERROR_BIT.
Definition is_index_file_error (z : Z) : bool :=
  Z.land z WRITE_INDEX_FILE_ERROR_BIT =? WRITE_INDEX_FILE_ERROR_BIT.

Definition get_and_make_readable (z : Z) : Z * bool :=
  let result := is_readable z in
  (if negb result then fetch_and_not NOT_READABLE_BIT z else z, result).
Definition get_and_make_not_readable (z : Z) : Z * bool :=
  let result := is_readable z in
  (if result then fetch_or NOT_READABLE_BIT z else z, result).
Definition clear_logics_queue_error (z : Z) : Z := fetch_and_not WRITE_LOGICS_QUEUE_ERROR_BIT z.
Definition get_and_make_writeable (z : Z) : Z * bool :=
  let result := is_writeable z in
  (if negb result then fetch_and_not NOT_WRITEABLE_BIT z else z, result).
Definition get_and_make_not_writeable (z : Z) : Z * bool :=
  let result := is_writeable z in
  (if result then fetch_or NOT_WRITEABLE_BIT z else z, result).
Definition make_logics_queue_error (z : Z) : Z := fetch_or WRITE_LOGICS_QUEUE_ERROR_BIT z.
Definition make_fenced (fenced : bool) (z : Z) : Z :=
  if fenced then fetch_or FENCED_BIT z else fetch_and_not FENCED_BIT z.
Definition make_index_file_error (z : Z) : Z := fetch_or WRITE_INDEX_FILE_ERROR_BIT z.
Definition get_and_make_disk_full (z : Z) : Z * bool :=
  let result := negb (Z.land z DISK_FULL_BIT =? DISK_FULL_BIT) in
  (fetch_or DISK_FULL_BIT z, result).
Definition get_and_make_disk_ok (z : Z) : Z * bool :=
  let result := negb (Z.land z DISK_FULL_BIT =? DISK_FULL_BIT) in
  (fetch_and_not DISK_FULL_BIT z, result).
Definition get_and_make_logic_disk_full (z : Z) : Z * bool :=
  let result := negb (Z.land z LOGIC_DISK_FULL_BIT =? LOGIC_DISK_FULL_BIT) in
  (fetch_or LOGIC_DISK_FULL_BIT z, result).
Definition get_and_make_logic_disk_ok (z : Z) : Z * bool :=
  let result := negb (Z.land z LOGIC_DISK_FULL_BIT =? LOGIC_DISK_FULL_BIT) in
  (fetch_and_not LOGIC_DISK_FULL_BIT z, result).

(** ** The abstract store state: a set of flags *)

Inductive Flag :=
| NotReadable | NotWriteable | LogicsQueueError | IndexFileError | DiskFull | Fenced
| LogicDiskFull.

#[export] Instance Flag_eq_dec : EqDecision Flag.
Proof. solve_decision. Defined.
#[export] Program Instance Flag_finite : Finite Flag :=
  {| enum := [NotReadable; NotWriteable; LogicsQueueError; IndexFileError; DiskFull; Fenced;
              LogicDiskFull] |}.
Next Obligation. by apply (bool_decide_unpack _). Qed.
Next Obligation. intros []; by apply (bool_decide_unpack _). Qed.

Definition bit (f : Flag) : Z :=
  match f with
  | NotReadable => 0 | NotWriteable => 1 | LogicsQueueError => 2 | IndexFileError => 3
  | DiskFull => 4 | Fenced => 5 | LogicDiskFull => 6
  end.

(** The methods that change the word or report on it. *)
Inductive op :=
| IsReadable | IsWriteable | IsCqWriteable | IsFenced | IsLogicsQueueError | IsIndexFileError
| GetMakeReadable | GetMakeNotReadable | ClearLogicsQueueError | GetMakeWriteable
| GetMakeNotWriteable | MakeLogicsQueueError | MakeFenced (fenced : bool)
| MakeIndexFileError | GetMakeDiskFull | GetMakeDiskOk | GetMakeLogicDiskFull
| GetMakeLogicDiskOk.

Definition run (o : op) (z : Z) : Z * option bool :=
  let ret '(z', b) := (z', Some b) in
  match o with
  | IsReadable => (z, Some (is_readable z))
  | IsWriteable => (z, Some (is_writeable z))
  | IsCqWriteable => (z, Some (is_cq_writeable z))
  | IsFenced => (z, Some (is_fenced z))
  | IsLogicsQueueError => (z, Some (is_logics_queue_error z))
  | IsIndexFileError => (z, Some (is_index_file_error z))
  | GetMakeReadable => ret (get_and_make_readable z)
  | GetMakeNotReadable => ret (get_and_make_not_readable z)
  | ClearLogicsQueueError => (clear_logics_queue_error z, None)
  | GetMakeWriteable => ret (get_and_make_writeable z)
  | GetMakeNotWriteable => ret (get_and_make_not_writeable z)
  | MakeLogicsQueueError => (make_logics_queue_error z, None)
  | MakeFenced b => (make_fenced b z, None)
  | MakeIndexFileError => (make_index_file_error z, None)
  | GetMakeDiskFull => ret (get_and_make_disk_full z)
  | GetMakeDiskOk => ret (get_and_make_disk_ok z)
  | GetMakeLogicDiskFull => ret (get_and_make_logic_disk_full z)
  | GetMakeLogicDiskOk => ret (get_and_make_logic_disk_ok z)
  end.

(** The flags that stop writes to the store, and to the consume queues. *)
Definition write_blockers : gset Flag :=
  {[NotWriteable; LogicsQueueError; IndexFileError; DiskFull; Fenced; LogicDiskFull]}.
Definition cq_blockers : gset Flag :=
  {[NotWriteable; LogicsQueueError; IndexFileError; LogicDiskFull]}.

Definition absent (f : Flag) (s : gset Flag) : bool := bool_decide (f ∉ s).
Definition clear_of (blockers s : gset Flag) : bool := bool_decide (blockers ## s).

(** What each method means on a set of flags. *)
Definition spec (o : op) (s : gset Flag) : gset Flag * option bool :=
  match o with
  | IsReadable => (s, Some (absent NotReadable s))
  | IsWriteable => (s, Some (clear_of write_blockers s))
  | IsCqWriteable => (s, Some (clear_of cq_blockers s))
  | IsFenced => (s, Some (negb (absent Fenced s)))
  | IsLogicsQueueError => (s, Some (negb (absent LogicsQueueError s)))
  | IsIndexFileError => (s, Some (negb (absent IndexFileError s)))
  | GetMakeReadable => (s ∖ {[NotReadable]}, Some (absent NotReadable s))
  | GetMakeNotReadable => (s ∪ {[NotReadable]}, Some (absent NotReadable s))
  | ClearLogicsQueueError => (s ∖ {[LogicsQueueError]}, None)
  | GetMakeWriteable => (s ∖ {[NotWriteable]}, Some (clear_of write_blockers s))
  | GetMakeNotWriteable =>
      (if clear_of write_blockers s then s ∪ {[NotWriteable]} else s,
       Some (clear_of write_blockers s))
  | MakeLogicsQueueError => (s ∪ {[LogicsQueueError]}, None)
  | MakeFenced b => (if b then s ∪ {[Fenced]} else s ∖ {[Fenced]}, None)
  | MakeIndexFileError => (s ∪ {[IndexFileError]}, None)
  | GetMakeDiskFull => (s ∪ {[DiskFull]}, Some (absent DiskFull s))
  | GetMakeDiskOk => (s ∖ {[DiskFull]}, Some (absent DiskFull s))
  | GetMakeLogicDiskFull => (s ∪ {[LogicDiskFull]}, Some (absent LogicDiskFull s))
  | GetMakeLogicDiskOk => (s ∖ {[LogicDiskFull]}, Some (absent LogicDiskFull s))
  end.

(** The word represents the set: bit [bit f] is set iff [f] is a member. *)
Definition represents (z : Z) (s : gset Flag) : Prop :=
  ∀ f, Z.testbit z (bit f) = bool_decide (f ∈ s).

(** Runs a sequence of calls, collecting what each returns. *)
Fixpoint run_all (os : list op) (z : Z) : Z * list (option bool) :=
  match os with
  | [] => (z, [])
  | o :: os' =>
      let '(z', r) := run o z in let '(z'', rs) := run_all os' z' in (z'', r :: rs)
  end.
Fixpoint spec_all (os : list op) (s : gset Flag) : gset Flag * list (option bool) :=
  match os with
  | [] => (s, [])
  | o :: os' =>
      let '(s', r) := spec o s in let '(s'', rs) := spec_all os' s' in (s'', r :: rs)
  end.

(** ** Lemmas *)

Lemma bit_nonneg (f : Flag) : 0 ≤ bit f.
Proof. destruct f; simpl; lia. Qed.
Lemma bit_inj (f g : Flag) : bit f = bit g → f = g.
Proof. destruct f, g; simpl; intros; done. Qed.

Definition mask (f : Flag) : Z := Z.shiftl 1 (bit f).

(** Writes the source's constants as masks. *)
Ltac to_masks :=
  change LOGIC_DISK_FULL_BIT with (mask LogicDiskFull);
  change FENCED_BIT with (mask Fenced);
  change WRITE_INDEX_FILE_ERROR_BIT with (mask IndexFileError);
  change DISK_FULL_BIT with (mask DiskFull);
  change WRITE_LOGICS_QUEUE_ERROR_BIT with (mask LogicsQueueError);
  change NOT_WRITEABLE_BIT with (mask NotWriteable);
  change NOT_READABLE_BIT with (mask NotReadable).

Lemma mask_testbit (f g : Flag) : Z.testbit (mask f) (bit g) = bool_decide (f = g).
Proof. by destruct f, g. Qed.

Lemma land_mask (z : Z) (f : Flag) :
  Z.land z (mask f) = if Z.testbit z (bit f) then mask f else 0.
Proof.
  unfold mask. rewrite Z.shiftl_1_l. pose proof (bit_nonneg f).
  apply Z.bits_inj'. intros n Hn. rewrite Z.land_spec, Z.pow2_bits_eqb by done.
  destruct (Z.testbit z (bit f)) eqn:E.
  - rewrite Z.pow2_bits_eqb by done. destruct (Z.eqb_spec (bit f) n) as [<- |].
    + by rewrite E.
    + by rewrite andb_false_r.
  - rewrite Z.bits_0. destruct (Z.eqb_spec (bit f) n) as [<- |].
    + by rewrite E.
    + by rewrite andb_false_r.
Qed.

Lemma land_mask_zero (z : Z) (f : Flag) :
  (Z.land z (mask f) =? 0) = negb (Z.testbit z (bit f)).
Proof. rewrite land_mask. destruct (Z.testbit _ _); [| done]. by destruct f. Qed.

Lemma land_mask_full (z : Z) (f : Flag) :
  (Z.land z (mask f) =? mask f) = Z.testbit z (bit f).
Proof. rewrite land_mask. destruct (Z.testbit _ _); by destruct f. Qed.

Lemma land_lor_zero (z m : Z) (f : Flag) :
  (Z.land z (Z.lor m (mask f)) =? 0) = (Z.land z m =? 0) && negb (Z.testbit z (bit f)).
Proof.
  rewrite Z.land_lor_distr_r, <- land_mask_zero.
  destruct (Z.eqb_spec (Z.land z m) 0) as [-> |]; [by rewrite Z.lor_0_l |].
  simpl. apply Z.eqb_neq. rewrite Z.lor_eq_0_iff. tauto.
Qed.

Section Refinement.
Variables (z : Z) (s : gset Flag).
Hypothesis R : represents z s.

Lemma represents_or (f : Flag) : represents (fetch_or (mask f) z) (s ∪ {[f]}).
Proof.
  intros g. unfold fetch_or. rewrite Z.lor_spec, R, mask_testbit.
  apply eq_bool_prop_intro. rewrite orb_True, !bool_decide_spec. set_solver.
Qed.

Lemma represents_and_not (f : Flag) : represents (fetch_and_not (mask f) z) (s ∖ {[f]}).
Proof.
  intros g. unfold fetch_and_not.
  rewrite Z.land_spec, Z.lnot_spec, R, mask_testbit by apply bit_nonneg.
  apply eq_bool_prop_intro. rewrite andb_True, negb_True, !bool_decide_spec. set_solver.
Qed.

Lemma testbit_absent (f : Flag) : negb (Z.testbit z (bit f)) = absent f s.
Proof. rewrite R. unfold absent. by rewrite bool_decide_not. Qed.

Lemma is_writeable_spec : is_writeable z = clear_of write_blockers s.
Proof.
  unfold is_writeable.
  to_masks.
  rewrite !land_lor_zero, land_mask_zero, !testbit_absent.
  unfold absent, clear_of, write_blockers. apply eq_bool_prop_intro.
  rewrite !andb_True, !bool_decide_spec. set_unfold. split.
  - intros Hs x Hx Hin. repeat destruct Hx as [Hx | Hx]; subst; tauto.
  - intros Hs. repeat split; intros Hin; (eapply Hs; [| exact Hin]); tauto.
Qed.

Lemma is_cq_writeable_spec : is_cq_writeable z = clear_of cq_blockers s.
Proof.
  unfold is_cq_writeable.
  to_masks.
  rewrite !land_lor_zero, land_mask_zero, !testbit_absent.
  unfold absent, clear_of, cq_blockers. apply eq_bool_prop_intro.
  rewrite !andb_True, !bool_decide_spec. set_unfold. split.
  - intros Hs x Hx Hin. repeat destruct Hx as [Hx | Hx]; subst; tauto.
  - intros Hs. repeat split; intros Hin; (eapply Hs; [| exact Hin]); tauto.
Qed.

(** Clearing or setting a flag that already has that value changes nothing. *)
Lemma represents_absent (f : Flag) : absent f s = true → represents z (s ∖ {[f]}).
Proof.
  unfold absent. rewrite bool_decide_eq_true. intros Hf.
  assert (s ∖ {[f]} = s) as -> by set_solver. done.
Qed.
Lemma represents_present (f : Flag) : absent f s = false → represents z (s ∪ {[f]}).
Proof.
  unfold absent. rewrite bool_decide_eq_false. intros Hf.
  assert (s ∪ {[f]} = s) as ->; [| done].
  assert (f ∈ s) by (destruct (decide (f ∈ s)); tauto). set_solver.
Qed.

Lemma run_refines (o : op) :
  represents (run o z).1 (spec o s).1 ∧ (run o z).2 = (spec o s).2.
Proof.
  pose proof (land_mask_zero z NotReadable) as Hread. rewrite testbit_absent in Hread.
  change (mask NotReadable) with NOT_READABLE_BIT in Hread. fold (is_readable z) in Hread.
  assert (∀ f, (Z.land z (mask f) =? mask f) = negb (absent f s)) as Hfull
    by (intros f; rewrite land_mask_full, <- testbit_absent; by rewrite negb_involutive).
  assert (clear_of write_blockers s = true → absent NotWriteable s = true) as Hnw.
  { unfold clear_of, absent, write_blockers. rewrite !bool_decide_eq_true.
    set_unfold. intros Hd Hin. apply (Hd NotWriteable); [tauto | done]. }
  destruct o; cbn [run spec fst snd];
    unfold get_and_make_readable, get_and_make_not_readable, get_and_make_writeable,
      get_and_make_not_writeable, get_and_make_disk_full, get_and_make_disk_ok,
      get_and_make_logic_disk_full, get_and_make_logic_disk_ok, clear_logics_queue_error,
      make_logics_queue_error, make_fenced, make_index_file_error, is_fenced,
      is_logics_queue_error, is_index_file_error;
    to_masks; rewrite ?is_writeable_spec, ?is_cq_writeable_spec, ?Hread, ?Hfull,
      ?land_mask_zero, ?testbit_absent, ?negb_involutive;
    split; try done; eauto using represents_or, represents_and_not.
  - destruct (absent NotReadable s) eqn:E; simpl;
      [by apply represents_absent | apply represents_and_not].
  - destruct (absent NotReadable s) eqn:E; simpl;
      [apply represents_or | by apply represents_present].
  - destruct (clear_of write_blockers s) eqn:E; simpl;
      [by apply represents_absent, Hnw | apply represents_and_not].
  - destruct (clear_of write_blockers s); simpl; [apply represents_or | done].
  - destruct fenced; [apply represents_or | apply represents_and_not].
Qed.
End Refinement.

(** the word implements a set of flags: any sequence of calls, started on
    a fresh store, returns what the same calls on the empty set return, and the
    final word represents the final set. *)
Theorem running_flags_refine_set (os : list op) :
  (run_all os new_flags).2 = (spec_all os ∅).2 ∧
  represents (run_all os new_flags).1 (spec_all os ∅).1.
Proof.
  assert (∀ z s, represents z s →
    (run_all os z).2 = (spec_all os s).2 ∧ represents (run_all os z).1 (spec_all os s).1)
    as Hgen.
  { induction os as [| o os IH]; intros z s R; [done |].
    pose proof (run_refines z s R o) as [HR Hr]. cbn [run_all spec_all].
    destruct (run o z) as [z' r], (spec o s) as [s' r']. cbn [fst snd] in *.
    specialize (IH z' s' HR). destruct (run_all os z'), (spec_all os s').
    cbn [fst snd] in *. destruct IH as [-> IH]. by subst. }
  apply Hgen. intros f. unfold new_flags. rewrite Z.bits_0.
  symmetry. apply bool_decide_eq_false_2. set_solver.
Qed.
