(* ===== verification/FileName.v ===== *)
(** * FileName: segment file names
    ([offset_to_file_name] of [util_all.rs], [parse_file_from_offset] of
    [default_mapped_file_impl.rs])

    A segment is named after its first offset, as 20 decimal digits; opening a
    segment parses the name back. *)

From stdpp Require Import base list strings.
From coqutil Require Import Byte.
From Stdlib Require Import ZArith Lia.
From S2P Require Import Prelude Bytes.
Open Scope Z_scope.

Definition digit (d : Z) : byte := byte.of_Z (48 + d).
Definition digit_value (c : byte) : option Z :=
  let v := byte.unsigned c in
  if (48 <=? v) && (v <=? 57) then Some (v - 48) else None.

(** The [n] low decimal digits of [z], most significant first. *)
Fixpoint dec_digits (n : nat) (z : Z) : buffer :=
  match n with
  | O => []
  | S n' => dec_digits n' (z / 10) ++ [digit (z mod 10)]
  end.

(** [format!("{offset:020}")]: a [u64] has at most 20 digits, so the padded
    text has exactly 20. *)
Definition offset_to_file_name (offset : Z) : string := bytes_str (dec_digits 20 offset).

(** [str::parse::<u64>]: an optional plus sign, then at least one digit, no
    overflow. *)
Fixpoint parse_digits (cs : buffer) (acc : Z) : option Z :=
  match cs with
  | [] => Some acc
  | c :: cs' =>
      match digit_value c with
      | None => None
      | Some d =>
          let acc' := acc * 10 + d in
          if acc' <? 2 ^ 64 then parse_digits cs' acc' else None
      end
  end.

Definition parse_u64 (s : string) : option Z :=
  match str_bytes s with
  | [] => None
  | c :: cs =>
      if decide (c = Byte.x2b) then
        match cs with [] => None | _ => parse_digits cs 0 end
      else parse_digits (c :: cs) 0
  end.

(** [str::parse] at a signed width: an optional sign, then digits, in range. *)
Definition parse_signed (lo hi : Z) (s : string) : option Z :=
  match str_bytes s with
  | [] => None
  | c :: cs =>
      let body := if decide (c = Byte.x2b ∨ c = Byte.x2d) then cs else c :: cs in
      match body with
      | [] => None
      | _ =>
          match parse_digits body 0 with
          | None => None
          | Some n =>
              let v := if decide (c = Byte.x2d) then - n else n in
              if (lo <=? v) && (v <=? hi) then Some v else None
          end
      end
  end.
Definition parse_i64 : string → option Z := parse_signed (- 2 ^ 63) (2 ^ 63 - 1).
Definition parse_i32 : string → option Z := parse_signed (- 2 ^ 31) (2 ^ 31 - 1).

(** [parse_file_from_offset] on the last component of the path: panics when
    the name is not a number. *)
Definition parse_file_from_offset (name : string) : outcome Z := unwrap (parse_u64 name).

(** ** Lemmas *)

Lemma digit_unsigned (d : Z) : 0 ≤ d ≤ 9 → byte.unsigned (digit d) = 48 + d.
Proof.
  intros H. unfold digit. rewrite byte.unsigned_of_Z. apply Z.mod_small. simpl. lia.
Qed.

Lemma digit_value_digit (d : Z) : 0 ≤ d ≤ 9 → digit_value (digit d) = Some d.
Proof.
  intros H. unfold digit_value. rewrite digit_unsigned by done.
  rewrite (proj2 (Z.leb_le _ _)), (proj2 (Z.leb_le _ _)) by lia. simpl. f_equal. lia.
Qed.

Lemma parse_digits_app (xs ys : buffer) (acc a : Z) :
  parse_digits xs acc = Some a → parse_digits (xs ++ ys) acc = parse_digits ys a.
Proof.
  revert acc. induction xs as [| x xs IH]; intros acc H; simpl in *; [by injection H as -> |].
  destruct (digit_value x); [| done]. destruct (_ <? _); [| done]. by apply IH.
Qed.

Lemma parse_dec_digits (n : nat) (z : Z) :
  0 ≤ z < 2 ^ 64 → z < 10 ^ Z.of_nat n → parse_digits (dec_digits n z) 0 = Some z.
Proof.
  revert z. induction n as [| n IH]; intros z Hz Hn.
  - simpl in *. f_equal. lia.
  - assert (Hq : z / 10 < 10 ^ Z.of_nat n).
    { apply Z.div_lt_upper_bound; [lia |]. rewrite Nat2Z.inj_succ, Z.pow_succ_r in Hn; lia. }
    assert (0 ≤ z / 10) by (apply Z.div_pos; lia).
    assert (z / 10 ≤ z) by (apply Z.div_le_upper_bound; lia).
    cbn [dec_digits]. rewrite (parse_digits_app _ _ _ (z / 10)) by (apply IH; lia).
    cbn [parse_digits]. pose proof (Z.mod_pos_bound z 10 ltac:(lia)).
    rewrite digit_value_digit by lia. pose proof (Z.div_mod z 10 ltac:(lia)).
    replace (z / 10 * 10 + z mod 10) with z by lia.
    by rewrite (proj2 (Z.ltb_lt _ _)) by lia.
Qed.

Lemma dec_digits_length (n : nat) (z : Z) : length (dec_digits n z) = n.
Proof. revert z. induction n; intros z; simpl; [done |]. rewrite length_app, IHn. simpl. lia. Qed.

Lemma dec_digits_head (n : nat) (z : Z) (c : byte) (cs : buffer) :
  dec_digits (S n) z = c :: cs → 0 ≤ z → c ≠ Byte.x2b.
Proof.
  revert z cs. induction n as [| n IH]; intros z cs H Hz; cbn [dec_digits] in H.
  - simpl in H. injection H as <- _. intros Hc.
    pose proof (Z.mod_pos_bound z 10 ltac:(lia)).
    pose proof (digit_unsigned (z mod 10) ltac:(lia)) as Hu. rewrite Hc in Hu.
    change (byte.unsigned Byte.x2b) with 43 in Hu. lia.
  - destruct (dec_digits n (z / 10 / 10) ++ [digit (z / 10 mod 10)]) as [| d ds] eqn:E.
    + by destruct (dec_digits n _).
    + simpl in H. injection H as -> _. apply (IH (z / 10) ds).
      * exact E.
      * apply Z.div_pos; lia.
Qed.

Lemma parse_file_name (off : Z) :
  in_u 64 off → parse_file_from_offset (offset_to_file_name off) = Done off.
Proof.
  intros H. unfold parse_file_from_offset, parse_u64, offset_to_file_name.
  rewrite str_bytes_str. pose proof (dec_digits_length 20 off) as Hl.
  destruct (dec_digits 20 off) as [| c cs] eqn:E; [done |].
  rewrite decide_False by (apply (dec_digits_head 19 off _ _ E); in_range).
  rewrite <- E, parse_dec_digits; [done | in_range |].
  change (Z.of_nat 20) with 20. in_range.
Qed.

(** a segment's name determines its offset: parsing the name given to the
    file that starts at an offset returns the offset, and the name always has
    20 digits. *)
Theorem file_name_roundtrip (off : Z) :
  in_u 64 off →
  parse_file_from_offset (offset_to_file_name off) = Done off ∧
  length (str_bytes (offset_to_file_name off)) = 20%nat.
Proof.
  intros H. split; [by apply parse_file_name |].
  unfold offset_to_file_name. rewrite str_bytes_str. apply dec_digits_length.
Qed.

Lemma file_name_roundtrip_witness :
  parse_file_from_offset (offset_to_file_name 1073741824) = Done 1073741824 ∧
  length (str_bytes (offset_to_file_name 1073741824)) = 20%nat.
Proof. apply (file_name_roundtrip 1073741824). in_range. Defined.
