(* ===== verification/Numerals.v ===== *)
(** * Numerals: decimal forms of integers ([to_string] and [str::parse])

    [Display] of an integer is [pretty]; the lemmas say that [parse] reads it
    back at the width of the integer, and which bytes it is made of. *)

From stdpp Require Import base list sets strings pretty.
From coqutil Require Import Byte.
From Stdlib Require Import ZArith Lia.
From S2P Require Import Prelude Bytes FileName.
Open Scope Z_scope.

Lemma str_bytes_app (a b : string) : str_bytes (a +:+ b) = str_bytes a ++ str_bytes b.
Proof.
  unfold str_bytes, String.list_byte_of_string. induction a as [| c a IH]; [done |].
  change (String c a +:+ b)%string with (String c (a +:+ b)). cbn in *. by rewrite IH.
Qed.

(** ** Digits *)

Definition is_digit (b : byte) : Prop := is_Some (digit_value b).

Lemma pretty_char_digit (n : N) :
  (n < 10)%N → digit_value (Ascii.byte_of_ascii (pretty_N_char n)) = Some (Z.of_N n).
Proof.
  intros Hn. do 10 (destruct n as [| n] using N.peano_ind; [done | clear IHn]). lia.
Qed.

(** The digits [pretty_N_go] puts in front of [s]. *)
Lemma pretty_N_go_digits (n : N) (s : string) :
  ∃ ds, str_bytes (pretty_N_go n s) = ds ++ str_bytes s ∧ Forall is_digit ds ∧
        (Z.of_N n < 2 ^ 64 → parse_digits ds 0 = Some (Z.of_N n)) ∧ (n ≠ 0%N → ds ≠ []).
Proof.
  revert s. induction (N.lt_wf_0 n) as [n _ IH]; intros s.
  destruct (decide (n = 0%N)) as [-> | Hn]; [by exists [] |].
  rewrite pretty_N_go_step by lia.
  set (c := pretty_N_char (n mod 10)).
  destruct (IH (n / 10)%N ltac:(apply N.div_lt; lia) (String c s)) as (ds & E & Hd & Hp & _).
  pose proof (pretty_char_digit (n mod 10) ltac:(apply N.mod_lt; lia)) as Hc.
  exists (ds ++ [Ascii.byte_of_ascii c]). split_and!.
  - rewrite E. by rewrite <- (assoc_L (++)).
  - apply Forall_app_2; [done |]. constructor; [by eexists | constructor].
  - intros Hlt. pose proof (N.div_mod n 10 ltac:(lia)) as Hdm.
    rewrite (parse_digits_app _ _ _ (Z.of_N (n / 10)))
      by (apply Hp; pose proof (N.div_lt n 10 ltac:(lia) ltac:(lia)); lia).
    cbn [parse_digits]. fold c in Hc. rewrite Hc. rewrite (proj2 (Z.ltb_lt _ _)) by lia. f_equal. lia.
  - intros _ Hnil. apply (f_equal length) in Hnil. rewrite length_app in Hnil. cbn in Hnil. lia.
Qed.

Lemma pretty_pos_digits (p : positive) :
  Forall is_digit (str_bytes (pretty p)) ∧ str_bytes (pretty p) ≠ [] ∧
  (Z.pos p < 2 ^ 64 → parse_digits (str_bytes (pretty p)) 0 = Some (Z.pos p)).
Proof.
  change (pretty p) with (pretty_N_go (N.pos p) "").
  destruct (pretty_N_go_digits (N.pos p) "") as (ds & -> & Hd & Hp & Hn).
  change (str_bytes "") with (@nil byte). rewrite app_nil_r. auto with lia.
Qed.

(** The bytes of a decimal form are digits and the minus sign. *)
Lemma pretty_bytes (z : Z) :
  Forall (λ b, is_digit b ∨ b = Byte.x2d) (str_bytes (pretty z)).
Proof.
  destruct z as [| p | p].
  - repeat constructor. by eexists.
  - eapply Forall_impl; [apply (pretty_pos_digits p) | by left].
  - change (pretty (Z.neg p)) with ("-" +:+ pretty p). rewrite str_bytes_app.
    constructor; [by right |].
    eapply Forall_impl; [apply (pretty_pos_digits p) | by left].
Qed.
Lemma pretty_not_byte (c : byte) (z : Z) :
  digit_value c = None → c ≠ Byte.x2d → c ∉ str_bytes (pretty z).
Proof.
  intros Hc Hm Hin. pose proof (pretty_bytes z) as H. rewrite Forall_forall in H.
  destruct (H c Hin) as [[d Hd] | ->]; [| done]. rewrite Hc in Hd. done.
Qed.
(** No minus sign in the decimal form of a natural number. *)
Lemma pretty_no_minus (i : Z) : 0 ≤ i → Byte.x2d ∉ str_bytes (pretty i).
Proof.
  intros Hi Hin. destruct i as [| p | p]; [vm_compute in Hin; set_solver | | lia].
  destruct (pretty_pos_digits p) as [H _]. rewrite Forall_forall in H.
  destruct (H _ Hin) as [d Hd]. done.
Qed.

(** ** [parse] reads [to_string] back *)

Lemma parse_signed_unsigned (lo hi : Z) (ds : buffer) (n : Z) :
  Forall is_digit ds → ds ≠ [] → parse_digits ds 0 = Some n → lo ≤ n ≤ hi →
  parse_signed lo hi (bytes_str ds) = Some n.
Proof.
  intros Hd Hne Hp Hr. unfold parse_signed. rewrite str_bytes_str.
  destruct ds as [| c cs]; [done |]. inversion Hd as [| ? ? [v Hv] _]; subst.
  assert (c ≠ Byte.x2b ∧ c ≠ Byte.x2d) as [Hpl Hm] by (split; by intros ->).
  rewrite !(decide_False (P := c = Byte.x2b ∨ c = Byte.x2d)) by tauto.
  rewrite Hp, decide_False by done. cbn.
  rewrite (proj2 (Z.leb_le _ _)), (proj2 (Z.leb_le _ _)) by lia. done.
Qed.

Lemma parse_signed_pretty (lo hi z : Z) :
  lo ≤ z ≤ hi → - 2 ^ 64 < z < 2 ^ 64 → parse_signed lo hi (pretty z) = Some z.
Proof.
  intros Hr Hw. destruct z as [| p | p].
  - apply (parse_signed_unsigned lo hi [Byte.x30] 0); [repeat constructor; by eexists | done..].
  - destruct (pretty_pos_digits p) as (Hd & Hn & Hp).
    rewrite <- (bytes_str_bytes (pretty (Z.pos p))).
    apply parse_signed_unsigned; [done | done | apply Hp; lia | done].
  - destruct (pretty_pos_digits p) as (Hd & Hn & Hp).
    unfold parse_signed. change (pretty (Z.neg p)) with ("-" +:+ pretty p).
    rewrite str_bytes_app. change (str_bytes "-") with [Byte.x2d]. cbn [app].
    rewrite !decide_True by tauto.
    destruct (str_bytes (pretty p)) as [| c cs]; [done |].
    rewrite Hp by lia. rewrite decide_True by done. change (- Z.pos p) with (Z.neg p).
    by rewrite (proj2 (Z.leb_le lo _)), (proj2 (Z.leb_le _ hi)) by lia.
Qed.
Lemma parse_i64_pretty (z : Z) : in_s 64 z → parse_i64 (pretty z) = Some z.
Proof. intros H. apply parse_signed_pretty; in_range. Qed.
Lemma parse_i32_pretty (z : Z) : in_s 32 z → parse_i32 (pretty z) = Some z.
Proof. intros H. apply parse_signed_pretty; in_range. Qed.
