(* ===== verification/MappedFile.v ===== *)
(** * MappedFile: one segment file ([default_mapped_file_impl.rs])

    A segment is a fixed-size memory-mapped file with three positions: bytes
    below [wrote_position] have been appended, bytes below [flushed_position]
    have been forced to disk.  The mapped memory is a byte list of the file's
    size.  Opening and mapping the file are assumed to succeed. *)

From stdpp Require Import base list strings.
From Stdlib Require Import ZArith Lia.
From S2P Require Import Prelude Bytes FileName ReferenceResource.
Open Scope Z_scope.
Open Scope rmq_scope.

Definition OS_PAGE_SIZE : Z := 1024 * 4.

Record DefaultMappedFile := mkMF {
  reference_resource : ReferenceResourceCounter;
  mmapped_file : buffer;
  transient_store_pool : bool;
  file_name : string;
  file_from_offset : Z;
  wrote_position : Z;
  committed_position : Z;
  flushed_position : Z;
  file_size : Z;
  mf_store_timestamp : Z;
  first_create_in_queue : bool;
  last_flush_time : Z;
  access_count : Z;
  on_disk : bool;
}.

(** ** Field updates *)
Definition set_reference r m :=
  mkMF r (mmapped_file m) (transient_store_pool m) (file_name m) (file_from_offset m)
    (wrote_position m) (committed_position m) (flushed_position m) (file_size m)
    (mf_store_timestamp m) (first_create_in_queue m) (last_flush_time m) (access_count m)
    (on_disk m).
Definition set_memory d m :=
  mkMF (reference_resource m) d (transient_store_pool m) (file_name m) (file_from_offset m)
    (wrote_position m) (committed_position m) (flushed_position m) (file_size m)
    (mf_store_timestamp m) (first_create_in_queue m) (last_flush_time m) (access_count m)
    (on_disk m).
Definition set_wrote_position p m :=
  mkMF (reference_resource m) (mmapped_file m) (transient_store_pool m) (file_name m)
    (file_from_offset m) p (committed_position m) (flushed_position m) (file_size m)
    (mf_store_timestamp m) (first_create_in_queue m) (last_flush_time m) (access_count m)
    (on_disk m).
Definition set_committed_position p m :=
  mkMF (reference_resource m) (mmapped_file m) (transient_store_pool m) (file_name m)
    (file_from_offset m) (wrote_position m) p (flushed_position m) (file_size m)
    (mf_store_timestamp m) (first_create_in_queue m) (last_flush_time m) (access_count m)
    (on_disk m).
Definition set_flushed_position p m :=
  mkMF (reference_resource m) (mmapped_file m) (transient_store_pool m) (file_name m)
    (file_from_offset m) (wrote_position m) (committed_position m) p (file_size m)
    (mf_store_timestamp m) (first_create_in_queue m) (last_flush_time m) (access_count m)
    (on_disk m).
Definition set_store_timestamp t m :=
  mkMF (reference_resource m) (mmapped_file m) (transient_store_pool m) (file_name m)
    (file_from_offset m) (wrote_position m) (committed_position m) (flushed_position m)
    (file_size m) t (first_create_in_queue m) (last_flush_time m) (access_count m) (on_disk m).
Definition set_first_create_in_queue b m :=
  mkMF (reference_resource m) (mmapped_file m) (transient_store_pool m) (file_name m)
    (file_from_offset m) (wrote_position m) (committed_position m) (flushed_position m)
    (file_size m) (mf_store_timestamp m) b (last_flush_time m) (access_count m) (on_disk m).
Definition set_last_flush_time t m :=
  mkMF (reference_resource m) (mmapped_file m) (transient_store_pool m) (file_name m)
    (file_from_offset m) (wrote_position m) (committed_position m) (flushed_position m)
    (file_size m) (mf_store_timestamp m) (first_create_in_queue m) t (access_count m)
    (on_disk m).
Definition count_access m :=
  mkMF (reference_resource m) (mmapped_file m) (transient_store_pool m) (file_name m)
    (file_from_offset m) (wrote_position m) (committed_position m) (flushed_position m)
    (file_size m) (mf_store_timestamp m) (first_create_in_queue m) (last_flush_time m)
    (as_i64 (access_count m + 1)) (on_disk m).
Definition set_on_disk b m :=
  mkMF (reference_resource m) (mmapped_file m) (transient_store_pool m) (file_name m)
    (file_from_offset m) (wrote_position m) (committed_position m) (flushed_position m)
    (file_size m) (mf_store_timestamp m) (first_create_in_queue m) (last_flush_time m)
    (access_count m) b.

(** ** Operations *)

(** [DefaultMappedFile::new]: [existing] is what the file held before
    [set_len] cut or zero-extended it. *)
Definition new_mapped_file (name : string) (size : Z) (existing : buffer)
  : outcome DefaultMappedFile :=
  let* off := parse_file_from_offset name in
  let n := Z.to_nat size in
  Done (mkMF new (take n existing ++ replicate (n - length existing) Byte.x00) false name off
          0 0 0 size 0 false 0 0 true).

Definition is_full (m : DefaultMappedFile) : bool := file_size m =? as_u64 (wrote_position m).

(** Both branches of the source read the wrote position. *)
Definition get_read_position (m : DefaultMappedFile) : Z := wrote_position m.

Definition mf_hold (m : DefaultMappedFile) : DefaultMappedFile * bool :=
  let '(r, b) := hold (reference_resource m) in (set_reference r m, b).
Definition mf_release (m : DefaultMappedFile) : DefaultMappedFile :=
  set_reference (release (reference_resource m)) m.
Definition mf_shutdown (now interval : Z) (m : DefaultMappedFile) : DefaultMappedFile :=
  set_reference (shutdown now interval (reference_resource m)) m.

(** [get_bytes] does not look at the read position.  The callers' positions and
    sizes are within a file or at most an [i64] and an [i32], so that the sum
    does not wrap around. *)
Definition mf_get_bytes (pos size : Z) (m : DefaultMappedFile) : option buffer :=
  if file_size m <? pos + size then None
  else Some (slice (mmapped_file m) (Z.to_nat pos) (Z.to_nat (pos + size))).

(** [&mapped[from..to]] *)
Definition mapped_slice (from to : Z) (m : DefaultMappedFile) : outcome buffer :=
  if (from <=? to) && (to <=? Z.of_nat (length (mmapped_file m)))
  then Done (slice (mmapped_file m) (Z.to_nat from) (Z.to_nat to)) else Panic.

(** [pos] and [size] are of type [usize], and so is their sum. *)
Definition get_bytes_readable_checked (pos size : Z) (m : DefaultMappedFile)
  : outcome (option buffer) :=
  let max_readable_position := as_usize (get_read_position m) in
  let end_position := as_usize (pos + size) in
  if (max_readable_position <? end_position) || (file_size m <? end_position) then Done None
  else let* d := mapped_slice pos end_position m in Done (Some d).

(** [data.get(offset..offset + length)] *)
Definition data_get (data : buffer) (offset length : Z) : option buffer :=
  if offset + length <=? Z.of_nat (List.length data)
  then Some (slice data (Z.to_nat offset) (Z.to_nat (offset + length))) else None.

Definition append_message_no_position_update (data : buffer) (offset length : Z)
    (m : DefaultMappedFile) : DefaultMappedFile * bool :=
  let current_pos := as_usize (wrote_position m) in
  if current_pos + length <=? file_size m then
    match data_get data offset length with
    | Some d => (set_memory (splice (mmapped_file m) (Z.to_nat current_pos) d) m, true)
    | None => (m, false)
    end
  else (m, false).

Definition append_message_offset_length (data : buffer) (offset length : Z)
    (m : DefaultMappedFile) : DefaultMappedFile * bool :=
  let current_pos := as_usize (wrote_position m) in
  if current_pos + length <=? file_size m then
    match data_get data offset length with
    | Some d =>
        (set_wrote_position (as_i32 (wrote_position m + as_i32 length))
           (set_memory (splice (mmapped_file m) (Z.to_nat current_pos) d) m), true)
    | None => (m, false)
    end
  else (m, false).

Definition append_message_bytes (data : buffer) (m : DefaultMappedFile)
  : DefaultMappedFile * bool :=
  append_message_offset_length data 0 (Z.of_nat (length data)) m.

Definition append_message_bytes_no_position_update (data : buffer) (m : DefaultMappedFile)
  : DefaultMappedFile * bool :=
  append_message_no_position_update data 0 (Z.of_nat (length data)) m.

Definition write_bytes_segment (data : buffer) (start offset length : Z)
    (m : DefaultMappedFile) : DefaultMappedFile * bool :=
  if start + length <=? file_size m then
    if Z.of_nat (List.length data) =? length then
      (set_memory (splice (mmapped_file m) (Z.to_nat start) data) m, true)
    else
      match data_get data offset length with
      | Some d => (set_memory (splice (mmapped_file m) (Z.to_nat start) d) m, true)
      | None => (m, false)
      end
  else (m, false).

Definition put_slice (data : buffer) (index : Z) (m : DefaultMappedFile)
  : DefaultMappedFile * bool :=
  let length := Z.of_nat (List.length data) in
  let end_index := index + length in
  if (0 <? length) && (end_index <=? file_size m) then
    (set_memory (splice (mmapped_file m) (Z.to_nat index) data) m, true)
  else (m, false).

Definition is_able_to_flush (flush_least_pages : Z) (m : DefaultMappedFile) : bool :=
  if is_full m then true
  else
    let flush := flushed_position m in
    let write := get_read_position m in
    if 0 <? flush_least_pages
    then flush_least_pages <=? rdiv (write - flush) OS_PAGE_SIZE
    else flush <? write.

(** [flush]: [sync_ok] says whether [msync] succeeded, [now] is the clock. *)
Definition mf_flush (sync_ok : bool) (now flush_least_pages : Z) (m : DefaultMappedFile)
  : outcome (DefaultMappedFile * Z) :=
  if is_able_to_flush flush_least_pages m then
    let '(m, held) := mf_hold m in
    if held then
      let value := get_read_position m in
      let m := count_access m in
      if transient_store_pool m then Panic
      else
        let m := if sync_ok then set_last_flush_time now m else m in
        let m := set_flushed_position value (mf_release m) in
        Done (m, flushed_position m)
    else
      let m := set_flushed_position (get_read_position m) m in
      Done (m, flushed_position m)
  else Done (m, flushed_position m).

(** [commit] is [unimplemented!]. *)
Definition mf_commit (commit_least_pages : Z) (m : DefaultMappedFile)
  : outcome (DefaultMappedFile * Z) := Panic.

Record SelectMappedBufferResult := mkSelect {
  start_offset : Z;
  size : Z;
  bytes : option buffer;
  is_in_cache : bool;
}.

(** The result holds a reference to the file that the caller releases.  A
    negative position, cast to [usize], is out of the range of the slice. *)
Definition select_mapped_buffer (pos sz : Z) (m : DefaultMappedFile)
  : outcome (DefaultMappedFile * option SelectMappedBufferResult) :=
  let read_position := get_read_position m in
  if as_i32 (pos + sz) <=? read_position then
    let '(m, held) := mf_hold m in
    if held then
      let m := count_access m in
      let from := as_usize pos in
      let to := as_usize (as_i32 (pos + sz)) in
      if (from <=? to) && (to <=? Z.of_nat (length (mmapped_file m))) then
        Done (m, Some (mkSelect (as_u64 (file_from_offset m + as_u64 pos)) sz
                 (Some (slice (mmapped_file m) (Z.to_nat from) (Z.to_nat to))) true))
      else Panic
    else Done (m, None)
  else Done (m, None).

Definition select_mapped_buffer_with_position (pos : Z) (m : DefaultMappedFile)
  : DefaultMappedFile * option SelectMappedBufferResult :=
  let read_position := get_read_position m in
  if (pos <? read_position) && (0 <=? pos) then
    let '(m, held) := mf_hold m in
    if held then
      let m := count_access m in
      (m, Some (mkSelect (as_u64 (file_from_offset m + pos)) (as_i32 (read_position - pos))
                  (Some (slice (mmapped_file m) (Z.to_nat pos) (Z.to_nat read_position))) true))
    else (m, None)
  else (m, None).

Definition get_data (pos sz : Z) (m : DefaultMappedFile)
  : outcome (DefaultMappedFile * option buffer) :=
  let read_position := get_read_position m in
  let read_end_position := as_usize (pos + sz) in
  if read_end_position <=? as_usize read_position then
    let '(m, held) := mf_hold m in
    if held then
      let* d := mapped_slice pos read_end_position m in
      Done (mf_release m, Some d)
    else Done (m, None)
  else Done (m, None).

(** [get_slice] refuses a window that ends exactly at the end of the file. *)
Definition get_slice (pos sz : Z) (m : DefaultMappedFile) : option buffer :=
  if (file_size m <=? pos) || (file_size m <=? pos + sz) then None
  else Some (slice (mmapped_file m) (Z.to_nat pos) (Z.to_nat (pos + sz))).

(** [destroy]: [remove_ok] says whether deleting the file succeeded. *)
Definition destroy (remove_ok : bool) (now interval : Z) (m : DefaultMappedFile)
  : DefaultMappedFile * bool :=
  let m := mf_shutdown now interval m in
  if is_cleanup_over (reference_resource m) then
    if remove_ok then (set_on_disk false m, true) else (m, false)
  else (m, false).

(** ** Invariant *)

(** The memory has the file's size, the file is addressable with [i32]
    positions, its offsets fit an [i64], and the positions are ordered. *)
Record wf_mf (m : DefaultMappedFile) : Prop := {
  mf_mem : Z.of_nat (length (mmapped_file m)) = file_size m;
  mf_size : 0 < file_size m ≤ i32_MAX;
  mf_from : 0 ≤ file_from_offset m ∧ file_from_offset m + file_size m ≤ i64_MAX;
  mf_pos : 0 ≤ flushed_position m ≤ wrote_position m ∧ wrote_position m ≤ file_size m;
}.

(** The bytes appended so far. *)
Definition log (m : DefaultMappedFile) : buffer :=
  take (Z.to_nat (wrote_position m)) (mmapped_file m).

(** What the owner of a file sees of its bookkeeping: everything but the
    reference counter, the access counter and the flush clock. *)
Definition same_file (m m' : DefaultMappedFile) : Prop :=
  file_from_offset m' = file_from_offset m ∧ file_size m' = file_size m ∧
  mmapped_file m' = mmapped_file m ∧ wrote_position m' = wrote_position m ∧
  flushed_position m' = flushed_position m.

Create HintDb mf.

Lemma wf_casts (m : DefaultMappedFile) :
  wf_mf m → as_usize (wrote_position m) = wrote_position m ∧
            as_u64 (wrote_position m) = wrote_position m.
Proof.
  intros []. unfold i32_MAX in *. split; [apply as_usize_id | apply as_u64_id]; in_range.
Qed.

Lemma same_file_wf (m m' : DefaultMappedFile) : wf_mf m → same_file m m' → wf_mf m'.
Proof. intros [] (H1 & H2 & H3 & H4 & H5). constructor; rewrite ?H1, ?H2, ?H3, ?H4, ?H5; done. Qed.

#[export] Instance same_file_preorder : PreOrder same_file.
Proof.
  split; [done |]. intros x y z (? & ? & ? & ? & ?) (? & ? & ? & ? & ?).
  unfold same_file. split_and!; congruence.
Qed.

Lemma mf_hold_same (m : DefaultMappedFile) : same_file m (mf_hold m).1.
Proof. unfold mf_hold. by destruct (hold _). Qed.
Lemma mf_release_same (m : DefaultMappedFile) : same_file m (mf_release m).
Proof. done. Qed.
#[export] Hint Resolve mf_hold_same mf_release_same : mf.

Lemma data_get_all (data : buffer) :
  data_get data 0 (Z.of_nat (length data)) = Some data.
Proof.
  unfold data_get. rewrite (proj2 (Z.leb_le _ _)) by lia. f_equal. unfold slice.
  rewrite Z.add_0_l, Nat2Z.id, drop_0, Nat.sub_0_r. by rewrite take_ge.
Qed.

Lemma new_mapped_file_wf (name : string) (size off : Z) (existing : buffer) :
  parse_file_from_offset name = Done off → 0 < size ≤ i32_MAX →
  0 ≤ off → off + size ≤ i64_MAX →
  ∃ m, new_mapped_file name size existing = Done m ∧ wf_mf m ∧ file_from_offset m = off ∧
       log m = [].
Proof.
  intros Hn Hs Ho Hb. unfold new_mapped_file. rewrite Hn. cbn [obind].
  eexists. split_and!; [done | | done | done].
  constructor; simpl; [| done | done | lia].
  rewrite length_app, length_take, length_replicate. lia.
Qed.

(** Appending within the file extends the log by exactly the data. *)
Lemma log_splice (mem : buffer) (w : nat) (d : buffer) :
  (w + length d ≤ length mem)%nat →
  take (w + length d) (splice mem w d) = take w mem ++ d.
Proof.
  intros H. unfold splice. rewrite (assoc_L (++)), take_app_length'; [done |].
  rewrite length_app, length_take. lia.
Qed.

Lemma append_message_bytes_fits (data : buffer) (m : DefaultMappedFile) :
  wf_mf m → wrote_position m + Z.of_nat (length data) ≤ file_size m →
  ∃ m', append_message_bytes data m = (m', true) ∧ wf_mf m' ∧ log m' = log m ++ data ∧
        wrote_position m' = wrote_position m + Z.of_nat (length data) ∧
        file_size m' = file_size m ∧ file_from_offset m' = file_from_offset m ∧
        flushed_position m' = flushed_position m.
Proof.
  intros Hwf Hfit. pose proof (wf_casts _ Hwf) as [Hc _]. destruct Hwf.
  unfold append_message_bytes, append_message_offset_length.
  rewrite Hc, data_get_all, (proj2 (Z.leb_le _ _)) by lia.
  unfold i32_MAX in *. eexists. split; [done |].
  rewrite (as_i32_id (Z.of_nat _)), as_i32_id by in_range.
  assert (Hs : (Z.to_nat (wrote_position m) + length data ≤ length (mmapped_file m))%nat) by lia.
  split_and!; try done.
  - constructor; simpl; rewrite ?splice_length by done; unfold i32_MAX; lia.
  - unfold log. simpl. rewrite <- log_splice by done. f_equal. lia.
Qed.

Lemma append_message_bytes_full (data : buffer) (m : DefaultMappedFile) :
  wf_mf m → file_size m < wrote_position m + Z.of_nat (length data) →
  append_message_bytes data m = (m, false).
Proof.
  intros Hwf Hfit. pose proof (wf_casts _ Hwf) as [Hc _].
  unfold append_message_bytes, append_message_offset_length.
  by rewrite Hc, (proj2 (Z.leb_gt _ _)) by lia.
Qed.

(** Writing a window of the memory: everything outside it stays. *)
Lemma write_bytes_segment_spec (data : buffer) (start : Z) (m : DefaultMappedFile) :
  wf_mf m → 0 ≤ start → start + Z.of_nat (length data) ≤ file_size m →
  write_bytes_segment data start 0 (Z.of_nat (length data)) m =
  (set_memory (splice (mmapped_file m) (Z.to_nat start) data) m, true) ∧
  wf_mf (set_memory (splice (mmapped_file m) (Z.to_nat start) data) m).
Proof.
  intros Hwf Hs Hfit. unfold write_bytes_segment.
  rewrite (proj2 (Z.leb_le _ _)), Z.eqb_refl by lia. split; [done |].
  destruct Hwf. constructor; simpl; [| done..].
  rewrite splice_length by lia. done.
Qed.

(** A sequence of appends. *)
Fixpoint append_all (ds : list buffer) (m : DefaultMappedFile) : DefaultMappedFile * list bool :=
  match ds with
  | [] => (m, [])
  | d :: ds' =>
      let '(m', ok) := append_message_bytes d m in
      let '(m'', oks) := append_all ds' m' in (m'', ok :: oks)
  end.

(** The abstract log: a chunk is accepted when it still fits. *)
Fixpoint log_all (cap : Z) (ds : list buffer) (l : buffer) : buffer * list bool :=
  match ds with
  | [] => (l, [])
  | d :: ds' =>
      if Z.of_nat (length l) + Z.of_nat (length d) <=? cap then
        let '(l', oks) := log_all cap ds' (l ++ d) in (l', true :: oks)
      else let '(l', oks) := log_all cap ds' l in (l', false :: oks)
  end.

Lemma log_length (m : DefaultMappedFile) :
  wf_mf m → Z.of_nat (length (log m)) = wrote_position m.
Proof. intros []. unfold log. rewrite length_take. lia. Qed.

(** C33: a segment implements a bounded append-only log: any sequence of
    appends accepts exactly the chunks that still fit, and what can be read
    below the wrote position is the old contents followed by the accepted
    chunks in order; the segment invariant is kept. *)
Theorem mapped_file_refines_log (ds : list buffer) (m : DefaultMappedFile) :
  wf_mf m →
  log (append_all ds m).1 = (log_all (file_size m) ds (log m)).1 ∧
  (append_all ds m).2 = (log_all (file_size m) ds (log m)).2 ∧
  wf_mf (append_all ds m).1.
Proof.
  revert m. induction ds as [| d ds IH]; intros m Hwf; [done |]. cbn [append_all log_all].
  rewrite log_length by done.
  destruct (Z.leb_spec (wrote_position m + Z.of_nat (length d)) (file_size m)) as [Hf | Hf].
  - destruct (append_message_bytes_fits d m Hwf Hf) as (m' & -> & Hwf' & Hl & _ & Hs & _).
    specialize (IH m' Hwf'). rewrite Hl, Hs in IH.
    destruct (append_all ds m'), (log_all _ ds _). simpl in *.
    destruct IH as (-> & -> & ?). done.
  - rewrite append_message_bytes_full by done. specialize (IH m Hwf).
    destruct (append_all ds m), (log_all _ ds _). simpl in *. destruct IH as (-> & -> & ?). done.
Qed.

Definition sample_file : DefaultMappedFile :=
  mkMF new (replicate 16 Byte.x00) false "00000000000000000016" 16 0 0 0 16 0 false 0 0 true.
Lemma sample_file_wf : wf_mf sample_file.
Proof. constructor; simpl; unfold i32_MAX, i64_MAX; lia. Qed.

Lemma mapped_file_refines_log_witness :
  let ds := [replicate 10 Byte.x61; replicate 10 Byte.x62; replicate 6 Byte.x63] in
  log (append_all ds sample_file).1 = (log_all 16 ds []).1 ∧
  (append_all ds sample_file).2 = (log_all 16 ds []).2 ∧
  wf_mf (append_all ds sample_file).1.
Proof.
  apply (mapped_file_refines_log
           [replicate 10 Byte.x61; replicate 10 Byte.x62; replicate 6 Byte.x63] sample_file).
  apply sample_file_wf.
Defined.

(** ** Reading *)

Lemma slice_log (m : DefaultMappedFile) (i j : nat) :
  (j ≤ Z.to_nat (wrote_position m))%nat → slice (mmapped_file m) i j = slice (log m) i j.
Proof.
  intros Hj. apply slice_ext. intros k Hk. unfold log. by rewrite lookup_take_lt by lia.
Qed.

(** C38: the checked reads of a live segment, for any position and size of type
    [usize].  Where the sum does not wrap around they return exactly the
    requested window of the appended bytes when it ends at or below the wrote
    position, and nothing otherwise, and the segment is as before; where it
    does, they panic when the wrapped end is at or below the wrote position, and
    return nothing otherwise. *)
Theorem checked_reads_spec (m : DefaultMappedFile) (h : nat) (pos sz : Z) :
  wf_mf m → live h (reference_resource m) → Z.of_nat h < 2 ^ 61 → in_u 64 pos → in_u 64 sz →
  let wraps := 2 ^ 64 ≤ pos + sz in
  let inside := if decide wraps then pos + sz - 2 ^ 64 ≤ wrote_position m
                else pos + sz ≤ wrote_position m in
  let window := slice (log m) (Z.to_nat pos) (Z.to_nat (pos + sz)) in
  (inside → wraps → get_data pos sz m = Panic ∧ get_bytes_readable_checked pos sz m = Panic) ∧
  (inside → ¬ wraps →
   (∃ m', get_data pos sz m = Done (m', Some window) ∧ same_file m m' ∧ live h (reference_resource m')) ∧
   get_bytes_readable_checked pos sz m = Done (Some window)) ∧
  (¬ inside → get_data pos sz m = Done (m, None) ∧ get_bytes_readable_checked pos sz m = Done None).
Proof.
  intros Hwf Hlive Hh Hp Hs wraps inside window. pose proof (wf_casts _ Hwf) as [Hc _].
  destruct Hwf. unfold i32_MAX in mf_size0. unfold get_data, get_bytes_readable_checked, get_read_position. rewrite Hc.
  pose proof (hold_live h (reference_resource m) ltac:(lia) Hlive) as [Hh1 Hh2].
  assert (Hend : as_usize (pos + sz) = if decide wraps then pos + sz - 2 ^ 64 else pos + sz).
  { unfold wraps, in_u in *. simpl Z.pow in *. destruct (decide _).
    - unfold as_usize, wrap_u. rewrite <- (Z_mod_plus_full _ (-1)). simpl Z.pow. rewrite Z.mod_small; lia.
    - apply as_usize_id. unfold in_u. simpl Z.pow. lia. }
  unfold mf_hold. destruct (hold (reference_resource m)) as [r b]. simpl in Hh1, Hh2. subst b.
  rewrite Hend. unfold inside. clear Hend inside. unfold mapped_slice. cbn [mmapped_file set_reference].
  unfold in_u in *. destruct (decide wraps) as [Hw | Hw]; unfold wraps in Hw; split_and!; intros Hin; try done.
  - intros _. rewrite (proj2 (Z.leb_le _ _)) by lia. rewrite (proj2 (Z.ltb_ge _ _)), (proj2 (Z.ltb_ge _ _)) by lia.
    cbn [orb]. rewrite (proj2 (Z.leb_gt pos _)) by lia. done.
  - rewrite (proj2 (Z.leb_gt _ _)), (proj2 (Z.ltb_lt _ _)) by lia. done.
  - intros _. rewrite (proj2 (Z.leb_le _ _)) by lia. rewrite (proj2 (Z.ltb_ge _ _)), (proj2 (Z.ltb_ge _ _)) by lia.
    cbn [orb]. rewrite (proj2 (Z.leb_le pos _)), (proj2 (Z.leb_le _ (Z.of_nat _))) by lia. cbn [andb obind].
    rewrite !slice_log by lia. split; [| done]. eexists. split_and!; [done | done |].
    by apply release_live; [lia |].
  - rewrite (proj2 (Z.leb_gt _ _)), (proj2 (Z.ltb_lt _ _)) by lia. done.
Qed.

Lemma checked_reads_spec_witness :
  let m := (append_message_bytes (str_bytes "hello") sample_file).1 in
  get_bytes_readable_checked 1 3 m = Done (Some (str_bytes "ell")) ∧
  get_bytes_readable_checked 1 9 m = Done None ∧ get_bytes_readable_checked 9 (2 ^ 64 - 8) m = Panic.
Proof.
  set (m := (append_message_bytes (str_bytes "hello") sample_file).1).
  assert (wf_mf m) as Hwf.
  { destruct (append_message_bytes_fits (str_bytes "hello") sample_file) as (m' & He & Hwf & _);
      [apply sample_file_wf | by vm_compute |]. unfold m. by rewrite He. }
  split; [| split].
  - apply (checked_reads_spec m 0 1 3 Hwf); by vm_compute.
  - apply (checked_reads_spec m 0 1 9 Hwf); [done | done | done | done |]. vm_compute. by intros H.
  - apply (checked_reads_spec m 0 9 (2 ^ 64 - 8) Hwf); by vm_compute.
Defined.

(** [get_slice] never returns a window that reaches the last byte of the
    segment, although that byte can be written and read with [get_bytes]. *)
Theorem get_slice_excludes_end (m : DefaultMappedFile) (pos sz : Z) :
  wf_mf m → 0 ≤ pos → 0 ≤ sz → pos + sz = file_size m →
  get_slice pos sz m = None ∧
  mf_get_bytes pos sz m =
    Some (slice (mmapped_file m) (Z.to_nat pos) (length (mmapped_file m))).
Proof.
  intros [] Hp Hs He. unfold get_slice, mf_get_bytes. rewrite He.
  rewrite Z.leb_refl, orb_true_r, Z.ltb_irrefl. split; [done |].
  by rewrite <- mf_mem0, Nat2Z.id.
Qed.

Lemma get_slice_excludes_end_witness :
  get_slice 12 4 sample_file = None ∧
  mf_get_bytes 12 4 sample_file = Some (replicate 4 Byte.x00).
Proof. apply (get_slice_excludes_end sample_file 12 4); [apply sample_file_wf | lia | lia | done]. Defined.

(** ** Flushing *)

(** Flushing a live segment: everything but the flushed position, the access
    counter and the flush clock stays. *)
Lemma mf_flush_live (m : DefaultMappedFile) (h : nat) (ok : bool) (now pages : Z) :
  wf_mf m → transient_store_pool m = false →
  live h (reference_resource m) → Z.of_nat h < 2 ^ 61 →
  ∃ m', mf_flush ok now pages m = Done (m', flushed_position m') ∧ wf_mf m' ∧
    same_file (set_flushed_position (flushed_position m') m) m' ∧
    transient_store_pool m' = false ∧ live h (reference_resource m') ∧
    flushed_position m' =
      (if is_able_to_flush pages m then wrote_position m else flushed_position m).
Proof.
  intros Hwf Hpool Hlive Hh. unfold mf_flush.
  destruct (is_able_to_flush pages m) eqn:E; [| by exists m].
  pose proof (hold_live h (reference_resource m) ltac:(lia) Hlive) as [Hh1 Hh2].
  unfold mf_hold. destruct (hold (reference_resource m)) as [r b]. simpl in Hh1, Hh2. subst b.
  cbn [transient_store_pool count_access set_reference]. rewrite Hpool.
  assert (live h (release r)) by (by apply release_live; [lia |]).
  destruct Hwf. destruct ok; eexists; (split; [reflexivity |]);
    (split; [constructor; cbn; lia |]); split_and!; done.
Qed.

(** flushing a live segment returns, never moves the flushed position
    back, and moves it to the wrote position exactly when the segment is full or
    enough pages are dirty; it changes nothing else of the segment and drops
    the reference it took. *)
Theorem flush_spec (m : DefaultMappedFile) (h : nat) (ok : bool) (now pages : Z) :
  wf_mf m → transient_store_pool m = false →
  live h (reference_resource m) → Z.of_nat h < 2 ^ 61 →
  ∃ m', mf_flush ok now pages m = Done (m', flushed_position m') ∧ wf_mf m' ∧
    log m' = log m ∧ live h (reference_resource m') ∧
    flushed_position m ≤ flushed_position m' ≤ wrote_position m' ∧
    flushed_position m' =
      (if is_able_to_flush pages m then wrote_position m else flushed_position m).
Proof.
  intros Hwf Hpool Hlive Hh.
  destruct (mf_flush_live m h ok now pages Hwf Hpool Hlive Hh)
    as (m' & He & Hwf' & (_ & _ & Hmem & Hw & _) & _ & Hl & Hf).
  exists m'. cbn in Hmem, Hw. unfold log. rewrite Hmem, Hw. destruct Hwf, Hwf'.
  split_and!; try done; destruct (is_able_to_flush pages m); lia.
Qed.

Lemma flush_spec_witness :
  let m := (append_message_bytes (str_bytes "hello") sample_file).1 in
  ∃ m', mf_flush true 7 0 m = Done (m', flushed_position m') ∧ wf_mf m' ∧
    log m' = log m ∧ live 0 (reference_resource m') ∧
    flushed_position m ≤ flushed_position m' ≤ wrote_position m' ∧
    flushed_position m' =
      (if is_able_to_flush 0 m then wrote_position m else flushed_position m).
Proof.
  set (m := (append_message_bytes (str_bytes "hello") sample_file).1).
  apply (flush_spec m 0 true 7 0); [| done | done | lia].
  destruct (append_message_bytes_fits (str_bytes "hello") sample_file) as (m' & He & Hwf & _);
    [apply sample_file_wf | by vm_compute |]. unfold m. by rewrite He.
Defined.

(** destroying a live segment removes its file at once when nobody holds
    it, and leaves it in place while a reader still does. *)
Theorem destroy_spec (m : DefaultMappedFile) (h : nat) (ok : bool) (now interval : Z) :
  live h (reference_resource m) → Z.of_nat h < 2 ^ 61 →
  let '(m', removed) := destroy ok now interval m in
  removed = bool_decide (h = O) && ok ∧
  on_disk m' = (if removed then false else on_disk m) ∧ same_file m m'.
Proof.
  intros Hlive Hh. unfold destroy, mf_shutdown.
  destruct (shutdown_live now interval h (reference_resource m) ltac:(lia) Hlive)
    as (Ha & Hc & Ho).
  unfold is_cleanup_over, get_ref_count. simpl. rewrite Hc, Ho.
  destruct h as [| h]; simpl.
  - by destruct ok.
  - done.
Qed.

Lemma destroy_spec_witness :
  let '(m', removed) := destroy true 5 1000 sample_file in
  removed = true ∧ on_disk m' = false ∧ same_file sample_file m'.
Proof. apply (destroy_spec sample_file 0 true 5 1000); [done | lia]. Defined.
