(* ===== verification/MessageExtEncoder.v ===== *)
(** * MessageExtEncoder: turning a broker message into a commit-log record
    ([message_ext_encoder.rs])

    [encode] checks the size limits and writes the record with its physical
    offset left blank for the append callback to fill in. *)

From stdpp Require Import base gmap list strings.
From coqutil Require Import Byte.
From Stdlib Require Import ZArith Lia.
From S2P Require Import Prelude Bytes Utf8 Message Properties MessageId MessageDecoder.
Open Scope Z_scope.
Open Scope rmq_scope.

(** The fields of [MessageStoreConfig] the encoder reads. *)
Record EncoderConfig := mkEncCfg {
  cfg_max_message_size : Z;
  cfg_enabled_append_prop_crc : bool;
  cfg_enable_multi_dispatch : bool;
}.

(** The answers to a put; the encoder gives two of them. *)
Inductive PutMessageStatus :=
| StatusPutOk | FlushDiskTimeout | FlushSlaveTimeout | SlaveNotAvailable | ServiceNotAvailable
| CreateMappedFileFailed | MessageIllegal | PropertiesSizeExceeded | OsPageCacheBusy
| StatusUnknownError | InSyncReplicasNotEnough | PutToRemoteBrokerFail
| LmqConsumeQueueNumExceeded | WheelTimerFlowControl | WheelTimerMsgIllegal
| WheelTimerNotEnable.

(** [PROPERTY_CRC32.len() + 1 + 10 + 1] with [PROPERTY_CRC32 = "__CRC32#"]. *)
Definition CRC32_RESERVED_LEN : Z := 8 + 1 + 10 + 1.

Definition max_message_body_size (c : EncoderConfig) : Z := cfg_max_message_size c.
Definition max_message_size (c : EncoderConfig) : Z :=
  if 64 * 1024 <=? as_i32 (i32_MAX - max_message_body_size c)
  then as_i32 (max_message_body_size c + 64 * 1024) else i32_MAX.
Definition crc32_reserved_length (c : EncoderConfig) : Z :=
  if cfg_enabled_append_prop_crc c then CRC32_RESERVED_LEN else 0.

Definition host_length (sysf f : Z) : Z := if Z.land sysf f =? 0 then 8 else 20.

Definition cal_msg_length_no_properties (v : MessageVersion) (sysf body_length topic_length : Z)
  : Z :=
  as_i32 (4 + 4 + 4 + 4 + 4 + 8 + 8 + 4 + 8 + host_length sysf MessageSysFlag.BORNHOST_V6_FLAG
          + 8 + host_length sysf MessageSysFlag.STOREHOSTADDRESS_V6_FLAG + 4 + 8
          + 4 + Z.max body_length 0 + get_topic_length_size v + topic_length).

Definition cal_msg_length (v : MessageVersion) (sysf body_length topic_length
    properties_length : Z) : Z :=
  as_i32 (4 + 4 + 4 + 4 + 4 + 8 + 8 + 4 + 8 + host_length sysf MessageSysFlag.BORNHOST_V6_FLAG
          + 8 + host_length sysf MessageSysFlag.STOREHOSTADDRESS_V6_FLAG + 4 + 8
          + 4 + Z.max body_length 0 + get_topic_length_size v + topic_length
          + 2 + Z.max properties_length 0).

(** Topic length prefix: [put_u16] or [put_u8]. *)
Definition put_topic (v : MessageVersion) (t : buffer) : buffer :=
  match v with
  | V2 => be_bytes 2 (as_u16 (Z.of_nat (length t))) ++ t
  | V1 => put_u8 (as_u8 (Z.of_nat (length t))) ++ t
  end.

(** [CommitLog::is_multi_dispatch_msg] *)
Definition RETRY_GROUP_TOPIC_PREFIX : string := "%RETRY%".
Definition is_multi_dispatch_msg (m : MessageExtBrokerInner) : bool :=
  let msg := message (message_ext_inner m) in
  match properties msg !! "INNER_MULTI_DISPATCH" with
  | Some s => negb (String.eqb s "") && String.prefix RETRY_GROUP_TOPIC_PREFIX (topic msg)
  | None => false
  end.

(** The fixed fields, 1 to 14. *)
Definition encode_header (total queue_off : Z) (m : MessageExtBrokerInner) : buffer :=
  let e := message_ext_inner m in
  put_i32 total ++ put_i32 (get_magic_code (version m)) ++ put_u32 (body_crc e) ++
  put_i32 (queue_id e) ++ put_i32 (flag (message e)) ++ put_i64 queue_off ++ put_i64 0 ++
  put_i32 (sys_flag e) ++ put_i64 (born_timestamp e) ++
  socket_address_2_byte_buffer (born_host e) ++ put_i64 (store_timestamp e) ++
  socket_address_2_byte_buffer (store_host e) ++ put_i32 (reconsume_times e) ++
  put_i64 (prepared_transaction_offset e).

Definition body_of (m : MessageExtBrokerInner) : buffer :=
  default [] (body (message (message_ext_inner m))).

(** [encode_without_properties] *)
Definition encode_without_properties (c : EncoderConfig) (m : MessageExtBrokerInner)
  : buffer * option PutMessageStatus :=
  let topic_data := str_bytes (topic (message (message_ext_inner m))) in
  let body_length := Z.of_nat (length (body_of m)) in
  if as_usize (max_message_body_size c) <? body_length then ([], Some MessageIllegal)
  else
    let len := cal_msg_length_no_properties (version m) (sys_flag (message_ext_inner m))
                 (as_i32 body_length) (as_i32 (Z.of_nat (length topic_data))) in
    (encode_header len 0 m ++ put_i32 (as_i32 body_length) ++ body_of m ++
     put_topic (version m) topic_data, None).

(** Whether a separator is missing before the reserved CRC property. *)
Definition need_append_last_property_separator (c : EncoderConfig) (props : buffer) : bool :=
  (0 <? crc32_reserved_length c) &&
  match last props with
  | Some b => negb (bool_decide (b = PROPERTY_SEPARATOR))
  | None => false
  end.

(** [encode]: the encoder's buffer after the call and the error it reports.
    The final [advance] consumes bytes at the front of the buffer. *)
Definition encode (c : EncoderConfig) (m : MessageExtBrokerInner)
  : outcome (buffer * option PutMessageStatus) :=
  if cfg_enable_multi_dispatch c && is_multi_dispatch_msg m
  then Done (encode_without_properties c m)
  else
    let e := message_ext_inner m in
    let properties_data := str_bytes (properties_string m) in
    let sep := need_append_last_property_separator c properties_data in
    let properties_length :=
      Z.of_nat (length properties_data) + (if sep then 1 else 0) + crc32_reserved_length c in
    if 32767 <? properties_length then Done ([], Some PropertiesSizeExceeded)
    else
      let topic_data := str_bytes (topic (message e)) in
      let body_length := Z.of_nat (length (body_of m)) in
      let msg_len := cal_msg_length (version m) (sys_flag e) (as_i32 body_length)
                       (as_i32 (Z.of_nat (length topic_data))) (as_i32 properties_length) in
      if as_usize (max_message_body_size c) <? body_length then Done ([], Some MessageIllegal)
      else if max_message_size c <? msg_len then Done ([], Some MessageIllegal)
      else
        let byte_buf :=
          encode_header msg_len (queue_offset e) m ++
          put_i32 (as_i32 body_length) ++ body_of m ++
          put_topic (version m) topic_data ++
          be_bytes 2 (as_u16 properties_length) ++
          (if crc32_reserved_length c <? properties_length then properties_data else []) ++
          (if sep then [PROPERTY_SEPARATOR] else []) in
        let* (_, byte_buf) := get_bytes (crc32_reserved_length c) byte_buf in
        Done (byte_buf, None).

(** ** Lemmas *)

(** The message as the encoder stores it: its size is the record's, its
    physical offset is still blank. *)
Definition blank_record (m : MessageExtBrokerInner) (total : Z) : MessageExt :=
  let e := message_ext_inner m in
  mkMessageExt (message e) (broker_name e) (queue_id e) total (queue_offset e) (sys_flag e)
    (born_timestamp e) (born_host e) (store_timestamp e) (store_host e) (msg_id e) 0
    (body_crc e) (reconsume_times e) (prepared_transaction_offset e).

(** A message within the configured limits that the record format represents. *)
Record encodable (c : EncoderConfig) (m : MessageExtBrokerInner) : Prop := {
  enc_single : cfg_enable_multi_dispatch c && is_multi_dispatch_msg m = false;
  enc_cfg : 0 ≤ cfg_max_message_size c ≤ i32_MAX;
  enc_body : Z.of_nat (length (body_of m)) ≤ cfg_max_message_size c;
  enc_props : Z.of_nat (length (str_bytes (properties_string m))) ≤ 32767;
  enc_topic :
    Z.of_nat (length (str_bytes (topic (message (message_ext_inner m))))) <
    match version m with V1 => 256 | V2 => 32768 end;
  enc_born : wf_addr (born_host (message_ext_inner m));
  enc_store : wf_addr (store_host (message_ext_inner m));
  enc_born_flag :
    MessageSysFlag.check (sys_flag (message_ext_inner m)) MessageSysFlag.BORNHOST_V6_FLAG =
    is_v6 (born_host (message_ext_inner m));
  enc_store_flag :
    MessageSysFlag.check (sys_flag (message_ext_inner m))
      MessageSysFlag.STOREHOSTADDRESS_V6_FLAG =
    is_v6 (store_host (message_ext_inner m));
}.

Definition record_of (m : MessageExtBrokerInner) (total : Z) : buffer :=
  record_bytes (version m) (blank_record m total) (body_of m)
    (str_bytes (properties_string m)).

Lemma host_length_bytes (a : SocketAddr) (sysf f : Z) :
  wf_addr a → MessageSysFlag.check sysf f = is_v6 a →
  Z.of_nat (length (socket_address_2_byte_buffer a)) = host_length sysf f.
Proof.
  intros Ha Hf. rewrite socket_address_length by done. rewrite <- Hf.
  unfold MessageSysFlag.check, host_length. by destruct (Z.land _ _ =? 0).
Qed.

Lemma host_length_bound (sysf f : Z) : 8 ≤ host_length sysf f ≤ 20.
Proof. unfold host_length. destruct (_ =? 0); lia. Qed.

Lemma topic_field_length (v : MessageVersion) (t : buffer) :
  Z.of_nat (length (topic_field v t)) = get_topic_length_size v + Z.of_nat (length t).
Proof. destruct v; simpl; autorewrite with rmq_len; simpl; lia. Qed.

(** The exact length of the record of a message. *)
Definition record_len (m : MessageExtBrokerInner) : Z :=
  let e := message_ext_inner m in
  74 + host_length (sys_flag e) MessageSysFlag.BORNHOST_V6_FLAG
  + host_length (sys_flag e) MessageSysFlag.STOREHOSTADDRESS_V6_FLAG
  + Z.of_nat (length (body_of m)) + get_topic_length_size (version m)
  + Z.of_nat (length (str_bytes (topic (message e))))
  + Z.of_nat (length (str_bytes (properties_string m))).

Lemma record_of_length (c : EncoderConfig) (m : MessageExtBrokerInner) (total : Z) :
  encodable c m → Z.of_nat (length (record_of m total)) = record_len m.
Proof.
  intros []. unfold record_of, record_bytes, header_bytes, record_len.
  cbn [blank_record born_host store_host message topic].
  pose proof (topic_field_length (version m) (str_bytes (topic (message (message_ext_inner m))))).
  pose proof (host_length_bytes _ _ _ enc_born0 enc_born_flag0).
  pose proof (host_length_bytes _ _ _ enc_store0 enc_store_flag0).
  autorewrite with rmq_len. lia.
Qed.

Lemma cal_msg_length_record (c : EncoderConfig) (m : MessageExtBrokerInner) :
  encodable c m → record_len m ≤ i32_MAX →
  cal_msg_length (version m) (sys_flag (message_ext_inner m))
    (as_i32 (Z.of_nat (length (body_of m))))
    (as_i32 (Z.of_nat (length (str_bytes (topic (message (message_ext_inner m)))))))
    (as_i32 (Z.of_nat (length (str_bytes (properties_string m))))) = record_len m.
Proof.
  intros [] Hmax. unfold cal_msg_length, record_len, i32_MAX in *.
  pose proof (host_length_bound (sys_flag (message_ext_inner m))
                MessageSysFlag.BORNHOST_V6_FLAG).
  pose proof (host_length_bound (sys_flag (message_ext_inner m))
                MessageSysFlag.STOREHOSTADDRESS_V6_FLAG).
  assert (1 ≤ get_topic_length_size (version m) ≤ 2) by (destruct (version m); simpl; lia).
  rewrite !(as_i32_id (Z.of_nat _)) by in_range. rewrite !Z.max_l by lia.
  rewrite as_i32_id by in_range. lia.
Qed.

Lemma put_topic_field (v : MessageVersion) (t : buffer) :
  Z.of_nat (length t) < match v with V1 => 256 | V2 => 32768 end →
  put_topic v t = topic_field v t.
Proof.
  intros H. destruct v; simpl.
  - unfold as_u8. by rewrite wrap_u_id by in_range.
  - rewrite as_u16_id by in_range. done.
Qed.

Lemma encode_no_crc (c : EncoderConfig) (m : MessageExtBrokerInner) :
  encodable c m → cfg_enabled_append_prop_crc c = false →
  record_len m ≤ max_message_size c → max_message_size c ≤ i32_MAX →
  encode c m = Done (record_of m (record_len m), None).
Proof.
  intros He Hcrc Hmax Hmi. assert (He' := He). destruct He'.
  unfold encode. rewrite enc_single0. cbv zeta.
  assert (Hr : crc32_reserved_length c = 0) by (unfold crc32_reserved_length; by rewrite Hcrc).
  assert (Hs : need_append_last_property_separator c (str_bytes (properties_string m)) = false)
    by (unfold need_append_last_property_separator; by rewrite Hr).
  rewrite Hs, Hr, !Z.add_0_r. rewrite (proj2 (Z.ltb_ge _ _)) by lia.
  rewrite (cal_msg_length_record c) by (done || lia).
  unfold max_message_body_size. unfold i32_MAX in *.
  rewrite (as_usize_id (cfg_max_message_size c)) by in_range.
  rewrite (proj2 (Z.ltb_ge _ _)) by lia. rewrite (proj2 (Z.ltb_ge _ _)) by lia.
  rewrite get_bytes_0. cbn [obind]. f_equal. f_equal.
  rewrite (as_i32_id (Z.of_nat _)), as_u16_id by in_range. rewrite put_topic_field by done.
  unfold record_of, record_bytes, encode_header, header_bytes. rewrite <- !(assoc_L (++)).
  cbn [blank_record store_size message queue_id queue_offset commit_log_offset sys_flag
       born_timestamp born_host store_timestamp store_host reconsume_times
       prepared_transaction_offset body_crc].
  rewrite !app_nil_r. repeat f_equal.
  destruct (Z.ltb_spec 0 (Z.of_nat (length (str_bytes (properties_string m))))) as [|Hz]; [done |].
  destruct (str_bytes (properties_string m)); [done | simpl in Hz; lia].
Qed.

(** ** Theorems *)

Lemma max_message_size_le (c : EncoderConfig) : max_message_size c ≤ i32_MAX.
Proof.
  unfold max_message_size. destruct (_ <=? _); [| lia].
  pose proof (wrap_s_range 32 (max_message_body_size c + 64 * 1024) ltac:(lia)).
  unfold as_i32, i32_MAX. in_range.
Qed.

(** the encoder either stores nothing and reports an error, or writes the
    stored record of the message whose announced total size is its exact
    length (with the CRC property switched off): which of the two is decided by
    the configured limits. *)
Theorem encode_spec (c : EncoderConfig) (m : MessageExtBrokerInner) :
  encodable c m → cfg_enabled_append_prop_crc c = false → record_len m ≤ i32_MAX →
  if decide (record_len m ≤ max_message_size c) then
    encode c m = Done (record_of m (record_len m), None) ∧
    Z.of_nat (length (record_of m (record_len m))) = record_len m
  else encode c m = Done ([], Some MessageIllegal).
Proof.
  intros He Hcrc Hlen. pose proof (max_message_size_le c). destruct (decide _) as [Hmax | Hmax].
  - split; [by apply encode_no_crc | by apply (record_of_length c)].
  - assert (He' := He). destruct He'. unfold encode. rewrite enc_single0. cbv zeta.
    assert (Hr : crc32_reserved_length c = 0) by (unfold crc32_reserved_length; by rewrite Hcrc).
    assert (Hs : need_append_last_property_separator c (str_bytes (properties_string m)) = false)
      by (unfold need_append_last_property_separator; by rewrite Hr).
    rewrite Hs, Hr, !Z.add_0_r. rewrite (proj2 (Z.ltb_ge _ _)) by lia.
    rewrite (cal_msg_length_record c) by (done || lia).
    unfold max_message_body_size. unfold i32_MAX in *.
    rewrite (as_usize_id (cfg_max_message_size c)) by in_range.
    rewrite (proj2 (Z.ltb_ge _ _)) by lia. by rewrite (proj2 (Z.ltb_lt _ _)) by lia.
Qed.

Definition sample_config : EncoderConfig := mkEncCfg 4194304 false false.
Definition sample_inner : MessageExtBrokerInner :=
  mkBrokerInner
    (mkMessageExt
       (mkMessage "TopicTest" 0 {["TAGS" := "TagA"]} (Some (str_bytes "hello")) None None)
       "" 3 0 7 0 1700000000000 default_host 1700000000001 default_host "" 0 0 0 0)
    (message_properties_to_string [("TAGS", "TagA")]) 0 None false V1.

Lemma sample_encodable (crc : bool) : encodable (mkEncCfg 4194304 crc false) sample_inner.
Proof. constructor; vm_compute; done. Qed.

Lemma encode_spec_witness :
  encode sample_config sample_inner =
    Done (record_of sample_inner (record_len sample_inner), None) ∧
  Z.of_nat (length (record_of sample_inner (record_len sample_inner))) =
    record_len sample_inner.
Proof.
  apply (encode_spec sample_config sample_inner); [apply sample_encodable | done |].
  by vm_compute.
Defined.

(** a message whose properties do not fit a signed short is refused before
    anything is written. *)
Theorem encode_rejects_long_properties (c : EncoderConfig) (m : MessageExtBrokerInner) :
  cfg_enable_multi_dispatch c && is_multi_dispatch_msg m = false →
  32767 < Z.of_nat (length (str_bytes (properties_string m))) →
  encode c m = Done ([], Some PropertiesSizeExceeded).
Proof.
  intros Hs Hl. unfold encode. rewrite Hs. cbv zeta.
  rewrite (proj2 (Z.ltb_lt _ _)); [done |].
  unfold crc32_reserved_length, CRC32_RESERVED_LEN.
  destruct (need_append_last_property_separator _ _), (cfg_enabled_append_prop_crc c); lia.
Qed.

Lemma encode_rejects_long_properties_witness :
  let m := mkBrokerInner (message_ext_inner sample_inner)
             (bytes_str (replicate (N.to_nat 40000) Byte.x61)) 0 None false V1 in
  encode sample_config m = Done ([], Some PropertiesSizeExceeded).
Proof.
  apply (encode_rejects_long_properties sample_config); [done |]. cbn [properties_string].
  rewrite str_bytes_str, length_replicate. by vm_compute.
Defined.

(** with the CRC property switched on, the encoder consumes the 20
    reserved bytes at the front of its buffer instead of appending them: the
    buffer it hands over lacks the first 20 bytes of the record (total size,
    magic code, body CRC, queue id and flag). *)
Theorem encode_crc_drops_front (c : EncoderConfig) (m : MessageExtBrokerInner) (b : buffer) :
  cfg_enable_multi_dispatch c && is_multi_dispatch_msg m = false →
  cfg_enabled_append_prop_crc c = true →
  encode c m = Done (b, None) →
  ∃ total rest dropped,
    encode_header total (queue_offset (message_ext_inner m)) m ++ rest = dropped ++ b ∧
    length dropped = 20%nat.
Proof.
  intros Hs Hcrc He. unfold encode in He. rewrite Hs in He. cbv zeta in He.
  assert (Hr : crc32_reserved_length c = 20) by (unfold crc32_reserved_length; by rewrite Hcrc).
  rewrite Hr in He. destruct (32767 <? _); [done |]. destruct (_ <? _); [done |].
  destruct (_ <? _); [done |]. apply obind_done in He as ([d b'] & Hg & He).
  apply done_inj in He. injection He as ->. apply get_bytes_split in Hg as [Hg Hd]; [| lia].
  eexists _, _, d. split; [exact Hg | lia].
Qed.

Lemma encode_crc_drops_front_witness :
  ∃ b, encode (mkEncCfg 4194304 true false) sample_inner = Done (b, None) ∧
  ∃ total rest dropped,
    encode_header total 7 sample_inner ++ rest = dropped ++ b ∧ length dropped = 20%nat.
Proof.
  eexists. split; [vm_compute; reflexivity |].
  eapply (encode_crc_drops_front (mkEncCfg 4194304 true false) sample_inner);
    [done | done | vm_compute; reflexivity].
Defined.
