(* ===== verification/AppendCallback.v ===== *)
(** * AppendCallback: writing an encoded message into a segment
    ([append_message_callback.rs], [append_message] of
    [default_mapped_file_impl.rs])

    The callback patches the queue offset, the physical offset and the store
    timestamp into the encoded record and writes it at the segment's wrote
    position, or, when the record does not fit, closes the segment with a blank
    record.  It works on any [MappedFile]: the class below states what it uses
    of one. *)

From stdpp Require Import base gmap list strings.
From coqutil Require Import Byte.
From Stdlib Require Import ZArith Lia.
From S2P Require Import Prelude Bytes Utf8 Message Properties MessageId MessageDecoder MessageCodec.
From S2P Require Import FileName ReferenceResource MappedFile MessageExtEncoder.
Open Scope Z_scope.
Open Scope rmq_scope.

(** ** The interface of a mapped file *)

Class MappedFileOps (MF : Type) := {
  mf_wrote : MF → Z;
  mf_cap : MF → Z;
  mf_memory : MF → buffer;
  (** [write_bytes_segment(data, start, 0, data.len())] *)
  mf_write : buffer → Z → MF → MF * bool;
  (** [append_message_bytes_no_position_update(_ref)] *)
  mf_append : buffer → MF → MF * bool;
}.

(** What an implementation promises: a write inside the file replaces exactly
    its window and keeps the wrote position; a write past the end changes
    nothing. *)
Class MappedFileLaws (MF : Type) `{!MappedFileOps MF} (ok : MF → Prop) := {
  law_append (d : buffer) (m : MF) :
    ok m → mf_wrote m + Z.of_nat (length d) ≤ mf_cap m →
    ∃ m', mf_append d m = (m', true) ∧ ok m' ∧ mf_wrote m' = mf_wrote m ∧
          mf_cap m' = mf_cap m ∧
          mf_memory m' = splice (mf_memory m) (Z.to_nat (mf_wrote m)) d;
  law_write (d : buffer) (start : Z) (m : MF) :
    ok m → 0 ≤ start → start + Z.of_nat (length d) ≤ mf_cap m →
    ∃ m', mf_write d start m = (m', true) ∧ ok m' ∧ mf_wrote m' = mf_wrote m ∧
          mf_cap m' = mf_cap m ∧ mf_memory m' = splice (mf_memory m) (Z.to_nat start) d;
  law_write_out (d : buffer) (start : Z) (m : MF) :
    ok m → mf_cap m < start + Z.of_nat (length d) → mf_write d start m = (m, false);
}.

#[export] Instance DefaultMappedFile_ops : MappedFileOps DefaultMappedFile := {
  mf_wrote := wrote_position;
  mf_cap := file_size;
  mf_memory := mmapped_file;
  mf_write d start := write_bytes_segment d start 0 (Z.of_nat (length d));
  mf_append := append_message_bytes_no_position_update;
}.

(** The part of a segment the callback leaves alone. *)
Definition frame (m m' : DefaultMappedFile) : Prop :=
  wf_mf m' ∧ file_from_offset m' = file_from_offset m ∧
  flushed_position m' = flushed_position m ∧ reference_resource m' = reference_resource m ∧
  transient_store_pool m' = transient_store_pool m.

#[export] Instance DefaultMappedFile_laws (m0 : DefaultMappedFile) :
  MappedFileLaws DefaultMappedFile (frame m0).
Proof.
  split.
  - intros d m (Hwf & Hf & Hfl & Hr & Ht) Hfit. cbn in *.
    pose proof (wf_casts _ Hwf) as [Hc _].
    unfold append_message_bytes_no_position_update, append_message_no_position_update.
    rewrite Hc, (proj2 (Z.leb_le _ _)), data_get_all by lia.
    eexists. split; [done |]. split_and!; try done. split_and!; [| done ..].
    destruct Hwf. constructor; simpl; [| done ..]. rewrite splice_length by lia. done.
  - intros d start m (Hwf & Hf & Hfl & Hr & Ht) Hs Hfit. cbn in *.
    destruct (write_bytes_segment_spec d start m Hwf Hs Hfit) as [-> Hwf'].
    eexists. split; [done |]. split_and!; done.
  - intros d start m _ Hout. cbn in *. unfold write_bytes_segment.
    by rewrite (proj2 (Z.leb_gt _ _)) by lia.
Qed.

(** ** The callback *)

Inductive AppendMessageStatus :=
| PutOk | EndOfFile | MessageSizeExceeded | AppendPropertiesSizeExceeded | UnknownError.

(** The message id is kept as the text its supplier computes. *)
Record AppendMessageResult := mkAppendResult {
  status : AppendMessageStatus;
  wrote_offset : Z;
  wrote_bytes : Z;
  result_msg_id : option string;
  result_store_timestamp : Z;
  logics_offset : Z;
  page_cache_rt : Z;
  msg_num : Z;
}.

Definition default_append_result : AppendMessageResult :=
  mkAppendResult UnknownError 0 0 None 0 0 0 1.

Definition END_FILE_MIN_BLANK_LENGTH : Z := 4 + 4.

Inductive CQType := SimpleCQ | BatchCQ | RocksDBCQ.

(** [str::parse::<i16>] *)
Definition parse_i16 : string → option Z := parse_signed (-32768) 32767.

(** [get_message_num]; [cq] is the queue type of the message's topic. *)
Definition get_message_num (cq : CQType) (m : MessageExtBrokerInner) : Z :=
  if MessageSysFlag.check (sys_flag (message_ext_inner m)) MessageSysFlag.INNER_BATCH_FLAG
     || match cq with BatchCQ => true | _ => false end
  then
    match properties (message (message_ext_inner m)) !! "INNER_NUM" with
    | Some num => default 1 (parse_i16 num)
    | None => 1
    end
  else 1.

(** [buffer[pos..pos + n].copy_from_slice(data)] *)
Definition patch (b : buffer) (pos : Z) (data : buffer) : outcome buffer :=
  if pos + Z.of_nat (length data) <=? Z.of_nat (length b)
  then Done (splice b (Z.to_nat pos) data) else Panic.

(** [create_crc32]: the CRC property, ten decimal digits least significant
    first. *)
Fixpoint crc_digits (n : nat) (crc : Z) : buffer :=
  match n with
  | O => []
  | S n' =>
      if 0 <? crc then byte.of_Z (48 + crc mod 10) :: crc_digits n' (crc / 10)
      else Byte.x30 :: crc_digits n' crc
  end.
Definition create_crc32 (crc : Z) : buffer :=
  str_bytes "__CRC32#" ++ [NAME_VALUE_SEPARATOR] ++ crc_digits 10 crc ++ [PROPERTY_SEPARATOR].

Definition take_encoded (m : MessageExtBrokerInner) : MessageExtBrokerInner :=
  mkBrokerInner (message_ext_inner m) (properties_string m) (tags_code m) None
    (encode_completed m) (version m).

(** The queue offset a message is stored with: prepared and rolled-back
    transaction messages do not enter a consume queue. *)
Definition stored_queue_offset (m : MessageExtBrokerInner) : Z :=
  let t := MessageSysFlag.get_transaction_value (sys_flag (message_ext_inner m)) in
  if (t =? MessageSysFlag.TRANSACTION_PREPARED_TYPE)
     || (t =? MessageSysFlag.TRANSACTION_ROLLBACK_TYPE)
  then 0 else queue_offset (message_ext_inner m).

(** The blank record that closes a segment. *)
Definition blank_bytes (max_blank : Z) : buffer := put_i32 max_blank ++ put_i32 BLANK_MAGIC_CODE.

Section Callback.
Context {MF : Type} `{!MappedFileOps MF}.
Variable crc32fast : buffer → Z.
Variable cfg : EncoderConfig.

(** The three fields patched into an encoded record, and the CRC property when
    it is switched on. *)
Definition patch_record (m : MessageExtBrokerInner) (pre : buffer)
    (msg_len queue_off wrote_off : Z) : outcome buffer :=
  let pos := 4 + 4 + 4 + 4 + 4 in
  let* pre := patch pre pos (put_i64 queue_off) in
  let pos := pos + 8 in
  let* pre := patch pre pos (put_i64 wrote_off) in
  let ip_len := host_length (sys_flag (message_ext_inner m)) MessageSysFlag.BORNHOST_V6_FLAG in
  let pos := pos + (8 + 4 + 8 + ip_len) in
  let* pre := patch pre pos (put_i64 (store_timestamp (message_ext_inner m))) in
  if cfg_enabled_append_prop_crc cfg then
    let check_size := as_i32 (msg_len - crc32_reserved_length cfg) in
    let* (checked, _) := get_bytes (as_usize check_size) pre in
    let crc := create_crc32 (crc32 crc32fast checked) in
    if (as_usize check_size + Z.of_nat (length crc) <=? as_usize msg_len) &&
       (as_usize msg_len <=? Z.of_nat (length pre))
    then Done (splice pre (Z.to_nat (as_usize check_size)) crc) else Panic
  else Done pre.

(** [do_append]; [elapsed] is the time the write took. *)
Definition do_append (cq : CQType) (elapsed file_from_offset : Z) (mf : MF) (max_blank : Z)
    (msg_inner : MessageExtBrokerInner)
  : outcome (MF * MessageExtBrokerInner * AppendMessageResult) :=
  let* pre_encode_buffer := unwrap (encoded_buff msg_inner) in
  let msg_inner := take_encoded msg_inner in
  if cfg_enable_multi_dispatch cfg && is_multi_dispatch_msg msg_inner then Panic else
  let* (msg_len, _) := get_i32 pre_encode_buffer in
  let wrote_off := as_i64 (file_from_offset + mf_wrote mf) in
  let msg_id := build_message_id (store_host (message_ext_inner msg_inner)) wrote_off in
  let message_num := get_message_num cq msg_inner in
  let queue_off := stored_queue_offset msg_inner in
  let ts := store_timestamp (message_ext_inner msg_inner) in
  if max_blank <? as_i32 (msg_len + END_FILE_MIN_BLANK_LENGTH) then
    let '(mf, _) := mf_write (blank_bytes max_blank) (as_usize wrote_off) mf in
    Done (mf, msg_inner,
      mkAppendResult EndOfFile wrote_off max_blank (Some msg_id) ts queue_off elapsed message_num)
  else
    let* pre := patch_record msg_inner pre_encode_buffer msg_len queue_off wrote_off in
    let '(mf, _) := mf_append pre mf in
    Done (mf, msg_inner,
      mkAppendResult PutOk wrote_off msg_len (Some msg_id) ts queue_off elapsed message_num).
End Callback.

(** [DefaultMappedFile::append_message] with the default callback. *)
Definition append_message (crc32fast : buffer → Z) (cfg : EncoderConfig) (cq : CQType)
    (elapsed : Z) (msg : MessageExtBrokerInner) (m : DefaultMappedFile)
  : outcome (DefaultMappedFile * MessageExtBrokerInner * AppendMessageResult) :=
  let current_pos := as_u64 (wrote_position m) in
  if file_size m <=? current_pos then Done (m, msg, default_append_result)
  else
    let* (r, result) :=
      do_append crc32fast cfg cq elapsed (as_i64 (file_from_offset m)) m
        (as_i32 (file_size m - current_pos)) msg in
    let '(m, msg) := r in
    let m := set_wrote_position (as_i32 (wrote_position m + wrote_bytes result)) m in
    let m := set_store_timestamp (as_u64 (result_store_timestamp result)) m in
    Done (m, msg, result).

(** ** Lemmas *)

Lemma patch_app (pre old post data : buffer) (pos : Z) :
  pos = Z.of_nat (length pre) → length old = length data →
  patch (pre ++ old ++ post) pos data = Done (pre ++ data ++ post).
Proof.
  intros -> Hl. unfold patch. rewrite (proj2 (Z.leb_le _ _)) by (rewrite !length_app; lia).
  f_equal. unfold splice. rewrite Nat2Z.id, take_app_length. f_equal. f_equal.
  rewrite (assoc_L (++)), drop_app_length'; [done |]. rewrite length_app. lia.
Qed.

(** The message as stored at [off]. *)
Definition stored_message (m : MessageExtBrokerInner) (off : Z) : MessageExt :=
  let e := message_ext_inner m in
  mkMessageExt (message e) (broker_name e) (queue_id e) (record_len m) (stored_queue_offset m)
    (sys_flag e) (born_timestamp e) (born_host e) (store_timestamp e) (store_host e) (msg_id e)
    off (body_crc e) (reconsume_times e) (prepared_transaction_offset e).

Definition stored_record (m : MessageExtBrokerInner) (off : Z) : buffer :=
  record_bytes (version m) (stored_message m off) (body_of m) (str_bytes (properties_string m)).

(** The message may have been encoded with another store time [t] and queue
    offset [qo]. *)
Definition restamped (t qo : Z) (m : MessageExtBrokerInner) : MessageExtBrokerInner :=
  let e := message_ext_inner m in
  set_inner (mkMessageExt (message e) (broker_name e) (queue_id e) (store_size e) qo
    (sys_flag e) (born_timestamp e) (born_host e) t (store_host e) (msg_id e)
    (commit_log_offset e) (body_crc e) (reconsume_times e) (prepared_transaction_offset e)) m.

Lemma patch_restamped (crc32fast : buffer → Z) (cfg : EncoderConfig)
    (m : MessageExtBrokerInner) (t qo off : Z) :
  encodable cfg m → cfg_enabled_append_prop_crc cfg = false →
  patch_record crc32fast cfg m (record_of (restamped t qo m) (record_len m)) (record_len m)
    (stored_queue_offset m) off = Done (stored_record m off).
Proof.
  intros He Hcrc. unfold patch_record, record_of, stored_record, record_bytes, header_bytes.
  rewrite Hcrc, <- !(assoc_L (++)).
  change (body_of (restamped t qo m)) with (body_of m).
  change (version (restamped t qo m)) with (version m).
  change (properties_string (restamped t qo m)) with (properties_string m).
  cbn [restamped set_inner message_ext_inner blank_record stored_message store_size message queue_id queue_offset commit_log_offset
       sys_flag born_timestamp born_host store_timestamp store_host reconsume_times
       prepared_transaction_offset body_crc].
  set (e := message_ext_inner m).
  set (h5 := put_i32 (record_len m) ++ put_i32 (get_magic_code (version m)) ++
             put_u32 (body_crc e) ++ put_i32 (queue_id e) ++ put_i32 (flag (message e))).
  set (tl := put_i32 (sys_flag e) ++ _).
  replace (put_i32 (record_len m) ++ _) with (h5 ++ put_i64 qo ++ put_i64 0 ++ tl)
    by (unfold h5; by rewrite <- !(assoc_L (++))).
  assert (H5 : length h5 = 20%nat) by (unfold h5; buf_len).
  rewrite patch_app by (rewrite ?H5, ?put_i64_length; done). cbn [obind].
  rewrite (assoc_L (++) h5), patch_app
    by (autorewrite with rmq_len; rewrite ?H5; done). cbn [obind].
  unfold tl.
  set (pre := (h5 ++ put_i64 (stored_queue_offset m)) ++ put_i64 off ++ put_i32 (sys_flag e) ++
              put_i64 (born_timestamp e) ++ socket_address_2_byte_buffer (born_host e)).
  set (post := socket_address_2_byte_buffer (store_host e) ++ _).
  replace (((h5 ++ _) ++ _)) with (pre ++ put_i64 t ++ post)
    by (unfold pre; by rewrite <- !(assoc_L (++))).
  rewrite patch_app; [| | done].
  - cbn [obind]. unfold pre, h5. by rewrite <- !(assoc_L (++)).
  - pose proof (host_length_bytes _ _ _ (enc_born _ _ He) (enc_born_flag _ _ He)) as Hb. fold e in Hb.
    unfold pre. autorewrite with rmq_len. rewrite H5. lia.
Qed.

Lemma patch_record_spec (crc32fast : buffer → Z) (cfg : EncoderConfig)
    (m : MessageExtBrokerInner) (t off : Z) :
  encodable cfg m → cfg_enabled_append_prop_crc cfg = false →
  patch_record crc32fast cfg m (record_of (set_msg_timestamp t m) (record_len m)) (record_len m)
    (stored_queue_offset m) off = Done (stored_record m off).
Proof. exact (patch_restamped crc32fast cfg m t (queue_offset (message_ext_inner m)) off). Qed.

Lemma record_of_size (m : MessageExtBrokerInner) (total : Z) :
  in_s 32 total → ∃ rest, get_i32 (record_of m total) = Done (total, rest).
Proof.
  intros H. unfold record_of, record_bytes, header_bytes. rewrite <- !(assoc_L (++)).
  cbn [blank_record store_size]. rewrite get_put_i32 by done. by eexists.
Qed.

Section Generic.
Context {MF : Type} `{!MappedFileOps MF} (ok : MF → Prop) `{!MappedFileLaws MF ok}.
Variable crc32fast : buffer → Z.
Variables (cfg : EncoderConfig) (m : MessageExtBrokerInner).
Hypothesis Henc : encodable cfg m.
Hypothesis Hcrc : cfg_enabled_append_prop_crc cfg = false.
Hypothesis Hlen : record_len m ≤ i32_MAX - 8.
Variable t : Z.
Hypothesis Hbuf : encoded_buff m = Some (record_of (set_msg_timestamp t m) (record_len m)).

Lemma record_len_pos : 90 ≤ record_len m.
Proof.
  unfold record_len.
  pose proof (host_length_bound (sys_flag (message_ext_inner m))
                MessageSysFlag.BORNHOST_V6_FLAG).
  pose proof (host_length_bound (sys_flag (message_ext_inner m))
                MessageSysFlag.STOREHOSTADDRESS_V6_FLAG).
  assert (1 ≤ get_topic_length_size (version m) ≤ 2) by (destruct (version m); simpl; lia). lia.
Qed.

(** Against the interface: a record that fits is written at the wrote
    position. *)
Lemma do_append_fits (cq : CQType) (elapsed from : Z) (mf : MF) (max_blank : Z) :
  ok mf → mf_wrote mf + max_blank = mf_cap mf → record_len m + 8 ≤ max_blank →
  in_s 64 (from + mf_wrote mf) →
  let off := from + mf_wrote mf in
  ∃ mf', do_append crc32fast cfg cq elapsed from mf max_blank m =
    Done (mf', take_encoded m,
      mkAppendResult PutOk off (record_len m)
        (Some (build_message_id (store_host (message_ext_inner m)) off))
        (store_timestamp (message_ext_inner m)) (stored_queue_offset m) elapsed
        (get_message_num cq m)) ∧
    ok mf' ∧ mf_wrote mf' = mf_wrote mf ∧ mf_cap mf' = mf_cap mf ∧
    mf_memory mf' = splice (mf_memory mf) (Z.to_nat (mf_wrote mf)) (stored_record m off).
Proof.
  intros Hok Hblank Hfit Hoff off. pose proof record_len_pos.
  unfold do_append. rewrite Hbuf. cbn [unwrap obind].
  change (is_multi_dispatch_msg (take_encoded m)) with (is_multi_dispatch_msg m).
  rewrite (enc_single _ _ Henc).
  unfold i32_MAX in *.
  destruct (record_of_size (set_msg_timestamp t m) (record_len m)) as [rest ->]; [in_range |]. cbn [obind].
  rewrite as_i64_id by done. unfold END_FILE_MIN_BLANK_LENGTH.
  rewrite (as_i32_id (record_len m + (4 + 4))) by in_range.
  rewrite (proj2 (Z.ltb_ge _ _)) by lia. cbv zeta.
  change (patch_record crc32fast cfg (take_encoded m)) with (patch_record crc32fast cfg m).
  change (stored_queue_offset (take_encoded m)) with (stored_queue_offset m).
  rewrite patch_record_spec by done. cbn [obind].
  destruct (law_append (ok := ok) (stored_record m (from + mf_wrote mf)) mf Hok)
    as (mf' & -> & Hok' & Hw & Hc & Hm).
  { change (stored_record m (from + mf_wrote mf))
      with (record_bytes (version m) (stored_message m (from + mf_wrote mf)) (body_of m)
              (str_bytes (properties_string m))).
    pose proof (record_of_length cfg m (record_len m) Henc) as Hrl.
    unfold record_of, record_bytes, header_bytes in *. autorewrite with rmq_len in *.
    cbn [blank_record stored_message born_host store_host message topic] in *. lia. }
  by exists mf'.
Qed.

(** Against the interface: a record that does not fit closes the segment. *)
Lemma do_append_eof (cq : CQType) (elapsed from : Z) (mf : MF) (max_blank : Z) :
  max_blank < record_len m + 8 → in_s 64 (from + mf_wrote mf) →
  let off := from + mf_wrote mf in
  do_append crc32fast cfg cq elapsed from mf max_blank m =
    Done ((mf_write (blank_bytes max_blank) (as_usize off) mf).1, take_encoded m,
      mkAppendResult EndOfFile off max_blank
        (Some (build_message_id (store_host (message_ext_inner m)) off))
        (store_timestamp (message_ext_inner m)) (stored_queue_offset m) elapsed
        (get_message_num cq m)).
Proof.
  intros Hfit Hoff off. pose proof record_len_pos.
  unfold do_append. rewrite Hbuf. cbn [unwrap obind].
  change (is_multi_dispatch_msg (take_encoded m)) with (is_multi_dispatch_msg m).
  rewrite (enc_single _ _ Henc).
  unfold i32_MAX in *.
  destruct (record_of_size (set_msg_timestamp t m) (record_len m)) as [rest ->]; [in_range |]. cbn [obind].
  rewrite as_i64_id by done. unfold END_FILE_MIN_BLANK_LENGTH.
  rewrite (as_i32_id (record_len m + (4 + 4))) by in_range.
  rewrite (proj2 (Z.ltb_lt _ _)) by lia. fold off. by destruct (mf_write _ _ _).
Qed.
End Generic.

(** ** The callback on a segment *)

Definition with_encoded (b : buffer) (m : MessageExtBrokerInner) : MessageExtBrokerInner :=
  mkBrokerInner (message_ext_inner m) (properties_string m) (tags_code m) (Some b)
    (encode_completed m) (version m).

Lemma stored_record_length (cfg : EncoderConfig) (m : MessageExtBrokerInner) (off : Z) :
  encodable cfg m → Z.of_nat (length (stored_record m off)) = record_len m.
Proof.
  intros He. rewrite <- (record_of_length cfg m (record_len m) He).
  unfold stored_record, record_of, record_bytes, header_bytes. autorewrite with rmq_len.
  cbn [blank_record stored_message born_host store_host message topic]. lia.
Qed.

Lemma frame_refl (m : DefaultMappedFile) : wf_mf m → frame m m.
Proof. intros. by unfold frame. Qed.

(** A record with room is appended to the log. *)
Lemma append_message_fits (crc32fast : buffer → Z) (cfg : EncoderConfig) (cq : CQType)
    (elapsed : Z) (msg : MessageExtBrokerInner) (t : Z) (m : DefaultMappedFile) :
  wf_mf m → encodable cfg msg → cfg_enabled_append_prop_crc cfg = false →
  encoded_buff msg = Some (record_of (set_msg_timestamp t msg) (record_len msg)) →
  wrote_position m + record_len msg + 8 ≤ file_size m →
  let off := file_from_offset m + wrote_position m in
  ∃ m' r, append_message crc32fast cfg cq elapsed msg m = Done (m', take_encoded msg, r) ∧
    status r = PutOk ∧ wrote_offset r = off ∧ wrote_bytes r = record_len msg ∧
    logics_offset r = stored_queue_offset msg ∧ wf_mf m' ∧
    wrote_position m' = wrote_position m + record_len msg ∧
    log m' = log m ++ stored_record msg off ∧ frame m m' ∧ file_size m' = file_size m.
Proof.
  intros Hwf He Hcrc Hbuf Hroom off. pose proof (wf_casts _ Hwf) as [_ Hc].
  pose proof (record_len_pos msg) as Hp. assert (Hwf0 := Hwf).
  destruct Hwf0 as [Hmem Hsz Hfr Hpos]. unfold i32_MAX, i64_MAX in *.
  unfold append_message. rewrite Hc, (proj2 (Z.leb_gt _ _)) by lia.
  rewrite (as_i64_id (file_from_offset m)), (as_i32_id (file_size m - _)) by in_range.
  destruct (do_append_fits (frame m) crc32fast cfg msg He Hcrc ltac:(unfold i32_MAX; lia) t Hbuf
    cq elapsed (file_from_offset m) m (file_size m - wrote_position m) (frame_refl _ Hwf))
    as (mf & -> & (Hwf' & Hf & Hfl & Hr & Ht) & Hw & Hcap & Hm); [cbn; lia | lia | cbn; in_range |].
  cbn [obind wrote_bytes]. eexists _, _. split; [reflexivity |]. cbn in Hw, Hcap, Hm.
  pose proof (stored_record_length cfg msg off He) as Hl.
  match goal with |- context [wf_mf ?m1] => assert (Hwf1 : wf_mf m1) end.
  { destruct Hwf'. constructor; cbn; [done | done | done |].
    rewrite as_i32_id by in_range. lia. }
  split; [done |]. split; [done |]. split; [done |]. split; [done |]. split; [done |]. split_and!.
  - cbn. rewrite as_i32_id by in_range. lia.
  - unfold log. cbn. rewrite as_i32_id, Hm, Hw by in_range. fold off.
    rewrite <- log_splice by lia. f_equal. lia.
  - by split_and!.
  - done.
Qed.

(** A record that does not fit closes the segment. *)
Lemma append_message_eof (crc32fast : buffer → Z) (cfg : EncoderConfig)
    (cq : CQType) (elapsed : Z) (msg : MessageExtBrokerInner) (t : Z) (m : DefaultMappedFile) :
  wf_mf m → encodable cfg msg → record_len msg ≤ i32_MAX - 8 →
  encoded_buff msg = Some (record_of (set_msg_timestamp t msg) (record_len msg)) →
  wrote_position m < file_size m < wrote_position m + record_len msg + 8 →
  ∃ m' r, append_message crc32fast cfg cq elapsed msg m = Done (m', take_encoded msg, r) ∧
    status r = EndOfFile ∧ wrote_offset r = file_from_offset m + wrote_position m ∧
    is_full m' = true ∧ take (Z.to_nat (wrote_position m)) (log m') = log m ∧
    frame m m' ∧ file_size m' = file_size m.
Proof.
  intros Hwf He Hlen Hbuf Hroom. pose proof (wf_casts _ Hwf) as [_ Hc].
  assert (Hwf0 := Hwf). destruct Hwf0 as [Hmem Hsz Hfr Hpos]. unfold i64_MAX, i32_MAX in *.
  unfold append_message. rewrite Hc, (proj2 (Z.leb_gt _ _)) by lia.
  rewrite (as_i64_id (file_from_offset m)), (as_i32_id (file_size m - _)) by in_range.
  rewrite (do_append_eof crc32fast cfg msg He Hlen t Hbuf) by (cbn; in_range).
  set (off := file_from_offset m + mf_wrote m). cbn [obind wrote_bytes].
  assert (Hk : ∃ mem', (mf_write (blank_bytes (file_size m - wrote_position m))
                          (as_usize off) m).1 = set_memory mem' m ∧
    length mem' = length (mmapped_file m) ∧
    take (Z.to_nat (wrote_position m)) mem' = take (Z.to_nat (wrote_position m)) (mmapped_file m)).
  { unfold off. cbn. rewrite as_usize_id by in_range.
    destruct (Z.leb_spec (file_from_offset m + wrote_position m +
      Z.of_nat (length (blank_bytes (file_size m - wrote_position m)))) (file_size m)) as [Hi | Ho].
    - destruct (write_bytes_segment_spec _ (file_from_offset m + wrote_position m) m Hwf
                  ltac:(lia) Hi) as [-> _].
      eexists. split; [done |]. split; [apply splice_length; lia |].
      unfold splice. rewrite take_app_le by (rewrite length_take; lia).
      rewrite take_take. f_equal. lia.
    - exists (mmapped_file m). split; [| done]. unfold write_bytes_segment.
      rewrite (proj2 (Z.leb_gt _ _)) by lia. by destruct m. }
  destruct Hk as (mem' & Hk & Hml & Hmt). cbn in Hk |- *. rewrite Hk.
  eexists _, _. split; [reflexivity |].
  split_and!; [done | done | | | | done].
  - unfold is_full. cbn. rewrite as_i32_id, as_u64_id by in_range. apply Z.eqb_eq. lia.
  - unfold log. cbn. rewrite as_i32_id by in_range. rewrite take_take, <- Hmt. f_equal. lia.
  - split_and!; [| done ..]. constructor; cbn; [lia | done | done |].
    rewrite as_i32_id by in_range. lia.
Qed.

(** storing a message: a message within the limits is encoded, appended
    to a segment with room, reported as stored at the offset of the old end of
    the log, and decoding what the segment holds from that offset on gives the
    message back with its queue offset, physical offset and store time. *)
Theorem put_then_decode (crc32fast : buffer → Z)
    (decompression : CompressionType → buffer → outcome buffer) (cfg : EncoderConfig)
    (cq : CQType) (elapsed : Z) (msg : MessageExtBrokerInner) (m : DefaultMappedFile)
    (data : buffer) (order : list (string * string)) :
  let off := file_from_offset m + wrote_position m in
  let stored := stored_message msg off in
  wf_mf m → encodable cfg msg → cfg_enabled_append_prop_crc cfg = false →
  record_len msg ≤ max_message_size cfg →
  wrote_position m + record_len msg + 8 ≤ file_size m →
  wf_record (version msg) stored data (str_bytes (properties_string msg)) →
  body (message stored) = Some data → data ≠ [] →
  crc32 crc32fast data = body_crc stored →
  Z.land (sys_flag stored) MessageSysFlag.COMPRESSED_FLAG = 0 →
  properties_string msg = message_properties_to_string order →
  order ≡ₚ map_to_list (properties (message stored)) →
  map_Forall (λ k v, sep_free (k, v) ∧ nonempty_entry (k, v)) (properties (message stored)) →
  ∃ b m' msg' r,
    encode cfg msg = Done (b, None) ∧
    append_message crc32fast cfg cq elapsed (with_encoded b msg) m = Done (m', msg', r) ∧
    status r = PutOk ∧ wrote_offset r = off ∧ wf_mf m' ∧
    MessageDecoder.decode crc32fast decompression true true false false true
      (drop (Z.to_nat (wrote_position m)) (log m')) = Done (Some (as_decoded stored), []).
Proof.
  intros off stored Hwf He Hcrc Hmax Hroom Hwr Hb Hne Hck Hz Hps Hord Hm.
  pose proof (max_message_size_le cfg).
  exists (record_of msg (record_len msg)).
  destruct (append_message_fits crc32fast cfg cq elapsed
              (with_encoded (record_of msg (record_len msg)) msg)
              (store_timestamp (message_ext_inner msg)) m Hwf)
    as (m' & r & Ha & Hs & Ho & _ & _ & Hwf' & _ & Hlog & _);
    [by destruct He | done | by rewrite (set_msg_timestamp_same (with_encoded _ msg)) | done |].
  eexists m', _, r. split_and!; [by apply encode_no_crc | exact Ha | done | done | done |].
  rewrite Hlog, drop_app_length' by (pose proof (log_length m Hwf); lia).
  change (stored_record (with_encoded _ msg) _) with
    (record_bytes (version msg) stored (body_of msg) (str_bytes (properties_string msg))).
  assert (Hbo : body_of msg = data) by (unfold body_of; change (message (message_ext_inner msg))
    with (message stored); by rewrite Hb).
  rewrite Hbo, <- (app_nil_r (record_bytes _ _ _ _)), decode_record by done.
  by rewrite Hps, decoded_as_decoded.
Qed.

Definition put_file : DefaultMappedFile :=
  mkMF new (replicate 400 Byte.x00) false "00000000000000000400" 400 0 0 0 400 0 false 0 0 true.

Lemma put_file_wf : wf_mf put_file.
Proof. constructor; vm_compute; intuition congruence. Qed.

Lemma put_then_decode_witness :
  ∃ b m' msg' r,
    encode sample_config sample_inner = Done (b, None) ∧
    append_message (λ _, 0) sample_config SimpleCQ 0 (with_encoded b sample_inner) put_file =
      Done (m', msg', r) ∧
    status r = PutOk ∧ wrote_offset r = 400 ∧ wf_mf m' ∧
    MessageDecoder.decode (λ _, 0) (λ _ d, Done d) true true false false true
      (drop (Z.to_nat (wrote_position put_file)) (log m')) =
      Done (Some (as_decoded (stored_message sample_inner 400)), []).
Proof.
  apply (put_then_decode (λ _, 0) (λ _ d, Done d) sample_config SimpleCQ 0 sample_inner
           put_file (str_bytes "hello") [("TAGS", "TagA")]); try done.
  all: first [apply put_file_wf | apply sample_encodable
    | apply map_Forall_singleton; solve_sep_free | by vm_compute
    | constructor; [constructor |..]; by vm_compute].
Defined.

(** a record that does not fit closes the segment: it is reported as the
    end of the file at the old position, the segment becomes full and nothing
    of the log before it changes. *)
Theorem append_message_end_of_file (crc32fast : buffer → Z) (cfg : EncoderConfig)
    (cq : CQType) (elapsed : Z) (msg : MessageExtBrokerInner) (m : DefaultMappedFile) :
  wf_mf m → encodable cfg msg → record_len msg ≤ i32_MAX - 8 →
  encoded_buff msg = Some (record_of msg (record_len msg)) →
  wrote_position m < file_size m < wrote_position m + record_len msg + 8 →
  ∃ m' r, append_message crc32fast cfg cq elapsed msg m = Done (m', take_encoded msg, r) ∧
    status r = EndOfFile ∧ wrote_offset r = file_from_offset m + wrote_position m ∧
    is_full m' = true ∧ take (Z.to_nat (wrote_position m)) (log m') = log m ∧ wf_mf m'.
Proof.
  intros Hwf He Hlen Hbuf Hroom. rewrite <- (set_msg_timestamp_same msg) in Hbuf at 2.
  destruct (append_message_eof crc32fast cfg cq elapsed msg _ m Hwf He Hlen Hbuf Hroom)
    as (m' & r & H1 & H2 & H3 & H4 & H5 & (H6 & _) & _).
  by exists m', r.
Qed.

Lemma append_message_end_of_file_witness :
  let msg := with_encoded (record_of sample_inner (record_len sample_inner)) sample_inner in
  let m := set_wrote_position 390 put_file in
  ∃ m' r, append_message (λ _, 0) sample_config SimpleCQ 0 msg m =
      Done (m', take_encoded msg, r) ∧
    status r = EndOfFile ∧ wrote_offset r = 790 ∧ is_full m' = true ∧
    take 390 (log m') = log m ∧ wf_mf m'.
Proof.
  apply (append_message_end_of_file (λ _, 0) sample_config SimpleCQ 0
    (with_encoded (record_of sample_inner (record_len sample_inner)) sample_inner)
    (set_wrote_position 390 put_file)).
  - constructor; vm_compute; intuition congruence.
  - destruct (sample_encodable false). by constructor.
  - by vm_compute.
  - done.
  - vm_compute. intuition congruence.
Defined.

(** the blank record that closes a segment is written at the message's
    physical offset taken as a position in the file, so in every segment but
    the first it falls outside the file: the segment is declared full but its
    memory is unchanged and no marker is left in it. *)
Theorem blank_marker_lost (crc32fast : buffer → Z) (cfg : EncoderConfig)
    (cq : CQType) (elapsed : Z) (msg : MessageExtBrokerInner) (m : DefaultMappedFile) :
  wf_mf m → encodable cfg msg → record_len msg ≤ i32_MAX - 8 →
  encoded_buff msg = Some (record_of msg (record_len msg)) →
  wrote_position m < file_size m < wrote_position m + record_len msg + 8 →
  file_size m ≤ file_from_offset m →
  ∃ m' r, append_message crc32fast cfg cq elapsed msg m = Done (m', take_encoded msg, r) ∧
    status r = EndOfFile ∧ mmapped_file m' = mmapped_file m.
Proof.
  intros Hwf He Hlen Hbuf Hroom Hseg. pose proof (wf_casts _ Hwf) as [_ Hc].
  assert (Hwf0 := Hwf). destruct Hwf0 as [Hmem Hsz Hfr Hpos]. unfold i64_MAX, i32_MAX in *.
  unfold append_message. rewrite Hc, (proj2 (Z.leb_gt _ _)) by lia.
  rewrite (as_i64_id (file_from_offset m)), (as_i32_id (file_size m - _)) by in_range.
  rewrite <- (set_msg_timestamp_same msg) in Hbuf at 2.
  rewrite (do_append_eof crc32fast cfg msg He Hlen _ Hbuf) by (cbn; in_range).
  rewrite (law_write_out (ok := frame m)); [| by apply frame_refl |].
  - cbn [obind wrote_bytes]. eexists _, _. by split_and!.
  - change (file_size m < as_usize (file_from_offset m + wrote_position m) + 8).
    rewrite as_usize_id by in_range. lia.
Qed.

Lemma blank_marker_lost_witness :
  let msg := with_encoded (record_of sample_inner (record_len sample_inner)) sample_inner in
  let m := set_wrote_position 390 put_file in
  ∃ m' r, append_message (λ _, 0) sample_config SimpleCQ 0 msg m =
      Done (m', take_encoded msg, r) ∧
    status r = EndOfFile ∧ mmapped_file m' = mmapped_file m.
Proof.
  apply (blank_marker_lost (λ _, 0) sample_config SimpleCQ 0
    (with_encoded (record_of sample_inner (record_len sample_inner)) sample_inner)
    (set_wrote_position 390 put_file)).
  - constructor; vm_compute; intuition congruence.
  - destruct (sample_encodable false). by constructor.
  - by vm_compute.
  - done.
  - vm_compute. intuition congruence.
  - vm_compute. congruence.
Defined.
