(* ===== verification/MappedFileQueue.v ===== *)
(** * MappedFileQueue: the segments of a log ([mapped_file_queue.rs])

    A queue is the list of the segment files of one directory, in offset
    order.  A file of the queue is shared by reference in the source; here a
    reference is the file's index.  The results of file system calls (the
    directory listing, the bytes an existing file holds, whether a removal
    succeeded) and the clock are arguments. *)

From stdpp Require Import base list strings sorting.
From coqutil Require Import Byte.
From Stdlib Require Import ZArith Lia.
From S2P Require Import Prelude Bytes FileName ReferenceResource MappedFile.
Open Scope Z_scope.
Open Scope rmq_scope.

Record MappedFileQueue := mkQueue {
  store_path : string;
  mapped_file_size : Z;
  mapped_files : list DefaultMappedFile;
  allocate_mapped_file_service : bool;
  flushed_where : Z;
  committed_where : Z;
  q_store_timestamp : Z;
}.

Definition new_queue (path : string) (sz : Z) (service : bool) : MappedFileQueue :=
  mkQueue path sz [] service 0 0 0.

Definition set_mapped_files fs q :=
  mkQueue (store_path q) (mapped_file_size q) fs (allocate_mapped_file_service q)
    (flushed_where q) (committed_where q) (q_store_timestamp q).
Definition set_flushed_where (w : Z) q :=
  mkQueue (store_path q) (mapped_file_size q) (mapped_files q) (allocate_mapped_file_service q)
    (as_u64 w) (committed_where q) (q_store_timestamp q).
Definition set_committed_where (w : Z) q :=
  mkQueue (store_path q) (mapped_file_size q) (mapped_files q) (allocate_mapped_file_service q)
    (flushed_where q) (as_u64 w) (q_store_timestamp q).
Definition set_queue_timestamp (t : Z) q :=
  mkQueue (store_path q) (mapped_file_size q) (mapped_files q) (allocate_mapped_file_service q)
    (flushed_where q) (committed_where q) t.

Definition get_flushed_where (q : MappedFileQueue) : Z := as_i64 (flushed_where q).
Definition get_committed_where (q : MappedFileQueue) : Z := as_i64 (committed_where q).

Definition get_first_mapped_file (q : MappedFileQueue) : option nat :=
  match mapped_files q with [] => None | _ => Some O end.
Definition get_last_mapped_file (q : MappedFileQueue) : option nat :=
  match mapped_files q with [] => None | _ :: fs => Some (length fs) end.

(** ** Loading a directory *)

Record dir_entry := mkEntry {
  e_name : string;
  e_metadata : bool;
  e_is_dir : bool;
  e_contents : buffer;
}.

(** File names are compared as byte strings. *)
Fixpoint bytes_cmp (a b : buffer) : comparison :=
  match a, b with
  | [], [] => Eq
  | [], _ :: _ => Lt
  | _ :: _, [] => Gt
  | x :: a', y :: b' =>
      match byte.unsigned x ?= byte.unsigned y with Eq => bytes_cmp a' b' | c => c end
  end.

Definition name_le (a b : dir_entry) : Prop :=
  bytes_cmp (str_bytes (e_name a)) (str_bytes (e_name b)) ≠ Gt.
#[export] Instance name_le_dec : RelDecision name_le.
Proof. unfold name_le. solve_decision. Defined.

Definition loaded_file (sz : Z) (m : DefaultMappedFile) : DefaultMappedFile :=
  set_committed_position (as_i32 sz) (set_flushed_position (as_i32 sz)
    (set_wrote_position (as_i32 sz) m)).

(** The loop over the sorted files: [i] of [n] in all; the second result names
    the files whose removal was tried. *)
Fixpoint do_load_loop (n i : nat) (files : list dir_entry) (q : MappedFileQueue)
    (removed : list string) : outcome (MappedFileQueue * list string * bool) :=
  match files with
  | [] => Done (q, removed, true)
  | f :: fs =>
      if negb (e_metadata f) then Done (q, removed, false)
      else if e_is_dir f then do_load_loop n (S i) fs q removed
      else
        let len := Z.of_nat (length (e_contents f)) in
        if (len =? 0) && (i =? n - 1)%nat then do_load_loop n (S i) fs q (removed ++ [e_name f])
        else if negb (len =? mapped_file_size q) then Done (q, removed, false)
        else
          let* m := new_mapped_file (e_name f) (mapped_file_size q) (e_contents f) in
          let m := loaded_file (mapped_file_size q) m in
          do_load_loop n (S i) fs (set_mapped_files (mapped_files q ++ [m]) q) removed
  end.

Definition do_load (files : list dir_entry) (q : MappedFileQueue)
  : outcome (MappedFileQueue * list string * bool) :=
  do_load_loop (length files) 0 (merge_sort name_le files) q [].

(** [load]: [dir] is the listing, when the directory can be read; unreadable
    entries are skipped. *)
Definition load (dir : option (list (option dir_entry))) (q : MappedFileQueue)
  : outcome (MappedFileQueue * list string * bool) :=
  match dir with
  | Some ls => do_load (omap id ls) q
  | None => Done (q, [], true)
  end.

(** [check_self] only logs: the neighbours it would complain about. *)
Fixpoint check_self_loop (sz : Z) (pre : DefaultMappedFile) (ms : list DefaultMappedFile)
  : list (string * string) :=
  match ms with
  | [] => []
  | cur :: ms' =>
      (if as_u64 (file_from_offset cur - file_from_offset pre) =? sz then []
       else [(file_name pre, file_name cur)]) ++ check_self_loop sz cur ms'
  end.
Definition check_self (q : MappedFileQueue) : list (string * string) :=
  match mapped_files q with [] => [] | m :: ms => check_self_loop (mapped_file_size q) m ms end.

(** ** Creating segments *)

Definition do_create_mapped_file (existing : buffer) (next_file : string)
    (q : MappedFileQueue) : outcome (MappedFileQueue * option nat) :=
  if allocate_mapped_file_service q then Panic
  else
    let* m := new_mapped_file next_file (mapped_file_size q) existing in
    let m := match mapped_files q with [] => set_first_create_in_queue true m | _ => m end in
    Done (set_mapped_files (mapped_files q ++ [m]) q, Some (length (mapped_files q))).

Definition try_create_mapped_file (existing : buffer) (create_offset : Z)
    (q : MappedFileQueue) : outcome (MappedFileQueue * option nat) :=
  do_create_mapped_file existing (offset_to_file_name create_offset) q.

Definition get_last_mapped_file_mut_start_offset (existing : buffer) (start_offset : Z)
    (need_create : bool) (q : MappedFileQueue) : outcome (MappedFileQueue * option nat) :=
  let file_sz := as_i64 (mapped_file_size q) in
  let mapped_file_last := get_last_mapped_file q in
  let* create_offset :=
    match mapped_file_last ≫= (mapped_files q !!.) with
    | None =>
        if file_sz =? 0 then Panic
        else Done (as_i64 (as_i64 start_offset - rrem (as_i64 start_offset) file_sz))
    | Some value =>
        if is_full value then Done (as_i64 (as_i64 (file_from_offset value) + file_sz))
        else Done (-1)
    end in
  if negb (create_offset =? -1) && need_create
  then try_create_mapped_file existing (as_u64 create_offset) q
  else Done (q, mapped_file_last).

(** ** Offsets *)

Definition get_max_offset (q : MappedFileQueue) : Z :=
  match last (mapped_files q) with
  | None => 0
  | Some m => as_i64 (as_i64 (file_from_offset m) + get_read_position m)
  end.
Definition get_max_wrote_position (q : MappedFileQueue) : Z :=
  match last (mapped_files q) with
  | None => 0
  | Some m => as_i64 (as_i64 (file_from_offset m) + wrote_position m)
  end.
Definition remain_how_many_data_to_commit (q : MappedFileQueue) : Z :=
  as_i64 (get_max_wrote_position q - get_committed_where q).
Definition remain_how_many_data_to_flush (q : MappedFileQueue) : Z :=
  as_i64 (get_max_offset q - get_flushed_where q).

(** The linear scan [find_mapped_file_by_offset] falls back to. *)
Fixpoint scan_files (sz offset : Z) (i : nat) (ms : list DefaultMappedFile) : option nat :=
  match ms with
  | [] => None
  | m :: ms' =>
      if (as_i64 (file_from_offset m) <=? offset) &&
         (offset <? as_i64 (as_i64 (file_from_offset m) + sz))
      then Some i else scan_files sz offset (S i) ms'
  end.

Definition find_mapped_file_by_offset (offset : Z) (return_first_on_not_found : bool)
    (q : MappedFileQueue) : outcome (option nat) :=
  match mapped_files q, last (mapped_files q) with
  | first :: _, Some lst =>
      let sz := as_i64 (mapped_file_size q) in
      let not_found := if return_first_on_not_found then Some O else None in
      if (offset <? as_i64 (file_from_offset first)) ||
         (as_i64 (as_i64 (file_from_offset lst) + sz) <=? offset)
      then Done not_found
      else
        if mapped_file_size q =? 0 then Panic
        else
          let index :=
            as_usize (as_usize offset / mapped_file_size q
                      - file_from_offset first / mapped_file_size q) in
          match mapped_files q !! Z.to_nat index with
          | Some target =>
              if as_i64 (file_from_offset target) <=? offset then Done (Some (Z.to_nat index))
              else
                match scan_files sz offset 0 (mapped_files q) with
                | Some i => Done (Some i)
                | None => Done not_found
                end
          | None =>
              match scan_files sz offset 0 (mapped_files q) with
              | Some i => Done (Some i)
              | None => Done not_found
              end
          end
  | _, _ => Done None
  end.

(** ** Flushing and committing *)

Definition flush (sync_ok : bool) (now flush_least_pages : Z) (q : MappedFileQueue)
  : outcome (MappedFileQueue * bool) :=
  let whr := get_flushed_where q in
  let* found := find_mapped_file_by_offset whr (whr =? 0) q in
  match found with
  | Some i =>
      let* m := unwrap (mapped_files q !! i) in
      let tmp_time_stamp := mf_store_timestamp m in
      let* (m', offset) := mf_flush sync_ok now flush_least_pages m in
      let q := set_mapped_files (<[i := m']> (mapped_files q)) q in
      let whered := as_u64 (file_from_offset m + as_u64 offset) in
      let result := whered =? as_u64 (get_flushed_where q) in
      let q := set_flushed_where (as_i64 whered) q in
      Done (if flush_least_pages =? 0 then set_queue_timestamp tmp_time_stamp q else q, result)
  | None => Done (q, true)
  end.

Definition commit (commit_least_pages : Z) (q : MappedFileQueue)
  : outcome (MappedFileQueue * bool) :=
  let whr := get_committed_where q in
  let* found := find_mapped_file_by_offset whr (whr =? 0) q in
  match found with
  | Some i =>
      let* m := unwrap (mapped_files q !! i) in
      let* (m', offset) := mf_commit commit_least_pages m in
      let q := set_mapped_files (<[i := m']> (mapped_files q)) q in
      let whered := as_u64 (file_from_offset m + as_u64 offset) in
      let result := whered =? as_u64 (get_committed_where q) in
      Done (set_committed_where (as_i64 whered) q, result)
  | None => Done (q, true)
  end.

(** ** Truncating and removing *)

(** [disk i] says whether removing file [i] succeeds and at what time it is
    tried. *)
Definition truncate_file (sz offset : Z) (disk : bool * Z) (m : DefaultMappedFile)
  : DefaultMappedFile :=
  let file_tail_offset := as_u64 (file_from_offset m + sz) in
  if offset <? as_i64 file_tail_offset then
    if as_i64 (file_from_offset m) <=? offset then
      let pos := as_i32 (rrem offset (as_i64 sz)) in
      set_flushed_position pos (set_committed_position pos (set_wrote_position pos m))
    else (destroy disk.1 disk.2 1000 m).1
  else m.

(** The files to be removed are collected and then dropped. *)
Definition truncate_dirty_files (disk : nat → bool * Z) (offset : Z) (q : MappedFileQueue)
  : MappedFileQueue :=
  set_mapped_files
    (imap (λ i, truncate_file (mapped_file_size q) offset (disk i)) (mapped_files q)) q.

(** The result also gives the destroyed file, which the queue drops. *)
Definition delete_last_mapped_file (disk : bool * Z) (q : MappedFileQueue)
  : MappedFileQueue * option DefaultMappedFile :=
  match get_last_mapped_file q with
  | Some n =>
      (set_mapped_files (take n (mapped_files q)) q,
       m ← mapped_files q !! n; Some (MappedFile.destroy disk.1 disk.2 1000 m).1)
  | None => (q, None)
  end.

(** [destroy] of the queue, with the destroyed files; the directory is removed
    afterwards. *)
Definition destroy_queue (disk : nat → bool * Z) (q : MappedFileQueue)
  : MappedFileQueue * list DefaultMappedFile :=
  (set_flushed_where 0 (set_mapped_files [] q),
   imap (λ i m, (MappedFile.destroy (disk i).1 (disk i).2 (1000 * 3) m).1) (mapped_files q)).

(** A [parking_lot] lock is not reentrant: a writer waits for every read guard,
    its own thread's too. *)
Inductive locked (A : Type) :=
| Returned (a : A)
| Blocked.
Arguments Returned {A}. Arguments Blocked {A}.
Definition write_lock {A} (read_guards : nat) (a : A) : locked A :=
  match read_guards with O => Returned a | _ => Blocked end.

(** [delete_expired_file]: [files] are references, some perhaps to files no
    longer in the queue. *)
Definition delete_expired_file (files : list nat) (q : MappedFileQueue)
  : locked MappedFileQueue :=
  let read_guards := 1%nat in
  match files with
  | [] => Returned q
  | _ =>
      let files := filter (λ i, is_Some (mapped_files q !! i)) files in
      write_lock read_guards
        (set_mapped_files
           (omap id (imap (λ i m, if decide (i ∈ files) then None else Some m) (mapped_files q))) q)
  end.

(** ** Well-formed queues *)

(** Segments of size [sz], the first at [base], without gaps. *)
Fixpoint chain (sz base : Z) (ms : list DefaultMappedFile) : Prop :=
  match ms with
  | [] => True
  | m :: ms' => file_from_offset m = base ∧ chain sz (base + sz) ms'
  end.

Definition base_of (ms : list DefaultMappedFile) : Z :=
  match ms with [] => 0 | m :: _ => file_from_offset m end.

Record queue_ok (q : MappedFileQueue) : Prop := {
  q_size : 0 < mapped_file_size q ≤ i32_MAX;
  q_files : Forall (λ m, wf_mf m ∧ file_size m = mapped_file_size q) (mapped_files q);
  q_chain : chain (mapped_file_size q) (base_of (mapped_files q)) (mapped_files q);
  q_aligned : (mapped_file_size q | base_of (mapped_files q));
  q_service : allocate_mapped_file_service q = false;
}.

Lemma chain_lookup (sz base : Z) (ms : list DefaultMappedFile) (i : nat) (m : DefaultMappedFile) :
  chain sz base ms → ms !! i = Some m → file_from_offset m = base + Z.of_nat i * sz.
Proof.
  revert base i. induction ms as [| m' ms IH]; intros base i; [done |].
  intros [Hf Hc]. destruct i as [| i]; simpl.
  - intros [= <-]. lia.
  - intros H. rewrite (IH _ _ Hc H). lia.
Qed.

Lemma chain_snoc (sz base : Z) (ms : list DefaultMappedFile) (m : DefaultMappedFile) :
  chain sz base (ms ++ [m]) ↔
  chain sz base ms ∧ file_from_offset m = base + Z.of_nat (length ms) * sz.
Proof.
  revert base. induction ms as [| m' ms IH]; intros base; simpl.
  - intuition lia.
  - rewrite IH. intuition lia.
Qed.

Section Ok.
Variable q : MappedFileQueue.
Hypothesis Hq : queue_ok q.
Local Notation sz := (mapped_file_size q).
Local Notation base := (base_of (mapped_files q)).

Lemma ok_lookup (i : nat) (m : DefaultMappedFile) :
  mapped_files q !! i = Some m →
  wf_mf m ∧ file_size m = sz ∧ file_from_offset m = base + Z.of_nat i * sz ∧
  0 ≤ file_from_offset m ∧ file_from_offset m + sz ≤ i64_MAX.
Proof.
  intros H. pose proof (Forall_lookup_1 _ _ _ _ (q_files _ Hq) H) as [Hwf Hs].
  pose proof (chain_lookup _ _ _ _ _ (q_chain _ Hq) H). destruct Hwf.
  rewrite Hs in *. split_and!; try done; try lia. by constructor; rewrite ?Hs.
Qed.

Lemma sz_i64 : as_i64 sz = sz.
Proof. pose proof (q_size _ Hq). unfold i32_MAX in *. apply as_i64_id. in_range. Qed.

Lemma ok_cast (i : nat) (m : DefaultMappedFile) :
  mapped_files q !! i = Some m →
  as_i64 (file_from_offset m) = file_from_offset m ∧
  as_i64 (file_from_offset m + sz) = file_from_offset m + sz.
Proof.
  intros H. pose proof (ok_lookup _ _ H) as (_ & _ & _ & H0 & H1).
  pose proof (q_size _ Hq). unfold i64_MAX, i32_MAX in *.
  split; apply as_i64_id; in_range.
Qed.

Lemma ok_last : mapped_files q ≠ [] →
  ∃ m, last (mapped_files q) = Some m ∧
       mapped_files q !! pred (length (mapped_files q)) = Some m.
Proof.
  intros H. rewrite last_lookup. destruct (lookup_lt_is_Some_2 (mapped_files q)
    (pred (length (mapped_files q)))) as [m Hm]; [| by exists m].
  destruct (mapped_files q); [done | simpl; lia].
Qed.

(** The index computed by division is the segment that holds the offset. *)
Lemma index_of_offset (offset : Z) :
  in_s 64 offset → base ≤ offset → mapped_files q ≠ [] →
  offset < base + Z.of_nat (length (mapped_files q)) * sz →
  as_usize (as_usize offset / sz - base / sz) = (offset - base) / sz ∧
  0 ≤ (offset - base) / sz < Z.of_nat (length (mapped_files q)).
Proof.
  intros Hr Hb Hne Hlt. destruct (q_aligned _ Hq) as [k Hk]. pose proof (q_size _ Hq) as Hsz.
  assert (0 ≤ base).
  { destruct (mapped_files q) as [| m ms] eqn:E; [done |].
    destruct (ok_lookup 0 m) as (_ & _ & _ & ? & _); [by rewrite E |]. done. }
  assert (Hd : 0 ≤ (offset - base) / sz < Z.of_nat (length (mapped_files q))).
  { split; [apply Z.div_pos; lia | apply Z.div_lt_upper_bound; lia]. }
  split; [| done]. rewrite (as_usize_id offset) by in_range.
  assert (Heq : offset / sz - base / sz = (offset - base) / sz).
  { rewrite Hk, Z.div_mul by lia. replace (offset - k * sz) with (offset + (- k) * sz) by lia.
    rewrite Z.div_add by lia. lia. }
  rewrite Heq. apply as_usize_id.
  pose proof (Z.mul_div_le (offset - base) sz ltac:(lia)).
  assert ((offset - base) / sz ≤ offset - base) by nia. in_range.
Qed.

Lemma find_in (offset : Z) (flag : bool) (i : nat) (m : DefaultMappedFile) :
  mapped_files q !! i = Some m →
  file_from_offset m ≤ offset < file_from_offset m + sz →
  find_mapped_file_by_offset offset flag q = Done (Some i).
Proof.
  intros Hm Hin. pose proof (ok_lookup _ _ Hm) as (_ & _ & Hf & H0 & H1).
  pose proof (q_size _ Hq) as Hsz. unfold i64_MAX in *.
  assert (Hne : mapped_files q ≠ []) by (intros E; by rewrite E in Hm).
  destruct (ok_last Hne) as (l & Hl & Hll). unfold find_mapped_file_by_offset.
  pose proof (ok_lookup _ _ Hll) as (_ & _ & Hlf & _ & _).
  pose proof (lookup_lt_Some _ _ _ Hm) as Hi.
  destruct (mapped_files q) as [| first ms] eqn:E; [done |]. rewrite Hl, sz_i64.
  assert (Hfi : mapped_files q !! 0%nat = Some first) by (by rewrite E).
  destruct (ok_cast _ _ Hfi) as [-> _]. rewrite <- E in *.
  destruct (ok_cast _ _ Hll) as [-> ->].
  assert (Hb : base = file_from_offset first) by (by rewrite E). rewrite <- Hb.
  rewrite (proj2 (Z.ltb_ge _ _)) by nia. rewrite (proj2 (Z.leb_gt _ _)) by nia.
  rewrite (proj2 (Z.eqb_neq _ _)) by lia. cbn [orb].
  destruct (index_of_offset offset) as [-> Hd]; [in_range | nia | done | nia |].
  replace ((offset - base) / sz) with (Z.of_nat i) in *.
  2: { apply Z.div_unique with (offset - file_from_offset m); lia. }
  rewrite Nat2Z.id, Hm. destruct (ok_cast _ _ Hm) as [-> _].
  by rewrite (proj2 (Z.leb_le _ _)) by lia.
Qed.

Lemma find_out (offset : Z) (flag : bool) :
  (∀ i m, mapped_files q !! i = Some m →
          ¬ file_from_offset m ≤ offset < file_from_offset m + sz) →
  in_s 64 offset →
  find_mapped_file_by_offset offset flag q =
  Done (if flag && negb (bool_decide (mapped_files q = [])) then Some O else None).
Proof.
  intros Hno Hr. unfold find_mapped_file_by_offset.
  destruct (mapped_files q) as [| first ms] eqn:E; [by destruct flag |].
  assert (Hne : mapped_files q ≠ []) by (by rewrite E).
  destruct (ok_last Hne) as (l & Hl & Hll). rewrite <- E in *. rewrite Hl, sz_i64.
  assert (Hfi : mapped_files q !! 0%nat = Some first) by (by rewrite E).
  destruct (ok_cast _ _ Hfi) as [-> _]. destruct (ok_cast _ _ Hll) as [-> ->].
  pose proof (ok_lookup _ _ Hll) as (_ & _ & Hlf & _ & _).
  pose proof (ok_lookup _ _ Hfi) as (_ & _ & Hff & _ & _).
  rewrite (bool_decide_false (mapped_files q = [])), andb_true_r by done.
  destruct (Z.ltb_spec offset (file_from_offset first)); [done |].
  destruct (Z.leb_spec (file_from_offset l + sz) offset); [done |]. exfalso.
  pose proof (q_size _ Hq). pose proof (lookup_lt_Some _ _ _ Hll).
  destruct (index_of_offset offset) as [_ Hd]; [done | lia | done | |].
  { replace (Z.of_nat (length (mapped_files q)))
      with (Z.of_nat (pred (length (mapped_files q))) + 1) by lia. lia. }
  set (k := Z.to_nat ((offset - base) / sz)).
  destruct (lookup_lt_is_Some_2 (mapped_files q) k) as [m Hm]; [lia |].
  pose proof (ok_lookup _ _ Hm) as (_ & _ & Hmf & _ & _).
  apply (Hno k m Hm). pose proof (Z.mul_div_le (offset - base) sz ltac:(lia)).
  pose proof (Z.mul_succ_div_gt (offset - base) sz ltac:(lia)). unfold k in Hmf. nia.
Qed.
End Ok.

(** looking a segment up by offset computes its index by division, and is
    right whenever the segments are contiguous: it returns the segment whose
    range contains the offset, and when there is none the first segment or
    nothing, as the caller asked; it never panics. *)
Theorem find_mapped_file_by_offset_spec (q : MappedFileQueue) (offset : Z) (flag : bool) :
  queue_ok q → in_s 64 offset →
  (∀ i m, mapped_files q !! i = Some m →
     file_from_offset m ≤ offset < file_from_offset m + mapped_file_size q →
     find_mapped_file_by_offset offset flag q = Done (Some i)) ∧
  ((∀ i m, mapped_files q !! i = Some m →
     ¬ file_from_offset m ≤ offset < file_from_offset m + mapped_file_size q) →
   find_mapped_file_by_offset offset flag q =
   Done (if flag && negb (bool_decide (mapped_files q = [])) then Some O else None)).
Proof.
  intros Hq Hr. split.
  - intros i m. by apply find_in.
  - intros Hno. by apply find_out.
Qed.

(** A three-segment sample for the witnesses. *)
Definition segment (from wrote : Z) : DefaultMappedFile :=
  mkMF new (replicate 16 Byte.x61) false (offset_to_file_name from) from wrote 0 0 16 0 false 0 0
    true.
Definition sample_queue : MappedFileQueue :=
  mkQueue "store" 16 [segment 32 16; segment 48 16; segment 64 5] false 0 0 0.

Lemma segment_wf (from wrote : Z) :
  0 ≤ from → from + 16 ≤ i64_MAX → 0 ≤ wrote ≤ 16 → wf_mf (segment from wrote).
Proof. intros. constructor; simpl; unfold i32_MAX; lia. Qed.

Lemma sample_queue_ok : queue_ok sample_queue.
Proof.
  constructor; simpl.
  - unfold i32_MAX. lia.
  - repeat (apply Forall_cons_2 || apply Forall_nil_2); (split; [| done]);
      apply segment_wf; unfold i64_MAX; lia.
  - done.
  - by exists 2.
  - done.
Qed.

Lemma find_mapped_file_by_offset_spec_witness :
  find_mapped_file_by_offset 50 false sample_queue = Done (Some 1%nat) ∧
  find_mapped_file_by_offset 7 true sample_queue = Done (Some 0%nat).
Proof.
  split.
  - apply (find_mapped_file_by_offset_spec sample_queue 50 false sample_queue_ok)
      with (m := segment 48 16); [in_range | done | done].
  - apply (find_mapped_file_by_offset_spec sample_queue 7 true sample_queue_ok); [in_range |].
    intros i m H Hin. do 3 (destruct i as [| i]; [injection H as <-; simpl in Hin; lia |]). done.
Defined.

(** ** Growing *)

Lemma queue_ok_snoc (q : MappedFileQueue) (m : DefaultMappedFile) :
  queue_ok q → wf_mf m → file_size m = mapped_file_size q →
  (mapped_files q = [] → (mapped_file_size q | file_from_offset m)) →
  (mapped_files q ≠ [] → file_from_offset m =
     base_of (mapped_files q) + Z.of_nat (length (mapped_files q)) * mapped_file_size q) →
  queue_ok (set_mapped_files (mapped_files q ++ [m]) q).
Proof.
  intros [] Hwf Hs H0 H1. destruct (mapped_files q) as [| m0 ms] eqn:E.
  - constructor; simpl; [done | by apply Forall_singleton | done | by apply H0 | done].
  - specialize (H1 ltac:(done)). constructor; simpl; [done | | | done | done].
    + rewrite app_comm_cons. apply Forall_app. split; [done |]. by apply Forall_singleton.
    + destruct q_chain0 as [? Hc]. split; [done |]. apply chain_snoc. split; [done |].
      rewrite H1. simpl. lia.
Qed.

Lemma new_segment (q : MappedFileQueue) (off : Z) (existing : buffer) :
  queue_ok q → 0 ≤ off → off + mapped_file_size q ≤ i64_MAX →
  ∃ m, try_create_mapped_file existing off q =
         Done (set_mapped_files (mapped_files q ++ [m]) q, Some (length (mapped_files q))) ∧
       wf_mf m ∧ file_size m = mapped_file_size q ∧ file_from_offset m = off ∧ log m = [] ∧
       is_full m = false ∧ first_create_in_queue m = bool_decide (mapped_files q = []) ∧
       reference_resource m = new ∧ transient_store_pool m = false.
Proof.
  intros [] H0 H1. unfold try_create_mapped_file, do_create_mapped_file. rewrite q_service0.
  destruct (new_mapped_file_wf (offset_to_file_name off) (mapped_file_size q) off existing)
    as (m & Hn & Hwf & Hf & Hl); [| done | done | done |].
  { apply parse_file_name. unfold i64_MAX, i32_MAX in *. in_range. }
  rewrite Hn. cbn [obind].
  assert (Hw : file_size m = mapped_file_size q ∧ wrote_position m = 0 ∧
               first_create_in_queue m = false ∧ reference_resource m = new ∧
               transient_store_pool m = false).
  { unfold new_mapped_file in Hn. apply obind_done in Hn as (o & _ & Hn).
    apply done_inj in Hn. by rewrite <- Hn. }
  destruct Hw as (Hsz & Hw & Hfc & Href & Ht). eexists. split; [done |].
  assert (Hfull : is_full m = false).
  { unfold is_full. rewrite Hsz, Hw. apply Z.eqb_neq. change (as_u64 0) with 0. lia. }
  destruct (mapped_files q); [| done]. destruct Hwf. by split_and!.
Qed.

(** The segment a writer gets: a new one in an empty queue, the last one, or a
    new one after a full last one. *)
Lemma last_of_empty (q : MappedFileQueue) (existing : buffer) (start : Z) :
  queue_ok q → mapped_files q = [] → 0 ≤ start → start + mapped_file_size q ≤ i64_MAX →
  ∃ m, get_last_mapped_file_mut_start_offset existing start true q =
         Done (set_mapped_files [m] q, Some O) ∧
       queue_ok (set_mapped_files [m] q) ∧ wf_mf m ∧ file_size m = mapped_file_size q ∧
       file_from_offset m = start - start mod mapped_file_size q ∧ log m = [] ∧
       is_full m = false ∧ first_create_in_queue m = true ∧ reference_resource m = new ∧
       transient_store_pool m = false.
Proof.
  intros Hq E Hs0 Hs1. pose proof (q_size _ Hq) as Hsz. unfold i64_MAX, i32_MAX in *.
  unfold get_last_mapped_file_mut_start_offset, get_last_mapped_file.
  rewrite sz_i64 by done. rewrite E. cbn [mbind option_bind].
  rewrite (proj2 (Z.eqb_neq _ _)) by lia. cbn [obind].
  rewrite (as_i64_id start) by in_range. unfold rrem. rewrite Z.rem_mod_nonneg by lia.
  pose proof (Z.mod_pos_bound start (mapped_file_size q) ltac:(lia)) as Hm.
  pose proof (Z.mod_le start (mapped_file_size q) ltac:(lia) ltac:(lia)).
  rewrite as_i64_id by in_range. rewrite (proj2 (Z.eqb_neq _ _)) by lia. cbn [negb andb].
  rewrite as_u64_id by in_range.
  destruct (new_segment q (start - start mod mapped_file_size q) existing Hq)
    as (m & -> & Hwf & Hfs & Hf & Hl & Hfull & Hfc & Href & Ht); [lia | unfold i64_MAX; lia |].
  rewrite E in *. exists m. split; [done |]. split_and!; try done.
  assert (Hq' : queue_ok (set_mapped_files (mapped_files q ++ [m]) q)); [| by rewrite E in Hq'].
  apply queue_ok_snoc; try done. intros _. rewrite Hf. exists (start / mapped_file_size q).
  pose proof (Z.div_mod start (mapped_file_size q) ltac:(lia)). lia.
Qed.

Lemma last_not_full (q : MappedFileQueue) (existing : buffer) (start : Z)
    (ms : list DefaultMappedFile) (l : DefaultMappedFile) :
  mapped_files q = ms ++ [l] → is_full l = false →
  get_last_mapped_file_mut_start_offset existing start true q = Done (q, Some (length ms)).
Proof.
  intros E Hfull. unfold get_last_mapped_file_mut_start_offset, get_last_mapped_file.
  rewrite E. destruct ms as [| m0 ms]; cbn [app mbind option_bind].
  - cbn. by rewrite Hfull.
  - rewrite app_comm_cons, length_app, Nat.add_1_r. cbn [length].
    rewrite (list_lookup_middle (m0 :: ms) [] l) by done. by rewrite Hfull.
Qed.

Lemma last_full (q : MappedFileQueue) (existing : buffer) (start : Z)
    (ms : list DefaultMappedFile) (l : DefaultMappedFile) :
  queue_ok q → mapped_files q = ms ++ [l] → is_full l = true →
  file_from_offset l + 2 * mapped_file_size q ≤ i64_MAX →
  ∃ m, get_last_mapped_file_mut_start_offset existing start true q =
         Done (set_mapped_files (mapped_files q ++ [m]) q, Some (length (mapped_files q))) ∧
       queue_ok (set_mapped_files (mapped_files q ++ [m]) q) ∧ wf_mf m ∧
       file_size m = mapped_file_size q ∧
       file_from_offset m = file_from_offset l + mapped_file_size q ∧ log m = [] ∧
       is_full m = false ∧ first_create_in_queue m = false ∧ reference_resource m = new ∧
       transient_store_pool m = false.
Proof.
  intros Hq E Hfull Hb. pose proof (q_size _ Hq) as Hsz. unfold i64_MAX, i32_MAX in *.
  assert (Hll : mapped_files q !! length ms = Some l) by (rewrite E; by apply list_lookup_middle).
  pose proof (ok_lookup q Hq _ _ Hll) as (Hwf & Hfs & Hf & H0 & H1).
  unfold get_last_mapped_file_mut_start_offset. rewrite sz_i64 by done.
  replace (get_last_mapped_file q) with (Some (length ms)).
  2: { unfold get_last_mapped_file. rewrite E. destruct ms; [done |]. cbn.
       by rewrite length_app, Nat.add_1_r. }
  cbn [mbind option_bind]. rewrite Hll, Hfull. cbn [obind].
  rewrite (as_i64_id (file_from_offset l)), as_i64_id by in_range.
  rewrite (proj2 (Z.eqb_neq _ _)) by lia. cbn [negb andb]. rewrite as_u64_id by in_range.
  destruct (new_segment q (file_from_offset l + mapped_file_size q) existing Hq)
    as (m & -> & Hwf' & Hfs' & Hf' & Hl' & Hfull' & Hfc & Href & Ht); [lia | unfold i64_MAX; lia |].
  exists m. split_and!; try done.
  - apply queue_ok_snoc; try done; [by intros E0; rewrite E0 in E; destruct ms |].
    intros _. rewrite Hf', Hf, E, length_app. cbn. lia.
  - rewrite Hfc. apply bool_decide_false. rewrite E. by destruct ms.
Qed.

(** asking for the segment to write to always yields the last segment of
    a well-formed queue and one that is not full: the current one, or a new
    empty one that starts where the last ended (or at the aligned offset asked
    for, in an empty queue); existing segments are kept. *)
Theorem last_mapped_file_writable (q : MappedFileQueue) (existing : buffer) (start : Z) :
  queue_ok q → 0 ≤ start → start + mapped_file_size q ≤ i64_MAX →
  (∀ m, last (mapped_files q) = Some m →
        file_from_offset m + 2 * mapped_file_size q ≤ i64_MAX) →
  ∃ q' i m,
    get_last_mapped_file_mut_start_offset existing start true q = Done (q', Some i) ∧
    queue_ok q' ∧ mapped_files q' !! i = Some m ∧ S i = length (mapped_files q') ∧
    is_full m = false ∧ mapped_files q `prefix_of` mapped_files q' ∧
    (mapped_files q = [] →
       file_from_offset m ≤ start < file_from_offset m + mapped_file_size q).
Proof.
  intros Hq Hs0 Hs1 Hnext. destruct (mapped_files q) as [| l ms _] eqn:E using rev_ind.
  - destruct (last_of_empty q existing start Hq E Hs0 Hs1)
      as (m & Hrun & Hq' & _ & _ & Hf & _ & Hfull & _).
    eexists _, _, m. split; [done |]. split_and!; try done; [by apply prefix_nil |].
    intros _. rewrite Hf. pose proof (q_size _ Hq).
    pose proof (Z.mod_pos_bound start (mapped_file_size q) ltac:(lia)). lia.
  - specialize (Hnext l ltac:(by apply last_snoc)). destruct (is_full l) eqn:Hfull.
    + destruct (last_full q existing start ms l Hq E Hfull Hnext)
        as (m & Hrun & Hq' & _ & _ & Hf & _ & Hfull' & _).
      eexists _, _, m. split; [done |]. rewrite E. split_and!; try done.
      * by rewrite E in Hq'.
      * by apply list_lookup_middle.
      * cbn. rewrite (length_app (ms ++ [l])). cbn. lia.
      * by apply prefix_app_r.
      * by destruct ms.
    + eexists _, _, l. split; [by apply (last_not_full q existing start ms l) |].
      rewrite E. split_and!; try done; [by apply list_lookup_middle | rewrite length_app; cbn; lia |].
      by destruct ms.
Qed.

Lemma last_mapped_file_writable_witness :
  ∃ q' i m,
    get_last_mapped_file_mut_start_offset [] 0 true sample_queue = Done (q', Some i) ∧
    queue_ok q' ∧ mapped_files q' !! i = Some m ∧ S i = length (mapped_files q') ∧
    is_full m = false ∧ mapped_files sample_queue `prefix_of` mapped_files q' ∧
    (mapped_files sample_queue = [] → file_from_offset m ≤ 0 < file_from_offset m + 16).
Proof.
  apply (last_mapped_file_writable sample_queue [] 0 sample_queue_ok); unfold i64_MAX.
  - lia.
  - simpl. lia.
  - intros m [= <-]. simpl. lia.
Defined.

(** ** Flushing the queue *)

Definition same_log (m m' : DefaultMappedFile) : Prop :=
  file_from_offset m' = file_from_offset m ∧ file_size m' = file_size m ∧
  mmapped_file m' = mmapped_file m ∧ wrote_position m' = wrote_position m.

#[export] Instance same_log_preorder : PreOrder same_log.
Proof.
  split; [done |]. intros x y z (? & ? & ? & ?) (? & ? & ? & ?).
  unfold same_log. split_and!; congruence.
Qed.

(** Only flushed positions and bookkeeping may differ. *)
Definition same_logs (q q' : MappedFileQueue) : Prop :=
  mapped_file_size q' = mapped_file_size q ∧
  Forall2 same_log (mapped_files q) (mapped_files q').

#[export] Instance same_logs_preorder : PreOrder same_logs.
Proof.
  split; [done |]. intros x y z [Hs H] [Hs' H']. split; [congruence |]. by etrans.
Qed.

(** A queue in use: every segment but the last is full, nobody keeps the
    segments from being flushed. *)
Record dense (q : MappedFileQueue) : Prop := {
  d_ok : queue_ok q;
  d_live : Forall (λ m, transient_store_pool m = false ∧
                        ∃ h, live h (reference_resource m) ∧ Z.of_nat h < 2 ^ 61)
             (mapped_files q);
  d_full : ∀ i m, mapped_files q !! i = Some m → (S i < length (mapped_files q))%nat →
           wrote_position m = mapped_file_size q;
}.

Fixpoint flush_n (n : nat) (ok : bool) (now : Z) (q : MappedFileQueue)
  : outcome MappedFileQueue :=
  match n with
  | O => Done q
  | S n' => let* (q', _) := flush ok now 0 q in flush_n n' ok now q'
  end.

Lemma chain_base_insert (ms : list DefaultMappedFile) (i : nat) (m m' : DefaultMappedFile)
    (sz : Z) :
  ms !! i = Some m → file_from_offset m' = file_from_offset m →
  base_of (<[i := m']> ms) = base_of ms ∧
  ∀ base, chain sz base ms → chain sz base (<[i := m']> ms).
Proof.
  revert i. induction ms as [| m0 ms IH]; intros i Hi Hf; [done |].
  destruct i as [| i]; simpl in *.
  - injection Hi as ->. split; [done |]. intros base [<- ?]. done.
  - split; [done |]. intros base [<- Hc]. split; [done |]. by apply (IH i).
Qed.

Lemma dense_insert (q : MappedFileQueue) (i : nat) (m m' : DefaultMappedFile) :
  dense q → mapped_files q !! i = Some m → same_log m m' → wf_mf m' →
  transient_store_pool m' = false →
  (∃ h, live h (reference_resource m') ∧ Z.of_nat h < 2 ^ 61) →
  let q' := set_mapped_files (<[i := m']> (mapped_files q)) q in dense q' ∧ same_logs q q'.
Proof.
  intros [[] Hlive Hfull] Hi (Hf & Hs & Hm & Hw) Hwf Ht Hh q'.
  destruct (chain_base_insert _ _ _ m' (mapped_file_size q) Hi Hf) as [Hb Hc].
  split; [constructor; [constructor | |] |]; unfold q'; cbn; rewrite ?Hb.
  - done.
  - apply Forall_insert; [done |]. split; [done |]. rewrite Hs.
    by apply (Forall_lookup_1 _ _ _ _ q_files0 Hi).
  - auto.
  - done.
  - done.
  - by apply Forall_insert.
  - intros j x Hj Hlt. rewrite length_insert in Hlt. destruct (decide (i = j)) as [<- | Hij].
    + rewrite list_lookup_insert_eq in Hj by (by eapply lookup_lt_Some). injection Hj as <-.
      rewrite Hw. by apply (Hfull i).
    + rewrite list_lookup_insert_ne in Hj by done. by apply (Hfull j).
  - split; [done |]. cbn. rewrite <- (list_insert_id _ _ _ Hi) at 1.
    apply Forall2_insert; [done |]. by split_and!.
Qed.

(** One flush of the segment that holds the flushed offset brings it to the
    end of what that segment holds. *)
Lemma flush_step (q : MappedFileQueue) (i : nat) (m : DefaultMappedFile) (ok : bool) (now : Z) :
  dense q → mapped_files q !! i = Some m →
  find_mapped_file_by_offset (get_flushed_where q) (get_flushed_where q =? 0) q =
    Done (Some i) →
  let whered := file_from_offset m + wrote_position m in
  ∃ q', flush ok now 0 q = Done (q', whered =? as_u64 (get_flushed_where q)) ∧
    dense q' ∧ same_logs q q' ∧ flushed_where q' = whered.
Proof.
  intros Hd Hi Hfind whered.
  pose proof (ok_lookup q (d_ok _ Hd) _ _ Hi) as (Hwf & Hs & _ & H0 & H1).
  pose proof (q_size _ (d_ok _ Hd)) as Hsz. unfold i64_MAX, i32_MAX in *.
  destruct (Forall_lookup_1 _ _ _ _ (d_live _ Hd) Hi) as (Ht & h & Hl & Hh).
  destruct (mf_flush_live m h ok now 0 Hwf Ht Hl Hh)
    as (m' & He & Hwf' & (Ef & Es & Em & Ew & _) & Ht' & Hl' & Hp).
  cbn in Ef, Es, Em, Ew.
  destruct (dense_insert q i m m' Hd Hi) as [Hd' Hsl]; [done | done | done | by exists h |].
  unfold flush. rewrite Hfind. cbn [obind]. rewrite Hi. cbn [unwrap obind]. rewrite He.
  cbn [obind].
  assert (Hwrote : flushed_position m' = wrote_position m).
  { rewrite Hp. unfold is_able_to_flush, get_read_position. destruct (is_full m); [done |].
    cbn. destruct (Z.ltb_spec (flushed_position m) (wrote_position m)); [done |].
    destruct Hwf. lia. }
  rewrite Hwrote. assert (Hb := mf_pos _ Hwf). rewrite Hs in Hb.
  rewrite (as_u64_id (wrote_position m)), (as_u64_id (_ + _)) by in_range.
  eexists. split; [reflexivity |]. unfold whered. split_and!; [| | cbn; rewrite as_i64_id, as_u64_id by in_range; done].
  - destruct Hd' as [[] ? ?]. by constructor; [constructor | |].
  - done.
Qed.

Definition logical_end (q : MappedFileQueue) : Z :=
  match last (mapped_files q) with
  | Some m => file_from_offset m + wrote_position m
  | None => 0
  end.

Lemma same_logs_end (q q' : MappedFileQueue) : same_logs q q' → logical_end q' = logical_end q.
Proof.
  intros [_ H]. unfold logical_end. rewrite !last_lookup, <- (Forall2_length _ _ _ H).
  destruct (mapped_files q !! _) as [m |] eqn:E.
  - destruct (Forall2_lookup_l _ _ _ _ _ H E) as (m' & -> & Hf & _ & _ & Hw). lia.
  - apply lookup_ge_None in E. rewrite (Forall2_length _ _ _ H) in E at 1.
    apply lookup_ge_None in E. by rewrite E.
Qed.

Lemma same_logs_length (q q' : MappedFileQueue) :
  same_logs q q' → length (mapped_files q') = length (mapped_files q).
Proof. intros [_ H]. by rewrite (Forall2_length _ _ _ H). Qed.

Lemma max_offset_end (q : MappedFileQueue) :
  queue_ok q → get_max_offset q = logical_end q ∧
    (mapped_files q ≠ [] → 0 ≤ logical_end q ≤ i64_MAX).
Proof.
  intros Hq. unfold get_max_offset, logical_end, get_read_position.
  destruct (last (mapped_files q)) as [m |] eqn:E; [| by split; [| intros H; apply last_None in E]].
  rewrite last_lookup in E. pose proof (ok_lookup q Hq _ _ E) as (Hwf & Hs & _ & H0 & H1).
  destruct (ok_cast q Hq _ _ E) as [-> _]. destruct Hwf. rewrite Hs in *.
  unfold i64_MAX in *. rewrite as_i64_id by in_range. split; [done | lia].
Qed.

Lemma get_flushed_where_id (q : MappedFileQueue) :
  0 ≤ flushed_where q ≤ i64_MAX → get_flushed_where q = flushed_where q.
Proof. intros H. unfold i64_MAX in H. apply as_i64_id. in_range. Qed.

(** Flushing from segment [i] on, segment by segment. *)
Lemma flush_from (k i : nat) (q : MappedFileQueue) (ok : bool) (now : Z) :
  dense q → length (mapped_files q) = (i + S k)%nat →
  find_mapped_file_by_offset (get_flushed_where q) (get_flushed_where q =? 0) q =
    Done (Some i) →
  ∃ q', flush_n (S k) ok now q = Done q' ∧ dense q' ∧ same_logs q q' ∧
        flushed_where q' = logical_end q.
Proof.
  revert i q. induction k as [| k IH]; intros i q Hd Hlen Hfind.
  - destruct (lookup_lt_is_Some_2 (mapped_files q) i) as [m Hi]; [lia |].
    destruct (flush_step q i m ok now Hd Hi Hfind) as (q' & Hf & Hd' & Hs & Hw).
    exists q'. cbn [flush_n]. rewrite Hf. cbn [obind]. split_and!; try done.
    rewrite Hw. unfold logical_end. rewrite last_lookup.
    replace (pred (length (mapped_files q))) with i by lia. by rewrite Hi.
  - destruct (lookup_lt_is_Some_2 (mapped_files q) i) as [m Hi]; [lia |].
    destruct (flush_step q i m ok now Hd Hi Hfind) as (q' & Hf & Hd' & Hs & Hw).
    pose proof (same_logs_length _ _ Hs) as Hl'.
    destruct (lookup_lt_is_Some_2 (mapped_files q') (S i)) as [n Hn]; [lia |].
    pose proof (ok_lookup q' (d_ok _ Hd') _ _ Hn) as (_ & _ & Hnf & Hn0 & Hn1).
    destruct Hs as [Hsz Hfs]. destruct (Forall2_lookup_l _ _ _ _ _ Hfs Hi) as (m' & Hi' & Hm').
    pose proof (ok_lookup q' (d_ok _ Hd') _ _ Hi') as (_ & _ & Hmf & _ & _).
    pose proof (q_size _ (d_ok _ Hd')).
    assert (Hwm : flushed_where q' = file_from_offset n).
    { rewrite Hw, (d_full _ Hd i m Hi) by lia. destruct Hm' as (Hfm & _). rewrite Hsz in *. lia. }
    destruct (IH (S i) q') as (q'' & Hfn & Hd'' & Hs'' & Hw''); [done | lia | |].
    { rewrite get_flushed_where_id, Hwm by lia. apply (find_in q' (d_ok _ Hd') _ _ _ n); [done |].
      lia. }
    exists q''. cbn [flush_n]. rewrite Hf. cbn [obind]. split_and!; try done.
    + by trans q'.
    + rewrite Hw''. by apply same_logs_end.
Qed.

(** Once everything is flushed, flushing changes nothing and says so. *)
Lemma flush_stable (q : MappedFileQueue) (ok : bool) (now : Z) :
  dense q → mapped_files q ≠ [] → flushed_where q = logical_end q →
  ∃ q', flush ok now 0 q = Done (q', true) ∧ dense q' ∧ same_logs q q' ∧
        flushed_where q' = logical_end q.
Proof.
  intros Hd Hne Hw. destruct (ok_last q Hne) as (l & Hl & Hll). pose proof (d_ok _ Hd) as Hq.
  destruct (max_offset_end q Hq) as [_ He]. specialize (He Hne).
  assert (Hend : logical_end q = file_from_offset l + wrote_position l)
    by (unfold logical_end; by rewrite Hl).
  pose proof (ok_lookup q Hq _ _ Hll) as (Hwf & Hs & Hlf & H0 & H1).
  assert (Hp := mf_pos _ Hwf). rewrite Hs in Hp. pose proof (q_size _ Hq).
  assert (Hg : get_flushed_where q = logical_end q) by (rewrite get_flushed_where_id; lia).
  destruct (decide (wrote_position l = mapped_file_size q)) as [Hfull | Hnf].
  - unfold flush. rewrite Hg, (proj2 (Z.eqb_neq _ _)) by lia.
    rewrite (find_out q Hq); cbn [andb obind].
    + by exists q.
    + intros i m Hi Hin. pose proof (ok_lookup q Hq _ _ Hi) as (_ & _ & Hf & _ & _).
      pose proof (lookup_lt_Some _ _ _ Hi). nia.
    + unfold i64_MAX in *. in_range.
  - assert (Hfind : find_mapped_file_by_offset (get_flushed_where q) (get_flushed_where q =? 0) q
                    = Done (Some (pred (length (mapped_files q))))).
    { apply (find_in q Hq _ _ _ l); [done | lia]. }
    destruct (flush_step q _ l ok now Hd Hll Hfind) as (q' & Hf & Hd' & Hsl & Hw').
    exists q'. rewrite Hw', Hend. split_and!; try done. rewrite Hf, Hg, Hend.
    unfold i64_MAX in *. rewrite as_u64_id by in_range. by rewrite Z.eqb_refl.
Qed.

Lemma flush_n_stable (n : nat) (q : MappedFileQueue) (ok : bool) (now : Z) :
  dense q → mapped_files q ≠ [] → flushed_where q = logical_end q →
  ∃ q', flush_n n ok now q = Done q' ∧ dense q' ∧ same_logs q q' ∧
        flushed_where q' = logical_end q.
Proof.
  revert q. induction n as [| n IH]; intros q Hd Hne Hw; [by exists q |].
  destruct (flush_stable q ok now Hd Hne Hw) as (q1 & Hf & Hd1 & Hs1 & Hw1).
  pose proof (same_logs_length _ _ Hs1) as Hl. pose proof (same_logs_end _ _ Hs1) as He.
  destruct (IH q1 Hd1) as (q2 & Hf2 & Hd2 & Hs2 & Hw2).
  - intros E. rewrite E in Hl. by destruct (mapped_files q).
  - congruence.
  - exists q2. cbn [flush_n]. rewrite Hf. cbn [obind]. split_and!; try done; [by trans q1 |].
    congruence.
Qed.

Lemma flush_n_add (a b : nat) (q q1 : MappedFileQueue) (ok : bool) (now : Z) :
  flush_n a ok now q = Done q1 → flush_n (a + b) ok now q = flush_n b ok now q1.
Proof.
  revert q. induction a as [| a IH]; intros q H; [by injection H as -> |].
  cbn [flush_n Nat.add] in *. apply obind_done in H as ([q' r] & -> & H). cbn [obind]. by apply IH.
Qed.

(** The segment flushing starts from. *)
Lemma flush_start (q : MappedFileQueue) :
  dense q → mapped_files q ≠ [] →
  flushed_where q = 0 ∨ base_of (mapped_files q) ≤ flushed_where q < logical_end q →
  ∃ i, find_mapped_file_by_offset (get_flushed_where q) (get_flushed_where q =? 0) q =
         Done (Some i) ∧ (i < length (mapped_files q))%nat.
Proof.
  intros Hd Hne Hw. pose proof (d_ok _ Hd) as Hq. pose proof (q_size _ Hq).
  destruct (ok_last q Hne) as (l & Hl & Hll).
  pose proof (ok_lookup q Hq _ _ Hll) as (Hwf & Hs & Hlf & H0 & H1).
  assert (Hp := mf_pos _ Hwf). rewrite Hs in Hp. pose proof (lookup_lt_Some _ _ _ Hll) as Hlt.
  assert (Hend : logical_end q = file_from_offset l + wrote_position l)
    by (unfold logical_end; by rewrite Hl).
  assert (Hb : 0 ≤ base_of (mapped_files q)).
  { destruct (mapped_files q) as [| m ms] eqn:E; [done |].
    by destruct (ok_lookup q Hq 0 m) as (_ & _ & _ & ? & _); [by rewrite E |]. }
  assert (Hg : get_flushed_where q = flushed_where q)
    by (apply get_flushed_where_id; unfold i64_MAX in *; lia).
  rewrite Hg. set (k := Z.to_nat ((flushed_where q - base_of (mapped_files q)) /
                                  mapped_file_size q)).
  destruct (decide (base_of (mapped_files q) ≤ flushed_where q <
              base_of (mapped_files q) +
              Z.of_nat (length (mapped_files q)) * mapped_file_size q)) as [Hin | Hout].
  - destruct (index_of_offset q Hq (flushed_where q)) as [_ Hd'];
      [unfold i64_MAX in *; in_range | lia | done | lia |].
    destruct (lookup_lt_is_Some_2 (mapped_files q) k) as [m Hm]; [lia |].
    exists k. split; [| by eapply lookup_lt_Some].
    pose proof (ok_lookup q Hq _ _ Hm) as (_ & _ & Hmf & _ & _).
    apply (find_in q Hq _ _ _ m); [done |].
    pose proof (Z.mul_div_le (flushed_where q - base_of (mapped_files q)) (mapped_file_size q)
                  ltac:(lia)).
    pose proof (Z.mul_succ_div_gt (flushed_where q - base_of (mapped_files q))
                  (mapped_file_size q) ltac:(lia)). unfold k in Hmf. nia.
  - destruct Hw as [Hz | Hw].
    + exists O. split; [| lia]. rewrite Hz in *. rewrite (find_out q Hq); [| | in_range].
      * by rewrite bool_decide_false.
      * intros i m Hm Hin. pose proof (ok_lookup q Hq _ _ Hm) as (_ & _ & Hmf & _ & _).
        pose proof (lookup_lt_Some _ _ _ Hm). nia.
    + exfalso. apply Hout. nia.
Qed.

(** As many flushes as there are segments bring the flushed offset to the
    end. *)
Lemma flush_n_end (q : MappedFileQueue) (ok : bool) (now : Z) (n : nat) :
  dense q → mapped_files q ≠ [] →
  flushed_where q = 0 ∨ base_of (mapped_files q) ≤ flushed_where q ≤ logical_end q →
  (length (mapped_files q) ≤ n)%nat →
  ∃ q', flush_n n ok now q = Done q' ∧ dense q' ∧ same_logs q q' ∧
        flushed_where q' = logical_end q.
Proof.
  intros Hd Hne Hw Hn.
  destruct (decide (flushed_where q = logical_end q)) as [He | He]; [by apply flush_n_stable |].
  destruct (flush_start q Hd Hne ltac:(lia)) as (i & Hfind & Hi).
  destruct (flush_from (length (mapped_files q) - S i) i q ok now Hd ltac:(lia) Hfind)
    as (q1 & Hf1 & Hd1 & Hs1 & Hw1).
  pose proof (same_logs_length _ _ Hs1) as Hl. pose proof (same_logs_end _ _ Hs1) as He1.
  destruct (flush_n_stable (n - S (length (mapped_files q) - S i)) q1 ok now Hd1)
    as (q2 & Hf2 & Hd2 & Hs2 & Hw2).
  - intros E. rewrite E in Hl. by destruct (mapped_files q).
  - congruence.
  - exists q2. rewrite <- (flush_n_add _ _ _ _ _ _ Hf1) in Hf2.
    rewrite <- Hf2. split_and!; [f_equal; lia | done | by trans q1 | congruence].
Qed.

(** A flush never changes what the segments hold. *)
Lemma flush_same_logs (q q' : MappedFileQueue) (ok b : bool) (now pages : Z) :
  flush ok now pages q = Done (q', b) → same_logs q q'.
Proof.
  unfold flush. intros H. apply obind_done in H as ([i |] & _ & H).
  2: { apply done_inj in H. by injection H as -> _. }
  apply obind_done in H as (m & Hm & H). apply obind_done in H as ([m' o] & Hf & H).
  assert (Hs : same_log m m').
  { unfold mf_flush in Hf. destruct (is_able_to_flush pages m); [| by injection Hf as <- _].
    pose proof (mf_hold_same m) as (E1 & E2 & E3 & E4 & _).
    destruct (mf_hold m) as [mh [|]]; cbn [fst] in *.
    - destruct (transient_store_pool _); [done |]. injection Hf as <- _.
      destruct ok; by split_and!.
    - injection Hf as <- _. by split_and!. }
  apply done_inj in H. injection H as <- _.
  assert (Hl : Forall2 same_log (mapped_files q) (<[i := m']> (mapped_files q))).
  { destruct (mapped_files q !! i) as [m0 |] eqn:E; [| done]. cbn in Hm. injection Hm as ->.
    rewrite <- (list_insert_id _ _ _ E) at 1. by apply Forall2_insert. }
  destruct (pages =? 0); by split.
Qed.

(** flushing makes progress segment by segment: in a queue whose segments
    but the last are full, as many flushes as there are segments bring the
    flushed offset to the end of the log, wherever it was, without changing a
    stored byte, and from then on flushing reports that nothing is left. *)
Theorem flush_reaches_end (q : MappedFileQueue) (ok : bool) (now : Z) (n : nat) :
  dense q → mapped_files q ≠ [] →
  flushed_where q = 0 ∨ base_of (mapped_files q) ≤ flushed_where q ≤ get_max_offset q →
  (length (mapped_files q) ≤ n)%nat →
  ∃ q', flush_n n ok now q = Done q' ∧ same_logs q q' ∧
    get_flushed_where q' = get_max_offset q' ∧ get_max_offset q' = get_max_offset q ∧
    ∃ q'', flush ok now 0 q' = Done (q'', true).
Proof.
  intros Hd Hne Hw Hn. destruct (max_offset_end q (d_ok _ Hd)) as [Hm Hr]. rewrite Hm in *.
  destruct (flush_n_end q ok now n Hd Hne Hw Hn) as (q' & Hf & Hd' & Hs' & Hw').
  destruct (max_offset_end q' (d_ok _ Hd')) as [Hm' _].
  pose proof (same_logs_end _ _ Hs') as He. pose proof (same_logs_length _ _ Hs') as Hl.
  specialize (Hr Hne). exists q'. split_and!; try done.
  - rewrite get_flushed_where_id; [congruence | lia].
  - congruence.
  - destruct (flush_stable q' ok now Hd') as (q'' & Hf'' & _); [| congruence | by exists q''].
    intros E. rewrite E in Hl. by destruct (mapped_files q).
Qed.

Lemma flush_reaches_end_witness :
  ∃ q', flush_n 3 true 9 sample_queue = Done q' ∧ same_logs sample_queue q' ∧
    get_flushed_where q' = get_max_offset q' ∧
    get_max_offset q' = get_max_offset sample_queue ∧
    ∃ q'', flush true 9 0 q' = Done (q'', true).
Proof.
  apply (flush_reaches_end sample_queue true 9 3); [| done | by left | simpl; lia].
  constructor; [apply sample_queue_ok | |].
  - repeat (apply Forall_cons_2 || apply Forall_nil_2); (split; [done |]; by exists O).
  - intros i m H Hi. do 2 (destruct i as [| i]; [by injection H as <- |]). simpl in Hi. lia.
Defined.

(** ** Truncating *)

Lemma truncate_lookup (disk : nat → bool * Z) (offset : Z) (q : MappedFileQueue) (i : nat)
    (m : DefaultMappedFile) :
  mapped_files q !! i = Some m →
  mapped_files (truncate_dirty_files disk offset q) !! i =
  Some (truncate_file (mapped_file_size q) offset (disk i) m).
Proof. intros H. cbn. by rewrite list_lookup_imap, H. Qed.

Lemma truncate_length (disk : nat → bool * Z) (offset : Z) (q : MappedFileQueue) :
  length (mapped_files (truncate_dirty_files disk offset q)) = length (mapped_files q).
Proof. cbn. apply length_imap. Qed.

Lemma destroy_same (ok : bool) (now interval : Z) (m : DefaultMappedFile) :
  same_file m (destroy ok now interval m).1.
Proof. unfold destroy. destruct (is_cleanup_over _); [| done]. by destruct ok. Qed.

(** What truncation does to a segment before, around and after the offset. *)
Lemma truncate_file_cases (q : MappedFileQueue) (disk : bool * Z) (offset : Z) (i : nat)
    (m : DefaultMappedFile) :
  queue_ok q → mapped_files q !! i = Some m → 0 ≤ offset →
  let sz := mapped_file_size q in let m' := truncate_file sz offset disk m in
  (file_from_offset m + sz ≤ offset → m' = m) ∧
  (file_from_offset m ≤ offset < file_from_offset m + sz →
     file_from_offset m' = file_from_offset m ∧ mmapped_file m' = mmapped_file m ∧
     file_from_offset m' + wrote_position m' = offset ∧
     file_from_offset m' + flushed_position m' = offset) ∧
  (offset < file_from_offset m → same_file m m').
Proof.
  intros Hq Hm H0 sz m'. pose proof (ok_lookup q Hq _ _ Hm) as (Hwf & Hs & Hf & Hf0 & Hf1).
  destruct (ok_cast q Hq _ _ Hm) as [Hc1 Hc2]. pose proof (q_size _ Hq) as Hsz. unfold m', sz.
  unfold truncate_file. unfold i64_MAX, i32_MAX in *.
  rewrite (as_u64_id (file_from_offset m + _)) by in_range. rewrite Hc1, Hc2, (sz_i64 q Hq).
  split_and!.
  - intros Hb. by rewrite (proj2 (Z.ltb_ge _ _)) by lia.
  - intros Hin. rewrite (proj2 (Z.ltb_lt _ _)), (proj2 (Z.leb_le _ _)) by lia.
    assert (Hr : as_i32 (rrem offset (mapped_file_size q)) = offset - file_from_offset m).
    { unfold rrem. rewrite Z.rem_mod_nonneg by lia. destruct (q_aligned _ Hq) as [k Hk].
      rewrite (Z.mod_eq offset (mapped_file_size q)) by lia.
      replace (offset / mapped_file_size q) with (k + Z.of_nat i).
      - replace (offset - mapped_file_size q * (k + Z.of_nat i))
          with (offset - file_from_offset m) by lia. apply as_i32_id. in_range.
      - apply Z.div_unique with (offset - file_from_offset m); lia. }
    rewrite Hr. cbn. split_and!; first [done | lia].
  - intros Ha. rewrite (proj2 (Z.ltb_lt _ _)), (proj2 (Z.leb_gt _ _)) by lia.
    apply destroy_same.
Qed.

(** truncating to an offset sets the end of the segment that holds it and
    keeps the segments before it.  The segments after it are destroyed but
    never taken out of the queue, so unless the offset lies in the last
    segment, the queue still reports the end it had before. *)
Theorem truncate_dirty_files_spec (disk : nat → bool * Z) (q : MappedFileQueue) (offset : Z)
    (i : nat) (m : DefaultMappedFile) :
  queue_ok q → mapped_files q !! i = Some m →
  0 ≤ offset → file_from_offset m ≤ offset < file_from_offset m + mapped_file_size q →
  let q' := truncate_dirty_files disk offset q in
  take i (mapped_files q') = take i (mapped_files q) ∧
  (∃ m', mapped_files q' !! i = Some m' ∧ file_from_offset m' + wrote_position m' = offset) ∧
  length (mapped_files q') = length (mapped_files q) ∧
  get_max_offset q' =
    (if decide (S i = length (mapped_files q)) then offset else get_max_offset q).
Proof.
  intros Hq Hm H0 Hin q'. unfold q'.
  pose proof (truncate_file_cases q (disk i) offset i m Hq Hm H0) as (_ & Hmid & _).
  destruct (Hmid Hin) as (Hmf & _ & Hend & _). clear Hmid.
  pose proof (q_size _ Hq). pose proof (ok_lookup q Hq _ _ Hm) as (_ & _ & Hf & Hf0 & Hf1).
  split_and!.
  - apply list_eq. intros j. destruct (decide (j < i)%nat) as [Hj | Hj].
    + rewrite !lookup_take_lt by done.
      destruct (lookup_lt_is_Some_2 (mapped_files q) j) as [x Hx].
      { pose proof (lookup_lt_Some _ _ _ Hm). lia. }
      rewrite (truncate_lookup _ _ _ _ _ Hx), Hx. f_equal.
      pose proof (ok_lookup q Hq _ _ Hx) as (_ & _ & Hxf & _ & _).
      apply (truncate_file_cases q (disk j) offset j x Hq Hx H0). nia.
    + by rewrite !lookup_take_ge by lia.
  - eexists. split; [by apply truncate_lookup | done].
  - apply truncate_length.
  - unfold get_max_offset, get_read_position. rewrite !last_lookup, truncate_length.
    pose proof (lookup_lt_Some _ _ _ Hm) as Hi. destruct (decide _) as [Hlast | Hmore].
    + replace (pred (length (mapped_files q))) with i by lia.
      rewrite (truncate_lookup _ _ _ _ _ Hm), Hmf. destruct (ok_cast q Hq _ _ Hm) as [-> _].
      rewrite Hmf in Hend. unfold i64_MAX in *. rewrite Hend, as_i64_id by in_range. done.
    + destruct (lookup_lt_is_Some_2 (mapped_files q) (pred (length (mapped_files q))))
        as [l Hl]; [lia |].
      rewrite (truncate_lookup _ _ _ _ _ Hl), Hl.
      pose proof (ok_lookup q Hq _ _ Hl) as (_ & _ & Hlf & _ & _).
      destruct (truncate_file_cases q (disk (pred (length (mapped_files q)))) offset _ l Hq Hl H0)
        as (_ & _ & Haft). destruct Haft as (-> & _ & _ & -> & _); [nia | done].
Qed.

Lemma truncate_dirty_files_spec_witness :
  let q' := truncate_dirty_files (λ _, (true, 0)) 40 sample_queue in
  take 0 (mapped_files q') = [] ∧
  (∃ m', mapped_files q' !! 0%nat = Some m' ∧ file_from_offset m' + wrote_position m' = 40) ∧
  length (mapped_files q') = 3%nat ∧
  get_max_offset q' = (if decide (1 = 3)%nat then 40 else get_max_offset sample_queue).
Proof.
  apply (truncate_dirty_files_spec (λ _, (true, 0)) sample_queue 40 0 (segment 32 16));
    [apply sample_queue_ok | done | lia | simpl; lia].
Defined.

(** ** Loading *)

Lemma bytes_cmp_app (a b a' b' : buffer) :
  length a = length b →
  bytes_cmp (a ++ a') (b ++ b') =
  match bytes_cmp a b with Eq => bytes_cmp a' b' | c => c end.
Proof.
  revert b. induction a as [| x a IH]; intros [| y b] H; try done. simpl.
  destruct (byte.unsigned x ?= byte.unsigned y); [| done..]. apply IH. simpl in H. lia.
Qed.

(** Zero-padded names sort like the numbers they denote. *)
Lemma bytes_cmp_digits (n : nat) (a b : Z) :
  0 ≤ a < 10 ^ Z.of_nat n → 0 ≤ b < 10 ^ Z.of_nat n →
  bytes_cmp (dec_digits n a) (dec_digits n b) = (a ?= b).
Proof.
  revert a b. induction n as [| n IH]; intros a b Ha Hb.
  - simpl in *. symmetry. apply Z.compare_eq_iff. lia.
  - rewrite Nat2Z.inj_succ, Z.pow_succ_r in Ha, Hb by lia. cbn [dec_digits].
    rewrite bytes_cmp_app by (by rewrite !dec_digits_length).
    pose proof (Z.div_mod a 10 ltac:(lia)) as Da. pose proof (Z.div_mod b 10 ltac:(lia)) as Db.
    pose proof (Z.mod_pos_bound a 10 ltac:(lia)). pose proof (Z.mod_pos_bound b 10 ltac:(lia)).
    rewrite IH by (split; [apply Z.div_pos; lia | apply Z.div_lt_upper_bound; lia]).
    cbn [bytes_cmp]. rewrite !digit_unsigned by lia.
    destruct (Z.compare_spec (a / 10) (b / 10)).
    + destruct (Z.compare_spec (48 + a mod 10) (48 + b mod 10)); symmetry.
      * apply Z.compare_eq_iff. lia.
      * apply Z.compare_lt_iff. lia.
      * apply Z.compare_gt_iff. lia.
    + symmetry. apply Z.compare_lt_iff. lia.
    + symmetry. apply Z.compare_gt_iff. lia.
Qed.

Lemma file_name_cmp (a b : Z) :
  in_u 64 a → in_u 64 b →
  bytes_cmp (str_bytes (offset_to_file_name a)) (str_bytes (offset_to_file_name b)) = (a ?= b).
Proof.
  intros Ha Hb. unfold offset_to_file_name. rewrite !str_bytes_str.
  apply bytes_cmp_digits; change (Z.of_nat 20) with 20; in_range.
Qed.

Lemma bytes_cmp_opp (a b : buffer) : bytes_cmp b a = CompOpp (bytes_cmp a b).
Proof.
  revert b. induction a as [| x a IH]; intros [| y b]; try done. simpl.
  rewrite Z.compare_antisym. destruct (byte.unsigned x ?= byte.unsigned y); simpl; auto.
Qed.

Lemma bytes_cmp_trans (a b c : buffer) :
  bytes_cmp a b ≠ Gt → bytes_cmp b c ≠ Gt → bytes_cmp a c ≠ Gt.
Proof.
  revert b c. induction a as [| x a IH]; intros [| y b] [| z c]; try done. simpl.
  destruct (Z.compare_spec (byte.unsigned x) (byte.unsigned y)) as [-> | H1 | H1]; try done.
  - intros Hab. destruct (_ ?= _); [by apply IH | done..].
  - intros _. destruct (Z.compare_spec (byte.unsigned y) (byte.unsigned z)) as [<- | H2 | H2];
      try done; intros _; rewrite (proj2 (Z.compare_lt_iff _ _)); (done || lia).
Qed.

#[export] Instance name_le_total : Total name_le.
Proof.
  intros a b. unfold name_le. rewrite (bytes_cmp_opp (str_bytes (e_name a))).
  destruct (bytes_cmp _ _); simpl; auto.
Qed.
#[export] Instance name_le_trans : Transitive name_le.
Proof. intros a b c. apply bytes_cmp_trans. Qed.

(** The directory entry of a stored segment. *)
Definition entry_of (m : DefaultMappedFile) : dir_entry :=
  mkEntry (offset_to_file_name (file_from_offset m)) true false (mmapped_file m).

Lemma entry_le (m m' : DefaultMappedFile) :
  wf_mf m → wf_mf m' →
  name_le (entry_of m) (entry_of m') ↔ file_from_offset m ≤ file_from_offset m'.
Proof.
  intros [] []. unfold name_le, entry_of. cbn [e_name]. unfold i64_MAX in *.
  rewrite file_name_cmp by in_range. done.
Qed.

Lemma chain_sorted (sz base : Z) (ms : list DefaultMappedFile) :
  0 < sz → Forall wf_mf ms → chain sz base ms → StronglySorted name_le (entry_of <$> ms).
Proof.
  intros Hsz. revert base. induction ms as [| m ms IH]; intros base Hwf Hc; [constructor |].
  apply Forall_cons_1 in Hwf as [Hm Hms]. destruct Hc as [Hf Hc].
  constructor; [by apply (IH (base + sz)) |]. apply Forall_fmap.
  apply Forall_lookup_2. intros i x Hx. cbn. apply entry_le; [done | |].
  - by apply (Forall_lookup_1 _ _ _ _ Hms Hx).
  - rewrite (chain_lookup _ _ _ _ _ Hc Hx). nia.
Qed.

Lemma chain_inj (sz base : Z) (ms : list DefaultMappedFile) (m m' : DefaultMappedFile) :
  0 < sz → chain sz base ms → m ∈ ms → m' ∈ ms →
  file_from_offset m = file_from_offset m' → m = m'.
Proof.
  intros Hsz Hc [i Hi]%list_elem_of_lookup [j Hj]%list_elem_of_lookup He.
  rewrite (chain_lookup _ _ _ _ _ Hc Hi), (chain_lookup _ _ _ _ _ Hc Hj) in He.
  assert (i = j) as -> by nia. congruence.
Qed.

Lemma sort_entries (sz base : Z) (ms : list DefaultMappedFile) (dir : list dir_entry) :
  0 < sz → Forall wf_mf ms → chain sz base ms → dir ≡ₚ entry_of <$> ms →
  merge_sort name_le dir = entry_of <$> ms.
Proof.
  intros Hsz Hwf Hc Hp. eapply (StronglySorted_unique_strong name_le).
  - intros x y Hx Hy Hxy Hyx. rewrite merge_sort_Permutation, Hp in Hx.
    apply list_elem_of_fmap in Hx as (mx & -> & Hmx). apply list_elem_of_fmap in Hy as (my & -> & Hmy).
    rewrite Forall_forall in Hwf. apply entry_le in Hxy; [| auto..]. apply entry_le in Hyx; [| auto..].
    f_equal. apply (chain_inj sz base ms); (done || lia).
  - apply StronglySorted_merge_sort; apply _.
  - by apply (chain_sorted sz base).
  - by rewrite merge_sort_Permutation.
Qed.

(** A segment as loading it from its file leaves it. *)
Definition reloaded (m m' : DefaultMappedFile) : Prop :=
  wf_mf m' ∧ file_size m' = file_size m ∧ file_from_offset m' = file_from_offset m ∧
  mmapped_file m' = mmapped_file m ∧ is_full m' = true ∧
  flushed_position m' = file_size m ∧ committed_position m' = file_size m ∧
  first_create_in_queue m' = false ∧ reference_resource m' = new.

Lemma load_one (m : DefaultMappedFile) :
  wf_mf m →
  ∃ m0, new_mapped_file (e_name (entry_of m)) (file_size m) (e_contents (entry_of m)) = Done m0 ∧
        reloaded m (loaded_file (file_size m) m0).
Proof.
  intros Hwf. destruct Hwf as [Hm Hs Hf Hp]. unfold i64_MAX, i32_MAX in *.
  unfold new_mapped_file, entry_of. cbn [e_name e_contents].
  rewrite parse_file_name by in_range. cbn [obind]. eexists. split; [reflexivity |].
  assert (Hmem : take (Z.to_nat (file_size m)) (mmapped_file m) ++
    replicate (Z.to_nat (file_size m) - length (mmapped_file m)) Byte.x00 = mmapped_file m).
  { rewrite take_ge by lia. replace (_ - _)%nat with O by lia. apply app_nil_r. }
  unfold reloaded, loaded_file. cbn. rewrite Hmem, (as_i32_id (file_size m)) by in_range.
  split_and!; try done.
  - constructor; cbn; unfold i64_MAX, i32_MAX; (done || lia).
  - unfold is_full. cbn. rewrite as_u64_id by in_range. apply Z.eqb_refl.
Qed.

Lemma load_loop (ms : list DefaultMappedFile) (n i : nat) (q : MappedFileQueue) :
  Forall (λ m, wf_mf m ∧ file_size m = mapped_file_size q) ms →
  ∃ ms', do_load_loop n i (entry_of <$> ms) q [] =
           Done (set_mapped_files (mapped_files q ++ ms') q, [], true) ∧
         Forall2 reloaded ms ms'.
Proof.
  revert i q. induction ms as [| m ms IH]; intros i q Hms.
  - exists []. cbn. rewrite app_nil_r. by destruct q.
  - apply Forall_cons_1 in Hms as [[Hwf Hs] Hms]. cbn [fmap list_fmap do_load_loop].
    change (e_metadata (entry_of m)) with true. change (e_is_dir (entry_of m)) with false.
    assert (Hl := mf_mem _ Hwf). assert (Hsz := mf_size _ Hwf).
    change (mmapped_file m) with (e_contents (entry_of m)) in Hl. cbn [negb].
    rewrite Hl, (proj2 (Z.eqb_neq _ 0)), <- Hs, Z.eqb_refl by lia. cbn [andb negb].
    destruct (load_one m Hwf) as (m0 & Hn & Hr). rewrite Hn. cbn [obind].
    destruct (IH (S i) (set_mapped_files (mapped_files q ++ [loaded_file (file_size m) m0]) q))
      as (ms' & He & Hf); [done |].
    exists (loaded_file (file_size m) m0 :: ms'). split; [| by constructor].
    rewrite He. cbn. by rewrite <- (assoc_L (++)).
Qed.

Lemma reloaded_chain (sz base : Z) (ms ms' : list DefaultMappedFile) :
  Forall2 reloaded ms ms' → chain sz base ms → chain sz base ms'.
Proof.
  intros H. revert base. induction H as [| m m' ms ms' Hr H IH]; intros base; [done |].
  intros [Hf Hc]. destruct Hr as (_ & _ & Hf' & _). split; [congruence | by apply IH].
Qed.

Lemma load_restores (q saved : MappedFileQueue) (dir : list dir_entry) :
  queue_ok saved → mapped_files q = [] → mapped_file_size q = mapped_file_size saved →
  allocate_mapped_file_service q = false →
  dir ≡ₚ entry_of <$> mapped_files saved →
  ∃ q', load (Some (Some <$> dir)) q = Done (q', [], true) ∧ queue_ok q' ∧
        mapped_file_size q' = mapped_file_size q ∧
        Forall2 reloaded (mapped_files saved) (mapped_files q').
Proof.
  intros Hq He Hsz Hsv Hp. destruct Hq. unfold load, do_load.
  assert (Ho : omap id (Some <$> dir) = dir)
    by (clear; induction dir as [| d dir IH]; [done | cbn; by rewrite IH]).
  assert (Hwf : Forall wf_mf (mapped_files saved))
    by (eapply Forall_impl; [done |]; by intros ? [? ?]).
  rewrite Ho, (sort_entries _ _ _ _ (proj1 q_size0) Hwf q_chain0 Hp).
  destruct (load_loop (mapped_files saved) (length dir) 0 q) as (ms' & -> & Hf);
    [by rewrite Hsz |].
  eexists. split; [done |]. rewrite He. cbn. split; [| done].
  assert (Hb : base_of ms' = base_of (mapped_files saved)).
  { destruct Hf as [| m m' ms ms' Hr _]; [done |]. by destruct Hr as (_ & _ & ? & _). }
  constructor; cbn; rewrite ?Hb, ?Hsz; try done.
  - apply Forall_lookup_2. intros i m' Hm'.
    destruct (Forall2_lookup_r _ _ _ _ _ Hf Hm') as (m & Hm & Hr).
    destruct (Forall_lookup_1 _ _ _ _ q_files0 Hm) as [_ Hs].
    destruct Hr as (? & Hs' & _). split; [done | congruence].
  - by eapply reloaded_chain.
Qed.

(** opening the directory of a queue restores it: whatever order the
    files are listed in, loading succeeds and gives the segments back in offset
    order, with their contents, marked full and flushed. *)
Theorem do_load_restores (q saved : MappedFileQueue) (dir : list dir_entry) :
  queue_ok saved → mapped_files q = [] → mapped_file_size q = mapped_file_size saved →
  allocate_mapped_file_service q = false →
  dir ≡ₚ entry_of <$> mapped_files saved →
  ∃ q', load (Some (Some <$> dir)) q = Done (q', [], true) ∧ queue_ok q' ∧
        Forall2 reloaded (mapped_files saved) (mapped_files q').
Proof.
  intros Hq He Hsz Hsv Hp.
  destruct (load_restores q saved dir Hq He Hsz Hsv Hp) as (q' & Hl & Hq' & _ & Hr). eauto.
Qed.

Lemma do_load_restores_witness :
  let dir := entry_of <$> [segment 64 5; segment 32 16; segment 48 16] in
  ∃ q', load (Some (Some <$> dir)) (new_queue "store" 16 false) = Done (q', [], true) ∧
        queue_ok q' ∧ Forall2 reloaded (mapped_files sample_queue) (mapped_files q').
Proof.
  apply (do_load_restores (new_queue "store" 16 false) sample_queue); try done.
  - apply sample_queue_ok.
  - apply fmap_Permutation. apply (Permutation_app_comm [segment 64 5] [segment 32 16; segment 48 16]).
Defined.
