(* ===== verification/Hasher.v ===== *)
(** * Hasher: Java's string hash ([string_hasher.rs])

    The hash runs over the characters of a string, that is over the code
    points its UTF-8 bytes encode. *)

From stdpp Require Import base list strings.
From coqutil Require Import Byte.
From Stdlib Require Import ZArith Lia.
From S2P Require Import Prelude Bytes Utf8.
Open Scope Z_scope.

(** The code point of one well-formed character. *)
Definition code_point (bs : buffer) : Z :=
  match byte.unsigned <$> bs with
  | [a] => a
  | [a; b] => Z.land a 31 * 64 + Z.land b 63
  | [a; b; c] => Z.land a 15 * 4096 + Z.land b 63 * 64 + Z.land c 63
  | [a; b; c; d] => Z.land a 7 * 262144 + Z.land b 63 * 4096 + Z.land c 63 * 64 + Z.land d 63
  | _ => 0
  end.

(** [str::chars]; a [str] is well-formed UTF-8. *)
Fixpoint chars_fuel (fuel : nat) (bs : buffer) : list Z :=
  match fuel with
  | O => []
  | S f =>
      match utf8_step bs with
      | Some (Char n) => code_point (take n bs) :: chars_fuel f (drop n bs)
      | _ => []
      end
  end.
Definition chars (s : string) : list Z := chars_fuel (length (str_bytes s)) (str_bytes s).

Definition hash_str (s : string) : Z :=
  fold_left (λ state c, as_i32 (as_i32 (state * 31) + as_i32 c)) (chars s) 0.

(** The vectors of the source's tests. *)
Example hash_hello : hash_str "hello" = 99162322.
Proof. reflexivity. Qed.
Example hash_special : hash_str "!@#" = 33732.
Proof. reflexivity. Qed.

Lemma hash_str_range (s : string) : in_s 32 (hash_str s).
Proof.
  unfold hash_str. generalize (chars s). intros l.
  assert (H : in_s 32 0) by in_range. revert H. generalize 0.
  induction l as [| c l IH]; intros z Hz; [done |]. apply IH.
  apply (wrap_s_range 32). lia.
Qed.
