(* ===== verification/MessageUtils.v ===== *)
(** * MessageUtils: removing a property from a property string
    ([delete_property] of [message_utils.rs])

    The source finds the name by its byte index and then looks at the
    characters around it by the same index taken as a character index.  The two
    agree on ASCII text only. *)

From stdpp Require Import base list strings sets.
From coqutil Require Import Byte.
From Stdlib Require Import ZArith Lia.
From S2P Require Import Prelude Bytes Utf8 Properties Hasher.
Open Scope Z_scope.
Open Scope rmq_scope.

Fixpoint starts_with (name s : buffer) : bool :=
  match name, s with
  | [], _ => true
  | a :: name', b :: s' => bool_decide (a = b) && starts_with name' s'
  | _, _ => false
  end.
(** [str::find] *)
Fixpoint find_sub (name s : buffer) : option nat :=
  if starts_with name s then Some O
  else match s with [] => None | _ :: s' => S <$> find_sub name s' end.

Section Delete.
Variables (s name : string).
Let bs := str_bytes s.
Let nm := str_bytes name.

(** The name found at byte [idx1] is a whole name. *)
Definition is_name_at (idx1 : nat) : bool :=
  ((idx1 =? 0)%nat
   || bool_decide (chars s !! (idx1 - 1)%nat = Some (byte.unsigned PROPERTY_SEPARATOR)))
  && (idx1 + length nm <? length bs)%nat
  && bool_decide (chars s !! (idx1 + length nm)%nat = Some (byte.unsigned NAME_VALUE_SEPARATOR)).

(** The inner loop; the outer option is [None] when the fuel runs out. *)
Fixpoint find_name (fuel start_idx : nat) : option (option nat) :=
  match fuel with
  | O => None
  | S fuel' =>
      match find_sub nm (drop start_idx bs) with
      | None => Some None
      | Some i =>
          let idx1 := (i + start_idx)%nat in
          if is_name_at idx1 then Some (Some idx1)
          else find_name fuel' (idx1 + length nm)
      end
  end.

Fixpoint crop_loop (fuel idx0 : nat) (builder : buffer) : option buffer :=
  match fuel with
  | O => None
  | S fuel' =>
      match find_name (S (length bs)) idx0 with
      | None => None
      | Some None => Some (builder ++ drop idx0 bs)
      | Some (Some idx1) =>
          let builder := builder ++ slice bs idx0 idx1 in
          match find_sub [PROPERTY_SEPARATOR] (drop (idx1 + length nm + 1) bs) with
          | None => Some builder
          | Some i => crop_loop fuel' (i + idx1 + length nm + 1 + 1) builder
          end
      end
  end.
End Delete.

(** [None] when the fuel runs out. *)
Definition delete_property (s name : string) : option string :=
  if decide (s = "") then Some s
  else
    match find_sub (str_bytes name) (str_bytes s) with
    | Some _ => bytes_str <$> crop_loop s name (S (length (str_bytes s))) 0 []
    | None => Some s
    end.

(** The fuel of [delete_property] is enough for a name that is not empty. *)
Lemma find_sub_in (nm bs : buffer) (i : nat) :
  find_sub nm bs = Some i → (i + length nm ≤ length bs)%nat.
Proof.
  revert i. induction bs as [| b bs IH]; intros i; cbn [find_sub].
  - destruct nm; [| done]. intros [= <-]. done.
  - destruct (starts_with nm (b :: bs)) eqn:E.
    + intros [= <-]. clear IH. revert E. generalize (b :: bs) as l. induction nm as [| a nm IH];
        intros [| c l]; cbn; try done; try (intros _; lia).
      intros [_ H]%andb_true_iff. specialize (IH _ H). lia.
    + intros (j & Hj & ->)%fmap_Some. specialize (IH _ Hj). cbn. lia.
Qed.

Lemma delete_property_total (s name : string) :
  name ≠ ""%string → is_Some (delete_property s name).
Proof.
  intros Hn. assert (0 < length (str_bytes name))%nat as Hl.
  { destruct (str_bytes name) eqn:E; [by apply str_bytes_nil in E | cbn; lia]. }
  assert (Hfind : ∀ fuel i, (length (str_bytes s) < fuel + i)%nat → (0 < fuel)%nat →
    ∃ r, find_name s name fuel i = Some r ∧ ∀ j, r = Some j → (i ≤ j)%nat).
  { induction fuel as [| fuel IH]; intros i Hf H0; [lia |]. cbn [find_name].
    destruct (find_sub _ _) as [k |] eqn:E; [| by eexists].
    apply find_sub_in in E. rewrite length_drop in E.
    destruct (is_name_at s name (k + i)).
    - eexists. split; [done |]. intros j [= <-]. lia.
    - destruct (IH (k + i + length (str_bytes name))%nat) as (r & -> & Hr); [lia | lia |].
      eexists. split; [done |]. intros j Hj. specialize (Hr _ Hj). lia. }
  assert (Hcrop : ∀ fuel i acc, (length (str_bytes s) < fuel + i)%nat → (0 < fuel)%nat →
    is_Some (crop_loop s name fuel i acc)).
  { induction fuel as [| fuel IH]; intros i acc Hf H0; [lia |]. cbn [crop_loop].
    destruct (Hfind (S (length (str_bytes s))) i) as (r & -> & Hr); [lia | lia |].
    destruct r as [j |]; [| done]. specialize (Hr _ eq_refl).
    destruct (find_sub _ _) as [k |] eqn:E; [| done].
    apply find_sub_in in E. rewrite length_drop in E. cbn in E. apply IH; lia. }
  unfold delete_property. destruct (decide _); [done |].
  destruct (find_sub _ _); [| done]. apply fmap_is_Some. apply Hcrop; lia.
Qed.

Example delete_middle :
  delete_property (message_properties_to_string [("a", "1"); ("crc", "2"); ("b", "crc")]) "crc" =
  Some (message_properties_to_string [("a", "1"); ("b", "crc")]).
Proof. vm_compute. reflexivity. Qed.
Example delete_every :
  delete_property (message_properties_to_string [("crc", "1"); ("xcrc", "2"); ("crc", "3")]) "crc" =
  Some (message_properties_to_string [("xcrc", "2")]).
Proof. vm_compute. reflexivity. Qed.

(** ** Searching *)

Lemma starts_with_spec (n s : buffer) : starts_with n s = true ↔ ∃ t, s = n ++ t.
Proof.
  revert s. induction n as [| a n IH]; intros s; cbn.
  - split; [by exists s | done].
  - destruct s as [| b s]; [split; [done | by intros [? ?]] |].
    rewrite andb_true_iff, bool_decide_eq_true, IH. split.
    + intros [-> [t ->]]. by exists t.
    + intros [t [= -> ->]]. split; [done | by exists t].
Qed.

Lemma find_sub_spec (n s : buffer) :
  match find_sub n s with
  | Some i => (i ≤ length s)%nat ∧ starts_with n (drop i s) = true ∧
              ∀ j, (j < i)%nat → starts_with n (drop j s) = false
  | None => ∀ j, starts_with n (drop j s) = false
  end.
Proof.
  induction s as [| b s IH]; cbn [find_sub].
  - destruct (starts_with n []) eqn:E; [split_and!; [lia | done | lia] |].
    intros j. by rewrite drop_nil.
  - destruct (starts_with n (b :: s)) eqn:E; [split_and!; [cbn; lia | done | lia] |].
    destruct (find_sub n s) as [i |]; cbn.
    + destruct IH as (H1 & H2 & H3). split_and!; [lia | done |].
      intros [| j] Hj; [done | apply H3; lia].
    + intros [| j]; [done | apply IH].
Qed.

Lemma find_sub_byte (c : byte) (v t : buffer) :
  c ∉ v → find_sub [c] (v ++ c :: t) = Some (length v).
Proof.
  induction v as [| x v IH]; cbn.
  - intros _. by rewrite bool_decide_true.
  - intros [Hx Hv]%not_elem_of_cons. rewrite bool_decide_false by done. cbn. by rewrite IH.
Qed.

(** ASCII text: characters are bytes. *)
Definition ascii_text (bs : buffer) : Prop := Forall (λ b, byte.unsigned b < 128) bs.

Lemma chars_ascii (s : string) :
  ascii_text (str_bytes s) → chars s = byte.unsigned <$> str_bytes s.
Proof.
  unfold chars. generalize (str_bytes s). intros bs H.
  induction H as [| b bs Hb H IH]; [done |]. cbn [length chars_fuel].
  assert (Hs : utf8_step (b :: bs) = Some (Char 1)).
  { unfold utf8_step, lead_len. by rewrite (proj2 (Z.leb_le _ _)) by lia. }
  rewrite Hs. change (drop 1 (b :: bs)) with (drop 0 bs). rewrite drop_0, IH. reflexivity.
Qed.

(** ** Deleting from a printed list of properties *)

Definition bytes_of (es : list (string * string)) : buffer := concat (entry_bytes <$> es).

Section Spec.
Variables (entries : list (string * string)) (name : string).
Let s := message_properties_to_string entries.
Let nm := str_bytes name.
Hypothesis Hascii : ascii_text (str_bytes s).
Hypothesis Hsep : Forall sep_free entries.
Hypothesis Hname : name ≠ ""%string.
Hypothesis Hname_sep : no_byte NAME_VALUE_SEPARATOR name ∧ no_byte PROPERTY_SEPARATOR name.

Lemma s_bytes : str_bytes s = bytes_of entries.
Proof. unfold s, message_properties_to_string. apply str_bytes_str. Qed.

(** A whole name starts at byte [j]. *)
Definition name_at (j : nat) : Prop :=
  starts_with nm (drop j (str_bytes s)) = true ∧ is_name_at s name j = true.

Lemma is_name_at_bytes (j : nat) :
  is_name_at s name j = true ↔
  (j = 0%nat ∨ str_bytes s !! (j - 1)%nat = Some PROPERTY_SEPARATOR) ∧
  str_bytes s !! (j + length nm)%nat = Some NAME_VALUE_SEPARATOR.
Proof.
  unfold is_name_at. fold nm. rewrite (chars_ascii s Hascii), !list_lookup_fmap.
  assert (Hu : ∀ (x : option byte) b, byte.unsigned <$> x = Some (byte.unsigned b) ↔ x = Some b).
  { intros [x |] b; cbn; [| done]. split; [| by intros [= ->]].
    intros [= Hx]. f_equal. by apply byte.unsigned_inj. }
  rewrite !andb_true_iff, orb_true_iff, !bool_decide_eq_true, Nat.eqb_eq, Nat.ltb_lt.
  setoid_rewrite Hu. split; [tauto |]. intros [H1 H2]. split_and!; try done.
  by apply lookup_lt_Some in H2.
Qed.

(** Inside an entry no name starts. *)
Lemma nm_nonempty : nm ≠ [].
Proof. unfold nm. by intros ?%str_bytes_nil. Qed.

Lemma name_at_step (i j : nat) :
  starts_with nm (drop i (str_bytes s)) = true → (i < j < i + length nm)%nat → ¬ name_at j.
Proof.
  intros Hi Hj [_ Hn]. apply is_name_at_bytes in Hn as [[-> | Hp] _]; [lia |].
  apply starts_with_spec in Hi as [t Ht].
  assert (Hl : nm !! (j - 1 - i)%nat = Some PROPERTY_SEPARATOR).
  { rewrite <- (lookup_app_l nm t) by lia. rewrite <- Ht, lookup_drop. by rewrite <- Hp; f_equal; lia. }
  destruct Hname_sep as [_ Hs]. apply Hs. by eapply list_elem_of_lookup_2.
Qed.

Lemma find_name_spec (fuel start : nat) :
  (length (str_bytes s) < fuel + start)%nat → (start ≤ length (str_bytes s))%nat →
  match find_name s name fuel start with
  | None => False
  | Some None => ∀ j, (start ≤ j)%nat → ¬ name_at j
  | Some (Some i) => (start ≤ i)%nat ∧ name_at i ∧ ∀ j, (start ≤ j < i)%nat → ¬ name_at j
  end.
Proof.
  revert start. induction fuel as [| fuel IH]; intros start Hf Hs; [lia |].
  cbn [find_name]. fold nm.
  pose proof (find_sub_spec nm (drop start (str_bytes s))) as Hfs.
  destruct (find_sub nm (drop start (str_bytes s))) as [i |].
  - destruct Hfs as (_ & Hat & Hmin). rewrite drop_drop in Hat.
    replace (start + i)%nat with (i + start)%nat in Hat by lia.
    assert (Hbefore : ∀ j, (start ≤ j < i + start)%nat → ¬ name_at j).
    { intros j Hj [Hn _]. specialize (Hmin (j - start)%nat ltac:(lia)).
      rewrite drop_drop in Hmin. replace (start + (j - start))%nat with j in Hmin by lia. congruence. }
    destruct (is_name_at s name (i + start)) eqn:En.
    + split_and!; [lia | done | done].
    + assert (Hlen : (i + start + length nm ≤ length (str_bytes s))%nat).
      { apply starts_with_spec in Hat as [t Ht]. apply (f_equal length) in Ht.
        rewrite length_drop, length_app in Ht. pose proof nm_nonempty. destruct nm; [done |].
        cbn in *. lia. }
      assert (Hskip : ∀ j, (start ≤ j < i + start + length nm)%nat → ¬ name_at j).
      { intros j Hj. destruct (decide (j < i + start)%nat); [apply Hbefore; lia |].
        destruct (decide (j = (i + start)%nat)) as [-> | Hne].
        - intros [_ Hn]. congruence.
        - apply (name_at_step (i + start)); [done | lia]. }
      pose proof nm_nonempty as Hne. destruct nm as [| x nm'] eqn:Enm; [done |].
      specialize (IH (i + start + length (x :: nm'))%nat). cbn [length] in *.
      destruct (find_name _ _ _ _) as [[k |] |].
      * destruct IH as (H1 & H2 & H3); [lia | lia |]. split_and!; [lia | done |].
        intros j Hj. destruct (decide (j < i + start + S (length nm'))%nat);
          [apply Hskip; lia | apply H3; lia].
      * intros j Hj. destruct (decide (j < i + start + S (length nm'))%nat);
          [apply Hskip; lia | apply IH; lia].
      * apply IH; lia.
  - intros j Hj [Hn _]. specialize (Hfs (j - start)%nat). rewrite drop_drop in Hfs.
    replace (start + (j - start))%nat with j in Hfs by lia. congruence.
Qed.

Lemma bytes_of_app (a b : list (string * string)) : bytes_of (a ++ b) = bytes_of a ++ bytes_of b.
Proof. unfold bytes_of. by rewrite fmap_app, concat_app. Qed.

Lemma bytes_of_cons (e : string * string) (es : list (string * string)) :
  bytes_of (e :: es) = entry_bytes e ++ bytes_of es.
Proof. done. Qed.
Lemma entry_length (e : string * string) :
  length (entry_bytes e) = (length (str_bytes e.1) + length (str_bytes e.2) + 2)%nat.
Proof. unfold entry_bytes. rewrite !length_app. cbn [length]. rewrite ?length_app. cbn [length]. lia. Qed.

Lemma bytes_last (es : list (string * string)) :
  es ≠ [] → last (bytes_of es) = Some PROPERTY_SEPARATOR.
Proof.
  destruct es as [| e es _] using rev_ind; [done |]. intros _. rewrite bytes_of_app.
  unfold bytes_of at 2. cbn. unfold entry_bytes. rewrite app_nil_r, !app_assoc. apply last_snoc.
Qed.

(** Two names before the separator agree. *)
Lemma name_prefix (a b t u : buffer) (c : byte) :
  c ∉ a → c ∉ b → a ++ c :: t = b ++ c :: u → a = b.
Proof.
  revert b. induction a as [| x a IH]; intros [| y b] Ha Hb; cbn; intros Heq; simplify_eq.
  - done.
  - exfalso. apply Hb. by left.
  - exfalso. apply Ha. by left.
  - f_equal. apply (IH b); [| | done]; set_solver.
Qed.

Lemma name_at_start (pre r2 : list (string * string)) (e : string * string) :
  entries = pre ++ e :: r2 → name_at (length (bytes_of pre)) ↔ e.1 = name.
Proof.
  intros He.
  assert (Hb : str_bytes s = bytes_of pre ++ entry_bytes e ++ bytes_of r2).
  { rewrite s_bytes, He, bytes_of_app. done. }
  assert (Hse : sep_free e) by (rewrite He, Forall_app, Forall_cons in Hsep; tauto).
  destruct Hse as (Hk1 & _ & _). destruct Hname_sep as [Hn1 _].
  unfold name_at. rewrite is_name_at_bytes, Hb, drop_app_length, starts_with_spec.
  rewrite (lookup_app_r _ _ (length (bytes_of pre) + length nm)) by lia.
  replace (_ + _ - _)%nat with (length nm) by lia. unfold entry_bytes. rewrite <- !app_assoc. split.
  - intros [[t Ht] [_ Hc]]. rewrite Ht, lookup_app_r, Nat.sub_diag in Hc by lia.
    destruct t as [| c t]; [done |]. cbn in Hc. injection Hc as ->.
    rewrite <- (bytes_str_bytes e.1), <- (bytes_str_bytes name). f_equal. symmetry.
    by eapply (name_prefix nm).
  - intros <-. split_and!.
    + by eexists.
    + destruct pre as [| p0 pre0] eqn:Ep; [by left | right].
      pose proof (bytes_last (p0 :: pre0) ltac:(done)) as Hl. rewrite last_lookup in Hl.
      rewrite lookup_app_l; [by rewrite <- Hl; f_equal; lia |].
      apply lookup_lt_Some in Hl. lia.
    + by rewrite lookup_app_r, Nat.sub_diag by (unfold nm; lia).
Qed.

(** No name starts within an entry. *)
Lemma name_at_inside (pre r2 : list (string * string)) (e : string * string) (j : nat) :
  entries = pre ++ e :: r2 →
  (length (bytes_of pre) < j < length (bytes_of pre) + length (entry_bytes e))%nat → ¬ name_at j.
Proof.
  intros He Hj [_ Hn]. apply is_name_at_bytes in Hn as [[-> | Hp] _]; [lia |].
  assert (Hse : sep_free e) by (rewrite He, Forall_app, Forall_cons in Hsep; tauto).
  assert (Hb : str_bytes s = bytes_of pre ++ entry_bytes e ++ bytes_of r2)
    by (rewrite s_bytes, He, bytes_of_app; done).
  rewrite Hb in Hp. rewrite lookup_app_r in Hp by lia. rewrite lookup_app_l in Hp by lia.
  unfold entry_bytes in Hp, Hj.
  rewrite !app_assoc, lookup_app_l in Hp.
  - destruct Hse as (_ & H1 & H2). apply list_elem_of_lookup_2 in Hp.
    unfold no_byte in *. set_solver.
  - repeat (rewrite length_app in * || cbn [length] in *). lia.
Qed.

Lemma name_at_inv (pre rest : list (string * string)) (j : nat) :
  entries = pre ++ rest → (length (bytes_of pre) ≤ j)%nat → name_at j →
  ∃ r1 e r2, rest = r1 ++ e :: r2 ∧ e.1 = name ∧ j = length (bytes_of (pre ++ r1)).
Proof.
  revert pre. induction rest as [| e rest IH]; intros pre He Hj Hn.
  - destruct Hn as [Hn _]. apply starts_with_spec in Hn as [t Ht].
    rewrite s_bytes, He, app_nil_r, drop_ge in Ht by done. pose proof nm_nonempty.
    destruct nm; [done | done].
  - destruct (decide (j = length (bytes_of pre))) as [-> | Hne].
    + exists [], e, rest. rewrite app_nil_r. split_and!; [done | | done].
      by apply (name_at_start pre rest e).
    + destruct (decide (j < length (bytes_of pre) + length (entry_bytes e))%nat) as [Hlt | Hge].
      * exfalso. eapply (name_at_inside pre rest e j); [done | lia | done].
      * destruct (IH (pre ++ [e])) as (r1 & e' & r2 & -> & H1 & H2).
        { by rewrite He, <- app_assoc. }
        { rewrite bytes_of_app, bytes_of_cons, !length_app. cbn. lia. }
        { done. }
        exists (e :: r1), e', r2. by rewrite H2, <- app_assoc.
Qed.

Definition others (es : list (string * string)) : list (string * string) :=
  filter (λ e, e.1 ≠ name) es.

Lemma others_none (es : list (string * string)) :
  Forall (λ e, e.1 ≠ name) es → others es = es.
Proof.
  induction 1 as [| e es H _ IH]; [done |]. unfold others. rewrite filter_cons_True by done.
  by f_equal.
Qed.

Lemma crop_loop_spec (fuel : nat) (pre rest : list (string * string)) (acc : buffer) :
  entries = pre ++ rest → (length rest < fuel)%nat →
  crop_loop s name fuel (length (bytes_of pre)) acc = Some (acc ++ bytes_of (others rest)).
Proof.
  revert pre rest acc. induction fuel as [| fuel IH]; intros pre rest acc He Hf; [lia |].
  cbn [crop_loop]. fold nm.
  assert (Hb : str_bytes s = bytes_of pre ++ bytes_of rest) by (by rewrite s_bytes, He, bytes_of_app).
  pose proof (find_name_spec (S (length (str_bytes s))) (length (bytes_of pre))) as Hfn.
  destruct (find_name _ _ _ _) as [[i |] |].
  - destruct Hfn as (Hi & Hn & Hmin); [lia | rewrite Hb, length_app; lia |].
    destruct (name_at_inv pre rest i He Hi Hn) as (r1 & e & r2 & -> & Hk & ->).
    assert (Hr1 : Forall (λ e, e.1 ≠ name) r1).
    { apply Forall_forall. intros x (l1 & l2 & ->)%list_elem_of_split Hx.
      apply (Hmin (length (bytes_of (pre ++ l1)))).
      - rewrite !bytes_of_app, bytes_of_cons, !length_app, entry_length. lia.
      - apply (name_at_start (pre ++ l1) (l2 ++ e :: r2) x); [| done].
        by rewrite He, <- !app_assoc. }
    assert (Hb' : str_bytes s = bytes_of (pre ++ r1) ++ nm ++ NAME_VALUE_SEPARATOR ::
              str_bytes e.2 ++ PROPERTY_SEPARATOR :: bytes_of r2).
    { rewrite Hb, !bytes_of_app, bytes_of_cons, <- app_assoc. unfold entry_bytes, nm.
      by rewrite Hk, <- !app_assoc. }
    assert (Hsl : slice (str_bytes s) (length (bytes_of pre)) (length (bytes_of (pre ++ r1))) =
                  bytes_of r1).
    { rewrite Hb', !bytes_of_app, <- app_assoc. unfold slice. rewrite drop_app_length, length_app.
      replace (_ - _)%nat with (length (bytes_of r1)) by lia. apply take_app_length. }
    rewrite Hsl.
    replace (drop (length (bytes_of (pre ++ r1)) + length nm + 1) (str_bytes s)) with
      (str_bytes e.2 ++ PROPERTY_SEPARATOR :: bytes_of r2).
    2: { rewrite Hb', <- Nat.add_assoc, <- drop_drop, drop_app_length, <- drop_drop,
           drop_app_length. done. }
    assert (Hfind : find_sub [PROPERTY_SEPARATOR] (str_bytes e.2 ++ PROPERTY_SEPARATOR :: bytes_of r2)
                    = Some (length (str_bytes e.2))).
    { assert (Hse : sep_free e) by (rewrite He, !Forall_app, Forall_cons in Hsep; tauto).
      destruct Hse as (_ & _ & Hv). by apply find_sub_byte. }
    rewrite Hfind.
    replace (length (str_bytes e.2) + length (bytes_of (pre ++ r1)) + length nm + 1 + 1)%nat
      with (length (bytes_of (pre ++ r1 ++ [e]))).
    2: { rewrite !bytes_of_app, bytes_of_cons, !length_app, entry_length, Hk. unfold nm.
         cbn [bytes_of concat fmap list_fmap length]. lia. }
    rewrite (IH (pre ++ r1 ++ [e]) r2); [| by rewrite He, <- !app_assoc
      | rewrite length_app in Hf; cbn in Hf; lia].
    unfold others at 2. rewrite filter_app, filter_cons_False by tauto. fold (others r1) (others r2).
    by rewrite (others_none r1 Hr1), bytes_of_app, app_assoc.
  - rewrite others_none.
    + by rewrite Hb, drop_app_length.
    + apply Forall_forall. intros x (l1 & l2 & ->)%list_elem_of_split Hx.
      specialize (Hfn ltac:(lia) ltac:(rewrite Hb, length_app; lia)).
      apply (Hfn (length (bytes_of (pre ++ l1)))); [rewrite bytes_of_app, length_app; lia |].
      apply (name_at_start (pre ++ l1) l2 x); [| done]. by rewrite He, <- !app_assoc.
  - destruct Hfn; [lia | rewrite Hb, length_app; lia].
Qed.
End Spec.

(** C35: On ASCII text the in-place deletion is what it should be: printing the
    properties, deleting a name from the text and printing the properties
    without that name are the same, whatever names and values contain the name
    as a part. *)
Theorem delete_property_spec (entries : list (string * string)) (name : string) :
  ascii_text (str_bytes (message_properties_to_string entries)) → Forall sep_free entries →
  name ≠ ""%string → no_byte NAME_VALUE_SEPARATOR name ∧ no_byte PROPERTY_SEPARATOR name →
  delete_property (message_properties_to_string entries) name =
  Some (message_properties_to_string (filter (λ e, e.1 ≠ name) entries)).
Proof.
  intros Ha Hs Hn Hns. unfold delete_property.
  pose proof (s_bytes entries) as Hb.
  assert (Hout : message_properties_to_string (filter (λ e, e.1 ≠ name) entries) =
                 bytes_str (bytes_of (others name entries))) by done.
  destruct (decide (message_properties_to_string entries = ""%string)) as [He | He].
  { destruct entries as [| e es]; [done |]. exfalso. rewrite He, bytes_of_cons in Hb.
    apply (f_equal length) in Hb. rewrite length_app, entry_length in Hb. cbn in Hb. lia. }
  rewrite Hout. pose proof (find_sub_spec (str_bytes name)
    (str_bytes (message_properties_to_string entries))) as Hf.
  destruct (find_sub _ _) as [i |].
  - assert (Hlen : (length entries ≤ length (bytes_of entries))%nat).
    { clear. induction entries as [| e es IH]; [done |]. rewrite bytes_of_cons, length_app, entry_length.
      cbn. lia. }
    rewrite (crop_loop_spec entries name Ha Hs Hn Hns _ [] entries []); [done | done |].
    rewrite Hb. lia.
  - rewrite others_none.
    + by rewrite <- Hb, bytes_str_bytes.
    + apply Forall_forall. intros x (l1 & l2 & Hx)%list_elem_of_split Hxn.
      assert (Hat : name_at entries name (length (bytes_of l1)))
        by (by apply (name_at_start entries name Ha Hs Hn Hns l1 l2 x)).
      destruct Hat as [Hat _]. by rewrite Hf in Hat.
Qed.

Lemma delete_property_spec_witness :
  delete_property (message_properties_to_string
                     [("a", "1"); ("crc", "2"); ("xcrc", "crc"); ("crc", "3")])%string "crc" =
  Some (message_properties_to_string [("a", "1"); ("xcrc", "crc")])%string.
Proof.
  apply (delete_property_spec [("a", "1"); ("crc", "2"); ("xcrc", "crc"); ("crc", "3")]%string "crc").
  - vm_compute. repeat constructor.
  - repeat (apply Forall_cons; split); try apply Forall_nil; solve_sep_free.
  - done.
  - vm_compute. split; intros H; repeat (inversion H as [| ? ? ? H']; clear H; rename H' into H).
Defined.

(** Beyond ASCII the deletion can miss: one accented letter before the name
    shifts the characters the source looks at, and the property stays. *)
Theorem delete_property_misses :
  let s := message_properties_to_string [("k", bytes_str [Byte.xc3; Byte.xa9]); ("crc", "1")] in
  delete_property s "crc" = Some s ∧
  string_to_message_properties (Some s) !! "crc"%string = Some "1"%string.
Proof. vm_compute. done. Qed.
