(* ===== verification/IndexFile.v ===== *)
(** * IndexFile: the hash index from message keys to physical offsets
    ([index_file.rs], [index_header.rs])

    The file holds a 40-byte header, [hash_slot_num] 4-byte slots and
    [index_num] 20-byte entries.  A slot holds the number of the newest entry
    of its keys, each entry the number of the one before.  Entry numbers start
    at 1.  Slots and entries are read and written in place. *)

From stdpp Require Import base list strings.
From coqutil Require Import Byte.
From Stdlib Require Import ZArith Lia.
From S2P Require Import Prelude Bytes Hasher FileName ReferenceResource MappedFile.
Open Scope Z_scope.
Open Scope rmq_scope.

Definition INDEX_HEADER_SIZE : Z := 40.
Definition BEGIN_TIMESTAMP_INDEX : Z := 0.
Definition END_TIMESTAMP_INDEX : Z := 8.
Definition BEGIN_PHY_OFFSET_INDEX : Z := 16.
Definition END_PHY_OFFSET_INDEX : Z := 24.
Definition HASH_SLOT_COUNT_INDEX : Z := 32.
Definition INDEX_COUNT_INDEX : Z := 36.
Definition HASH_SLOT_SIZE : Z := 4.
Definition INDEX_SIZE : Z := 20.
Definition INVALID_INDEX : Z := 0.

Record IndexHeader := mkHeader {
  begin_timestamp : Z;
  end_timestamp : Z;
  begin_phy_offset : Z;
  end_phy_offset : Z;
  hash_slot_count : Z;
  index_count : Z;
}.

(** The header shares the file it describes. *)
Record IndexFile := mkIndex {
  hash_slot_num : Z;
  index_num : Z;
  file_total_size : Z;
  mapped_file : DefaultMappedFile;
  index_header : IndexHeader;
}.

Definition with_file (m : DefaultMappedFile) (f : IndexFile) : IndexFile :=
  mkIndex (hash_slot_num f) (index_num f) (file_total_size f) m (index_header f).
Definition with_header (h : IndexHeader) (f : IndexFile) : IndexFile :=
  mkIndex (hash_slot_num f) (index_num f) (file_total_size f) (mapped_file f) h.

(** [write_bytes_segment(bytes, pos, 0, bytes.len())], its result ignored. *)
Definition write_at (pos : Z) (d : buffer) (f : IndexFile) : IndexFile :=
  with_file (write_bytes_segment d pos 0 (Z.of_nat (length d)) (mapped_file f)).1 f.

(** ** Header *)

Definition new_header : IndexHeader := mkHeader 0 0 0 0 0 1.

Definition set_begin_timestamp (t : Z) (f : IndexFile) : IndexFile :=
  let h := index_header f in
  write_at BEGIN_TIMESTAMP_INDEX (put_i64 t)
    (with_header (mkHeader t (end_timestamp h) (begin_phy_offset h) (end_phy_offset h)
                    (hash_slot_count h) (index_count h)) f).
Definition set_end_timestamp (t : Z) (f : IndexFile) : IndexFile :=
  let h := index_header f in
  write_at END_TIMESTAMP_INDEX (put_i64 t)
    (with_header (mkHeader (begin_timestamp h) t (begin_phy_offset h) (end_phy_offset h)
                    (hash_slot_count h) (index_count h)) f).
Definition set_begin_phy_offset (o : Z) (f : IndexFile) : IndexFile :=
  let h := index_header f in
  write_at BEGIN_PHY_OFFSET_INDEX (put_i64 o)
    (with_header (mkHeader (begin_timestamp h) (end_timestamp h) o (end_phy_offset h)
                    (hash_slot_count h) (index_count h)) f).
Definition set_end_phy_offset (o : Z) (f : IndexFile) : IndexFile :=
  let h := index_header f in
  write_at END_PHY_OFFSET_INDEX (put_i64 o)
    (with_header (mkHeader (begin_timestamp h) (end_timestamp h) (begin_phy_offset h) o
                    (hash_slot_count h) (index_count h)) f).
Definition inc_hash_slot_count (f : IndexFile) : IndexFile :=
  let h := index_header f in
  let n := as_i32 (hash_slot_count h + 1) in
  write_at HASH_SLOT_COUNT_INDEX (put_i32 n)
    (with_header (mkHeader (begin_timestamp h) (end_timestamp h) (begin_phy_offset h)
                    (end_phy_offset h) n (index_count h)) f).
Definition inc_index_count (f : IndexFile) : IndexFile :=
  let h := index_header f in
  let n := as_i32 (index_count h + 1) in
  write_at INDEX_COUNT_INDEX (put_i32 n)
    (with_header (mkHeader (begin_timestamp h) (end_timestamp h) (begin_phy_offset h)
                    (end_phy_offset h) (hash_slot_count h) n) f).

(** [IndexHeader::load] *)
Definition load (f : IndexFile) : outcome IndexFile :=
  let* b := unwrap (mf_get_bytes 0 INDEX_HEADER_SIZE (mapped_file f)) in
  let* (bt, b) := get_i64 b in
  let* (et, b) := get_i64 b in
  let* (bo, b) := get_i64 b in
  let* (eo, b) := get_i64 b in
  let* (hc, b) := get_i32 b in
  let* (ic, b) := get_i32 b in
  Done (with_header (mkHeader bt et bo eo hc (if ic <=? 0 then 1 else ic)) f).

Definition put_at (pos : Z) (d : buffer) (f : IndexFile) : IndexFile :=
  with_file (put_slice d pos (mapped_file f)).1 f.

Definition update_byte_buffer (f : IndexFile) : IndexFile :=
  let h := index_header f in
  let f := put_at BEGIN_TIMESTAMP_INDEX (put_i64 (begin_timestamp h)) f in
  let f := put_at END_TIMESTAMP_INDEX (put_i64 (end_timestamp h)) f in
  let f := put_at BEGIN_PHY_OFFSET_INDEX (put_i64 (begin_phy_offset h)) f in
  let f := put_at END_PHY_OFFSET_INDEX (put_i64 (end_phy_offset h)) f in
  let f := put_at HASH_SLOT_COUNT_INDEX (put_i32 (hash_slot_count h)) f in
  put_at INDEX_COUNT_INDEX (put_i32 (index_count h)) f.

(** ** Index file *)

Definition new_index_file (name : string) (slots idxs end_phy end_ts : Z) (existing : buffer)
  : outcome IndexFile :=
  let total := as_usize (INDEX_HEADER_SIZE + slots * HASH_SLOT_SIZE + idxs * INDEX_SIZE) in
  let* m := new_mapped_file name total existing in
  let f := mkIndex slots idxs total m new_header in
  let f := if 0 <? end_phy
           then set_end_phy_offset end_phy (set_begin_phy_offset end_phy f) else f in
  Done (if 0 <? end_ts then set_end_timestamp end_ts (set_begin_timestamp end_ts f) else f).

Definition flush (sync_ok : bool) (now : Z) (f : IndexFile) : outcome IndexFile :=
  let '(m, held) := mf_hold (mapped_file f) in
  let f := with_file m f in
  if held then
    let f := update_byte_buffer f in
    let* (m, _) := mf_flush sync_ok now 0 (mapped_file f) in
    Done (with_file (mf_release m) f)
  else Done f.

Definition is_write_full (f : IndexFile) : bool :=
  as_i32 (index_num f) <=? index_count (index_header f).

Definition index_key_hash_method (key : string) : Z :=
  let hash_code := hash_str key in
  if hash_code =? - 2147483648 then 0 else Z.abs hash_code.

(** [mapped_file.get(pos..pos + 4).unwrap().get_i32()] *)
Definition read_slot (pos : Z) (f : IndexFile) : outcome Z :=
  let mem := mmapped_file (mapped_file f) in
  if pos + 4 <=? Z.of_nat (length mem) then
    let* (v, _) := get_i32 (slice mem (Z.to_nat pos) (Z.to_nat (pos + 4))) in Done v
  else Panic.

Definition time_diff_of (store_timestamp begin_ts : Z) : Z :=
  let d := rdiv (as_i64 (store_timestamp - begin_ts)) 1000 in
  if begin_ts <=? 0 then 0
  else if i32_MAX <? d then i32_MAX
  else if d <? 0 then 0 else d.

Definition put_key (key : string) (phy_offset store_timestamp : Z) (f : IndexFile)
  : outcome (IndexFile * bool) :=
  if index_count (index_header f) <? as_i32 (index_num f) then
    let hash_code := index_key_hash_method key in
    if hash_slot_num f =? 0 then Panic else
    let slot_pos := as_usize hash_code mod hash_slot_num f in
    let abs_slot_pos := as_usize (INDEX_HEADER_SIZE + slot_pos * HASH_SLOT_SIZE) in
    let* slot_value := read_slot abs_slot_pos f in
    let slot_value :=
      if (slot_value <=? INVALID_INDEX) || (index_count (index_header f) <? slot_value)
      then INVALID_INDEX else slot_value in
    let time_diff := time_diff_of store_timestamp (begin_timestamp (index_header f)) in
    let count := index_count (index_header f) in
    let abs_index_pos :=
      as_usize (INDEX_HEADER_SIZE + hash_slot_num f * HASH_SLOT_SIZE
                + as_usize count * INDEX_SIZE) in
    let f := write_at abs_index_pos (put_i32 hash_code) f in
    let f := write_at (abs_index_pos + 4) (put_i64 phy_offset) f in
    let f := write_at (abs_index_pos + 4 + 8) (put_i32 (as_i32 time_diff)) f in
    let f := write_at (abs_index_pos + 4 + 8 + 4) (put_i32 slot_value) f in
    let f := write_at abs_slot_pos (put_i32 count) f in
    let f := if count <=? 1
             then set_begin_timestamp store_timestamp (set_begin_phy_offset phy_offset f)
             else f in
    let f := if slot_value =? INVALID_INDEX then inc_hash_slot_count f else f in
    let f := inc_index_count f in
    let f := set_end_phy_offset phy_offset f in
    Done (set_end_timestamp store_timestamp f, true)
  else Done (f, false).

Definition is_time_matched (b e : Z) (f : IndexFile) : bool :=
  let bt := begin_timestamp (index_header f) in
  let et := end_timestamp (index_header f) in
  (b <? bt) && (et <? e) || (bt <=? b) && (b <=? et) || (bt <=? e) && (e <=? et).

(** [(&buffer[pos..pos + n]).get_*()] *)
Definition read_in (n pos : Z) {A} (get : reader A) (b : buffer) : outcome A :=
  if pos + n <=? Z.of_nat (length b) then
    let* (v, _) := get (slice b (Z.to_nat pos) (Z.to_nat (pos + n))) in Done v
  else Panic.

(** The loop of [select_phy_offset]; [None] when the fuel runs out. *)
Fixpoint select_loop (fuel : nat) (f : IndexFile) (key_hash : Z) (max_num : nat) (b e : Z)
    (next : Z) (phy_offsets : list Z) : option (outcome (list Z)) :=
  if (length phy_offsets <? max_num)%nat then
    match fuel with
    | O => None
    | S fuel' =>
        let abs_index_pos :=
          as_usize (INDEX_HEADER_SIZE + hash_slot_num f * HASH_SLOT_SIZE
                    + as_usize next * INDEX_SIZE) in
        match get_slice abs_index_pos (abs_index_pos + INDEX_SIZE) (mapped_file f) with
        | None => Some Panic
        | Some buf =>
            match (let* h := read_in 4 abs_index_pos get_i32 buf in
                   let* o := read_in 8 (abs_index_pos + 4) get_i64 buf in
                   let* t := read_in 4 (abs_index_pos + 12) get_i32 buf in
                   let* p := read_in 4 (abs_index_pos + 16) get_i32 buf in
                   Done (h, o, t, p)) with
            | Panic => Some Panic
            | Done (key_hash_read, phy_offset_read, time_diff, prev_index_read) =>
                if time_diff <? 0 then Some (Done phy_offsets)
                else
                  let time_read :=
                    as_i64 (begin_timestamp (index_header f) + time_diff * 1000) in
                  let phy_offsets :=
                    if (key_hash =? key_hash_read) && ((b <=? time_read) && (time_read <=? e))
                    then phy_offsets ++ [phy_offset_read] else phy_offsets in
                  if (prev_index_read <=? INVALID_INDEX)
                     || (index_count (index_header f) <? prev_index_read)
                     || (prev_index_read =? next) || (time_read <? b)
                  then Some (Done phy_offsets)
                  else select_loop fuel' f key_hash max_num b e prev_index_read phy_offsets
            end
        end
    end
  else Some (Done phy_offsets).

(** The reference taken at the start is never released. *)
Definition select_phy_offset (fuel : nat) (phy_offsets : list Z) (key : string)
    (max_num : nat) (b e : Z) (f : IndexFile) : option (outcome (IndexFile * list Z)) :=
  let '(m, held) := mf_hold (mapped_file f) in
  let f := with_file m f in
  if negb held then Some (Done (f, phy_offsets))
  else if hash_slot_num f =? 0 then Some Panic
  else
    let key_hash := index_key_hash_method key in
    let slot_pos := as_usize key_hash mod hash_slot_num f in
    let abs_slot_pos := as_usize (INDEX_HEADER_SIZE + slot_pos * HASH_SLOT_SIZE) in
    match get_slice abs_slot_pos (abs_slot_pos + 4) (mapped_file f) with
    | None => Some (Done (f, phy_offsets))
    | Some buf =>
        match get_i32 buf with
        | Panic => Some Panic
        | Done (slot_value, _) =>
            if (slot_value <=? INVALID_INDEX) || (index_count (index_header f) <? slot_value)
               || (index_count (index_header f) <=? 1)
            then Some (Done (f, phy_offsets))
            else
              match select_loop fuel f key_hash max_num b e slot_value phy_offsets with
              | None => None
              | Some Panic => Some Panic
              | Some (Done r) => Some (Done (f, r))
              end
        end
    end.

(** ** Writes into the file *)

(** [n] bytes of the file from position [a] on. *)
Definition window (m : DefaultMappedFile) (a n : Z) : buffer :=
  slice (mmapped_file m) (Z.to_nat a) (Z.to_nat (a + n)).

Definition blen (d : buffer) : Z := Z.of_nat (length d).
Definition wr (m : DefaultMappedFile) (w : Z * buffer) : DefaultMappedFile :=
  (write_bytes_segment w.2 w.1 0 (blen w.2) m).1.
Definition fits (sz : Z) (w : Z * buffer) : Prop := 0 ≤ w.1 ∧ w.1 + blen w.2 ≤ sz.
Definition apart (a n : Z) (w : Z * buffer) : Prop := a + n ≤ w.1 ∨ w.1 + blen w.2 ≤ a.
Definition disjoint (w w' : Z * buffer) : Prop := apart w.1 (blen w.2) w'.

Lemma wr_spec (m : DefaultMappedFile) (w : Z * buffer) :
  wf_mf m → fits (file_size m) w →
  wf_mf (wr m w) ∧ file_size (wr m w) = file_size m ∧
  window (wr m w) w.1 (blen w.2) = w.2 ∧
  ∀ a n, 0 ≤ a → 0 ≤ n → apart a n w → window (wr m w) a n = window m a n.
Proof.
  destruct w as [p d]. intros Hwf [H0 H1]. cbn in H0, H1. unfold wr, window, blen in *. cbn.
  destruct (write_bytes_segment_spec d p m Hwf H0 H1) as [-> Hwf']. cbn.
  assert (Hl := mf_mem _ Hwf). split_and!; [done | done | |].
  - etrans; [| apply (slice_splice_same (mmapped_file m) (Z.to_nat p) d); lia].
    f_equal. lia.
  - intros a n Ha Hn Hap. apply slice_splice_out; [lia |]. unfold apart, blen in Hap.
    cbn in Hap. lia.
Qed.

(** Writes that do not overlap: each of them is there at the end, and nothing
    else has changed. *)
Lemma writes_spec (ws : list (Z * buffer)) (m : DefaultMappedFile) :
  wf_mf m → Forall (fits (file_size m)) ws → ForallOrdPairs disjoint ws →
  let m' := fold_left wr ws m in
  wf_mf m' ∧ file_size m' = file_size m ∧
  Forall (λ w, window m' w.1 (blen w.2) = w.2) ws ∧
  ∀ a n, 0 ≤ a → 0 ≤ n → Forall (apart a n) ws → window m' a n = window m a n.
Proof.
  revert m. induction ws as [| w ws IH]; intros m Hwf Hf Hd; [done |].
  apply Forall_cons_1 in Hf as [Hw Hf]. inversion Hd as [| ? ? Hdw Hds]; subst.
  destruct (wr_spec m w Hwf Hw) as (Hwf1 & Hs1 & Hin & Hout).
  destruct (IH (wr m w) Hwf1) as (Hwf2 & Hs2 & Hin2 & Hout2); [by rewrite Hs1 | done |].
  cbn [fold_left]. split_and!; [done | congruence | |].
  - constructor; [| done]. rewrite Hout2; [done | by destruct Hw | unfold blen; lia | done].
  - intros a n Ha Hn Hap. apply Forall_cons_1 in Hap as [? ?]. rewrite Hout2 by done. auto.
Qed.

Lemma window_app (m : DefaultMappedFile) (a n k : Z) :
  0 ≤ a → 0 ≤ n → 0 ≤ k → window m a (n + k) = window m a n ++ window m (a + n) k.
Proof.
  intros Ha Hn Hk. unfold window, slice.
  replace (Z.to_nat (a + (n + k)) - Z.to_nat a)%nat with (Z.to_nat n + Z.to_nat k)%nat by lia.
  rewrite <- take_take_drop. f_equal; [f_equal; lia |]. rewrite drop_drop. f_equal; [lia |]. f_equal. lia.
Qed.

(** ** The abstract index *)

(** An entry: the hash of its key, the physical offset and the time bucket. *)
Record entry := mkIdx { en_hash : Z; en_offset : Z; en_time : Z }.

Section Abstract.
Variable slots : Z.

Definition slot_of (e : entry) : Z := en_hash e mod slots.

(** The number of the newest entry of a slot in a list of entries, newest
    first; 0 when there is none. *)
Fixpoint newest_rev (s : Z) (res : list entry) : Z :=
  match res with
  | [] => 0
  | e :: r => if slot_of e =? s then Z.of_nat (S (length r)) else newest_rev s r
  end.
Definition newest (s : Z) (es : list entry) : Z := newest_rev s (reverse es).

Lemma newest_snoc (s : Z) (es : list entry) (e : entry) :
  newest s (es ++ [e]) = if slot_of e =? s then Z.of_nat (length es) + 1 else newest s es.
Proof.
  unfold newest. rewrite reverse_snoc. simpl. rewrite length_reverse.
  destruct (_ =? _); lia.
Qed.

Lemma newest_bound (s : Z) (es : list entry) : 0 ≤ newest s es ≤ Z.of_nat (length es).
Proof.
  induction es as [| e es IH] using rev_ind; [by unfold newest |].
  rewrite newest_snoc, length_app. simpl. destruct (_ =? _); lia.
Qed.

Lemma newest_lookup (s : Z) (es : list entry) :
  newest s es = 0 ∧ Forall (λ e, slot_of e ≠ s) es ∨
  ∃ k e, newest s es = Z.of_nat (S k) ∧ es !! k = Some e ∧ slot_of e = s ∧
         filter (λ e, slot_of e = s) es = filter (λ e, slot_of e = s) (take k es) ++ [e].
Proof.
  induction es as [| e es IH] using rev_ind; [by left |]. rewrite newest_snoc.
  destruct (Z.eqb_spec (slot_of e) s) as [He | He].
  - right. exists (length es), e. rewrite take_app_length, filter_app, filter_cons_True by done.
    split_and!; try done; [lia |]. by apply list_lookup_middle.
  - destruct IH as [[H0 Hall] | (k & e' & Hk & Hl & Hs & Hf)].
    + left. split; [done |]. apply Forall_app. auto.
    + right. exists k, e'. split_and!; try done.
      * by apply lookup_app_l_Some.
      * rewrite filter_app, filter_cons_False, app_nil_r by done. rewrite Hf.
        rewrite take_app_le; [done |]. apply lookup_lt_Some in Hl. lia.
Qed.

(** The 20 bytes of an entry written after [before]. *)
Definition entry_bytes (before : list entry) (e : entry) : buffer :=
  put_i32 (en_hash e) ++ put_i64 (en_offset e) ++ put_i32 (en_time e) ++
  put_i32 (newest (slot_of e) before).

Definition header_bytes (h : IndexHeader) : buffer :=
  put_i64 (begin_timestamp h) ++ put_i64 (end_timestamp h) ++ put_i64 (begin_phy_offset h) ++
  put_i64 (end_phy_offset h) ++ put_i32 (hash_slot_count h) ++ put_i32 (index_count h).
End Abstract.

Definition wf_header (h : IndexHeader) : Prop :=
  in_s 64 (begin_timestamp h) ∧ in_s 64 (end_timestamp h) ∧ in_s 64 (begin_phy_offset h) ∧
  in_s 64 (end_phy_offset h) ∧ in_s 32 (hash_slot_count h) ∧ 0 < index_count h ≤ i32_MAX.
Definition wf_entry (e : entry) : Prop :=
  0 ≤ en_hash e ≤ i32_MAX ∧ in_s 64 (en_offset e) ∧ 0 ≤ en_time e ≤ i32_MAX.

Definition index_base (f : IndexFile) : Z := 40 + 4 * hash_slot_num f.

(** The file stores the entries [es], in the order they were put. *)
Record index_ok (f : IndexFile) (es : list entry) : Prop := {
  io_wf : wf_mf (mapped_file f);
  io_slots : 0 < hash_slot_num f;
  io_num : 0 < index_num f;
  io_size : file_size (mapped_file f) = 40 + 4 * hash_slot_num f + 20 * index_num f;
  io_count : index_count (index_header f) = 1 + Z.of_nat (length es);
  io_room : 1 + Z.of_nat (length es) ≤ index_num f;
  io_hsc : 0 ≤ hash_slot_count (index_header f) ≤ Z.of_nat (length es);
  io_hdr : wf_header (index_header f);
  io_es : Forall wf_entry es;
  io_slot : ∀ s, 0 ≤ s < hash_slot_num f →
    window (mapped_file f) (40 + 4 * s) 4 = put_i32 (newest (hash_slot_num f) s es);
  io_entry : ∀ k e, es !! k = Some e →
    window (mapped_file f) (index_base f + 20 * Z.of_nat (S k)) 20 =
    entry_bytes (hash_slot_num f) (take k es) e;
  io_header : es ≠ [] →
    window (mapped_file f) 0 40 = header_bytes (index_header f);
}.

(** ** [put_key] *)

(** The writes of one [put_key], in order. *)
Definition put_writes (idx slot hash off td prev count ts hsc : Z) : list (Z * buffer) :=
  [(idx, put_i32 hash); (idx + 4, put_i64 off); (idx + 4 + 8, put_i32 td);
   (idx + 4 + 8 + 4, put_i32 prev); (slot, put_i32 count)] ++
  (if count <=? 1 then [(BEGIN_PHY_OFFSET_INDEX, put_i64 off); (BEGIN_TIMESTAMP_INDEX, put_i64 ts)]
   else []) ++
  (if prev =? INVALID_INDEX then [(HASH_SLOT_COUNT_INDEX, put_i32 (as_i32 (hsc + 1)))] else []) ++
  [(INDEX_COUNT_INDEX, put_i32 (as_i32 (count + 1))); (END_PHY_OFFSET_INDEX, put_i64 off);
   (END_TIMESTAMP_INDEX, put_i64 ts)].

Definition put_header (off ts prev : Z) (h : IndexHeader) : IndexHeader :=
  mkHeader (if index_count h <=? 1 then ts else begin_timestamp h) ts
    (if index_count h <=? 1 then off else begin_phy_offset h) off
    (if prev =? INVALID_INDEX then as_i32 (hash_slot_count h + 1) else hash_slot_count h)
    (as_i32 (index_count h + 1)).

Lemma slot_read (f : IndexFile) (pos v : Z) :
  0 ≤ pos → pos + 4 ≤ file_size (mapped_file f) → wf_mf (mapped_file f) → in_s 32 v →
  window (mapped_file f) pos 4 = put_i32 v → read_slot pos f = Done v.
Proof.
  intros H0 H1 Hwf Hv Hw. unfold read_slot. rewrite (mf_mem _ Hwf), (proj2 (Z.leb_le _ _)) by lia.
  unfold window in Hw. rewrite Hw, <- (app_nil_r (put_i32 v)), get_put_i32 by done. done.
Qed.

Lemma hash_range (key : string) : 0 ≤ index_key_hash_method key ≤ i32_MAX.
Proof.
  unfold index_key_hash_method, i32_MAX. pose proof (hash_str_range key) as H.
  destruct (Z.eqb_spec (hash_str key) (-2147483648)); in_range.
Qed.

Lemma time_diff_range (ts begin_ts : Z) : 0 ≤ time_diff_of ts begin_ts ≤ i32_MAX.
Proof.
  unfold time_diff_of. destruct (begin_ts <=? 0); [unfold i32_MAX; lia |].
  destruct (Z.ltb_spec i32_MAX (rdiv (as_i64 (ts - begin_ts)) 1000)); [unfold i32_MAX; lia |].
  destruct (Z.ltb_spec (rdiv (as_i64 (ts - begin_ts)) 1000) 0); [unfold i32_MAX; lia | lia].
Qed.

Lemma write_at_mk p d S N T m h :
  write_at p d (mkIndex S N T m h) = mkIndex S N T (wr m (p, d)) h.
Proof. reflexivity. Qed.
Lemma set_begin_timestamp_mk t S N T m bt et bo eo hc ic :
  set_begin_timestamp t (mkIndex S N T m (mkHeader bt et bo eo hc ic)) =
  mkIndex S N T (wr m (BEGIN_TIMESTAMP_INDEX, put_i64 t)) (mkHeader t et bo eo hc ic).
Proof. reflexivity. Qed.
Lemma set_end_timestamp_mk t S N T m bt et bo eo hc ic :
  set_end_timestamp t (mkIndex S N T m (mkHeader bt et bo eo hc ic)) =
  mkIndex S N T (wr m (END_TIMESTAMP_INDEX, put_i64 t)) (mkHeader bt t bo eo hc ic).
Proof. reflexivity. Qed.
Lemma set_begin_phy_offset_mk o S N T m bt et bo eo hc ic :
  set_begin_phy_offset o (mkIndex S N T m (mkHeader bt et bo eo hc ic)) =
  mkIndex S N T (wr m (BEGIN_PHY_OFFSET_INDEX, put_i64 o)) (mkHeader bt et o eo hc ic).
Proof. reflexivity. Qed.
Lemma set_end_phy_offset_mk o S N T m bt et bo eo hc ic :
  set_end_phy_offset o (mkIndex S N T m (mkHeader bt et bo eo hc ic)) =
  mkIndex S N T (wr m (END_PHY_OFFSET_INDEX, put_i64 o)) (mkHeader bt et bo o hc ic).
Proof. reflexivity. Qed.
Lemma inc_hash_slot_count_mk S N T m bt et bo eo hc ic :
  inc_hash_slot_count (mkIndex S N T m (mkHeader bt et bo eo hc ic)) =
  mkIndex S N T (wr m (HASH_SLOT_COUNT_INDEX, put_i32 (as_i32 (hc + 1))))
    (mkHeader bt et bo eo (as_i32 (hc + 1)) ic).
Proof. reflexivity. Qed.
Lemma inc_index_count_mk S N T m bt et bo eo hc ic :
  inc_index_count (mkIndex S N T m (mkHeader bt et bo eo hc ic)) =
  mkIndex S N T (wr m (INDEX_COUNT_INDEX, put_i32 (as_i32 (ic + 1))))
    (mkHeader bt et bo eo hc (as_i32 (ic + 1))).
Proof. reflexivity. Qed.

Create Rewrite HintDb index_mk.
#[export] Hint Rewrite write_at_mk set_begin_timestamp_mk set_end_timestamp_mk
  set_begin_phy_offset_mk set_end_phy_offset_mk inc_hash_slot_count_mk inc_index_count_mk
  : index_mk.

Ltac index_proj :=
  cbn [hash_slot_num index_num file_total_size mapped_file index_header begin_timestamp
       end_timestamp begin_phy_offset end_phy_offset hash_slot_count index_count fold_left app].

(** [put_key] performs exactly those writes. *)
Lemma put_key_writes (f : IndexFile) (es : list entry) (key : string) (off ts : Z) :
  index_ok f es → Z.of_nat (length es) + 1 < index_num f →
  let hash := index_key_hash_method key in
  let s := hash mod hash_slot_num f in
  let prev := newest (hash_slot_num f) s es in
  let h := index_header f in
  let idx := index_base f + 20 * (1 + Z.of_nat (length es)) in
  put_key key off ts f =
  Done (mkIndex (hash_slot_num f) (index_num f) (file_total_size f)
    (fold_left wr (put_writes idx (40 + 4 * s) hash off
       (time_diff_of ts (begin_timestamp h)) prev (1 + Z.of_nat (length es)) ts
       (hash_slot_count h)) (mapped_file f))
    (put_header off ts prev h), true).
Proof.
  intros [] Hroom hash s prev h idx. unfold put_key. fold h. fold h in io_count0. pose proof (mf_size _ io_wf0) as Hsz.
  pose proof (hash_range key) as Hh. unfold i32_MAX in *.
  rewrite io_count0, (as_i32_id (index_num f)) by in_range.
  rewrite (proj2 (Z.ltb_lt _ _)) by lia. rewrite (proj2 (Z.eqb_neq _ _)) by lia.
  rewrite (as_usize_id (index_key_hash_method key)) by in_range. fold hash s.
  pose proof (Z.mod_pos_bound hash (hash_slot_num f) io_slots0) as Hs. fold s in Hs.
  pose proof (newest_bound (hash_slot_num f) s es) as Hn. fold prev in Hn.
  pose proof (time_diff_range ts (begin_timestamp h)) as Ht. unfold i32_MAX in *.
  unfold INDEX_HEADER_SIZE, HASH_SLOT_SIZE, INDEX_SIZE.
  rewrite (as_usize_id (40 + s * 4)) by in_range.
  rewrite (slot_read f _ prev); [| lia | lia | done | in_range |].
  2: { replace (40 + s * 4) with (40 + 4 * s) by lia. by apply io_slot0. }
  cbn [obind]. unfold INVALID_INDEX.
  assert (Hp : (if (prev <=? 0) || (1 + Z.of_nat (length es) <? prev) then 0 else prev) = prev).
  { rewrite (proj2 (Z.ltb_ge _ _)), orb_false_r by lia.
    destruct (Z.leb_spec prev 0); [lia | done]. }
  rewrite Hp. rewrite (as_usize_id (1 + Z.of_nat (length es))) by in_range.
  rewrite (as_usize_id (40 + _ + _)), (as_i32_id (time_diff_of ts (begin_timestamp h)))
    by in_range.
  replace (40 + hash_slot_num f * 4 + (1 + Z.of_nat (length es)) * 20) with idx
    by (unfold idx, index_base; lia).
  replace (40 + s * 4) with (40 + 4 * s) by lia.
  unfold put_writes, put_header. rewrite io_count0.
  unfold INVALID_INDEX.
  clear - io_count0. destruct f as [S N T m [bt et bo eo hc ic]]. subst h.
  cbn [index_header index_count] in io_count0. subst ic. index_proj.
  destruct (1 + Z.of_nat (length es) <=? 1), (prev =? 0); index_proj;
    autorewrite with index_mk; reflexivity.
Qed.

Lemma window_length (m : DefaultMappedFile) (a n : Z) :
  wf_mf m → 0 ≤ a → 0 ≤ n → a + n ≤ file_size m → length (window m a n) = Z.to_nat n.
Proof.
  intros Hwf Ha Hn Hs. pose proof (mf_mem _ Hwf). unfold window. rewrite slice_length by lia. lia.
Qed.

Lemma window_split (m : DefaultMappedFile) (a n k : Z) (x y : buffer) :
  wf_mf m → 0 ≤ a → 0 ≤ n → 0 ≤ k → a + (n + k) ≤ file_size m → blen x = n →
  window m a (n + k) = x ++ y ↔ window m a n = x ∧ window m (a + n) k = y.
Proof.
  intros Hwf Ha Hn Hk Hs Hx. rewrite window_app by done. split.
  - apply app_inj_1. rewrite window_length by (done || lia). unfold blen in Hx. lia.
  - by intros [-> ->].
Qed.

Lemma header_windows (m : DefaultMappedFile) (h : IndexHeader) :
  wf_mf m → 40 ≤ file_size m →
  window m 0 40 = header_bytes h ↔
  window m 0 8 = put_i64 (begin_timestamp h) ∧ window m 8 8 = put_i64 (end_timestamp h) ∧
  window m 16 8 = put_i64 (begin_phy_offset h) ∧ window m 24 8 = put_i64 (end_phy_offset h) ∧
  window m 32 4 = put_i32 (hash_slot_count h) ∧ window m 36 4 = put_i32 (index_count h).
Proof.
  intros Hwf Hs. unfold header_bytes.
  assert (Hl8 : ∀ z, blen (put_i64 z) = 8) by (intros; unfold blen; by rewrite put_i64_length).
  assert (Hl4 : ∀ z, blen (put_i32 z) = 4) by (intros; unfold blen; by rewrite put_i32_length).
  change 40 with (8 + (8 + (8 + (8 + (4 + 4))))).
  rewrite !window_split by (done || lia). done.
Qed.

Lemma entry_windows (m : DefaultMappedFile) (a hash off td prev : Z) :
  wf_mf m → 0 ≤ a → a + 20 ≤ file_size m →
  window m a 20 = put_i32 hash ++ put_i64 off ++ put_i32 td ++ put_i32 prev ↔
  window m a 4 = put_i32 hash ∧ window m (a + 4) 8 = put_i64 off ∧
  window m (a + 4 + 8) 4 = put_i32 td ∧ window m (a + 4 + 8 + 4) 4 = put_i32 prev.
Proof.
  intros Hwf Ha Hs.
  assert (Hl8 : ∀ z, blen (put_i64 z) = 8) by (intros; unfold blen; by rewrite put_i64_length).
  assert (Hl4 : ∀ z, blen (put_i32 z) = 4) by (intros; unfold blen; by rewrite put_i32_length).
  change 20 with (4 + (8 + (4 + 4))). rewrite !window_split by (done || lia). done.
Qed.

Ltac blen_simpl :=
  unfold fits, disjoint, apart, blen, BEGIN_PHY_OFFSET_INDEX, BEGIN_TIMESTAMP_INDEX,
    HASH_SLOT_COUNT_INDEX, INDEX_COUNT_INDEX, END_PHY_OFFSET_INDEX, END_TIMESTAMP_INDEX in *;
  cbn [fst snd] in *; rewrite ?put_i32_length, ?put_i64_length in *.

Ltac each_write :=
  repeat match goal with
  | |- ForallOrdPairs _ (_ :: _) => apply FOP_cons
  | |- ForallOrdPairs _ [] => apply FOP_nil
  | |- Forall _ (_ :: _) => apply Forall_cons_2
  | |- Forall _ [] => apply Forall_nil_2
  end; blen_simpl.

Ltac split_writes H :=
  repeat (let Hw := fresh "Hw" in apply Forall_cons_1 in H as [Hw H]); blen_simpl.

Lemma put_writes_ok (sz idx slot hash off td prev count ts hsc : Z) :
  40 ≤ slot → slot + 4 ≤ idx → idx + 20 ≤ sz →
  let ws := put_writes idx slot hash off td prev count ts hsc in
  Forall (fits sz) ws ∧ ForallOrdPairs disjoint ws.
Proof.
  intros H1 H2 H3. unfold put_writes.
  destruct (count <=? 1), (prev =? INVALID_INDEX); cbn [app]; split; each_write; lia.
Qed.

(** What the writes leave where. *)
Lemma put_writes_effect (m : DefaultMappedFile) (idx slot hash off td prev count ts hsc : Z) :
  wf_mf m → 40 ≤ slot → slot + 4 ≤ idx → idx + 20 ≤ file_size m →
  let m' := fold_left wr (put_writes idx slot hash off td prev count ts hsc) m in
  wf_mf m' ∧ file_size m' = file_size m ∧
  window m' idx 20 = put_i32 hash ++ put_i64 off ++ put_i32 td ++ put_i32 prev ∧
  window m' slot 4 = put_i32 count ∧
  (∀ a n, 0 ≤ n → 40 ≤ a → a + n ≤ slot ∨ slot + 4 ≤ a → a + n ≤ idx ∨ idx + 20 ≤ a →
     window m' a n = window m a n) ∧
  window m' 8 8 = put_i64 ts ∧ window m' 24 8 = put_i64 off ∧
  window m' 36 4 = put_i32 (as_i32 (count + 1)) ∧
  window m' 0 8 = (if count <=? 1 then put_i64 ts else window m 0 8) ∧
  window m' 16 8 = (if count <=? 1 then put_i64 off else window m 16 8) ∧
  window m' 32 4 =
    (if prev =? INVALID_INDEX then put_i32 (as_i32 (hsc + 1)) else window m 32 4).
Proof.
  intros Hwf H1 H2 H3 m'.
  destruct (put_writes_ok (file_size m) idx slot hash off td prev count ts hsc H1 H2 H3)
    as [Hf Hd].
  destruct (writes_spec _ m Hwf Hf Hd) as (Hwf' & Hs' & Hin & Hout). fold m' in Hwf', Hs', Hin, Hout.
  clear Hf Hd. unfold put_writes in Hin, Hout. rewrite !Forall_app in Hin.
  destruct Hin as (Hin1 & Hin2 & Hin3 & Hin4).
  split_writes Hin1. split_writes Hin4. split_and!; try done.
  - apply entry_windows; [done | lia | lia |]. done.
  - intros a n Hn Ha Ha1 Ha2. apply Hout; [lia | done |].
    destruct (count <=? 1), (prev =? INVALID_INDEX); cbn [app]; each_write; lia.
  - destruct (count <=? 1); [by split_writes Hin2 |].
    apply Hout; [lia | lia |]. destruct (prev =? INVALID_INDEX); cbn [app]; each_write; lia.
  - destruct (count <=? 1); [by split_writes Hin2 |].
    apply Hout; [lia | lia |]. destruct (prev =? INVALID_INDEX); cbn [app]; each_write; lia.
  - destruct (prev =? INVALID_INDEX); [by split_writes Hin3 |].
    apply Hout; [lia | lia |]. destruct (count <=? 1); cbn [app]; each_write; lia.
Qed.

Definition new_entry (key : string) (off ts : Z) (f : IndexFile) : entry :=
  mkIdx (index_key_hash_method key) off (time_diff_of ts (begin_timestamp (index_header f))).

(** The first entry is the one that finds the count at 1. *)
Lemma count_first (es : list entry) :
  (1 + Z.of_nat (length es) <=? 1) = bool_decide (es = []).
Proof.
  destruct es; [done |]. rewrite bool_decide_false by done. apply Z.leb_gt. simpl. lia.
Qed.

(** The header in memory and the header in the file change alike. *)
Lemma put_header_windows (f : IndexFile) (es : list entry) (m' : DefaultMappedFile)
    (off ts prev : Z) :
  let h := index_header f in
  let m := mapped_file f in
  index_ok f es → wf_mf m' → file_size m' = file_size m → (es = [] → prev = INVALID_INDEX) →
  window m' 8 8 = put_i64 ts → window m' 24 8 = put_i64 off →
  window m' 36 4 = put_i32 (as_i32 (index_count h + 1)) →
  window m' 0 8 = (if index_count h <=? 1 then put_i64 ts else window m 0 8) →
  window m' 16 8 = (if index_count h <=? 1 then put_i64 off else window m 16 8) →
  window m' 32 4 =
    (if prev =? INVALID_INDEX then put_i32 (as_i32 (hash_slot_count h + 1)) else window m 32 4) →
  window m' 0 40 = header_bytes (put_header off ts prev h).
Proof.
  intros h m Hok Hwf Hfs Hp H8 H24 H36 H0 H16 H32.
  assert (Hsz : 40 ≤ file_size m) by (pose proof (io_size _ _ Hok); destruct Hok; unfold m; lia).
  assert (Hold : es ≠ [] → window m 0 8 = put_i64 (begin_timestamp h) ∧
    window m 16 8 = put_i64 (begin_phy_offset h) ∧ window m 32 4 = put_i32 (hash_slot_count h)).
  { intros Hne. apply (io_header _ _ Hok) in Hne.
    apply header_windows in Hne; [tauto | apply (io_wf _ _ Hok) | done]. }
  apply header_windows; [done | lia |].
  unfold put_header. index_proj. rewrite H0, H8, H16, H24, H32, H36.
  unfold h in *. rewrite (io_count _ _ Hok), count_first.
  split_and!; try done.
  - destruct (bool_decide_reflect (es = [])); [done | by apply Hold].
  - destruct (bool_decide_reflect (es = [])); [done | by apply Hold].
  - destruct (Z.eqb_spec prev INVALID_INDEX) as [? | Hn]; [done | apply Hold; by intros ->%Hp].
Qed.

Lemma put_key_ok (f : IndexFile) (es : list entry) (key : string) (off ts : Z) :
  index_ok f es → in_s 64 off → in_s 64 ts → Z.of_nat (length es) + 1 < index_num f →
  ∃ f', put_key key off ts f = Done (f', true) ∧ index_ok f' (es ++ [new_entry key off ts f]) ∧
    hash_slot_num f' = hash_slot_num f ∧ index_num f' = index_num f ∧
    begin_timestamp (index_header f') =
      (if decide (es = []) then ts else begin_timestamp (index_header f)) ∧
    end_phy_offset (index_header f') = off.
Proof.
  intros Hok Hoff Hts Hroom. pose proof (put_key_writes f es key off ts Hok Hroom) as Hput.
  cbv zeta in Hput. rewrite Hput. clear Hput. assert (Hok' := Hok). destruct Hok'.
  set (S := hash_slot_num f) in *. set (h := index_header f) in *.
  set (e := new_entry key off ts f). set (s := index_key_hash_method key mod S).
  set (n := Z.of_nat (length es)) in *.
  assert (Hse : slot_of S e = s) by done.
  pose proof (hash_range key) as Hh. pose proof (time_diff_range ts (begin_timestamp h)) as Htd.
  pose proof (Z.mod_pos_bound (index_key_hash_method key) S io_slots0) as Hs. fold s in Hs.
  pose proof (count_first es) as Hce. fold n in Hce.
  pose proof (mf_size _ io_wf0) as Hsz. destruct io_hdr0 as (Hb1 & Hb2 & Hb3 & Hb4 & Hb5 & Hb6).
  destruct (put_writes_effect (mapped_file f) (index_base f + 20 * (1 + n)) (40 + 4 * s)
    (index_key_hash_method key) off (time_diff_of ts (begin_timestamp h)) (newest S s es) (1 + n)
    ts (hash_slot_count h)) as
    (Hwf & Hfs & Hent & Hslot & Hout & H8 & H24 & H36 & H0 & H16 & H32);
    [done | lia | unfold index_base; fold S; lia | unfold index_base; fold S; lia |].
  set (m' := fold_left wr _ _) in *. unfold i32_MAX in *.
  eexists. split; [done |]. split; [| split_and!; [done | done | | done]].
  2: { cbn [index_header put_header begin_timestamp]. rewrite io_count0, Hce.
       by destruct (decide (es = [])) as [E | E];
         [rewrite bool_decide_true | rewrite bool_decide_false]. }
  constructor; cbn [mapped_file hash_slot_num index_num index_header]; try done.
  - lia.
  - cbn. rewrite as_i32_id, length_app by in_range. simpl. lia.
  - rewrite length_app. simpl. lia.
  - cbn. rewrite length_app. simpl. destruct (_ =? _); [rewrite as_i32_id by in_range |]; lia.
  - unfold wf_header. cbn. rewrite io_count0. unfold i32_MAX. rewrite (as_i32_id (1 + n + 1)) by in_range.
    split_and!; try done; try (by destruct (_ <=? _)); try lia.
    destruct (_ =? _); [rewrite as_i32_id by in_range; in_range | done].
  - apply Forall_app. split; [done |]. apply Forall_singleton. done.
  - intros s' Hs'. rewrite newest_snoc, Hse. destruct (Z.eqb_spec s s') as [<- | Hne].
    + rewrite Hslot. f_equal. unfold n. lia.
    + rewrite Hout; [by apply io_slot0 | lia | lia | lia |]. unfold index_base. fold S. lia.
  - intros k x Hk. change (index_base _) with (index_base f).
    apply lookup_app_Some in Hk as [Hk | [Hle Hk]].
    + pose proof (lookup_lt_Some _ _ _ Hk). rewrite take_app_le by lia.
      rewrite <- io_entry0 by done. unfold index_base in *. fold S.
      apply Hout; unfold n; lia.
    + apply list_lookup_singleton_Some in Hk as [Hk Hx].
      replace k with (length es) by lia. rewrite take_app_length.
      replace (Z.of_nat (Datatypes.S (length es))) with (1 + n) by (unfold n; lia).
      by rewrite Hent, <- Hx.
  - intros _. fold h. apply (put_header_windows f es); try done; fold h; rewrite ?io_count0; try done.
    by intros ->.
Qed.

(** ** Reading a slot's chain *)

(** Entry [k] as it lies in the file, with the number of the one before it. *)
Definition read_entry (f : IndexFile) (k : Z) : outcome (entry * Z) :=
  let b := window (mapped_file f) (index_base f + 20 * k) 20 in
  let* (h, b) := get_i32 b in
  let* (o, b) := get_i64 b in
  let* (t, b) := get_i32 b in
  let* (p, _) := get_i32 b in
  Done (mkIdx h o t, p).

Fixpoint chain_from (fuel : nat) (f : IndexFile) (k : Z) : outcome (list entry) :=
  match fuel with
  | O => Done []
  | S fuel' =>
      if k <=? 0 then Done []
      else
        let* (e, p) := read_entry f k in
        let* r := chain_from fuel' f p in
        Done (e :: r)
  end.

(** The entries reachable from slot [s], newest first. *)
Definition chain_of (f : IndexFile) (s : Z) : outcome (list entry) :=
  let* v := read_slot (40 + 4 * s) f in
  chain_from (Z.to_nat (index_count (index_header f))) f v.

Lemma read_entry_ok (f : IndexFile) (es : list entry) (k : nat) (e : entry) :
  index_ok f es → es !! k = Some e →
  read_entry f (Z.of_nat (S k)) =
  Done (e, newest (hash_slot_num f) (slot_of (hash_slot_num f) e) (take k es)).
Proof.
  intros [] Hk. unfold read_entry. rewrite (io_entry0 _ _ Hk). unfold entry_bytes.
  destruct (Forall_lookup_1 _ _ _ _ io_es0 Hk) as (Hh & Ho & Ht). unfold i32_MAX in *.
  pose proof (newest_bound (hash_slot_num f) (slot_of (hash_slot_num f) e) (take k es)) as Hn.
  rewrite length_take in Hn. pose proof (mf_size _ io_wf0). unfold i32_MAX in *.
  rewrite get_put_i32 by in_range. cbn [obind]. rewrite get_put_i64 by done. cbn [obind].
  rewrite get_put_i32 by in_range. cbn [obind].
  rewrite <- (app_nil_r (put_i32 (newest _ _ _))), get_put_i32 by in_range. cbn [obind].
  by destruct e.
Qed.

Lemma chain_from_ok (f : IndexFile) (es : list entry) (s : Z) (fuel n : nat) :
  index_ok f es → (n ≤ length es)%nat → (n ≤ fuel)%nat →
  chain_from fuel f (newest (hash_slot_num f) s (take n es)) =
  Done (reverse (filter (λ e, slot_of (hash_slot_num f) e = s) (take n es))).
Proof.
  intros Hok. revert n. induction fuel as [| fuel IH]; intros n Hn Hf.
  - by replace n with O by lia.
  - cbn [chain_from].
    destruct (newest_lookup (hash_slot_num f) s (take n es))
      as [[-> Hall] | (k & e & -> & Hk & Hs & Hfil)].
    + cbn [Z.leb]. f_equal. symmetry.
      assert (Hnil : filter (λ e, slot_of (hash_slot_num f) e = s) (take n es) = []).
      { destruct (filter _ (take n es)) as [| x l] eqn:E; [done |].
        assert (Hx : x ∈ x :: l) by left. rewrite <- E, list_elem_of_filter in Hx.
        destruct Hx as [Hx1 Hx2]. rewrite Forall_forall in Hall. by destruct (Hall x Hx2). }
      by rewrite Hnil.
    + rewrite (proj2 (Z.leb_gt _ _)) by lia.
      apply lookup_take_Some in Hk as [Hk Hkn].
      rewrite (read_entry_ok f es k e Hok Hk). cbn [obind]. rewrite Hs, IH by lia.
      cbn [obind]. rewrite Hfil, reverse_snoc. f_equal. f_equal. f_equal. f_equal.
      rewrite take_take. f_equal. lia.
Qed.

Lemma chain_of_ok (f : IndexFile) (es : list entry) (s : Z) :
  index_ok f es → 0 ≤ s < hash_slot_num f →
  chain_of f s = Done (reverse (filter (λ e, slot_of (hash_slot_num f) e = s) es)).
Proof.
  intros Hok Hs. assert (Hok' := Hok). destruct Hok'. unfold chain_of.
  pose proof (newest_bound (hash_slot_num f) s es) as Hn. pose proof (mf_size _ io_wf0).
  unfold i32_MAX in *.
  rewrite (slot_read f _ (newest (hash_slot_num f) s es));
    [| lia | lia | done | in_range | by apply io_slot0].
  cbn [obind]. rewrite <- (firstn_all es) at 1 2. apply chain_from_ok; (done || lia).
Qed.

(** ** Theorems *)

Fixpoint put_all (puts : list (string * Z * Z)) (f : IndexFile)
  : outcome (IndexFile * list bool) :=
  match puts with
  | [] => Done (f, [])
  | (key, off, ts) :: puts' =>
      let* (f, b) := put_key key off ts f in
      let* (f, bs) := put_all puts' f in
      Done (f, b :: bs)
  end.

(** The abstract index accepts a put while fewer than [cap - 1] entries are
    stored; time is kept in seconds since the first put. *)
Fixpoint index_all (cap : Z) (puts : list (string * Z * Z)) (begin_ts : Z) (es : list entry)
  : list entry * list bool :=
  match puts with
  | [] => (es, [])
  | (key, off, ts) :: puts' =>
      if Z.of_nat (length es) + 1 <? cap then
        let e := mkIdx (index_key_hash_method key) off (time_diff_of ts begin_ts) in
        let '(es', bs) :=
          index_all cap puts' (if decide (es = []) then ts else begin_ts) (es ++ [e]) in
        (es', true :: bs)
      else let '(es', bs) := index_all cap puts' begin_ts es in (es', false :: bs)
  end.

Lemma put_key_full (f : IndexFile) (es : list entry) (key : string) (off ts : Z) :
  index_ok f es → index_num f ≤ Z.of_nat (length es) + 1 → put_key key off ts f = Done (f, false).
Proof.
  intros [] Hfull. unfold put_key. pose proof (mf_size _ io_wf0). unfold i32_MAX in *.
  rewrite as_i32_id by in_range. by rewrite (proj2 (Z.ltb_ge _ _)) by lia.
Qed.

Lemma put_all_ok (puts : list (string * Z * Z)) (f : IndexFile) (es : list entry) :
  index_ok f es → Forall (λ p, in_s 64 p.1.2 ∧ in_s 64 p.2) puts →
  let r := index_all (index_num f) puts (begin_timestamp (index_header f)) es in
  ∃ f', put_all puts f = Done (f', r.2) ∧ index_ok f' r.1 ∧ hash_slot_num f' = hash_slot_num f.
Proof.
  revert f es. induction puts as [| [[key off] ts] puts IH]; intros f es Hok Hp.
  - by exists f.
  - apply Forall_cons_1 in Hp as [[Hoff Hts] Hp]. cbn in Hoff, Hts. cbn [put_all index_all].
    destruct (Z.ltb_spec (Z.of_nat (length es) + 1) (index_num f)) as [Hlt | Hge].
    + destruct (put_key_ok f es key off ts Hok Hoff Hts Hlt)
        as (f1 & -> & Hok1 & Hs1 & Hn1 & Hb1 & _). cbn [obind].
      destruct (IH f1 _ Hok1 Hp) as (f' & Hpa & Hok' & Hs'). rewrite Hn1, Hb1 in Hpa, Hok'.
      unfold new_entry in Hpa, Hok'. destruct (index_all _ _ _ _) as [es' bs] eqn:E.
      rewrite Hpa. cbn [obind]. exists f'. split_and!; [done | done | congruence].
    + rewrite (put_key_full f es key off ts Hok) by lia. cbn [obind]. destruct (IH f es Hok Hp) as (f' & Hpa & Hok' & Hs').
      destruct (index_all _ _ _ _) as [es' bs]. rewrite Hpa. cbn [obind]. by exists f'.
Qed.

(** C34: the index file implements a bounded multimap from key hashes to
    offsets: any sequence of [put_key] calls succeeds and accepts exactly the
    puts that fit, and the entries linked from a slot are precisely the
    accepted entries of that slot, newest first. *)
Theorem put_key_refines_index (puts : list (string * Z * Z)) (f : IndexFile)
    (es : list entry) :
  index_ok f es → Forall (λ p, in_s 64 p.1.2 ∧ in_s 64 p.2) puts →
  let r := index_all (index_num f) puts (begin_timestamp (index_header f)) es in
  ∃ f', put_all puts f = Done (f', r.2) ∧ index_ok f' r.1 ∧
    ∀ s, 0 ≤ s < hash_slot_num f →
      chain_of f' s = Done (reverse (filter (λ e, slot_of (hash_slot_num f) e = s) r.1)).
Proof.
  intros Hok Hp r. destruct (put_all_ok puts f es Hok Hp) as (f' & Hpa & Hok' & Hs').
  exists f'. split_and!; [done | done |]. intros s Hs. rewrite <- Hs' in *. by apply chain_of_ok.
Qed.

(** Writing the header of a file without entries. *)
Lemma blank_header_ok (f : IndexFile) (h : IndexHeader) (p : Z) (d : buffer) :
  index_ok f [] → 0 ≤ p → p + blen d ≤ 40 → wf_header h → index_count h = 1 →
  hash_slot_count h = 0 → index_ok (write_at p d (with_header h f)) [].
Proof.
  intros [] Hp Hd Hh Hc Hsc.
  destruct (wr_spec (mapped_file f) (p, d) io_wf0) as (Hwf & Hfs & _ & Hout);
    [split; cbn; lia |].
  change (write_at p d (with_header h f)) with
    (mkIndex (hash_slot_num f) (index_num f) (file_total_size f) (wr (mapped_file f) (p, d)) h).
  constructor; index_proj; try done.
  - by rewrite Hfs.
  - by rewrite Hsc.
  - intros s Hs. rewrite Hout; [by apply io_slot0 | lia | lia |]. unfold apart. cbn. lia.
Qed.

(** An index file created anew, after one that ends at [phy] and [ts]. *)
Lemma new_index_file_ok (name : string) (slots idxs off phy ts : Z) :
  parse_file_from_offset name = Done off → 0 ≤ off → 0 < slots → 0 < idxs →
  40 + 4 * slots + 20 * idxs ≤ i32_MAX → off + (40 + 4 * slots + 20 * idxs) ≤ i64_MAX →
  in_s 64 phy → in_s 64 ts →
  ∃ f, new_index_file name slots idxs phy ts [] = Done f ∧ index_ok f [] ∧
       hash_slot_num f = slots ∧ index_num f = idxs ∧
       end_phy_offset (index_header f) = Z.max 0 phy ∧
       begin_timestamp (index_header f) = Z.max 0 ts.
Proof.
  intros Hn Ho Hs Hi Hmax Hmax2 Hphy Hts. unfold new_index_file. unfold i32_MAX, i64_MAX in *.
  unfold INDEX_HEADER_SIZE, HASH_SLOT_SIZE, INDEX_SIZE. rewrite as_usize_id by in_range.
  destruct (new_mapped_file_wf name (40 + slots * 4 + idxs * 20) off [] Hn)
    as (m & Hm & Hwf & _); [unfold i32_MAX; lia | done | unfold i64_MAX; lia |].
  assert (Hmem : file_size m = 40 + slots * 4 + idxs * 20 ∧
                 mmapped_file m = replicate (Z.to_nat (40 + slots * 4 + idxs * 20)) Byte.x00).
  { unfold new_mapped_file in Hm. apply obind_done in Hm as (o & _ & Hm). apply done_inj in Hm.
    rewrite <- Hm. cbn. by rewrite take_nil, Nat.sub_0_r. }
  destruct Hmem as [Hfs Hmem]. rewrite Hm. cbn [obind]. clear Hm.
  set (f0 := mkIndex _ _ _ _ _).
  assert (H0 : index_ok f0 []).
  { constructor; cbn; try done; [lia | lia |]. intros s Hsl. unfold window. rewrite Hmem.
    unfold slice. rewrite drop_replicate, take_replicate.
    replace (_ `min` _)%nat with 4%nat by lia. reflexivity. }
  assert (Hw : ∀ a b c d, in_s 64 a → in_s 64 b → in_s 64 c → in_s 64 d →
    wf_header (mkHeader a b c d 0 1)) by (intros; unfold wf_header, i32_MAX; cbn; split_and!; done).
  assert (Hz : in_s 64 0) by in_range.
  eexists. split; [done |].
  destruct (Z.ltb_spec 0 phy), (Z.ltb_spec 0 ts);
    (split; [repeat (apply blank_header_ok;
                       [| done | vm_compute; congruence | apply Hw; done | done | done]);
             exact H0
            | cbn; split_and!; lia]).
Qed.

Lemma put_key_refines_index_witness :
  ∃ f0, new_index_file "20240101000000000" 3 4 0 0 [] = Done f0 ∧
  let puts := [("a", 100, 5000); ("d", 200, 9000); ("b", 300, 10000); ("c", 400, 1)] in
  let r := index_all 4 puts (begin_timestamp (index_header f0)) [] in
  r.2 = [true; true; true; false] ∧
  ∃ f', put_all puts f0 = Done (f', r.2) ∧ index_ok f' r.1 ∧
    ∀ s, 0 ≤ s < hash_slot_num f0 →
      chain_of f' s = Done (reverse (filter (λ e, slot_of (hash_slot_num f0) e = s) r.1)).
Proof.
  destruct (new_index_file_ok "20240101000000000" 3 4 20240101000000000 0 0)
    as (f0 & Hf & Hok & Hs & Hn & _); [done | lia | lia | lia | unfold i32_MAX; lia
                                   | unfold i64_MAX; lia | in_range | in_range |].
  exists f0. split; [done |]. split; [done |]. rewrite <- Hn.
  apply (put_key_refines_index [("a", 100, 5000); ("d", 200, 9000); ("b", 300, 10000);
                                ("c", 400, 1)] f0 []); [done |].
  repeat (apply Forall_cons_2; [cbn [fst snd]; split; in_range |]). apply Forall_nil_2.
Defined.

Lemma load_header_ok (f : IndexFile) (es : list entry) (h : IndexHeader) :
  index_ok f es → es ≠ [] → load (with_header h f) = Done f.
Proof.
  intros [] Hne. unfold load. cbn [mapped_file with_header].
  pose proof (mf_mem _ io_wf0). unfold mf_get_bytes, INDEX_HEADER_SIZE.
  rewrite (proj2 (Z.ltb_ge _ _)) by lia. cbn [unwrap obind].
  specialize (io_header0 Hne). unfold window in io_header0. rewrite io_header0.
  destruct io_hdr0 as (H1 & H2 & H3 & H4 & H5 & H6). unfold header_bytes, i32_MAX in *.
  do 4 (rewrite get_put_i64 by done; cbn [obind]). rewrite get_put_i32 by done. cbn [obind].
  rewrite <- (app_nil_r (put_i32 (index_count _))), get_put_i32 by in_range. cbn [obind].
  rewrite (proj2 (Z.leb_gt _ _)) by lia. f_equal. unfold with_header. cbn. destruct f as [? ? ? ? []]. done.
Qed.

(** the header survives a restart: after at least one key was put,
    loading the header from the file gives back every field. *)
Theorem load_header_roundtrip (f : IndexFile) (es : list entry) (h : IndexHeader) :
  index_ok f es → es ≠ [] → load (with_header h f) = Done f.
Proof. apply load_header_ok. Qed.

(** An index file with one key put. *)
Definition sample_index : IndexFile :=
  match (let* f := new_index_file "20240101000000000" 3 8 0 0 [] in put_key "a" 100 5000 f) with
  | Done (f, _) => f
  | Panic => mkIndex 0 0 0 sample_file new_header
  end.
Definition sample_entry : entry := mkIdx 97 100 0.

Lemma sample_index_ok : index_ok sample_index [sample_entry].
Proof.
  destruct (new_index_file_ok "20240101000000000" 3 8 20240101000000000 0 0)
    as (f0 & Hf & Hok & Hs & Hn & _); [done | lia | lia | lia | unfold i32_MAX; lia
                                   | unfold i64_MAX; lia | in_range | in_range |].
  destruct (put_key_ok f0 [] "a" 100 5000 Hok) as (f & Hp & Hok' & _);
    [in_range | in_range | rewrite Hn; simpl; lia |].
  unfold sample_index. rewrite Hf. cbn [obind]. rewrite Hp.
  assert (He : new_entry "a" 100 5000 f0 = sample_entry).
  { unfold new_entry, sample_entry. f_equal. clear - Hf.
    unfold new_index_file in Hf. apply obind_done in Hf as (m & _ & Hf). apply done_inj in Hf.
    by rewrite <- Hf. }
  by rewrite <- He.
Qed.

Lemma load_header_roundtrip_witness :
  load (with_header new_header sample_index) = Done sample_index.
Proof.
  apply (load_header_roundtrip sample_index [sample_entry] new_header sample_index_ok). done.
Defined.

(** ** Queries *)

Lemma get_slice_window (m : DefaultMappedFile) (a n : Z) :
  wf_mf m → 0 ≤ a → 0 ≤ n →
  get_slice a n m = if a + n <? file_size m then Some (window m a n) else None.
Proof.
  intros Hwf Ha Hn. unfold get_slice, window.
  destruct (Z.ltb_spec (a + n) (file_size m)).
  - by rewrite (proj2 (Z.leb_gt _ _)), (proj2 (Z.leb_gt _ _)) by lia.
  - rewrite (proj2 (Z.leb_le _ (a + n))) by lia. by rewrite orb_true_r.
Qed.

Lemma read_in_window {A} (get : reader A) (m : DefaultMappedFile) (a l i n : Z) (d : buffer)
    (v : A) :
  wf_mf m → 0 ≤ a → 0 ≤ i → 0 ≤ n → i + n ≤ l → a + l ≤ file_size m →
  window m (a + i) n = d → get d = Done (v, []) → read_in n i get (window m a l) = Done v.
Proof.
  intros Hwf Ha Hi Hn Hl Hs Hw Hg. unfold read_in. rewrite window_length by (done || lia).
  rewrite (proj2 (Z.leb_le _ _)) by lia.
  assert (He : slice (window m a l) (Z.to_nat i) (Z.to_nat (i + n)) = d).
  { rewrite <- Hw. unfold window, slice. rewrite skipn_firstn_comm, take_take, drop_drop.
    f_equal; [lia |]. f_equal. lia. }
  rewrite He, Hg. done.
Qed.

(** The loop reads a blank entry as zeros. *)
Lemma read_blank_entry (m : DefaultMappedFile) (pos : Z) :
  wf_mf m → 0 < pos → 2 * pos + 20 < file_size m →
  window m (2 * pos) 20 = replicate 20 Byte.x00 →
  let buf := window m pos (pos + 20) in
  read_in 4 pos get_i32 buf = Done 0 ∧ read_in 8 (pos + 4) get_i64 buf = Done 0 ∧
  read_in 4 (pos + 12) get_i32 buf = Done 0 ∧ read_in 4 (pos + 16) get_i32 buf = Done 0.
Proof.
  intros Hwf Hp Hs Hzero.
  destruct (proj1 (entry_windows m (2 * pos) 0 0 0 0 Hwf ltac:(lia) ltac:(lia)) Hzero)
    as (W1 & W2 & W3 & W4).
  split_and!; [rewrite (read_in_window get_i32 m pos _ _ _ (put_i32 0) 0)
    | rewrite (read_in_window get_i64 m pos _ _ _ (put_i64 0) 0)
    | rewrite (read_in_window get_i32 m pos _ _ _ (put_i32 0) 0)
    | rewrite (read_in_window get_i32 m pos _ _ _ (put_i32 0) 0)];
    try done; try lia.
  - rewrite <- W1. f_equal. lia.
  - rewrite <- W2. f_equal. lia.
  - rewrite <- W3. f_equal. lia.
  - rewrite <- W4. f_equal. lia.
Qed.

(** a query does not read the entry its slot points to.  It passes the end
    of the entry's range as a size and then indexes the returned slice with the
    absolute position again, so it reads the 20 bytes at twice the position:
    it panics when these lie at or beyond the end of the file, and when nothing
    has been written there yet it finds nothing, although the key was put. *)
Theorem select_phy_offset_misses (f : IndexFile) (es : list entry) (key : string)
    (max_num fuel : nat) (b e : Z) :
  index_ok f es → reference_resource (mapped_file f) = new → (0 < max_num)%nat →
  0 < index_key_hash_method key →
  let s := index_key_hash_method key mod hash_slot_num f in
  let pos := index_base f + 20 * newest (hash_slot_num f) s es in
  0 < newest (hash_slot_num f) s es →
  2 * (40 + 4 * s) + 4 < file_size (mapped_file f) →
  (file_size (mapped_file f) ≤ 2 * pos + 20 →
     select_phy_offset (S fuel) [] key max_num b e f = Some Panic) ∧
  (2 * pos + 20 < file_size (mapped_file f) →
   window (mapped_file f) (2 * pos) 20 = replicate 20 Byte.x00 →
   ∃ f', select_phy_offset (S fuel) [] key max_num b e f = Some (Done (f', []))).
Proof.
  intros Hok Href Hmax Hh s pos Hn Hsl. assert (Hok' := Hok). destruct Hok'.
  pose proof (hash_range key) as Hhr. pose proof (mf_size _ io_wf0) as Hsz.
  pose proof (Z.mod_pos_bound (index_key_hash_method key) (hash_slot_num f) io_slots0) as Hs.
  fold s in Hs. pose proof (newest_bound (hash_slot_num f) s es) as Hnb.
  unfold index_base, i32_MAX in *.
  unfold select_phy_offset, mf_hold. rewrite Href. cbn [hold is_available new].
  change (hold new) with (add_count 1 new, true). cbn [negb].
  set (m1 := set_reference _ (mapped_file f)).
  cbn [hash_slot_num mapped_file index_header with_file].
  rewrite (proj2 (Z.eqb_neq _ _)) by lia. unfold INDEX_HEADER_SIZE, HASH_SLOT_SIZE.
  rewrite (as_usize_id (index_key_hash_method key)) by in_range. fold s.
  rewrite as_usize_id by in_range.
  assert (Hwf1 : wf_mf m1) by (apply (same_file_wf (mapped_file f)); done).
  rewrite get_slice_window by (done || lia). change (file_size m1) with (file_size (mapped_file f)).
  rewrite (proj2 (Z.ltb_lt _ _)) by lia.
  replace (40 + s * 4 + 4) with (4 + (40 + s * 4)) by lia.
  rewrite window_app by lia. change (window m1) with (window (mapped_file f)).
  replace (40 + s * 4) with (40 + 4 * s) by lia.
  rewrite io_slot0, get_put_i32 by (done || in_range). unfold INVALID_INDEX.
  rewrite (proj2 (Z.leb_gt _ _)), (proj2 (Z.ltb_ge _ _)), (proj2 (Z.leb_gt _ _)) by lia.
  cbn [orb]. cbn [select_loop length].
  rewrite (proj2 (Nat.ltb_lt _ _)) by done. cbn [hash_slot_num mapped_file with_file].
  unfold INDEX_HEADER_SIZE, HASH_SLOT_SIZE, INDEX_SIZE.
  rewrite (as_usize_id (newest _ _ _)), as_usize_id by in_range.
  replace (40 + hash_slot_num f * 4 + newest (hash_slot_num f) s es * 20) with pos
    by (unfold pos; lia).
  rewrite get_slice_window by (done || (unfold pos; lia)).
  change (file_size m1) with (file_size (mapped_file f)).
  split; intros Hpos.
  - by rewrite (proj2 (Z.ltb_ge _ _)) by lia.
  - intros Hzero. rewrite (proj2 (Z.ltb_lt _ _)) by lia.
    change (window m1) with (window (mapped_file f)).
    destruct (read_blank_entry (mapped_file f) pos io_wf0 ltac:(unfold pos; lia) Hpos Hzero)
      as (-> & -> & -> & ->).
    cbn [obind Z.ltb Z.compare Z.leb orb].
    rewrite (proj2 (Z.eqb_neq (index_key_hash_method key) 0)) by lia. cbn [andb].
    by eexists.
Qed.

Lemma select_phy_offset_misses_witness :
  chain_of sample_index (index_key_hash_method "a" mod 3) = Done [sample_entry] ∧
  ∃ f', select_phy_offset 1 [] "a" 10 0 9000 sample_index = Some (Done (f', [])).
Proof.
  split; [by vm_compute |].
  apply (select_phy_offset_misses sample_index [sample_entry] "a" 10 0 0 9000 sample_index_ok);
    try (vm_compute; reflexivity); lia.
Defined.
