(* ===== verification/RouteInfo.v ===== *)
(** * RouteInfo: the routing tables of the name server
    ([route_info_manager.rs], [route_data_view.rs], [broker_addr_info.rs])

    The tables are finite maps.  A map that a broker sends is the list of its
    entries in the order the code iterates over them.  The clock and the
    configuration are arguments.  Requests the name server sends to brokers are
    appended to [notifications]. *)

From stdpp Require Import base gmap list strings.
From Stdlib Require Import ZArith Lia.
From S2P Require Import Prelude Bytes Message.
Open Scope Z_scope.
Open Scope rmq_scope.

(** ** Data *)

Module PermName.
Definition PERM_INHERIT : Z := 1.
Definition PERM_WRITE : Z := Z.shiftl 1 1.
Definition PERM_READ : Z := Z.shiftl 1 2.
Definition PERM_PRIORITY : Z := Z.shiftl 1 3.
Definition is_readable (perm : Z) : bool := Z.land perm PERM_READ =? PERM_READ.
Definition is_writeable (perm : Z) : bool := Z.land perm PERM_WRITE =? PERM_WRITE.
(** [perm &= !PERM_WRITE] *)
Definition wipe_write (perm : Z) : Z := Z.ldiff perm PERM_WRITE.
End PermName.

Module TopicSysFlag.
Definition FLAG_UNIT : Z := 1.
Definition FLAG_UNIT_SUB : Z := Z.shiftl 1 1.
Definition has_unit_flag (f : Z) : bool := Z.land f FLAG_UNIT =? FLAG_UNIT.
Definition has_unit_sub_flag (f : Z) : bool := Z.land f FLAG_UNIT_SUB =? FLAG_UNIT_SUB.
End TopicSysFlag.

Definition MASTER_ID : Z := 0.
Definition DEFAULT_BROKER_CHANNEL_EXPIRED_TIME : Z := 1000 * 60 * 2.
Definition SYNC_BROKER_MEMBER_GROUP_PREFIX : string := "rmq_sys_SYNC_BROKER_MEMBER_".

Record QueueData := mkQueueData {
  qd_broker_name : string;
  read_queue_nums : Z;
  write_queue_nums : Z;
  qd_perm : Z;
  topic_sys_flag : Z;
}.
#[export] Instance QueueData_eq_dec : EqDecision QueueData.
Proof. solve_decision. Defined.
Definition set_perm (p : Z) (q : QueueData) : QueueData :=
  mkQueueData (qd_broker_name q) (read_queue_nums q) (write_queue_nums q) p (topic_sys_flag q).

Record BrokerData := mkBrokerData {
  bd_cluster : string;
  bd_broker_name : string;
  broker_addrs : gmap Z string;
  zone_name : option string;
  enable_acting_master : bool;
}.
Definition set_broker_addrs (a : gmap Z string) (b : BrokerData) : BrokerData :=
  mkBrokerData (bd_cluster b) (bd_broker_name b) a (zone_name b) (enable_acting_master b).

Definition remove_broker_by_addr (broker_id : Z) (broker_addr : string) (b : BrokerData)
  : BrokerData :=
  set_broker_addrs
    (filter (λ kv, kv.2 ≠ broker_addr ∨ kv.1 = broker_id) (broker_addrs b)) b.

Record DataVersion := mkDataVersion { state_version : Z; dv_timestamp : Z; counter : Z }.
#[export] Instance DataVersion_eq_dec : EqDecision DataVersion.
Proof. solve_decision. Defined.

#[export] Instance SocketAddr_eq_dec : EqDecision SocketAddr.
Proof. solve_decision. Defined.

(** A broker address: the cluster name and the address. *)
Abbreviation BrokerAddrInfo := (string * string)%type.

Record BrokerLiveInfo := mkLive {
  last_update_timestamp : Z;
  heartbeat_timeout_millis : Z;
  data_version : DataVersion;
  ha_server_addr : string;
  remote_addr : SocketAddr;
}.

Record TopicConfig := mkTopicConfig {
  topic_name : option string;
  tc_read_queue_nums : Z;
  tc_write_queue_nums : Z;
  tc_perm : Z;
  tc_topic_sys_flag : Z;
}.

Record TopicQueueMappingInfo := mkMapping {
  tq_topic : option string;
  scope : option string;
  total_queues : Z;
  bname : option string;
  epoch : Z;
  dirty : bool;
  curr_id_map : option (gmap Z Z);
}.

(** The part of the wrapper a broker sends that registration reads. *)
Record TopicConfigWrapper := mkWrapper {
  topic_config_table : list (string * TopicConfig);
  topic_queue_mapping_info_map : list (string * TopicQueueMappingInfo);
  tc_data_version : DataVersion;
}.

Record RegisterBrokerResult := mkRegisterResult {
  result_ha_server_addr : string;
  result_master_addr : string;
}.

(** A [NotifyMinBrokerIdChange] request and the addresses it goes to. *)
Record Notification := mkNotification {
  min_broker_id : Z;
  min_broker_addr : option string;
  offline_broker_addr : option string;
  ha_broker_addr : option string;
  notified : list string;
}.

Record NamesrvConfig := mkNamesrvConfig {
  delete_topic_with_broker_registration : bool;
  support_acting_master : bool;
  notify_min_broker_id_changed : bool;
}.

Record RouteInfoManager := mkRoute {
  topic_queue_table : gmap string (gmap string QueueData);
  broker_addr_table : gmap string BrokerData;
  cluster_addr_table : gmap string (gset string);
  broker_live_table : gmap BrokerAddrInfo BrokerLiveInfo;
  filter_server_table : gmap BrokerAddrInfo (list string);
  topic_queue_mapping_info_table : gmap string (gmap string TopicQueueMappingInfo);
  notifications : list Notification;
}.

Definition new_route : RouteInfoManager := mkRoute ∅ ∅ ∅ ∅ ∅ ∅ [].

Definition set_topics t r :=
  mkRoute t (broker_addr_table r) (cluster_addr_table r) (broker_live_table r)
    (filter_server_table r) (topic_queue_mapping_info_table r) (notifications r).
Definition set_brokers b r :=
  mkRoute (topic_queue_table r) b (cluster_addr_table r) (broker_live_table r)
    (filter_server_table r) (topic_queue_mapping_info_table r) (notifications r).
Definition set_clusters c r :=
  mkRoute (topic_queue_table r) (broker_addr_table r) c (broker_live_table r)
    (filter_server_table r) (topic_queue_mapping_info_table r) (notifications r).
Definition set_live l r :=
  mkRoute (topic_queue_table r) (broker_addr_table r) (cluster_addr_table r) l
    (filter_server_table r) (topic_queue_mapping_info_table r) (notifications r).
Definition set_filters f r :=
  mkRoute (topic_queue_table r) (broker_addr_table r) (cluster_addr_table r)
    (broker_live_table r) f (topic_queue_mapping_info_table r) (notifications r).
Definition set_mappings m r :=
  mkRoute (topic_queue_table r) (broker_addr_table r) (cluster_addr_table r)
    (broker_live_table r) (filter_server_table r) m (notifications r).
Definition send n r :=
  mkRoute (topic_queue_table r) (broker_addr_table r) (cluster_addr_table r)
    (broker_live_table r) (filter_server_table r) (topic_queue_mapping_info_table r)
    (notifications r ++ n).

(** [map.keys().min()] *)
Definition min_key (m : gmap Z string) : option Z :=
  match (map_to_list m).*1 with
  | [] => None
  | k :: ks => Some (foldr Z.min k ks)
  end.

(** ** Helpers of registration *)

Definition topic_set_of_broker_name (broker_name : string) (r : RouteInfoManager)
  : gset string :=
  dom (filter (λ kv, is_Some (kv.2 !! broker_name)) (topic_queue_table r)).

Definition query_broker_topic_config (cluster_name broker_addr : string)
    (r : RouteInfoManager) : option DataVersion :=
  data_version <$> broker_live_table r !! (cluster_name, broker_addr).

Definition is_broker_topic_config_changed (cluster_name broker_addr : string)
    (dv : DataVersion) (r : RouteInfoManager) : bool :=
  match query_broker_topic_config cluster_name broker_addr r with
  | Some pre => negb (bool_decide (pre = dv))
  | None => true
  end.

Definition is_topic_config_changed (cluster_name broker_addr : string) (dv : DataVersion)
    (broker_name topic : string) (r : RouteInfoManager) : bool :=
  if is_broker_topic_config_changed cluster_name broker_addr dv r then true
  else
    match topic_queue_table r !! topic with
    | Some queue_data =>
        if bool_decide (queue_data = ∅) then true
        else negb (bool_decide (is_Some (queue_data !! broker_name)))
    | None => true
    end.

(** The queue numbers are passed to [QueueData::new] in the order write, read,
    while it expects read, write. *)
Definition queue_data_of (broker_name : string) (c : TopicConfig) : QueueData :=
  mkQueueData broker_name (tc_write_queue_nums c) (tc_read_queue_nums c) (tc_perm c)
    (tc_topic_sys_flag c).

Definition create_and_update_queue_data (broker_name : string) (c : TopicConfig)
    (r : RouteInfoManager) : outcome RouteInfoManager :=
  let queue_data := queue_data_of broker_name c in
  let* topic := unwrap (topic_name c) in
  match topic_queue_table r !! topic with
  | Some qmap =>
      match qmap !! broker_name with
      | None =>
          Done (set_topics (<[topic := <[broker_name := queue_data]> qmap]> (topic_queue_table r)) r)
      | Some existed =>
          if decide (existed = queue_data) then Done r
          else Done (set_topics
                       (<[topic := <[broker_name := queue_data]> qmap]> (topic_queue_table r)) r)
      end
  | None =>
      Done (set_topics (<[topic := {[broker_name := queue_data]}]> (topic_queue_table r)) r)
  end.

Definition choose_broker_addrs_to_notify (addrs : gmap Z string) (offline : option string)
  : outcome (list string) :=
  if (size addrs =? 1)%nat || bool_decide (is_Some offline)
  then Done (map_to_list addrs).*2
  else
    let* min := unwrap (min_key addrs) in
    Done (filter (λ kv, kv.1 ≠ min) (map_to_list addrs)).*2.

Definition send_min_broker_id_changed (addrs : gmap Z string) (offline ha : option string)
    (r : RouteInfoManager) : outcome RouteInfoManager :=
  if bool_decide (addrs = ∅) then Done r
  else
    let* min := unwrap (min_key addrs) in
    let* targets := choose_broker_addrs_to_notify addrs offline in
    Done (send [mkNotification min (addrs !! min) offline ha targets] r).

(** One topic the registration of a broker wants to delete. *)
Definition delete_topic_of_broker (broker_name topic : string)
    (t : gmap string (gmap string QueueData)) : gmap string (gmap string QueueData) :=
  match t !! topic with
  | Some qmap =>
      let qmap' := delete broker_name qmap in
      if bool_decide (qmap' = ∅) then delete topic t else <[topic := qmap']> t
  | None => t
  end.

(** The loop over the broker's topic configurations. *)
Fixpoint update_topics (cluster_name broker_addr : string) (dv : DataVersion)
    (broker_name : string) (register_first is_prime_slave acting : bool)
    (configs : list (string * TopicConfig)) (r : RouteInfoManager) : outcome RouteInfoManager :=
  match configs with
  | [] => Done r
  | (_, c) :: configs' =>
      let* changed :=
        if register_first then Done true
        else
          let* topic := unwrap (topic_name c) in
          Done (is_topic_config_changed cluster_name broker_addr dv broker_name topic r) in
      let c :=
        if changed && is_prime_slave && acting
        then mkTopicConfig (topic_name c) (tc_read_queue_nums c) (tc_write_queue_nums c)
               (PermName.wipe_write (tc_perm c)) (tc_topic_sys_flag c)
        else c in
      let* r := create_and_update_queue_data broker_name c r in
      update_topics cluster_name broker_addr dv broker_name register_first is_prime_slave acting
        configs' r
  end.

Fixpoint update_mappings (infos : list (string * TopicQueueMappingInfo))
    (m : gmap string (gmap string TopicQueueMappingInfo))
  : outcome (gmap string (gmap string TopicQueueMappingInfo)) :=
  match infos with
  | [] => Done m
  | (topic, info) :: infos' =>
      let* name := unwrap (bname info) in
      update_mappings infos' (<[topic := <[name := info]> (default ∅ (m !! topic))]> m)
  end.

(** ** Registration *)

Record RegisterRequest := mkRegister {
  rq_cluster_name : string;
  rq_broker_addr : string;
  rq_broker_name : string;
  rq_broker_id : Z;
  rq_ha_server_addr : string;
  rq_zone_name : option string;
  rq_timeout_millis : option Z;
  rq_enable_acting_master : option bool;
  rq_wrapper : TopicConfigWrapper;
  rq_filter_server_list : list string;
  rq_remote_addr : SocketAddr;
}.

(** The topics of a master, or of the slave that acts for it. *)
Definition register_topics (cfg : NamesrvConfig) (q : RegisterRequest)
    (register_first is_prime_slave acting : bool) (r : RouteInfoManager)
  : outcome RouteInfoManager :=
  let w := rq_wrapper q in
  let r :=
    if delete_topic_with_broker_registration cfg
       && bool_decide (topic_queue_mapping_info_map w = [])
    then
      let old_topic_set := topic_set_of_broker_name (rq_broker_name q) r in
      let new_topic_set : gset string := list_to_set (topic_config_table w).*1 in
      let to_delete_topics := new_topic_set ∖ old_topic_set in
      set_topics
        (foldr (delete_topic_of_broker (rq_broker_name q)) (topic_queue_table r)
           (elements to_delete_topics)) r
    else r in
  let* r :=
    update_topics (rq_cluster_name q) (rq_broker_addr q) (tc_data_version w) (rq_broker_name q)
      register_first is_prime_slave acting (topic_config_table w) r in
  if is_broker_topic_config_changed (rq_cluster_name q) (rq_broker_addr q) (tc_data_version w) r
     || register_first
  then
    let* m := update_mappings (topic_queue_mapping_info_map w)
                (topic_queue_mapping_info_table r) in
    Done (set_mappings m r)
  else Done r.

(** The broker at another address that already holds the id, when its state is
    newer than the registering broker's. *)
Definition conflicts (q : RegisterRequest) (b : BrokerData) (r : RouteInfoManager) : bool :=
  match broker_addrs b !! rq_broker_id q with
  | Some old_addr =>
      if bool_decide (old_addr ≠ rq_broker_addr q) then
        match broker_live_table r !! (rq_cluster_name q, old_addr) with
        | Some val =>
            state_version (tc_data_version (rq_wrapper q)) <? state_version (data_version val)
        | None => false
        end
      else false
  | None => false
  end.

(** The entries the registration leaves in the live and filter tables, and its
    answer. *)
Definition finish_registration (cfg : NamesrvConfig) (now : Z) (q : RegisterRequest)
    (b : BrokerData) (is_min_broker_id_changed : bool) (r : RouteInfoManager)
  : outcome (RouteInfoManager * option RegisterBrokerResult) :=
  let info := (rq_cluster_name q, rq_broker_addr q) in
  let r := set_live
             (<[info := mkLive now
                  (default DEFAULT_BROKER_CHANNEL_EXPIRED_TIME (rq_timeout_millis q))
                  (tc_data_version (rq_wrapper q)) (rq_ha_server_addr q) (rq_remote_addr q)]>
                (broker_live_table r)) r in
  let r := set_filters
             (match rq_filter_server_list q with
              | [] => delete info (filter_server_table r)
              | l => <[info := l]> (filter_server_table r)
              end) r in
  let result :=
    if rq_broker_id q =? MASTER_ID then mkRegisterResult "" ""
    else
      match broker_addrs b !! MASTER_ID with
      | Some master_addr =>
          match broker_live_table r !! (rq_cluster_name q, master_addr) with
          | Some live => mkRegisterResult (ha_server_addr live) (ha_server_addr live)
          | None => mkRegisterResult "" ""
          end
      | None => mkRegisterResult "" ""
      end in
  let* r :=
    if is_min_broker_id_changed && notify_min_broker_id_changed cfg then
      let* live := unwrap (broker_live_table r !! info) in
      send_min_broker_id_changed (broker_addrs b) None (Some (ha_server_addr live)) r
    else Done r in
  Done (r, Some result).

Definition register_broker (cfg : NamesrvConfig) (now : Z) (q : RegisterRequest)
    (r : RouteInfoManager) : outcome (RouteInfoManager * option RegisterBrokerResult) :=
  let name := rq_broker_name q in
  let r := set_clusters
             (<[rq_cluster_name q :=
                  {[name]} ∪ default ∅ (cluster_addr_table r !! rq_cluster_name q)]>
                (cluster_addr_table r)) r in
  let acting := default false (rq_enable_acting_master q) in
  let '(b, register_first) :=
    match broker_addr_table r !! name with
    | Some b =>
        (mkBrokerData (bd_cluster b) (bd_broker_name b) (broker_addrs b) (rq_zone_name q) acting,
         false)
    | None => (mkBrokerData (rq_cluster_name q) name ∅ (rq_zone_name q) acting, true)
    end in
  let prev_min_broker_id := default 0 (min_key (broker_addrs b)) in
  let is_min_broker_id_changed := rq_broker_id q <? prev_min_broker_id in
  let b := remove_broker_by_addr (rq_broker_id q) (rq_broker_addr q) b in
  let r := set_brokers (<[name := b]> (broker_addr_table r)) r in
  if conflicts q b r then
    Done (set_live (delete (rq_cluster_name q, rq_broker_addr q) (broker_live_table r)) r,
          Some (mkRegisterResult "" ""))
  else if negb (bool_decide (is_Some (broker_addrs b !! rq_broker_id q)))
          && (length (topic_config_table (rq_wrapper q)) =? 1)%nat
  then Done (r, None)
  else
    let old_addr := broker_addrs b !! rq_broker_id q in
    let b := set_broker_addrs (<[rq_broker_id q := rq_broker_addr q]> (broker_addrs b)) b in
    let r := set_brokers (<[name := b]> (broker_addr_table r)) r in
    let register_first :=
      register_first || match old_addr with None => true | Some a => bool_decide (a = ""%string) end in
    let is_master := MASTER_ID =? rq_broker_id q in
    let is_prime_slave :=
      bool_decide (is_Some (rq_enable_acting_master q)) && negb is_master
      && bool_decide (min_key (broker_addrs b) = Some (rq_broker_id q)) in
    let* r :=
      if is_master || is_prime_slave
      then register_topics cfg q register_first is_prime_slave (enable_acting_master b) r
      else Done r in
    finish_registration cfg now q b is_min_broker_id_changed r.

(** ** Routes *)

Record TopicRouteData := mkTopicRoute {
  broker_datas : list BrokerData;
  queue_datas : list QueueData;
  route_filter_servers : gmap string (list string);
  topic_queue_mapping_by_broker : option (gmap string TopicQueueMappingInfo);
}.

(** The filter servers of a broker's addresses. *)
Definition add_filter_servers (r : RouteInfoManager) (b : BrokerData)
    (fs : gmap string (list string)) : gmap string (list string) :=
  if bool_decide (filter_server_table r = ∅) then fs
  else
    foldl (λ fs addr,
      match filter_server_table r !! (bd_cluster b, addr) with
      | Some l => <[addr := l]> fs
      | None => fs
      end) fs (map_to_list (broker_addrs b)).*2.

(** A broker without a master whose topic cannot be written to: the slave with
    the least id takes the master's place in the answer. *)
Definition acting_master_of (qds : list QueueData) (b : BrokerData) : BrokerData :=
  if bool_decide (broker_addrs b = ∅) || bool_decide (is_Some (broker_addrs b !! MASTER_ID))
     || negb (enable_acting_master b)
  then b
  else
    match list_find (λ qd, qd_broker_name qd = bd_broker_name b) qds with
    | Some (_, qd) =>
        if negb (PermName.is_writeable (qd_perm qd)) then
          match min_key (broker_addrs b) with
          | Some min =>
              match broker_addrs b !! min with
              | Some addr =>
                  set_broker_addrs (<[MASTER_ID := addr]> (delete min (broker_addrs b))) b
              | None => b
              end
          | None => b
          end
        else b
    | None => b
    end.

Definition needs_acting_master (b : BrokerData) : bool :=
  negb (bool_decide (broker_addrs b = ∅)) &&
  negb (bool_decide (is_Some (broker_addrs b !! MASTER_ID))).

Definition pickup_topic_route_data (cfg : NamesrvConfig) (topic : string)
    (r : RouteInfoManager) : option TopicRouteData :=
  match topic_queue_table r !! topic with
  | None => None
  | Some qmap =>
      let qds := (map_to_list qmap).*2 in
      let bds := omap (λ name, broker_addr_table r !! name) (map_to_list qmap).*1 in
      match bds with
      | [] => None
      | _ =>
          let route :=
            mkTopicRoute bds qds (foldl (λ fs b, add_filter_servers r b fs) ∅ bds)
              (topic_queue_mapping_info_table r !! topic) in
          if negb (support_acting_master cfg) then Some route
          else if String.prefix SYNC_BROKER_MEMBER_GROUP_PREFIX topic then Some route
          else if bool_decide (bds = []) || bool_decide (qds = []) then Some route
          else if negb (existsb needs_acting_master bds) then Some route
          else
            Some (mkTopicRoute (acting_master_of qds <$> bds) qds (route_filter_servers route)
                    (topic_queue_mapping_by_broker route))
      end
  end.

(** ** Unregistration *)

Record UnRegisterRequest := mkUnregister {
  un_broker_name : string;
  un_broker_addr : string;
  un_cluster_name : string;
  un_broker_id : Z;
}.

Record un_state := mkUnState {
  removed_broker : gset string;
  reduced_broker : gset string;
  need_notify : gmap string (gmap Z string * string);
}.

Definition drop_cluster_member (cluster_name broker_name : string)
    (c : gmap string (gset string)) : gmap string (gset string) :=
  match c !! cluster_name with
  | Some names =>
      let names' := names ∖ {[broker_name]} in
      if bool_decide (names' = ∅) then delete cluster_name c else <[cluster_name := names']> c
  | None => c
  end.

(** One request of the batch. *)
Definition un_register_one (q : UnRegisterRequest) (u : un_state) (r : RouteInfoManager)
  : un_state * RouteInfoManager :=
  let name := un_broker_name q in
  let info := (un_cluster_name q, un_broker_addr q) in
  let r := set_live (delete info (broker_live_table r)) r in
  let r := set_filters (delete info (filter_server_table r)) r in
  match broker_addr_table r !! name with
  | Some b =>
      let is_min_broker_id_changed :=
        bool_decide (min_key (broker_addrs b) = Some (un_broker_id q)) in
      let addrs := filter (λ kv, kv.2 ≠ un_broker_addr q) (broker_addrs b) in
      if bool_decide (addrs = ∅) then
        let r := set_brokers (delete name (broker_addr_table r)) r in
        let r := set_clusters
                   (drop_cluster_member (un_cluster_name q) name (cluster_addr_table r)) r in
        (mkUnState ({[name]} ∪ removed_broker u) (reduced_broker u) (need_notify u), r)
      else
        let r := set_brokers (<[name := set_broker_addrs addrs b]> (broker_addr_table r)) r in
        (mkUnState (removed_broker u) ({[name]} ∪ reduced_broker u)
           (if is_min_broker_id_changed
            then <[name := (addrs, un_broker_addr q)]> (need_notify u) else need_notify u), r)
  | None =>
      (mkUnState (removed_broker u) ({[name]} ∪ reduced_broker u) (need_notify u), r)
  end.

Fixpoint un_register_all (qs : list UnRegisterRequest) (u : un_state) (r : RouteInfoManager)
  : un_state * RouteInfoManager :=
  match qs with
  | [] => (u, r)
  | q :: qs' => let '(u, r) := un_register_one q u r in un_register_all qs' u r
  end.

Definition is_no_master_exists (broker_name : string) (r : RouteInfoManager) : bool :=
  match broker_addr_table r !! broker_name with
  | None => true
  | Some b => match min_key (broker_addrs b) with None => true | Some k => 0 <? k end
  end.

(** The write permission is wiped from the queues of brokers that lost their
    master and let a slave act for it. *)
Definition reduce_queue_data (reduced : gset string) (r : RouteInfoManager) (name : string)
    (qd : QueueData) : QueueData :=
  if decide (name ∈ reduced) then
    match broker_addr_table r !! name with
    | Some b =>
        if enable_acting_master b && is_no_master_exists name r
        then set_perm (PermName.wipe_write (qd_perm qd)) qd else qd
    | None => qd
    end
  else qd.

(** A topic left without brokers is deleted. *)
Definition clean_topic (removed reduced : gset string) (r : RouteInfoManager)
    (qmap : gmap string QueueData) : option (gmap string QueueData) :=
  let qmap := filter (λ kv, kv.1 ∉ removed) qmap in
  if bool_decide (qmap = ∅) then None
  else Some (map_imap (λ name qd, Some (reduce_queue_data reduced r name qd)) qmap).
Definition clean_topic_by_un_register_requests (removed reduced : gset string)
    (r : RouteInfoManager) : RouteInfoManager :=
  set_topics (omap (clean_topic removed reduced r) (topic_queue_table r)) r.

Fixpoint notify_all (ns : list (string * (gmap Z string * string))) (r : RouteInfoManager)
  : outcome RouteInfoManager :=
  match ns with
  | [] => Done r
  | (name, (addrs, offline)) :: ns' =>
      let* r :=
        match broker_addr_table r !! name with
        | Some b =>
            if enable_acting_master b
            then send_min_broker_id_changed addrs (Some offline) None r else Done r
        | None => Done r
        end in
      notify_all ns' r
  end.

Definition un_register_broker (cfg : NamesrvConfig) (qs : list UnRegisterRequest)
    (r : RouteInfoManager) : outcome RouteInfoManager :=
  let '(u, r) := un_register_all qs (mkUnState ∅ ∅ ∅) r in
  let r := clean_topic_by_un_register_requests (removed_broker u) (reduced_broker u) r in
  if negb (bool_decide (need_notify u = ∅)) && notify_min_broker_id_changed cfg
  then notify_all (map_to_list (need_notify u)) r
  else Done r.

(** [setup_un_register_request]: the broker that has the address, if any. *)
Definition setup_un_register_request (info : BrokerAddrInfo) (r : RouteInfoManager)
  : option UnRegisterRequest :=
  let candidates :=
    b ← (map_to_list (broker_addr_table r)).*2;
    if decide (info.1 = bd_cluster b) then
      kv ← map_to_list (broker_addrs b);
      if decide (info.2 = kv.2)
      then [mkUnregister (bd_broker_name b) info.2 info.1 kv.1] else []
    else [] in
  head candidates.

Definition on_connection_disconnected (cfg : NamesrvConfig) (info : BrokerAddrInfo)
    (r : RouteInfoManager) : outcome RouteInfoManager :=
  match setup_un_register_request info r with
  | Some q => un_register_broker cfg [q] r
  | None => Done r
  end.

(** The brokers whose heartbeat is overdue, in the order they are scanned. *)
Fixpoint disconnect_all (cfg : NamesrvConfig) (infos : list BrokerAddrInfo)
    (r : RouteInfoManager) : outcome RouteInfoManager :=
  match infos with
  | [] => Done r
  | i :: rest => let* r := on_connection_disconnected cfg i r in disconnect_all cfg rest r
  end.
Definition scan_not_active_broker (cfg : NamesrvConfig) (now : Z) (r : RouteInfoManager)
  : outcome RouteInfoManager :=
  disconnect_all cfg
    (filter (λ kv, as_i64 (heartbeat_timeout_millis kv.2 + last_update_timestamp kv.2) < now)
       (map_to_list (broker_live_table r))).*1 r.

Definition connection_disconnected (cfg : NamesrvConfig) (addr : SocketAddr)
    (r : RouteInfoManager) : outcome RouteInfoManager :=
  match list_find (λ kv, remote_addr kv.2 = addr) (map_to_list (broker_live_table r)) with
  | Some (_, (info, _)) => on_connection_disconnected cfg info r
  | None => Done r
  end.

(** ** Administration *)

Definition update_broker_info_update_timestamp (now : Z) (cluster_name broker_addr : string)
    (r : RouteInfoManager) : RouteInfoManager :=
  set_live
    (alter (λ l, mkLive now (heartbeat_timeout_millis l) (data_version l) (ha_server_addr l)
                   (remote_addr l)) (cluster_name, broker_addr) (broker_live_table r)) r.

Definition get_broker_member_group (broker_name : string) (r : RouteInfoManager)
  : gmap Z string :=
  match broker_addr_table r !! broker_name with Some b => broker_addrs b | None => ∅ end.

Inductive perm_request := WipeWritePermOfBroker | AddWritePermOfBroker | OtherCode.

Definition operate_perm (code : perm_request) (perm : Z) : Z :=
  match code with
  | WipeWritePermOfBroker => PermName.wipe_write perm
  | AddWritePermOfBroker => Z.lor PermName.PERM_READ PermName.PERM_WRITE
  | OtherCode => perm
  end.

Definition operate_write_perm_of_broker (broker_name : string) (code : perm_request)
    (r : RouteInfoManager) : RouteInfoManager * Z :=
  (set_topics
     ((λ qmap : gmap string QueueData,
         alter (λ qd, set_perm (operate_perm code (qd_perm qd)) qd) broker_name qmap)
        <$> topic_queue_table r) r,
   Z.of_nat (size (topic_set_of_broker_name broker_name r))).

Definition wipe_write_perm_of_broker_by_lock (broker_name : string) (r : RouteInfoManager) :=
  operate_write_perm_of_broker broker_name WipeWritePermOfBroker r.
Definition add_write_perm_of_broker_by_lock (broker_name : string) (r : RouteInfoManager) :=
  operate_write_perm_of_broker broker_name AddWritePermOfBroker r.

Definition delete_topic (topic : string) (cluster_name : option string)
    (r : RouteInfoManager) : RouteInfoManager :=
  match cluster_name with
  | Some c =>
      if bool_decide (c = ""%string) then set_topics (delete topic (topic_queue_table r)) r
      else
        match cluster_addr_table r !! c with
        | None => r
        | Some names =>
            if bool_decide (names = ∅) then r
            else
              match topic_queue_table r !! topic with
              | None => r
              | Some qmap =>
                  let qmap := filter (λ kv, kv.1 ∉ names) qmap in
                  set_topics
                    (if bool_decide (qmap = ∅) then delete topic (topic_queue_table r)
                     else <[topic := qmap]> (topic_queue_table r)) r
              end
        end
  | None => set_topics (delete topic (topic_queue_table r)) r
  end.

(** The queues are added until one names a broker that is not registered. *)
Fixpoint add_queues (brokers : gmap string BrokerData) (qds : list QueueData)
    (qmap : gmap string QueueData) : gmap string QueueData :=
  match qds with
  | [] => qmap
  | qd :: qds' =>
      match brokers !! qd_broker_name qd with
      | Some _ => add_queues brokers qds' (<[qd_broker_name qd := qd]> qmap)
      | None => qmap
      end
  end.

Definition register_topic (topic : string) (queue_data_vec : list QueueData)
    (r : RouteInfoManager) : RouteInfoManager :=
  match queue_data_vec with
  | [] => r
  | _ =>
      set_topics
        (<[topic := add_queues (broker_addr_table r) queue_data_vec
                      (default ∅ (topic_queue_table r !! topic))]> (topic_queue_table r)) r
  end.

(** ** Listings *)

Definition get_all_topic_list (r : RouteInfoManager) : list string :=
  (map_to_list (topic_queue_table r)).*1.

(** A topic is listed once for each of its brokers in the cluster. *)
Definition get_topics_by_cluster (cluster : string) (r : RouteInfoManager) : list string :=
  match cluster_addr_table r !! cluster with
  | Some names =>
      name ← elements names;
      (filter (λ kv, is_Some (kv.2 !! name)) (map_to_list (topic_queue_table r))).*1
  | None => []
  end.

Definition first_flag (qmap : gmap string QueueData) : option Z :=
  topic_sys_flag <$> head (map_to_list qmap).*2.

Definition topics_where (p : Z → bool) (r : RouteInfoManager) : list string :=
  (filter (λ kv, p <$> first_flag kv.2 = Some true)
     (map_to_list (topic_queue_table r))).*1.
Definition get_unit_topics := topics_where TopicSysFlag.has_unit_flag.
Definition get_has_unit_sub_topic_list := topics_where TopicSysFlag.has_unit_sub_flag.
Definition get_has_unit_sub_un_unit_topic_list :=
  topics_where (λ f, negb (TopicSysFlag.has_unit_flag f) && TopicSysFlag.has_unit_sub_flag f).

Definition get_system_topic_list (r : RouteInfoManager) : list string * option string :=
  (kv ← map_to_list (cluster_addr_table r); kv.1 :: elements kv.2,
   head (omap (λ b, head (map_to_list (broker_addrs b)).*2) (map_to_list (broker_addr_table r)).*2)).
