(* ===== verification/RouteProperties.v ===== *)
(** * RouteProperties: what the routing tables guarantee

    The invariant every operation keeps, and the effect of registration,
    unregistration and permission changes on the routes clients are given. *)

From stdpp Require Import base gmap list strings relations.
From Stdlib Require Import ZArith Lia.
From S2P Require Import Prelude Bytes Message RouteInfo.
Open Scope Z_scope.
Open Scope rmq_scope.

Abbreviation topics := (gmap string (gmap string QueueData)).

(** ** The invariant *)

(** Every queue belongs to a registered broker, under its own name; every
    broker is listed under its name and is a member of its cluster. *)
Record tables_ok (t : topics) (b : gmap string BrokerData) (c : gmap string (gset string))
  : Prop := {
  ok_registered : ∀ topic qmap name qd,
    t !! topic = Some qmap → qmap !! name = Some qd → is_Some (b !! name);
  ok_queue_name : ∀ topic qmap name qd,
    t !! topic = Some qmap → qmap !! name = Some qd → qd_broker_name qd = name;
  ok_broker_name : ∀ name bd, b !! name = Some bd → bd_broker_name bd = name;
  ok_member : ∀ name bd, b !! name = Some bd →
    ∃ names, c !! bd_cluster bd = Some names ∧ name ∈ names;
}.

Definition route_ok (r : RouteInfoManager) : Prop :=
  tables_ok (topic_queue_table r) (broker_addr_table r) (cluster_addr_table r).

Lemma new_route_ok : route_ok new_route.
Proof. constructor; cbn; intros *; rewrite ?lookup_empty; done. Qed.

(** A change of the topics that only adds queues of registered brokers. *)
Definition sub_topics (t' t : topics) (b : gmap string BrokerData) : Prop :=
  ∀ topic qmap' name qd', t' !! topic = Some qmap' → qmap' !! name = Some qd' →
    is_Some (b !! name) ∧ qd_broker_name qd' = name ∨
    ∃ qmap qd, t !! topic = Some qmap ∧ qmap !! name = Some qd ∧
               qd_broker_name qd' = qd_broker_name qd.

Lemma tables_ok_topics (t t' : topics) b c :
  tables_ok t b c → sub_topics t' t b → tables_ok t' b c.
Proof.
  intros [H1 H2 H3 H4] Hs. constructor; [| | done | done].
  - intros topic qmap name qd Ht Hq.
    destruct (Hs _ _ _ _ Ht Hq) as [[? _] | (? & ? & ? & ? & _)]; eauto.
  - intros topic qmap name qd Ht Hq.
    destruct (Hs _ _ _ _ Ht Hq) as [[_ ?] | (? & ? & ? & ? & ->)]; eauto.
Qed.

Lemma sub_topics_refl (t : topics) b : sub_topics t t b.
Proof. intros topic qmap name qd Ht Hq. right. eauto. Qed.

Lemma sub_topics_trans (t1 t2 t3 : topics) b :
  sub_topics t1 t2 b → sub_topics t2 t3 b → sub_topics t1 t3 b.
Proof.
  intros H12 H23 topic qmap name qd Ht Hq.
  destruct (H12 _ _ _ _ Ht Hq) as [? | (qm & q & Hqm & Hqq & He)]; [by left |].
  destruct (H23 _ _ _ _ Hqm Hqq) as [[? ?] | (qm' & q' & ? & ? & ?)].
  - left. split; [done | congruence].
  - right. exists qm', q'. split_and!; [done | done | congruence].
Qed.

(** ** Registration *)

Lemma create_and_update_sub (name : string) (c : TopicConfig) (r r' : RouteInfoManager) :
  is_Some (broker_addr_table r !! name) →
  create_and_update_queue_data name c r = Done r' →
  broker_addr_table r' = broker_addr_table r ∧ cluster_addr_table r' = cluster_addr_table r ∧
  sub_topics (topic_queue_table r') (topic_queue_table r) (broker_addr_table r).
Proof.
  intros Hb H. unfold create_and_update_queue_data in H.
  apply obind_done in H as (topic & _ & H).
  assert (Hins : ∀ qmap, (∀ n q, qmap !! n = Some q →
      ∃ qm, topic_queue_table r !! topic = Some qm ∧ qm !! n = Some q) →
    sub_topics (<[topic := <[name := queue_data_of name c]> qmap]> (topic_queue_table r))
      (topic_queue_table r) (broker_addr_table r)).
  { intros qmap Hq t qm n q Ht Hn. destruct (decide (t = topic)) as [-> | Hne].
    - rewrite lookup_insert_eq in Ht. injection Ht as <-.
      destruct (decide (n = name)) as [-> | Hnn].
      + rewrite lookup_insert_eq in Hn. injection Hn as <-. by left.
      + rewrite lookup_insert_ne in Hn by done. destruct (Hq _ _ Hn) as (qm' & ? & ?). right. eauto.
    - rewrite lookup_insert_ne in Ht by done. right. eauto. }
  destruct (topic_queue_table r !! topic) as [qmap |] eqn:E.
  - destruct (qmap !! name) as [ex |] eqn:Eq; [destruct (decide _) |];
      apply done_inj in H; subst r'; cbn; split_and!; try done;
      solve [apply sub_topics_refl | apply Hins; eauto].
  - apply done_inj in H. subst r'. cbn. split_and!; try done.
    rewrite <- insert_empty. apply Hins. intros n q. by rewrite lookup_empty.
Qed.

Lemma update_topics_sub cl addr dv name rf ps act (configs : list (string * TopicConfig))
    (r r' : RouteInfoManager) :
  is_Some (broker_addr_table r !! name) →
  update_topics cl addr dv name rf ps act configs r = Done r' →
  broker_addr_table r' = broker_addr_table r ∧ cluster_addr_table r' = cluster_addr_table r ∧
  sub_topics (topic_queue_table r') (topic_queue_table r) (broker_addr_table r).
Proof.
  revert r. induction configs as [| [k c] configs IH]; intros r Hb H; cbn [update_topics] in H.
  - apply done_inj in H as <-. split_and!; [done | done | apply sub_topics_refl].
  - apply obind_done in H as (ch & _ & H). apply obind_done in H as (r1 & H1 & H).
    apply create_and_update_sub in H1 as (Hb1 & Hc1 & Hs1); [| done].
    rewrite <- Hb1 in Hb. apply IH in H as (Hb2 & Hc2 & Hs2); [| done].
    rewrite Hb1 in *. split_and!; [congruence | congruence |]. by eapply sub_topics_trans.
Qed.

Lemma delete_topic_of_broker_sub (name topic : string) (t : topics) b :
  sub_topics (delete_topic_of_broker name topic t) t b.
Proof.
  intros tp qm n q Ht Hn. unfold delete_topic_of_broker in Ht. right.
  destruct (t !! topic) as [qmap |] eqn:E; [| eauto].
  destruct (bool_decide _).
  - apply lookup_delete_Some in Ht as [_ Ht]. eauto.
  - apply lookup_insert_Some in Ht as [[-> <-] | [_ Ht]]; [| eauto].
    apply lookup_delete_Some in Hn as [_ Hn]. eauto.
Qed.

Lemma delete_topics_sub (name : string) (ts : list string) (t : topics) b :
  sub_topics (foldr (delete_topic_of_broker name) t ts) t b.
Proof.
  induction ts as [| x ts IH]; [apply sub_topics_refl |].
  eapply sub_topics_trans; [apply delete_topic_of_broker_sub | done].
Qed.

Lemma register_topics_sub cfg q rf ps act (r r' : RouteInfoManager) :
  is_Some (broker_addr_table r !! rq_broker_name q) →
  register_topics cfg q rf ps act r = Done r' →
  broker_addr_table r' = broker_addr_table r ∧ cluster_addr_table r' = cluster_addr_table r ∧
  sub_topics (topic_queue_table r') (topic_queue_table r) (broker_addr_table r).
Proof.
  intros Hb H. unfold register_topics in H. apply obind_done in H as (r2 & H2 & H).
  set (r1 := if delete_topic_with_broker_registration cfg && _ then _ else r) in H2.
  assert (H1 : broker_addr_table r1 = broker_addr_table r ∧
    cluster_addr_table r1 = cluster_addr_table r ∧
    sub_topics (topic_queue_table r1) (topic_queue_table r) (broker_addr_table r)).
  { unfold r1. destruct (_ && _); cbn; split_and!; try done;
      [apply delete_topics_sub | apply sub_topics_refl]. }
  destruct H1 as (Hb1 & Hc1 & Hs1). rewrite <- Hb1 in Hb.
  apply update_topics_sub in H2 as (Hb2 & Hc2 & Hs2); [| done]. rewrite Hb1 in *.
  assert (Hr' : broker_addr_table r' = broker_addr_table r2 ∧
    cluster_addr_table r' = cluster_addr_table r2 ∧
    topic_queue_table r' = topic_queue_table r2).
  { destruct (_ || _); [apply obind_done in H as (mm & _ & H) |]; apply done_inj in H; by subst r'. }
  destruct Hr' as (-> & -> & ->). split_and!; [congruence | congruence |].
  by eapply sub_topics_trans.
Qed.

Lemma send_tables addrs off ha (r r' : RouteInfoManager) :
  send_min_broker_id_changed addrs off ha r = Done r' →
  topic_queue_table r' = topic_queue_table r ∧ broker_addr_table r' = broker_addr_table r ∧
  cluster_addr_table r' = cluster_addr_table r.
Proof.
  unfold send_min_broker_id_changed. destruct (bool_decide _).
  - by intros ->%done_inj.
  - intros H. apply obind_done in H as (mn & _ & H). apply obind_done in H as (tg & _ & H).
    apply done_inj in H. by subst r'.
Qed.

Lemma finish_tables cfg now q b ch (r r' : RouteInfoManager) res :
  finish_registration cfg now q b ch r = Done (r', res) →
  topic_queue_table r' = topic_queue_table r ∧ broker_addr_table r' = broker_addr_table r ∧
  cluster_addr_table r' = cluster_addr_table r.
Proof.
  intros H. unfold finish_registration in H. apply obind_done in H as (r2 & H2 & H).
  apply done_inj in H. injection H as -> _.
  destruct (_ && _).
  - apply obind_done in H2 as (lv & _ & H2). apply send_tables in H2. done.
  - apply done_inj in H2. by subst r'.
Qed.

(** The broker entry and the cluster entry a registration starts with. *)
Lemma register_prologue_ok (q : RegisterRequest) (bd : BrokerData) (r : RouteInfoManager) :
  route_ok r →
  bd_broker_name bd = rq_broker_name q →
  bd_cluster bd = (match broker_addr_table r !! rq_broker_name q with
                   | Some b => bd_cluster b | None => rq_cluster_name q end) →
  tables_ok (topic_queue_table r) (<[rq_broker_name q := bd]> (broker_addr_table r))
    (<[rq_cluster_name q := {[rq_broker_name q]} ∪
         default ∅ (cluster_addr_table r !! rq_cluster_name q)]> (cluster_addr_table r)).
Proof.
  intros [H1 H2 H3 H4] Hn Hc. set (c' := <[_ := _]> (cluster_addr_table r)).
  assert (Hmono : ∀ name cl names, cluster_addr_table r !! cl = Some names → name ∈ names →
                  ∃ names', c' !! cl = Some names' ∧ name ∈ names').
  { intros name cl names Hcl Hin. unfold c'. destruct (decide (cl = rq_cluster_name q)) as [-> | ?].
    - rewrite lookup_insert_eq, Hcl. eexists. split; [done |]. cbn. set_solver.
    - rewrite lookup_insert_ne by done. eauto. }
  constructor.
  - intros topic qmap name qd Ht Hq. destruct (decide (name = rq_broker_name q)) as [-> | ?].
    + rewrite lookup_insert_eq. eauto.
    + rewrite lookup_insert_ne by done. eauto.
  - done.
  - intros name b Hb. apply lookup_insert_Some in Hb as [[<- <-] | [_ Hb]]; [done | eauto].
  - intros name b Hb. apply lookup_insert_Some in Hb as [[<- <-] | [_ Hb]].
    + rewrite Hc. destruct (broker_addr_table r !! rq_broker_name q) as [b0 |] eqn:E.
      * destruct (H4 _ _ E) as (names & ? & ?). eauto.
      * unfold c'. rewrite lookup_insert_eq. eexists. split; [done |]. set_solver.
    + destruct (H4 _ _ Hb) as (names & ? & ?). eauto.
Qed.

Lemma register_broker_ok cfg now q (r r' : RouteInfoManager) res :
  route_ok r → register_broker cfg now q r = Done (r', res) → route_ok r'.
Proof.
  intros Hok H. unfold register_broker in H. cbv zeta in H.
  set (r1 := set_clusters _ r) in H.
  set (bf := match broker_addr_table r1 !! rq_broker_name q with Some _ => _ | None => _ end) in H.
  destruct bf as [b rf] eqn:Ebf.
  assert (Hbd : bd_broker_name b = rq_broker_name q ∧
    bd_cluster b = match broker_addr_table r !! rq_broker_name q with
                   | Some b => bd_cluster b | None => rq_cluster_name q end).
  { unfold bf, r1 in Ebf. cbn in Ebf.
    destruct (broker_addr_table r !! rq_broker_name q) as [b0 |] eqn:E; injection Ebf as <- _; cbn.
    - split; [| done]. by apply (ok_broker_name _ _ _ Hok).
    - done. }
  destruct Hbd as [Hbn Hbc]. clear Ebf bf.
  set (b1 := remove_broker_by_addr _ _ b) in H.
  assert (Hok1 : ∀ a, route_ok
    (set_brokers (<[rq_broker_name q := set_broker_addrs a b1]> (broker_addr_table r1)) r1)).
  { intros a. unfold route_ok. cbn. by apply register_prologue_ok. }
  assert (Hb1 : set_broker_addrs (broker_addrs b1) b1 = b1) by (by destruct b1).
  destruct (conflicts _ _ _).
  { apply done_inj in H. injection H as <- _. pose proof (Hok1 (broker_addrs b1)) as Hk.
    rewrite Hb1 in Hk. exact Hk. }
  destruct (_ && _).
  { apply done_inj in H. injection H as <- _. pose proof (Hok1 (broker_addrs b1)) as Hk.
    rewrite Hb1 in Hk. exact Hk. }
  apply obind_done in H as (r3 & H3 & H). apply finish_tables in H as (Ht & Hb & Hc).
  unfold route_ok. rewrite Ht, Hb, Hc.
  set (a := <[rq_broker_id q := rq_broker_addr q]> (broker_addrs b1)) in *.
  specialize (Hok1 a). cbn in H3. rewrite insert_insert_eq in H3.
  set (r2 := set_brokers (<[rq_broker_name q := set_broker_addrs a b1]> _) r1) in Hok1.
  destruct (_ || _).
  - apply register_topics_sub in H3 as (Hb3 & Hc3 & Hs3).
    + rewrite Hb3, Hc3. eapply tables_ok_topics; [exact Hok1 | exact Hs3].
    + cbn. rewrite lookup_insert_eq. eauto.
  - apply done_inj in H3. subst r3. exact Hok1.
Qed.

(** ** Unregistration *)

(** While a batch runs, queues may name brokers the batch has removed. *)
Record batch_ok (removed : gset string) (r : RouteInfoManager) : Prop := {
  bo_registered : ∀ topic qmap name qd,
    topic_queue_table r !! topic = Some qmap → qmap !! name = Some qd →
    name ∈ removed ∨ is_Some (broker_addr_table r !! name);
  bo_queue_name : ∀ topic qmap name qd,
    topic_queue_table r !! topic = Some qmap → qmap !! name = Some qd → qd_broker_name qd = name;
  bo_broker_name : ∀ name bd, broker_addr_table r !! name = Some bd → bd_broker_name bd = name;
  bo_member : ∀ name bd, broker_addr_table r !! name = Some bd →
    ∃ names, cluster_addr_table r !! bd_cluster bd = Some names ∧ name ∈ names;
}.

Lemma drop_cluster_member_ne (cl name name' cl' : string) (c : gmap string (gset string)) names :
  name' ≠ name → c !! cl' = Some names → name' ∈ names →
  ∃ names', drop_cluster_member cl name c !! cl' = Some names' ∧ name' ∈ names'.
Proof.
  intros Hne Hc Hin. unfold drop_cluster_member. destruct (c !! cl) as [ns |] eqn:E; [| eauto].
  destruct (decide (cl' = cl)) as [-> | Hcl].
  - rewrite Hc in E. injection E as <-. assert (name' ∈ names ∖ {[name]}) by set_solver.
    rewrite bool_decide_false by set_solver. rewrite lookup_insert_eq. eauto.
  - destruct (bool_decide _); [rewrite lookup_delete_ne by done | rewrite lookup_insert_ne by done];
      eauto.
Qed.

Lemma un_register_one_ok q (u u' : un_state) (r r' : RouteInfoManager) :
  batch_ok (removed_broker u) r → un_register_one q u r = (u', r') →
  batch_ok (removed_broker u') r'.
Proof.
  intros [H1 H2 H3 H4] H. unfold un_register_one in H. cbn in H.
  destruct (broker_addr_table r !! un_broker_name q) as [b |] eqn:E;
    [| injection H as <- <-; by constructor].
  destruct (bool_decide _); injection H as <- <-; constructor; cbn; try done.
  - intros topic qmap name qd Ht Hq. destruct (H1 _ _ _ _ Ht Hq) as [? | Hs]; [set_solver |].
    destruct (decide (name = un_broker_name q)) as [-> | ?]; [set_solver |].
    rewrite lookup_delete_ne by done. by right.
  - intros name bd Hb. apply lookup_delete_Some in Hb as [_ Hb]. eauto.
  - intros name bd Hb. apply lookup_delete_Some in Hb as [Hne Hb].
    destruct (H4 _ _ Hb) as (names & Hc & Hin). by eapply drop_cluster_member_ne.
  - intros topic qmap name qd Ht Hq. destruct (H1 _ _ _ _ Ht Hq) as [? | Hs]; [by left |].
    right. destruct (decide (name = un_broker_name q)) as [-> | ?];
      [rewrite lookup_insert_eq; eauto | by rewrite lookup_insert_ne].
  - intros name bd Hb. apply lookup_insert_Some in Hb as [[<- <-] | [_ Hb]]; [| eauto].
    cbn. eauto.
  - intros name bd Hb. apply lookup_insert_Some in Hb as [[<- <-] | [_ Hb]]; [| eauto].
    cbn. eauto.
Qed.

Lemma un_register_all_ok qs (u u' : un_state) (r r' : RouteInfoManager) :
  batch_ok (removed_broker u) r → un_register_all qs u r = (u', r') →
  batch_ok (removed_broker u') r'.
Proof.
  revert u r. induction qs as [| q qs IH]; intros u r Hok H; cbn in H.
  - by injection H as <- <-.
  - destruct (un_register_one q u r) as [u1 r1] eqn:E. eapply IH; [| done].
    by eapply un_register_one_ok.
Qed.

Lemma clean_lookup (removed reduced : gset string) (r : RouteInfoManager) topic qmap' name qd' :
  topic_queue_table (clean_topic_by_un_register_requests removed reduced r) !! topic
    = Some qmap' →
  qmap' !! name = Some qd' →
  name ∉ removed ∧ ∃ qmap qd, topic_queue_table r !! topic = Some qmap ∧
    qmap !! name = Some qd ∧ qd' = reduce_queue_data reduced r name qd.
Proof.
  intros Ht Hq. cbn in Ht. apply lookup_omap_Some in Ht as (qmap & Hc & Ht).
  unfold clean_topic in Hc. destruct (bool_decide _); [done |]. injection Hc as <-.
  rewrite map_lookup_imap in Hq.
  destruct (filter (λ kv, kv.1 ∉ removed) qmap !! name) as [qd |] eqn:Ef; [| done].
  cbn in Hq. injection Hq as <-. apply map_lookup_filter_Some in Ef as [Hl Hn]. eauto 10.
Qed.

Lemma reduce_queue_data_name reduced r name qd :
  qd_broker_name (reduce_queue_data reduced r name qd) = qd_broker_name qd.
Proof.
  unfold reduce_queue_data. destruct (decide _); [| done].
  destruct (broker_addr_table r !! name) as [b |]; [| done]. by destruct (_ && _).
Qed.

Lemma clean_ok (removed reduced : gset string) (r : RouteInfoManager) :
  batch_ok removed r → route_ok (clean_topic_by_un_register_requests removed reduced r).
Proof.
  intros [H1 H2 H3 H4]. constructor; [| | done | done].
  - intros topic qmap' name qd' Ht Hq.
    destruct (clean_lookup _ _ _ _ _ _ _ Ht Hq) as (Hn & qmap & qd & Ht' & Hq' & _).
    destruct (H1 _ _ _ _ Ht' Hq') as [? | ?]; done.
  - intros topic qmap' name qd' Ht Hq.
    destruct (clean_lookup _ _ _ _ _ _ _ Ht Hq) as (Hn & qmap & qd & Ht' & Hq' & ->).
    rewrite reduce_queue_data_name. eauto.
Qed.

Lemma notify_all_tables ns (r r' : RouteInfoManager) :
  notify_all ns r = Done r' →
  topic_queue_table r' = topic_queue_table r ∧ broker_addr_table r' = broker_addr_table r ∧
  cluster_addr_table r' = cluster_addr_table r.
Proof.
  revert r. induction ns as [| [name [addrs off]] ns IH]; intros r H; cbn in H.
  - by apply done_inj in H as <-.
  - apply obind_done in H as (r1 & H1 & H). apply IH in H as (-> & -> & ->).
    destruct (broker_addr_table r !! name) as [b |]; [destruct (enable_acting_master b) |].
    + by apply send_tables in H1.
    + by apply done_inj in H1 as <-.
    + by apply done_inj in H1 as <-.
Qed.

Lemma un_register_broker_ok cfg qs (r r' : RouteInfoManager) :
  route_ok r → un_register_broker cfg qs r = Done r' → route_ok r'.
Proof.
  intros Hok H. unfold un_register_broker in H.
  destruct (un_register_all qs (mkUnState ∅ ∅ ∅) r) as [u r1] eqn:E.
  assert (Hb : batch_ok (removed_broker u) r1).
  { eapply un_register_all_ok; [| exact E]. destruct Hok. constructor; eauto. }
  apply (clean_ok _ (reduced_broker u)) in Hb. destruct (_ && _).
  - apply notify_all_tables in H as (Ht & Hbr & Hc). unfold route_ok. by rewrite Ht, Hbr, Hc.
  - by apply done_inj in H as <-.
Qed.

Lemma on_connection_disconnected_ok cfg info (r r' : RouteInfoManager) :
  route_ok r → on_connection_disconnected cfg info r = Done r' → route_ok r'.
Proof.
  intros Hok. unfold on_connection_disconnected. destruct (setup_un_register_request _ _).
  - by apply un_register_broker_ok.
  - by intros <-%done_inj.
Qed.

Lemma disconnect_all_ok cfg infos (r r' : RouteInfoManager) :
  route_ok r → disconnect_all cfg infos r = Done r' → route_ok r'.
Proof.
  revert r. induction infos as [| i infos IH]; intros r Hok H; cbn in H.
  - by apply done_inj in H as <-.
  - apply obind_done in H as (r1 & H1 & H). apply IH in H; [done |].
    by eapply on_connection_disconnected_ok.
Qed.

(** ** Administration *)

Lemma operate_write_perm_ok name code (r : RouteInfoManager) :
  route_ok r → route_ok (operate_write_perm_of_broker name code r).1.
Proof.
  intros Hok. eapply tables_ok_topics; [exact Hok |]. intros topic qm n q Ht Hq. cbn in Ht.
  rewrite lookup_fmap_Some in Ht. destruct Ht as (qm0 & <- & Ht). right.
  apply lookup_alter_Some in Hq as [(<- & q0 & Hq & ->) | [Hne Hq]]; [| eauto].
  exists qm0, q0. done.
Qed.

Lemma delete_topic_ok topic cl (r : RouteInfoManager) :
  route_ok r → route_ok (delete_topic topic cl r).
Proof.
  intros Hok.
  assert (Hdel : route_ok (set_topics (delete topic (topic_queue_table r)) r)).
  { eapply tables_ok_topics; [exact Hok |]. intros t qm n q Ht Hq. cbn in Ht.
    apply lookup_delete_Some in Ht as [_ Ht]. right. eauto. }
  unfold delete_topic. destruct cl as [c |]; [| done]. destruct (bool_decide _); [done |].
  destruct (cluster_addr_table r !! c) as [names |]; [| done]. destruct (bool_decide _); [done |].
  destruct (topic_queue_table r !! topic) as [qmap |] eqn:E; [| done].
  destruct (bool_decide _); [done |].
  eapply tables_ok_topics; [exact Hok |]. intros t qm n q Ht Hq. right. cbn in Ht.
  apply lookup_insert_Some in Ht as [[<- <-] | [_ Ht]]; [| eauto].
  apply map_lookup_filter_Some in Hq as [Hq _]. eauto.
Qed.

Lemma add_queues_lookup brokers qds qmap name qd :
  add_queues brokers qds qmap !! name = Some qd →
  is_Some (brokers !! name) ∧ qd_broker_name qd = name ∨ qmap !! name = Some qd.
Proof.
  revert qmap. induction qds as [| q qds IH]; intros qmap H; cbn in H; [by right |].
  destruct (brokers !! qd_broker_name q) as [b |] eqn:E; [| by right].
  destruct (IH _ H) as [? | Hi]; [by left |].
  apply lookup_insert_Some in Hi as [[<- <-] | [_ Hi]]; [left; eauto | by right].
Qed.

Lemma register_topic_ok topic qds (r : RouteInfoManager) :
  route_ok r → route_ok (register_topic topic qds r).
Proof.
  intros Hok. unfold register_topic. destruct qds as [| q qds]; [done |].
  eapply tables_ok_topics; [exact Hok |]. intros t qm n qd Ht Hq.
  cbn [topic_queue_table set_topics] in Ht.
  apply lookup_insert_Some in Ht as [[<- <-] | [_ Ht]]; [| right; eauto].
  apply add_queues_lookup in Hq as [? | Hq]; [by left |]. right.
  destruct (topic_queue_table r !! topic) as [qm |] eqn:E; [eauto |]. done.
Qed.

(** ** Reachable states *)

(** Everything that changes the routing tables. *)
Inductive route_step (cfg : NamesrvConfig) : RouteInfoManager → RouteInfoManager → Prop :=
| StepRegister now q r r' res :
    register_broker cfg now q r = Done (r', res) → route_step cfg r r'
| StepUnregister qs r r' :
    un_register_broker cfg qs r = Done r' → route_step cfg r r'
| StepScan now r r' :
    scan_not_active_broker cfg now r = Done r' → route_step cfg r r'
| StepDisconnected addr r r' :
    connection_disconnected cfg addr r = Done r' → route_step cfg r r'
| StepHeartbeat now cl addr r :
    route_step cfg r (update_broker_info_update_timestamp now cl addr r)
| StepPerm name code r :
    route_step cfg r (operate_write_perm_of_broker name code r).1
| StepDeleteTopic topic cl r :
    route_step cfg r (delete_topic topic cl r)
| StepRegisterTopic topic qds r :
    route_step cfg r (register_topic topic qds r).

Lemma route_step_ok cfg (r r' : RouteInfoManager) :
  route_ok r → route_step cfg r r' → route_ok r'.
Proof.
  intros Hok Hs. revert Hok. destruct Hs; intros Hok.
  - by eapply register_broker_ok.
  - by eapply un_register_broker_ok.
  - by eapply disconnect_all_ok.
  - unfold connection_disconnected in *. destruct (list_find _ _) as [[? [info ?]] |].
    + by eapply on_connection_disconnected_ok.
    + by match goal with H : Done _ = Done _ |- _ => apply done_inj in H as <- end.
  - done.
  - by apply operate_write_perm_ok.
  - by apply delete_topic_ok.
  - by apply register_topic_ok.
Qed.

Lemma reachable_ok cfg (r : RouteInfoManager) :
  rtc (route_step cfg) new_route r → route_ok r.
Proof.
  intros H. assert (Hok := new_route_ok). revert Hok.
  induction H as [| r1 r2 r3 Hs _ IH]; intros Hok; [done |].
  apply IH. by eapply route_step_ok.
Qed.

(** ** Theorems *)

Lemma lookup_brokers (qmap : gmap string QueueData) (b : gmap string BrokerData) (l : list string) :
  (∀ name, name ∈ l → is_Some (b !! name)) →
  (∀ name bd, b !! name = Some bd → bd_broker_name bd = name) →
  bd_broker_name <$> omap (λ name, b !! name) l = l.
Proof.
  intros Hl Hn. induction l as [| name l IH]; [done |]. cbn.
  destruct (Hl name) as [bd Hbd]; [by left |]. rewrite Hbd. cbn. f_equal.
  - by apply Hn.
  - apply IH. intros n Hin. apply Hl. by right.
Qed.

Lemma acting_master_name (qds : list QueueData) (b : BrokerData) :
  bd_broker_name (acting_master_of qds b) = bd_broker_name b.
Proof.
  unfold acting_master_of. destruct (_ || _); [done |]. destruct (list_find _ _) as [[? qd] |]; [| done].
  destruct (negb _); [| done]. destruct (min_key _) as [k |]; [| done].
  by destruct (broker_addrs b !! k).
Qed.

Lemma queue_names (qmap : gmap string QueueData) :
  (∀ name qd, qmap !! name = Some qd → qd_broker_name qd = name) →
  qd_broker_name <$> (map_to_list qmap).*2 = (map_to_list qmap).*1.
Proof.
  intros H. rewrite <- list_fmap_compose. apply list_fmap_ext. intros i [name qd] Hl. cbn.
  apply H. apply elem_of_map_to_list. by eapply list_elem_of_lookup_2.
Qed.

Lemma pickup_shape cfg topic (r : RouteInfoManager) qmap :
  route_ok r → topic_queue_table r !! topic = Some qmap → qmap ≠ ∅ →
  ∃ route, pickup_topic_route_data cfg topic r = Some route ∧
    queue_datas route = (map_to_list qmap).*2 ∧
    bd_broker_name <$> broker_datas route = qd_broker_name <$> queue_datas route.
Proof.
  intros [H1 H2 H3 H4] Ht Hne. unfold pickup_topic_route_data. rewrite Ht.
  assert (Hb := lookup_brokers qmap (broker_addr_table r) (map_to_list qmap).*1).
  assert (Hq := queue_names qmap ltac:(eauto)).
  set (bds := omap _ _) in *. rewrite <- Hq in *.
  assert (Hn : bd_broker_name <$> bds = qd_broker_name <$> (map_to_list qmap).*2).
  { apply Hb; [| done]. rewrite Hq. intros name Hin.
    apply list_elem_of_fmap in Hin as ([n qd] & -> & Hin). apply elem_of_map_to_list in Hin. eauto. }
  clear Hb Hq. destruct bds as [| b bds'] eqn:E.
  { exfalso. apply Hne. apply map_to_list_empty_iff. destruct (map_to_list qmap); [done |]. done. }
  destruct (negb (support_acting_master cfg)); [eauto |].
  destruct (String.prefix _ _); [eauto |]. destruct (_ || _); [eauto |].
  destruct (negb _); [eauto |]. eexists. split; [done |]. cbn [queue_datas broker_datas].
  split; [done |]. rewrite <- Hn. rewrite <- list_fmap_compose. apply list_fmap_ext.
  intros i x _. apply acting_master_name.
Qed.

(** C10: routes never dangle: in every state the name server can reach, a topic
    with queues gets a route, that route lists exactly the topic's queues, and
    it describes for each queue the broker that holds it, so a client never
    gets a queue whose broker it cannot find. *)
Theorem routes_resolve (cfg : NamesrvConfig) (r : RouteInfoManager) (topic : string)
    (qmap : gmap string QueueData) :
  rtc (route_step cfg) new_route r →
  topic_queue_table r !! topic = Some qmap → qmap ≠ ∅ →
  ∃ route, pickup_topic_route_data cfg topic r = Some route ∧
    queue_datas route = (map_to_list qmap).*2 ∧
    bd_broker_name <$> broker_datas route = qd_broker_name <$> queue_datas route.
Proof. intros Hr. apply pickup_shape. by eapply reachable_ok. Qed.

(** The queue a topic has on a broker. *)
Definition queue_of (topic name : string) (t : topics) : option QueueData :=
  t !! topic ≫= λ qmap, qmap !! name.

Lemma queue_of_insert (topic name tp n : string) (qd : QueueData) (t : topics) :
  queue_of tp n (<[topic := <[name := qd]> (default ∅ (t !! topic))]> t) =
  if decide (tp = topic ∧ n = name) then Some qd else queue_of tp n t.
Proof.
  unfold queue_of. destruct (decide (tp = topic)) as [-> | Hne].
  - rewrite lookup_insert_eq. cbn. destruct (decide (n = name)) as [-> | Hn].
    + rewrite lookup_insert_eq, decide_True by done. done.
    + rewrite lookup_insert_ne, decide_False by (done || tauto).
      destruct (t !! topic) as [qm |]; cbn; [done |]. by rewrite lookup_empty.
  - rewrite lookup_insert_ne, decide_False by (done || tauto). done.
Qed.

(** Updating one topic of a broker sets that queue and nothing else. *)
Lemma create_and_update_effect (name topic : string) (c : TopicConfig) (r : RouteInfoManager) :
  topic_name c = Some topic →
  ∃ t', create_and_update_queue_data name c r = Done (set_topics t' r) ∧
    ∀ tp n, queue_of tp n t' =
      if decide (tp = topic ∧ n = name) then Some (queue_data_of name c)
      else queue_of tp n (topic_queue_table r).
Proof.
  intros Hn. unfold create_and_update_queue_data. rewrite Hn. cbn [unwrap obind].
  set (t' := <[topic := <[name := queue_data_of name c]>
                 (default ∅ (topic_queue_table r !! topic))]> (topic_queue_table r)).
  assert (Ht' : ∀ tp n, queue_of tp n t' = if decide (tp = topic ∧ n = name)
    then Some (queue_data_of name c) else queue_of tp n (topic_queue_table r))
    by (intros; apply queue_of_insert).
  destruct (topic_queue_table r !! topic) as [qmap |] eqn:E.
  - destruct (qmap !! name) as [ex |] eqn:Eq; [| by exists t'].
    destruct (decide (ex = queue_data_of name c)) as [-> |]; [| by exists t'].
    exists (topic_queue_table r). split; [by destruct r |]. intros tp n.
    destruct (decide _) as [[-> ->] |]; [| done]. unfold queue_of. by rewrite E.
  - exists t'. split; [| done]. unfold t'. cbn. by rewrite insert_empty.
Qed.

Lemma set_topics_set (t1 t2 : topics) (r : RouteInfoManager) :
  set_topics t1 (set_topics t2 r) = set_topics t1 r.
Proof. done. Qed.

(** A master's topics are all stored, under their names. *)
Lemma update_topics_effect cl addr dv name rf act (configs : list (string * TopicConfig))
    (r : RouteInfoManager) :
  Forall (λ kc, topic_name kc.2 = Some kc.1) configs → NoDup configs.*1 →
  ∃ t', update_topics cl addr dv name rf false act configs r = Done (set_topics t' r) ∧
    (∀ topic c, (topic, c) ∈ configs → queue_of topic name t' = Some (queue_data_of name c)) ∧
    (∀ topic n, n ≠ name ∨ topic ∉ configs.*1 →
       queue_of topic n t' = queue_of topic n (topic_queue_table r)).
Proof.
  revert r. induction configs as [| [k c] configs IH]; intros r Hc Hnd.
  - exists (topic_queue_table r). split_and!; [by destruct r | | done].
    intros topic c Hin. by apply elem_of_nil in Hin.
  - apply Forall_cons_1 in Hc as [Hk Hc]. cbn in Hk, Hnd. apply NoDup_cons in Hnd as [Hnk Hnd].
    destruct (create_and_update_effect name k c r Hk) as (t1 & H1 & Hq1).
    destruct (IH (set_topics t1 r) Hc Hnd) as (t2 & H2 & Hin & Hout).
    exists t2. cbn [update_topics].
    assert (Hch : ∃ b : bool, (if rf then Done true else let* topic := unwrap (topic_name c) in
      Done (is_topic_config_changed cl addr dv name topic r)) = Done b).
    { destruct rf; [eauto |]. rewrite Hk. cbn. eauto. }
    destruct Hch as [b ->]. cbn [obind]. rewrite andb_false_r. cbn [andb].
    rewrite H1. cbn [obind]. rewrite H2, set_topics_set. split_and!; [done | |].
    + intros topic c' Hi. apply elem_of_cons in Hi as [[= -> ->] | Hi]; [| by apply Hin].
      rewrite Hout by (by right). cbn. by rewrite Hq1, decide_True.
    + intros topic n Hn. cbn in Hn. rewrite Hout by set_solver. cbn.
      rewrite Hq1, decide_False; [done |]. intros [-> ->]. set_solver.
Qed.

Lemma delete_topics_queue_of name (ts : list string) (t : topics) :
  (∀ topic, topic ∈ ts → queue_of topic name t = None) →
  ∀ tp n, queue_of tp n (foldr (delete_topic_of_broker name) t ts) = queue_of tp n t.
Proof.
  induction ts as [| x ts IH]; intros Hts tp n; [done |]. cbn.
  specialize (IH ltac:(set_solver)). set (t1 := foldr _ t ts) in *.
  rewrite <- (IH tp n). unfold delete_topic_of_broker, queue_of.
  destruct (t1 !! x) as [qm |] eqn:E; [| done].
  assert (Hx : qm !! name = None).
  { specialize (IH x name). rewrite Hts in IH by set_solver. unfold queue_of in IH.
    by rewrite E in IH. }
  rewrite (delete_id _ _ Hx). destruct (bool_decide_reflect (qm = ∅)) as [-> | Hne].
  - destruct (decide (tp = x)) as [-> | ?]; [| by rewrite lookup_delete_ne].
    rewrite lookup_delete_eq, E. cbn. by rewrite lookup_empty.
  - destruct (decide (tp = x)) as [-> | ?]; [| by rewrite lookup_insert_ne].
    by rewrite lookup_insert_eq, E.
Qed.

Lemma update_mappings_done infos m :
  Forall (λ kv : string * TopicQueueMappingInfo, is_Some (bname kv.2)) infos →
  ∃ m', update_mappings infos m = Done m'.
Proof.
  revert m. induction infos as [| [k i] infos IH]; intros m H; [by eexists |].
  apply Forall_cons_1 in H as [[nm Hn] H]. cbn in Hn |- *. rewrite Hn. cbn. by apply IH.
Qed.

Lemma register_topics_effect cfg q rf act (r : RouteInfoManager) :
  let w := rq_wrapper q in
  Forall (λ kc, topic_name kc.2 = Some kc.1) (topic_config_table w) →
  NoDup (topic_config_table w).*1 →
  Forall (λ kv, is_Some (bname kv.2)) (topic_queue_mapping_info_map w) →
  ∃ r', register_topics cfg q rf false act r = Done r' ∧
    broker_addr_table r' = broker_addr_table r ∧ broker_live_table r' = broker_live_table r ∧
    (∀ topic c, (topic, c) ∈ topic_config_table w →
       queue_of topic (rq_broker_name q) (topic_queue_table r') =
       Some (queue_data_of (rq_broker_name q) c)) ∧
    (∀ topic n, n ≠ rq_broker_name q ∨ topic ∉ (topic_config_table w).*1 →
       queue_of topic n (topic_queue_table r') = queue_of topic n (topic_queue_table r)).
Proof.
  intros w Hc Hnd Hm. unfold register_topics. fold w.
  set (r1 := if delete_topic_with_broker_registration cfg && _ then _ else r).
  assert (Hr1 : (∀ tp n, queue_of tp n (topic_queue_table r1) = queue_of tp n (topic_queue_table r))
    ∧ broker_addr_table r1 = broker_addr_table r ∧ broker_live_table r1 = broker_live_table r).
  { unfold r1. destruct (_ && _); [| done]. split; [| done]. cbn. apply delete_topics_queue_of.
    intros topic Hin. apply elem_of_elements, elem_of_difference in Hin as [_ Hin].
    unfold queue_of. destruct (topic_queue_table r !! topic) as [qm |] eqn:E; [| done]. cbn.
    destruct (qm !! rq_broker_name q) as [x |] eqn:Ex; [| done]. exfalso. apply Hin.
    unfold topic_set_of_broker_name. apply elem_of_dom. exists qm.
    apply map_lookup_filter_Some. cbn. split; [done |]. by rewrite Ex. }
  destruct Hr1 as (Hq1 & Hb1 & Hl1).
  destruct (update_topics_effect (rq_cluster_name q) (rq_broker_addr q) (tc_data_version w)
    (rq_broker_name q) rf act (topic_config_table w) r1 Hc Hnd) as (t2 & -> & Hin & Hout).
  cbn [obind].
  assert (Hout' : ∀ topic n, n ≠ rq_broker_name q ∨ topic ∉ (topic_config_table w).*1 →
       queue_of topic n t2 = queue_of topic n (topic_queue_table r))
    by (intros; rewrite Hout by done; apply Hq1).
  destruct (_ || rf).
  - destruct (update_mappings_done (topic_queue_mapping_info_map w)
      (topic_queue_mapping_info_table (set_topics t2 r1)) Hm) as [m' ->]. cbn [obind].
    eexists. split; [done |]. done.
  - eexists. split; [done |]. done.
Qed.

Lemma min_key_some (m : gmap Z string) : m ≠ ∅ → is_Some (min_key m).
Proof.
  intros Hm. unfold min_key. destruct (map_to_list m) as [| [k v] l] eqn:E; [| eauto].
  by apply map_to_list_empty_iff in E.
Qed.

Lemma send_done addrs off ha (r : RouteInfoManager) :
  ∃ n, send_min_broker_id_changed addrs off ha r = Done (send n r).
Proof.
  unfold send_min_broker_id_changed. destruct (bool_decide_reflect (addrs = ∅)) as [| Hne].
  - exists []. destruct r. unfold send. cbn. by rewrite app_nil_r.
  - destruct (min_key_some _ Hne) as [k Hk]. rewrite Hk. cbn.
    unfold choose_broker_addrs_to_notify. rewrite Hk. destruct (_ || _); cbn; by eexists.
Qed.

Lemma finish_effect cfg now q b ch (r : RouteInfoManager) :
  ∃ r' res, finish_registration cfg now q b ch r = Done (r', Some res) ∧
    topic_queue_table r' = topic_queue_table r ∧ broker_addr_table r' = broker_addr_table r ∧
    is_Some (broker_live_table r' !! (rq_cluster_name q, rq_broker_addr q)).
Proof.
  unfold finish_registration. cbv zeta. cbn [broker_live_table set_filters set_live].
  rewrite lookup_insert_eq. cbn [unwrap obind].
  set (r1 := set_filters _ (set_live _ r)).
  assert (Hl : is_Some (broker_live_table r1 !! (rq_cluster_name q, rq_broker_addr q)))
    by (cbn; rewrite lookup_insert_eq; eauto).
  destruct (ch && notify_min_broker_id_changed cfg).
  - destruct (send_done (broker_addrs b) None (Some (rq_ha_server_addr q)) r1) as [n Hs].
    cbn [ha_server_addr]. rewrite Hs. cbn [obind]. eexists _, _. split; [done |]. done.
  - cbn [obind]. eexists _, _. split; [done |]. done.
Qed.

(** A registration that is neither ignored nor refused: the broker is new and
    does not come with a single topic, or it is already known at the address. *)
Definition accepted (q : RegisterRequest) (r : RouteInfoManager) : Prop :=
  match broker_addr_table r !! rq_broker_name q with
  | None => length (topic_config_table (rq_wrapper q)) ≠ 1%nat
  | Some b => broker_addrs b !! rq_broker_id q = Some (rq_broker_addr q)
  end.

Definition wf_wrapper (w : TopicConfigWrapper) : Prop :=
  Forall (λ kc, topic_name kc.2 = Some kc.1) (topic_config_table w) ∧
  NoDup (topic_config_table w).*1 ∧
  Forall (λ kv, is_Some (bname kv.2)) (topic_queue_mapping_info_map w).

Lemma register_master_effect cfg now q (r : RouteInfoManager) :
  rq_broker_id q = MASTER_ID → accepted q r → wf_wrapper (rq_wrapper q) →
  ∃ r' res, register_broker cfg now q r = Done (r', Some res) ∧
    (∃ b, broker_addr_table r' !! rq_broker_name q = Some b ∧
          broker_addrs b !! MASTER_ID = Some (rq_broker_addr q)) ∧
    is_Some (broker_live_table r' !! (rq_cluster_name q, rq_broker_addr q)) ∧
    (∀ topic c, (topic, c) ∈ topic_config_table (rq_wrapper q) →
       queue_of topic (rq_broker_name q) (topic_queue_table r') =
       Some (queue_data_of (rq_broker_name q) c)) ∧
    (∀ topic n, n ≠ rq_broker_name q ∨ topic ∉ (topic_config_table (rq_wrapper q)).*1 →
       queue_of topic n (topic_queue_table r') = queue_of topic n (topic_queue_table r)).
Proof.
  intros Hid Hacc (Hw1 & Hw2 & Hw3). unfold register_broker. cbv zeta.
  set (r1 := set_clusters _ r).
  set (bf := match broker_addr_table r1 !! rq_broker_name q with Some _ => _ | None => _ end).
  destruct bf as [b rf] eqn:Ebf.
  assert (Hb : broker_addrs b !! rq_broker_id q = None ∧
                 length (topic_config_table (rq_wrapper q)) ≠ 1%nat ∨
               broker_addrs b !! rq_broker_id q = Some (rq_broker_addr q)).
  { unfold bf, r1 in Ebf. cbn in Ebf. unfold accepted in Hacc.
    destruct (broker_addr_table r !! rq_broker_name q) as [b0 |]; injection Ebf as <- _; cbn.
    - by right.
    - left. by rewrite lookup_empty. }
  clear Ebf bf Hacc. set (b1 := remove_broker_by_addr _ _ b).
  assert (Hb1 : broker_addrs b1 !! rq_broker_id q = broker_addrs b !! rq_broker_id q).
  { unfold b1. cbn. destruct (broker_addrs b !! rq_broker_id q) as [a |] eqn:E.
    - apply map_lookup_filter_Some. cbn. auto.
    - apply map_lookup_filter_None. by left. }
  rewrite <- Hb1 in Hb. set (r2 := set_brokers _ r1).
  assert (Hcf : conflicts q b1 r2 = false).
  { unfold conflicts. destruct Hb as [[-> _] | ->]; [done |]. by rewrite bool_decide_false by tauto. }
  rewrite Hcf.
  assert (Hsz : negb (bool_decide (is_Some (broker_addrs b1 !! rq_broker_id q)))
                && (length (topic_config_table (rq_wrapper q)) =? 1)%nat = false).
  { destruct Hb as [[_ Hl] | ->]; [| done]. apply andb_false_iff. right. by apply Nat.eqb_neq. }
  rewrite Hsz, Hid. change (MASTER_ID =? MASTER_ID) with true. cbn [orb negb].
  rewrite andb_false_r. cbn [andb].
  match goal with |- context [register_topics cfg q ?f false ?a ?r3] =>
    destruct (register_topics_effect cfg q f a r3 Hw1 Hw2 Hw3)
      as (r4 & -> & Hb4 & Hl4 & Hin & Hout) end.
  cbn [obind].
  match goal with |- context [finish_registration cfg now q ?b ?c r4] =>
    destruct (finish_effect cfg now q b c r4) as (r5 & res & -> & Ht5 & Hb5 & Hl5) end.
  exists r5, res. rewrite Ht5, Hb5, Hb4. split_and!; try done.
  cbn. rewrite lookup_insert_eq. eexists. split; [done |]. cbn. by rewrite lookup_insert_eq.
Qed.

(** registering a master makes its topics routable: the call succeeds, the
    broker is listed at its address and alive, and every topic it sent has a
    queue on it with the configured permission and flags (the configured read
    and write queue numbers end up exchanged); the queues of other brokers do
    not change. *)
Theorem register_master_routes (cfg : NamesrvConfig) (now : Z) (q : RegisterRequest)
    (r : RouteInfoManager) :
  rq_broker_id q = MASTER_ID → accepted q r → wf_wrapper (rq_wrapper q) →
  ∃ r' res, register_broker cfg now q r = Done (r', Some res) ∧
    (∃ b, broker_addr_table r' !! rq_broker_name q = Some b ∧
          broker_addrs b !! MASTER_ID = Some (rq_broker_addr q)) ∧
    is_Some (broker_live_table r' !! (rq_cluster_name q, rq_broker_addr q)) ∧
    (∀ topic c, (topic, c) ∈ topic_config_table (rq_wrapper q) →
       queue_of topic (rq_broker_name q) (topic_queue_table r') =
       Some (mkQueueData (rq_broker_name q) (tc_write_queue_nums c) (tc_read_queue_nums c)
               (tc_perm c) (tc_topic_sys_flag c))) ∧
    (∀ topic n, n ≠ rq_broker_name q →
       queue_of topic n (topic_queue_table r') = queue_of topic n (topic_queue_table r)).
Proof.
  intros Hid Hacc Hw.
  destruct (register_master_effect cfg now q r Hid Hacc Hw)
    as (r' & res & H1 & H2 & H3 & H4 & H5).
  exists r', res. split_and!; auto.
Qed.

Definition sample_topic : TopicConfig := mkTopicConfig (Some "T") 8 4 6 0.
Definition sample_other : TopicConfig := mkTopicConfig (Some "U") 1 1 6 0.
Definition sample_register : RegisterRequest :=
  mkRegister "c" "10.0.0.1:10911" "b" 0 "10.0.0.1:10912" None None None
    (mkWrapper [("T", sample_topic); ("U", sample_other)] [] (mkDataVersion 0 0 0)) []
    default_host.
Definition sample_cfg : NamesrvConfig := mkNamesrvConfig true false false.

Lemma sample_register_wf : wf_wrapper (rq_wrapper sample_register).
Proof.
  split_and!; cbn.
  - by repeat constructor.
  - apply NoDup_cons. split; [set_solver |]. apply NoDup_singleton.
  - done.
Qed.

Lemma register_master_routes_witness :
  ∃ r' res, register_broker sample_cfg 1 sample_register new_route = Done (r', Some res) ∧
    (∃ b, broker_addr_table r' !! "b" = Some b ∧
          broker_addrs b !! MASTER_ID = Some "10.0.0.1:10911"%string) ∧
    is_Some (broker_live_table r' !! ("c", "10.0.0.1:10911")) ∧
    (∀ topic c, (topic, c) ∈ [("T", sample_topic); ("U", sample_other)] →
       queue_of topic "b" (topic_queue_table r') =
       Some (mkQueueData "b" (tc_write_queue_nums c) (tc_read_queue_nums c)
               (tc_perm c) (tc_topic_sys_flag c))) ∧
    (∀ topic n, n ≠ "b"%string →
       queue_of topic n (topic_queue_table r') = queue_of topic n (topic_queue_table new_route)).
Proof.
  apply (register_master_routes sample_cfg 1 sample_register new_route);
    [done | done | apply sample_register_wf].
Defined.

(** a topic the broker no longer sends is not removed when the broker
    registers again, although deletion with registration is switched on: the
    set of topics to delete is computed the wrong way round, so the old queue
    stays. *)
Theorem register_keeps_stale_topic (cfg : NamesrvConfig) (now : Z) (q : RegisterRequest)
    (r : RouteInfoManager) (topic : string) (qd : QueueData) :
  delete_topic_with_broker_registration cfg = true →
  topic_queue_mapping_info_map (rq_wrapper q) = [] →
  rq_broker_id q = MASTER_ID → accepted q r → wf_wrapper (rq_wrapper q) →
  topic ∉ (topic_config_table (rq_wrapper q)).*1 →
  queue_of topic (rq_broker_name q) (topic_queue_table r) = Some qd →
  ∃ r' res, register_broker cfg now q r = Done (r', Some res) ∧
    queue_of topic (rq_broker_name q) (topic_queue_table r') = Some qd.
Proof.
  intros _ _ Hid Hacc Hw Ht Hq.
  destruct (register_master_effect cfg now q r Hid Hacc Hw) as (r' & res & H1 & _ & _ & _ & H5).
  exists r', res. split; [done |]. rewrite H5; auto.
Qed.

Definition after_register : RouteInfoManager :=
  match register_broker sample_cfg 1 sample_register new_route with
  | Done (r, _) => r
  | Panic => new_route
  end.
Definition without_topic : RegisterRequest :=
  mkRegister "c" "10.0.0.1:10911" "b" 0 "10.0.0.1:10912" None None None
    (mkWrapper [("U", sample_other)] [] (mkDataVersion 0 0 1)) [] default_host.

Lemma register_keeps_stale_topic_witness :
  ∃ r' res, register_broker sample_cfg 2 without_topic after_register = Done (r', Some res) ∧
    queue_of "T" "b" (topic_queue_table r') = Some (mkQueueData "b" 4 8 6 0).
Proof.
  apply (register_keeps_stale_topic sample_cfg 2 without_topic after_register "T"); try done.
  - split_and!; cbn; [by repeat constructor | apply NoDup_singleton | done].
  - cbn. set_solver.
Defined.

Lemma routes_resolve_witness :
  ∃ route, pickup_topic_route_data sample_cfg "T" after_register = Some route ∧
    queue_datas route = (map_to_list ({["b" := mkQueueData "b" 4 8 6 0]} :
                                        gmap string QueueData)).*2 ∧
    bd_broker_name <$> broker_datas route = qd_broker_name <$> queue_datas route.
Proof.
  apply (routes_resolve sample_cfg after_register "T" {["b" := mkQueueData "b" 4 8 6 0]}).
  - apply rtc_once.
    destruct (register_master_effect sample_cfg 1 sample_register new_route) as (r' & res & H & _);
      [done | done | apply sample_register_wf |].
    eapply (StepRegister _ 1 sample_register). unfold after_register. by rewrite H.
  - by vm_compute.
  - done.
Defined.

(** ** Unregistration and permissions *)

Lemma clean_queue_of (removed reduced : gset string) (r : RouteInfoManager) (topic name : string) :
  queue_of topic name
    (topic_queue_table (clean_topic_by_un_register_requests removed reduced r)) =
  if decide (name ∈ removed) then None
  else reduce_queue_data reduced r name <$> queue_of topic name (topic_queue_table r).
Proof.
  unfold queue_of. cbn. rewrite lookup_omap.
  destruct (topic_queue_table r !! topic) as [qmap |] eqn:E; [| by destruct (decide _)]. cbn.
  unfold clean_topic. set (qf := filter _ qmap).
  assert (Hf : qf !! name = if decide (name ∈ removed) then None else qmap !! name).
  { unfold qf. destruct (decide (name ∈ removed)) as [Hin | Hin].
    - apply map_lookup_filter_None. right. cbn. tauto.
    - rewrite map_lookup_filter. destruct (qmap !! name); cbn; [| done]. by rewrite option_guard_True. }
  destruct (bool_decide_reflect (qf = ∅)) as [He | He]; cbn.
  - rewrite He, lookup_empty in Hf. destruct (decide _); [done |]. by rewrite <- Hf.
  - rewrite map_lookup_imap, Hf. destruct (decide _); [done |]. by destruct (qmap !! name).
Qed.

(** unregistering the last address of a broker takes the broker out of
    every route: it leaves the broker table and no topic keeps a queue on it;
    the queues of all other brokers stay as they were. *)
Theorem un_register_removes_broker (cfg : NamesrvConfig) (q : UnRegisterRequest)
    (r : RouteInfoManager) (b : BrokerData) :
  broker_addr_table r !! un_broker_name q = Some b →
  map_Forall (λ _ addr, addr = un_broker_addr q) (broker_addrs b) →
  ∃ r', un_register_broker cfg [q] r = Done r' ∧
    broker_addr_table r' !! un_broker_name q = None ∧
    broker_live_table r' !! (un_cluster_name q, un_broker_addr q) = None ∧
    (∀ topic, queue_of topic (un_broker_name q) (topic_queue_table r') = None) ∧
    (∀ topic name, name ≠ un_broker_name q →
       queue_of topic name (topic_queue_table r') = queue_of topic name (topic_queue_table r)).
Proof.
  intros Hb Haddr. unfold un_register_broker. cbn [un_register_all]. unfold un_register_one.
  cbn [broker_addr_table set_live set_filters]. rewrite Hb.
  assert (He : filter (λ kv : Z * string, kv.2 ≠ un_broker_addr q) (broker_addrs b) = ∅).
  { apply map_empty. intros k. apply map_lookup_filter_None. right. intros a Ha Hne. apply Hne.
    by apply (Haddr k a). }
  rewrite (bool_decide_true _ He). cbn [need_notify removed_broker reduced_broker].
  rewrite (bool_decide_true (∅ = ∅)) by done. cbn [negb andb].
  eexists. split; [done |]. split_and!.
  - cbn. by rewrite lookup_delete_eq.
  - cbn. by rewrite lookup_delete_eq.
  - intros topic. rewrite clean_queue_of. rewrite decide_True by set_solver. done.
  - intros topic name Hne. rewrite clean_queue_of. rewrite decide_False by set_solver.
    cbn [topic_queue_table set_clusters set_brokers set_filters set_live].
    by destruct (queue_of topic name (topic_queue_table r)).
Qed.

Lemma un_register_removes_broker_witness :
  let q := mkUnregister "b" "10.0.0.1:10911" "c" 0 in
  ∃ r', un_register_broker sample_cfg [q] after_register = Done r' ∧
    broker_addr_table r' !! "b" = None ∧
    broker_live_table r' !! ("c", "10.0.0.1:10911") = None ∧
    (∀ topic, queue_of topic "b" (topic_queue_table r') = None) ∧
    (∀ topic name, name ≠ "b"%string →
       queue_of topic name (topic_queue_table r') =
       queue_of topic name (topic_queue_table after_register)).
Proof.
  apply (un_register_removes_broker sample_cfg (mkUnregister "b" "10.0.0.1:10911" "c" 0)
           after_register
           (mkBrokerData "c" "b" {[0 := "10.0.0.1:10911"%string]} None false)).
  - by vm_compute.
  - by apply map_Forall_singleton.
Defined.

Lemma wipe_not_writeable (perm : Z) : PermName.is_writeable (PermName.wipe_write perm) = false.
Proof.
  unfold PermName.is_writeable, PermName.wipe_write, PermName.PERM_WRITE. change (Z.shiftl 1 1) with 2.
  assert (H : Z.land (Z.ldiff perm 2) 2 = 0).
  { apply Z.bits_inj'. intros n Hn. rewrite Z.land_spec, Z.ldiff_spec, Z.bits_0.
    destruct (Z.testbit 2 n); [by rewrite andb_false_r | by rewrite andb_false_r]. }
  by rewrite H.
Qed.

Lemma operate_queue_of (name n topic : string) code (r : RouteInfoManager) :
  queue_of topic n (topic_queue_table (operate_write_perm_of_broker name code r).1) =
  (if decide (n = name)
   then (λ qd, set_perm (operate_perm code (qd_perm qd)) qd) <$>
          queue_of topic n (topic_queue_table r)
   else queue_of topic n (topic_queue_table r)).
Proof.
  unfold queue_of. cbn. rewrite lookup_fmap.
  destruct (topic_queue_table r !! topic) as [qm |]; cbn; [| by destruct (decide _)].
  destruct (decide (n = name)) as [-> | ?]; [by rewrite lookup_alter_eq | by rewrite lookup_alter_ne].
Qed.

(** wiping the write permission of a broker leaves every one of its
    queues unwritable, adding it back makes each of them readable and writable,
    and neither touches another broker's queues; the number reported is the
    number of topics the broker has. *)
Theorem write_perm_spec (name : string) (r : RouteInfoManager) :
  let wiped := wipe_write_perm_of_broker_by_lock name r in
  let added := add_write_perm_of_broker_by_lock name r in
  (∀ topic qd, queue_of topic name (topic_queue_table wiped.1) = Some qd →
     PermName.is_writeable (qd_perm qd) = false) ∧
  (∀ topic qd, queue_of topic name (topic_queue_table added.1) = Some qd →
     PermName.is_writeable (qd_perm qd) = true ∧ PermName.is_readable (qd_perm qd) = true) ∧
  (∀ topic n, n ≠ name →
     queue_of topic n (topic_queue_table wiped.1) = queue_of topic n (topic_queue_table r) ∧
     queue_of topic n (topic_queue_table added.1) = queue_of topic n (topic_queue_table r)) ∧
  (∀ topic, is_Some (queue_of topic name (topic_queue_table r)) ↔
            topic ∈ topic_set_of_broker_name name r) ∧
  wiped.2 = Z.of_nat (size (topic_set_of_broker_name name r)) ∧ added.2 = wiped.2.
Proof.
  cbv zeta. unfold wipe_write_perm_of_broker_by_lock, add_write_perm_of_broker_by_lock.
  split_and!; try done.
  - intros topic qd. rewrite operate_queue_of, decide_True by done.
    destruct (queue_of _ _ _); [| done]. intros [= <-]. apply wipe_not_writeable.
  - intros topic qd. rewrite operate_queue_of, decide_True by done.
    destruct (queue_of _ _ _); [| done]. by intros [= <-].
  - intros topic n Hn. by rewrite !operate_queue_of, !decide_False by done.
  - intros topic. unfold queue_of, topic_set_of_broker_name. rewrite elem_of_dom.
    rewrite map_lookup_filter. destruct (topic_queue_table r !! topic) as [qm |]; cbn; [| done].
    destruct (decide (is_Some (qm !! name))) as [Hs | Hs].
    + rewrite option_guard_True by done. cbn. split; eauto.
    + rewrite option_guard_False by done. cbn. split; [done | by intros [? ?]].
Qed.
