(* ===== verification/Rebalance.v ===== *)
(** * Rebalance: sharing queues among the consumers of a group
    ([rebalance_strategy.rs] and the strategies under [rebalance_strategy/])

    Every consumer runs the same strategy on the same sorted lists and takes
    the queues it computes for itself; nothing coordinates them.  What makes
    this work is that the shares of all consumers together are exactly the
    queues: the law [Partitions] below. *)

From stdpp Require Import base gmap list strings.
From coqutil Require Import Byte.
From Stdlib Require Import ZArith Lia Permutation.
From S2P Require Import Prelude Bytes.
Open Scope nat_scope.

Record MessageQueue := mkMQ { mq_topic : string; mq_broker_name : string; mq_queue_id : Z }.

Inductive RocketMQResult (A : Type) :=
| Ok (a : A)
| Err (e : string).
Arguments Ok {A}. Arguments Err {A}.

(** [?] *)
Definition try_bind {A B} (m : RocketMQResult A) (f : A → RocketMQResult B) : RocketMQResult B :=
  match m with Ok a => f a | Err e => Err e end.

(** A strategy: consumer group, consumer, queues, consumers. *)
Abbreviation strategy :=
  (string → string → list MessageQueue → list string → RocketMQResult (list MessageQueue)).

Definition check (consumer_group current_cid : string) (mq_all : list MessageQueue)
    (cid_all : list string) : RocketMQResult bool :=
  if bool_decide (current_cid = ""%string) then Err "currentCID is empty"
  else match mq_all with
  | [] => Err "mqAll is null or mqAll empty"
  | _ =>
      match cid_all with
      | [] => Err "cidAll is null or cidAll empty"
      | _ => Ok (bool_decide (current_cid ∈ cid_all))
      end
  end.

(** [cid_all.iter().position(..).unwrap_or(0)] *)
Definition index_of (cid : string) (cid_all : list string) : nat :=
  default 0 (fst <$> list_find (λ c, c = cid) cid_all).

Definition allocate_averagely : strategy := λ group cid mq_all cid_all,
  try_bind (check group cid mq_all cid_all) (λ ok,
  if negb ok then Ok []
  else
    let m := length mq_all in
    let n := length cid_all in
    let index := index_of cid cid_all in
    let mod_val := m mod n in
    let average_size :=
      if m <=? n then 1
      else if (0 <? mod_val) && (index <? mod_val) then m / n + 1
      else m / n in
    let start_index :=
      if (0 <? mod_val) && (index <? mod_val) then index * average_size
      else index * average_size + mod_val in
    let range := if start_index <? m then average_size `min` (m - start_index) else 0 in
    Ok (slice mq_all start_index (start_index + range))).

Definition allocate_averagely_by_circle : strategy := λ group cid mq_all cid_all,
  try_bind (check group cid mq_all cid_all) (λ ok,
  if negb ok then Ok []
  else
    let index := index_of cid cid_all in
    Ok (filter (λ ix : nat * MessageQueue, ix.1 mod length cid_all = index)
          (drop index (imap pair mq_all))).*2).

Definition allocate_by_config (message_queue_list : list MessageQueue) : strategy :=
  λ _ _ _ _, Ok message_queue_list.

(** [str::split] at one byte. *)
Fixpoint split_byte (c : byte) (bs : buffer) (acc : buffer) : list buffer :=
  match bs with
  | [] => [acc]
  | b :: bs' =>
      if decide (b = c) then acc :: split_byte c bs' [] else split_byte c bs' (acc ++ [b])
  end.

(** A broker name ["room@name"] of one of the rooms. *)
Definition in_rooms (consumer_idcs : gset string) (mq : MessageQueue) : bool :=
  match split_byte Byte.x40 (str_bytes (mq_broker_name mq)) [] with
  | [room; _] => bool_decide (bytes_str room ∈ consumer_idcs)
  | _ => false
  end.

Definition allocate_by_machine_room (consumer_idcs : gset string) : strategy :=
  λ group cid mq_all cid_all,
  try_bind (check group cid mq_all cid_all) (λ ok,
  if negb ok then Ok []
  else
    let current_index := index_of cid cid_all in
    let premq_all := filter (λ mq, in_rooms consumer_idcs mq = true) mq_all in
    let mod_size := length premq_all / length cid_all in
    let rem := length premq_all mod length cid_all in
    let start_index := mod_size * current_index in
    let end_index := start_index + mod_size in
    let result := take (end_index - start_index) (drop start_index premq_all) in
    if current_index <? rem then
      let extra_index := current_index + mod_size * length cid_all in
      match premq_all !! extra_index with
      | Some mq => Ok (result ++ [mq])
      | None => Ok result
      end
    else Ok result).

(** ** Grouping by room *)

(** A [BTreeMap] of vectors: keys in order. *)
Abbreviation rooms A := (list (string * list A)).

Fixpoint get_room {A} (k : string) (m : rooms A) : option (list A) :=
  match m with
  | [] => None
  | (k', vs) :: m' => if decide (k = k') then Some vs else get_room k m'
  end.
Fixpoint update_room {A} (k : string) (vs : list A) (m : rooms A) : rooms A :=
  match m with
  | [] => []
  | (k', vs') :: m' => if decide (k = k') then (k', vs) :: m' else (k', vs') :: update_room k vs m'
  end.
(** A new key goes before the first greater one. *)
Fixpoint insert_room {A} (k : string) (vs : list A) (m : rooms A) : rooms A :=
  match m with
  | [] => [(k, vs)]
  | (k', vs') :: m' =>
      match String.compare k k' with
      | Lt => (k, vs) :: m
      | _ => (k', vs') :: insert_room k vs m'
      end
  end.
(** [entry(k).or_default().push(v)] *)
Definition push_room {A} (k : string) (v : A) (m : rooms A) : rooms A :=
  match get_room k m with
  | Some vs => update_room k (vs ++ [v]) m
  | None => insert_room k [v] m
  end.
Fixpoint remove_room {A} (k : string) (m : rooms A) : rooms A :=
  match m with
  | [] => []
  | (k', vs) :: m' => if decide (k = k') then m' else (k', vs) :: remove_room k m'
  end.

(** The loop that groups a list by room; stops at an element without one. *)
Fixpoint group_rooms {A} (room : A → option string) (err : A → string) (l : list A)
    (m : rooms A) : RocketMQResult (rooms A) :=
  match l with
  | [] => Ok m
  | x :: l' =>
      match room x with
      | Some k => group_rooms room err l' (push_room k x m)
      | None => Err (err x)
      end
  end.

Section Nearby.
Variable inner : strategy.
Variable broker_deploy_in : MessageQueue → option string.
Variable consumer_deploy_in : string → option string.
Variable show_mq : MessageQueue → string.

Fixpoint extend_all (group cid : string) (cid_all : list string) (mr2c : rooms string)
    (mr2mq : rooms MessageQueue) (result : list MessageQueue)
  : RocketMQResult (list MessageQueue) :=
  match mr2mq with
  | [] => Ok result
  | (room, mqs) :: rest =>
      match get_room room mr2c with
      | Some _ => extend_all group cid cid_all mr2c rest result
      | None =>
          try_bind (inner group cid mqs cid_all) (λ r,
          extend_all group cid cid_all mr2c rest (result ++ r))
      end
  end.

Definition allocate_by_machine_room_nearby : strategy := λ group cid mq_all cid_all,
  try_bind (check group cid mq_all cid_all) (λ ok,
  if negb ok then Ok []
  else
    try_bind (group_rooms broker_deploy_in
                (λ mq, String.append "Machine room is null for mq " (show_mq mq)) mq_all [])
      (λ mr2mq,
    try_bind (group_rooms consumer_deploy_in
                (λ c, String.append "Machine room is null for consumer id " c) cid_all [])
      (λ mr2c,
    match consumer_deploy_in cid with
    | None => Ok []
    | Some room =>
        try_bind
          (match get_room room mr2mq with
           | Some mq_in_room =>
               match get_room room mr2c with
               | Some consumers => inner group cid mq_in_room consumers
               | None => Ok []
               end
           | None => Ok []
           end) (λ result,
        extend_all group cid cid_all mr2c (remove_room room mr2mq) result)
    end))).
End Nearby.

(** ** The partition law *)

Definition good_cids (cids : list string) : Prop :=
  cids ≠ [] ∧ NoDup cids ∧ ""%string ∉ cids.

(** The shares of all consumers together are the queues, each once. *)
Class Partitions (s : strategy) : Prop :=
  shares : ∀ (group : string) (mqs : list MessageQueue) (cids : list string),
    mqs ≠ [] → good_cids cids →
    ∃ share : string → list MessageQueue,
      (∀ c, c ∈ cids → s group c mqs cids = Ok (share c)) ∧ cids ≫= share ≡ₚ mqs.

Lemma check_member (group c : string) (mqs : list MessageQueue) (cids : list string) :
  mqs ≠ [] → good_cids cids → c ∈ cids → check group c mqs cids = Ok true.
Proof.
  intros Hm (Hne & _ & He) Hc. unfold check. rewrite bool_decide_false by (by intros ->).
  destruct mqs; [done |]. destruct cids; [done |]. by rewrite bool_decide_true.
Qed.

Lemma index_of_lookup (c : string) (cids : list string) (i : nat) :
  NoDup cids → cids !! i = Some c → index_of c cids = i.
Proof.
  intros Hnd Hi. unfold index_of.
  destruct (list_find (λ c', c' = c) cids) as [[j c'] |] eqn:E; cbn.
  - apply list_find_Some in E as (Hj & -> & _). by eapply NoDup_lookup.
  - apply list_find_None in E. rewrite Forall_forall in E. exfalso. apply (E c); [| done].
    by eapply list_elem_of_lookup_2.
Qed.

Lemma index_of_lt (c : string) (cids : list string) :
  NoDup cids → c ∈ cids → index_of c cids < length cids.
Proof.
  intros Hnd [i Hi]%list_elem_of_lookup. rewrite (index_of_lookup c cids i) by done.
  by eapply lookup_lt_Some.
Qed.

Lemma fmap_bind {A B C} (g : A → B) (f : B → list C) (l : list A) :
  (g <$> l) ≫= f = l ≫= (λ x, f (g x)).
Proof. induction l as [| x l IH]; [done |]. cbn. by rewrite IH. Qed.

(** Consumers stand for their positions. *)
Lemma bind_index {A} (cids : list string) (f : nat → list A) :
  NoDup cids → cids ≫= (λ c, f (index_of c cids)) = seq 0 (length cids) ≫= f.
Proof.
  intros Hnd. assert (He : (λ c, index_of c cids) <$> cids = seq 0 (length cids)).
  { apply list_eq. intros i. rewrite list_lookup_fmap.
    destruct (cids !! i) as [c |] eqn:E; cbn.
    - rewrite (index_of_lookup c cids i) by done. apply lookup_lt_Some in E.
      symmetry. by apply lookup_seq.
    - apply lookup_ge_None in E. symmetry. apply lookup_ge_None. by rewrite length_seq. }
  by rewrite <- He, fmap_bind.
Qed.

(** ** Permutations of nested loops *)

Lemma bind_app_perm {A B} (l : list A) (f g : A → list B) :
  l ≫= (λ x, f x ++ g x) ≡ₚ (l ≫= f) ++ (l ≫= g).
Proof.
  induction l as [| x l IH]; [done |]. cbn.
  etrans; [apply Permutation_app_head, IH |]. rewrite <- !(assoc_L (++)).
  apply Permutation_app_head. rewrite !(assoc_L (++)).
  apply Permutation_app_tail, Permutation_app_comm.
Qed.

Lemma bind_ext_perm {A B} (l : list A) (f g : A → list B) :
  (∀ x, x ∈ l → f x ≡ₚ g x) → l ≫= f ≡ₚ l ≫= g.
Proof.
  induction l as [| x l IH]; intros H; [done |]. cbn.
  apply Permutation_app; [apply H; set_solver |]. apply IH. set_solver.
Qed.

Lemma bind_nil {A B} (l : list A) (f : A → list B) : (∀ x, x ∈ l → f x = []) → l ≫= f = [].
Proof.
  induction l as [| x l IH]; intros H; [done |]. cbn. rewrite (H x) by set_solver.
  apply IH. set_solver.
Qed.

Lemma bind_swap {A B C} (l : list A) (k : list B) (f : A → B → list C) :
  l ≫= (λ x, k ≫= f x) ≡ₚ k ≫= (λ y, l ≫= λ x, f x y).
Proof.
  induction l as [| x l IH]; cbn.
  - by rewrite bind_nil.
  - etrans; [apply Permutation_app_head, IH |]. symmetry. apply bind_app_perm.
Qed.

(** Sorting into disjoint classes loses and duplicates nothing. *)
Lemma bind_filter_perm {A K} `{EqDecision K} (f : A → K) (ks : list K) (l : list A) :
  NoDup ks → (∀ x, x ∈ l → f x ∈ ks) → ks ≫= (λ k, filter (λ x, f x = k) l) ≡ₚ l.
Proof.
  intros Hnd. induction l as [| x l IH]; intros Hl; [by rewrite bind_nil |].
  assert (Hx : ks ≫= (λ k, filter (λ y, f y = k) [x]) ≡ₚ [x]).
  { specialize (Hl x ltac:(set_solver)). clear IH. induction ks as [| k ks IHk]; [set_solver |].
    apply NoDup_cons in Hnd as [Hk Hnd]. rewrite bind_cons.
    destruct (decide (f x = k)) as [<- | Hne].
    - rewrite filter_cons_True by done.
      rewrite (bind_nil ks); [done |]. intros k Hk'. rewrite filter_cons_False by set_solver. done.
    - rewrite filter_cons_False by done. cbn. apply IHk; [done |]. set_solver. }
  change (x :: l) with ([x] ++ l).
  etrans; [| apply Permutation_app; [exact Hx | apply IH; set_solver]].
  etrans; [| apply bind_app_perm]. apply bind_ext_perm. intros k _. by rewrite filter_app.
Qed.

(** ** Averagely *)

(** Where the share of position [i] starts. *)
Definition bound (m n i : nat) : nat :=
  if m <=? n then i `min` m else i * (m / n) + i `min` (m mod n).

Lemma bind_slices {A} (l : list A) (b : nat → nat) (n : nat) :
  b 0 = 0 → (∀ i, i < n → b i ≤ b (S i)) → b n ≤ length l →
  seq 0 n ≫= (λ i, slice l (b i) (b (S i))) = take (b n) l.
Proof.
  intros H0 Hm. induction n as [| n IH]; intros Hn; [by rewrite H0 |].
  rewrite seq_S, bind_app. cbn. rewrite app_nil_r, IH; [| intros; apply Hm; lia |].
  - specialize (Hm n ltac:(lia)). unfold slice. rewrite take_take_drop. f_equal. lia.
  - specialize (Hm n ltac:(lia)). lia.
Qed.

(** The code's start and size describe the slice between two bounds. *)
Lemma share_bounds {A} (l : list A) (n i : nat) :
  let m := length l in
  i < n → 0 < m →
  let avg := if m <=? n then 1
             else if (0 <? m mod n) && (i <? m mod n) then m / n + 1 else m / n in
  let start := if (0 <? m mod n) && (i <? m mod n) then i * avg else i * avg + m mod n in
  let range := if start <? m then avg `min` (m - start) else 0 in
  slice l start (start + range) = slice l (bound m n i) (bound m n (S i)).
Proof.
  intros m Hi Hm. pose proof (Nat.div_mod m n ltac:(lia)) as Hdm.
  pose proof (Nat.mod_upper_bound m n ltac:(lia)) as Hmb. unfold bound.
  destruct (Nat.leb_spec m n) as [Hle | Hgt].
  - assert (Hcase : m < n ∧ m mod n = m ∨ m = n ∧ m mod n = 0).
    { destruct (decide (m = n)) as [-> | ?].
      - right. split; [done |]. by apply Nat.Div0.mod_same.
      - left. split; [lia |]. apply Nat.mod_small. lia. }
    destruct Hcase as [[Hlt ->] | [Heq ->]].
    + rewrite (proj2 (Nat.ltb_lt 0 m)) by lia. cbn [andb].
      destruct (Nat.ltb_spec i m).
      * rewrite (proj2 (Nat.ltb_lt _ _)) by lia. f_equal; lia.
      * rewrite (proj2 (Nat.ltb_ge _ _)) by lia. unfold slice.
        replace (S i `min` m - i `min` m) with 0 by lia.
        by replace (i * 1 + m + 0 - (i * 1 + m)) with 0 by lia.
    + change (0 <? 0) with false. cbn [andb].
      rewrite (proj2 (Nat.ltb_lt _ _)) by lia. f_equal; lia.
  - set (q := m / n) in *. set (d := m mod n) in *. assert (Hq : 0 < q) by nia.
    destruct (Nat.ltb_spec i d) as [Hid | Hid].
    + rewrite (proj2 (Nat.ltb_lt 0 d)) by lia. cbn [andb].
      assert (i * (q + 1) + (q + 1) ≤ m) by nia.
      rewrite (proj2 (Nat.ltb_lt _ _)) by lia. f_equal; lia.
    + rewrite andb_false_r. assert (i * q + d + q ≤ m) by nia.
      rewrite (proj2 (Nat.ltb_lt _ _)) by lia. f_equal; lia.
Qed.

Lemma averagely_share (group c : string) (mqs : list MessageQueue) (cids : list string) :
  mqs ≠ [] → good_cids cids → c ∈ cids →
  let i := index_of c cids in let b := bound (length mqs) (length cids) in
  allocate_averagely group c mqs cids = Ok (slice mqs (b i) (b (S i))).
Proof.
  intros Hm Hg Hc i b. unfold allocate_averagely. rewrite check_member by done. cbn [try_bind negb].
  f_equal. destruct Hg as (Hne & Hnd & _). pose proof (index_of_lt c cids Hnd Hc) as Hi. fold i in Hi.
  apply share_bounds; [done |]. destruct mqs; [done | simpl; lia].
Qed.

(** The bounds run from the first queue to the last, in steps of two
    consecutive sizes. *)
Lemma bound_spec (m n : nat) :
  n ≠ 0 → bound m n 0 = 0 ∧ bound m n n = m ∧
  ∃ q, ∀ i, bound m n i + q ≤ bound m n (S i) ≤ bound m n i + q + 1.
Proof.
  intros Hn. pose proof (Nat.div_mod m n Hn). pose proof (Nat.mod_upper_bound m n Hn).
  unfold bound. destruct (Nat.leb_spec m n).
  - split; [lia |]. split; [lia |]. exists 0. lia.
  - split; [lia |]. split; [lia |]. exists (m / n). lia.
Qed.

Lemma averagely_concat (mqs : list MessageQueue) (cids : list string) :
  good_cids cids →
  let b := bound (length mqs) (length cids) in
  cids ≫= (λ c, slice mqs (b (index_of c cids)) (b (S (index_of c cids)))) = mqs.
Proof.
  intros (Hne & Hnd & _) b. rewrite (bind_index cids (λ i, slice mqs (b i) (b (S i)))) by done.
  destruct (bound_spec (length mqs) (length cids)) as (H0 & Hn & q & Hq); [by destruct cids |].
  fold b in H0, Hn, Hq. rewrite bind_slices; [by rewrite Hn, firstn_all | done | | lia].
  intros i _. specialize (Hq i). lia.
Qed.

#[export] Instance averagely_partitions : Partitions allocate_averagely.
Proof.
  intros group mqs cids Hm Hg. eexists. split; [intros c Hc; by apply averagely_share |].
  by rewrite averagely_concat.
Qed.

(** ** By circle *)

Lemma bind_fmap_r {A B C} (g : A → list B) (h : B → C) (l : list A) :
  l ≫= (λ x, h <$> g x) = h <$> (l ≫= g).
Proof. induction l as [| x l IH]; [done |]. cbn. by rewrite IH, fmap_app. Qed.

Lemma filter_none {A} (P : A → Prop) `{!∀ x, Decision (P x)} (l : list A) :
  (∀ x, x ∈ l → ¬ P x) → filter P l = [].
Proof.
  induction l as [| x l IH]; intros Hl; [done |].
  rewrite filter_cons_False by (apply Hl; set_solver). apply IH. set_solver.
Qed.

Lemma circle_share (group c : string) (mqs : list MessageQueue) (cids : list string) :
  mqs ≠ [] → good_cids cids → c ∈ cids →
  allocate_averagely_by_circle group c mqs cids =
  Ok (filter (λ ix : nat * MessageQueue, ix.1 mod length cids = index_of c cids)
        (imap pair mqs)).*2.
Proof.
  intros Hm Hg Hc. unfold allocate_averagely_by_circle. rewrite check_member by done.
  cbn [try_bind negb]. f_equal. f_equal. destruct Hg as (_ & Hnd & _).
  pose proof (index_of_lt c cids Hnd Hc) as Hi. set (i := index_of c cids) in *.
  transitivity (filter (λ ix : nat * MessageQueue, ix.1 mod length cids = i)
                  (take i (imap pair mqs) ++ drop i (imap pair mqs)));
    [| by rewrite take_drop].
  rewrite filter_app, (filter_none _ (take i _)); [done |].
  intros [j mq] Hin. apply list_elem_of_lookup in Hin as [k Hk].
  apply lookup_take_Some in Hk as [Hk Hki]. rewrite list_lookup_imap in Hk.
  destruct (mqs !! k); [| done]. injection Hk as <- <-. cbn. rewrite Nat.mod_small by lia. lia.
Qed.

#[export] Instance circle_partitions : Partitions allocate_averagely_by_circle.
Proof.
  intros group mqs cids Hm Hg.
  set (f := λ i, (filter (λ ix : nat * MessageQueue, ix.1 mod length cids = i)
                    (imap pair mqs)).*2).
  exists (λ c, f (index_of c cids)). split.
  - intros c Hc. by apply circle_share.
  - destruct Hg as (Hne & Hnd & _). rewrite bind_index by done. unfold f. rewrite bind_fmap_r.
    assert (Hs : (imap pair mqs).*2 = mqs).
    { apply list_eq. intros i. rewrite list_lookup_fmap, list_lookup_imap. by destruct (mqs !! i). }
    transitivity ((imap pair mqs).*2); [| by rewrite Hs]. apply fmap_Permutation.
    apply (bind_filter_perm (λ ix : nat * MessageQueue, ix.1 mod length cids)).
    + apply NoDup_seq.
    + intros x _. apply elem_of_seq. assert (length cids ≠ 0) by (by destruct cids).
      pose proof (Nat.mod_upper_bound x.1 (length cids)). lia.
Qed.

(** ** By machine room *)

Lemma bind_extras {A} (l : list A) (k n r : nat) :
  length l = k + r → r ≤ n →
  seq 0 n ≫= (λ i, if i <? r then option_list (l !! (i + k)) else []) = drop k l.
Proof.
  intros Hl Hr.
  assert (Hgen : ∀ j, j ≤ n →
    seq 0 j ≫= (λ i, if i <? r then option_list (l !! (i + k)) else []) = take j (drop k l)).
  { induction j as [| j IH]; intros Hj; [done |]. rewrite seq_S, bind_app, IH, bind_singleton by lia.
    change (0 + j) with j. destruct (Nat.ltb_spec j r) as [Hjr | Hjr].
    - destruct (lookup_lt_is_Some_2 l (j + k)) as [x Hx]; [lia |]. rewrite Hx.
      symmetry. apply take_S_r. rewrite lookup_drop, <- Hx. f_equal. lia.
    - rewrite app_nil_r, !take_ge; [done | |]; rewrite length_drop; lia. }
  rewrite Hgen by done. apply take_ge. rewrite length_drop. lia.
Qed.

(** ** Nearby *)

Section Rooms.
Context {A : Type} (room : A → string).

(** The groups hold the elements of the list, by room, each room once. *)
Record grouped (l : list A) (m : rooms A) : Prop := {
  gr_nodup : NoDup m.*1;
  gr_get : ∀ k, get_room k m = match filter (λ x, room x = k) l with [] => None | vs => Some vs end;
}.

Lemma get_room_keys (k : string) (m : rooms A) : is_Some (get_room k m) ↔ k ∈ m.*1.
Proof.
  induction m as [| [k' vs] m IH]; cbn.
  - split; [by intros [? ?] | set_solver].
  - destruct (decide (k = k')) as [-> | Hne].
    + split; [set_solver | eauto].
    + rewrite IH. set_solver.
Qed.

Lemma update_room_spec (k k' : string) (vs : list A) (m : rooms A) :
  is_Some (get_room k m) →
  (update_room k vs m).*1 = m.*1 ∧
  get_room k' (update_room k vs m) = if decide (k' = k) then Some vs else get_room k' m.
Proof.
  induction m as [| [k0 vs0] m IH]; cbn; [by intros [? ?] |].
  destruct (decide (k = k0)) as [-> | Hne]; intros Hs; cbn.
  - split; [done |]. by destruct (decide (k' = k0)).
  - destruct (IH Hs) as [-> ->]. split; [done |].
    destruct (decide (k' = k0)) as [-> |]; [by rewrite decide_False |]. done.
Qed.

Lemma insert_room_spec (k k' : string) (vs : list A) (m : rooms A) :
  get_room k m = None →
  (insert_room k vs m).*1 ≡ₚ k :: m.*1 ∧
  get_room k' (insert_room k vs m) = if decide (k' = k) then Some vs else get_room k' m.
Proof.
  induction m as [| [k0 vs0] m IH]; cbn; intros Hn; [done |].
  destruct (decide (k = k0)) as [-> | Hne]; [done |]. destruct (IH Hn) as [Hp Hg].
  assert (Hrest : ((k0, vs0) :: insert_room k vs m).*1 ≡ₚ k :: k0 :: m.*1 ∧
    get_room k' ((k0, vs0) :: insert_room k vs m) =
    if decide (k' = k) then Some vs else if decide (k' = k0) then Some vs0 else get_room k' m).
  { cbn. rewrite Hg. split.
    - etrans; [apply perm_skip, Hp | apply perm_swap].
    - destruct (decide (k' = k0)) as [-> |]; [by rewrite decide_False |]. done. }
  by destruct (String.compare k k0).
Qed.

Lemma push_room_spec (k k' : string) (v : A) (m : rooms A) :
  get_room k' (push_room k v m) =
    (if decide (k' = k) then Some (default [] (get_room k m) ++ [v]) else get_room k' m) ∧
  (NoDup m.*1 → NoDup (push_room k v m).*1).
Proof.
  unfold push_room. destruct (get_room k m) as [vs |] eqn:E.
  - destruct (update_room_spec k k' (vs ++ [v]) m) as [-> ->]; [by rewrite E |]. done.
  - destruct (insert_room_spec k k' [v] m E) as [Hp ->]. split; [done |]. intros Hnd.
    rewrite Hp. apply NoDup_cons. split; [| done]. rewrite <- get_room_keys, E. by intros [? ?].
Qed.

Lemma push_room_grouped (l : list A) (m : rooms A) (x : A) :
  grouped l m → grouped (l ++ [x]) (push_room (room x) x m).
Proof.
  intros [Hnd Hg]. constructor; [exact (proj2 (push_room_spec _ (room x) x m) Hnd) |]. intros k.
  rewrite (proj1 (push_room_spec (room x) k x m)), filter_app.
  destruct (decide (k = room x)) as [-> | Hne].
  - rewrite (filter_cons_True _ x) by done. rewrite Hg.
    by destruct (filter (λ y, room y = room x) l).
  - rewrite (filter_cons_False _ x) by congruence. cbn. by rewrite app_nil_r, Hg.
Qed.

Lemma group_rooms_ok (find : A → option string) (err : A → string) (l l0 : list A)
    (m : rooms A) :
  grouped l0 m → (∀ x, x ∈ l → find x = Some (room x)) →
  ∃ m', group_rooms find err l m = Ok m' ∧ grouped (l0 ++ l) m'.
Proof.
  revert l0 m. induction l as [| x l IH]; intros l0 m Hg Hf; cbn.
  - exists m. by rewrite app_nil_r.
  - rewrite (Hf x) by set_solver. destruct (IH (l0 ++ [x]) (push_room (room x) x m)) as (m' & -> & Hg').
    + by apply push_room_grouped.
    + intros y Hy. apply Hf. set_solver.
    + exists m'. split; [done |]. by rewrite <- (assoc_L (++)) in Hg'.
Qed.

Lemma grouped_nil : grouped [] [].
Proof. constructor; [apply NoDup_nil_2 | done]. Qed.

(** Each room's group is what the list holds for it. *)
Lemma grouped_entry (l : list A) (m : rooms A) (k : string) (vs : list A) :
  grouped l m → (k, vs) ∈ m → vs = filter (λ x, room x = k) l ∧ vs ≠ [].
Proof.
  intros [Hnd Hg] Hin. assert (Hget : get_room k m = Some vs).
  { clear Hg. induction m as [| [k' vs'] m IH]; [set_solver |]. cbn in Hnd |- *.
    apply NoDup_cons in Hnd as [Hk Hnd].
    apply elem_of_cons in Hin as [[= -> ->] | Hin]; [by rewrite decide_True |].
    rewrite decide_False; [by apply IH |]. intros ->. apply Hk.
    apply list_elem_of_fmap. exists (k', vs). done. }
  rewrite Hg in Hget. destruct (filter _ l); [done |]. by injection Hget as <-.
Qed.

Lemma grouped_keys (l : list A) (m : rooms A) (k : string) :
  grouped l m → k ∈ m.*1 ↔ ∃ x, x ∈ l ∧ room x = k.
Proof.
  intros [Hnd Hg]. rewrite <- get_room_keys, Hg. destruct (filter _ l) as [| y ys] eqn:E.
  - split; [by intros [? ?] |]. intros (x & Hx & Hk).
    assert (Hin : x ∈ filter (λ x, room x = k) l) by (by apply list_elem_of_filter).
    rewrite E in Hin. set_solver.
  - split; [| eauto]. intros _. exists y.
    assert (Hin : y ∈ filter (λ x, room x = k) l) by (rewrite E; set_solver).
    apply list_elem_of_filter in Hin. tauto.
Qed.
End Rooms.

(** What a successful allocation returns. *)
Definition ok_or_nil {A} (r : RocketMQResult (list A)) : list A :=
  match r with Ok l => l | Err _ => [] end.

Lemma shares_of (s : strategy) `{!Partitions s} (group : string) (mqs : list MessageQueue)
    (cids : list string) :
  mqs ≠ [] → good_cids cids →
  (∀ c, c ∈ cids → s group c mqs cids = Ok (ok_or_nil (s group c mqs cids))) ∧
  cids ≫= (λ c, ok_or_nil (s group c mqs cids)) ≡ₚ mqs.
Proof.
  intros Hm Hg. destruct (shares group mqs cids Hm Hg) as (share & Hs & Hp). split.
  - intros c Hc. by rewrite (Hs c Hc).
  - etrans; [| exact Hp]. apply bind_ext_perm. intros c Hc. by rewrite (Hs c Hc).
Qed.

Lemma bind_guard {A B} (P : A → Prop) `{!∀ x, Decision (P x)} (l : list A) (f : A → list B) :
  l ≫= (λ x, if decide (P x) then [] else f x) = filter (λ x, ¬ P x) l ≫= f.
Proof.
  induction l as [| x l IH]; [done |]. rewrite bind_cons, IH. destruct (decide (P x)).
  - by rewrite filter_cons_False by tauto.
  - by rewrite filter_cons_True.
Qed.

Lemma bind_perm {A B} (l k : list A) (f : A → list B) : l ≡ₚ k → l ≫= f ≡ₚ k ≫= f.
Proof.
  induction 1 as [| x l k _ IH | x y l | l k h _ IH1 _ IH2]; cbn; [done | | | by etrans].
  - by apply Permutation_app_head.
  - rewrite !(assoc_L (++)). apply Permutation_app_tail, Permutation_app_comm.
Qed.

Lemma bind_bind {A B C} (l : list A) (f : A → list B) (g : B → list C) :
  (l ≫= f) ≫= g = l ≫= (λ x, f x ≫= g).
Proof. induction l as [| x l IH]; [done |]. cbn. by rewrite bind_app, IH. Qed.

Lemma good_cids_filter (P : string → Prop) `{!∀ c, Decision (P c)} (cids : list string) :
  good_cids cids → filter P cids ≠ [] → good_cids (filter P cids).
Proof.
  intros (_ & Hnd & He) Hne. split; [done |]. split; [by apply NoDup_filter |].
  rewrite list_elem_of_filter. tauto.
Qed.

Section NearbyLaw.
Context (inner : strategy) `{!Partitions inner}.
Context (broker_deploy_in : MessageQueue → option string)
        (consumer_deploy_in : string → option string) (show_mq : MessageQueue → string).
Context (rb : MessageQueue → string) (rc : string → string).
Context (group : string) (mqs : list MessageQueue) (cids : list string).
Hypothesis Hrb : ∀ mq, mq ∈ mqs → broker_deploy_in mq = Some (rb mq).
Hypothesis Hrc : ∀ c, c ∈ cids → consumer_deploy_in c = Some (rc c).
Hypothesis Hm : mqs ≠ [].
Hypothesis Hg : good_cids cids.

Let mqs_in (k : string) := filter (λ mq, rb mq = k) mqs.
Let cids_in (k : string) := filter (λ c, rc c = k) cids.
Let near (k c : string) : list MessageQueue :=
  match mqs_in k with [] => [] | _ => ok_or_nil (inner group c (mqs_in k) (cids_in k)) end.
Let far (k c : string) : list MessageQueue := ok_or_nil (inner group c (mqs_in k) cids).

(** Within a room the consumers there share its queues. *)
Lemma near_shares (k : string) : cids_in k ≠ [] → cids_in k ≫= near k ≡ₚ mqs_in k.
Proof.
  intros Hk. unfold near. destruct (mqs_in k) as [| mq l] eqn:E; [by rewrite bind_nil |].
  rewrite <- E. apply (shares_of inner); [by rewrite E |]. by apply good_cids_filter.
Qed.

(** The queues of a room without consumers are shared by all. *)
Lemma extend_all_spec (c : string) (mr2c : rooms string) (m : rooms MessageQueue)
    (result : list MessageQueue) :
  c ∈ cids → (∀ k vs, (k, vs) ∈ m → vs = mqs_in k ∧ vs ≠ []) →
  extend_all inner group c cids mr2c m result =
  Ok (result ++ (m.*1 ≫= λ k, if decide (k ∈ mr2c.*1) then [] else far k c)).
Proof.
  intros Hc. revert result. induction m as [| [k vs] m IH]; intros result Hent; cbn.
  - by rewrite app_nil_r.
  - destruct (get_room k mr2c) as [? |] eqn:E.
    + rewrite decide_True by (apply get_room_keys; by rewrite E). cbn. apply IH.
      intros k' vs' Hin. apply Hent. set_solver.
    + rewrite decide_False by (rewrite <- get_room_keys, E; by intros [? ?]).
      destruct (Hent k vs) as [-> Hne]; [set_solver |].
      rewrite (proj1 (shares_of inner group (mqs_in k) cids Hne Hg) c Hc). cbn [try_bind].
      rewrite IH by (intros k' vs' Hin; apply Hent; set_solver).
      by rewrite <- (assoc_L (++)).
Qed.

Lemma remove_room_keys {A} (k : string) (m : rooms A) (P : string → Prop)
    `{!∀ x, Decision (P x)} (f : string → list MessageQueue) :
  P k → (remove_room k m).*1 ≫= (λ x, if decide (P x) then [] else f x) =
        m.*1 ≫= (λ x, if decide (P x) then [] else f x).
Proof.
  intros Hk. induction m as [| [k' vs] m IH]; [done |]. cbn.
  destruct (decide (k = k')) as [<- | Hne]; cbn; [by rewrite decide_True | by rewrite IH].
Qed.

Lemma remove_room_elem {A} (k : string) (m : rooms A) (e : string * list A) :
  e ∈ remove_room k m → e ∈ m.
Proof.
  induction m as [| [k' vs] m IH]; [done |]. cbn.
  destruct (decide (k = k')); set_solver.
Qed.

Lemma nearby_share (mr2mq : rooms MessageQueue) (mr2c : rooms string) (c : string) :
  group_rooms broker_deploy_in
    (λ mq, String.append "Machine room is null for mq " (show_mq mq)) mqs [] = Ok mr2mq →
  group_rooms consumer_deploy_in
    (λ c, String.append "Machine room is null for consumer id " c) cids [] = Ok mr2c →
  grouped rb mqs mr2mq → grouped rc cids mr2c → c ∈ cids →
  allocate_by_machine_room_nearby inner broker_deploy_in consumer_deploy_in show_mq
    group c mqs cids =
  Ok (near (rc c) c ++ (mr2mq.*1 ≫= λ k, if decide (k ∈ mr2c.*1) then [] else far k c)).
Proof.
  intros Emq Ec Gmq Gc Hc. unfold allocate_by_machine_room_nearby.
  rewrite check_member by done. cbn [try_bind negb]. rewrite Emq, Ec. cbn [try_bind].
  rewrite Hrc by done.
  assert (Hin : c ∈ cids_in (rc c)) by (by apply list_elem_of_filter).
  assert (Hkey : rc c ∈ mr2c.*1) by (apply (grouped_keys rc cids); eauto).
  assert (Hnear : match get_room (rc c) mr2mq with
    | Some mq_in_room =>
        match get_room (rc c) mr2c with
        | Some consumers => inner group c mq_in_room consumers
        | None => Ok []
        end
    | None => Ok []
    end = Ok (near (rc c) c)).
  { rewrite (gr_get _ _ _ Gmq), (gr_get _ _ _ Gc). fold (mqs_in (rc c)) (cids_in (rc c)).
    unfold near. destruct (mqs_in (rc c)) as [| mq l] eqn:E1; [done |].
    destruct (cids_in (rc c)) as [| c' l'] eqn:E2; [set_solver |]. rewrite <- E1, <- E2 in *.
    apply (shares_of inner); [by rewrite E1 | | done].
    apply good_cids_filter; [done |]. fold (cids_in (rc c)). by rewrite E2. }
  rewrite Hnear. cbn [try_bind]. rewrite extend_all_spec; [| done |].
  - by rewrite remove_room_keys.
  - intros k vs Hkv%remove_room_elem. by apply (grouped_entry rb mqs mr2mq).
Qed.

(** Over all rooms with consumers. *)
Lemma near_total (mr2c : rooms string) :
  grouped rc cids mr2c → cids ≫= (λ c, near (rc c) c) ≡ₚ mr2c.*1 ≫= mqs_in.
Proof.
  intros Gc. etrans.
  - symmetry. apply bind_perm. apply (bind_filter_perm rc mr2c.*1); [by apply gr_nodup in Gc |].
    intros c Hc. apply (grouped_keys rc cids); eauto.
  - rewrite bind_bind. apply bind_ext_perm. intros k Hk. etrans; [| apply near_shares].
    + apply bind_ext_perm. intros c [<- _]%list_elem_of_filter. done.
    + apply (grouped_keys rc cids mr2c) in Hk as (c & Hc & <-); [| done].
      intros He. assert (Hin : c ∈ cids_in (rc c)) by (by apply list_elem_of_filter).
      rewrite He in Hin. set_solver.
Qed.

(** Over all rooms without. *)
Lemma far_total (ks : list string) (mr2mq : rooms MessageQueue) :
  grouped rb mqs mr2mq →
  cids ≫= (λ c, mr2mq.*1 ≫= λ k, if decide (k ∈ ks) then [] else far k c) ≡ₚ
  filter (λ k, k ∉ ks) mr2mq.*1 ≫= mqs_in.
Proof.
  intros Gmq. etrans; [apply bind_swap |]. rewrite <- (bind_guard (λ k, k ∈ ks)).
  apply bind_ext_perm. intros k Hk. destruct (decide (k ∈ ks)); [by rewrite bind_nil |].
  apply (shares_of inner); [| done].
  apply (grouped_keys rb mqs mr2mq) in Hk as (mq & Hin & <-); [| done]. intros He.
  assert (Hin' : mq ∈ mqs_in (rb mq)) by (by apply list_elem_of_filter).
  rewrite He in Hin'. set_solver.
Qed.

Lemma nearby_shares :
  ∃ share : string → list MessageQueue,
    (∀ c, c ∈ cids →
      allocate_by_machine_room_nearby inner broker_deploy_in consumer_deploy_in show_mq
        group c mqs cids = Ok (share c)) ∧
    cids ≫= share ≡ₚ mqs.
Proof.
  destruct (group_rooms_ok rb broker_deploy_in
    (λ mq, String.append "Machine room is null for mq " (show_mq mq)) mqs [] []
    (grouped_nil rb) Hrb) as (mr2mq & Emq & Gmq).
  destruct (group_rooms_ok rc consumer_deploy_in
    (λ c, String.append "Machine room is null for consumer id " c) cids [] []
    (grouped_nil rc) Hrc) as (mr2c & Ec & Gc). cbn in Gmq, Gc.
  eexists. split; [intros c Hc; by apply (nearby_share mr2mq mr2c) |].
  etrans; [apply bind_app_perm |].
  etrans; [apply Permutation_app; [by apply near_total | by apply far_total] |].
  rewrite <- bind_app. apply (bind_filter_perm rb).
  - apply NoDup_app. split; [by apply gr_nodup in Gc |]. split.
    + intros k Hk [Hn _]%list_elem_of_filter. done.
    + apply NoDup_filter. by apply gr_nodup in Gmq.
  - intros mq Hmq. assert (rb mq ∈ mr2mq.*1) by (apply (grouped_keys rb mqs); eauto).
    apply elem_of_app. rewrite list_elem_of_filter. destruct (decide (rb mq ∈ mr2c.*1)); tauto.
Qed.
End NearbyLaw.

(** * Properties *)

(** C36: With [allocate_averagely], the consumers of a group, each computing
    its own share from the same lists, take the queues in order and in
    contiguous runs: the shares concatenated in consumer order are the queue
    list itself, and no share is more than one queue longer than another. *)
Theorem averagely_partition (group : string) (mqs : list MessageQueue) (cids : list string) :
  mqs ≠ [] → good_cids cids →
  ∃ share : string → list MessageQueue,
    (∀ c, c ∈ cids → allocate_averagely group c mqs cids = Ok (share c)) ∧
    cids ≫= share = mqs ∧
    ∀ c c', c ∈ cids → c' ∈ cids → length (share c) ≤ length (share c') + 1.
Proof.
  intros Hm Hg. eexists. split; [intros c Hc; by apply averagely_share |].
  split; [by apply averagely_concat |]. intros c c' Hc Hc'. cbn. unfold slice.
  rewrite !length_take, !length_drop.
  destruct Hg as (Hne & Hnd & _). assert (Hn : length cids ≠ 0) by (by destruct cids).
  destruct (bound_spec (length mqs) (length cids) Hn) as (_ & Hend & q & Hq).
  assert (Hmon : ∀ i, i ≤ length cids → bound (length mqs) (length cids) i ≤ length mqs).
  { intros i Hi. assert (Hk : ∀ k, bound (length mqs) (length cids) i ≤
                                  bound (length mqs) (length cids) (k + i)).
    { induction k as [| k IH]; [done |]. specialize (Hq (k + i)). cbn. lia. }
    specialize (Hk (length cids - i)). rewrite Nat.sub_add in Hk by done. lia. }
  pose proof (index_of_lt c' cids Hnd Hc') as Hi'.
  pose proof (Hmon (S (index_of c' cids)) ltac:(lia)).
  pose proof (Hq (index_of c cids)). pose proof (Hq (index_of c' cids)). lia.
Qed.

Definition three_queues : list MessageQueue :=
  [mkMQ "t" "r1@a" 0; mkMQ "t" "r1@a" 1; mkMQ "t" "r2@b" 0].
Lemma two_cids_good : good_cids ["c1"; "c2"]%string.
Proof. split; [done |]. split; [| set_solver]. repeat constructor; set_solver. Qed.

Lemma averagely_partition_witness :
  allocate_averagely "g" "c1" three_queues ["c1"; "c2"] = Ok (take 2 three_queues) ∧
  ∃ share : string → list MessageQueue,
    (∀ c, c ∈ ["c1"; "c2"]%string →
      allocate_averagely "g" c three_queues ["c1"; "c2"] = Ok (share c)) ∧
    ["c1"; "c2"]%string ≫= share = three_queues ∧
    ∀ c c', c ∈ ["c1"; "c2"]%string → c' ∈ ["c1"; "c2"]%string →
      length (share c) ≤ length (share c') + 1.
Proof. split; [reflexivity |]. apply averagely_partition; [done | exact two_cids_good]. Defined.

(** With [allocate_averagely_by_circle] the consumer at position [i]
    gets exactly the queues at the positions congruent to [i] modulo the number
    of consumers, and all shares together are the queues, each once. *)
Theorem circle_partition (group : string) (mqs : list MessageQueue) (cids : list string) :
  mqs ≠ [] → good_cids cids →
  (∀ c, c ∈ cids → ∃ l, allocate_averagely_by_circle group c mqs cids = Ok l ∧
    ∀ mq, mq ∈ l ↔ ∃ j, mqs !! j = Some mq ∧ j mod length cids = index_of c cids) ∧
  cids ≫= (λ c, ok_or_nil (allocate_averagely_by_circle group c mqs cids)) ≡ₚ mqs.
Proof.
  intros Hm Hg. split; [| by apply (shares_of allocate_averagely_by_circle)].
  intros c Hc. eexists. split; [by apply circle_share |]. intros mq.
  rewrite list_elem_of_fmap. setoid_rewrite list_elem_of_filter. split.
  - intros ([j mq'] & -> & Hj & Hin). apply list_elem_of_lookup in Hin as [k Hk].
    rewrite list_lookup_imap in Hk. destruct (mqs !! k) eqn:E; [| done].
    injection Hk as -> ->. by exists j.
  - intros (j & Hj & Hmod). exists (j, mq). split; [done |]. split; [done |].
    apply list_elem_of_lookup. exists j. by rewrite list_lookup_imap, Hj.
Qed.

Lemma circle_partition_witness :
  allocate_averagely_by_circle "g" "c1" three_queues ["c1"; "c2"] =
    Ok [mkMQ "t" "r1@a" 0; mkMQ "t" "r2@b" 0] ∧
  (∀ c, c ∈ ["c1"; "c2"]%string → ∃ l,
    allocate_averagely_by_circle "g" c three_queues ["c1"; "c2"] = Ok l ∧
    ∀ mq, mq ∈ l ↔ ∃ j, three_queues !! j = Some mq ∧ j mod 2 = index_of c ["c1"; "c2"]) ∧
  ["c1"; "c2"]%string ≫=
    (λ c, ok_or_nil (allocate_averagely_by_circle "g" c three_queues ["c1"; "c2"]))
    ≡ₚ three_queues.
Proof. split; [reflexivity |]. apply circle_partition; [done | exact two_cids_good]. Defined.

(** With [allocate_by_machine_room] the shares of all consumers
    together are exactly the queues whose broker is named after one of the
    given rooms, each once; the queues of other rooms go to nobody. *)
Theorem machine_room_partition (idcs : gset string) (group : string) (mqs : list MessageQueue)
    (cids : list string) :
  mqs ≠ [] → good_cids cids →
  ∃ share : string → list MessageQueue,
    (∀ c, c ∈ cids → allocate_by_machine_room idcs group c mqs cids = Ok (share c)) ∧
    cids ≫= share ≡ₚ filter (λ mq, in_rooms idcs mq = true) mqs.
Proof.
  intros Hm Hg. set (pre := filter (λ mq, in_rooms idcs mq = true) mqs).
  set (n := length cids). set (q := length pre / n). set (d := length pre mod n).
  set (f := λ i, slice pre (q * i) (q * S i) ++
                 if i <? d then option_list (pre !! (i + q * n)) else []).
  assert (Hn : n ≠ 0) by (unfold n; destruct Hg as (? & _); by destruct cids).
  pose proof (Nat.div_mod (length pre) n Hn) as Hdm.
  pose proof (Nat.mod_upper_bound (length pre) n Hn) as Hmb. fold q d in Hdm, Hmb.
  exists (λ c, f (index_of c cids)). split.
  - intros c Hc. unfold allocate_by_machine_room. rewrite check_member by done.
    cbn [try_bind negb]. fold pre n q d. unfold f, slice.
    replace (q * S (index_of c cids) - q * index_of c cids) with
      (q * index_of c cids + q - q * index_of c cids) by lia.
    destruct (_ <? d); [destruct (pre !! _) |]; cbn; by rewrite ?app_nil_r.
  - destruct Hg as (Hne & Hnd & _). rewrite bind_index by done. unfold f.
    etrans; [apply bind_app_perm |]. fold n.
    rewrite (bind_slices pre (λ i, q * i) n), (bind_extras pre (q * n) n d);
      [by rewrite take_drop | lia | lia | lia | intros; lia | lia].
Qed.

Lemma machine_room_partition_witness :
  filter (λ mq, in_rooms {["r1"%string]} mq = true) three_queues = take 2 three_queues ∧
  ∃ share : string → list MessageQueue,
    (∀ c, c ∈ ["c1"; "c2"]%string →
      allocate_by_machine_room {["r1"%string]} "g" c three_queues ["c1"; "c2"] = Ok (share c)) ∧
    ["c1"; "c2"]%string ≫= share ≡ₚ
    filter (λ mq, in_rooms {["r1"%string]} mq = true) three_queues.
Proof.
  split; [vm_compute; reflexivity |]. apply machine_room_partition; [done | exact two_cids_good].
Defined.

(** [allocate_by_machine_room_nearby] lifts the partition law of the
    strategy it wraps: when every queue and every consumer has a machine room,
    each consumer's allocation succeeds and all shares together are the queues,
    each once, whichever rooms hold consumers. *)
Theorem nearby_partition (inner : strategy) (broker_deploy_in : MessageQueue → option string)
    (consumer_deploy_in : string → option string) (show_mq : MessageQueue → string)
    (group : string) (mqs : list MessageQueue) (cids : list string) :
  Partitions inner →
  (∀ mq, mq ∈ mqs → is_Some (broker_deploy_in mq)) →
  (∀ c, c ∈ cids → is_Some (consumer_deploy_in c)) →
  mqs ≠ [] → good_cids cids →
  ∃ share : string → list MessageQueue,
    (∀ c, c ∈ cids →
      allocate_by_machine_room_nearby inner broker_deploy_in consumer_deploy_in show_mq
        group c mqs cids = Ok (share c)) ∧
    cids ≫= share ≡ₚ mqs.
Proof.
  intros Hi Hb Hc Hm Hg.
  apply (nearby_shares inner _ _ show_mq (λ mq, default ""%string (broker_deploy_in mq))
    (λ c, default ""%string (consumer_deploy_in c))); [| | done | done].
  - intros mq Hmq. by destruct (Hb mq Hmq) as [? ->].
  - intros c Hc'. by destruct (Hc c Hc') as [? ->].
Qed.

Definition room_of_queue (mq : MessageQueue) : option string :=
  head (bytes_str <$> split_byte Byte.x40 (str_bytes (mq_broker_name mq)) []).

Lemma nearby_partition_witness :
  allocate_by_machine_room_nearby allocate_averagely room_of_queue (λ _, Some "r1"%string)
    mq_topic "g" "c2" three_queues ["c1"; "c2"] = Ok [mkMQ "t" "r1@a" 1] ∧
  ∃ share : string → list MessageQueue,
    (∀ c, c ∈ ["c1"; "c2"]%string →
      allocate_by_machine_room_nearby allocate_averagely room_of_queue (λ _, Some "r1"%string)
        mq_topic "g" c three_queues ["c1"; "c2"] = Ok (share c)) ∧
    ["c1"; "c2"]%string ≫= share ≡ₚ three_queues.
Proof.
  split; [vm_compute; reflexivity |].
  apply nearby_partition; [exact averagely_partitions | | by eauto | done | exact two_cids_good].
  intros mq Hmq. unfold three_queues in Hmq.
  repeat (apply elem_of_cons in Hmq as [-> | Hmq]; [eexists; vm_compute; reflexivity |]).
  by apply not_elem_of_nil in Hmq.
Defined.
