(* ===== verification/LockManager.v ===== *)
(** * LockManager: the queue locks of ordered consumption
    ([rebalance_lock_manager.rs])

    A consumer of a group locks queues at the broker before it consumes them in
    order.  A lock is a lease: it belongs to one client and expires when the
    client does not renew it.  The table is behind a read-write lock, so the
    parts of the methods that run under it are the atomic steps (two sections
    under the read guard may overlap, but they write nothing except the time
    stamp of the caller's own lease, and run one after the other here).  The
    clock is read many times; the model threads a count of the readings. *)

From stdpp Require Import base gmap list strings.
From Stdlib Require Import ZArith Lia.
From S2P Require Import Prelude Rebalance.
Open Scope Z_scope.

#[export] Instance MessageQueue_eq_dec : EqDecision MessageQueue.
Proof. solve_decision. Defined.
#[export] Instance MessageQueue_countable : Countable MessageQueue.
Proof.
  refine (inj_countable' (λ q, (mq_topic q, mq_broker_name q, mq_queue_id q))
            (λ x, mkMQ x.1.1 x.1.2 x.2) _). by intros [].
Defined.

Record LockEntry := mkLock { client_id : string; lock_update_timestamp : Z }.

Abbreviation group_locks := (gmap MessageQueue LockEntry).
Abbreviation lock_table := (gmap string group_locks).

(** The table and how many times the clock has been read. *)
Record RebalanceLockManager := mkLocks { mq_lock_table : lock_table; readings : nat }.

Section Locks.
(** The [n]-th reading of [get_current_millis]. *)
Variable clock : nat → Z.
(** Read from the environment. *)
Variable REBALANCE_LOCK_MAX_LIVE_TIME : Z.

Definition is_expired (e : LockEntry) (t : nat) : bool * nat :=
  (REBALANCE_LOCK_MAX_LIVE_TIME <? as_i64 (clock t - lock_update_timestamp e), S t).

(** [LockEntry::is_locked] *)
Definition entry_is_locked (client : string) (e : LockEntry) (t : nat) : bool * nat :=
  if decide (client_id e = client) then
    let '(expired, t) := is_expired e t in (negb expired, t)
  else (false, t).

(** [is_locked], under the read guard: renews the lease it finds. *)
Definition is_locked (group : string) (mq : MessageQueue) (client : string)
    (s : RebalanceLockManager) : RebalanceLockManager * bool :=
  match mq_lock_table s !! group with
  | None => (s, false)
  | Some group_value =>
      match group_value !! mq with
      | None => (s, false)
      | Some e =>
          let '(locked, t) := entry_is_locked client e (readings s) in
          if locked then
            (mkLocks (<[group := <[mq := mkLock (client_id e) (clock t)]> group_value]>
                        (mq_lock_table s)) (S t), true)
          else (mkLocks (mq_lock_table s) t, false)
      end
  end.

Fixpoint check_all (group client : string) (mqs : list MessageQueue)
    (s : RebalanceLockManager)
  : RebalanceLockManager * list MessageQueue * list MessageQueue :=
  match mqs with
  | [] => (s, [], [])
  | mq :: mqs' =>
      let '(s, locked) := is_locked group mq client s in
      let '(s, lock_mqs, not_locked_mqs) := check_all group client mqs' s in
      if locked then (s, mq :: lock_mqs, not_locked_mqs)
      else (s, lock_mqs, mq :: not_locked_mqs)
  end.

(** One queue of the write section: locks a free or expired queue. *)
Definition acquire_one (client : string) (mq : MessageQueue) (group_value : group_locks)
    (t : nat) : group_locks * nat * bool :=
  let '(group_value, e, t) :=
    match group_value !! mq with
    | Some e => (group_value, e, t)
    | None =>
        let e := mkLock client (clock t) in (<[mq := e]> group_value, e, S t)
    end in
  let '(locked, t) := entry_is_locked client e t in
  if locked then (<[mq := mkLock (client_id e) (clock t)]> group_value, S t, true)
  else
    let '(expired, t) := is_expired e t in
    if expired then (<[mq := mkLock client (clock t)]> group_value, S t, true)
    else (group_value, t, false).

Fixpoint acquire_all (client : string) (mqs : list MessageQueue) (group_value : group_locks)
    (t : nat) : group_locks * nat * list MessageQueue :=
  match mqs with
  | [] => (group_value, t, [])
  | mq :: mqs' =>
      let '(group_value, t, ok) := acquire_one client mq group_value t in
      let '(group_value, t, granted) := acquire_all client mqs' group_value t in
      (group_value, t, if ok then mq :: granted else granted)
  end.

(** The write section. *)
Definition acquire (group client : string) (mqs : list MessageQueue)
    (s : RebalanceLockManager) : RebalanceLockManager * list MessageQueue :=
  let group_value := default ∅ (mq_lock_table s !! group) in
  let '(group_value, t, granted) := acquire_all client mqs group_value (readings s) in
  (mkLocks (<[group := group_value]> (mq_lock_table s)) t, granted).

(** [mqs] in the order the set is iterated over; the answer as a list. *)
Definition try_lock_batch (group : string) (mqs : list MessageQueue) (client : string)
    (s : RebalanceLockManager) : RebalanceLockManager * list MessageQueue :=
  let '(s, lock_mqs, not_locked_mqs) := check_all group client mqs s in
  match not_locked_mqs with
  | [] => (s, lock_mqs)
  | _ => let '(s, granted) := acquire group client not_locked_mqs s in (s, lock_mqs ++ granted)
  end.

Definition unlock_one (client : string) (group_value : group_locks) (mq : MessageQueue)
  : group_locks :=
  match group_value !! mq with
  | Some e => if decide (client_id e = client) then delete mq group_value else group_value
  | None => group_value
  end.

Definition unlock_batch (group : string) (mqs : list MessageQueue) (client : string)
    (s : RebalanceLockManager) : RebalanceLockManager :=
  match mq_lock_table s !! group with
  | None => s
  | Some group_value =>
      mkLocks (<[group := foldl (unlock_one client) group_value mqs]> (mq_lock_table s))
        (readings s)
  end.

Fixpoint all_expired (es : list LockEntry) (t : nat) : bool * nat :=
  match es with
  | [] => (true, t)
  | e :: es' =>
      let '(expired, t) := is_expired e t in
      if expired then all_expired es' t else (false, t)
  end.
Definition is_lock_all_expired (group : string) (s : RebalanceLockManager)
  : RebalanceLockManager * bool :=
  match mq_lock_table s !! group with
  | None => (s, true)
  | Some group_value =>
      let '(b, t) := all_expired (map_to_list group_value).*2 (readings s) in
      (mkLocks (mq_lock_table s) t, b)
  end.

(** ** Interleaving *)

(** What one client does under the lock at a time. *)
Inductive section :=
| Check (group : string) (mq : MessageQueue) (client : string)
| Acquire (group : string) (mqs : list MessageQueue) (client : string)
| Unlock (group : string) (mqs : list MessageQueue) (client : string)
| AllExpired (group : string).

(** The group, the client and the queues a section tells the client it owns. *)
Definition exec (x : section) (s : RebalanceLockManager)
  : RebalanceLockManager * list (string * string * MessageQueue) :=
  match x with
  | Check g mq c => let '(s, ok) := is_locked g mq c s in (s, if ok then [(g, c, mq)] else [])
  | Acquire g mqs c => let '(s, granted) := acquire g c mqs s in (s, pair (g, c) <$> granted)
  | Unlock g mqs c => (unlock_batch g mqs c s, [])
  | AllExpired g => ((is_lock_all_expired g s).1, [])
  end.

Fixpoint exec_all (xs : list section) (s : RebalanceLockManager)
  : RebalanceLockManager * list (string * string * MessageQueue) :=
  match xs with
  | [] => (s, [])
  | x :: xs' =>
      let '(s, a) := exec x s in
      let '(s, b) := exec_all xs' s in (s, a ++ b)
  end.

(** ** Leases *)

Definition lease (group : string) (mq : MessageQueue) (s : RebalanceLockManager)
  : option LockEntry := mq_lock_table s !! group ≫= (.!! mq).

(** The clock does not run backwards and stays in range. *)
Hypothesis clock_mono : ∀ i j, (i ≤ j)%nat → clock i ≤ clock j.
Hypothesis clock_range : ∀ i, 0 ≤ clock i < 2 ^ 63.

(** The client holds the lease, renewed at a reading not before [t0]. *)
Definition held (client : string) (t0 t : nat) (oe : option LockEntry) : Prop :=
  ∃ t1, (t0 ≤ t1 ≤ t)%nat ∧ oe = Some (mkLock client (clock t1)).

Ltac mem := rewrite ?elem_of_cons in *; tauto.

Lemma held_mono (client : string) (t0 t t' : nat) (oe : option LockEntry) :
  held client t0 t oe → (t ≤ t')%nat → held client t0 t' oe.
Proof. intros (t1 & ? & ->) ?. exists t1. split; [lia | done]. Qed.

(** Within its life a held lease is not expired. *)
Lemma held_not_expired (c : string) (t0 t1 t : nat) :
  (t0 ≤ t1)%nat → clock t - clock t0 ≤ REBALANCE_LOCK_MAX_LIVE_TIME →
  is_expired (mkLock c (clock t1)) t = (false, S t).
Proof.
  intros Hle Hlive. unfold is_expired. cbn [lock_update_timestamp].
  pose proof (clock_range t). pose proof (clock_range t1). pose proof (clock_mono t0 t1 Hle).
  rewrite as_i64_id by (unfold in_s; simpl Z.pow in *; lia).
  by rewrite (proj2 (Z.ltb_ge _ _)) by lia.
Qed.

(** Another client cannot take it; its owner renews it. *)
Lemma acquire_one_held (c client : string) (mq mq' : MessageQueue) (gv gv' : group_locks)
    (t0 t t' : nat) (ok : bool) :
  held c t0 t (gv !! mq) → acquire_one client mq' gv t = (gv', t', ok) →
  clock t' - clock t0 ≤ REBALANCE_LOCK_MAX_LIVE_TIME →
  (t ≤ t')%nat ∧ held c t0 t' (gv' !! mq) ∧ (ok = true → mq' = mq → client = c).
Proof.
  intros Hh Ha Hlive. unfold acquire_one, entry_is_locked in Ha.
  destruct (decide (mq' = mq)) as [-> | Hne].
  - destruct Hh as (t1 & Ht1 & Hmq). rewrite Hmq in Ha. cbn [client_id] in Ha.
    destruct (decide (c = client)) as [<- | Hc].
    + assert (Hmono : (S t ≤ t')%nat) by (unfold is_expired in Ha; cbn [negb] in Ha;
        repeat case_match; simplify_eq; lia).
      pose proof (clock_mono t t' ltac:(lia)).
      rewrite (held_not_expired c t0 t1 t) in Ha by lia. cbn [negb] in Ha. simplify_eq.
      split; [lia |]. split; [| done]. exists (S t). split; [lia |]. apply lookup_insert_eq.
    + assert (Hmono : (S t ≤ t')%nat) by (unfold is_expired in Ha;
        repeat case_match; simplify_eq; lia).
      pose proof (clock_mono t t' ltac:(lia)).
      rewrite (held_not_expired c t0 t1 t) in Ha by lia. simplify_eq.
      split; [lia |]. split; [| done]. exists t1. split; [lia | done].
  - assert (Hrest : (t ≤ t')%nat ∧ gv' !! mq = gv !! mq).
    { unfold is_expired in Ha. repeat case_match; simplify_eq; split; try lia;
        by rewrite ?lookup_insert_ne by done. }
    destruct Hrest as [Ht ->]. split; [done |]. split; [by eapply held_mono | done].
Qed.

(** Readings only go up. *)
Lemma acquire_one_tick (client : string) (mq : MessageQueue) (gv gv' : group_locks)
    (t t' : nat) (ok : bool) :
  acquire_one client mq gv t = (gv', t', ok) → (t ≤ t')%nat.
Proof.
  unfold acquire_one, entry_is_locked, is_expired. intros. repeat case_match; simplify_eq; lia.
Qed.

Lemma acquire_all_tick (client : string) (mqs : list MessageQueue) (gv gv' : group_locks)
    (t t' : nat) (granted : list MessageQueue) :
  acquire_all client mqs gv t = (gv', t', granted) → (t ≤ t')%nat.
Proof.
  revert gv t granted. induction mqs as [| q mqs IH]; intros gv t granted Ha; cbn in Ha.
  - by simplify_eq.
  - destruct (acquire_one client q gv t) as [[gv1 t1] ok] eqn:E1.
    destruct (acquire_all client mqs gv1 t1) as [[gv2 t2] g2] eqn:E2. simplify_eq.
    apply acquire_one_tick in E1. apply IH in E2. lia.
Qed.

Lemma acquire_all_held (c client : string) (mq : MessageQueue) (mqs : list MessageQueue)
    (gv gv' : group_locks) (t0 t t' : nat) (granted : list MessageQueue) :
  held c t0 t (gv !! mq) → acquire_all client mqs gv t = (gv', t', granted) →
  clock t' - clock t0 ≤ REBALANCE_LOCK_MAX_LIVE_TIME →
  held c t0 t' (gv' !! mq) ∧ (mq ∈ granted → client = c).
Proof.
  revert gv t granted. induction mqs as [| q mqs IH]; intros gv t granted Hh Ha Hlive; cbn in Ha.
  - simplify_eq. split; [done | set_solver].
  - destruct (acquire_one client q gv t) as [[gv1 t1] ok] eqn:E1.
    destruct (acquire_all client mqs gv1 t1) as [[gv2 t2] g2] eqn:E2. simplify_eq.
    pose proof (acquire_all_tick _ _ _ _ _ _ _ E2) as Ht.
    pose proof (clock_mono t1 t' Ht).
    destruct (acquire_one_held c client mq q gv gv1 t0 t t1 ok Hh E1 ltac:(lia))
      as (_ & Hh1 & Hok).
    destruct (IH gv1 t1 g2 Hh1 E2 Hlive) as [Hh2 Hg]. split; [done |].
    destruct ok; [| done]. intros [-> | Hin]%elem_of_cons; [by apply Hok | by apply Hg].
Qed.

Lemma lease_insert (g g' : string) (gv : group_locks) (mq : MessageQueue)
    (s : RebalanceLockManager) (t : nat) :
  lease g' mq (mkLocks (<[g := gv]> (mq_lock_table s)) t) =
  if decide (g = g') then gv !! mq else lease g' mq s.
Proof.
  unfold lease. cbn [mq_lock_table]. destruct (decide (g = g')) as [-> | Hne].
  - by rewrite lookup_insert_eq.
  - by rewrite lookup_insert_ne.
Qed.

Lemma lease_group (g : string) (mq : MessageQueue) (s : RebalanceLockManager) :
  lease g mq s = default ∅ (mq_lock_table s !! g) !! mq.
Proof. unfold lease. by destruct (mq_lock_table s !! g). Qed.

Lemma is_locked_held (c client g g' : string) (mq mq' : MessageQueue)
    (s s' : RebalanceLockManager) (t0 : nat) (ok : bool) :
  held c t0 (readings s) (lease g mq s) → is_locked g' mq' client s = (s', ok) →
  (readings s ≤ readings s')%nat ∧ held c t0 (readings s') (lease g mq s') ∧
  (ok = true → g' = g → mq' = mq → client = c).
Proof.
  intros Hh Hl. unfold is_locked, entry_is_locked, is_expired in Hl.
  destruct (mq_lock_table s !! g') as [gv |] eqn:Eg; [| simplify_eq; done].
  destruct (gv !! mq') as [e |] eqn:Eq; [| simplify_eq; done].
  assert (Hsame : g' = g → mq' = mq → lease g mq s = Some e).
  { intros -> ->. unfold lease. by rewrite Eg. }
  destruct (decide (client_id e = client)) as [Hc | Hc]; [destruct (negb _) |];
    simplify_eq; cbn [readings].
  - split; [lia |]. split.
    + rewrite lease_insert. destruct (decide (g' = g)) as [-> | Hg]; cycle 1.
      { eapply held_mono; [done | lia]. }
      destruct (decide (mq' = mq)) as [-> | Hmq].
      * destruct Hh as (t1 & Ht1 & Hle). rewrite Hsame in Hle by done. simplify_eq.
        exists (S (readings s)). split; [lia |]. apply lookup_insert_eq.
      * rewrite lookup_insert_ne by done. unfold lease in Hh. rewrite Eg in Hh.
        eapply held_mono; [exact Hh | lia].
    + intros _ -> ->. destruct Hh as (t1 & _ & Hle). rewrite Hsame in Hle by done. by simplify_eq.
  - split; [lia |]. split; [| done]. eapply held_mono; [exact Hh | lia].
  - split; [lia |]. by split.
Qed.

Definition unlocks (c g : string) (mq : MessageQueue) (x : section) : Prop :=
  match x with Unlock g' mqs c' => g' = g ∧ c' = c ∧ mq ∈ mqs | _ => False end.

Lemma unlock_all_other (client : string) (mq : MessageQueue) (mqs : list MessageQueue)
    (gv : group_locks) (e : LockEntry) :
  gv !! mq = Some e → (client = client_id e → mq ∉ mqs) →
  foldl (unlock_one client) gv mqs !! mq = Some e.
Proof.
  revert gv. induction mqs as [| q mqs IH]; intros gv He Hn; [done |]. cbn. apply IH.
  - unfold unlock_one. destruct (gv !! q) as [e' |] eqn:Eq; [| done].
    destruct (decide (client_id e' = client)) as [Hc |]; [| done].
    rewrite lookup_delete_ne; [done |]. intros <-. rewrite Eq in He. simplify_eq.
    apply (Hn eq_refl). set_solver.
  - intros Hc. specialize (Hn Hc). set_solver.
Qed.

Lemma all_expired_tick (es : list LockEntry) (t : nat) : (t ≤ (all_expired es t).2)%nat.
Proof.
  revert t. induction es as [| e es IH]; intros t; cbn; [done |].
  destruct (_ <? _); cbn; [| lia]. specialize (IH (S t)). lia.
Qed.

Lemma exec_tick (x : section) (s : RebalanceLockManager) :
  (readings s ≤ readings (exec x s).1)%nat.
Proof.
  destruct x as [g mq c | g mqs c | g mqs c | g]; cbn.
  - unfold is_locked, entry_is_locked, is_expired. repeat case_match; simplify_eq; cbn; lia.
  - unfold acquire. destruct (acquire_all _ _ _ _) as [[gv t] gr] eqn:E. cbn.
    by eapply acquire_all_tick.
  - unfold unlock_batch. by destruct (mq_lock_table s !! g).
  - unfold is_lock_all_expired. destruct (mq_lock_table s !! g) as [gv |]; [| done].
    pose proof (all_expired_tick (map_to_list gv).*2 (readings s)) as Ht.
    by destruct (all_expired _ _).
Qed.

Lemma exec_all_tick (xs : list section) (s : RebalanceLockManager) :
  (readings s ≤ readings (exec_all xs s).1)%nat.
Proof.
  revert s. induction xs as [| x xs IH]; intros s; [done |]. cbn.
  pose proof (exec_tick x s). destruct (exec x s) as [s1 a]. specialize (IH s1).
  destruct (exec_all xs s1). cbn in *. lia.
Qed.

(** One section, whoever runs it. *)
Lemma exec_held (c g : string) (mq : MessageQueue) (x : section) (s : RebalanceLockManager)
    (t0 : nat) :
  held c t0 (readings s) (lease g mq s) → ¬ unlocks c g mq x →
  clock (readings (exec x s).1) - clock t0 ≤ REBALANCE_LOCK_MAX_LIVE_TIME →
  held c t0 (readings (exec x s).1) (lease g mq (exec x s).1) ∧
  ∀ c', (g, c', mq) ∈ (exec x s).2 → c' = c.
Proof.
  intros Hh Hu Hlive. destruct x as [g' mq' c' | g' mqs c' | g' mqs c' | g']; cbn in *.
  - destruct (is_locked g' mq' c' s) as [s1 ok] eqn:E. cbn in *.
    destruct (is_locked_held c c' g g' mq mq' s s1 t0 ok Hh E) as (_ & Hh1 & Hok).
    split; [done |]. intros c1 Hin. destruct ok; [| set_solver].
    apply list_elem_of_singleton in Hin. simplify_eq. by apply Hok.
  - unfold acquire in *. destruct (acquire_all _ _ _ _) as [[gv t] gr] eqn:E. cbn in *.
    rewrite lease_insert. destruct (decide (g' = g)) as [-> | Hg].
    + rewrite lease_group in Hh.
      destruct (acquire_all_held c c' mq mqs _ gv t0 _ t gr Hh E Hlive) as [Hh1 Hgr].
      split; [done |]. intros c1 Hin. apply list_elem_of_fmap in Hin as (q & Hq & Hin).
      simplify_eq. by apply Hgr.
    + split; [eapply held_mono; [done | by eapply acquire_all_tick] |].
      intros c1 Hin. apply list_elem_of_fmap in Hin as (q & Hq & _). by simplify_eq.
  - split; [| set_solver]. unfold unlock_batch.
    destruct (mq_lock_table s !! g') as [gv |] eqn:Eg; [| done].
    rewrite lease_insert. destruct (decide (g' = g)) as [-> | Hg]; [| done].
    destruct Hh as (t1 & Ht1 & Hle). exists t1. split; [done |].
    unfold lease in Hle. rewrite Eg in Hle. cbn in Hle.
    apply unlock_all_other; [done |]. cbn. intros -> Hin. by apply Hu.
  - pose proof (exec_tick (AllExpired g') s) as Ht. cbn in Ht. split; [| set_solver].
    assert (Hs : lease g mq (is_lock_all_expired g' s).1 = lease g mq s).
    { unfold is_lock_all_expired. destruct (mq_lock_table s !! g'); [| done].
      by destruct (all_expired _ _). }
    rewrite Hs. by eapply held_mono.
Qed.

Lemma exec_all_held (c g : string) (mq : MessageQueue) (xs : list section)
    (s : RebalanceLockManager) (t0 : nat) :
  held c t0 (readings s) (lease g mq s) → Forall (λ x, ¬ unlocks c g mq x) xs →
  clock (readings (exec_all xs s).1) - clock t0 ≤ REBALANCE_LOCK_MAX_LIVE_TIME →
  held c t0 (readings (exec_all xs s).1) (lease g mq (exec_all xs s).1) ∧
  ∀ c', (g, c', mq) ∈ (exec_all xs s).2 → c' = c.
Proof.
  intros Hh Hu. revert s Hh. induction Hu as [| x xs Hx _ IH]; intros s Hh Hlive; cbn in *.
  { split; [done | set_solver]. }
  pose proof (exec_held c g mq x s t0 Hh Hx) as He.
  destruct (exec x s) as [s1 a]. cbn in He. pose proof (exec_all_tick xs s1) as Ht.
  specialize (IH s1). destruct (exec_all xs s1) as [s2 b]. cbn in *.
  pose proof (clock_mono _ _ Ht). destruct He as [Hh1 Ha]; [lia |].
  destruct (IH Hh1 Hlive) as [Hh2 Hb]. split; [done |].
  intros c' [Hin | Hin]%elem_of_app; auto.
Qed.

(** ** Acquiring *)

(** The client may have the queue: it is free, its own, or its lease is over. *)
Definition takeable (client : string) (t : nat) (oe : option LockEntry) : Prop :=
  match oe with
  | None => True
  | Some e =>
      0 ≤ lock_update_timestamp e < 2 ^ 63 ∧
      (client_id e = client ∨ REBALANCE_LOCK_MAX_LIVE_TIME < clock t - lock_update_timestamp e)
  end.

Lemma takeable_mono (client : string) (t t' : nat) (oe : option LockEntry) :
  takeable client t oe → (t ≤ t')%nat → takeable client t' oe.
Proof.
  intros H Ht. destruct oe as [e |]; [| done]. destruct H as [Hr [H | H]]; cbn; [tauto |].
  split; [done |]. right. pose proof (clock_mono t t' Ht). lia.
Qed.

(** Once expired, expired at every later reading. *)
Lemma is_expired_spec (e : LockEntry) (t : nat) :
  0 ≤ lock_update_timestamp e < 2 ^ 63 →
  is_expired e t = (REBALANCE_LOCK_MAX_LIVE_TIME <? clock t - lock_update_timestamp e, S t).
Proof.
  intros Hr. unfold is_expired. pose proof (clock_range t).
  by rewrite as_i64_id by (unfold in_s; simpl Z.pow in *; lia).
Qed.

Lemma acquire_one_grants (client : string) (mq : MessageQueue) (gv : group_locks) (t : nat) :
  takeable client t (gv !! mq) →
  ∃ (gv' : group_locks) t', acquire_one client mq gv t = (gv', t', true) ∧ held client t t' (gv' !! mq).
Proof.
  intros Htk. unfold acquire_one.
  assert (Hgo : ∀ (gv0 : group_locks) e t1, (t ≤ t1)%nat → takeable client t1 (Some e) →
    ∃ (gv' : group_locks) t', (let '(locked, t) := entry_is_locked client e t1 in
      if locked then (<[mq := mkLock (client_id e) (clock t)]> gv0, S t, true)
      else
        let '(expired, t) := is_expired e t in
        if expired then (<[mq := mkLock client (clock t)]> gv0, S t, true)
        else (gv0, t, false)) = (gv', t', true) ∧ held client t t' (gv' !! mq)).
  { intros gv0 e t1 Ht1 [Hr Hd]. unfold entry_is_locked.
    destruct (decide (client_id e = client)) as [<- | Hc].
    - rewrite is_expired_spec by done. destruct (Z.ltb_spec REBALANCE_LOCK_MAX_LIVE_TIME (clock t1 - lock_update_timestamp e))
        as [Hx | Hx]; cbn [negb].
      + rewrite is_expired_spec by done. pose proof (clock_mono t1 (S t1) ltac:(lia)).
        rewrite (proj2 (Z.ltb_lt _ _)) by lia. do 2 eexists. split; [done |].
        eexists. split; [| apply lookup_insert_eq]. lia.
      + do 2 eexists. split; [done |]. eexists. split; [| apply lookup_insert_eq]. lia.
    - destruct Hd as [? | Hx]; [done |]. rewrite is_expired_spec, (proj2 (Z.ltb_lt _ _)) by done.
      do 2 eexists. split; [done |]. eexists. split; [| apply lookup_insert_eq]. lia. }
  destruct (gv !! mq) as [e |]; [by apply Hgo |].
  apply Hgo; [lia |]. split; [apply clock_range | by left].
Qed.

Lemma acquire_one_other (client : string) (mq mq' : MessageQueue) (gv : group_locks) (t : nat) :
  mq' ≠ mq → (acquire_one client mq' gv t).1.1 !! mq = gv !! mq.
Proof.
  intros Hne. unfold acquire_one, entry_is_locked, is_expired.
  repeat case_match; simplify_eq; cbn; by rewrite ?lookup_insert_ne by done.
Qed.

Lemma acquire_all_other (client : string) (mq : MessageQueue) (mqs : list MessageQueue)
    (gv : group_locks) (t : nat) :
  mq ∉ mqs → (acquire_all client mqs gv t).1.1 !! mq = gv !! mq.
Proof.
  revert gv t. induction mqs as [| q mqs IH]; intros gv t Hn; [done |]. cbn.
  apply not_elem_of_cons in Hn as [Hq Hn].
  pose proof (acquire_one_other client mq q gv t (not_eq_sym Hq)) as H1.
  destruct (acquire_one client q gv t) as [[gv1 t1] ok]. cbn in H1.
  specialize (IH gv1 t1 Hn). destruct (acquire_all client mqs gv1 t1) as [[gv2 t2] g2].
  cbn in *. congruence.
Qed.

Lemma acquire_all_grants (client : string) (mq : MessageQueue) (mqs : list MessageQueue)
    (gv gv' : group_locks) (t t' : nat) (granted : list MessageQueue) :
  NoDup mqs → mq ∈ mqs → takeable client t (gv !! mq) →
  acquire_all client mqs gv t = (gv', t', granted) →
  mq ∈ granted ∧ held client t t' (gv' !! mq).
Proof.
  intros Hnd. revert gv t granted. induction Hnd as [| q mqs Hq Hnd IH];
    intros gv t granted Hin Htk Ha; [by apply not_elem_of_nil in Hin |]. cbn in Ha.
  destruct (acquire_one client q gv t) as [[gv1 t1] ok] eqn:E1.
  destruct (acquire_all client mqs gv1 t1) as [[gv2 t2] g2] eqn:E2. simplify_eq.
  pose proof (acquire_one_tick _ _ _ _ _ _ _ E1) as Ht1.
  pose proof (acquire_all_tick _ _ _ _ _ _ _ E2) as Ht2.
  destruct (decide (q = mq)) as [-> | Hne].
  - destruct (acquire_one_grants client mq gv t Htk) as (gv0 & t0 & E0 & Hh).
    rewrite E1 in E0. injection E0 as <- <- ->.
    pose proof (acquire_all_other client mq mqs gv1 t1 Hq) as Ho. rewrite E2 in Ho. cbn in Ho.
    split; [apply elem_of_cons; by left |]. rewrite Ho. by eapply held_mono.
  - pose proof (acquire_one_other client mq q gv t Hne) as Ho. rewrite E1 in Ho. cbn in Ho.
    destruct (IH gv1 t1 g2) as [Hg (t3 & Ht3 & Hh)];
      [by apply elem_of_cons in Hin as [-> | ?] | | done |].
    + rewrite Ho. by eapply takeable_mono.
    + split; [destruct ok; [by apply elem_of_cons; right | done] |]. exists t3. split; [lia | done].
Qed.

(** Checking renews what it finds locked and changes nothing else. *)
Lemma is_locked_cases (g client : string) (mq : MessageQueue) (s s' : RebalanceLockManager)
    (ok : bool) :
  is_locked g mq client s = (s', ok) →
  (readings s ≤ readings s')%nat ∧
  (∀ mq', mq' ≠ mq ∨ ok = false → lease g mq' s' = lease g mq' s) ∧
  (ok = true → held client (readings s) (readings s') (lease g mq s')).
Proof.
  intros Hl. unfold is_locked, entry_is_locked, is_expired in Hl.
  destruct (mq_lock_table s !! g) as [gv |] eqn:Eg; [| by simplify_eq].
  destruct (gv !! mq) as [e |] eqn:Eq; [| by simplify_eq].
  destruct (decide (client_id e = client)) as [Hc | Hc]; [destruct (negb _) |];
    simplify_eq; cbn [readings]; (split; [lia |]); (split; [| try done]).
  - intros mq' [Hne | ?]; [| done]. rewrite lease_insert, decide_True by done.
    rewrite lookup_insert_ne by done. unfold lease. by rewrite Eg.
  - intros _. rewrite lease_insert, decide_True by done. rewrite lookup_insert_eq.
    exists (S (readings s)). split; [lia | done].
  - done.
  - done.
Qed.

Lemma check_all_spec (g client : string) (mq : MessageQueue) (mqs : list MessageQueue)
    (s s' : RebalanceLockManager) (locked rest : list MessageQueue) :
  NoDup mqs → check_all g client mqs s = (s', locked, rest) →
  (readings s ≤ readings s')%nat ∧ NoDup rest ∧ rest ⊆ mqs ∧
  (mq ∈ mqs →
     (mq ∈ locked ∧ mq ∉ rest ∧ held client (readings s) (readings s') (lease g mq s')) ∨
     (mq ∈ rest ∧ lease g mq s' = lease g mq s)) ∧
  (mq ∉ mqs → lease g mq s' = lease g mq s).
Proof.
  intros Hnd. revert s s' locked rest. induction Hnd as [| q mqs Hq Hnd IH];
    intros s s' locked rest Hc; cbn in Hc.
  { simplify_eq. split_and!; [done | constructor | done | by intros ?%not_elem_of_nil | done]. }
  destruct (is_locked g q client s) as [s1 ok] eqn:E1.
  destruct (check_all g client mqs s1) as [[s2 l2] r2] eqn:E2.
  destruct (is_locked_cases g client q s s1 ok E1) as (Ht1 & Ho1 & Hk1).
  destruct (IH s1 s2 l2 r2 E2) as (Ht2 & Hnd2 & Hsub & Hin2 & Hout2).
  assert (Hs : s2 = s' ∧ locked = (if ok then q :: l2 else l2) ∧
               rest = (if ok then r2 else q :: r2)) by (destruct ok; by simplify_eq).
  destruct Hs as (-> & -> & ->). split; [lia |].
  split; [destruct ok; [done | constructor; [by intros ?%Hsub | done]] |].
  split; [intros y; specialize (Hsub y); destruct ok; mem |]. split.
  - intros [-> | Hin]%elem_of_cons.
    + rewrite Hout2 by done. destruct ok; [left | right].
      * split; [mem |]. split; [by intros ?%Hsub |]. eapply held_mono; [by apply Hk1 | done].
      * split; [mem |]. apply Ho1. by right.
    + assert (Hne : mq ≠ q) by (by intros ->). rewrite <- (Ho1 mq) by (by left).
      destruct (Hin2 Hin) as [(Hl & Hr & t1 & Hh) | [Hr He]]; [left | right].
      * split; [destruct ok; mem |]. split; [destruct ok; mem |].
        exists t1. split; [lia | tauto].
      * split; [destruct ok; mem | done].
  - intros Hn. rewrite not_elem_of_cons in Hn. rewrite Hout2 by tauto. apply Ho1. tauto.
Qed.
End Locks.

(** * Properties *)

(** C17: Queue locks exclude: once a client holds the lease of a queue, then
    however the sections of any clients interleave, as long as the lease has not
    run out and the client has not unlocked the queue itself, it still holds the
    lease and nobody else of its group is told that the queue is theirs. *)
Theorem lease_exclusive (clock : nat → Z) (max_live : Z) (xs : list section)
    (s s' : RebalanceLockManager) (grants : list (string * string * MessageQueue))
    (g c : string) (mq : MessageQueue) (t0 : nat) :
  (∀ i j, (i ≤ j)%nat → clock i ≤ clock j) → (∀ i, 0 ≤ clock i < 2 ^ 63) →
  lease g mq s = Some (mkLock c (clock t0)) → (t0 ≤ readings s)%nat →
  Forall (λ x, ¬ unlocks c g mq x) xs →
  exec_all clock max_live xs s = (s', grants) → clock (readings s') - clock t0 ≤ max_live →
  client_id <$> lease g mq s' = Some c ∧ ∀ c', (g, c', mq) ∈ grants → c' = c.
Proof.
  intros Hm Hr Hl Ht Hu He Hlive.
  destruct (exec_all_held clock max_live Hm Hr c g mq xs s t0) as [(t1 & _ & Hh) Hg].
  - exists t0. split; [lia | done].
  - done.
  - by rewrite He.
  - rewrite He in Hh, Hg. cbn in Hh, Hg. by rewrite Hh.
Qed.

Definition tick_clock (n : nat) : Z := Z.of_nat n `min` 1000000.
Definition one_queue : MessageQueue := mkMQ "t" "b" 0.
Definition one_lock : RebalanceLockManager :=
  (exec tick_clock 60000 (Acquire "g" [one_queue] "a") (mkLocks ∅ 0)).1.

Lemma lease_exclusive_witness :
  let xs := [Acquire "g" [one_queue] "b"; Check "g" one_queue "a"; Unlock "g" [one_queue] "b"] in
  client_id <$> lease "g" one_queue (exec_all tick_clock 60000 xs one_lock).1 = Some "a"%string ∧
  ∀ c', ("g"%string, c', one_queue) ∈ (exec_all tick_clock 60000 xs one_lock).2 → c' = "a"%string.
Proof.
  intros xs. eapply (lease_exclusive tick_clock 60000 xs one_lock _ _ "g" "a" one_queue 2).
  - intros i j Hij. unfold tick_clock. lia.
  - intros i. unfold tick_clock. simpl Z.pow. lia.
  - vm_compute. reflexivity.
  - vm_compute. lia.
  - repeat constructor; cbn; intros H; try done. by destruct H as (_ & ? & _).
  - apply surjective_pairing.
  - vm_compute. discriminate.
Defined.

(** A queue that is free, or the client's own, or whose lease ran out, is
    granted: [try_lock_batch] returns it and the client holds a lease renewed
    during the call. *)
Theorem try_lock_batch_grants (clock : nat → Z) (max_live : Z) (g c : string)
    (mqs : list MessageQueue) (mq : MessageQueue) (s s' : RebalanceLockManager)
    (granted : list MessageQueue) :
  (∀ i j, (i ≤ j)%nat → clock i ≤ clock j) → (∀ i, 0 ≤ clock i < 2 ^ 63) →
  NoDup mqs → mq ∈ mqs → takeable clock max_live c (readings s) (lease g mq s) →
  try_lock_batch clock max_live g mqs c s = (s', granted) →
  mq ∈ granted ∧
  ∃ t, (readings s ≤ t ≤ readings s')%nat ∧ lease g mq s' = Some (mkLock c (clock t)).
Proof.
  intros Hm Hr Hnd Hin Htk Ht. unfold try_lock_batch in Ht.
  destruct (check_all clock max_live g c mqs s) as [[s1 locked] rest] eqn:E1.
  destruct (check_all_spec clock max_live g c mq mqs s s1 locked rest Hnd E1)
    as (Ht1 & Hnd1 & _ & Hcase & _).
  destruct (Hcase Hin) as [(Hl & Hnr & Hh) | [Hr1 Heq]]; destruct rest as [| q rest].
  - simplify_eq. by split.
  - unfold acquire in Ht. set (r := q :: rest) in *.
    pose proof (acquire_all_other clock max_live c mq r
      (default ∅ (mq_lock_table s1 !! g)) (readings s1) Hnr) as Ho.
    destruct (acquire_all _ _ _ r _ _) as [[gv t] gr] eqn:E2. simplify_eq. cbn in Ho.
    rewrite lease_insert, decide_True, Ho, <- lease_group by done. split; [apply elem_of_app; by left |].
    eapply held_mono; [done |]. by eapply acquire_all_tick.
  - by apply not_elem_of_nil in Hr1.
  - unfold acquire in Ht. set (r := q :: rest) in *.
    destruct (acquire_all _ _ _ r _ _) as [[gv t] gr] eqn:E2. simplify_eq.
    assert (Htk1 : takeable clock max_live c (readings s1)
                     (default ∅ (mq_lock_table s1 !! g) !! mq)).
    { rewrite <- lease_group, Heq. by eapply takeable_mono. }
    destruct (acquire_all_grants clock max_live Hm Hr c mq r _ gv _ t gr Hnd1 Hr1 Htk1 E2)
      as [Hg (t1 & Ht2 & Hh)].
    split; [apply elem_of_app; by right |]. rewrite lease_insert, decide_True by done. exists t1.
    split; [cbn; lia | done].
Qed.

Lemma try_lock_batch_grants_witness :
  ∃ s' granted, try_lock_batch tick_clock 60000 "g" [one_queue] "a" (mkLocks ∅ 0) = (s', granted) ∧
    one_queue ∈ granted ∧
    ∃ t, (0 ≤ t ≤ readings s')%nat ∧ lease "g" one_queue s' = Some (mkLock "a" (tick_clock t)).
Proof.
  do 2 eexists. split; [reflexivity |].
  eapply (try_lock_batch_grants tick_clock 60000 "g" "a" [one_queue] one_queue (mkLocks ∅ 0)).
  - intros i j Hij. unfold tick_clock. lia.
  - intros i. unfold tick_clock. simpl Z.pow. lia.
  - apply NoDup_singleton.
  - set_solver.
  - done.
  - reflexivity.
Defined.
