(* ===== verification/BitsArray.v ===== *)
(** * BitsArray: the bit array behind the Bloom filter ([bits_array.rs])

    The bits are stored eight to a byte, lowest first.  An access outside the
    array, or any access to an empty one, panics. *)

From stdpp Require Import base list strings.
From Stdlib Require Import ZArith Lia.
From S2P Require Import Prelude.
Open Scope Z_scope.
Open Scope rmq_scope.

Record BitsArray := mkBits { ba_bytes : list Z; bit_length : Z }.

Definition byte_length (b : BitsArray) : Z := Z.of_nat (length (ba_bytes b)).

Definition create_bits (len : Z) : BitsArray :=
  mkBits (replicate (Z.to_nat ((len + 7) / 8)) 0) len.

Definition from_bytes (bytes : list Z) (len : option Z) : outcome BitsArray :=
  match bytes with
  | [] => Panic
  | _ =>
      let total := as_usize (Z.of_nat (length bytes) * 8) in
      let len := default total len in
      if len <? 1 then Panic
      else if len <? total then Panic
      else Done (mkBits bytes len)
  end.

Definition check_initialized (b : BitsArray) : outcome unit :=
  match ba_bytes b with [] => Panic | _ => Done tt end.
Definition check_byte_position (pos : Z) (b : BitsArray) : outcome unit :=
  let* _ := check_initialized b in
  if byte_length b <=? pos then Panic else Done tt.
Definition check_bit_position (pos : Z) (b : BitsArray) : outcome unit :=
  let* _ := check_initialized b in
  if bit_length b <=? pos then Panic else Done tt.

Definition subscript (bit_pos : Z) : Z := bit_pos / 8.
Definition position (bit_pos : Z) : Z := as_u8 (Z.shiftl 1 (bit_pos mod 8)).

Definition get_byte (pos : Z) (b : BitsArray) : outcome Z :=
  let* _ := check_byte_position pos b in unwrap (ba_bytes b !! Z.to_nat pos).

Definition set_byte (pos : Z) (set : Z) (b : BitsArray) : outcome BitsArray :=
  let* _ := check_byte_position pos b in
  Done (mkBits (<[Z.to_nat pos := set]> (ba_bytes b)) (bit_length b)).

Definition get_bit (pos : Z) (b : BitsArray) : outcome bool :=
  let* _ := check_bit_position pos b in
  let* x := unwrap (ba_bytes b !! Z.to_nat (subscript pos)) in
  Done (negb (Z.land x (position pos) =? 0)).

Definition set_bit (pos : Z) (set : bool) (b : BitsArray) : outcome BitsArray :=
  let* _ := check_bit_position pos b in
  let* x := unwrap (ba_bytes b !! Z.to_nat (subscript pos)) in
  let x := if set then Z.lor x (position pos)
           else Z.land x (as_u8 (Z.lnot (position pos))) in
  Done (mkBits (<[Z.to_nat (subscript pos) := x]> (ba_bytes b)) (bit_length b)).

Definition xor_bit (pos : Z) (set : bool) (b : BitsArray) : outcome BitsArray :=
  let* _ := check_bit_position pos b in
  let* value := get_bit pos b in set_bit pos (xorb value set) b.
Definition or_bit (pos : Z) (set : bool) (b : BitsArray) : outcome BitsArray :=
  let* _ := check_bit_position pos b in
  if set then set_bit pos true b else Done b.
Definition and_bit (pos : Z) (set : bool) (b : BitsArray) : outcome BitsArray :=
  let* _ := check_bit_position pos b in
  if negb set then set_bit pos false b else Done b.
Definition not_bit (pos : Z) (b : BitsArray) : outcome BitsArray :=
  let* _ := check_bit_position pos b in
  let* value := get_bit pos b in set_bit pos (negb value) b.

(** The loop over the bytes both arrays have. *)
Fixpoint zip_bytes (f : Z → Z → Z) (xs ys : list Z) : list Z :=
  match xs, ys with
  | x :: xs', y :: ys' => f x y :: zip_bytes f xs' ys'
  | _, _ => xs
  end.
Definition combine_bits (f : Z → Z → Z) (b other : BitsArray) : outcome BitsArray :=
  let* _ := check_initialized b in
  let* _ := check_initialized other in
  Done (mkBits (zip_bytes f (ba_bytes b) (ba_bytes other)) (bit_length b)).
Definition xor_bits := combine_bits Z.lxor.
Definition or_bits := combine_bits Z.lor.
Definition and_bits := combine_bits Z.land.

(** ** The bits *)

Definition bit_at (b : BitsArray) (i : Z) : bool :=
  Z.testbit (default 0 (ba_bytes b !! Z.to_nat (i / 8))) (i mod 8).

(** Every byte is one, and every bit position has a byte. *)
Record bits_ok (b : BitsArray) : Prop := {
  bo_bytes : Forall (in_u 8) (ba_bytes b);
  bo_cover : 0 < bit_length b ≤ 8 * byte_length b;
}.

(** One call on one array; the calls that read another array take it along. *)
Inductive bits_op :=
| SetBit (pos : Z) (v : bool)
| XorBit (pos : Z) (v : bool)
| OrBit (pos : Z) (v : bool)
| AndBit (pos : Z) (v : bool)
| NotBit (pos : Z)
| XorAll (other : BitsArray)
| OrAll (other : BitsArray)
| AndAll (other : BitsArray).

Definition run_op (o : bits_op) (b : BitsArray) : outcome BitsArray :=
  match o with
  | SetBit p v => set_bit p v b
  | XorBit p v => xor_bit p v b
  | OrBit p v => or_bit p v b
  | AndBit p v => and_bit p v b
  | NotBit p => not_bit p b
  | XorAll c => xor_bits b c
  | OrAll c => or_bits b c
  | AndAll c => and_bits b c
  end.

(** The same call on the abstract bits. *)
Definition point (p : Z) (g : bool → bool) (f : Z → bool) (i : Z) : bool :=
  if decide (i = p) then g (f i) else f i.
Definition pointwise (g : bool → bool → bool) (c : BitsArray) (f : Z → bool) (i : Z) : bool :=
  if i <? 8 * byte_length c then g (f i) (bit_at c i) else f i.
Definition spec_op (o : bits_op) (f : Z → bool) : Z → bool :=
  match o with
  | SetBit p v => point p (λ _, v) f
  | XorBit p v => point p (λ x, xorb x v) f
  | OrBit p v => point p (λ x, x || v) f
  | AndBit p v => point p (λ x, x && v) f
  | NotBit p => point p negb f
  | XorAll c => pointwise xorb c f
  | OrAll c => pointwise orb c f
  | AndAll c => pointwise andb c f
  end.

(** The calls the array accepts. *)
Definition op_in_range (len : Z) (o : bits_op) : Prop :=
  match o with
  | SetBit p _ | XorBit p _ | OrBit p _ | AndBit p _ | NotBit p => 0 ≤ p < len
  | XorAll c | OrAll c | AndAll c => Forall (in_u 8) (ba_bytes c) ∧ ba_bytes c ≠ []
  end.

Fixpoint run_ops (os : list bits_op) (b : BitsArray) : outcome BitsArray :=
  match os with
  | [] => Done b
  | o :: os' => let* b := run_op o b in run_ops os' b
  end.
Definition spec_ops (os : list bits_op) (f : Z → bool) : Z → bool :=
  foldl (λ f o, spec_op o f) f os.

(** ** Lemmas *)

Lemma position_pow (p : Z) : position p = 2 ^ (p mod 8).
Proof.
  unfold position, as_u8, wrap_u. rewrite Z.shiftl_1_l, Z.mod_small; [done |].
  pose proof (Z.mod_pos_bound p 8 ltac:(lia)).
  split; [apply Z.pow_nonneg; lia | apply Z.pow_lt_mono_r; lia].
Qed.

Lemma land_pow_testbit (x k : Z) : 0 ≤ k → negb (Z.land x (2 ^ k) =? 0) = Z.testbit x k.
Proof.
  intros Hk. destruct (Z.testbit x k) eqn:E.
  - apply negb_true_iff, Z.eqb_neq. intros H.
    apply (f_equal (λ z, Z.testbit z k)) in H.
    rewrite Z.land_spec, E, Z.pow2_bits_true, Z.bits_0 in H by done. done.
  - apply negb_false_iff, Z.eqb_eq. apply Z.bits_inj'. intros n Hn.
    rewrite Z.land_spec, Z.bits_0, Z.pow2_bits_eqb by done.
    destruct (Z.eqb_spec k n) as [<- |]; [by rewrite E | by rewrite andb_false_r].
Qed.

Definition set_in_byte (x k : Z) (v : bool) : Z :=
  if v then Z.lor x (2 ^ k) else Z.land x (as_u8 (Z.lnot (2 ^ k))).

Lemma set_in_byte_bits (x k n : Z) (v : bool) :
  0 ≤ k < 8 → 0 ≤ n < 8 →
  Z.testbit (set_in_byte x k v) n = if decide (n = k) then v else Z.testbit x n.
Proof.
  intros Hk Hn. unfold set_in_byte, as_u8, wrap_u. destruct v.
  - rewrite Z.lor_spec, Z.pow2_bits_eqb by lia.
    destruct (decide (n = k)) as [-> |]; [by rewrite Z.eqb_refl, orb_true_r |].
    by rewrite (proj2 (Z.eqb_neq _ _)), orb_false_r by lia.
  - rewrite Z.land_spec, Z.mod_pow2_bits_low, Z.lnot_spec, Z.pow2_bits_eqb by lia.
    destruct (decide (n = k)) as [-> |]; [by rewrite Z.eqb_refl, andb_false_r |].
    by rewrite (proj2 (Z.eqb_neq _ _)), andb_true_r by lia.
Qed.

(** A number is a byte when it has no bit from the eighth on. *)
Lemma in_u8_bits (x : Z) : 0 ≤ x → (∀ n, 8 ≤ n → Z.testbit x n = false) → in_u 8 x.
Proof.
  intros Hx Hb. split; [done |]. destruct (Z.eq_dec x 0) as [-> | Hne]; [done |].
  apply Z.log2_lt_pow2; [lia |]. destruct (Z.ltb_spec (Z.log2 x) 8) as [| Hge]; [done |].
  specialize (Hb _ Hge). rewrite Z.bit_log2 in Hb by lia. done.
Qed.

Lemma u8_high (x n : Z) : in_u 8 x → 8 ≤ n → Z.testbit x n = false.
Proof.
  intros [H0 H1] Hn. destruct (Z.eq_dec x 0) as [-> | Hne]; [apply Z.bits_0 |].
  apply Z.bits_above_log2; [done |]. apply Z.lt_le_trans with 8; [| done].
  apply Z.log2_lt_pow2; [lia | done].
Qed.

Lemma set_in_byte_range (x k : Z) (v : bool) : in_u 8 x → 0 ≤ k < 8 → in_u 8 (set_in_byte x k v).
Proof.
  intros Hx Hk. apply in_u8_bits.
  - destruct Hx. unfold set_in_byte. destruct v.
    + apply Z.lor_nonneg. split; [done | apply Z.pow_nonneg; lia].
    + apply Z.land_nonneg. by left.
  - intros n Hn. unfold set_in_byte. destruct v.
    + rewrite Z.lor_spec, (u8_high x n Hx Hn), Z.pow2_bits_eqb by lia.
      by rewrite (proj2 (Z.eqb_neq _ _)) by lia.
    + by rewrite Z.land_spec, (u8_high x n Hx Hn).
Qed.

Lemma bits_byte (b : BitsArray) (i : Z) :
  bits_ok b → 0 ≤ i < bit_length b →
  ∃ x, ba_bytes b !! Z.to_nat (i / 8) = Some x ∧ in_u 8 x ∧ bit_at b i = Z.testbit x (i mod 8).
Proof.
  intros [Hb [H0 Hc]] Hi. unfold byte_length in Hc.
  destruct (lookup_lt_is_Some_2 (ba_bytes b) (Z.to_nat (i / 8))) as [x Hx].
  { assert (i / 8 < Z.of_nat (length (ba_bytes b))) by (apply Z.div_lt_upper_bound; lia).
    assert (0 ≤ i / 8) by (apply Z.div_pos; lia). lia. }
  exists x. unfold bit_at. rewrite Hx. split; [done |]. split; [| done].
  rewrite Forall_lookup in Hb. by eapply Hb.
Qed.

Lemma bits_checks (b : BitsArray) (i : Z) :
  bits_ok b → check_bit_position i b = if bit_length b <=? i then Panic else Done tt.
Proof.
  intros [_ [H0 Hc]]. unfold check_bit_position, check_initialized, byte_length in *.
  by destruct (ba_bytes b); [simpl in Hc; lia |].
Qed.

Lemma get_bit_ok (b : BitsArray) (i : Z) :
  bits_ok b → 0 ≤ i < bit_length b → get_bit i b = Done (bit_at b i).
Proof.
  intros Hok Hi. unfold get_bit. rewrite bits_checks, (proj2 (Z.leb_gt _ _)) by (done || lia).
  destruct (bits_byte b i Hok Hi) as (x & Hx & _ & Hb). unfold subscript. cbn [obind].
  rewrite Hx, Hb, position_pow. cbn [unwrap obind].
  rewrite land_pow_testbit; [done |]. apply Z.mod_pos_bound. lia.
Qed.

(** Two bit positions share a byte and a place in it only when equal. *)
Lemma same_bit (i j : Z) :
  0 ≤ i → 0 ≤ j → Z.to_nat (i / 8) = Z.to_nat (j / 8) → i mod 8 = j mod 8 → i = j.
Proof.
  intros Hi Hj Hd Hm. pose proof (Z.div_mod i 8). pose proof (Z.div_mod j 8).
  pose proof (Z.div_pos i 8). pose proof (Z.div_pos j 8). lia.
Qed.

Lemma set_bit_ok (b : BitsArray) (p : Z) (v : bool) :
  bits_ok b → 0 ≤ p < bit_length b →
  ∃ b', set_bit p v b = Done b' ∧ bits_ok b' ∧ bit_length b' = bit_length b ∧
    ∀ i, 0 ≤ i < bit_length b → bit_at b' i = point p (λ _, v) (bit_at b) i.
Proof.
  intros Hok Hp. unfold set_bit. rewrite bits_checks, (proj2 (Z.leb_gt _ _)) by (done || lia).
  destruct (bits_byte b p Hok Hp) as (x & Hx & Hr & Hb). unfold subscript. cbn [obind].
  rewrite Hx, position_pow. cbn [unwrap obind].
  change (if v then _ else _) with (set_in_byte x (p mod 8) v).
  pose proof (Z.mod_pos_bound p 8 ltac:(lia)) as Hm. eexists. split; [done |]. split_and!.
  - destruct Hok as [Hf Hc]. constructor; cbn; [| unfold byte_length in *; cbn; by rewrite length_insert].
    apply Forall_insert; [done | by apply set_in_byte_range].
  - done.
  - intros i Hi. unfold bit_at at 1, point. cbn [ba_bytes].
    pose proof (Z.mod_pos_bound i 8 ltac:(lia)) as Hmi.
    destruct (decide (Z.to_nat (p / 8) = Z.to_nat (i / 8))) as [He | Hne].
    + rewrite He in Hx |- *. rewrite list_lookup_insert_eq by (by eapply lookup_lt_Some). cbn.
      rewrite set_in_byte_bits by done. unfold bit_at. rewrite Hx. cbn.
      destruct (decide (i mod 8 = p mod 8)) as [Hmm | Hmm], (decide (i = p)) as [Hip | Hip];
        try done; [| by subst]. destruct Hip. apply same_bit; [lia | lia | done | done].
    + rewrite list_lookup_insert_ne by done. rewrite decide_False by (by intros ->). done.
Qed.

Lemma zip_bytes_lookup (f : Z → Z → Z) (xs ys : list Z) (i : nat) :
  zip_bytes f xs ys !! i =
  match xs !! i, ys !! i with Some x, Some y => Some (f x y) | ox, _ => ox end.
Proof.
  revert ys i. induction xs as [| x xs IH]; intros ys i; [done |].
  destruct ys as [| y ys]; cbn [zip_bytes].
  - rewrite lookup_nil. by destruct ((x :: xs) !! i).
  - destruct i as [| i]; [done |]. exact (IH ys i).
Qed.

Lemma zip_bytes_length (f : Z → Z → Z) (xs ys : list Z) :
  length (zip_bytes f xs ys) = length xs.
Proof.
  revert ys. induction xs as [| x xs IH]; intros ys; [done |].
  destruct ys; cbn; [done | by rewrite IH].
Qed.

Lemma combine_ok (f : Z → Z → Z) (g : bool → bool → bool) (b c : BitsArray) :
  (∀ x y, in_u 8 x → in_u 8 y → in_u 8 (f x y)) →
  (∀ x y n, 0 ≤ n → Z.testbit (f x y) n = g (Z.testbit x n) (Z.testbit y n)) →
  bits_ok b → Forall (in_u 8) (ba_bytes c) → ba_bytes c ≠ [] →
  ∃ b', combine_bits f b c = Done b' ∧ bits_ok b' ∧ bit_length b' = bit_length b ∧
    ∀ i, 0 ≤ i < bit_length b → bit_at b' i = pointwise g c (bit_at b) i.
Proof.
  intros Hf Hg Hok Hc Hne.
  exists (mkBits (zip_bytes f (ba_bytes b) (ba_bytes c)) (bit_length b)). split.
  { unfold combine_bits, check_initialized. pose proof (bo_cover b Hok) as [H0 H1].
    unfold byte_length in H1. destruct (ba_bytes b) eqn:E; [simpl in H1; lia |].
    destruct (ba_bytes c); [done |]. cbn [obind]. done. }
  split_and!.
  - destruct Hok as [Hb Hcov]. constructor; cbn.
    + apply Forall_lookup. intros i x Hx. rewrite zip_bytes_lookup in Hx.
      rewrite Forall_lookup in Hb, Hc. destruct (ba_bytes b !! i) as [x0 |] eqn:Eb; [| done].
      destruct (ba_bytes c !! i) as [y |] eqn:Ec; simplify_eq; eauto.
    + unfold byte_length in *. cbn. by rewrite zip_bytes_length.
  - done.
  - intros i Hi. destruct (bits_byte b i Hok Hi) as (x & Hx & _ & Hb).
    unfold pointwise. rewrite Hb. unfold bit_at, byte_length. cbn [ba_bytes].
    rewrite zip_bytes_lookup, Hx. pose proof (Z.mod_pos_bound i 8 ltac:(lia)).
    pose proof (Z.div_mod i 8 ltac:(lia)). pose proof (Z.div_pos i 8).
    destruct (ba_bytes c !! Z.to_nat (i / 8)) as [y |] eqn:Ec; cbn.
    + apply lookup_lt_Some in Ec. rewrite (proj2 (Z.ltb_lt _ _)) by lia. apply Hg. lia.
    + apply lookup_ge_None in Ec. by rewrite (proj2 (Z.ltb_ge _ _)) by lia.
Qed.

Lemma bitwise_u8 (f : Z → Z → Z) (g : bool → bool → bool) :
  g false false = false → (∀ x y, 0 ≤ x → 0 ≤ y → 0 ≤ f x y) →
  (∀ x y n, 0 ≤ n → Z.testbit (f x y) n = g (Z.testbit x n) (Z.testbit y n)) →
  ∀ x y, in_u 8 x → in_u 8 y → in_u 8 (f x y).
Proof.
  intros Hff Hpos Hg x y Hx Hy. apply in_u8_bits.
  - destruct Hx, Hy. by apply Hpos.
  - intros n Hn. by rewrite Hg, (u8_high x n), (u8_high y n) by (done || lia).
Qed.

(** A call at one position is a read followed by a write there. *)
Lemma update_bit_ok (b : BitsArray) (p : Z) (g : bool → bool) :
  bits_ok b → 0 ≤ p < bit_length b →
  ∃ b', set_bit p (g (bit_at b p)) b = Done b' ∧ bits_ok b' ∧ bit_length b' = bit_length b ∧
    ∀ i, 0 ≤ i < bit_length b → bit_at b' i = point p g (bit_at b) i.
Proof.
  intros Hok Hp. destruct (set_bit_ok b p (g (bit_at b p)) Hok Hp) as (b' & E & Hok' & Hl & Hb).
  exists b'. split_and!; try done. intros i Hi. rewrite Hb by done. unfold point.
  by destruct (decide (i = p)) as [-> |].
Qed.

Lemma same_bits (b : BitsArray) (p : Z) (g : bool → bool) :
  bits_ok b → (∀ x, g x = x) →
  ∃ b', Done b = Done b' ∧ bits_ok b' ∧ bit_length b' = bit_length b ∧
    ∀ i, 0 ≤ i < bit_length b → bit_at b' i = point p g (bit_at b) i.
Proof.
  intros Hok Hg. exists b. split_and!; try done. intros i _. unfold point.
  destruct (decide (i = p)); [by rewrite Hg | done].
Qed.

Lemma run_op_ok (o : bits_op) (b : BitsArray) :
  bits_ok b → op_in_range (bit_length b) o →
  ∃ b', run_op o b = Done b' ∧ bits_ok b' ∧ bit_length b' = bit_length b ∧
    ∀ i, 0 ≤ i < bit_length b → bit_at b' i = spec_op o (bit_at b) i.
Proof.
  intros Hok Hr.
  assert (Hchk : ∀ p, 0 ≤ p < bit_length b → check_bit_position p b = Done tt).
  { intros p Hp. by rewrite bits_checks, (proj2 (Z.leb_gt _ _)) by (done || lia). }
  destruct o as [p v | p v | p v | p v | p | c | c | c]; cbn [run_op spec_op op_in_range] in *.
  - by apply set_bit_ok.
  - unfold xor_bit. rewrite Hchk, get_bit_ok by done. cbn [obind].
    by apply (update_bit_ok b p (λ x, xorb x v)).
  - unfold or_bit. rewrite Hchk by done. cbn [obind]. destruct v.
    + destruct (update_bit_ok b p (λ x, x || true) Hok Hr) as (b' & E & H).
      exists b'. split; [by rewrite orb_true_r in E | done].
    + apply same_bits; [done |]. apply orb_false_r.
  - unfold and_bit. rewrite Hchk by done. cbn [obind]. destruct v; cbn [negb].
    + apply same_bits; [done |]. apply andb_true_r.
    + destruct (update_bit_ok b p (λ x, x && false) Hok Hr) as (b' & E & H).
      exists b'. split; [by rewrite andb_false_r in E | done].
  - unfold not_bit. rewrite Hchk, get_bit_ok by done. cbn [obind].
    by apply (update_bit_ok b p negb).
  - destruct Hr. apply combine_ok; try done; [| intros; apply Z.lxor_spec].
    apply (bitwise_u8 _ xorb); [done | | intros; apply Z.lxor_spec].
    intros x y ? ?. apply Z.lxor_nonneg. tauto.
  - destruct Hr. apply combine_ok; try done; [| intros; apply Z.lor_spec].
    apply (bitwise_u8 _ orb); [done | | intros; apply Z.lor_spec].
    intros x y ? ?. apply Z.lor_nonneg. tauto.
  - destruct Hr. apply combine_ok; try done; [| intros; apply Z.land_spec].
    apply (bitwise_u8 _ andb); [done | | intros; apply Z.land_spec].
    intros x y ? ?. apply Z.land_nonneg. tauto.
Qed.

(** The abstract calls only look at the bits in range. *)
Lemma spec_op_ext (o : bits_op) (f g : Z → bool) (i : Z) :
  f i = g i → spec_op o f i = spec_op o g i.
Proof. intros H. destruct o; cbn; unfold point, pointwise; by rewrite H. Qed.

Lemma spec_ops_ext (os : list bits_op) (f g : Z → bool) (i : Z) :
  f i = g i → spec_ops os f i = spec_ops os g i.
Proof.
  revert f g. unfold spec_ops. induction os as [| o os IH]; intros f g H; [done |]. cbn.
  apply IH. by apply spec_op_ext.
Qed.

(** * Properties *)

(** The array implements a vector of bits: any sequence of calls with
    positions in range succeeds, keeps the array well-formed, and reading any
    position afterwards gives the bit that the same calls leave on abstract bits
    ([xor], [or] and [and] with another array touch the bytes both have). *)
Theorem bits_array_refines (os : list bits_op) (b : BitsArray) :
  bits_ok b → Forall (op_in_range (bit_length b)) os →
  ∃ b', run_ops os b = Done b' ∧ bits_ok b' ∧ bit_length b' = bit_length b ∧
    ∀ i, 0 ≤ i < bit_length b → get_bit i b' = Done (spec_ops os (bit_at b) i).
Proof.
  intros Hok Hos. remember (bit_length b) as len eqn:Hlen. revert b Hok Hlen.
  induction Hos as [| o os Ho Hos IH]; intros b Hok ->; cbn [run_ops].
  - exists b. split_and!; try done. intros i Hi. by apply get_bit_ok.
  - destruct (run_op_ok o b Hok Ho) as (b1 & -> & Hok1 & Hl1 & Hb1). cbn [obind].
    destruct (IH b1 Hok1 (eq_sym Hl1)) as (b2 & -> & Hok2 & Hl2 & Hb2).
    exists b2. split_and!; try done. intros i Hi. rewrite Hb2 by done.
    f_equal. unfold spec_ops at 2. cbn [foldl]. apply spec_ops_ext. by apply Hb1.
Qed.

Lemma create_bits_ok (len : Z) : 0 < len → bits_ok (create_bits len).
Proof.
  intros Hl. constructor; cbn.
  - by apply Forall_replicate.
  - unfold byte_length. cbn. rewrite length_replicate.
    pose proof (Z.div_mod (len + 7) 8 ltac:(lia)). pose proof (Z.mod_pos_bound (len + 7) 8).
    lia.
Qed.

Lemma bits_array_refines_witness :
  let os := [SetBit 9 true; NotBit 3; OrAll (mkBits [128] 8); XorBit 9 true] in
  ∃ b', run_ops os (create_bits 12) = Done b' ∧ bits_ok b' ∧ bit_length b' = 12 ∧
    ∀ i, 0 ≤ i < 12 → get_bit i b' = Done (spec_ops os (bit_at (create_bits 12)) i).
Proof.
  apply (bits_array_refines _ (create_bits 12)); [by apply create_bits_ok |].
  repeat constructor; cbn; lia || done.
Defined.

(** Out of range is a panic, never another bit: on an array whose bits all
    have a byte, reading or writing panics exactly at the positions from
    [bit_length] on. *)
Theorem bits_out_of_range (b : BitsArray) (p : Z) (v : bool) :
  bits_ok b → 0 ≤ p →
  (get_bit p b = Panic ↔ bit_length b ≤ p) ∧ (set_bit p v b = Panic ↔ bit_length b ≤ p).
Proof.
  intros Hok Hp. destruct (Z.le_gt_cases (bit_length b) p) as [Hge | Hlt].
  - unfold get_bit, set_bit. rewrite bits_checks, (proj2 (Z.leb_le _ _)) by done. done.
  - rewrite get_bit_ok by done. destruct (set_bit_ok b p v Hok ltac:(lia)) as (b' & -> & _).
    split; split; intros H; (discriminate || lia).
Qed.

Lemma bits_out_of_range_witness :
  (get_bit 12 (create_bits 12) = Panic ↔ 12 ≤ 12) ∧
  (set_bit 12 true (create_bits 12) = Panic ↔ 12 ≤ 12).
Proof. apply (bits_out_of_range (create_bits 12) 12 true); [by apply create_bits_ok | lia]. Defined.
