(* ===== verification/OrderedMap.v ===== *)
(** * OrderedMap: the [BTreeMap]s of the client and the store

    A [BTreeMap] keyed by integers is a finite map; its order shows only in its
    first and last keys. *)

From stdpp Require Import base gmap list sorting.
From Stdlib Require Import ZArith Lia.
From S2P Require Import Prelude.
Open Scope Z_scope.

Section OrderedMap.
Context {A : Type}.
Implicit Types m : gmap Z A.

(** [first_key_value] and [last_key_value], the keys. *)
Definition first_key m : option Z :=
  match (map_to_list m).*1 with [] => None | k :: ks => Some (foldr Z.min k ks) end.
Definition last_key m : option Z :=
  match (map_to_list m).*1 with [] => None | k :: ks => Some (foldr Z.max k ks) end.

(** [pop_first] *)
Definition pop_first m : option (A * gmap Z A) :=
  match first_key m with
  | Some k => match m !! k with Some v => Some (v, delete k m) | None => None end
  | None => None
  end.

Lemma fold_min_spec (k : Z) (ks : list Z) :
  foldr Z.min k ks ∈ k :: ks ∧ ∀ x, x ∈ k :: ks → foldr Z.min k ks ≤ x.
Proof.
  induction ks as [| y ks [IH1 IH2]]; cbn [foldr].
  - split; [by left |]. intros x ->%list_elem_of_singleton. done.
  - split.
    + destruct (Z.min_spec y (foldr Z.min k ks)) as [[_ ->] | [_ ->]];
        [right; left | rewrite elem_of_cons in IH1 |- *; rewrite elem_of_cons; tauto].
    + intros x [-> | [-> | Hx]%elem_of_cons]%elem_of_cons; [| lia |].
      * pose proof (IH2 k ltac:(by left)). lia.
      * pose proof (IH2 x ltac:(by right)). lia.
Qed.

Lemma fold_max_spec (k : Z) (ks : list Z) :
  foldr Z.max k ks ∈ k :: ks ∧ ∀ x, x ∈ k :: ks → x ≤ foldr Z.max k ks.
Proof.
  induction ks as [| y ks [IH1 IH2]]; cbn [foldr].
  - split; [by left |]. intros x ->%list_elem_of_singleton. done.
  - split.
    + destruct (Z.max_spec y (foldr Z.max k ks)) as [[_ ->] | [_ ->]];
        [rewrite elem_of_cons in IH1 |- *; rewrite elem_of_cons; tauto | right; left].
    + intros x [-> | [-> | Hx]%elem_of_cons]%elem_of_cons; [| lia |].
      * pose proof (IH2 k ltac:(by left)). lia.
      * pose proof (IH2 x ltac:(by right)). lia.
Qed.

Lemma keys_spec m (k : Z) : k ∈ (map_to_list m).*1 ↔ is_Some (m !! k).
Proof.
  rewrite list_elem_of_fmap. split.
  - intros ([k' v] & -> & Hin%elem_of_map_to_list). by exists v.
  - intros [v Hv]. exists (k, v). by rewrite elem_of_map_to_list.
Qed.

Lemma no_keys m : (map_to_list m).*1 = [] ↔ m = ∅.
Proof.
  split; [| by intros ->; rewrite map_to_list_empty].
  intros H. apply map_to_list_empty_iff. by destruct (map_to_list m).
Qed.

(** The first key is the least key of the map. *)
Lemma first_key_spec m (k : Z) :
  first_key m = Some k ↔ is_Some (m !! k) ∧ ∀ k', is_Some (m !! k') → k ≤ k'.
Proof.
  unfold first_key. pose proof (keys_spec m) as Hk.
  destruct ((map_to_list m).*1) as [| k0 ks].
  - split; [done |]. intros [H%Hk _]. by apply not_elem_of_nil in H.
  - destruct (fold_min_spec k0 ks) as [H1 H2]. split.
    + intros [= <-]. split; [by apply Hk | intros k' H; by apply H2, Hk].
    + intros [Hs Hle]. f_equal. apply Z.le_antisymm; [by apply H2, Hk | by apply Hle, Hk].
Qed.

Lemma last_key_spec m (k : Z) :
  last_key m = Some k ↔ is_Some (m !! k) ∧ ∀ k', is_Some (m !! k') → k' ≤ k.
Proof.
  unfold last_key. pose proof (keys_spec m) as Hk.
  destruct ((map_to_list m).*1) as [| k0 ks].
  - split; [done |]. intros [H%Hk _]. by apply not_elem_of_nil in H.
  - destruct (fold_max_spec k0 ks) as [H1 H2]. split.
    + intros [= <-]. split; [by apply Hk | intros k' H; by apply H2, Hk].
    + intros [Hs Hle]. f_equal. apply Z.le_antisymm; [by apply Hle, Hk | by apply H2, Hk].
Qed.

Lemma first_key_none m : first_key m = None ↔ m = ∅.
Proof. unfold first_key. rewrite <- no_keys. by destruct ((map_to_list m).*1). Qed.

Lemma last_key_none m : last_key m = None ↔ m = ∅.
Proof. unfold last_key. rewrite <- no_keys. by destruct ((map_to_list m).*1). Qed.
End OrderedMap.
