(* ===== verification/ProcessQueue.v ===== *)
(** * ProcessQueue: the messages a consumer has pulled and not finished
    ([process_queue.rs])

    The pulled messages of one queue wait in a map ordered by queue offset;
    counters next to it drive flow control, and removing a consumed message
    yields the offset the consumer may commit.  The maps are behind locks, so
    each method is one step; the counters are 64-bit and wrap. *)

From stdpp Require Import base gmap list strings.
From Stdlib Require Import ZArith Lia.
From S2P Require Import Prelude Bytes Message FileName OrderedMap.
Open Scope Z_scope.
Open Scope rmq_scope.

Record ProcessQueue := mkPQ {
  msg_tree_map : gmap Z MessageExt;
  msg_count : Z;
  msg_size : Z;
  consuming_msg_orderly_tree_map : gmap Z MessageExt;
  try_unlock_times : Z;
  queue_offset_max : Z;
  dropped : bool;
  last_pull_timestamp : Z;
  last_consume_timestamp : Z;
  locked : bool;
  last_lock_timestamp : Z;
  consuming : bool;
  msg_acc_cnt : Z;
}.

Definition new_process_queue (pull consume lock : Z) : ProcessQueue :=
  mkPQ ∅ 0 0 ∅ 0 0 false pull consume false lock false 0.

(** ** Stores to single fields *)

Definition with_maps (tree orderly : gmap Z MessageExt) (count sz : Z) (q : ProcessQueue) :=
  mkPQ tree count sz orderly (try_unlock_times q) (queue_offset_max q) (dropped q)
    (last_pull_timestamp q) (last_consume_timestamp q) (locked q) (last_lock_timestamp q)
    (consuming q) (msg_acc_cnt q).
Definition with_offset_max (o : Z) (q : ProcessQueue) :=
  mkPQ (msg_tree_map q) (msg_count q) (msg_size q) (consuming_msg_orderly_tree_map q)
    (try_unlock_times q) o (dropped q) (last_pull_timestamp q) (last_consume_timestamp q)
    (locked q) (last_lock_timestamp q) (consuming q) (msg_acc_cnt q).
Definition with_dispatch (c : bool) (acc : Z) (q : ProcessQueue) :=
  mkPQ (msg_tree_map q) (msg_count q) (msg_size q) (consuming_msg_orderly_tree_map q)
    (try_unlock_times q) (queue_offset_max q) (dropped q) (last_pull_timestamp q)
    (last_consume_timestamp q) (locked q) (last_lock_timestamp q) c acc.
Definition with_flags (unlocks : Z) (d : bool) (pull : Z) (l : bool) (lock : Z)
    (q : ProcessQueue) :=
  mkPQ (msg_tree_map q) (msg_count q) (msg_size q) (consuming_msg_orderly_tree_map q)
    unlocks (queue_offset_max q) d pull (last_consume_timestamp q) l lock (consuming q)
    (msg_acc_cnt q).

Definition set_dropped (d : bool) (q : ProcessQueue) :=
  with_flags (try_unlock_times q) d (last_pull_timestamp q) (locked q) (last_lock_timestamp q) q.
Definition set_locked (l : bool) (q : ProcessQueue) :=
  with_flags (try_unlock_times q) (dropped q) (last_pull_timestamp q) l (last_lock_timestamp q) q.
Definition inc_try_unlock_times (q : ProcessQueue) :=
  with_flags (as_i64 (try_unlock_times q + 1)) (dropped q) (last_pull_timestamp q) (locked q)
    (last_lock_timestamp q) q.
Definition set_last_pull_timestamp (t : Z) (q : ProcessQueue) :=
  with_flags (try_unlock_times q) (dropped q) t (locked q) (last_lock_timestamp q) q.
Definition set_last_lock_timestamp (t : Z) (q : ProcessQueue) :=
  with_flags (try_unlock_times q) (dropped q) (last_pull_timestamp q) (locked q) t q.

(** The subtraction is unsigned. *)
Definition is_pull_expired (max_idle now : Z) (q : ProcessQueue) : bool :=
  max_idle <? as_u64 (now - last_pull_timestamp q).
Definition is_lock_expired (max_live now : Z) (q : ProcessQueue) : bool :=
  max_live <? as_u64 (now - last_lock_timestamp q).

(** ** Messages *)

(** [message.body().as_ref().unwrap().len()] *)
Definition body_len (m : MessageExt) : outcome Z :=
  let* b := unwrap (body (message m)) in Done (Z.of_nat (length b)).

Definition PROPERTY_MAX_OFFSET : string := "MAX_OFFSET".

(** How far the queue runs beyond the last pulled message. *)
Definition acc_total (messages : list MessageExt) : outcome Z :=
  match last messages with
  | None => Done 0
  | Some m =>
      match properties (message m) !! PROPERTY_MAX_OFFSET with
      | None => Done 0
      | Some p => let* v := unwrap (parse_i64 p) in Done (as_i64 (v - queue_offset m))
      end
  end.

(** The loop over the pulled messages; also counts the new ones. *)
Fixpoint put_loop (messages : list MessageExt) (q : ProcessQueue) (valid_msg_cnt : Z)
  : outcome (ProcessQueue * Z) :=
  match messages with
  | [] => Done (q, valid_msg_cnt)
  | m :: rest =>
      let tree := msg_tree_map q in
      let tree' := <[queue_offset m := m]> tree in
      match tree !! queue_offset m with
      | Some _ =>
          put_loop rest
            (with_maps tree' (consuming_msg_orderly_tree_map q) (msg_count q) (msg_size q) q)
            valid_msg_cnt
      | None =>
          let* n := body_len m in
          put_loop rest
            (with_offset_max (as_u64 (queue_offset m))
               (with_maps tree' (consuming_msg_orderly_tree_map q) (msg_count q)
                  (as_u64 (msg_size q + n)) q))
            (as_u64 (valid_msg_cnt + 1))
      end
  end.

Definition put_message (messages : list MessageExt) (q : ProcessQueue)
  : outcome (ProcessQueue * bool) :=
  let* acc := acc_total messages in
  let* (q, n) := put_loop messages q 0 in
  let q := with_maps (msg_tree_map q) (consuming_msg_orderly_tree_map q)
             (as_u64 (msg_count q + n)) (msg_size q) q in
  let dispatch_to_consume :=
    negb (bool_decide (msg_tree_map q = ∅)) && negb (consuming q) in
  Done (with_dispatch (consuming q || dispatch_to_consume)
          (if 0 <? acc then acc else msg_acc_cnt q) q, dispatch_to_consume).

Definition get_max_span (q : ProcessQueue) : Z :=
  match first_key (msg_tree_map q), last_key (msg_tree_map q) with
  | Some a, Some b => as_u64 (as_i64 (b - a))
  | _, _ => 0
  end.

(** The loop over the consumed messages.  The count of all messages removed so
    far is subtracted in every iteration. *)
Fixpoint remove_loop (messages : list MessageExt) (q : ProcessQueue) (removed_cnt result : Z)
  : outcome (ProcessQueue * Z) :=
  match messages with
  | [] => Done (q, result)
  | m :: rest =>
      let tree := msg_tree_map q in
      let* (removed_cnt, sz) :=
        match tree !! queue_offset m with
        | Some _ => let* n := body_len m in Done (as_u64 (removed_cnt + 1), as_u64 (msg_size q - n))
        | None => Done (removed_cnt, msg_size q)
        end in
      let tree := delete (queue_offset m) tree in
      let count := as_u64 (msg_count q - removed_cnt) in
      let sz := if count =? 0 then 0 else sz in
      remove_loop rest (with_maps tree (consuming_msg_orderly_tree_map q) count sz q) removed_cnt
        (default result (first_key tree))
  end.

Definition remove_message (messages : list MessageExt) (q : ProcessQueue)
  : outcome (ProcessQueue * Z) :=
  if bool_decide (msg_tree_map q = ∅) then Done (q, -1)
  else remove_loop messages q 0 (as_i64 (as_i64 (queue_offset_max q) + 1)).

Definition rollback (q : ProcessQueue) : ProcessQueue :=
  with_maps (consuming_msg_orderly_tree_map q ∪ msg_tree_map q) ∅ (msg_count q) (msg_size q) q.

Fixpoint sub_sizes (messages : list MessageExt) (sz : Z) : outcome Z :=
  match messages with
  | [] => Done sz
  | m :: rest => let* n := body_len m in sub_sizes rest (as_u64 (sz - n))
  end.

Definition commit (q : ProcessQueue) : outcome (ProcessQueue * Z) :=
  let c := consuming_msg_orderly_tree_map q in
  let offset := match last_key c with Some k => as_i64 (k + 1) | None => -1 end in
  let count := as_u64 (msg_count q - Z.of_nat (size c)) in
  let* sz := if count =? 0 then Done 0 else sub_sizes (map_to_list c).*2 (msg_size q) in
  Done (with_maps (msg_tree_map q) ∅ count sz q, offset).

Definition make_message_to_consume_again (messages : list MessageExt) (q : ProcessQueue)
  : ProcessQueue :=
  foldl (λ q m,
    with_maps (<[queue_offset m := m]> (msg_tree_map q))
      (delete (queue_offset m) (consuming_msg_orderly_tree_map q)) (msg_count q) (msg_size q) q)
    q messages.

(** The taken messages leave the map; nothing records that they are being
    consumed. *)
Fixpoint take_loop (n : nat) (tree : gmap Z MessageExt) : gmap Z MessageExt * list MessageExt :=
  match n with
  | O => (tree, [])
  | S n' =>
      match pop_first tree with
      | Some (m, tree') => let '(t, ms) := take_loop n' tree' in (t, m :: ms)
      | None => (tree, [])
      end
  end.
Definition take_messages (batch_size : nat) (q : ProcessQueue)
  : ProcessQueue * list MessageExt :=
  let '(tree, ms) := take_loop batch_size (msg_tree_map q) in
  (with_maps tree (consuming_msg_orderly_tree_map q) (msg_count q) (msg_size q) q, ms).

Definition contains_message (m : MessageExt) (q : ProcessQueue) : bool :=
  bool_decide (is_Some (msg_tree_map q !! queue_offset m)).

Definition clear (q : ProcessQueue) : ProcessQueue := with_offset_max 0 (with_maps ∅ ∅ 0 0 q).

(** [clean_expired_msg] for a consumer that does not consume in order: up to 16
    times, the first message is sent back and removed when its consumption
    started too long ago.  [clock] gives the readings, [with_namespace] the
    topic it is sent back under; also returns what was sent back. *)
Section Expired.
Variable clock : nat → Z.
Variable consume_timeout : Z.
Variable with_namespace : string → string.

Definition PROPERTY_CONSUME_START_TIMESTAMP : string := "CONSUME_START_TIME".

Definition with_topic (t : string) (m : MessageExt) : MessageExt :=
  mkMessageExt
    (mkMessage t (flag (message m)) (properties (message m)) (body (message m))
       (compressed_body (message m)) (transaction_id (message m)))
    (broker_name m) (queue_id m) (store_size m) (queue_offset m) (sys_flag m)
    (born_timestamp m) (born_host m) (store_timestamp m) (store_host m) (msg_id m)
    (commit_log_offset m) (body_crc m) (reconsume_times m) (prepared_transaction_offset m).

(** The first message, if it is overdue. *)
Definition overdue (t : nat) (tree : gmap Z MessageExt) : outcome (option MessageExt) :=
  match first_key tree ≫= (tree !!.) with
  | None => Done None
  | Some m =>
      match properties (message m) !! PROPERTY_CONSUME_START_TIMESTAMP with
      | None => Done None
      | Some p =>
          let* start := unwrap (parse_u64 p) in
          Done (if as_u64 (consume_timeout * 1000 * 60) <? as_u64 (clock t - start)
                then Some m else None)
      end
  end.

Fixpoint clean_loop (n t : nat) (q : ProcessQueue) : outcome (ProcessQueue * list MessageExt) :=
  match n with
  | O => Done (q, [])
  | S n' =>
      let* om := overdue t (msg_tree_map q) in
      match om with
      | None => Done (q, [])
      | Some m =>
          let m := with_topic (with_namespace (topic (message m))) m in
          let* q :=
            if bool_decide (first_key (msg_tree_map q) = Some (queue_offset m))
            then let* (q, _) := remove_message [m] q in Done q
            else Done q in
          let* (q, sent) := clean_loop n' (S t) q in Done (q, m :: sent)
      end
  end.

Definition clean_expired_msg (consume_orderly : bool) (q : ProcessQueue)
  : outcome (ProcessQueue * list MessageExt) :=
  if consume_orderly then Done (q, [])
  else clean_loop (16 `min` size (msg_tree_map q)) 0 q.
End Expired.

(** ** Accounting *)

Section Sizes.
(** A queue offset identifies a message, so it determines its size. *)
Variable size_at : Z → Z.

Record wf_msg (m : MessageExt) : Prop := {
  wm_body : body_len m = Done (size_at (queue_offset m));
  wm_max : is_Some (properties (message m) !! PROPERTY_MAX_OFFSET) →
    is_Some (properties (message m) !! PROPERTY_MAX_OFFSET ≫= parse_i64);
}.

Definition total (t : gmap Z MessageExt) : Z := map_fold (λ k _ acc, size_at k + acc) 0 t.

Lemma total_insert (t : gmap Z MessageExt) (k : Z) (m : MessageExt) :
  t !! k = None → total (<[k := m]> t) = size_at k + total t.
Proof. intros H. unfold total. rewrite map_fold_insert_L; [done | lia | done]. Qed.

Lemma total_delete (t : gmap Z MessageExt) (k : Z) (m : MessageExt) :
  t !! k = Some m → total t = size_at k + total (delete k t).
Proof.
  intros H. rewrite <- (insert_delete_id t k m H) at 1.
  apply total_insert, lookup_delete_eq.
Qed.

Lemma total_replace (t : gmap Z MessageExt) (k : Z) (m m' : MessageExt) :
  t !! k = Some m → total (<[k := m']> t) = total t.
Proof.
  intros H. rewrite <- insert_delete_eq, total_insert by apply lookup_delete_eq.
  symmetry. by eapply total_delete.
Qed.

(** The counters are those of the messages in the map. *)
Record pq_ok (q : ProcessQueue) : Prop := {
  pq_orderly : consuming_msg_orderly_tree_map q = ∅;
  pq_count : msg_count q = Z.of_nat (size (msg_tree_map q));
  pq_room : Z.of_nat (size (msg_tree_map q)) < 2 ^ 64;
  pq_size : msg_size q = as_u64 (total (msg_tree_map q));
  pq_keys : map_Forall (λ k m, queue_offset m = k) (msg_tree_map q);
}.

Lemma as_u64_add (a b : Z) : as_u64 (as_u64 a + b) = as_u64 (a + b).
Proof. unfold as_u64, wrap_u. apply Zplus_mod_idemp_l. Qed.

Lemma as_u64_sub (a b : Z) : as_u64 (as_u64 a - b) = as_u64 (a - b).
Proof. unfold as_u64, wrap_u. apply Zminus_mod_idemp_l. Qed.

Lemma put_loop_ok (ms : list MessageExt) (q : ProcessQueue) (n : Z) :
  Forall wf_msg ms → consuming_msg_orderly_tree_map q = ∅ →
  msg_size q = as_u64 (total (msg_tree_map q)) →
  map_Forall (λ k m, queue_offset m = k) (msg_tree_map q) →
  0 ≤ n → n + Z.of_nat (length ms) < 2 ^ 64 →
  ∃ q' n', put_loop ms q n = Done (q', n') ∧
    msg_tree_map q' = foldl (λ t m, <[queue_offset m := m]> t) (msg_tree_map q) ms ∧
    consuming_msg_orderly_tree_map q' = ∅ ∧ msg_count q' = msg_count q ∧
    msg_size q' = as_u64 (total (msg_tree_map q')) ∧
    map_Forall (λ k m, queue_offset m = k) (msg_tree_map q') ∧
    consuming q' = consuming q ∧
    0 ≤ n' - n ≤ Z.of_nat (length ms) ∧
    Z.of_nat (size (msg_tree_map q')) = Z.of_nat (size (msg_tree_map q)) + (n' - n).
Proof.
  intros Hms. revert q n. induction Hms as [| m ms Hm Hms IH]; intros q n Ho Hs Hk Hn Hr.
  { exists q, n. split_and!; try done; lia. }
  cbn [put_loop foldl]. cbn [length] in Hr. rewrite Nat2Z.inj_succ in Hr.
  assert (Hk' : map_Forall (λ k m, queue_offset m = k) (<[queue_offset m := m]> (msg_tree_map q)))
    by (by apply map_Forall_insert_2).
  destruct (msg_tree_map q !! queue_offset m) as [m0 |] eqn:E.
  - edestruct (IH (with_maps (<[queue_offset m := m]> (msg_tree_map q))
      (consuming_msg_orderly_tree_map q) (msg_count q) (msg_size q) q) n)
      as (q' & n' & -> & Ht & Hoq & Hc & Hsz & Hkq & Hcq & Hb & Hsize); try done; [| lia |].
    + cbn. rewrite Hs. f_equal. symmetry. by eapply total_replace.
    + exists q', n'. cbn [length]. split_and!; try done; [lia | lia |]. rewrite Hsize. cbn.
      by rewrite map_size_insert, E.
  - rewrite (wm_body _ Hm). cbn [obind].
    edestruct (IH (with_offset_max (as_u64 (queue_offset m))
      (with_maps (<[queue_offset m := m]> (msg_tree_map q)) (consuming_msg_orderly_tree_map q)
        (msg_count q) (as_u64 (msg_size q + size_at (queue_offset m))) q)) (as_u64 (n + 1)))
      as (q' & n' & Hq & Ht & Hoq & Hc & Hsz & Hkq & Hcq & Hb & Hsize); try done.
    + cbn. rewrite Hs, as_u64_add, total_insert by done. f_equal. lia.
    + rewrite (as_u64_id (n + 1)) by in_range. lia.
    + rewrite (as_u64_id (n + 1)) by in_range. lia.
    + rewrite (as_u64_id (n + 1)) in Hq, Hb, Hsize by in_range.
      rewrite (as_u64_id (n + 1)) by in_range. exists q', n'. split; [exact Hq |].
      cbn [length].
      split_and!; try done; [lia | lia |]. rewrite Hsize. cbn.
      rewrite map_size_insert, E. cbn. lia.
Qed.

Lemma acc_total_done (ms : list MessageExt) : Forall wf_msg ms → ∃ a, acc_total ms = Done a.
Proof.
  intros Hms. unfold acc_total. destruct (last ms) as [m |] eqn:E; [| eauto].
  assert (Hm : wf_msg m).
  { rewrite Forall_forall in Hms. apply Hms. by apply last_Some_elem_of. }
  pose proof (wm_max _ Hm) as Hmax.
  destruct (properties (message m) !! PROPERTY_MAX_OFFSET) as [p |]; [| eauto].
  destruct (Hmax ltac:(eauto)) as [v Hv]. cbn in Hv. rewrite Hv. cbn. eauto.
Qed.

Lemma put_message_ok (ms : list MessageExt) (q : ProcessQueue) :
  pq_ok q → Forall wf_msg ms →
  Z.of_nat (size (msg_tree_map q)) + Z.of_nat (length ms) < 2 ^ 64 →
  ∃ q' d, put_message ms q = Done (q', d) ∧ pq_ok q' ∧
    msg_tree_map q' = foldl (λ t m, <[queue_offset m := m]> t) (msg_tree_map q) ms ∧
    d = negb (bool_decide (msg_tree_map q' = ∅)) && negb (consuming q) ∧
    consuming q' = consuming q || d.
Proof.
  intros [Ho Hc Hr Hs Hk] Hms Hroom. unfold put_message.
  destruct (acc_total_done ms Hms) as [a ->]. cbn [obind].
  destruct (put_loop_ok ms q 0) as (q1 & n & -> & Ht & Ho1 & Hc1 & Hs1 & Hk1 & Hcon & Hn & Hsz);
    try done; [lia |]. cbn [obind].
  do 2 eexists. split; [done |]. cbn. split_and!; try done; [| by rewrite Hcon ..].
  constructor; cbn; try done.
  - rewrite Hc1, Hc, as_u64_id by in_range. lia.
  - lia.
Qed.

Lemma remove_one_ok (m : MessageExt) (q : ProcessQueue) :
  pq_ok q → wf_msg m → msg_tree_map q ≠ ∅ →
  ∃ q' r, remove_message [m] q = Done (q', r) ∧ pq_ok q' ∧
    msg_tree_map q' = delete (queue_offset m) (msg_tree_map q) ∧
    r = default (as_i64 (as_i64 (queue_offset_max q) + 1)) (first_key (msg_tree_map q')).
Proof.
  intros [Ho Hc Hr Hs Hk] Hm Hne. unfold remove_message. rewrite bool_decide_false by done.
  cbn [remove_loop]. destruct (msg_tree_map q !! queue_offset m) as [m0 |] eqn:E.
  - rewrite (wm_body _ Hm). cbn [obind]. rewrite (as_u64_id (0 + 1)) by in_range.
    do 2 eexists. split; [done |]. split; [| by split].
    pose proof (map_size_delete_Some (queue_offset m) (msg_tree_map q) ltac:(eauto)) as Hd.
    assert (Hpos : size (msg_tree_map q) ≠ O) by (by rewrite map_size_empty_iff).
    assert (Hcount : as_u64 (msg_count q - (0 + 1)) =
                     Z.of_nat (size (delete (queue_offset m) (msg_tree_map q)))).
    { rewrite Hc, as_u64_id by in_range. lia. }
    constructor; cbn.
    + done.
    + done.
    + lia.
    + rewrite Hcount, Hs, as_u64_sub, (total_delete _ _ _ E).
      replace (size_at (queue_offset m) + total (delete (queue_offset m) (msg_tree_map q))
               - size_at (queue_offset m)) with (total (delete (queue_offset m) (msg_tree_map q)))
        by lia.
      destruct (Z.eqb_spec (Z.of_nat (size (delete (queue_offset m) (msg_tree_map q)))) 0)
        as [He |]; [| done].
      assert (He' : size (delete (queue_offset m) (msg_tree_map q)) = O) by lia.
      apply map_size_empty_inv in He'. by rewrite He'.
    + by apply map_Forall_delete.
  - cbn [obind]. rewrite delete_id by done. do 2 eexists. split; [done |]. split; [| by split].
    assert (Hcount : as_u64 (msg_count q - 0) = Z.of_nat (size (msg_tree_map q)))
      by (rewrite Hc, as_u64_id by in_range; lia).
    constructor; cbn; try done. rewrite Hcount.
    destruct (Z.eqb_spec (Z.of_nat (size (msg_tree_map q))) 0) as [He |]; [| done].
    assert (He' : size (msg_tree_map q) = O) by lia. by apply map_size_empty_inv in He'.
Qed.

(** ** Runs of the concurrent consumer *)

Inductive pq_op := PutMsgs (ms : list MessageExt) | RemoveMsg (m : MessageExt) | ClearAll.

Definition pq_step (o : pq_op) (q : ProcessQueue) : outcome ProcessQueue :=
  match o with
  | PutMsgs ms => let* (q, _) := put_message ms q in Done q
  | RemoveMsg m => let* (q, _) := remove_message [m] q in Done q
  | ClearAll => Done (clear q)
  end.
Fixpoint pq_run (os : list pq_op) (q : ProcessQueue) : outcome ProcessQueue :=
  match os with [] => Done q | o :: os' => let* q := pq_step o q in pq_run os' q end.

(** The offsets that are pulled and not finished. *)
Definition pending_op (s : gset Z) (o : pq_op) : gset Z :=
  match o with
  | PutMsgs ms => s ∪ list_to_set (queue_offset <$> ms)
  | RemoveMsg m => s ∖ {[queue_offset m]}
  | ClearAll => ∅
  end.
Definition pending (s : gset Z) (os : list pq_op) : gset Z := foldl pending_op s os.

Definition wf_op (o : pq_op) : Prop :=
  match o with PutMsgs ms => Forall wf_msg ms | RemoveMsg m => wf_msg m | ClearAll => True end.
Definition op_puts (o : pq_op) : nat := match o with PutMsgs ms => length ms | _ => 0 end.

Lemma dom_inserts (ms : list MessageExt) (t : gmap Z MessageExt) :
  dom (foldl (λ t m, <[queue_offset m := m]> t) t ms) =
  dom t ∪ list_to_set (queue_offset <$> ms) :> gset Z.
Proof.
  revert t. induction ms as [| m ms IH]; intros t; cbn.
  - by rewrite union_empty_r_L.
  - rewrite IH, dom_insert_L. set_solver.
Qed.

Lemma size_inserts (ms : list MessageExt) (t : gmap Z MessageExt) :
  (size (foldl (λ t m, <[queue_offset m := m]> t) t ms) ≤ size t + length ms)%nat.
Proof.
  revert t. induction ms as [| m ms IH]; intros t; cbn; [lia |].
  etrans; [apply IH |]. rewrite map_size_insert. destruct (t !! queue_offset m); cbn; lia.
Qed.

Lemma pq_step_ok (o : pq_op) (q : ProcessQueue) :
  pq_ok q → wf_op o →
  Z.of_nat (size (msg_tree_map q)) + Z.of_nat (op_puts o) < 2 ^ 64 →
  ∃ q', pq_step o q = Done q' ∧ pq_ok q' ∧
    dom (msg_tree_map q') = pending_op (dom (msg_tree_map q)) o ∧
    (size (msg_tree_map q') ≤ size (msg_tree_map q) + op_puts o)%nat.
Proof.
  intros Hok Hw Hroom. destruct o as [ms | m |]; cbn [pq_step wf_op op_puts pending_op] in *.
  - destruct (put_message_ok ms q Hok Hw Hroom) as (q' & d & -> & Hok' & Ht & _).
    cbn [obind]. exists q'. split_and!; try done; rewrite Ht; [apply dom_inserts | apply size_inserts].
  - destruct (decide (msg_tree_map q = ∅)) as [He | Hne].
    + unfold remove_message. rewrite bool_decide_true by done. cbn [obind]. exists q.
      split_and!; try done; [| lia]. rewrite He, dom_empty_L. set_solver.
    + destruct (remove_one_ok m q Hok Hw Hne) as (q' & r & -> & Hok' & Ht & _).
      cbn [obind]. exists q'. rewrite Ht. split_and!; try done; [by rewrite dom_delete_L |].
      rewrite map_size_delete. destruct (msg_tree_map q !! queue_offset m); cbn; lia.
  - eexists. split; [done |]. split; [by constructor |]. split; [done |].
    change (msg_tree_map (clear q)) with (∅ : gmap Z MessageExt). rewrite map_size_empty. lia.
Qed.

Lemma pq_run_ok (os : list pq_op) (q : ProcessQueue) :
  pq_ok q → Forall wf_op os →
  Z.of_nat (size (msg_tree_map q)) + Z.of_nat (sum_list (op_puts <$> os)) < 2 ^ 64 →
  ∃ q', pq_run os q = Done q' ∧ pq_ok q' ∧
    dom (msg_tree_map q') = pending (dom (msg_tree_map q)) os.
Proof.
  intros Hok Hw. revert q Hok. induction Hw as [| o os Ho Hw IH]; intros q Hok Hroom; cbn in *.
  - by exists q.
  - destruct (pq_step_ok o q Hok Ho) as (q1 & -> & Hok1 & Hd1 & Hs1); [lia |]. cbn [obind].
    destruct (IH q1 Hok1) as (q2 & -> & Hok2 & Hd2); [lia |]. exists q2. split_and!; try done.
    by rewrite Hd2, Hd1.
Qed.
End Sizes.

(** ** What a removal lets the consumer commit *)

Lemma remove_loop_result (ms : list MessageExt) (q q' : ProcessQueue) (c r r' : Z) :
  remove_loop ms q c r = Done (q', r') →
  (∀ k, is_Some (msg_tree_map q !! k) → r ≤ k) →
  ∀ k, is_Some (msg_tree_map q' !! k) → r' ≤ k.
Proof.
  revert q c r. induction ms as [| m ms IH]; intros q c r Hl Hr; cbn [remove_loop] in Hl.
  { by simplify_eq. }
  apply obind_done in Hl as ([c1 sz] & _ & Hl). eapply IH; [exact Hl |]. cbn.
  intros k Hk. destruct (first_key _) as [k0 |] eqn:E; cbn.
  - apply first_key_spec in E as [_ Hle]. by apply Hle.
  - apply Hr. apply lookup_delete_is_Some in Hk. tauto.
Qed.

Lemma remove_message_below (m : MessageExt) (ms : list MessageExt) (q q' : ProcessQueue) (r : Z) :
  remove_message (m :: ms) q = Done (q', r) → msg_tree_map q ≠ ∅ →
  ∀ k, is_Some (msg_tree_map q' !! k) → r ≤ k.
Proof.
  intros Hr Hne. unfold remove_message in Hr. rewrite bool_decide_false in Hr by done.
  cbn [remove_loop] in Hr. apply obind_done in Hr as ([c sz] & _ & Hr).
  eapply remove_loop_result; [exact Hr |]. cbn. intros k Hk.
  destruct (first_key _) as [k0 |] eqn:E; cbn.
  - apply first_key_spec in E as [_ Hle]. by apply Hle.
  - apply first_key_none in E. rewrite E in Hk. by destruct Hk.
Qed.

(** ** Sequences of all calls *)

(** A call of any method that takes or puts messages. *)
Inductive pq_call :=
| CPut (ms : list MessageExt)
| CRemove (ms : list MessageExt)
| CTake (n : nat)
| CCommit
| CRollback
| CAgain (ms : list MessageExt)
| CClear.

Definition call (c : pq_call) (q : ProcessQueue) : outcome (ProcessQueue * bool) :=
  match c with
  | CPut ms => put_message ms q
  | CRemove ms => let* (q, _) := remove_message ms q in Done (q, false)
  | CTake n => Done ((take_messages n q).1, false)
  | CCommit => let* (q, _) := commit q in Done (q, false)
  | CRollback => Done (rollback q, false)
  | CAgain ms => Done (make_message_to_consume_again ms q, false)
  | CClear => Done (clear q, false)
  end.

Lemma put_loop_consuming (ms : list MessageExt) (q q' : ProcessQueue) (n n' : Z) :
  put_loop ms q n = Done (q', n') → consuming q' = consuming q.
Proof.
  revert q n. induction ms as [| m ms IH]; intros q n H; cbn [put_loop] in H; [by simplify_eq |].
  destruct (msg_tree_map q !! queue_offset m); [by apply IH in H |].
  apply obind_done in H as (k & _ & H). by apply IH in H.
Qed.

Lemma remove_loop_consuming (ms : list MessageExt) (q q' : ProcessQueue) (c r r' : Z) :
  remove_loop ms q c r = Done (q', r') → consuming q' = consuming q.
Proof.
  revert q c r. induction ms as [| m ms IH]; intros q c r H; cbn [remove_loop] in H;
    [by simplify_eq |].
  apply obind_done in H as ([c1 sz] & _ & H). by apply IH in H.
Qed.

Lemma again_consuming (ms : list MessageExt) (q : ProcessQueue) :
  consuming (make_message_to_consume_again ms q) = consuming q.
Proof.
  unfold make_message_to_consume_again. revert q.
  induction ms as [| m ms IH]; intros q; cbn; [done |]. by rewrite IH.
Qed.

(** Nothing resets the flag that consumption is under way. *)
Lemma call_consuming (c : pq_call) (q q' : ProcessQueue) (d : bool) :
  call c q = Done (q', d) → consuming q = true → consuming q' = true ∧ d = false.
Proof.
  intros Hc Hq. destruct c as [ms | ms | n | | | ms |]; cbn [call] in Hc.
  - unfold put_message in Hc. apply obind_done in Hc as (a & _ & Hc).
    apply obind_done in Hc as ([q1 n] & Hp%put_loop_consuming & Hc). simplify_eq. cbn.
    rewrite Hp, Hq. cbn. by rewrite andb_false_r.
  - apply obind_done in Hc as ([q1 r] & Hr & Hc). simplify_eq. unfold remove_message in Hr.
    destruct (bool_decide _); [by simplify_eq |]. apply remove_loop_consuming in Hr.
    by rewrite Hr.
  - simplify_eq. unfold take_messages. by destruct (take_loop _ _).
  - apply obind_done in Hc as ([q1 r] & Hr & Hc). simplify_eq. unfold commit in Hr.
    apply obind_done in Hr as (sz & _ & Hr). by simplify_eq.
  - by simplify_eq.
  - simplify_eq. by rewrite again_consuming.
  - by simplify_eq.
Qed.

Fixpoint calls (cs : list pq_call) (q : ProcessQueue) : outcome (ProcessQueue * list bool) :=
  match cs with
  | [] => Done (q, [])
  | c :: cs' =>
      let* (q, d) := call c q in
      let* (q, ds) := calls cs' q in Done (q, d :: ds)
  end.

Lemma calls_consuming (cs : list pq_call) (q q' : ProcessQueue) (ds : list bool) :
  calls cs q = Done (q', ds) → consuming q = true → Forall (λ d, d = false) ds.
Proof.
  revert q ds. induction cs as [| c cs IH]; intros q ds Hc Hq; cbn [calls] in Hc.
  { simplify_eq. constructor. }
  apply obind_done in Hc as ([q1 d] & H1 & Hc). apply obind_done in Hc as ([q2 ds'] & H2 & Hc).
  simplify_eq. apply call_consuming in H1 as [Hq1 ->]; [| done]. constructor; [done |].
  by apply (IH q1).
Qed.

(** * Properties *)

(** C18: The concurrent consumer's bookkeeping is exact: whatever batches are
    pulled and whichever messages are finished one at a time, the calls succeed,
    the map holds exactly the offsets pulled and not finished, and the message
    and byte counters are the number and the total size of the messages in it
    (the byte counter modulo its 64 bits). *)
Theorem process_queue_accounting (size_at : Z → Z) (os : list pq_op) (t1 t2 t3 : Z) :
  Forall (wf_op size_at) os → Z.of_nat (sum_list (op_puts <$> os)) < 2 ^ 64 →
  ∃ q, pq_run os (new_process_queue t1 t2 t3) = Done q ∧
    dom (msg_tree_map q) = pending ∅ os ∧
    msg_count q = Z.of_nat (size (msg_tree_map q)) ∧
    msg_size q = as_u64 (total size_at (msg_tree_map q)).
Proof.
  intros Hw Hr. destruct (pq_run_ok size_at os (new_process_queue t1 t2 t3))
    as (q & -> & [] & Hd); [by constructor | done | done |].
  by exists q.
Qed.

Definition sample_at (off : Z) : MessageExt :=
  mkMessageExt (mkMessage "t" 0 {["MAX_OFFSET" := "9"]} (Some (str_bytes "hello")) None None)
    "b" 0 0 off 0 0 default_host 0 default_host "" 0 0 0 0.

Lemma sample_at_wf (off : Z) : wf_msg (λ _, 5) (sample_at off).
Proof. constructor; [done |]. intros _. by eexists. Qed.

Lemma process_queue_accounting_witness :
  let os := [PutMsgs [sample_at 3; sample_at 4]; RemoveMsg (sample_at 3);
             PutMsgs [sample_at 4; sample_at 7]] in
  ∃ q, pq_run os (new_process_queue 0 0 0) = Done q ∧
    dom (msg_tree_map q) = pending ∅ os ∧
    msg_count q = Z.of_nat (size (msg_tree_map q)) ∧
    msg_size q = as_u64 (total (λ _, 5) (msg_tree_map q)).
Proof.
  apply process_queue_accounting; [| by vm_compute].
  repeat (apply Forall_cons_2 || apply Forall_nil_2 || apply sample_at_wf).
Defined.

(** Committing never skips a message: the offset [remove_message] returns is
    not above any message still in the map.  For a single message it is the
    first offset still in the map, or one past the last message pulled when
    none is left. *)
Theorem remove_message_offset (size_at : Z → Z) (m : MessageExt) (ms : list MessageExt)
    (q : ProcessQueue) :
  msg_tree_map q ≠ ∅ →
  (∀ q' r, remove_message (m :: ms) q = Done (q', r) →
     ∀ k, is_Some (msg_tree_map q' !! k) → r ≤ k) ∧
  (pq_ok size_at q → wf_msg size_at m →
     ∃ q' r, remove_message [m] q = Done (q', r) ∧
       msg_tree_map q' = delete (queue_offset m) (msg_tree_map q) ∧
       r = default (as_i64 (as_i64 (queue_offset_max q) + 1)) (first_key (msg_tree_map q'))).
Proof.
  intros Hne. split.
  - intros q' r Hr. by apply (remove_message_below m ms q q' r).
  - intros Hok Hm. destruct (remove_one_ok size_at m q Hok Hm Hne) as (q' & r & ? & _ & ? & ?).
    by exists q', r.
Qed.

Definition two_pulled : ProcessQueue :=
  match put_message [sample_at 3; sample_at 4] (new_process_queue 0 0 0) with
  | Done (q, _) => q | Panic => new_process_queue 0 0 0
  end.

Lemma two_pulled_ok : pq_ok (λ _, 5) two_pulled.
Proof.
  destruct (put_message_ok (λ _, 5) [sample_at 3; sample_at 4] (new_process_queue 0 0 0))
    as (q & d & Hq & Hok & _).
  - by constructor.
  - repeat (apply Forall_cons_2 || apply Forall_nil_2 || apply sample_at_wf).
  - by vm_compute.
  - unfold two_pulled. by rewrite Hq.
Qed.

Lemma remove_message_offset_witness :
  ∃ q' r, remove_message [sample_at 3] two_pulled = Done (q', r) ∧
    msg_tree_map q' = delete 3 (msg_tree_map two_pulled) ∧
    r = default (as_i64 (as_i64 (queue_offset_max two_pulled) + 1)) (first_key (msg_tree_map q')).
Proof.
  apply (remove_message_offset (λ _, 5) (sample_at 3) [] two_pulled).
  - by vm_compute.
  - exact two_pulled_ok.
  - apply sample_at_wf.
Defined.

(** A batch removal miscounts: finishing two pulled messages in one call takes
    three off the message counter, because the running count is subtracted in
    every iteration. *)
Theorem remove_two_miscounts (size_at : Z → Z) (m1 m2 : MessageExt) (q : ProcessQueue) :
  pq_ok size_at q → wf_msg size_at m1 → wf_msg size_at m2 →
  queue_offset m1 ≠ queue_offset m2 →
  is_Some (msg_tree_map q !! queue_offset m1) → is_Some (msg_tree_map q !! queue_offset m2) →
  ∃ q' r, remove_message [m1; m2] q = Done (q', r) ∧
    msg_count q' = as_u64 (Z.of_nat (size (msg_tree_map q)) - 3).
Proof.
  intros Hok H1 H2 Hne [x1 Hx1] [x2 Hx2]. unfold remove_message.
  rewrite bool_decide_false by (intros E; rewrite E in Hx1; done).
  cbn [remove_loop]. rewrite Hx1, (wm_body _ _ H1). cbn [obind msg_tree_map with_maps].
  rewrite lookup_delete_ne, Hx2, (wm_body _ _ H2) by done. cbn [obind].
  do 2 eexists. split; [done |]. cbn [msg_count with_maps].
  rewrite as_u64_sub, (pq_count _ _ Hok). f_equal.
  change (as_u64 (0 + 1)) with 1. change (as_u64 (1 + 1)) with 2. lia.
Qed.

Lemma remove_two_miscounts_witness :
  ∃ q' r, remove_message [sample_at 3; sample_at 4] two_pulled = Done (q', r) ∧
    msg_count q' = 2 ^ 64 - 1.
Proof. do 2 eexists. split; vm_compute; reflexivity. Defined.

(** Consumption is dispatched once: after a [put_message] asked for it, no
    later call ever does again, even when every message was taken and the map is
    empty, because nothing resets the flag. *)
Theorem dispatched_once (c : pq_call) (cs : list pq_call) (q q1 q' : ProcessQueue)
    (ds : list bool) :
  call c q = Done (q1, true) → calls cs q1 = Done (q', ds) → Forall (λ d, d = false) ds.
Proof.
  intros Hc Hcs. apply (calls_consuming cs q1 q'); [done |].
  destruct c as [ms | ms | n | | | ms |]; cbn [call] in Hc; [| | done | | done | done | done].
  - unfold put_message in Hc. apply obind_done in Hc as (a & _ & Hc).
    apply obind_done in Hc as ([q2 n] & _ & Hc). injection Hc as <- Hd. cbn in *.
    by rewrite Hd, orb_true_r.
  - by apply obind_done in Hc as ([q2 r] & _ & ?).
  - by apply obind_done in Hc as ([q2 r] & _ & ?).
Qed.

(** Messages taken for ordered consumption are not recorded as being consumed:
    [commit] after [take_messages] reports no offset and leaves the counters. *)
Theorem take_then_commit (n : nat) (q : ProcessQueue) :
  consuming_msg_orderly_tree_map q = ∅ →
  ∃ q', commit (take_messages n q).1 = Done (q', -1) ∧
    (msg_count q' = as_u64 (msg_count q)) ∧ msg_tree_map q' = msg_tree_map (take_messages n q).1.
Proof.
  intros Ho. unfold take_messages. destruct (take_loop n (msg_tree_map q)) as [t ms]. cbn [fst].
  unfold commit. cbn [consuming_msg_orderly_tree_map with_maps msg_count]. rewrite Ho.
  rewrite map_size_empty, map_to_list_empty. cbn [last_key].
  assert (Hl : last_key (∅ : gmap Z MessageExt) = None) by (by apply last_key_none). rewrite Hl.
  destruct (_ =? 0); eexists; (split; [done |]); cbn; split; try done; f_equal; lia.
Qed.
