(* ===== verification/Offsets.v ===== *)
(** * Offsets: where the consumers of a group are
    ([consumer_offset_manager.rs])

    The tables map ["topic@group"] to the offset of each queue.  Each table is
    behind a lock; every method but [commit_offset] touches one of them once.
    Loading and saving as JSON are left to the serializer. *)

From stdpp Require Import base gmap list strings.
From coqutil Require Import Byte.
From Stdlib Require Import ZArith Lia.
From S2P Require Import Prelude Bytes Message Rebalance RouteInfo.
Open Scope Z_scope.
Open Scope rmq_scope.

Definition TOPIC_GROUP_SEPARATOR : byte := Byte.x40.

(** [format!("{topic}{TOPIC_GROUP_SEPARATOR}{group}")] *)
Definition topic_at_group (topic group : string) : string :=
  bytes_str (str_bytes topic ++ [TOPIC_GROUP_SEPARATOR] ++ str_bytes group).
(** [key.split(TOPIC_GROUP_SEPARATOR)], when it gives two parts. *)
Definition split_key (key : string) : option (string * string) :=
  match split_byte TOPIC_GROUP_SEPARATOR (str_bytes key) [] with
  | [t; g] => Some (bytes_str t, bytes_str g)
  | _ => None
  end.

Abbreviation offsets := (gmap string (gmap Z Z)).

Record ConsumerOffsetManager := mkOffsets {
  om_data_version : DataVersion;
  offset_table : offsets;
  reset_offset_table : offsets;
  pull_offset_table : offsets;
  version_change_counter : Z;
}.

Record OffsetConfig := mkOffsetConfig {
  use_server_side_reset_offset : bool;
  consumer_offset_update_version_step : Z;
}.

Definition new_offsets (dv : DataVersion) : ConsumerOffsetManager := mkOffsets dv ∅ ∅ ∅ 0.

Definition next_version_with (now state_version : Z) (dv : DataVersion) : DataVersion :=
  mkDataVersion state_version now (as_i64 (counter dv + 1)).

(** [entry(key).or_default().insert(queue_id, offset)] *)
Definition put_offset (key : string) (queue_id offset : Z) (t : offsets) : offsets :=
  <[key := <[queue_id := offset]> (default ∅ (t !! key))]> t.

Section Config.
Variable cfg : OffsetConfig.

(** [store_version] is [get_state_machine_version] of the store, or 0 without
    one. *)
Definition commit_offset (now store_version : Z) (group topic : string) (queue_id offset : Z)
    (m : ConsumerOffsetManager) : outcome ConsumerOffsetManager :=
  let table := put_offset (topic_at_group topic group) queue_id offset (offset_table m) in
  let counter := as_i64 (version_change_counter m + 1) in
  if consumer_offset_update_version_step cfg =? 0 then Panic
  else
    Done (mkOffsets
      (if rrem counter (consumer_offset_update_version_step cfg) =? 0
       then next_version_with now store_version (om_data_version m) else om_data_version m)
      table (reset_offset_table m) (pull_offset_table m) counter).

Definition has_offset_reset (group topic : string) (queue_id : Z) (m : ConsumerOffsetManager)
  : bool :=
  match reset_offset_table m !! topic_at_group topic group with
  | None => false
  | Some inner => bool_decide (is_Some (inner !! queue_id))
  end.

Definition query_offset (group topic : string) (queue_id : Z) (m : ConsumerOffsetManager) : Z :=
  let key := topic_at_group topic group in
  match (if use_server_side_reset_offset cfg then reset_offset_table m !! key else None) with
  | Some value => default (-1) (value !! queue_id)
  | None =>
      match offset_table m !! key with
      | Some value => default (-1) (value !! queue_id)
      | None => -1
      end
  end.

Definition commit_pull_offset (group topic : string) (queue_id offset : Z)
    (m : ConsumerOffsetManager) : ConsumerOffsetManager :=
  mkOffsets (om_data_version m) (offset_table m) (reset_offset_table m)
    (put_offset (topic_at_group topic group) queue_id offset (pull_offset_table m))
    (version_change_counter m).

Definition query_then_erase_reset_offset (topic group : string) (queue_id : Z)
    (m : ConsumerOffsetManager) : ConsumerOffsetManager * option Z :=
  let key := topic_at_group topic group in
  match reset_offset_table m !! key with
  | None => (m, None)
  | Some value =>
      (mkOffsets (om_data_version m) (offset_table m)
         (<[key := delete queue_id value]> (reset_offset_table m)) (pull_offset_table m)
         (version_change_counter m), value !! queue_id)
  end.

(** The test that the key contains the topic is implied by the others. *)
Definition clean_offset_by_topic (topic : string) (m : ConsumerOffsetManager)
  : ConsumerOffsetManager :=
  mkOffsets (om_data_version m)
    (filter (λ kv, fst <$> split_key kv.1 ≠ Some topic) (offset_table m))
    (reset_offset_table m) (pull_offset_table m) (version_change_counter m).

Definition which_group_by_topic (topic : string) (m : ConsumerOffsetManager) : gset string :=
  list_to_set (omap (λ key,
    match split_key key with
    | Some (t, g) => if decide (t = topic) then Some g else None
    | None => None
    end) (map_to_list (offset_table m)).*1).

Definition which_topic_by_consumer (group : string) (m : ConsumerOffsetManager) : gset string :=
  list_to_set (omap (λ key,
    match split_key key with
    | Some (t, g) => if decide (g = group) then Some t else None
    | None => None
    end) (map_to_list (offset_table m)).*1).

(** [decode]: what a parsed wrapper does to the tables. *)
Definition load_wrapper (w m : ConsumerOffsetManager) : ConsumerOffsetManager :=
  if bool_decide (offset_table w = ∅) then m
  else
    mkOffsets (om_data_version w) (offset_table w ∪ offset_table m) (reset_offset_table m)
      (pull_offset_table m) (version_change_counter m).

Definition get_group_topic_map (m : ConsumerOffsetManager) : gmap string (gset string) :=
  foldl (λ ret key,
    match split_key key with
    | Some (t, g) => <[g := {[t]} ∪ default ∅ (ret !! g)]> ret
    | None => ret
    end) ∅ (map_to_list (offset_table m)).*1.
End Config.

(** ** Keys *)

(** A name without the separator. *)
Definition plain (s : string) : Prop := TOPIC_GROUP_SEPARATOR ∉ str_bytes s.
#[export] Instance plain_dec s : Decision (plain s).
Proof. unfold plain. apply _. Defined.
Ltac solve_plain := apply (bool_decide_unpack _); vm_compute; exact I.

Lemma split_byte_none (c : byte) (bs acc : buffer) :
  c ∉ bs → split_byte c bs acc = [acc ++ bs].
Proof.
  revert acc. induction bs as [| b bs IH]; intros acc Hn; cbn; [by rewrite app_nil_r |].
  apply not_elem_of_cons in Hn as [Hb Hn]. rewrite decide_False by done.
  rewrite IH by done. by rewrite <- (assoc_L (++)).
Qed.

Lemma split_byte_app (c : byte) (bs rest acc : buffer) :
  c ∉ bs → split_byte c (bs ++ c :: rest) acc = (acc ++ bs) :: split_byte c rest [].
Proof.
  revert acc. induction bs as [| b bs IH]; intros acc Hn; cbn.
  - by rewrite decide_True, app_nil_r.
  - apply not_elem_of_cons in Hn as [Hb Hn]. rewrite decide_False by done.
    rewrite IH by done. by rewrite <- (assoc_L (++)).
Qed.

Lemma split_key_join (t g : string) :
  plain t → plain g → split_key (topic_at_group t g) = Some (t, g).
Proof.
  intros Ht Hg. unfold split_key, topic_at_group. rewrite str_bytes_str. cbn [app].
  rewrite split_byte_app, split_byte_none by done. cbn [app]. by rewrite !bytes_str_bytes.
Qed.

Lemma topic_at_group_inj (t g t' g' : string) :
  plain t → plain g → plain t' → plain g' →
  topic_at_group t g = topic_at_group t' g' → t = t' ∧ g = g'.
Proof.
  intros Ht Hg Ht' Hg' He. pose proof (split_key_join t g Ht Hg) as H1.
  rewrite He, split_key_join in H1 by done. by simplify_eq.
Qed.

Lemma put_offset_lookup (k k' : string) (q q' off : Z) (t : offsets) :
  put_offset k q off t !! k' ≫= (.!! q') =
  if decide (k = k' ∧ q = q') then Some off else t !! k' ≫= (.!! q').
Proof.
  unfold put_offset. destruct (decide (k = k')) as [<- | Hk].
  - rewrite lookup_insert_eq. cbn. destruct (decide (q = q')) as [<- | Hq].
    + by rewrite lookup_insert_eq, decide_True.
    + rewrite lookup_insert_ne, decide_False by tauto. by destruct (t !! k).
  - rewrite lookup_insert_ne, decide_False by tauto. done.
Qed.

(** ** Runs of commits *)

(** A commit: the clock, the store's version, group, topic, queue, offset. *)
Record commit_call := mkCommit {
  cc_now : Z; cc_version : Z; cc_group : string; cc_topic : string; cc_queue : Z; cc_offset : Z;
}.

Fixpoint commit_all (cfg : OffsetConfig) (cs : list commit_call) (m : ConsumerOffsetManager)
  : outcome ConsumerOffsetManager :=
  match cs with
  | [] => Done m
  | c :: cs' =>
      let* m := commit_offset cfg (cc_now c) (cc_version c) (cc_group c) (cc_topic c) (cc_queue c)
                  (cc_offset c) m in
      commit_all cfg cs' m
  end.

Definition same_queue (g t : string) (q : Z) (c : commit_call) : Prop :=
  cc_group c = g ∧ cc_topic c = t ∧ cc_queue c = q.
#[export] Instance same_queue_dec g t q c : Decision (same_queue g t q c).
Proof. unfold same_queue. apply _. Defined.

Definition plain_call (c : commit_call) : Prop := plain (cc_group c) ∧ plain (cc_topic c).

Lemma commit_all_table (cfg : OffsetConfig) (cs : list commit_call) (m : ConsumerOffsetManager)
    (g t : string) (q : Z) :
  consumer_offset_update_version_step cfg ≠ 0 →
  Forall plain_call cs → plain g → plain t →
  ∃ m', commit_all cfg cs m = Done m' ∧ reset_offset_table m' = reset_offset_table m ∧
    offset_table m' !! topic_at_group t g ≫= (.!! q) =
    match last (filter (same_queue g t q) cs) with
    | Some c => Some (cc_offset c)
    | None => offset_table m !! topic_at_group t g ≫= (.!! q)
    end.
Proof.
  intros Hstep Hcs Hg Ht. revert m. induction Hcs as [| c cs [Hpg Hpt] Hcs IH]; intros m.
  { by exists m. }
  cbn [commit_all]. unfold commit_offset at 1. rewrite (proj2 (Z.eqb_neq _ _)) by done.
  cbn [obind]. match goal with |- context [commit_all cfg cs ?m0] => set (m1 := m0) end.
  destruct (IH m1) as (m' & -> & Hr & Hl). exists m'. split_and!; [done | by rewrite Hr |].
  rewrite Hl, filter_cons. unfold m1. cbn [offset_table]. rewrite put_offset_lookup.
  destruct (decide (same_queue g t q c)) as [(Hc1 & Hc2 & Hc3) | Hns].
  - rewrite Hc1, Hc2, Hc3, decide_True by done.
    destruct (last (filter (same_queue g t q) cs)) as [x |] eqn:E.
    + rewrite last_cons, E. done.
    + by rewrite last_cons, E.
  - rewrite decide_False; [done |]. intros [Hk Hq]. apply Hns.
    apply topic_at_group_inj in Hk as [? ?]; [| done ..]. by split_and!.
Qed.

(** * Properties *)

(** Committed offsets: after any sequence of commits for groups and topics
    without the separator in their names, a query answers with the last offset
    committed for that group, topic and queue, or -1 when there was none; groups,
    topics and queues do not interfere. *)
Theorem query_after_commits (cfg : OffsetConfig) (cs : list commit_call) (dv : DataVersion)
    (g t : string) (q : Z) :
  consumer_offset_update_version_step cfg ≠ 0 →
  Forall plain_call cs → plain g → plain t →
  ∃ m, commit_all cfg cs (new_offsets dv) = Done m ∧
    query_offset cfg g t q m = default (-1) (cc_offset <$> last (filter (same_queue g t q) cs)).
Proof.
  intros Hstep Hcs Hg Ht.
  destruct (commit_all_table cfg cs (new_offsets dv) g t q) as (m & Hm & Hr & Hl); try done.
  exists m. split; [done |]. unfold query_offset. rewrite Hr. cbn [new_offsets reset_offset_table].
  rewrite lookup_empty. replace (if use_server_side_reset_offset cfg then None else None)
    with (@None (gmap Z Z)) by (by destruct (use_server_side_reset_offset cfg)).
  cbn [new_offsets offset_table] in Hl. rewrite lookup_empty in Hl. cbn in Hl.
  destruct (offset_table m !! topic_at_group t g) as [v |] eqn:E; cbn in Hl.
  - rewrite Hl. by destruct (last _).
  - by destruct (last _).
Qed.

Definition sample_offset_config : OffsetConfig := mkOffsetConfig true 500.
Definition sample_commits : list commit_call :=
  [mkCommit 1 0 "g" "t" 0 5; mkCommit 2 0 "g" "t" 1 9; mkCommit 3 0 "h" "t" 0 2;
   mkCommit 4 0 "g" "t" 0 7].

Lemma query_after_commits_witness :
  ∃ m, commit_all sample_offset_config sample_commits (new_offsets (mkDataVersion 0 0 0)) = Done m ∧
    query_offset sample_offset_config "g" "t" 0 m = 7.
Proof.
  apply (query_after_commits sample_offset_config sample_commits (mkDataVersion 0 0 0) "g" "t" 0).
  - done.
  - repeat constructor; solve_plain.
  - solve_plain.
  - solve_plain.
Defined.

Lemma elem_which_group (t g : string) (m : ConsumerOffsetManager) :
  g ∈ which_group_by_topic t m ↔
  ∃ k, is_Some (offset_table m !! k) ∧ split_key k = Some (t, g).
Proof.
  unfold which_group_by_topic. rewrite elem_of_list_to_set, list_elem_of_omap. split.
  - intros (k & Hk & Hs). apply list_elem_of_fmap in Hk as ([k' v] & -> & Hin).
    apply elem_of_map_to_list in Hin. exists k'. split; [eauto |]. cbn in Hs.
    destruct (split_key k') as [[t' g'] |]; [| done]. by case_decide; simplify_eq.
  - intros (k & [v Hv] & Hs). exists k. split.
    + apply list_elem_of_fmap. exists (k, v). by rewrite elem_of_map_to_list.
    + by rewrite Hs, decide_True.
Qed.

Lemma elem_which_topic (t g : string) (m : ConsumerOffsetManager) :
  t ∈ which_topic_by_consumer g m ↔
  ∃ k, is_Some (offset_table m !! k) ∧ split_key k = Some (t, g).
Proof.
  unfold which_topic_by_consumer. rewrite elem_of_list_to_set, list_elem_of_omap. split.
  - intros (k & Hk & Hs). apply list_elem_of_fmap in Hk as ([k' v] & -> & Hin).
    apply elem_of_map_to_list in Hin. exists k'. split; [eauto |]. cbn in Hs.
    destruct (split_key k') as [[t' g'] |]; [| done]. by case_decide; simplify_eq.
  - intros (k & [v Hv] & Hs). exists k. split.
    + apply list_elem_of_fmap. exists (k, v). by rewrite elem_of_map_to_list.
    + by rewrite Hs, decide_True.
Qed.

(** Deleting a topic's offsets deletes exactly them: afterwards the topic has
    no groups and every query for it answers -1, the offsets of all other topics
    are unchanged, and the two listings stay inverse to each other. *)
Theorem clean_offset_by_topic_spec (cfg : OffsetConfig) (t0 : string)
    (m : ConsumerOffsetManager) :
  reset_offset_table m = ∅ →
  let m' := clean_offset_by_topic t0 m in
  which_group_by_topic t0 m' = ∅ ∧
  (∀ g q, plain t0 → plain g → query_offset cfg g t0 q m' = -1) ∧
  (∀ t g q, t ≠ t0 → plain t → plain g → query_offset cfg g t q m' = query_offset cfg g t q m) ∧
  (∀ t g, t ∈ which_topic_by_consumer g m' ↔ g ∈ which_group_by_topic t m').
Proof.
  intros Hr m'. split_and!.
  - apply set_eq. intros g. rewrite elem_which_group. split; [| set_solver].
    intros (k & [v Hv] & Hs). apply map_lookup_filter_Some in Hv as [_ Hn]. cbn in Hn.
    by rewrite Hs in Hn.
  - intros g q Ht Hg. unfold query_offset. cbn [m' clean_offset_by_topic reset_offset_table].
    rewrite Hr, lookup_empty.
    replace (offset_table m' !! topic_at_group t0 g) with (@None (gmap Z Z)).
    + by destruct (use_server_side_reset_offset cfg).
    + symmetry. apply map_lookup_filter_None. right. intros v _. cbn.
      rewrite split_key_join by done. cbn. by intros Hne.
  - intros t g q Hne Ht Hg. unfold query_offset. cbn [m' clean_offset_by_topic reset_offset_table].
    replace (offset_table m' !! topic_at_group t g) with (offset_table m !! topic_at_group t g);
      [done |]. cbn [m' clean_offset_by_topic offset_table].
    destruct (offset_table m !! topic_at_group t g) as [v |] eqn:E; symmetry.
    + apply map_lookup_filter_Some. split; [done |]. cbn. rewrite split_key_join by done. cbn.
      congruence.
    + apply map_lookup_filter_None. by left.
  - intros t g. by rewrite elem_which_topic, elem_which_group.
Qed.

Lemma clean_offset_by_topic_spec_witness :
  let m := mkOffsets (mkDataVersion 0 0 0) {["t@g" := {[0 := 5]}; "u@g" := {[0 := 6]}]} ∅ ∅ 0 in
  let m' := clean_offset_by_topic "t" m in
  which_group_by_topic "t" m' = ∅ ∧
  query_offset sample_offset_config "g" "t" 0 m' = -1 ∧
  query_offset sample_offset_config "g" "u" 0 m' = 6.
Proof.
  intros m m'. destruct (clean_offset_by_topic_spec sample_offset_config "t" m)
    as (H1 & H2 & H3 & _); [done |]. split; [exact H1 |].
  assert (plain "t" ∧ plain "u" ∧ plain "g") as (? & ? & ?)
    by (split_and!; solve_plain).
  split; [by apply H2 |]. unfold m'. by rewrite H3.
Defined.

(** A reset that was consumed hides the committed offset: once a queue's reset
    offset has been read and erased, the emptied entry stays in the reset table
    and, with resets on the server switched on, every later query for the queue
    answers -1, whatever was committed. *)
Theorem reset_hides_committed (cfg : OffsetConfig) (g t : string) (q : Z)
    (m : ConsumerOffsetManager) :
  use_server_side_reset_offset cfg = true →
  has_offset_reset g t q m = true →
  query_offset cfg g t q (query_then_erase_reset_offset t g q m).1 = -1.
Proof.
  intros Hc Hh. unfold has_offset_reset in Hh. unfold query_offset, query_then_erase_reset_offset.
  destruct (reset_offset_table m !! topic_at_group t g) as [v |]; [| done].
  cbn [fst reset_offset_table]. by rewrite Hc, lookup_insert_eq, lookup_delete_eq.
Qed.

Lemma reset_hides_committed_witness :
  let m := mkOffsets (mkDataVersion 0 0 0) {["t@g" := {[0 := 5]}]} {["t@g" := {[0 := 3]}]} ∅ 0 in
  query_offset sample_offset_config "g" "t" 0 (query_then_erase_reset_offset "t" "g" 0 m).1 = -1.
Proof. apply reset_hides_committed; reflexivity. Defined.
