(* ===== verification/OrderInfo.v ===== *)
(** * OrderInfo: messages popped in order and not yet acknowledged
    ([consumer_order_info_manager.rs])

    For each queue the manager remembers the last batch a consumer popped: the
    queue offsets (the first one and the distances from it), a word with one
    bit per acknowledged message, and when each message becomes visible again.
    Arithmetic is on [u64] and wraps.  The methods of the manager that the
    source leaves unimplemented panic. *)

From stdpp Require Import base gmap list strings.
From Stdlib Require Import ZArith Lia.
From S2P Require Import Prelude Bytes Message Rebalance RouteInfo Offsets.
Open Scope Z_scope.
Open Scope rmq_scope.

Record OrderInfo := mkOrder {
  pop_time : Z;
  invisible_time : option Z;
  offset_list : list Z;
  offset_next_visible_time : gmap Z Z;
  offset_consumed_count : gmap Z Z;
  last_consume_time : Z;
  commit_offset_bit : Z;
  attempt_id : string;
}.

(** The distances are from the first offset; panics on no offsets. *)
Definition build_offset_list (queue_offset_list : list Z) : outcome (list Z) :=
  match queue_offset_list with
  | [] => Panic
  | [x] => Done [x]
  | first :: rest => Done (first :: ((λ item, as_u64 (item - first)) <$> rest))
  end.

Definition get_queue_offset_from_list (l : list Z) (offset_index : nat) : outcome Z :=
  match offset_index with
  | O => unwrap (l !! O)
  | _ =>
      let* first := unwrap (l !! O) in
      let* d := unwrap (l !! offset_index) in Done (as_u64 (first + d))
  end.
Definition get_queue_offset (offset_index : nat) (o : OrderInfo) : outcome Z :=
  get_queue_offset_from_list (offset_list o) offset_index.

Definition is_not_ack (offset_index : nat) (o : OrderInfo) : bool :=
  if (64 <=? offset_index)%nat then false
  else Z.land (commit_offset_bit o) (Z.shiftl 1 (Z.of_nat offset_index)) =? 0.

(** When message [i] becomes visible again. *)
Definition next_visible (i : nat) (o : OrderInfo) : outcome Z :=
  let* off := get_queue_offset i o in
  Done (default (as_u64 (pop_time o + default 0 (invisible_time o)))
          (offset_next_visible_time o !! off)).

(** The loops over the messages, from index [i] on. *)
Fixpoint block_loop (n i : nat) (now : Z) (o : OrderInfo) : outcome bool :=
  match n with
  | O => Done false
  | S n' =>
      if is_not_ack i o then
        let* t := next_visible i o in
        if now <? t then Done true else block_loop n' (S i) now o
      else block_loop n' (S i) now o
  end.

Definition no_invisible_time (o : OrderInfo) : bool :=
  match invisible_time o with None => true | Some t => t =? 0 end.

Definition need_block (attempt : string) (current_invisible_time now : Z) (o : OrderInfo)
  : outcome (OrderInfo * bool) :=
  match offset_list o with
  | [] => Done (o, false)
  | _ =>
      if decide (attempt_id o = attempt) then Done (o, false)
      else
        let o :=
          if no_invisible_time o
          then mkOrder (pop_time o) (Some current_invisible_time) (offset_list o)
                 (offset_next_visible_time o) (offset_consumed_count o) (last_consume_time o)
                 (commit_offset_bit o) (attempt_id o)
          else o in
        let* b := block_loop (length (offset_list o)) 0 now o in Done (o, b)
  end.

Fixpoint lock_free_loop (n i : nat) (now : Z) (o : OrderInfo) : outcome (option Z) :=
  match n with
  | O => Done (Some now)
  | S n' =>
      if is_not_ack i o then
        if no_invisible_time o then Done None
        else
          let* t := next_visible i o in
          if now <? t then Done (Some t) else lock_free_loop n' (S i) now o
      else lock_free_loop n' (S i) now o
  end.
Definition get_lock_free_timestamp (now : Z) (o : OrderInfo) : outcome (option Z) :=
  match offset_list o with
  | [] => Done None
  | _ => lock_free_loop (length (offset_list o)) 0 now o
  end.

Definition update_offset_next_visible_time (off t : Z) (o : OrderInfo) : OrderInfo :=
  mkOrder (pop_time o) (invisible_time o) (offset_list o)
    (<[off := t]> (offset_next_visible_time o)) (offset_consumed_count o) (last_consume_time o)
    (commit_offset_bit o) (attempt_id o).

(** How many messages from index [i] on are acknowledged in a row. *)
Fixpoint acked_from (n i : nat) (o : OrderInfo) : nat :=
  match n with
  | O => 0
  | S n' => if is_not_ack i o then 0 else S (acked_from n' (S i) o)
  end.
Definition get_next_offset (o : OrderInfo) : outcome Z :=
  match offset_list o with
  | [] => Done (-2)
  | l =>
      let i := acked_from (length l) 0 o in
      if (i =? length l)%nat
      then let* off := get_queue_offset (length l - 1) o in Done (as_i64 (as_i64 off + 1))
      else let* off := get_queue_offset i o in Done (as_i64 off)
  end.

Fixpoint collect_offsets (idx : list nat) (l : list Z) : outcome (list Z) :=
  match idx with
  | [] => Done []
  | i :: idx' =>
      let* x := get_queue_offset_from_list l i in
      let* xs := collect_offsets idx' l in Done (x :: xs)
  end.

Definition merge_offset_consumed_count (pre_attempt_id : string) (pre_offset_list : list Z)
    (prev_offset_consumed_count : gmap Z Z) (o : OrderInfo) : outcome OrderInfo :=
  let set_counts c :=
    mkOrder (pop_time o) (invisible_time o) (offset_list o) (offset_next_visible_time o) c
      (last_consume_time o) (commit_offset_bit o) (attempt_id o) in
  if decide (pre_attempt_id = attempt_id o) then Done (set_counts prev_offset_consumed_count)
  else
    let* pre := collect_offsets (seq 0 (length pre_offset_list)) pre_offset_list in
    let* offs := collect_offsets (seq 0 (length (offset_list o))) (offset_list o) in
    Done (set_counts
      (foldl (λ c off,
         if decide (off ∈ pre)
         then <[off := as_i32 (1 + default 0 (prev_offset_consumed_count !! off))]> c else c)
         ∅ offs)).

(** ** The manager *)

Abbreviation order_table := (gmap string (gmap Z OrderInfo)).

Definition update_next_visible_time (topic group : string) (queue_id off pop t : Z)
    (table : order_table) : outcome order_table :=
  match table !! topic_at_group topic group with
  | None => Done table
  | Some qs =>
      match qs !! queue_id with
      | None => Done table
      | Some o => if decide (pop = pop_time o) then Panic else Done table
      end
  end.

Section Clean.
(** The topic table of the broker (the number of read queues of a topic) and
    its subscription groups. *)
Variable topic_read_queue_nums : string → option Z.
Variable group_exists : string → bool.

(** The entry that remains of a key's queues, if any. *)
Definition clean_queues (key : string) (qs : gmap Z OrderInfo) : option (gmap Z OrderInfo) :=
  match split_key key with
  | None => Some qs
  | Some (t, g) =>
      match topic_read_queue_nums t with
      | None => None
      | Some n =>
          if negb (group_exists g) then None
          else
            let qs := filter (λ kv, kv.1 ≠ as_i32 n) qs in
            if bool_decide (qs = ∅) then None else Some qs
      end
  end.
Definition auto_clean (table : order_table) : order_table := map_imap clean_queues table.
End Clean.

(** ** Offsets *)

(** The offset at each index of a batch. *)
Definition batch_of (l : list Z) (o : OrderInfo) : Prop :=
  Forall (in_u 64) l ∧ build_offset_list l = Done (offset_list o).

Lemma build_offset_list_ok (l : list Z) : l ≠ [] → ∃ l', build_offset_list l = Done l'.
Proof. destruct l as [| x [| y l]]; eauto; done. Qed.

Lemma as_u64_sub_add (a b : Z) : in_u 64 b → as_u64 (a + as_u64 (b - a)) = b.
Proof.
  intros Hb. unfold as_u64, wrap_u. rewrite Zplus_mod_idemp_r.
  replace (a + (b - a)) with b by lia. apply Z.mod_small. in_range.
Qed.

Lemma list_offset_at (l l' : list Z) (i : nat) (x : Z) :
  Forall (in_u 64) l → build_offset_list l = Done l' → l !! i = Some x →
  get_queue_offset_from_list l' i = Done x.
Proof.
  intros Hl Hb Hx. pose proof (proj1 (Forall_lookup _ _) Hl i x Hx) as Hin.
  destruct l as [| first [| y l]]; [done | |]; cbn in Hb.
  - injection Hb as <-. destruct i as [| i]; cbn in *; by simplify_eq.
  - apply done_inj in Hb. subst l'. destruct i as [| i]; [cbn in *; by simplify_eq |].
    change (get_queue_offset_from_list _ _) with
      (let* d := unwrap (((λ item, as_u64 (item - first)) <$> (y :: l)) !! i) in
       Done (as_u64 (first + d))).
    change ((y :: l) !! i = Some x) in Hx.
    rewrite list_lookup_fmap, Hx. cbn. by rewrite as_u64_sub_add.
Qed.

Lemma offset_at (l : list Z) (o : OrderInfo) (i : nat) (x : Z) :
  batch_of l o → l !! i = Some x → get_queue_offset i o = Done x.
Proof. intros [Hl Hb] Hx. by eapply list_offset_at. Qed.

Lemma build_length (l l' : list Z) : build_offset_list l = Done l' → length l' = length l.
Proof.
  destruct l as [| x [| y l]]; cbn; intros H; [done | |]; apply done_inj in H; subst; cbn;
    by rewrite ?length_fmap.
Qed.

(** ** Acknowledgements *)

Lemma is_not_ack_bit (i : nat) (o : OrderInfo) :
  (i < 64)%nat → is_not_ack i o = negb (Z.testbit (commit_offset_bit o) (Z.of_nat i)).
Proof.
  intros Hi. unfold is_not_ack. rewrite (proj2 (Nat.leb_gt _ _)) by lia.
  rewrite Z.shiftl_1_l. destruct (Z.testbit (commit_offset_bit o) (Z.of_nat i)) eqn:E; cbn.
  - apply Z.eqb_neq. intros H. apply (f_equal (λ z, Z.testbit z (Z.of_nat i))) in H.
    rewrite Z.land_spec, E, Z.pow2_bits_true, Z.bits_0 in H by lia. done.
  - apply Z.eqb_eq. apply Z.bits_inj'. intros n Hn.
    rewrite Z.land_spec, Z.bits_0, Z.pow2_bits_eqb by lia.
    destruct (Z.eqb_spec (Z.of_nat i) n) as [<- |]; [by rewrite E | by rewrite andb_false_r].
Qed.

Lemma acked_from_spec (n i : nat) (o : OrderInfo) :
  let k := acked_from n i o in
  (k ≤ n)%nat ∧ (∀ j, (i ≤ j < i + k)%nat → is_not_ack j o = false) ∧
  ((k < n)%nat → is_not_ack (i + k) o = true).
Proof.
  revert i. induction n as [| n IH]; intros i; cbn; [split; [lia |]; split; lia |].
  destruct (is_not_ack i o) eqn:E.
  - split; [lia |]. split; [lia |]. intros _. by rewrite Nat.add_0_r.
  - destruct (IH (S i)) as (Hk & Hall & Hnext). split; [lia |]. split.
    + intros j Hj. destruct (decide (j = i)) as [-> |]; [done |]. apply Hall. lia.
    + intros Hlt. rewrite <- Nat.add_succ_comm. apply Hnext. lia.
Qed.

(** The next offset to consume from a batch of at most 64 messages: the first
    message that is not acknowledged, or the one after the last. *)
Definition acked (i : nat) (o : OrderInfo) : Prop :=
  Z.testbit (commit_offset_bit o) (Z.of_nat i) = true.

Lemma get_next_offset_all (l : list Z) (o : OrderInfo) (x : Z) :
  batch_of l o → last l = Some x → acked_from (length l) 0 o = length l →
  get_next_offset o = Done (as_i64 (as_i64 x + 1)).
Proof.
  intros Hb Hx Hk. pose proof (build_length _ _ (proj2 Hb)) as Hlen.
  unfold get_next_offset. destruct (offset_list o) as [| z lo] eqn:E.
  { destruct l; [done |]. cbn in Hlen. lia. }
  rewrite Hlen, Hk, Nat.eqb_refl.
  rewrite last_lookup in Hx. replace (pred (length l)) with (length l - 1)%nat in Hx by lia.
  by rewrite (offset_at l o _ x Hb Hx).
Qed.

Lemma get_next_offset_some (l : list Z) (o : OrderInfo) (i : nat) (x : Z) :
  batch_of l o → l !! i = Some x → acked_from (length l) 0 o = i →
  get_next_offset o = Done (as_i64 x).
Proof.
  intros Hb Hx Hk. pose proof (build_length _ _ (proj2 Hb)) as Hlen.
  pose proof (lookup_lt_Some _ _ _ Hx).
  unfold get_next_offset. destruct (offset_list o) as [| z lo] eqn:E; [cbn in Hlen; lia |].
  rewrite Hlen, Hk, (proj2 (Nat.eqb_neq _ _)) by lia.
  by rewrite (offset_at l o _ x Hb Hx).
Qed.

(** The next offset of a batch of at most 64 messages: that of the first
    message not acknowledged, and the one after the last message when all are
    (the bit word has no room for more messages). *)
Theorem next_offset_of_batch (l : list Z) (o : OrderInfo) (x : Z) :
  batch_of l o → last l = Some x → (length l ≤ 64)%nat →
  (∃ i y, l !! i = Some y ∧ ¬ acked i o ∧ (∀ j, (j < i)%nat → acked j o) ∧
     get_next_offset o = Done (as_i64 y)) ∨
  ((∀ i, (i < length l)%nat → acked i o) ∧ get_next_offset o = Done (as_i64 (as_i64 x + 1))).
Proof.
  intros Hb Hx Hlen. destruct (acked_from_spec (length l) 0 o) as (Hk & Hall & Hnext).
  set (k := acked_from (length l) 0 o) in *.
  assert (Hack : ∀ j, (j < k)%nat → acked j o).
  { intros j Hj. specialize (Hall j ltac:(lia)). rewrite is_not_ack_bit in Hall by lia.
    unfold acked. by destruct (Z.testbit _ _). }
  destruct (decide (k = length l)) as [Heq | Hne].
  - right. split; [by rewrite <- Heq |]. by apply (get_next_offset_all l).
  - left. destruct (lookup_lt_is_Some_2 l k) as [y Hy]; [lia |].
    exists k, y. split; [done |]. split; [| split; [done |]].
    + specialize (Hnext ltac:(lia)). cbn in Hnext. rewrite is_not_ack_bit in Hnext by lia.
      unfold acked. by destruct (Z.testbit _ _).
    + by apply (get_next_offset_some l o k).
Qed.

Definition order0 : OrderInfo := mkOrder 1000 (Some 500) [70; 1; 3] {[71 := 9000]} ∅ 0 1 "a".

Lemma next_offset_of_batch_witness :
  (∃ i y, [70; 71; 73] !! i = Some y ∧ ¬ acked i order0 ∧ (∀ j, (j < i)%nat → acked j order0) ∧
     get_next_offset order0 = Done (as_i64 y)) ∨
  ((∀ i, (i < length [70; 71; 73])%nat → acked i order0) ∧
   get_next_offset order0 = Done (as_i64 (as_i64 73 + 1))).
Proof.
  apply (next_offset_of_batch [70; 71; 73]); [| reflexivity | cbn; lia].
  split; [repeat constructor; vm_compute; congruence | reflexivity].
Defined.

(** ** Blocking *)

(** When message [x] at index [i] becomes visible, with [inv] the invisible
    time in force. *)
Definition visible_at (o : OrderInfo) (inv x : Z) : Z :=
  default (as_u64 (pop_time o + inv)) (offset_next_visible_time o !! x).

Lemma block_loop_spec (l : list Z) (o : OrderInfo) (now : Z) (n i : nat) :
  batch_of l o → (i + n = length l)%nat →
  ∃ b, block_loop n i now o = Done b ∧
    (b = true ↔ ∃ j x, (i ≤ j)%nat ∧ l !! j = Some x ∧ is_not_ack j o = true ∧
       now < visible_at o (default 0 (invisible_time o)) x).
Proof.
  intros Hb. revert i. induction n as [| n IH]; intros i Hi; cbn [block_loop].
  - exists false. split; [done |]. split; [done |]. intros (j & x & Hj & Hx & _).
    apply lookup_lt_Some in Hx. lia.
  - destruct (IH (S i) ltac:(lia)) as (b & Hrun & Hiff).
    destruct (lookup_lt_is_Some_2 l i) as [y Hy]; [lia |].
    destruct (is_not_ack i o) eqn:Ea.
    + unfold next_visible. rewrite (offset_at l o i y Hb Hy). cbn [obind].
      fold (visible_at o (default 0 (invisible_time o)) y).
      destruct (Z.ltb_spec now (visible_at o (default 0 (invisible_time o)) y)) as [Hlt | Hge].
      * exists true. split; [done |]. split; [| done]. intros _. exists i, y. auto.
      * exists b. split; [done |]. rewrite Hiff. split; intros (j & x & Hj & Hx & Hr).
        -- exists j, x. split; [lia | auto].
        -- exists j, x. split; [| auto]. destruct (decide (j = i)) as [-> |]; [| lia].
           simplify_eq. lia.
    + exists b. split; [done |]. rewrite Hiff. split; intros (j & x & Hj & Hx & Hn & Hr).
      * exists j, x. split; [lia | auto].
      * exists j, x. split; [| auto]. destruct (decide (j = i)) as [-> |]; [congruence | lia].
Qed.

(** The invisible time in force after [need_block] with the consumer's. *)
Definition invisible_of (o : OrderInfo) (current : Z) : Z :=
  if no_invisible_time o then current else default 0 (invisible_time o).

(** A consumer is blocked by the popped batch exactly when it is another
    attempt and some message of the batch is neither acknowledged nor visible
    again at the time of the call; the call always returns. *)
Theorem need_block_spec (l : list Z) (o : OrderInfo) (attempt : string) (current now : Z) :
  batch_of l o →
  ∃ o' b, need_block attempt current now o = Done (o', b) ∧
    (b = true ↔ attempt_id o ≠ attempt ∧
       ∃ i x, l !! i = Some x ∧ is_not_ack i o = true ∧
         now < visible_at o (invisible_of o current) x).
Proof.
  intros Hb. pose proof (build_length _ _ (proj2 Hb)) as Hlen.
  unfold need_block. destruct (offset_list o) as [| z lo] eqn:E.
  { exists o, false. split; [done |]. split; [done |]. intros (_ & i & x & Hx & _).
    apply lookup_lt_Some in Hx. cbn in Hlen. lia. }
  case_decide as Ha.
  { exists o, false. split; [done |]. split; [done |]. by intros []. }
  match goal with |- context [block_loop _ _ _ ?o''] => set (o1 := o'') end.
  assert (Hb1 : batch_of l o1).
  { destruct Hb as [Hf Hl]. split; [done |]. rewrite Hl. subst o1.
    destruct (no_invisible_time o); cbn; congruence. }
  destruct (block_loop_spec l o1 now (length (offset_list o1)) 0 Hb1) as (b & Hrun & Hiff).
  { cbn. by apply build_length, Hb1. }
  rewrite Hrun. exists o1, b. split; [done |]. rewrite Hiff.
  assert (Hvis : ∀ x, visible_at o1 (default 0 (invisible_time o1)) x =
                      visible_at o (invisible_of o current) x).
  { intros x. unfold visible_at, invisible_of. subst o1. by destruct (no_invisible_time o). }
  assert (Hna : ∀ i, is_not_ack i o1 = is_not_ack i o).
  { intros i. subst o1. by destruct (no_invisible_time o). }
  split.
  - intros (j & x & _ & Hx & Hn & Hlt). split; [done |]. exists j, x.
    rewrite <- Hna, <- Hvis. auto.
  - intros (_ & j & x & Hx & Hn & Hlt). exists j, x. rewrite Hna, Hvis. split; [lia | auto].
Qed.

Lemma need_block_spec_witness :
  ∃ o' b, need_block "b" 100 1200 order0 = Done (o', b) ∧
    (b = true ↔ attempt_id order0 ≠ "b" ∧
       ∃ i x, [70; 71; 73] !! i = Some x ∧ is_not_ack i order0 = true ∧
         1200 < visible_at order0 (invisible_of order0 100) x).
Proof.
  apply need_block_spec. split; [repeat constructor; vm_compute; congruence | reflexivity].
Defined.

(** ** Consumption counts *)

Lemma collect_offsets_drop (l l' : list Z) (n i : nat) :
  Forall (in_u 64) l → build_offset_list l = Done l' → (i + n = length l)%nat →
  collect_offsets (seq i n) l' = Done (drop i l).
Proof.
  intros Hl Hb. revert i. induction n as [| n IH]; intros i Hi; cbn [seq collect_offsets].
  - by rewrite drop_ge by lia.
  - destruct (lookup_lt_is_Some_2 l i) as [x Hx]; [lia |].
    rewrite (list_offset_at l l' i x Hl Hb Hx), (IH (S i)) by lia. cbn.
    by rewrite (drop_S l x i Hx).
Qed.

Lemma collect_offsets_all (l l' : list Z) :
  Forall (in_u 64) l → build_offset_list l = Done l' →
  collect_offsets (seq 0 (length l')) l' = Done l.
Proof.
  intros Hl Hb. rewrite (build_length _ _ Hb).
  by rewrite (collect_offsets_drop l l' (length l) 0).
Qed.

Lemma count_fold (pre : list Z) (prev : gmap Z Z) (offs : list Z) (c : gmap Z Z) (x : Z) :
  foldl (λ c off,
     if decide (off ∈ pre) then <[off := as_i32 (1 + default 0 (prev !! off))]> c else c)
     c offs !! x =
  if decide (x ∈ offs ∧ x ∈ pre) then Some (as_i32 (1 + default 0 (prev !! x))) else c !! x.
Proof.
  revert c. induction offs as [| y offs IH]; intros c; cbn.
  - destruct (decide _) as [[H _] |]; [by apply elem_of_nil in H | done].
  - rewrite IH. destruct (decide (x ∈ offs ∧ x ∈ pre)) as [[H1 H2] | Hn].
    + rewrite decide_True; [done |]. split; [by right | done].
    + destruct (decide (x = y)) as [-> | Hxy].
      * destruct (decide (y ∈ pre)).
        -- rewrite lookup_insert_eq, decide_True; [done |]. split; [by left | done].
        -- rewrite decide_False; [done |]. tauto.
      * rewrite (decide_False (P := x ∈ y :: offs ∧ _)) by (rewrite elem_of_cons; tauto).
        destruct (decide (y ∈ pre)); [by rewrite lookup_insert_ne | done].
Qed.

(** A message is counted as consumed again exactly when both the previous
    batch and this one hold it, one more than before. *)
Theorem merge_counts_redelivered (pre l lp : list Z) (o : OrderInfo) (prev : gmap Z Z)
    (attempt : string) :
  Forall (in_u 64) pre → build_offset_list pre = Done lp → batch_of l o → attempt ≠ attempt_id o →
  ∃ o', merge_offset_consumed_count attempt lp prev o = Done o' ∧
    ∀ x, offset_consumed_count o' !! x =
      if decide (x ∈ l ∧ x ∈ pre) then Some (as_i32 (1 + default 0 (prev !! x))) else None.
Proof.
  intros Hp Hlp [Hl Hb] Ha. unfold merge_offset_consumed_count. rewrite decide_False by done.
  rewrite (collect_offsets_all pre lp) by done. cbn [obind].
  rewrite (collect_offsets_all l (offset_list o)) by done. cbn [obind].
  eexists. split; [done |]. intros x. cbn [offset_consumed_count].
  by rewrite count_fold, lookup_empty.
Qed.

Lemma merge_counts_redelivered_witness :
  ∃ o', merge_offset_consumed_count "z" [71; 2; 4] {[73 := 6]} order0 = Done o' ∧
    ∀ x, offset_consumed_count o' !! x =
      if decide (x ∈ [70; 71; 73] ∧ x ∈ [71; 73; 75])
      then Some (as_i32 (1 + default 0 (({[73 := 6]} : gmap Z Z) !! x))) else None.
Proof.
  apply merge_counts_redelivered; [| reflexivity | | done].
  - repeat constructor; vm_compute; congruence.
  - split; [repeat constructor; vm_compute; congruence | reflexivity].
Defined.
