(* ===== verification/DispatchRequest.v ===== *)
(** * DispatchRequest: what the commit log tells its consumers about a message
    ([dispatch_request.rs])

    The fields the consume queues, the index and the reput service read; the
    bit map of the filter, the next reput offset and the offset id keep their
    defaults in all the modelled code and are left out. *)

From stdpp Require Import base gmap strings.
From Stdlib Require Import ZArith.
Open Scope Z_scope.

Record DispatchRequest := mkRequest {
  dr_topic : string;
  dr_queue_id : Z;
  dr_commit_log_offset : Z;
  dr_msg_size : Z;
  dr_tags_code : Z;
  dr_store_timestamp : Z;
  dr_consume_queue_offset : Z;
  dr_keys : string;
  dr_success : bool;
  dr_uniq_key : option string;
  dr_sys_flag : Z;
  dr_prepared_transaction_offset : Z;
  dr_properties_map : option (gmap string string);
  dr_buffer_size : Z;
  dr_msg_base_offset : Z;
  dr_batch_size : Z;
}.

Definition default_request : DispatchRequest :=
  mkRequest "" 0 0 0 0 0 0 "" false None 0 0 None (-1) (-1) 1.

(** [DispatchRequest { msg_size, success, ..Default::default() }] *)
Definition sized_request (msg_size : Z) (success : bool) : DispatchRequest :=
  mkRequest "" 0 0 msg_size 0 0 0 "" success None 0 0 None (-1) (-1) 1.

Definition set_batch (base num : Z) (r : DispatchRequest) : DispatchRequest :=
  mkRequest (dr_topic r) (dr_queue_id r) (dr_commit_log_offset r) (dr_msg_size r)
    (dr_tags_code r) (dr_store_timestamp r) (dr_consume_queue_offset r) (dr_keys r)
    (dr_success r) (dr_uniq_key r) (dr_sys_flag r) (dr_prepared_transaction_offset r)
    (dr_properties_map r) (dr_buffer_size r) base num.
Definition set_properties_map (m : gmap string string) (r : DispatchRequest) : DispatchRequest :=
  mkRequest (dr_topic r) (dr_queue_id r) (dr_commit_log_offset r) (dr_msg_size r)
    (dr_tags_code r) (dr_store_timestamp r) (dr_consume_queue_offset r) (dr_keys r)
    (dr_success r) (dr_uniq_key r) (dr_sys_flag r) (dr_prepared_transaction_offset r)
    (Some m) (dr_buffer_size r) (dr_msg_base_offset r) (dr_batch_size r).

(** A plain request, as the examples use it. *)
Definition plain_request (topic : string) (offset size tags ts cq_offset : Z) (keys : string)
    (uniq : option string) (sysf : Z) : DispatchRequest :=
  mkRequest topic 0 offset size tags ts cq_offset keys true uniq sysf 0 None (-1) (-1) 1.
