(* ===== verification/ConsumeQueue.v ===== *)
(** * ConsumeQueue: the index of one topic queue ([single_consume_queue.rs])

    A consume queue is a mapped file queue of 20-byte units, one per message:
    the message's offset in the commit log, its size and its tag hash.  Unit
    number [n] of the queue is at byte [20 * n].  The extension file
    ([consume_queue_ext.rs]) is present or not; its truncations and its
    recovery do nothing and its reads and writes are unimplemented.  As in
    MappedFileQueue, a file is its index and the results of file system calls
    are arguments. *)

From stdpp Require Import base list strings.
From coqutil Require Import Byte.
From Stdlib Require Import ZArith Lia.
From S2P Require Import Prelude Bytes FileName ReferenceResource RunningFlags MappedFile MappedFileQueue DispatchRequest.
Open Scope Z_scope.
Open Scope rmq_scope.

Definition CQ_STORE_UNIT_SIZE : Z := 20.

Record ConsumeQueue := mkCQ {
  cq_queue : MappedFileQueue;
  cq_topic : string;
  cq_queue_id : Z;
  cq_file_size : Z;
  max_physic_offset : Z;
  min_logic_offset : Z;
  consume_queue_ext : option MappedFileQueue;
}.

Definition set_cq_queue q c :=
  mkCQ q (cq_topic c) (cq_queue_id c) (cq_file_size c) (max_physic_offset c) (min_logic_offset c)
    (consume_queue_ext c).
Definition set_max_physic_offset o c :=
  mkCQ (cq_queue c) (cq_topic c) (cq_queue_id c) (cq_file_size c) o (min_logic_offset c)
    (consume_queue_ext c).
Definition set_min_logic_offset o c :=
  mkCQ (cq_queue c) (cq_topic c) (cq_queue_id c) (cq_file_size c) (max_physic_offset c) o
    (consume_queue_ext c).
Definition set_consume_queue_ext e c :=
  mkCQ (cq_queue c) (cq_topic c) (cq_queue_id c) (cq_file_size c) (max_physic_offset c)
    (min_logic_offset c) e.
(** Replaces file [i] of the queue. *)
Definition set_file (i : nat) (m : DefaultMappedFile) (c : ConsumeQueue) : ConsumeQueue :=
  set_cq_queue (set_mapped_files (<[i := m]> (mapped_files (cq_queue c))) (cq_queue c)) c.

(** [queue_dir] and [ext_dir] are the paths the source joins. *)
Definition new_consume_queue (queue_dir : string) (ext : option (string * Z)) (topic : string)
    (queue_id size : Z) : ConsumeQueue :=
  mkCQ (new_queue queue_dir (as_u64 size) false) topic queue_id size (-1) 0
    ((λ '(dir, sz), new_queue dir (as_u64 (as_i32 sz)) false) <$> ext).

Definition get_min_offset_in_queue (c : ConsumeQueue) : Z :=
  rdiv (min_logic_offset c) CQ_STORE_UNIT_SIZE.
Definition get_max_offset_in_queue (c : ConsumeQueue) : Z :=
  rdiv (get_max_offset (cq_queue c)) CQ_STORE_UNIT_SIZE.

(** ** Units *)

Record unit_data := mkUnit { u_offset : Z; u_size : Z; u_tags : Z }.
#[export] Instance unit_data_eq_dec : EqDecision unit_data.
Proof. solve_decision. Defined.

Definition unit_bytes (u : unit_data) : buffer :=
  put_i64 (u_offset u) ++ put_i32 (u_size u) ++ put_i64 (u_tags u).
Definition read_unit (b : buffer) : outcome unit_data :=
  let* (offset, b) := get_i64 b in
  let* (size, b) := get_i32 b in
  let* (tags_code, _) := get_i64 b in
  Done (mkUnit offset size tags_code).

(** An address of the extension file is a tag code at or below this. *)
Definition MAX_ADDR : Z := i32_MIN - 1.
Definition is_ext_addr (address : Z) : bool := address <=? MAX_ADDR.

(** ** Appending *)

Definition blank_unit : unit_data := mkUnit 0 i32_MAX 0.

Fixpoint append_blanks (n : nat) (m : DefaultMappedFile) : DefaultMappedFile :=
  match n with
  | O => m
  | S n' => append_blanks n' (append_message_bytes (unit_bytes blank_unit) m).1
  end.

Definition fill_pre_blank (size : Z) (m : DefaultMappedFile) (until_where : Z)
  : outcome DefaultMappedFile :=
  if as_i64 size =? 0 then Panic
  else
    let until := rdiv (as_i32 (rrem until_where (as_i64 size))) CQ_STORE_UNIT_SIZE in
    Done (append_blanks (Z.to_nat until) m).

(** The end of [put_message_position_info]: the unit goes to file [i], unless
    the queue is already past it. *)
Definition append_unit (i : nat) (offset sz tags_code cq_offset : Z) (c : ConsumeQueue)
  : outcome (ConsumeQueue * bool) :=
  let expect_logic_offset := as_i64 (cq_offset * CQ_STORE_UNIT_SIZE) in
  let* m := unwrap (mapped_files (cq_queue c) !! i) in
  let current_logic_offset := as_i64 (wrote_position m + as_i64 (file_from_offset m)) in
  if negb (cq_offset =? 0) && (expect_logic_offset <? current_logic_offset)
  then Done (c, true)
  else
    let c := set_max_physic_offset (as_i64 (offset + sz)) c in
    let '(m, ok) := append_message_bytes (unit_bytes (mkUnit offset sz tags_code)) m in
    Done (set_file i m c, ok).

Definition put_message_position_info (existing : buffer) (offset sz tags_code cq_offset : Z)
    (c : ConsumeQueue) : outcome (ConsumeQueue * bool) :=
  if as_i64 (offset + sz) <=? max_physic_offset c then Done (c, true)
  else
    let expect_logic_offset := as_i64 (cq_offset * CQ_STORE_UNIT_SIZE) in
    let* (q, found) :=
      get_last_mapped_file_mut_start_offset existing (as_u64 expect_logic_offset) true
        (cq_queue c) in
    let c := set_cq_queue q c in
    match found with
    | None => Done (c, false)
    | Some i =>
        let* m := unwrap (mapped_files (cq_queue c) !! i) in
        let* c :=
          if first_create_in_queue m && negb (cq_offset =? 0) && (wrote_position m =? 0) then
            let c := set_min_logic_offset expect_logic_offset c in
            let c := set_cq_queue
              (set_committed_where expect_logic_offset
                 (set_flushed_where expect_logic_offset (cq_queue c))) c in
            let* m := fill_pre_blank (mapped_file_size (cq_queue c)) m expect_logic_offset in
            Done (set_file i m c)
          else Done c in
        append_unit i offset sz tags_code cq_offset c
    end.

(** What the queue uses of the store that owns it. *)
Record cq_store := mkCqStore {
  running_flags : Z;
  logics_msg_timestamp : Z;
  enable_consume_queue_ext : bool;
  slave_or_dledger : bool;
}.

Definition is_ext_write_enable (s : cq_store) (c : ConsumeQueue) : bool :=
  match consume_queue_ext c with Some _ => enable_consume_queue_ext s | None => false end.

(** The retries: [existing] is what a file created on attempt [i] holds. *)
Fixpoint put_retries (n i : nat) (existing : nat → buffer) (r : DispatchRequest)
    (s : cq_store) (c : ConsumeQueue) : outcome (cq_store * ConsumeQueue) :=
  match n with
  | O =>
      Done (mkCqStore (make_logics_queue_error (running_flags s)) (logics_msg_timestamp s)
              (enable_consume_queue_ext s) (slave_or_dledger s), c)
  | S n' =>
      if is_ext_write_enable s c then Panic
      else
        let* (c, ok) :=
          put_message_position_info (existing i) (dr_commit_log_offset r) (dr_msg_size r)
            (dr_tags_code r) (dr_consume_queue_offset r) c in
        if ok then
          if slave_or_dledger s then Panic
          else Done (mkCqStore (running_flags s) (as_u64 (dr_store_timestamp r))
                       (enable_consume_queue_ext s) (slave_or_dledger s), c)
        else put_retries n' (S i) existing r s c
  end.
Definition put_message_position_info_wrapper (existing : nat → buffer) (r : DispatchRequest)
    (s : cq_store) (c : ConsumeQueue) : outcome (cq_store * ConsumeQueue) :=
  let can_write := is_cq_writeable (running_flags s) in
  put_retries (if can_write then 30%nat else 0%nat) 0 existing r s c.

(** ** Reading *)

(** The result with the file it is in, which it keeps held. *)
Definition get_index_buffer (start_index : Z) (c : ConsumeQueue)
  : outcome (ConsumeQueue * option (nat * SelectMappedBufferResult)) :=
  let offset := as_i64 (start_index * CQ_STORE_UNIT_SIZE) in
  if min_logic_offset c <=? offset then
    let* found := find_mapped_file_by_offset offset false (cq_queue c) in
    match found with
    | None => Done (c, None)
    | Some i =>
        let* m := unwrap (mapped_files (cq_queue c) !! i) in
        if cq_file_size c =? 0 then Panic
        else
          let '(m, r) := select_mapped_buffer_with_position
                           (as_i32 (rrem offset (cq_file_size c))) m in
          Done (set_file i m c, (λ r, (i, r)) <$> r)
    end
  else Done (c, None).

Record CqUnit := mkCqUnit {
  cu_queue_offset : Z;
  cu_size : Z;
  cu_pos : Z;
  cu_tags_code : Z;
}.

Record ConsumeQueueIterator := mkIter {
  smbr : option (nat * SelectMappedBufferResult);
  counter : Z;
}.

Definition iterate_from (start_index : Z) (c : ConsumeQueue)
  : outcome (ConsumeQueue * option ConsumeQueueIterator) :=
  let* (c, b) := get_index_buffer start_index c in
  match b with
  | None => Done (c, None)
  | Some value => Done (c, Some (mkIter (Some value) 0))
  end.

(** [next] indexes the mapped memory with the start offset of the result. *)
Definition iter_next (c : ConsumeQueue) (it : ConsumeQueueIterator)
  : outcome (ConsumeQueueIterator * option CqUnit) :=
  match smbr it with
  | None => Done (it, None)
  | Some (i, value) =>
      if size value <=? as_i32 (counter it * CQ_STORE_UNIT_SIZE) then Done (it, None)
      else
        let* m := unwrap (mapped_files (cq_queue c) !! i) in
        let mmp := mmapped_file m in
        let start := as_usize (as_usize (start_offset value)
                       + as_usize (as_i32 (counter it * CQ_STORE_UNIT_SIZE))) in
        let it := mkIter (smbr it) (as_i32 (counter it + 1)) in
        let end_ := as_usize (start + CQ_STORE_UNIT_SIZE) in
        if negb ((start <=? end_) && (end_ <=? Z.of_nat (length mmp))) then Panic
        else
          let* u := read_unit (slice mmp (Z.to_nat start) (Z.to_nat end_)) in
          let unit := mkCqUnit (rdiv (as_i64 start) CQ_STORE_UNIT_SIZE) (u_size u) (u_offset u)
                        (u_tags u) in
          if is_ext_addr (cu_tags_code unit) && bool_decide (is_Some (consume_queue_ext c))
          then Panic
          else Done (it, Some unit)
  end.

Definition iter_release (c : ConsumeQueue) (it : ConsumeQueueIterator)
  : outcome (ConsumeQueue * ConsumeQueueIterator) :=
  match smbr it with
  | None => Done (c, it)
  | Some (i, value) =>
      let* m := unwrap (mapped_files (cq_queue c) !! i) in
      Done (set_file i (mf_release m) c, it)
  end.

(** ** Loading and recovery *)

Definition cq_load (dir ext_dir : option (list (option dir_entry))) (c : ConsumeQueue)
  : outcome (ConsumeQueue * bool) :=
  let* (q, _, result) := load dir (cq_queue c) in
  let c := set_cq_queue q c in
  match consume_queue_ext c with
  | None => Done (c, result)
  | Some e =>
      let* (e, _, r) := load ext_dir e in
      Done (set_consume_queue_ext (Some e) c, result && r)
  end.

(** The units of one file: the end of the valid ones and the end, in the
    commit log, of the last one's message. *)
Fixpoint recover_file (n index : nat) (m : DefaultMappedFile) (file_offset maxp : Z)
  : outcome (Z * Z) :=
  match n with
  | O => Done (file_offset, maxp)
  | S n' =>
      let pos := Z.of_nat index * CQ_STORE_UNIT_SIZE in
      match mf_get_bytes pos CQ_STORE_UNIT_SIZE m with
      | None => Done (file_offset, maxp)
      | Some b =>
          let* u := read_unit b in
          if (0 <=? u_offset u) && (0 <? u_size u)
          then recover_file n' (S index) m (pos + CQ_STORE_UNIT_SIZE)
                 (as_i64 (u_offset u + u_size u))
          else Done (file_offset, maxp)
      end
  end.

(** The files from [m] on: the end of the valid units in the queue. *)
Fixpoint recover_files (fsz : Z) (m : DefaultMappedFile) (rest : list DefaultMappedFile)
    (maxp : Z) : outcome (Z * Z) :=
  let* (file_offset, maxp) :=
    recover_file (Z.to_nat (rdiv fsz CQ_STORE_UNIT_SIZE)) 0 m 0 maxp in
  let process_offset := as_u64 (file_from_offset m + as_u64 file_offset) in
  if file_offset =? fsz then
    match rest with
    | [] => Done (process_offset, maxp)
    | m' :: rest' => recover_files fsz m' rest' maxp
    end
  else Done (process_offset, maxp).

Definition recover (disk : nat → bool * Z) (c : ConsumeQueue) : outcome ConsumeQueue :=
  let ms := mapped_files (cq_queue c) in
  match drop (length ms - 3) ms with
  | [] => Done c
  | m :: rest =>
      let* (process_offset, maxp) := recover_files (cq_file_size c) m rest (max_physic_offset c) in
      let q := set_committed_where (as_i64 process_offset)
                 (set_flushed_where (as_i64 process_offset) (cq_queue c)) in
      Done (set_cq_queue (truncate_dirty_files disk (as_i64 process_offset) q)
              (set_max_physic_offset maxp c))
  end.

(** ** Truncation *)

Definition set_positions (pos : Z) (m : DefaultMappedFile) : DefaultMappedFile :=
  set_flushed_position pos (set_committed_position pos (set_wrote_position pos m)).

(** How the loop over the units of one file ends: past its last unit, at a
    first unit to drop, or with a return. *)
Inductive scan_end := ScanOver | ScanDelete | ScanReturn.

Fixpoint truncate_scan (n index : nat) (fsz phy_offset : Z) (m : DefaultMappedFile) (maxp : Z)
  : outcome (DefaultMappedFile * Z * scan_end) :=
  match n with
  | O => Done (m, maxp, ScanOver)
  | S n' =>
      let at_ := Z.of_nat index * CQ_STORE_UNIT_SIZE in
      match mf_get_bytes at_ CQ_STORE_UNIT_SIZE m with
      | None => Done (m, maxp, ScanOver)
      | Some b =>
          let* u := read_unit b in
          let pos := at_ + CQ_STORE_UNIT_SIZE in
          let m' := set_positions pos m in
          let maxp' := as_i64 (u_offset u + u_size u) in
          match index with
          | O =>
              if phy_offset <=? u_offset u then Done (m, maxp, ScanDelete)
              else truncate_scan n' (S index) fsz phy_offset m' maxp'
          | _ =>
              if (0 <=? u_offset u) && (0 <? u_size u) then
                if phy_offset <=? u_offset u then Done (m, maxp, ScanReturn)
                else if pos =? fsz then Done (m', maxp', ScanReturn)
                else truncate_scan n' (S index) fsz phy_offset m' maxp'
              else Done (m, maxp, ScanReturn)
          end
      end
  end.

(** The end of a loop that may run on, or block on a lock. *)
Inductive loop_end (A : Type) := Ended (a : A) | Deadlock | OutOfFuel.
Arguments Ended {A}. Arguments Deadlock {A}. Arguments OutOfFuel {A}.

(** [should_delete_file] is not reset between files. *)
Fixpoint truncate_loop (fuel : nat) (should_delete delete_file : bool) (disk : nat → bool * Z)
    (phy_offset : Z) (c : ConsumeQueue) : outcome (loop_end ConsumeQueue) :=
  match fuel with
  | O => Done OutOfFuel
  | S fuel' =>
      match get_last_mapped_file (cq_queue c) with
      | None => Done (Ended c)
      | Some i =>
          let* m := unwrap (mapped_files (cq_queue c) !! i) in
          let* (m, maxp, e) :=
            truncate_scan (Z.to_nat (rdiv (cq_file_size c) CQ_STORE_UNIT_SIZE)) 0 (cq_file_size c)
              phy_offset (set_positions 0 m) (max_physic_offset c) in
          let c := set_max_physic_offset maxp (set_file i m c) in
          let delete c :=
            if delete_file then
              truncate_loop fuel' true delete_file disk phy_offset
                (set_cq_queue (delete_last_mapped_file (disk i) (cq_queue c)).1 c)
            else
              match delete_expired_file [i] (cq_queue c) with
              | Returned q =>
                  truncate_loop fuel' true delete_file disk phy_offset (set_cq_queue q c)
              | Blocked => Done Deadlock
              end in
          match e with
          | ScanReturn => Done (Ended c)
          | ScanDelete => delete c
          | ScanOver =>
              if should_delete then delete c
              else truncate_loop fuel' false delete_file disk phy_offset c
          end
      end
  end.
Definition truncate_dirty_logic_files_handler (fuel : nat) (disk : nat → bool * Z)
    (phy_offset : Z) (delete_file : bool) (c : ConsumeQueue) : outcome (loop_end ConsumeQueue) :=
  truncate_loop fuel false delete_file disk phy_offset (set_max_physic_offset phy_offset c).
Definition truncate_dirty_logic_files (fuel : nat) (disk : nat → bool * Z)
    (max_commit_log_pos : Z) (c : ConsumeQueue) : outcome (loop_end ConsumeQueue) :=
  truncate_dirty_logic_files_handler fuel disk max_commit_log_pos true c.

Definition cq_destroy (disk ext_disk : nat → bool * Z) (c : ConsumeQueue) : ConsumeQueue :=
  let c := set_min_logic_offset 0 (set_max_physic_offset (-1) c) in
  let c := set_cq_queue (destroy_queue disk (cq_queue c)).1 c in
  match consume_queue_ext c with
  | None => c
  | Some e => set_consume_queue_ext (Some (destroy_queue ext_disk e).1) c
  end.

(** ** Correcting the minimum *)

Definition read_i64_at (pos : Z) (m : DefaultMappedFile) : outcome Z :=
  let* b := unwrap (mf_get_bytes pos 8 m) in
  let* (v, _) := get_i64 b in Done v.

(** The binary search for the first unit of a message at or above the minimum:
    the window it ends with. *)
Fixpoint search_window (fuel : nat) (low high min_commit : Z) (m : DefaultMappedFile)
  : outcome (loop_end (Z * Z)) :=
  match fuel with
  | O => Done OutOfFuel
  | S fuel' =>
      if high - low <=? CQ_STORE_UNIT_SIZE then Done (Ended (low, high))
      else
        let mid := rdiv (rdiv (low + high) 2) CQ_STORE_UNIT_SIZE * CQ_STORE_UNIT_SIZE in
        let* o := read_i64_at mid m in
        if min_commit <? o then search_window fuel' low mid min_commit m
        else if o =? min_commit then Done (Ended (mid, mid))
        else search_window fuel' mid high min_commit m
  end.

(** The scan of the window.  The window is at most 20 bytes wide, so the third
    round finds it exhausted. *)
Fixpoint scan_window (fuel : nat) (i high min_commit : Z) (m : DefaultMappedFile)
  : outcome (option Z) :=
  match fuel with
  | O => Done None
  | S fuel' =>
      if high <? i then Done None
      else
        let* o := read_i64_at i m in
        let* _ := read_i64_at (i + 12) m in
        if min_commit <=? o then Done (Some i)
        else scan_window fuel' (i + CQ_STORE_UNIT_SIZE) high min_commit m
  end.

(** Whether the last unit of the queue points below the minimum. *)
Definition all_below (min_commit : Z) (li : nat) (c : ConsumeQueue)
  : outcome (ConsumeQueue * bool) :=
  let* m := unwrap (mapped_files (cq_queue c) !! li) in
  let maxr := get_read_position m in
  let* (m, r) := select_mapped_buffer (as_i32 (maxr - CQ_STORE_UNIT_SIZE)) CQ_STORE_UNIT_SIZE m in
  let c := set_file li m c in
  match r with
  | None => Done (c, false)
  | Some r =>
      let* b := unwrap (mf_get_bytes (as_usize (start_offset r)) (as_usize (size r)) m) in
      let* (o, _) := get_i64 b in
      Done (c, o <? min_commit)
  end.

(** The search in the first file, from the present minimum on. *)
Definition correct_in_first (fuel : nat) (min_commit : Z) (c : ConsumeQueue)
  : outcome (loop_end ConsumeQueue) :=
  match get_first_mapped_file (cq_queue c) with
  | None => Done (Ended c)
  | Some fi =>
      let* m := unwrap (mapped_files (cq_queue c) !! fi) in
      let start0 := as_i64 (min_logic_offset c - as_i64 (file_from_offset m)) in
      let intact := 0 <=? start0 in
      let start := if intact then start0 else 0 in
      if as_i64 (file_size m) <? start then Done (Ended c)
      else
        let '(m, r) := select_mapped_buffer_with_position (as_i32 start) m in
        let c := set_file fi m c in
        match r with
        | None => Done (Ended c)
        | Some r =>
            if size r =? 0 then Done (Ended c)
            else
              let* o := read_i64_at (as_usize (start_offset r)) m in
              if intact && (min_commit <=? o) then Done (Ended c)
              else
                let* w := search_window fuel 0 (size r - CQ_STORE_UNIT_SIZE) min_commit m in
                match w with
                | Ended (low, high) =>
                    let* found := scan_window 3 low high min_commit m in
                    Done (Ended
                      match found with
                      | Some i =>
                          set_min_logic_offset
                            (as_i64 (as_i64 (file_from_offset m) + i + start)) c
                      | None => c
                      end)
                | Deadlock => Done Deadlock
                | OutOfFuel => Done OutOfFuel
                end
        end
  end.

Definition correct_min_offset (fuel : nat) (min_commit : Z) (c : ConsumeQueue)
  : outcome (loop_end ConsumeQueue) :=
  if get_max_offset (cq_queue c) <=? min_commit then Done (Ended c)
  else
    match get_last_mapped_file (cq_queue c) with
    | None => Done (Ended c)
    | Some li =>
        let* (c, below) := all_below min_commit li c in
        if below then
          let* m := unwrap (mapped_files (cq_queue c) !! li) in
          Done (Ended (set_min_logic_offset
                         (as_i64 (get_read_position m + as_i64 (file_from_offset m))) c))
        else correct_in_first fuel min_commit c
    end.

(** ** Units as bytes *)

Definition enc (us : list unit_data) : buffer := mjoin (unit_bytes <$> us).
Definition unit_ok (u : unit_data) : Prop :=
  in_s 64 (u_offset u) ∧ in_s 32 (u_size u) ∧ in_s 64 (u_tags u).

Lemma unit_bytes_length (u : unit_data) : length (unit_bytes u) = 20%nat.
Proof. unfold unit_bytes. buf_len. Qed.

Lemma read_unit_bytes (u : unit_data) (rest : buffer) :
  unit_ok u → read_unit (unit_bytes u ++ rest) = Done u.
Proof.
  intros (H1 & H2 & H3). unfold read_unit, unit_bytes. rewrite <- !app_assoc.
  rewrite get_put_i64 by done. cbn [obind]. rewrite get_put_i32 by done. cbn [obind].
  rewrite get_put_i64 by done. cbn. by destruct u.
Qed.

Lemma enc_cons (u : unit_data) (us : list unit_data) : enc (u :: us) = unit_bytes u ++ enc us.
Proof. done. Qed.

Lemma enc_length (us : list unit_data) : length (enc us) = (20 * length us)%nat.
Proof.
  induction us as [| u us IH]; [done |].
  rewrite enc_cons, length_app, unit_bytes_length, IH. cbn. lia.
Qed.

Lemma enc_app (us vs : list unit_data) : enc (us ++ vs) = enc us ++ enc vs.
Proof. unfold enc. by rewrite fmap_app, join_app. Qed.

Lemma enc_nil : enc [] = [].
Proof. done. Qed.

Lemma enc_drop (us : list unit_data) (j : nat) :
  (j ≤ length us)%nat → drop (20 * j) (enc us) = enc (drop j us).
Proof.
  intros Hj. rewrite <- (take_drop j us) at 1. rewrite enc_app.
  rewrite drop_app_length'; [done |]. rewrite enc_length, length_take. lia.
Qed.

Lemma enc_lookup (us : list unit_data) (j : nat) (u : unit_data) :
  us !! j = Some u → enc (drop j us) = unit_bytes u ++ enc (drop (S j) us).
Proof. intros H. by rewrite (drop_S _ _ _ H). Qed.

(** Unit [j] of a memory that starts with the bytes of [us]. *)
Lemma slice_unit (us : list unit_data) (tl : buffer) (j : nat) (u : unit_data) :
  us !! j = Some u → slice (enc us ++ tl) (20 * j) (20 * j + 20) = unit_bytes u.
Proof.
  intros H. pose proof (lookup_lt_Some _ _ _ H). unfold slice.
  rewrite drop_app_le by (rewrite enc_length; lia). rewrite enc_drop by lia.
  rewrite (enc_lookup _ _ _ H), <- app_assoc.
  replace (20 * j + 20 - 20 * j)%nat with (length (unit_bytes u))
    by (rewrite unit_bytes_length; lia).
  by rewrite take_app_length.
Qed.

(** ** Queues that hold units *)

(** The file can be held. *)
Definition mf_live (m : DefaultMappedFile) : Prop :=
  ∃ h, live h (reference_resource m) ∧ Z.of_nat h < 2 ^ 61.

Lemma mf_live_new (m : DefaultMappedFile) : reference_resource m = new → mf_live m.
Proof. intros H. exists 0%nat. rewrite H. done. Qed.

Lemma append_keeps_reference (d : buffer) (m : DefaultMappedFile) :
  reference_resource (append_message_bytes d m).1 = reference_resource m.
Proof.
  unfold append_message_bytes, append_message_offset_length.
  by destruct (_ <=? _); [destruct (data_get _ _ _) |].
Qed.

(** A queue of segments of [k] units that holds the units of [uss], segment by
    segment: every segment but the last is full. *)
Record cq_rep (k : nat) (c : ConsumeQueue) (uss : list (list unit_data)) : Prop := {
  r_ok : queue_ok (cq_queue c);
  r_k : (2 ≤ k)%nat;
  r_size : mapped_file_size (cq_queue c) = 20 * Z.of_nat k;
  r_fsize : cq_file_size c = 20 * Z.of_nat k;
  r_logs : Forall2 (λ m us, log m = enc us) (mapped_files (cq_queue c)) uss;
  r_full : ∀ i us, uss !! i = Some us → (S i < length uss)%nat → length us = k;
  r_first : Forall (λ m, first_create_in_queue m = true → log m ≠ [])
              (mapped_files (cq_queue c));
  r_live : Forall mf_live (mapped_files (cq_queue c));
}.

(** The queue offset of the first unit, and of the next one. *)
Definition first_index (c : ConsumeQueue) : Z := base_of (mapped_files (cq_queue c)) / 20.
Definition next_index (c : ConsumeQueue) (uss : list (list unit_data)) : Z :=
  first_index c + Z.of_nat (length (mjoin uss)).

Lemma full_snoc {A} (k : nat) (uss : list (list A)) (us vs : list A) :
  (∀ i u, (uss ++ [us]) !! i = Some u → (S i < length (uss ++ [us]))%nat → length u = k) →
  ∀ i u, (uss ++ [vs]) !! i = Some u → (S i < length (uss ++ [vs]))%nat → length u = k.
Proof.
  intros H i u Hi Hlt. rewrite length_app in Hlt. cbn in Hlt. apply (H i).
  - rewrite lookup_app_l in Hi |- * by lia. done.
  - rewrite length_app. cbn. lia.
Qed.

Lemma full_length {A} (k : nat) (uss : list (list A)) (us : list A) :
  (∀ i u, (uss ++ [us]) !! i = Some u → (S i < length (uss ++ [us]))%nat → length u = k) →
  length (mjoin (uss ++ [us])) = (length uss * k + length us)%nat.
Proof.
  intros H. rewrite join_app, length_app. f_equal.
  - assert (Hall : Forall (λ u, length u = k) uss).
    { apply Forall_lookup. intros i u Hi. apply (H i); [by apply lookup_app_l_Some |].
      apply lookup_lt_Some in Hi. rewrite length_app. cbn. lia. }
    clear H. induction Hall as [| u uss Hu _ IH]; [done |].
    change (mjoin (u :: uss)) with (u ++ mjoin uss). rewrite length_app, IH. cbn. lia.
  - cbn. by rewrite app_nil_r.
Qed.

Lemma rep_snoc (k : nat) (c : ConsumeQueue) (uss : list (list unit_data)) :
  cq_rep k c uss → uss ≠ [] →
  ∃ ms l uss0 us, mapped_files (cq_queue c) = ms ++ [l] ∧ uss = uss0 ++ [us] ∧
    length ms = length uss0 ∧ log l = enc us ∧ wf_mf l ∧
    wrote_position l = 20 * Z.of_nat (length us) ∧ (length us ≤ k)%nat ∧
    file_from_offset l + wrote_position l = 20 * next_index c uss ∧ 0 ≤ first_index c ∧
    file_size l = 20 * Z.of_nat k.
Proof.
  intros [Hq Hk Hsz _ Hlogs Hfull _ _] Hne.
  destruct uss as [| us uss0 _] using rev_ind; [done |].
  apply Forall2_app_inv_r in Hlogs as (ms & ls & Hms & Hl & E).
  apply Forall2_cons_inv_r in Hl as (l & ls' & Hlog & Hnil & ->).
  apply Forall2_nil_inv_r in Hnil as ->.
  assert (Hll : mapped_files (cq_queue c) !! length ms = Some l)
    by (rewrite E; by apply list_lookup_middle).
  pose proof (ok_lookup _ Hq _ _ Hll) as (Hwf & Hfs & Hf & H0 & _).
  assert (Hw : wrote_position l = 20 * Z.of_nat (length us)).
  { rewrite <- log_length, Hlog, enc_length by done. lia. }
  assert (Hlen := Forall2_length _ _ _ Hms). destruct (q_aligned _ Hq) as [b Hb].
  assert (Hbase : base_of (mapped_files (cq_queue c)) = 20 * first_index c).
  { unfold first_index. rewrite Hb, Hsz. replace (b * (20 * Z.of_nat k)) with
      (b * Z.of_nat k * 20) by lia. rewrite Z.div_mul by lia. lia. }
  exists ms, l, uss0, us. split_and!; try done.
  - pose proof (mf_pos _ Hwf). lia.
  - unfold next_index. rewrite (full_length k) by done. rewrite Hf, Hw, Hbase, Hsz, Hlen. lia.
  - destruct (mapped_files (cq_queue c)) as [| m0 ?] eqn:E0; [done |].
    destruct (ok_lookup _ Hq 0 m0) as (_ & _ & _ & ? & _); [by rewrite E0 |].
    unfold first_index. rewrite E0. apply Z.div_pos; cbn; lia.
  - lia.
Qed.

(** ** Appending units *)

Lemma queue_ok_insert (q : MappedFileQueue) (i : nat) (m m' : DefaultMappedFile) :
  queue_ok q → mapped_files q !! i = Some m → wf_mf m' → file_size m' = file_size m →
  file_from_offset m' = file_from_offset m →
  queue_ok (set_mapped_files (<[i := m']> (mapped_files q)) q) ∧
  base_of (<[i := m']> (mapped_files q)) = base_of (mapped_files q).
Proof.
  intros Hq Hm Hwf Hs Hf. destruct (chain_base_insert _ i m m' (mapped_file_size q) Hm Hf) as [Hb Hc].
  pose proof (ok_lookup q Hq _ _ Hm) as (_ & Hs' & _). destruct Hq. split; [| done].
  constructor; cbn; rewrite ?Hb; auto.
  apply Forall_insert; [done |]. split; [done | congruence].
Qed.

Lemma insert_snoc {A} (l : list A) (x y : A) : <[length l := y]> (l ++ [x]) = l ++ [y].
Proof. by rewrite insert_app_r_alt, Nat.sub_diag by lia. Qed.

Section Append.
Variables (k : nat) (c : ConsumeQueue).
Variables (ms : list DefaultMappedFile) (l : DefaultMappedFile).
Variables (uss0 : list (list unit_data)) (us : list unit_data).
Hypothesis Hq : queue_ok (cq_queue c).
Hypothesis Hk : (2 ≤ k)%nat.
Hypothesis Hsize : mapped_file_size (cq_queue c) = 20 * Z.of_nat k.
Hypothesis Hfsize : cq_file_size c = 20 * Z.of_nat k.
Hypothesis Hfiles : mapped_files (cq_queue c) = ms ++ [l].
Hypothesis Hlogs : Forall2 (λ m us, log m = enc us) ms uss0.
Hypothesis Hlog : log l = enc us.
Hypothesis Hfull : Forall (λ us, length us = k) uss0.
Hypothesis Hroom : (length us < k)%nat.
Hypothesis Hfirst : Forall (λ m, first_create_in_queue m = true → log m ≠ []) ms.
Hypothesis Hlive : Forall mf_live (ms ++ [l]).

Lemma last_lookup_ms : mapped_files (cq_queue c) !! length ms = Some l.
Proof using Hfiles. rewrite Hfiles. by apply list_lookup_middle. Qed.

(** Replacing the last file by one that holds one more unit. *)
Lemma rep_append (l' : DefaultMappedFile) (vs : list unit_data) :
  vs ≠ [] → wf_mf l' → log l' = enc vs → reference_resource l' = reference_resource l →
  file_size l' = file_size l → file_from_offset l' = file_from_offset l →
  cq_rep k (set_file (length ms) l' c) (uss0 ++ [vs]) ∧
  base_of (mapped_files (cq_queue (set_file (length ms) l' c))) =
  base_of (mapped_files (cq_queue c)).
Proof using Hq Hk Hsize Hfsize Hfiles Hlogs Hfull Hfirst Hlive.
  clear Hlog Hroom. intros Hne Hwf Hl Href Hs Hf.
  destruct (queue_ok_insert _ _ _ l' Hq last_lookup_ms Hwf Hs Hf) as [Hq' Hb].
  split; [| done]. constructor; try done; cbn [set_file set_cq_queue cq_queue set_mapped_files
    mapped_files]; rewrite ?Hfiles, ?insert_snoc.
  - apply Forall2_app; [done |]. by apply Forall2_cons.
  - intros i v Hi Hlt. rewrite length_app in Hlt. cbn in Hlt.
    rewrite lookup_app_l in Hi by lia. by apply (Forall_lookup_1 _ _ _ _ Hfull Hi).
  - apply Forall_app. split; [done |]. apply Forall_singleton. intros _. rewrite Hl.
    destruct vs as [| v vs]; [done |]. intros E. apply (f_equal length) in E.
    rewrite enc_length in E. cbn in E. lia.
  - apply Forall_app in Hlive as [Hlv Hll]. rewrite Forall_singleton in Hll.
    apply Forall_app. split; [done |]. apply Forall_singleton. destruct Hll as (h & Hh).
    exists h. by rewrite Href.
Qed.

Lemma append_unit_next (u : unit_data) (n : Z) :
  file_from_offset l + wrote_position l = 20 * n →
  0 ≤ n → in_s 64 (u_offset u + u_size u) →
  ∃ c', append_unit (length ms) (u_offset u) (u_size u) (u_tags u) n c = Done (c', true) ∧
    cq_rep k c' (uss0 ++ [us ++ [u]]) ∧
    max_physic_offset c' = u_offset u + u_size u ∧ min_logic_offset c' = min_logic_offset c ∧
    base_of (mapped_files (cq_queue c')) = base_of (mapped_files (cq_queue c)).
Proof using All.
  intros Hpos Hn Hsum. pose proof (ok_lookup _ Hq _ _ last_lookup_ms) as (Hwf & Hfs & _ & H0 & H1).
  assert (Hw : wrote_position l = 20 * Z.of_nat (length us)).
  { rewrite <- log_length, Hlog, enc_length by done. lia. }
  unfold append_unit, CQ_STORE_UNIT_SIZE. rewrite last_lookup_ms. cbn [unwrap obind].
  unfold i64_MAX in *. rewrite (as_i64_id (file_from_offset l)) by in_range.
  rewrite (as_i64_id (n * 20)), (as_i64_id (wrote_position l + _)) by in_range.
  rewrite (proj2 (Z.ltb_ge _ _)) by lia. rewrite andb_false_r.
  destruct (append_message_bytes_fits (unit_bytes u) l Hwf)
    as (l' & Happ & Hwf' & Hl' & _ & Hs' & Hf' & _).
  { rewrite unit_bytes_length, Hw, Hfs, Hsize. lia. }
  replace (mkUnit (u_offset u) (u_size u) (u_tags u)) with u by (by destruct u).
  rewrite Happ. eexists. split; [done |].
  destruct (rep_append l' (us ++ [u])) as [Hrep Hb]; try done.
  - by destruct us.
  - by rewrite Hl', Hlog, enc_app, enc_cons, enc_nil, app_nil_r.
  - pose proof (append_keeps_reference (unit_bytes u) l) as Hr. by rewrite Happ in Hr.
  - split_and!; [destruct Hrep; by constructor | by apply as_i64_id | done | done].
Qed.
End Append.

Lemma full_forall {A} (k : nat) (uss : list (list A)) (us : list A) :
  (∀ i u, (uss ++ [us]) !! i = Some u → (S i < length (uss ++ [us]))%nat → length u = k) →
  Forall (λ u, length u = k) uss.
Proof.
  intros H. apply Forall_lookup. intros i u Hi. apply (H i); [by apply lookup_app_l_Some |].
  apply lookup_lt_Some in Hi. rewrite length_app. cbn. lia.
Qed.

Lemma is_full_spec (m : DefaultMappedFile) :
  wf_mf m → is_full m = bool_decide (wrote_position m = file_size m).
Proof.
  intros Hwf. unfold is_full. rewrite (proj2 (wf_casts _ Hwf)).
  destruct (Z.eqb_spec (file_size m) (wrote_position m)); symmetry;
    [apply bool_decide_true | apply bool_decide_false]; lia.
Qed.

(** The next unit goes to the last segment, or to a new one. *)
Lemma put_next (k : nat) (c : ConsumeQueue) (uss : list (list unit_data)) (u : unit_data)
    (existing : buffer) :
  cq_rep k c uss → uss ≠ [] → in_s 64 (u_offset u + u_size u) →
  max_physic_offset c < u_offset u + u_size u →
  20 * next_index c uss + 40 * Z.of_nat k ≤ i64_MAX →
  ∃ c' uss',
    put_message_position_info existing (u_offset u) (u_size u) (u_tags u) (next_index c uss) c =
      Done (c', true) ∧
    cq_rep k c' uss' ∧ mjoin uss' = mjoin uss ++ [u] ∧
    max_physic_offset c' = u_offset u + u_size u ∧ min_logic_offset c' = min_logic_offset c ∧
    first_index c' = first_index c.
Proof.
  intros Hrep Hne Hsum Hmax Hend.
  destruct (rep_snoc _ _ _ Hrep Hne)
    as (ms & l & uss0 & us & E & -> & Hlen & Hlog & Hwf & Hw & Hle & Hend' & Hfi & Hfs).
  destruct Hrep as [Hq Hk Hsz Hfsz Hlogs Hfull Hfirst Hlive].
  assert (Hn : 0 ≤ next_index c (uss0 ++ [us])) by (unfold next_index; lia).
  unfold put_message_position_info. rewrite (as_i64_id (_ + _)) by done.
  rewrite (proj2 (Z.leb_gt _ _)) by lia. unfold CQ_STORE_UNIT_SIZE, i64_MAX in *.
  rewrite (as_i64_id (_ * 20)), as_u64_id by in_range.
  rewrite E in Hlogs, Hfirst, Hlive. apply Forall_app in Hfirst as [Hfirst Hfl].
  rewrite Forall_singleton in Hfl.
  apply Forall2_app_inv in Hlogs as [Hlogs _]; [| done].
  apply full_forall in Hfull as Hfull0.
  destruct (decide (length us = k)) as [Hfk | Hfk].
  - assert (Hisfull : is_full l = true) by (rewrite is_full_spec by done; apply bool_decide_true; lia).
    destruct (last_full (cq_queue c) existing (next_index c (uss0 ++ [us]) * 20) ms l Hq E Hisfull)
      as (m & -> & Hq' & Hwf' & Hfs' & Hf' & Hlog' & _ & Hfc & Href & _); [unfold i64_MAX; lia |].
    cbn [obind set_cq_queue cq_queue]. rewrite E.
    cbn [set_mapped_files mapped_files]. rewrite list_lookup_middle by done. cbn [unwrap obind].
    rewrite Hfc. cbn [andb].
    assert (Hw' : wrote_position m = 0) by (rewrite <- log_length, Hlog' by done; done).
    destruct (append_unit_next k (set_cq_queue (set_mapped_files (mapped_files (cq_queue c) ++ [m])
      (cq_queue c)) c) (ms ++ [l]) m (uss0 ++ [us]) []) with (u := u) (n := next_index c (uss0 ++ [us]))
      as (c' & Hrun & Hrep' & Hmax' & Hmin' & Hb'); try done.
    + cbn. by rewrite E.
    + apply Forall2_app; [done |]. by apply Forall2_cons.
    + apply Forall_app. split; [done |]. by apply Forall_singleton.
    + cbn. lia.
    + apply Forall_app. split; [done |]. by apply Forall_singleton.
    + apply Forall_app. split; [done |]. by apply Forall_singleton, mf_live_new.
    + lia.
    + rewrite E in Hrun. eexists _, _. split; [exact Hrun |]. split; [done |].
      split; [by rewrite join_app |]. split; [done |]. split; [done |].
      unfold first_index. rewrite Hb'. cbn. rewrite E. by destruct ms.
  - assert (Hisfull : is_full l = false) by (rewrite is_full_spec by done; apply bool_decide_false; lia).
    rewrite (last_not_full _ existing _ ms l E Hisfull). cbn [obind set_cq_queue cq_queue].
    rewrite E, list_lookup_middle by done. cbn [unwrap obind].
    replace (first_create_in_queue l && negb (next_index c (uss0 ++ [us]) =? 0) &&
             (wrote_position l =? 0)) with false.
    2: { destruct (first_create_in_queue l); [| done]. specialize (Hfl eq_refl).
         rewrite Hlog in Hfl. destruct us; [done |]. cbn in Hw.
         rewrite (proj2 (Z.eqb_neq (wrote_position l) _)) by lia. by rewrite andb_false_r. }
    destruct (append_unit_next k c ms l uss0 us) with (u := u) (n := next_index c (uss0 ++ [us]))
      as (c' & Hrun & Hrep' & Hmax' & Hmin' & Hb'); try done; [lia |].
    replace (set_cq_queue (cq_queue c) c) with c by (by destruct c). cbn [obind].
    exists c', (uss0 ++ [us ++ [u]]). split; [exact Hrun |]. split; [done |].
    split; [rewrite !join_app; cbn; by rewrite !app_nil_r, app_assoc |].
    split; [done |]. split; [done |]. unfold first_index. by rewrite Hb'.
Qed.

(** ** The first unit of an empty queue *)

Lemma append_blanks_spec (n : nat) (m : DefaultMappedFile) :
  wf_mf m → wrote_position m + 20 * Z.of_nat n ≤ file_size m →
  let m' := append_blanks n m in
  wf_mf m' ∧ reference_resource m' = reference_resource m ∧ log m' = log m ++ enc (replicate n blank_unit) ∧
  file_size m' = file_size m ∧ file_from_offset m' = file_from_offset m.
Proof.
  revert m. induction n as [| n IH]; intros m Hwf Hfit; cbn [append_blanks].
  - split_and!; try done. cbn [replicate]. by rewrite enc_nil, app_nil_r.
  - destruct (append_message_bytes_fits (unit_bytes blank_unit) m Hwf)
      as (m' & Happ & Hwf' & Hl & Hw & Hs & Hf & _).
    { rewrite unit_bytes_length. lia. }
    rewrite unit_bytes_length in Hw. rewrite Happ. cbn [fst].
    destruct (IH m' Hwf') as (Hwf2 & Hr2 & Hl2 & Hs2 & Hf2); [lia |].
    pose proof (append_keeps_reference (unit_bytes blank_unit) m) as Hr. rewrite Happ in Hr.
    cbn in Hr. split_and!; [done | congruence | | congruence | congruence].
    rewrite Hl2, Hl, <- app_assoc. by rewrite <- enc_cons.
Qed.

Lemma fill_pre_blank_spec (k n : nat) (m : DefaultMappedFile) :
  wf_mf m → log m = [] → file_size m = 20 * Z.of_nat k → (0 < k)%nat →
  20 * Z.of_nat n ≤ i64_MAX →
  ∃ m', fill_pre_blank (20 * Z.of_nat k) m (Z.of_nat n * 20) = Done m' ∧
    wf_mf m' ∧ reference_resource m' = reference_resource m ∧
    log m' = enc (replicate (n mod k) blank_unit) ∧ file_size m' = file_size m ∧
    file_from_offset m' = file_from_offset m.
Proof.
  intros Hwf Hlog Hs Hk Hn. pose proof (mf_size _ Hwf). unfold i32_MAX, i64_MAX in *.
  assert (Hw : wrote_position m = 0) by (rewrite <- log_length, Hlog by done; done).
  unfold fill_pre_blank, CQ_STORE_UNIT_SIZE, rrem, rdiv. rewrite as_i64_id by in_range.
  rewrite (proj2 (Z.eqb_neq _ _)) by lia. rewrite Z.rem_mod_nonneg by lia.
  rewrite (Z.mul_comm _ 20), Z.mul_mod_distr_l by lia.
  pose proof (Z.mod_pos_bound (Z.of_nat n) (Z.of_nat k) ltac:(lia)).
  rewrite as_i32_id by in_range. rewrite Z.quot_div_nonneg by lia.
  rewrite (Z.mul_comm 20), Z.div_mul by lia. rewrite <- Nat2Z.inj_mod, Nat2Z.id.
  destruct (append_blanks_spec (n mod k) m Hwf) as (Hwf' & Hr & Hl & Hs' & Hf).
  { rewrite Nat2Z.inj_mod. lia. }
  eexists. split; [done |]. split_and!; try done. by rewrite Hl, Hlog.
Qed.

(** The unit in a file that holds [r] blanks. *)
Lemma append_unit_blank (k n r : nat) (c : ConsumeQueue) (m : DefaultMappedFile) (u : unit_data) :
  (2 ≤ k)%nat → in_s 64 (u_offset u + u_size u) →
  mapped_files (cq_queue c) = [m] → queue_ok (cq_queue c) →
  mapped_file_size (cq_queue c) = 20 * Z.of_nat k → cq_file_size c = 20 * Z.of_nat k →
  log m = enc (replicate r blank_unit) → (r < k)%nat → mf_live m →
  file_from_offset m = 20 * Z.of_nat n - 20 * Z.of_nat r →
  ∃ c', append_unit 0 (u_offset u) (u_size u) (u_tags u) (Z.of_nat n) c = Done (c', true) ∧
    cq_rep k c' [replicate r blank_unit ++ [u]] ∧
    max_physic_offset c' = u_offset u + u_size u ∧
    min_logic_offset c' = min_logic_offset c ∧ first_index c' = Z.of_nat (n - r).
Proof.
  intros Hk Hsum E Hq Hs Hfs Hl Hr Hlv Hf.
  assert (H0 : mapped_files (cq_queue c) !! 0%nat = Some m) by (by rewrite E).
  pose proof (ok_lookup _ Hq _ _ H0) as (Hwf & Hfs' & _ & Hpos & _).
  pose proof (log_length _ Hwf) as Hw. rewrite Hl, enc_length, length_replicate in Hw.
  destruct (append_unit_next k c [] m [] (replicate r blank_unit)) with (u := u)
    (n := Z.of_nat n) as (c' & Hrun & Hrep & Hm & Hmin & Hb); try done.
  - by rewrite length_replicate.
  - by apply Forall_singleton.
  - lia.
  - lia.
  - exists c'. split_and!; try done. unfold first_index. rewrite Hb, E. cbn.
    rewrite Hf. replace (20 * Z.of_nat n - 20 * Z.of_nat r) with (Z.of_nat (n - r) * 20) by lia.
    by rewrite Z.div_mul.
Qed.

Lemma put_first (k n : nat) (c : ConsumeQueue) (u : unit_data) (existing : buffer) :
  cq_rep k c [] → in_s 64 (u_offset u + u_size u) →
  max_physic_offset c < u_offset u + u_size u →
  20 * Z.of_nat n + 20 * Z.of_nat k ≤ i64_MAX →
  ∃ c',
    put_message_position_info existing (u_offset u) (u_size u) (u_tags u) (Z.of_nat n) c =
      Done (c', true) ∧
    cq_rep k c' [replicate (n mod k) blank_unit ++ [u]] ∧
    max_physic_offset c' = u_offset u + u_size u ∧
    min_logic_offset c' = (if decide (n = 0%nat) then min_logic_offset c else 20 * Z.of_nat n) ∧
    first_index c' = Z.of_nat (n - n mod k).
Proof.
  intros [Hq Hk Hsz Hfsz Hlogs _ _ _] Hsum Hmax Hend.
  apply Forall2_nil_inv_r in Hlogs. unfold put_message_position_info.
  rewrite (as_i64_id (_ + _)) by done. rewrite (proj2 (Z.leb_gt _ _)) by lia.
  unfold CQ_STORE_UNIT_SIZE. pose proof (q_size _ Hq) as Hmx. unfold i64_MAX, i32_MAX in *.
  rewrite (as_i64_id (_ * 20)), as_u64_id by in_range.
  destruct (last_of_empty (cq_queue c) existing (Z.of_nat n * 20) Hq Hlogs)
    as (m & -> & Hq' & Hwf & Hfs & Hf & Hlog & _ & Hfc & Href & _); [lia | unfold i64_MAX; lia |].
  cbn [obind]. set (c1 := set_cq_queue (set_mapped_files [m] (cq_queue c)) c).
  replace (mapped_files (cq_queue c1) !! 0%nat) with (Some m) by done. cbn [unwrap obind].
  rewrite Hfc. cbn [andb].
  assert (Hw : wrote_position m = 0) by (rewrite <- log_length, Hlog by done; done).
  rewrite Hw, Z.eqb_refl, andb_true_r.
  rewrite Hsz, (Z.mul_comm _ 20), Z.mul_mod_distr_l, <- Nat2Z.inj_mod in Hf by lia.
  pose proof (Nat.mod_upper_bound n k ltac:(lia)) as Hlt.
  pose proof (Nat.mod_le n k ltac:(lia)) as Hle.
  destruct (decide (n = 0%nat)) as [-> | Hn].
  - cbn [Z.of_nat Z.eqb negb obind]. rewrite Nat.Div0.mod_0_l in *.
    destruct (append_unit_blank k 0 0 c1 m u) as (c' & Hrun & Hrest);
      try done; eauto using mf_live_new; lia.
  - rewrite (proj2 (Z.eqb_neq _ _)) by lia. cbn [negb obind].
    destruct (fill_pre_blank_spec k n m) as (m' & Hfill & Hwf' & Hr' & Hl' & Hs' & Hf');
      [done | done | lia | lia | unfold i64_MAX; lia |].
    rewrite <- Hsz in Hfill.
    match goal with |- context [fill_pre_blank ?x m _] =>
      change x with (mapped_file_size (cq_queue c)) end.
    rewrite Hfill. cbn [obind].
    match goal with |- context [append_unit 0 _ _ _ _ ?x] => set (c2 := x) end.
    assert (Hq2 : queue_ok (cq_queue c2)).
    { destruct (queue_ok_insert (set_mapped_files [m] (cq_queue c)) 0 m m') as [[] _]; done. }
    destruct (append_unit_blank k n (n mod k) c2 m' u)
      as (c' & Hrun & Hrep & Hmx' & Hmin & Hfi); try done.
    + apply mf_live_new. congruence.
    + lia.
    + exists c'. split_and!; try done. rewrite Hmin. cbn. lia.
Qed.

(** ** Dispatching messages *)

Definition unit_of (r : DispatchRequest) : unit_data :=
  mkUnit (dr_commit_log_offset r) (dr_msg_size r) (dr_tags_code r).
Definition msg_end (r : DispatchRequest) : Z := dr_commit_log_offset r + dr_msg_size r.

Fixpoint dispatch (rs : list DispatchRequest) (s : cq_store) (c : ConsumeQueue)
  : outcome (cq_store * ConsumeQueue) :=
  match rs with
  | [] => Done (s, c)
  | r :: rs' =>
      let* (s, c) := put_message_position_info_wrapper (λ _, []) r s c in dispatch rs' s c
  end.

(** Requests for consecutive queue offsets from [n] on, further and further
    in the commit log, all below [limit] bytes of index. *)
Fixpoint consecutive (limit n maxp : Z) (rs : list DispatchRequest) : Prop :=
  match rs with
  | [] => True
  | r :: rs' =>
      dr_consume_queue_offset r = n ∧ 20 * n ≤ limit ∧ unit_ok (unit_of r) ∧
      maxp < msg_end r ∧ in_s 64 (msg_end r) ∧ consecutive limit (n + 1) (msg_end r) rs'
  end.

(** The store lets the queue be written. *)
Definition writable (s : cq_store) : Prop :=
  is_cq_writeable (running_flags s) = true ∧ enable_consume_queue_ext s = false ∧
  slave_or_dledger s = false.

Lemma wrapper_ok (r : DispatchRequest) (s : cq_store) (c c' : ConsumeQueue) :
  writable s →
  put_message_position_info [] (dr_commit_log_offset r) (dr_msg_size r) (dr_tags_code r)
    (dr_consume_queue_offset r) c = Done (c', true) →
  ∃ s', put_message_position_info_wrapper (λ _, []) r s c = Done (s', c') ∧ writable s'.
Proof.
  intros (Hw & He & Hs) Hput. unfold put_message_position_info_wrapper. rewrite Hw.
  cbn [put_retries]. unfold is_ext_write_enable.
  replace (match consume_queue_ext c with Some _ => _ | None => _ end) with false
    by (rewrite He; by destruct (consume_queue_ext c)).
  rewrite Hput. cbn [obind]. rewrite Hs. eexists. split; [done |]. done.
Qed.

Lemma dispatch_nonempty (k : nat) (rs : list DispatchRequest) (s : cq_store) (c : ConsumeQueue)
    (uss : list (list unit_data)) :
  writable s → cq_rep k c uss → uss ≠ [] →
  consecutive (i64_MAX - 40 * Z.of_nat k) (next_index c uss) (max_physic_offset c) rs →
  ∃ s' c' uss', dispatch rs s c = Done (s', c') ∧ cq_rep k c' uss' ∧
    mjoin uss' = mjoin uss ++ (unit_of <$> rs) ∧ first_index c' = first_index c ∧
    min_logic_offset c' = min_logic_offset c.
Proof.
  intros Hs Hrep Hne Hc. revert s c uss Hs Hrep Hne Hc.
  induction rs as [| r rs IH]; intros s c uss Hs Hrep Hne Hc.
  - exists s, c, uss. split_and!; try done. by rewrite app_nil_r.
  - destruct Hc as (Hn & Hlim & Hok & Hmax & Hend & Hc).
    destruct (put_next k c uss (unit_of r) [] Hrep Hne Hend Hmax)
      as (c1 & uss1 & Hput & Hrep1 & Hj1 & Hm1 & Hmin1 & Hf1); [lia |].
    destruct (wrapper_ok r s c c1 Hs) as (s1 & Hw & Hs1); [by rewrite Hn |].
    assert (Hne1 : uss1 ≠ []). { intros ->. by destruct (mjoin uss). }
    destruct (IH s1 c1 uss1 Hs1 Hrep1 Hne1) as (s' & c' & uss' & Hrun & Hrep' & Hj & Hf & Hmin).
    { rewrite Hm1. replace (next_index c1 uss1) with (next_index c uss + 1); [done |].
      unfold next_index. rewrite Hj1, Hf1, length_app. cbn. lia. }
    exists s', c', uss'. cbn [dispatch]. rewrite Hw. cbn [obind].
    split_and!; try done; [| congruence | congruence].
    by rewrite Hj, Hj1, <- app_assoc.
Qed.

(** ** Lookup *)

Lemma join_full_lookup {A} (k : nat) (uss : list (list A)) (t : nat) (u : A) :
  (∀ i v, uss !! i = Some v → (S i < length uss)%nat → length v = k) → (0 < k)%nat →
  mjoin uss !! t = Some u → (∀ v, last uss = Some v → (length v ≤ k)%nat) →
  ∃ us, uss !! (t / k)%nat = Some us ∧ us !! (t mod k)%nat = Some u.
Proof.
  revert t. induction uss as [| us uss IH]; intros t Hfull Hk Ht Hlast; [done |].
  change (mjoin (us :: uss)) with (us ++ mjoin uss) in Ht.
  destruct (decide (t < length us)%nat) as [Hlt | Hge].
  - assert (length us ≤ k)%nat.
    { destruct uss as [| v uss]; [by apply Hlast |]. rewrite (Hfull 0%nat us); [done | done |].
      cbn. lia. }
    rewrite lookup_app_l in Ht by done. exists us.
    rewrite Nat.div_small, Nat.mod_small by lia. done.
  - rewrite lookup_app_r in Ht by lia. destruct uss as [| v uss]; [done |].
    assert (Hus : length us = k) by (apply (Hfull 0%nat); [done | cbn; lia]).
    destruct (IH (t - length us)%nat) as (w & Hw & Hu); [| done | done | |].
    { intros i x Hi Hlt. apply (Hfull (S i)); [done |]. cbn in *. lia. }
    { intros x Hx. apply Hlast. by rewrite last_cons, Hx. }
    exists w. rewrite Hus in Hw, Hu.
    replace t with (t - k + 1 * k)%nat by lia.
    rewrite Nat.div_add, Nat.Div0.mod_add by lia.
    replace ((t - k) / k + 1)%nat with (S ((t - k) / k)) by lia. done.
Qed.

Lemma select_live (m : DefaultMappedFile) (pos : Z) :
  wf_mf m → mf_live m → 0 ≤ pos < wrote_position m →
  ∃ m', select_mapped_buffer_with_position pos m =
    (m', Some (mkSelect (file_from_offset m + pos) (wrote_position m - pos)
                (Some (drop (Z.to_nat pos) (log m))) true)) ∧ same_file m m'.
Proof.
  intros Hwf (h & Hlive & Hh) Hpos. unfold select_mapped_buffer_with_position, get_read_position.
  rewrite (proj2 (Z.ltb_lt _ _)), (proj2 (Z.leb_le _ _)) by lia. cbn [andb].
  unfold mf_hold. destruct (hold_live h (reference_resource m)) as [_ Hb]; [lia | done |].
  destruct (hold (reference_resource m)) as [r b]. cbn in Hb. subst b. eexists. split.
  - destruct Hwf. unfold i32_MAX, i64_MAX in *. cbn.
    rewrite as_u64_id, as_i32_id by in_range. repeat f_equal.
    unfold slice, log. by rewrite skipn_firstn_comm.
  - done.
Qed.

Lemma base_index (k : nat) (c : ConsumeQueue) (uss : list (list unit_data)) :
  cq_rep k c uss → base_of (mapped_files (cq_queue c)) = 20 * first_index c.
Proof.
  intros H. destruct (q_aligned _ (r_ok _ _ _ H)) as [b Hb]. unfold first_index.
  rewrite Hb, (r_size _ _ _ H). replace (b * (20 * Z.of_nat k)) with (b * Z.of_nat k * 20) by lia.
  rewrite Z.div_mul by lia. lia.
Qed.

(** Unit [t] of the queue is in file [t / k], at place [t mod k]. *)
Lemma rep_lookup (k : nat) (c : ConsumeQueue) (uss : list (list unit_data)) (t : nat)
    (u : unit_data) :
  cq_rep k c uss → mjoin uss !! t = Some u →
  ∃ m us, mapped_files (cq_queue c) !! (t / k)%nat = Some m ∧ wf_mf m ∧ mf_live m ∧
    log m = enc us ∧ us !! (t mod k)%nat = Some u ∧
    file_from_offset m = 20 * (first_index c + Z.of_nat (t / k * k)) ∧
    wrote_position m = 20 * Z.of_nat (length us) ∧ file_size m = 20 * Z.of_nat k ∧
    0 ≤ file_from_offset m.
Proof.
  intros Hrep Ht. pose proof (base_index _ _ _ Hrep) as Hbase.
  assert (Hne : uss ≠ []) by (by intros ->).
  destruct (rep_snoc _ _ _ Hrep Hne) as (ms & l & uss0 & us0 & E & Eu & _ & _ & _ & _ & Hle & _).
  destruct Hrep as [Hq Hk Hsz _ Hlogs Hfull _ Hlive].
  destruct (join_full_lookup k uss t u Hfull) as (us & Hus & Hu); [lia | done | |].
  { intros v Hv. rewrite Eu, last_snoc in Hv. by injection Hv as <-. }
  destruct (Forall2_lookup_r _ _ _ _ _ Hlogs Hus) as (m & Hm & Hlog).
  pose proof (ok_lookup _ Hq _ _ Hm) as (Hwf & Hfs & Hf & H0 & _).
  exists m, us. split_and!; try done; try lia.
  - by apply (Forall_lookup_1 _ _ _ _ Hlive Hm).
  - rewrite <- log_length, Hlog, enc_length by done. lia.
Qed.

(** Looking up an offset at or above the minimum gives the bytes of its unit
    and of the ones after it in the segment. *)
Lemma get_index_buffer_unit (k : nat) (c : ConsumeQueue) (uss : list (list unit_data)) (t : nat)
    (u : unit_data) :
  cq_rep k c uss → mjoin uss !! t = Some u →
  let n := first_index c + Z.of_nat t in
  min_logic_offset c ≤ 20 * n →
  ∃ c' r rest, get_index_buffer n c = Done (c', Some ((t / k)%nat, r)) ∧
    bytes r = Some (unit_bytes u ++ rest) ∧ start_offset r = 20 * n ∧ 0 < size r ∧
    ∃ m m', mapped_files (cq_queue c) !! (t / k)%nat = Some m ∧ same_file m m' ∧
      c' = set_file (t / k) m' c.
Proof.
  intros Hrep Ht n Hmin.
  destruct (rep_lookup k c uss t u Hrep Ht)
    as (m & us & Hm & Hwf & Hlv & Hlog & Hu & Hf & Hw & Hfs & H0).
  destruct Hrep as [Hq Hk Hsz Hfsz _ _ _ _]. destruct (q_aligned _ Hq) as [b Hb].
  pose proof (Nat.mod_upper_bound t k ltac:(lia)) as Hmod.
  pose proof (Nat.div_mod t k ltac:(lia)) as Hdm.
  pose proof (lookup_lt_Some _ _ _ Hu) as Hlt. pose proof (mf_from _ Hwf) as Hmf.
  pose proof (mf_size _ Hwf) as Hms. unfold i64_MAX, i32_MAX in *.
  assert (Hn : 20 * n = file_from_offset m + 20 * Z.of_nat (t mod k)) by (unfold n; lia).
  unfold get_index_buffer, CQ_STORE_UNIT_SIZE. rewrite (Z.mul_comm n), as_i64_id by in_range.
  rewrite (proj2 (Z.leb_le _ _)) by done.
  rewrite (find_in _ Hq (20 * n) false (t / k) m Hm) by lia. cbn [obind].
  rewrite Hm. cbn [unwrap obind]. rewrite Hfsz, (proj2 (Z.eqb_neq _ _)) by lia.
  assert (Hrem : rrem (20 * n) (20 * Z.of_nat k) = 20 * Z.of_nat (t mod k)).
  { unfold rrem. rewrite Z.rem_mod_nonneg by lia. pose proof (ok_lookup _ Hq _ _ Hm) as (_ & _ & Hfo & _).
    rewrite Hn, Hfo, Hb, Hsz. replace (b * (20 * Z.of_nat k) + Z.of_nat (t / k) * (20 * Z.of_nat k)
      + 20 * Z.of_nat (t mod k)) with (20 * Z.of_nat (t mod k) +
      (b + Z.of_nat (t / k)) * (20 * Z.of_nat k)) by lia.
    rewrite Z.mod_add by lia. apply Z.mod_small. lia. }
  rewrite Hrem, as_i32_id by in_range.
  destruct (select_live m (20 * Z.of_nat (t mod k)) Hwf Hlv) as (m' & -> & Hsame); [lia |].
  eexists _, _, (enc (drop (S (t mod k)) us)). split; [done |]. cbn.
  split; [| split_and!; [lia | lia | by exists m, m']].
  rewrite Hlog. replace (Z.to_nat _) with (20 * (t mod k))%nat by lia.
  rewrite enc_drop by lia. by rewrite (enc_lookup _ _ _ Hu).
Qed.

(** Dispatching to an empty queue, from queue offset [n] on. *)
Lemma dispatch_empty (k n : nat) (s : cq_store) (c : ConsumeQueue) (rs : list DispatchRequest) :
  writable s → cq_rep k c [] → min_logic_offset c = 0 → rs ≠ [] →
  consecutive (i64_MAX - 40 * Z.of_nat k) (Z.of_nat n) (max_physic_offset c) rs →
  ∃ s' c' uss, dispatch rs s c = Done (s', c') ∧ cq_rep k c' uss ∧
    mjoin uss = replicate (n mod k) blank_unit ++ (unit_of <$> rs) ∧
    first_index c' = Z.of_nat (n - n mod k) ∧ min_logic_offset c' = 20 * Z.of_nat n.
Proof.
  intros Hs Hrep Hmin Hne Hc. destruct rs as [| r0 rs]; [done |].
  destruct Hc as (Hn & Hlim & Hok & Hmax & Hend & Hc).
  destruct (put_first k n c (unit_of r0) [] Hrep Hend Hmax)
    as (c1 & Hput & Hrep1 & Hm1 & Hmin1 & Hf1); [lia |].
  destruct (wrapper_ok r0 s c c1 Hs) as (s1 & Hw & Hs1); [by rewrite Hn |].
  pose proof (r_k _ _ _ Hrep) as Hk. pose proof (Nat.Div0.mod_le n k) as Hmle.
  destruct (dispatch_nonempty k rs s1 c1 _ Hs1 Hrep1) as (s' & c' & uss & Hrun & Hrep' & Hj & Hf & Hmn);
    [done | |].
  { rewrite Hm1. replace (next_index _ _) with (Z.of_nat n + 1); [done |].
    unfold next_index. rewrite Hf1. cbn. rewrite app_nil_r, length_app, length_replicate. cbn. lia. }
  exists s', c', uss. cbn [dispatch]. rewrite Hw. cbn [obind].
  split_and!; [done | done | | congruence |].
  - rewrite Hj. cbn. by rewrite app_nil_r, <- app_assoc.
  - rewrite Hmn, Hmin1. case_decide; lia.
Qed.

Lemma consecutive_ok (limit n maxp : Z) (rs : list DispatchRequest) (i : nat)
    (r : DispatchRequest) :
  consecutive limit n maxp rs → rs !! i = Some r → unit_ok (unit_of r).
Proof.
  revert n maxp i. induction rs as [| r1 rs IH]; intros n p i Hc Hi; [done |].
  destruct Hc as (_ & _ & H1 & _ & _ & Hc). destruct i as [| i]; cbn in Hi.
  - by injection Hi as <-.
  - by apply (IH _ _ i Hc).
Qed.

(** Messages dispatched in order to an empty queue, the first at any queue
    offset, are found at their queue offsets: the queue accepts them all, and
    looking one up gives its commit log offset, size and tag code.  The first
    segment is filled with blanks below the first message. *)
Theorem dispatched_units_found (k n : nat) (s : cq_store) (c : ConsumeQueue)
    (rs : list DispatchRequest) :
  writable s → cq_rep k c [] → min_logic_offset c = 0 → rs ≠ [] →
  consecutive (i64_MAX - 40 * Z.of_nat k) (Z.of_nat n) (max_physic_offset c) rs →
  ∃ s' c' uss, dispatch rs s c = Done (s', c') ∧ cq_rep k c' uss ∧
    mjoin uss = replicate (n mod k) blank_unit ++ (unit_of <$> rs) ∧
    ∀ i r, rs !! i = Some r →
      ∃ c'' f b rest, get_index_buffer (Z.of_nat (n + i)) c' = Done (c'', Some (f, b)) ∧
        bytes b = Some (unit_bytes (unit_of r) ++ rest) ∧
        read_unit (unit_bytes (unit_of r) ++ rest) = Done (unit_of r).
Proof.
  intros Hs Hrep Hmin Hne Hc.
  destruct (dispatch_empty k n s c rs Hs Hrep Hmin Hne Hc)
    as (s' & c' & uss & Hrun & Hrep' & Hu & Hf & Hmn).
  pose proof (r_k _ _ _ Hrep) as Hk. pose proof (Nat.Div0.mod_le n k) as Hmle.
  exists s', c', uss. split_and!; try done. intros i r Hi.
  pose proof (consecutive_ok _ _ _ _ _ _ Hc Hi) as Hunit.
  assert (Hlook : mjoin uss !! (n mod k + i)%nat = Some (unit_of r)).
  { rewrite Hu, lookup_app_r by (rewrite length_replicate; lia). rewrite length_replicate.
    replace (n mod k + i - n mod k)%nat with i by lia. by rewrite list_lookup_fmap, Hi. }
  destruct (get_index_buffer_unit k c' uss _ _ Hrep' Hlook) as (c'' & b & rest & Hg & Hb & _).
  { rewrite Hmn, Hf. lia. }
  exists c'', ((n mod k + i) / k)%nat, b, rest. split_and!; [| done | by apply read_unit_bytes].
  rewrite Hf in Hg. rewrite <- Hg. f_equal. lia.
Qed.

Definition sample_store : cq_store := mkCqStore 0 0 false false.
Definition sample_cq : ConsumeQueue := new_consume_queue "/q/t/0" None "t" 0 60.
Lemma sample_cq_rep : cq_rep 3 sample_cq [].
Proof.
  constructor; try done; cbn; try lia.
  constructor; cbn; try done. by exists 0.
Qed.
Definition sample_requests : list DispatchRequest :=
  [plain_request "t" 1000 100 7 1 4 "" None 0; plain_request "t" 1100 50 8 2 5 "" None 0;
   plain_request "t" 1150 60 9 3 6 "" None 0].
Lemma sample_writable : writable sample_store.
Proof. done. Qed.
Lemma sample_consecutive : consecutive (i64_MAX - 40 * Z.of_nat 3) (Z.of_nat 4) (-1) sample_requests.
Proof. done. Qed.

Lemma dispatched_units_found_witness :
  ∃ s' c' uss, dispatch sample_requests sample_store sample_cq = Done (s', c') ∧
    cq_rep 3 c' uss ∧
    mjoin uss = replicate 1 blank_unit ++ (unit_of <$> sample_requests) ∧
    ∀ i r, sample_requests !! i = Some r →
      ∃ c'' f b rest, get_index_buffer (Z.of_nat (4 + i)) c' = Done (c'', Some (f, b)) ∧
        bytes b = Some (unit_bytes (unit_of r) ++ rest) ∧
        read_unit (unit_bytes (unit_of r) ++ rest) = Done (unit_of r).
Proof.
  apply (dispatched_units_found 3 4 sample_store sample_cq); try done.
  apply sample_cq_rep.
Defined.

(** Reading through an iterator works only in a segment that starts at offset
    0: the iterator indexes the segment's memory with the offset in the whole
    queue, which lies outside the memory of every later segment. *)
Theorem iterator_first_segment_only (k t : nat) (c : ConsumeQueue) (uss : list (list unit_data))
    (u : unit_data) :
  cq_rep k c uss → mjoin uss !! t = Some u → unit_ok u → consume_queue_ext c = None →
  let n := first_index c + Z.of_nat t in
  min_logic_offset c ≤ 20 * n →
  ∃ c' it, iterate_from n c = Done (c', Some it) ∧
    iter_next c' it =
      if decide (n < Z.of_nat k)
      then Done (mkIter (smbr it) 1, Some (mkCqUnit n (u_size u) (u_offset u) (u_tags u)))
      else Panic.
Proof.
  intros Hrep Ht Hok Hext n Hmin.
  destruct (get_index_buffer_unit k c uss t u Hrep Ht Hmin)
    as (c' & r & rest & Hget & _ & Hst & Hsz & m & m' & Hm & Hsame & ->).
  fold n in Hget, Hst.
  destruct (rep_lookup k c uss t u Hrep Ht)
    as (m0 & us & Hm0 & Hwf & _ & Hlog & Hu & Hf & Hw & Hfs & H0). simplify_eq.
  destruct Hsame as (_ & _ & Hmem & _). pose proof (mf_mem _ Hwf) as Hlen.
  pose proof (mf_size _ Hwf) as Hms. pose proof (mf_from _ Hwf) as Hmf.
  pose proof (Nat.div_mod t k ltac:(pose proof (r_k _ _ _ Hrep); lia)) as Hdm.
  pose proof (Nat.mod_upper_bound t k ltac:(pose proof (r_k _ _ _ Hrep); lia)) as Hmod.
  pose proof (lookup_lt_Some _ _ _ Hu) as Hlt. unfold i64_MAX, i32_MAX in *.
  assert (Hn : 20 * n = file_from_offset m + 20 * Z.of_nat (t mod k)) by (unfold n; lia).
  unfold iterate_from. rewrite Hget. cbn [obind]. eexists _, _. split; [done |].
  unfold iter_next, CQ_STORE_UNIT_SIZE. cbn [smbr counter].
  replace (as_i32 (0 * 20)) with 0 by done. rewrite (proj2 (Z.leb_gt _ _)) by lia.
  cbn [set_file set_cq_queue cq_queue set_mapped_files mapped_files].
  rewrite list_lookup_insert_eq by (by apply lookup_lt_Some in Hm). cbn [unwrap obind].
  replace (as_usize 0) with 0 by done.
  rewrite Hst, Hmem, Z.add_0_r, !(as_usize_id (20 * n)), (as_usize_id (20 * n + 20)) by in_range.
  rewrite (proj2 (Z.leb_le (20 * n) (20 * n + 20))) by lia. cbn [andb].
  case_decide as Hnk.
  - assert (Hf0 : file_from_offset m = 0).
    { destruct (q_aligned _ (r_ok _ _ _ Hrep)) as [b Hb].
      rewrite (base_index _ _ _ Hrep), (r_size _ _ _ Hrep) in Hb.
      assert (b + Z.of_nat (t / k) = 0) by nia. nia. }
    rewrite (proj2 (Z.leb_le _ _)) by lia. cbn [negb].
    replace (slice _ _ _) with (unit_bytes u).
    2: { rewrite <- (take_drop (Z.to_nat (wrote_position m)) (mmapped_file m)).
         fold (log m). rewrite Hlog.
         replace (Z.to_nat (20 * n)) with (20 * (t mod k))%nat by lia.
         replace (Z.to_nat (20 * n + 20)) with (20 * (t mod k) + 20)%nat by lia.
         by rewrite (slice_unit _ _ _ u). }
    rewrite <- (app_nil_r (unit_bytes u)), read_unit_bytes by done. cbn [obind].
    change (consume_queue_ext (set_file _ _ _)) with (consume_queue_ext c).
    rewrite (bool_decide_false (is_Some (consume_queue_ext c))), andb_false_r
      by (rewrite Hext; by intros []).
    unfold rdiv. rewrite as_i64_id by in_range. rewrite Z.quot_div_nonneg by lia.
    by rewrite Z.mul_comm, Z.div_mul by lia.
  - by rewrite (proj2 (Z.leb_gt _ _)) by lia.
Qed.

Lemma iterator_first_segment_only_witness :
  ∃ c c' it, consume_queue_ext c = None ∧
    iterate_from 6 c = Done (c', Some it) ∧ iter_next c' it = Panic.
Proof.
  destruct (dispatch_empty 3 4 sample_store sample_cq sample_requests sample_writable sample_cq_rep
    eq_refl ltac:(discriminate) sample_consecutive)
    as (s' & c & uss & Hrun & Hrep & Hj & Hf & Hmin).
  assert (Hext : consume_queue_ext c = None).
  { vm_compute in Hrun. by injection Hrun as <- <-. }
  clear Hrun.
  destruct (iterator_first_segment_only 3 3 c uss (mkUnit 1150 60 9) Hrep) as (c' & it & Hit & Hn).
  - by rewrite Hj.
  - done.
  - done.
  - rewrite Hf, Hmin. done.
  - rewrite Hf in Hit, Hn. by exists c, c', it.
Defined.
