(* ===== verification/ConsumeQueueRecovery.v ===== *)
(** * ConsumeQueueRecovery: restart, truncation and the minimum of a consume queue

    Theorems on the operations of ConsumeQueue that scan the segments'
    memory: recovery after loading, truncation after the commit log was cut,
    and the correction of the minimum offset. *)

From stdpp Require Import base list strings sorting.
From coqutil Require Import Byte.
From Stdlib Require Import ZArith Lia.
From S2P Require Import Prelude Bytes FileName ReferenceResource MappedFile MappedFileQueue ConsumeQueue.
Open Scope Z_scope.
Open Scope rmq_scope.

(** ** Recovery *)

Definition valid_unit (u : unit_data) : Prop := unit_ok u ∧ 0 ≤ u_offset u ∧ 0 < u_size u.

(** The bytes after the units end the file or do not read as a valid unit: a
    file is created full of zeros. *)
Definition ends_units (k : nat) (us : list unit_data) (tl : buffer) : Prop :=
  length us = k ∨ ∃ u, read_unit (take 20 tl) = Done u ∧ ¬ (0 ≤ u_offset u ∧ 0 < u_size u).

(** The memory of a file of [k] units holds exactly [us]. *)
Definition holds_units (k : nat) (m : DefaultMappedFile) (us : list unit_data) : Prop :=
  file_size m = 20 * Z.of_nat k ∧ (length us ≤ k)%nat ∧ Forall valid_unit us ∧
  length (mmapped_file m) = (20 * k)%nat ∧
  ∃ tl, mmapped_file m = enc us ++ tl ∧ ends_units k us tl.

(** The end, in the commit log, of the last message. *)
Definition last_end (maxp : Z) (us : list unit_data) : Z :=
  foldl (λ _ u, as_i64 (u_offset u + u_size u)) maxp us.

Lemma get_bytes_unit (k j : nat) (m : DefaultMappedFile) :
  file_size m = 20 * Z.of_nat k → (j < k)%nat →
  mf_get_bytes (Z.of_nat j * 20) 20 m = Some (slice (mmapped_file m) (20 * j) (20 * j + 20)).
Proof.
  intros Hs Hj. unfold mf_get_bytes. rewrite (proj2 (Z.ltb_ge _ _)) by lia.
  repeat f_equal; lia.
Qed.

(** The unit read at index [j]: one of [us], or an invalid one after them. *)
Lemma holds_read (k j : nat) (m : DefaultMappedFile) (us : list unit_data) :
  holds_units k m us → (j < k)%nat → (j ≤ length us)%nat →
  ∃ b u, mf_get_bytes (Z.of_nat j * 20) 20 m = Some b ∧ read_unit b = Done u ∧
    (((j < length us)%nat ∧ us !! j = Some u ∧ valid_unit u) ∨
     (j = length us ∧ (0 <=? u_offset u) && (0 <? u_size u) = false)).
Proof.
  intros (Hs & Hle & Hv & Hlen & tl & Hmem & Hend) Hj Hju.
  rewrite (get_bytes_unit k) by done. rewrite Hmem.
  destruct (decide (j < length us)%nat) as [Hlt | Hge].
  - destruct (lookup_lt_is_Some_2 us j Hlt) as [u Hu].
    rewrite (slice_unit _ _ _ _ Hu). eexists _, u. split; [done |].
    pose proof (Forall_lookup_1 _ _ _ _ Hv Hu) as Hval.
    rewrite <- (app_nil_r (unit_bytes u)), read_unit_bytes by apply Hval. auto.
  - assert (j = length us) as -> by lia. destruct Hend as [? | (u & Hr & Hinv)]; [lia |].
    exists (take 20 tl), u. split_and!; [| done |].
    + unfold slice. rewrite drop_app_length' by (rewrite enc_length; lia). do 2 f_equal. lia.
    + right. split; [done |]. apply andb_false_iff.
      destruct (Z.leb_spec 0 (u_offset u)); [| by left]. right. apply Z.ltb_ge. lia.
Qed.

Lemma recover_file_spec (k n j : nat) (m : DefaultMappedFile) (us : list unit_data) (maxp : Z) :
  holds_units k m us → (j + n = k)%nat → (j ≤ length us)%nat →
  recover_file n j m (20 * Z.of_nat j) maxp =
  Done (20 * Z.of_nat (length us), last_end maxp (drop j us)).
Proof.
  intros Hm. revert j maxp. induction n as [| n IH]; intros j maxp Hjn Hju; cbn [recover_file].
  - assert (length us ≤ k)%nat by apply Hm. rewrite drop_ge by lia. repeat f_equal. lia.
  - destruct (holds_read k j m us Hm) as (b & u & Hb & Hr & Hcase); [lia | done |].
    unfold CQ_STORE_UNIT_SIZE. rewrite Hb, Hr. cbn [obind].
    destruct Hcase as [(Hlt & Hu & _ & H1 & H2) | (-> & ->)].
    + rewrite (proj2 (Z.leb_le _ _)), (proj2 (Z.ltb_lt _ _)) by done. cbn [andb].
      rewrite (drop_S _ _ _ Hu). cbn [last_end foldl].
      replace (Z.of_nat j * 20 + 20) with (20 * Z.of_nat (S j)) by lia. apply IH; lia.
    + by rewrite drop_ge by lia.
Qed.

Lemma recover_file_all (k : nat) (m : DefaultMappedFile) (us : list unit_data) (maxp : Z) :
  holds_units k m us →
  recover_file k 0 m 0 maxp = Done (20 * Z.of_nat (length us), last_end maxp us).
Proof. intros Hm. apply (recover_file_spec k k 0 m us maxp Hm); lia. Qed.

Lemma last_end_app (maxp : Z) (us vs : list unit_data) :
  last_end maxp (us ++ vs) = last_end (last_end maxp us) vs.
Proof. apply foldl_app. Qed.

(** Consecutive files, all but the last full. *)
Lemma recover_files_spec (k : nat) (rest : list DefaultMappedFile) (m l : DefaultMappedFile)
    (uss : list (list unit_data)) (us : list unit_data) (maxp : Z) :
  (0 < k)%nat → Forall2 (holds_units k) (m :: rest) (uss ++ [us]) →
  last (m :: rest) = Some l → Forall (λ us, length us = k) uss →
  0 ≤ file_from_offset l → file_from_offset l + 20 * Z.of_nat k ≤ i64_MAX →
  recover_files (20 * Z.of_nat k) m rest maxp =
  Done (file_from_offset l + 20 * Z.of_nat (length us), last_end maxp (mjoin (uss ++ [us]))).
Proof.
  intros Hk. revert m uss maxp.
  induction rest as [| m' rest IH]; intros m uss maxp Hf Hl Hfull H0 H1;
    apply Forall2_cons_inv_l in Hf as (us1 & uss1 & Hm & Hf & E); cbn [recover_files];
    unfold CQ_STORE_UNIT_SIZE, rdiv; unfold i64_MAX in *;
    rewrite Z.quot_div_nonneg by lia;
    replace (20 * Z.of_nat k / 20) with (Z.of_nat k) by (rewrite Z.mul_comm, Z.div_mul; lia);
    rewrite Nat2Z.id, (recover_file_all k m us1 maxp Hm); cbn [obind];
    destruct uss as [| us0 uss]; cbn in E; injection E as <- <-.
  - injection Hl as ->. assert (length us ≤ k)%nat by apply Hm.
    rewrite (as_u64_id (20 * _)), as_u64_id by in_range. cbn. rewrite app_nil_r.
    by destruct (_ =? _).
  - apply Forall2_length in Hf. rewrite length_app in Hf. cbn in Hf. lia.
  - by apply Forall2_nil_inv_r in Hf.
  - apply Forall_cons_1 in Hfull as [-> Hfull]. rewrite Z.eqb_refl.
    rewrite (IH m' uss _ Hf) by (done || unfold i64_MAX; lia).
    change (mjoin ((us0 :: uss) ++ [us])) with (us0 ++ mjoin (uss ++ [us])).
    by rewrite last_end_app.
Qed.

Lemma truncate_keeps (sz offset : Z) (disk : bool * Z) (m : DefaultMappedFile) :
  as_i64 (file_from_offset m) ≤ offset →
  let m' := truncate_file sz offset disk m in
  file_size m' = file_size m ∧ reference_resource m' = reference_resource m ∧
  first_create_in_queue m' = first_create_in_queue m ∧
  (m' = m ∨ flushed_position m' = wrote_position m').
Proof.
  intros H. unfold truncate_file. destruct (offset <? _); [| by auto].
  rewrite (proj2 (Z.leb_le _ _)) by done. cbn. auto.
Qed.

(** Truncating at the end [e] of the last segment's units. *)
Lemma truncate_at_end (disk : nat → bool * Z) (q : MappedFileQueue) (ms : list DefaultMappedFile)
    (l : DefaultMappedFile) (w : Z) :
  queue_ok q → mapped_files q = ms ++ [l] → wrote_position l = file_size l →
  0 ≤ w ≤ mapped_file_size q →
  ∃ l', truncate_dirty_files disk (file_from_offset l + w) q = set_mapped_files (ms ++ [l']) q ∧
    wf_mf l' ∧ file_size l' = file_size l ∧ file_from_offset l' = file_from_offset l ∧
    mmapped_file l' = mmapped_file l ∧ wrote_position l' = w ∧
    reference_resource l' = reference_resource l ∧
    first_create_in_queue l' = first_create_in_queue l.
Proof.
  intros Hq E Hfull Hw. pose proof (q_size _ Hq).
  assert (Hl : mapped_files q !! length ms = Some l) by (rewrite E; by apply list_lookup_middle).
  pose proof (ok_lookup q Hq _ _ Hl) as (Hwf & Hs & Hf & H0 & _).
  destruct (ok_cast q Hq _ _ Hl) as [Hc _].
  exists (truncate_file (mapped_file_size q) (file_from_offset l + w) (disk (length ms)) l).
  destruct (truncate_keeps (mapped_file_size q) (file_from_offset l + w) (disk (length ms)) l)
    as (Hs' & Hr' & Hfc' & Hfl'); [lia |].
  destruct (truncate_file_cases q (disk (length ms)) (file_from_offset l + w) _ l Hq Hl)
    as (Hbefore & Hin & _); [lia |].
  set (l' := truncate_file _ _ _ _) in *. split.
  - unfold truncate_dirty_files. f_equal. rewrite E, imap_app. f_equal.
    + apply list_eq. intros i. rewrite list_lookup_imap.
      destruct (ms !! i) as [m |] eqn:Em; [| done]. cbn. f_equal.
      assert (Hi : mapped_files q !! i = Some m) by (rewrite E; by apply lookup_app_l_Some).
      pose proof (ok_lookup q Hq _ _ Hi) as (_ & _ & Hfi & _). apply lookup_lt_Some in Em.
      destruct (truncate_file_cases q (disk i) (file_from_offset l + w) i m Hq Hi) as (Hb & _);
        [lia |]. apply Hb. nia.
    + cbn. by rewrite Nat.add_0_r.
  - destruct (decide (w = mapped_file_size q)) as [-> | Hne].
    + rewrite (Hbefore ltac:(lia)). split_and!; try done. lia.
    + destruct Hin as (Hf' & Hm' & Hw' & Hfl); [lia |].
      split_and!; try done; [| lia]. destruct Hwf. constructor; rewrite ?Hm', ?Hs', ?Hf'; try done.
      lia.
Qed.

Lemma log_holds (k : nat) (m : DefaultMappedFile) (vs : list unit_data) :
  holds_units k m vs → wrote_position m = 20 * Z.of_nat (length vs) → log m = enc vs.
Proof.
  intros (_ & _ & _ & _ & tl & Hmem & _) Hw. unfold log. rewrite Hw, Hmem.
  replace (Z.to_nat _) with (length (enc vs)) by (rewrite enc_length; lia).
  by rewrite take_app_length.
Qed.

Section Recover.
Variables (k : nat) (disk : nat → bool * Z) (c : ConsumeQueue).
Variables (ms : list DefaultMappedFile) (l : DefaultMappedFile).
Variables (uss : list (list unit_data)) (us : list unit_data).
Hypothesis Hq : queue_ok (cq_queue c).
Hypothesis Hk : (2 ≤ k)%nat.
Hypothesis Hsize : mapped_file_size (cq_queue c) = 20 * Z.of_nat k.
Hypothesis Hfsize : cq_file_size c = 20 * Z.of_nat k.
Hypothesis Hfiles : mapped_files (cq_queue c) = ms ++ [l].
Hypothesis Hholds : Forall2 (holds_units k) (ms ++ [l]) (uss ++ [us]).
Hypothesis Hfull : Forall (λ us, length us = k) uss.
Hypothesis Hloaded : Forall (λ m, wrote_position m = file_size m) (ms ++ [l]).
Hypothesis Hnew : Forall (λ m, first_create_in_queue m = false ∧ reference_resource m = new)
                    (ms ++ [l]).

Lemma recover_result :
  ∃ c', recover disk c = Done c' ∧ cq_rep k c' (uss ++ [us]) ∧
    max_physic_offset c' =
      last_end (max_physic_offset c) (mjoin (drop (length ms - 2) (uss ++ [us]))) ∧
    base_of (mapped_files (cq_queue c')) = base_of (mapped_files (cq_queue c)) ∧
    min_logic_offset c' = min_logic_offset c.
Proof using All.
  assert (Hl : mapped_files (cq_queue c) !! length ms = Some l)
    by (rewrite Hfiles; by apply list_lookup_middle).
  pose proof (ok_lookup _ Hq _ _ Hl) as (Hwf & Hs & _ & H0 & H1).
  apply Forall_app in Hloaded as [Hlms Hll]. rewrite Forall_singleton in Hll.
  assert (Hlen : length ms = length uss).
  { apply Forall2_length in Hholds. rewrite !length_app in Hholds. cbn in Hholds. lia. }
  pose proof Hholds as Hh. apply Forall2_app_inv in Hh as [Hhms Hhl]; [| done].
  rewrite Forall2_cons in Hhl. destruct Hhl as [Hhl _]. assert (length us ≤ k)%nat by apply Hhl.
  unfold recover. rewrite Hfiles, length_app. cbn [length].
  replace (length ms + 1 - 3)%nat with (length ms - 2)%nat by lia.
  assert (Hdrop := Forall2_drop _ _ _ (length ms - 2) Hholds).
  rewrite (drop_app_le ms), (drop_app_le uss) in * by lia.
  destruct (drop (length ms - 2) ms ++ [l]) as [| m rest] eqn:Ed; [by destruct (drop _ ms) |].
  rewrite Hfsize, (recover_files_spec k rest m l (drop (length ms - 2) uss) us);
    [| lia | done | rewrite <- Ed; apply last_snoc | by apply Forall_drop | lia | lia].
  cbn [obind]. unfold i64_MAX in *. rewrite as_i64_id by in_range.
  set (q1 := set_committed_where _ _).
  assert (Hq1 : queue_ok q1) by (destruct Hq; by constructor).
  destruct (truncate_at_end disk q1 ms l (20 * Z.of_nat (length us)) Hq1 Hfiles Hll)
    as (l' & -> & Hwf' & Hs' & Hf' & Hm' & Hw' & Hr' & Hfc'); [cbn; lia |].
  destruct (queue_ok_insert q1 (length ms) l l' Hq1 Hl Hwf' Hs' Hf') as [Hq2 Hb].
  rewrite (Hfiles : mapped_files q1 = _), insert_snoc in Hq2, Hb.
  apply Forall_app in Hnew as [Hn Hnl]. rewrite Forall_singleton in Hnl. destruct Hnl as [Hn1 Hn2].
  eexists. split; [done |]. split_and!; [| done | done | done].
  constructor; cbn; try done.
  - apply Forall2_app; [| apply Forall2_cons; split; [| done]].
    + apply Forall2_same_length_lookup. split; [done |]. intros i m0 vs Hi Hv.
      apply (log_holds k); [by apply (Forall2_lookup_lr _ _ _ _ _ _ Hhms Hi Hv) |].
      rewrite (Forall_lookup_1 _ _ _ _ Hlms Hi), (Forall_lookup_1 _ _ _ _ Hfull Hv).
      by destruct (Forall2_lookup_lr _ _ _ _ _ _ Hhms Hi Hv).
    + apply (log_holds k); [| done]. destruct Hhl as (? & ? & ? & ? & ?).
      unfold holds_units. rewrite Hm', Hs'. done.
  - intros i v Hi Hlt. rewrite length_app in Hlt. cbn in Hlt. rewrite lookup_app_l in Hi by lia.
    by apply (Forall_lookup_1 _ _ _ _ Hfull Hi).
  - apply Forall_app. split; [| apply Forall_singleton; congruence].
    eapply Forall_impl; [exact Hn |]. intros ? []. congruence.
  - apply Forall_app. split; [| apply Forall_singleton, mf_live_new; congruence].
    eapply Forall_impl; [exact Hn |]. intros ? []. by apply mf_live_new.
Qed.
End Recover.

(** The unwritten part of the last file does not start with a valid unit. *)
Definition clean_tail (k : nat) (c : ConsumeQueue) (uss : list (list unit_data)) : Prop :=
  ∀ m us, last (mapped_files (cq_queue c)) = Some m → last uss = Some us →
    ends_units k us (drop (20 * length us) (mmapped_file m)).

Lemma rep_holds (k : nat) (c : ConsumeQueue) (uss : list (list unit_data)) :
  cq_rep k c uss → Forall valid_unit (mjoin uss) → clean_tail k c uss →
  Forall2 (holds_units k) (mapped_files (cq_queue c)) uss.
Proof.
  intros Hrep Hv Hct. pose proof Hrep as [Hq Hk Hsz _ Hlogs Hfull _ _].
  pose proof (Forall2_length _ _ _ Hlogs) as Hlen.
  apply Forall2_same_length_lookup. split; [done |]. intros i m us Hm Hus.
  pose proof (Forall2_lookup_lr _ _ _ _ _ _ Hlogs Hm Hus) as Hlog. cbn in Hlog.
  pose proof (ok_lookup _ Hq _ _ Hm) as (Hwf & Hfs & _).
  pose proof (log_length m Hwf) as Hw. rewrite Hlog, enc_length in Hw.
  pose proof (mf_mem _ Hwf). pose proof (mf_pos _ Hwf).
  split_and!; [lia | lia | | lia |].
  - apply Forall_lookup_2. intros j u Hu. apply (Forall_forall valid_unit (mjoin uss)); [done |].
    apply list_elem_of_join. exists us. split; by eapply list_elem_of_lookup_2.
  - exists (drop (20 * length us) (mmapped_file m)). split.
    + rewrite <- Hlog. unfold log. replace (20 * length us)%nat with (Z.to_nat (wrote_position m)) by lia.
      by rewrite take_drop.
    + destruct (decide (S i < length uss)%nat) as [Hlt | Hge].
      * left. by apply (Hfull i).
      * pose proof (lookup_lt_Some _ _ _ Hus). apply Hct; rewrite last_lookup.
        -- rewrite Hlen. by replace (pred (length uss)) with i by lia.
        -- by replace (pred (length uss)) with i by lia.
Qed.

Lemma holds_reloaded (k : nat) (m m' : DefaultMappedFile) (us : list unit_data) :
  holds_units k m us → reloaded m m' → holds_units k m' us.
Proof.
  intros (H1 & H2 & H3 & H4 & H5) (_ & Hs & _ & Hm & _). unfold holds_units.
  rewrite Hs, Hm. done.
Qed.

Lemma holds_all_reloaded (k : nat) (ms ms' : list DefaultMappedFile)
    (uss : list (list unit_data)) :
  Forall2 (holds_units k) ms uss → Forall2 reloaded ms ms' → Forall2 (holds_units k) ms' uss.
Proof.
  intros H. revert ms'. induction H; intros ms' Hr; inversion_clear Hr; constructor; auto.
  by eapply holds_reloaded.
Qed.

Lemma reloaded_facts (m m' : DefaultMappedFile) :
  reloaded m m' → wrote_position m' = file_size m' ∧ first_create_in_queue m' = false ∧
                  reference_resource m' = new.
Proof.
  intros (Hwf & _ & _ & _ & Hfull & _ & _ & Hfc & Hr). split_and!; try done.
  rewrite is_full_spec in Hfull by done. by apply bool_decide_eq_true in Hfull.
Qed.

(** C11: Restarting keeps the queue: opening the directory of a queue of valid
    units, whatever order its files are listed in, and recovering it gives back
    exactly the units it held, at the same queue offsets, and the end of the
    last indexed message, provided that what follows the last unit in its file
    is no valid unit, as in a queue that was never truncated (see
    [truncated_unit_returns]). *)
Theorem restart_keeps_units (k : nat) (c : ConsumeQueue) (uss : list (list unit_data))
    (dir : list dir_entry) (path topic : string) (id : Z) (disk : nat → bool * Z) :
  cq_rep k c uss → uss ≠ [] → Forall valid_unit (mjoin uss) → clean_tail k c uss →
  dir ≡ₚ entry_of <$> mapped_files (cq_queue c) →
  ∃ c1 c2,
    cq_load (Some (Some <$> dir)) None (new_consume_queue path None topic id (20 * Z.of_nat k)) =
      Done (c1, true) ∧
    recover disk c1 = Done c2 ∧ cq_rep k c2 uss ∧ first_index c2 = first_index c ∧
    max_physic_offset c2 = last_end (-1) (mjoin (drop (length uss - 3) uss)).
Proof.
  intros Hrep Hne Hv Hct Hdir. pose proof (rep_holds k c uss Hrep Hv Hct) as Hholds.
  destruct Hrep as [Hq Hk Hsz Hfsz _ Hfull _ _]. pose proof (q_size _ Hq) as Hqs.
  unfold i32_MAX in Hqs.
  assert (Hu : as_u64 (20 * Z.of_nat k) = 20 * Z.of_nat k) by (apply as_u64_id; in_range).
  destruct (load_restores (new_queue path (20 * Z.of_nat k) false) (cq_queue c) dir Hq)
    as (q' & Hload & Hq' & Hsz' & Hrel); [done | done | done | done |].
  unfold cq_load, new_consume_queue. rewrite Hu. cbn [cq_queue]. rewrite Hload. cbn [obind].
  eexists _. set (c1 := set_cq_queue q' _).
  destruct uss as [| us uss0 _] using rev_ind; [done |].
  assert (Hh : Forall2 (holds_units k) (mapped_files q') (uss0 ++ [us])).
  { by eapply holds_all_reloaded. }
  assert (Hr : Forall (λ m', wrote_position m' = file_size m' ∧
      first_create_in_queue m' = false ∧ reference_resource m' = new) (mapped_files q')).
  { clear -Hrel. induction Hrel; constructor; [by eapply reloaded_facts | done]. }
  apply Forall2_app_inv_r in Hh as Hsplit. destruct Hsplit as (ms & ls & Hms & Hls & E).
  apply Forall2_cons_inv_r in Hls as (l & ls' & _ & Hnil & ->).
  apply Forall2_nil_inv_r in Hnil as ->.
  destruct (recover_result k disk c1 ms l uss0 us) as (c2 & Hrun & Hrep2 & Hmax & Hb & _);
    try done.
  - by rewrite <- E.
  - by apply full_forall in Hfull.
  - rewrite <- E. eapply Forall_impl; [exact Hr |]. by intros ? (? & _).
  - rewrite <- E. eapply Forall_impl; [exact Hr |]. by intros ? (_ & ?).
  - exists c2. split_and!; try done.
    + unfold first_index. rewrite Hb. cbn. f_equal. destruct Hrel as [| m m' ? ? Hr0 _]; [done |].
      by destruct Hr0 as (_ & _ & ? & _).
    + rewrite Hmax. cbn. rewrite (Forall2_length _ _ _ Hms), length_app. cbn.
      do 3 f_equal. lia.
Qed.

(** A queue of two segments of three units: the first full, the second with
    one unit. *)
Definition sample_units : list (list unit_data) :=
  [[blank_unit; mkUnit 1000 100 7; mkUnit 1100 50 8]; [mkUnit 1150 60 9]].
Definition sample_segment (from : Z) (us : list unit_data) (fc : bool) : DefaultMappedFile :=
  mkMF new (enc us ++ replicate (60 - length (enc us)) Byte.x00) false (offset_to_file_name from)
    from (20 * Z.of_nat (length us)) 0 0 60 0 fc 0 0 true.
Definition sample_built : ConsumeQueue :=
  mkCQ (mkQueue "/q/t/0" 60
          [sample_segment 60 [blank_unit; mkUnit 1000 100 7; mkUnit 1100 50 8] true;
           sample_segment 120 [mkUnit 1150 60 9] false] false 80 80 0)
    "t" 0 60 1210 80 None.

Lemma sample_built_rep : cq_rep 3 sample_built sample_units.
Proof.
  constructor.
  - constructor; cbn; try done; try by exists 1.
    repeat (apply Forall_cons; split); try done; constructor; done.
  - lia.
  - done.
  - done.
  - repeat (apply Forall2_cons; split); vm_compute; done.
  - intros [| [| i]] us Hi Hlt; cbn in *; [by injection Hi as <- | lia | done].
  - by repeat (apply Forall_cons; split).
  - repeat (apply Forall_cons; split); try done; by apply mf_live_new.
Qed.

Lemma restart_keeps_units_witness :
  ∃ c1 c2,
    cq_load (Some (Some <$> reverse (entry_of <$> mapped_files (cq_queue sample_built)))) None
      (new_consume_queue "/q/t/0" None "t" 0 60) = Done (c1, true) ∧
    recover (λ _, (true, 0)) c1 = Done c2 ∧ cq_rep 3 c2 sample_units ∧
    first_index c2 = first_index sample_built ∧
    max_physic_offset c2 = last_end (-1) (mjoin (drop 0 sample_units)).
Proof.
  apply (restart_keeps_units 3 sample_built sample_units); [apply sample_built_rep | done | | |].
  - repeat (apply Forall_cons; split); try done.
  - intros m us Hm Hus. injection Hm as <-. injection Hus as <-. right.
    exists (mkUnit 0 0 0). split; [vm_compute; reflexivity |]. cbn. lia.
  - apply reverse_Permutation.
Defined.

(** ** Truncation *)

(** The leading units of messages below [phy]. *)
Fixpoint before (phy : Z) (us : list unit_data) : list unit_data :=
  match us with
  | [] => []
  | u :: us' => if phy <=? u_offset u then [] else u :: before phy us'
  end.

Lemma before_prefix (phy : Z) (us : list unit_data) : before phy us `prefix_of` us.
Proof.
  induction us as [| u us IH]; [done |]. cbn. destruct (phy <=? u_offset u); [apply prefix_nil |].
  by apply prefix_cons.
Qed.

Lemma before_app (phy : Z) (us vs : list unit_data) :
  before phy (us ++ vs) =
  if decide (Forall (λ u, u_offset u < phy) us) then us ++ before phy vs else before phy us.
Proof.
  induction us as [| u us IH]; [by rewrite decide_True by constructor |]. cbn. rewrite IH.
  destruct (Z.leb_spec phy (u_offset u)).
  - rewrite decide_False; [done |]. intros Hf. apply Forall_cons_1 in Hf as [? _]. lia.
  - destruct (decide (Forall _ us)) as [Hf | Hf].
    + rewrite decide_True by (by apply Forall_cons). done.
    + rewrite decide_False; [done |]. intros Hc. by apply Forall_cons_1 in Hc as [_ ?].
Qed.

Lemma before_all (phy : Z) (us : list unit_data) :
  Forall (λ u, u_offset u < phy) us → before phy us = us.
Proof.
  induction 1 as [| u us Hu _ IH]; [done |]. cbn. rewrite (proj2 (Z.leb_gt _ _)) by lia.
  by rewrite IH.
Qed.

(** In a queue sorted by commit log offset those are all of them. *)
Lemma before_filter (phy : Z) (us : list unit_data) :
  StronglySorted Z.le (u_offset <$> us) → before phy us = filter (λ u, u_offset u < phy) us.
Proof.
  induction us as [| u us IH]; intros Hs; [done |].
  cbn in Hs. apply StronglySorted_inv in Hs as [Hs Hall]. cbn [before].
  destruct (Z.leb_spec phy (u_offset u)).
  - rewrite filter_cons_False by lia. 
    clear IH Hs. induction us as [| v us IH]; [done |]. cbn in Hall.
    apply Forall_cons_1 in Hall as [? Hall]. rewrite filter_cons_False by lia. by apply IH.
  - rewrite filter_cons_True, IH by done. done.
Qed.

Lemma holds_set (k : nat) (p : Z) (m : DefaultMappedFile) (us : list unit_data) :
  holds_units k m us → holds_units k (set_positions p m) us.
Proof. done. Qed.

(** The scan from index [j] on, all of the file's units before it kept. *)
Lemma truncate_scan_from (k n j : nat) (phy maxp : Z) (m : DefaultMappedFile)
    (us : list unit_data) :
  holds_units k m us → (j + n = k)%nat → (1 ≤ j ≤ length us)%nat → (j < k)%nat →
  truncate_scan n j (20 * Z.of_nat k) phy (set_positions (20 * Z.of_nat j) m) maxp =
  Done (set_positions (20 * Z.of_nat (j + length (before phy (drop j us)))) m,
        last_end maxp (before phy (drop j us)), ScanReturn).
Proof.
  intros Hm. revert j maxp. induction n as [| n IH]; intros j maxp Hjn Hju Hjk; [lia |].
  destruct (holds_read k j _ us (holds_set k (20 * Z.of_nat j) m us Hm))
    as (b & u & Hb & Hr & Hcase); [lia | lia |].
  cbn [truncate_scan]. unfold CQ_STORE_UNIT_SIZE. rewrite Hb, Hr. cbn [obind].
  destruct j as [| j]; [lia |].
  destruct Hcase as [(Hlt & Hu & _ & H1 & H2) | (Hlen & Hinv)].
  - rewrite (proj2 (Z.leb_le 0 _)), (proj2 (Z.ltb_lt _ _)) by done. cbn [andb].
    rewrite (drop_S _ _ _ Hu). cbn [before].
    destruct (phy <=? u_offset u); [cbn; by rewrite Nat.add_0_r |].
    change (set_positions ?x (set_positions _ m)) with (set_positions x m).
    replace (Z.of_nat (S j) * 20 + 20) with (20 * Z.of_nat (S (S j))) by lia.
    destruct (Z.eqb_spec (20 * Z.of_nat (S (S j))) (20 * Z.of_nat k)) as [Hend | Hne].
    + assert (length us ≤ k)%nat by apply Hm. rewrite (drop_ge us) by lia.
      cbn [before length]. by rewrite Nat.add_1_r.
    + rewrite IH by lia. cbn [length]. by rewrite <- Nat.add_succ_comm.
  - rewrite Hinv, (drop_ge us) by lia. cbn. by rewrite Nat.add_0_r.
Qed.

(** The scan of a file that holds at least one unit. *)
Lemma truncate_scan_file (k : nat) (phy maxp : Z) (m : DefaultMappedFile) (u : unit_data)
    (us : list unit_data) :
  holds_units k m (u :: us) → (2 ≤ k)%nat →
  truncate_scan k 0 (20 * Z.of_nat k) phy (set_positions 0 m) maxp =
  Done (if phy <=? u_offset u then (set_positions 0 m, maxp, ScanDelete)
        else (set_positions (20 * Z.of_nat (length (before phy (u :: us)))) m,
              last_end maxp (before phy (u :: us)), ScanReturn)).
Proof.
  intros Hm Hk. destruct k as [| k']; [lia |]. cbn [truncate_scan].
  destruct (holds_read (S k') 0 _ (u :: us) (holds_set (S k') 0 m _ Hm))
    as (b & u' & Hb & Hr & Hcase); [lia | lia |].
  unfold CQ_STORE_UNIT_SIZE. rewrite Hb, Hr. cbn [obind].
  destruct Hcase as [(_ & Hu & _) | (Hlen & _)]; [| done]. injection Hu as <-. cbn [before].
  destruct (phy <=? u_offset u); [done |].
  change (set_positions ?x (set_positions _ m)) with (set_positions x m).
  pose proof (truncate_scan_from (S k') k' 1 phy (as_i64 (u_offset u + u_size u)) m (u :: us) Hm)
    as Hscan. change (Z.of_nat 0 * 20 + 20) with (20 * Z.of_nat 1).
  rewrite Hscan by (cbn; lia). done.
Qed.

(** Without its last segment, a queue still is one. *)
Lemma queue_ok_init (q : MappedFileQueue) (ms : list DefaultMappedFile) (l : DefaultMappedFile) :
  queue_ok q → mapped_files q = ms ++ [l] → queue_ok (set_mapped_files ms q).
Proof.
  intros [Hs Hf Hc Ha Hsv] E. rewrite E in *. apply Forall_app in Hf as [Hf _].
  constructor; cbn; try done.
  - destruct ms as [| m ms]; [done |]. by apply chain_snoc in Hc as [Hc _].
  - destruct ms as [| m ms]; [by exists 0 | done].
Qed.

Lemma rep_init (k : nat) (c : ConsumeQueue) (ms : list DefaultMappedFile) (l : DefaultMappedFile)
    (uss : list (list unit_data)) (us : list unit_data) :
  cq_rep k c (uss ++ [us]) → mapped_files (cq_queue c) = ms ++ [l] → length ms = length uss →
  cq_rep k (set_cq_queue (set_mapped_files ms (cq_queue c)) c) uss.
Proof.
  intros [Hq Hk Hsz Hfsz Hlogs Hfull Hfirst Hlive] E Hlen.
  rewrite E in *. apply Forall2_app_inv in Hlogs as [Hlogs _]; [| done].
  apply Forall_app in Hfirst as [Hfirst _]. apply Forall_app in Hlive as [Hlive _].
  constructor; cbn; try done.
  - by eapply queue_ok_init.
  - intros i u Hi _. by apply (Forall_lookup_1 _ _ _ _ (full_forall _ _ _ Hfull) Hi).
Qed.

(** Shortening the last segment to a non-empty prefix of its units. *)
Lemma rep_shorten (k : nat) (c : ConsumeQueue) (ms : list DefaultMappedFile)
    (l : DefaultMappedFile) (uss : list (list unit_data)) (us vs : list unit_data) :
  cq_rep k c (uss ++ [us]) → mapped_files (cq_queue c) = ms ++ [l] → length ms = length uss →
  holds_units k l us → vs `prefix_of` us → vs ≠ [] →
  cq_rep k (set_file (length ms) (set_positions (20 * Z.of_nat (length vs)) l) c) (uss ++ [vs]).
Proof.
  intros [Hq Hk Hsz Hfsz Hlogs Hfull Hfirst Hlive] E Hlen (Hs & Hle & _ & _ & tl & Hmem & _) Hpre Hne.
  assert (Hl : mapped_files (cq_queue c) !! length ms = Some l)
    by (rewrite E; by apply list_lookup_middle).
  pose proof (ok_lookup _ Hq _ _ Hl) as (Hwf & _). rewrite E in Hlogs, Hfirst, Hlive.
  apply Forall2_app_inv in Hlogs as [Hlogs _]; [| done]. apply Forall_app in Hfirst as [Hfirst _].
  pose proof (prefix_length _ _ Hpre).
  apply (rep_append k c ms l uss); try done.
  - by eapply full_forall.
  - destruct Hwf. constructor; cbn; try done. lia.
  - unfold log. cbn. rewrite Hmem. destruct Hpre as [ws ->]. rewrite enc_app, <- app_assoc.
    replace (Z.to_nat _) with (length (enc vs)) by (rewrite enc_length; lia).
    by rewrite take_app_length.
Qed.

Lemma rep_max (k : nat) (c : ConsumeQueue) (o : Z) (uss : list (list unit_data)) :
  cq_rep k c uss → cq_rep k (set_max_physic_offset o c) uss.
Proof. intros []. by constructor. Qed.

Lemma sorted_app_le (l1 l2 : list Z) (x : Z) :
  StronglySorted Z.le (l1 ++ x :: l2) → Forall (λ y, y ≤ x) l1 ∧ StronglySorted Z.le l1.
Proof.
  induction l1 as [| y l1 IH]; cbn; intros H; [by split; constructor |].
  apply StronglySorted_inv in H as [Hs Hall]. destruct (IH Hs) as [H1 H2].
  apply Forall_app in Hall as [Ha Hb]. apply Forall_cons_1 in Hb as [Hx _].
  split; [by apply Forall_cons | by constructor].
Qed.

(** Removing the last file, whatever positions it was given. *)
Lemma delete_last_eq (c : ConsumeQueue) (ms : list DefaultMappedFile) (l l' : DefaultMappedFile)
    (d : bool * Z) :
  mapped_files (cq_queue c) = ms ++ [l] →
  let c1 := set_max_physic_offset (max_physic_offset c) (set_file (length ms) l' c) in
  set_cq_queue (delete_last_mapped_file d (cq_queue c1)).1 c1 =
  set_cq_queue (set_mapped_files ms (cq_queue c)) c.
Proof.
  intros E c1. destruct c as [q t i f mx mn ext]. cbn in *. unfold delete_last_mapped_file.
  replace (get_last_mapped_file _) with (Some (length ms)).
  2: { unfold get_last_mapped_file. cbn. rewrite E, insert_snoc. destruct ms; [done |]. cbn.
       by rewrite length_app, Nat.add_1_r. }
  cbn. rewrite E, insert_snoc, take_app_length. done.
Qed.

Lemma truncate_loop_spec (k fuel : nat) (disk : nat → bool * Z) (phy : Z) (sd : bool)
    (uss : list (list unit_data)) (c : ConsumeQueue) :
  (length uss < fuel)%nat → cq_rep k c uss → Forall (λ us, us ≠ []) uss →
  Forall2 (holds_units k) (mapped_files (cq_queue c)) uss →
  StronglySorted Z.le (u_offset <$> mjoin uss) → max_physic_offset c = phy →
  ∃ c' uss', truncate_loop fuel sd true disk phy c = Done (Ended c') ∧ cq_rep k c' uss' ∧
    mjoin uss' = before phy (mjoin uss) ∧ max_physic_offset c' = last_end phy (mjoin uss') ∧
    min_logic_offset c' = min_logic_offset c.
Proof.
  revert fuel sd c. induction uss as [| us uss0 IH] using rev_ind;
    intros fuel sd c Hfuel Hrep Hne Hholds Hsort Hmax; (destruct fuel as [| fuel]; [cbn in *; lia |]).
  - apply Forall2_nil_inv_r in Hholds as E. cbn [truncate_loop]. unfold get_last_mapped_file.
    rewrite E. exists c, []. split_and!; try done.
  - destruct (rep_snoc _ _ _ Hrep) as (ms & l & uss1 & us1 & E & Eu & Hlen & _); [by destruct uss0 |].
    apply app_inj_tail in Eu as [<- <-]. apply Forall_app in Hne as [Hne0 Hne1].
    rewrite Forall_singleton in Hne1. rewrite E in Hholds.
    apply Forall2_app_inv in Hholds as [Hh0 Hh1]; [| done].
    rewrite Forall2_cons in Hh1. destruct Hh1 as [Hl _].
    destruct us as [| u us]; [done |]. pose proof (r_k _ _ _ Hrep) as Hk.
    assert (Hlast : get_last_mapped_file (cq_queue c) = Some (length ms)).
    { unfold get_last_mapped_file. rewrite E. destruct ms; [done |]. cbn.
      by rewrite length_app, Nat.add_1_r. }
    assert (Hm : mapped_files (cq_queue c) !! length ms = Some l)
      by (rewrite E; by apply list_lookup_middle).
    cbn [truncate_loop]. rewrite Hlast, Hm. cbn [unwrap obind].
    unfold rdiv, CQ_STORE_UNIT_SIZE. rewrite (r_fsize _ _ _ Hrep), Z.quot_div_nonneg by lia.
    rewrite (Z.mul_comm 20), Z.div_mul, Nat2Z.id, (Z.mul_comm _ 20) by lia.
    rewrite (truncate_scan_file k phy (max_physic_offset c) l u us Hl Hk). cbn [obind].
    rewrite join_app, fmap_app in Hsort. cbn in Hsort. rewrite app_nil_r in Hsort.
    destruct (Z.leb_spec phy (u_offset u)) as [Hge | Hlt]; cbn [obind].
    + rewrite (delete_last_eq c ms l) by done.
      destruct (IH fuel true (set_cq_queue (set_mapped_files ms (cq_queue c)) c))
        as (c' & uss' & Hrun & Hrep' & Hj & Hmx & Hmn); try done.
      * rewrite length_app in Hfuel. cbn in Hfuel. lia.
      * by apply (rep_init k c ms l uss0 (u :: us)).
      * by apply sorted_app_le in Hsort as [_ ?].
      * exists c', uss'. split_and!; try done. rewrite Hj, join_app, before_app. cbn.
        rewrite (proj2 (Z.leb_le _ _)) by done. case_decide; [| done].
        by rewrite before_all, app_nil_r.
    + assert (Hall : Forall (λ v, u_offset v < phy) (mjoin uss0)).
      { apply sorted_app_le in Hsort as [Hsort _]. rewrite Forall_fmap in Hsort.
        eapply Forall_impl; [exact Hsort |]. cbn. intros. lia. }
      eexists _, (uss0 ++ [before phy (u :: us)]). split; [done |]. split.
      { apply rep_max. apply (rep_shorten k c ms l uss0 (u :: us)); try done.
        - apply before_prefix.
        - cbn. by rewrite (proj2 (Z.leb_gt _ _)) by lia. }
      rewrite !join_app, before_app, decide_True by done.
      change (mjoin [?x]) with (x ++ []). rewrite !app_nil_r. split_and!; [done | | done].
      cbn [set_max_physic_offset max_physic_offset]. rewrite last_end_app, Hmax.
      cbn [before]. by rewrite (proj2 (Z.leb_gt _ _)) by lia.
Qed.

(** C12: Truncating the queue after the commit log was cut at [phy]: with segments
    of at least two units, none of them empty, units in the order of the log,
    and no valid unit after the last one in its file, the loop ends after at
    most one round per segment and leaves exactly the units of the messages
    below [phy]; the maximum becomes the end of the last of those messages. *)
Theorem truncate_keeps_below (k fuel : nat) (disk : nat → bool * Z) (phy : Z)
    (c : ConsumeQueue) (uss : list (list unit_data)) :
  cq_rep k c uss → Forall valid_unit (mjoin uss) → clean_tail k c uss →
  Forall (λ us, us ≠ []) uss → StronglySorted Z.le (u_offset <$> mjoin uss) →
  (length uss < fuel)%nat →
  ∃ c' uss', truncate_dirty_logic_files fuel disk phy c = Done (Ended c') ∧ cq_rep k c' uss' ∧
    mjoin uss' = filter (λ u, u_offset u < phy) (mjoin uss) ∧
    max_physic_offset c' = last_end phy (mjoin uss') ∧
    min_logic_offset c' = min_logic_offset c.
Proof.
  intros Hrep Hv Hct Hne Hs Hfuel. pose proof (rep_holds k c uss Hrep Hv Hct) as Hh.
  rewrite <- before_filter by done. unfold truncate_dirty_logic_files,
    truncate_dirty_logic_files_handler.
  destruct (truncate_loop_spec k fuel disk phy false uss (set_max_physic_offset phy c))
    as (c' & uss' & H); try done; [by apply rep_max |]. by exists c', uss'.
Qed.

Lemma truncate_keeps_below_witness :
  ∃ c' uss', truncate_dirty_logic_files 3 (λ _, (true, 0)) 1100 sample_built = Done (Ended c') ∧
    cq_rep 3 c' uss' ∧
    mjoin uss' = filter (λ u, u_offset u < 1100) (mjoin sample_units) ∧
    max_physic_offset c' = last_end 1100 (mjoin uss') ∧
    min_logic_offset c' = min_logic_offset sample_built.
Proof.
  apply (truncate_keeps_below 3 3 (λ _, (true, 0)) 1100 sample_built sample_units).
  - apply sample_built_rep.
  - repeat (apply Forall_cons; split); try done.
  - intros m us Hm Hus. injection Hm as <-. injection Hus as <-. right.
    exists (mkUnit 0 0 0). split; [vm_compute; reflexivity |]. cbn. lia.
  - by repeat (apply Forall_cons; split).
  - cbn. repeat constructor; done.
  - cbn. lia.
Defined.

(** Truncation leaves the bytes of the units it drops, so that without the
    condition on what follows the last unit they return: to a second truncation
    further on, and to a queue that is opened again. *)
Lemma truncated_unit_returns :
  match truncate_dirty_logic_files 3 (λ _, (true, 0)) 1100 sample_built with
  | Done (Ended c1) =>
      get_max_offset (cq_queue c1) = 60 + 20 * 2 ∧
      match truncate_dirty_logic_files 3 (λ _, (true, 0)) 1150 c1 with
      | Done (Ended c2) => get_max_offset (cq_queue c2) = 60 + 20 * 3
      | _ => False
      end ∧
      match cq_load (Some (Some <$> (entry_of <$> mapped_files (cq_queue c1)))) None
              (new_consume_queue "/q/t/0" None "t" 0 60) with
      | Done (c3, true) =>
          match recover (λ _, (true, 0)) c3 with
          | Done c4 => get_max_offset (cq_queue c4) = 60 + 20 * 3
          | Panic => False
          end
      | _ => False
      end
  | _ => False
  end.
Proof. vm_compute. by split_and!. Qed.

(** ** The minimum cannot be corrected past the first segment *)

Lemma select_exact (m : DefaultMappedFile) (pos sz : Z) :
  wf_mf m → mf_live m → 0 ≤ pos → 0 ≤ sz → pos + sz ≤ wrote_position m →
  ∃ m' b, select_mapped_buffer pos sz m =
    Done (m', Some (mkSelect (file_from_offset m + pos) sz (Some b) true)) ∧ same_file m m'.
Proof.
  intros Hwf (h & Hlive & Hh) Hp Hs Hin. unfold select_mapped_buffer, get_read_position.
  pose proof Hwf as [Hmem Hsz Hfrom Hpos]. unfold i32_MAX, i64_MAX in *.
  rewrite as_i32_id by in_range. rewrite (proj2 (Z.leb_le _ _)) by lia.
  unfold mf_hold. destruct (hold_live h (reference_resource m)) as [_ Hb]; [lia | done |].
  destruct (hold (reference_resource m)) as [r b]. cbn in Hb. subst b. cbn.
  rewrite !as_usize_id by in_range. rewrite (proj2 (Z.leb_le _ _)), (proj2 (Z.leb_le _ _)) by lia.
  cbn. rewrite (as_u64_id pos), as_u64_id by in_range. eexists _, _. done.
Qed.

(** In a queue whose last segment does not start at offset 0, correcting the
    minimum panics: it reads the last unit at its offset in the whole queue. *)
Theorem correct_min_offset_panics (k fuel : nat) (min_commit : Z) (c : ConsumeQueue)
    (uss : list (list unit_data)) (us : list unit_data) :
  cq_rep k c (uss ++ [us]) → us ≠ [] → Z.of_nat k ≤ next_index c uss →
  min_commit < 20 * next_index c (uss ++ [us]) →
  correct_min_offset fuel min_commit c = Panic.
Proof.
  intros Hrep Hus Hlater Hmin.
  destruct (rep_snoc _ _ _ Hrep) as (ms & l & uss1 & us1 & E & Eu & Hlen & Hlog & Hwf & Hw & _
    & Hend & Hfi & Hfs); [by destruct uss |].
  apply app_inj_tail in Eu as [<- <-]. pose proof Hrep as [Hq _ _ _ _ Hfull _ Hlive].
  assert (Hm : mapped_files (cq_queue c) !! length ms = Some l)
    by (rewrite E; by apply list_lookup_middle).
  pose proof (Forall_lookup_1 _ _ _ _ Hlive Hm) as Hlv. unfold correct_min_offset.
  destruct (max_offset_end _ Hq) as [-> _]. unfold logical_end. rewrite E, last_snoc.
  rewrite (proj2 (Z.leb_gt _ _)) by lia.
  replace (get_last_mapped_file _) with (Some (length ms)).
  2: { unfold get_last_mapped_file. rewrite E. destruct ms; [done |]. cbn.
       by rewrite length_app, Nat.add_1_r. }
  assert (0 < Z.of_nat (length us)) by (destruct us; [done | cbn; lia]).
  unfold all_below, get_read_position, CQ_STORE_UNIT_SIZE. rewrite Hm. cbn [unwrap obind].
  pose proof (mf_pos _ Hwf). pose proof (mf_size _ Hwf). pose proof (mf_from _ Hwf).
  unfold i32_MAX, i64_MAX in *. rewrite as_i32_id by in_range.
  destruct (select_exact l (wrote_position l - 20) 20 Hwf Hlv) as (l' & b & -> & Hsame); [lia.. |].
  cbn [obind start_offset size]. destruct Hsame as (Hf & Hs & _).
  unfold mf_get_bytes. rewrite Hs, (as_usize_id (file_from_offset l + _)), (as_usize_id 20) by in_range.
  assert (Hfrom : 20 * Z.of_nat k ≤ file_from_offset l).
  { unfold next_index in *. rewrite join_app, length_app in Hend. cbn in Hend.
    rewrite app_nil_r in Hend. lia. }
  by rewrite (proj2 (Z.ltb_lt _ _)) by lia.
Qed.

Lemma correct_min_offset_panics_witness : correct_min_offset 10 100 sample_built = Panic.
Proof.
  apply (correct_min_offset_panics 3 10 100 sample_built
    [[blank_unit; mkUnit 1000 100 7; mkUnit 1100 50 8]] [mkUnit 1150 60 9]);
    [apply sample_built_rep | done | vm_compute; congruence | vm_compute; congruence].
Defined.
