(* ===== verification/StoreCheckpoint.v ===== *)
(** * StoreCheckpoint: the checkpoint file of the store ([store_checkpoint.rs])

    The checkpoint keeps five 64-bit words in memory and in the first 40 bytes
    of a page-sized mapped file.  Opening the file reads all five; writing
    them goes through a window of 8 bytes. *)

From stdpp Require Import base list.
From Stdlib Require Import ZArith Lia.
From S2P Require Import Prelude Bytes MappedFile MappedFileQueue.
Open Scope Z_scope.
Open Scope rmq_scope.

Record StoreCheckpoint := mkCheckpoint {
  mmap : buffer;
  physic_msg_timestamp : Z;
  logics_msg_timestamp : Z;
  index_msg_timestamp : Z;
  master_flushed_offset : Z;
  confirm_phy_offset : Z;
}.

(** The big-endian word at [pos] of the page. *)
Definition word_at (pos : nat) (page : buffer) : Z := be_value (slice page pos (pos + 8)).

(** [new]: [existing] is what the file held before [set_len] cut or
    zero-extended it to a page; the file then never is empty. *)
Definition open_checkpoint (existing : buffer) : StoreCheckpoint :=
  let n := Z.to_nat OS_PAGE_SIZE in
  let page := take n existing ++ replicate (n - length existing) Byte.x00 in
  mkCheckpoint page (word_at 0 page) (word_at 8 page) (word_at 16 page) (word_at 24 page)
    (word_at 32 page).

(** [write_all] into the window of [room] bytes at [pos]: what fits is copied,
    and more than fits is an error. *)
Definition write_all (d : buffer) (w : buffer * nat * nat) : (buffer * nat * nat) * bool :=
  let '(page, pos, room) := w in
  let part := take room d in
  ((splice page pos part, (pos + length part)%nat, (room - length part)%nat),
   bool_decide (length d ≤ room)%nat).

Fixpoint write_words (ws : list Z) (w : buffer * nat * nat) : buffer * bool :=
  match ws with
  | [] => (w.1.1, true)
  | z :: ws' =>
      let '(w, ok) := write_all (be_bytes 8 z) w in
      if ok then write_words ws' w else (w.1.1, false)
  end.

Definition words (s : StoreCheckpoint) : list Z :=
  [physic_msg_timestamp s; logics_msg_timestamp s; index_msg_timestamp s;
   master_flushed_offset s; confirm_phy_offset s].

(** [flush]: the window borrows the lock on the mapping until the function
    ends, so the second lock, after the writes, would wait for ever. *)
Definition flush_checkpoint (s : StoreCheckpoint) : locked (StoreCheckpoint * bool) :=
  let '(page, ok) := write_words (words s) (mmap s, 0%nat, 8%nat) in
  let s := mkCheckpoint page (physic_msg_timestamp s) (logics_msg_timestamp s)
             (index_msg_timestamp s) (master_flushed_offset s) (confirm_phy_offset s) in
  if ok then write_lock 1 (s, true) else Returned (s, false).

Definition set_physic_msg_timestamp (t : Z) (s : StoreCheckpoint) : StoreCheckpoint :=
  mkCheckpoint (mmap s) t (logics_msg_timestamp s) (index_msg_timestamp s)
    (master_flushed_offset s) (confirm_phy_offset s).
Definition set_logics_msg_timestamp (t : Z) (s : StoreCheckpoint) : StoreCheckpoint :=
  mkCheckpoint (mmap s) (physic_msg_timestamp s) t (index_msg_timestamp s)
    (master_flushed_offset s) (confirm_phy_offset s).
Definition set_index_msg_timestamp (t : Z) (s : StoreCheckpoint) : StoreCheckpoint :=
  mkCheckpoint (mmap s) (physic_msg_timestamp s) (logics_msg_timestamp s) t
    (master_flushed_offset s) (confirm_phy_offset s).
Definition set_master_flushed_offset (o : Z) (s : StoreCheckpoint) : StoreCheckpoint :=
  mkCheckpoint (mmap s) (physic_msg_timestamp s) (logics_msg_timestamp s)
    (index_msg_timestamp s) o (confirm_phy_offset s).
Definition set_confirm_phy_offset (o : Z) (s : StoreCheckpoint) : StoreCheckpoint :=
  mkCheckpoint (mmap s) (physic_msg_timestamp s) (logics_msg_timestamp s)
    (index_msg_timestamp s) (master_flushed_offset s) o.

Definition get_min_timestamp (s : StoreCheckpoint) : Z :=
  let min := as_i64 (Z.min (physic_msg_timestamp s) (logics_msg_timestamp s)) in
  let min := as_i64 (min - 1000 * 3) in
  as_u64 (Z.max min 0).
Definition get_min_timestamp_index (s : StoreCheckpoint) : Z :=
  Z.min (get_min_timestamp s) (index_msg_timestamp s).

(** ** Theorems *)

(** A page of the file's size. *)
Definition checkpoint_ok (s : StoreCheckpoint) : Prop :=
  length (mmap s) = Z.to_nat OS_PAGE_SIZE ∧ Forall (in_u 64) (words s).

(** The recovery point never lies after the earlier of the two clocks, and is
    at most three seconds before it. *)
Lemma get_min_timestamp_spec (s : StoreCheckpoint) :
  physic_msg_timestamp s < 2 ^ 63 → logics_msg_timestamp s < 2 ^ 63 → checkpoint_ok s →
  get_min_timestamp s =
  Z.max 0 (Z.min (physic_msg_timestamp s) (logics_msg_timestamp s) - 3000).
Proof.
  intros Hp Hl [_ Hok]. do 2 apply Forall_cons_1 in Hok as [? Hok].
  unfold get_min_timestamp. rewrite (as_i64_id (Z.min _ _)) by in_range.
  rewrite (as_i64_id (_ - _)), as_u64_id by in_range. lia.
Qed.

Lemma flush_writes_first (s : StoreCheckpoint) :
  checkpoint_ok s →
  flush_checkpoint s = Returned (mkCheckpoint (splice (mmap s) 0 (be_bytes 8 (physic_msg_timestamp s)))
    (physic_msg_timestamp s) (logics_msg_timestamp s) (index_msg_timestamp s)
    (master_flushed_offset s) (confirm_phy_offset s), false).
Proof.
  intros [Hlen _]. unfold flush_checkpoint. cbn [words write_words write_all].
  rewrite take_ge by (rewrite be_bytes_length; lia). rewrite be_bytes_length.
  rewrite bool_decide_true by lia. cbn [write_all]. replace (8 - 8)%nat with 0%nat by lia.
  rewrite take_0, be_bytes_length, bool_decide_false by lia. done.
Qed.

(** Flushing the checkpoint always fails: its window has room for the first
    word only.  After a restart the physic timestamp is the flushed one, and
    the other four are those of the file before, however they were set. *)
Theorem checkpoint_flush_fails (s : StoreCheckpoint) :
  checkpoint_ok s →
  ∃ s', flush_checkpoint s = Returned (s', false) ∧
    physic_msg_timestamp (open_checkpoint (mmap s')) = physic_msg_timestamp s ∧
    (let old := open_checkpoint (mmap s) in
     drop 1 (words (open_checkpoint (mmap s'))) = drop 1 (words old)).
Proof.
  intros Hok. rewrite flush_writes_first by done. destruct Hok as [Hlen Hw].
  apply Forall_cons_1 in Hw as [Hp _].
  eexists. split; [done |]. cbn [mmap].
  assert (Hl : length (splice (mmap s) 0 (be_bytes 8 (physic_msg_timestamp s))) =
               Z.to_nat OS_PAGE_SIZE).
  { rewrite splice_length by (rewrite be_bytes_length, Hlen; unfold OS_PAGE_SIZE; lia). done. }
  assert (Hpage : ∀ b : buffer, length b = Z.to_nat OS_PAGE_SIZE →
    take (Z.to_nat OS_PAGE_SIZE) b ++ replicate (Z.to_nat OS_PAGE_SIZE - length b) Byte.x00 = b).
  { intros b Hb. rewrite Hb, Nat.sub_diag, take_ge by lia. apply app_nil_r. }
  unfold open_checkpoint. rewrite !Hpage by done.
  cbn [words physic_msg_timestamp logics_msg_timestamp index_msg_timestamp
       master_flushed_offset confirm_phy_offset drop]. unfold word_at. split.
  - pose proof (slice_splice_same (mmap s) 0 (be_bytes 8 (physic_msg_timestamp s))) as Hs.
    rewrite be_bytes_length in Hs. rewrite Hs by (rewrite Hlen; unfold OS_PAGE_SIZE; lia).
    rewrite be_value_bytes. by apply Z.mod_small.
  - rewrite !slice_splice_out
      by (rewrite ?be_bytes_length, ?Hlen; unfold OS_PAGE_SIZE; lia). done.
Qed.

Lemma checkpoint_flush_fails_witness :
  let s := set_logics_msg_timestamp 7 (set_physic_msg_timestamp 9 (open_checkpoint [])) in
  ∃ s', flush_checkpoint s = Returned (s', false) ∧
    physic_msg_timestamp (open_checkpoint (mmap s')) = 9 ∧
    drop 1 (words (open_checkpoint (mmap s'))) = drop 1 (words (open_checkpoint (mmap s))).
Proof.
  cbv zeta. apply checkpoint_flush_fails. split.
  - vm_compute. reflexivity.
  - repeat (apply Forall_cons; split); try done; vm_compute; split; congruence.
Defined.
