(* ===== verification/IndexService.v ===== *)
(** * IndexService: the index files of the store ([index_service.rs])

    The service keeps a list of index files and writes to the last one; a file
    that is full is followed by a new one.  Each dispatched message is entered
    once under its unique key and once under each of its keys.

    The files are shared: the list and the functions of the service hold the
    same file, so a file is named here by its position in the list, and a put
    changes the list.  A new file is named after the clock: [creation n] is the
    name of the [n]-th file created and what the disk holds under that name.
    Handing the flush of a full file to a background task is recorded. *)

From stdpp Require Import base list strings sorting.
From coqutil Require Import Byte.
From Stdlib Require Import ZArith Lia.
From S2P Require Import Prelude Bytes Message RunningFlags FileName ReferenceResource MappedFile MappedFileQueue IndexFile Rebalance DispatchRequest ConsumeQueue StoreCheckpoint.
Open Scope Z_scope.
Open Scope rmq_scope.

Definition MAX_TRY_IDX_CREATE : nat := 3.

Record IndexService := mkService {
  sv_hash_slot_num : Z;
  sv_index_num : Z;
  index_file_list : list IndexFile;
  max_msgs_num_batch : Z;
  sv_checkpoint : StoreCheckpoint;
  sv_running_flags : Z;
  sv_created : nat;
  sv_spawned : list (option nat);
}.

Definition set_index_files (fs : list IndexFile) (s : IndexService) : IndexService :=
  mkService (sv_hash_slot_num s) (sv_index_num s) fs (max_msgs_num_batch s) (sv_checkpoint s)
    (sv_running_flags s) (sv_created s) (sv_spawned s).
Definition set_checkpoint (c : StoreCheckpoint) (s : IndexService) : IndexService :=
  mkService (sv_hash_slot_num s) (sv_index_num s) (index_file_list s) (max_msgs_num_batch s) c
    (sv_running_flags s) (sv_created s) (sv_spawned s).
Definition set_running_flags (z : Z) (s : IndexService) : IndexService :=
  mkService (sv_hash_slot_num s) (sv_index_num s) (index_file_list s) (max_msgs_num_batch s)
    (sv_checkpoint s) z (sv_created s) (sv_spawned s).
(** A file has been created and the flush of [prev] handed over. *)
Definition created (f : IndexFile) (prev : option nat) (s : IndexService) : IndexService :=
  mkService (sv_hash_slot_num s) (sv_index_num s) (index_file_list s ++ [f])
    (max_msgs_num_batch s) (sv_checkpoint s) (sv_running_flags s) (S (sv_created s))
    (sv_spawned s ++ [prev]).

Definition new_index_service (slots idxs batch flags : Z) (c : StoreCheckpoint) : IndexService :=
  mkService slots idxs [] batch c flags 0 [].

Definition build_key (topic key : string) : string := (topic +:+ "#" +:+ key)%string.

Definition service_total_size (s : IndexService) : Z :=
  match index_file_list s with
  | [] => 0
  | f :: _ => as_u64 (file_total_size f * Z.of_nat (length (index_file_list s)))
  end.

(** ** Choosing the file *)

Section Create.
Variable creation : nat → string * buffer.

Definition create_index_file (phy ts : Z) (prev : option nat) (s : IndexService)
  : outcome (IndexService * option nat) :=
  let '(name, existing) := creation (sv_created s) in
  let* f := new_index_file name (sv_hash_slot_num s) (sv_index_num s) phy ts existing in
  Done (created f prev s, Some (length (index_file_list s))).

Definition get_and_create_last_index_file (s : IndexService)
  : outcome (IndexService * option nat) :=
  let n := length (index_file_list s) in
  match last (index_file_list s) with
  | None => create_index_file 0 0 None s
  | Some tmp =>
      if negb (is_write_full tmp) then Done (s, Some (n - 1)%nat)
      else create_index_file (end_phy_offset (index_header tmp))
             (end_timestamp (index_header tmp)) (Some (n - 1)%nat) s
  end.

Fixpoint retry_create (times : nat) (s : IndexService) : outcome (IndexService * option nat) :=
  match times with
  | O => Done (s, None)
  | S times' =>
      let* (s, f) := get_and_create_last_index_file s in
      match f with Some i => Done (s, Some i) | None => retry_create times' s end
  end.

Definition retry_get_and_create_index_file (s : IndexService)
  : outcome (IndexService * option nat) :=
  let* (s, f) := retry_create MAX_TRY_IDX_CREATE s in
  match f with
  | Some i => Done (s, Some i)
  | None => Done (set_running_flags (make_index_file_error (sv_running_flags s)) s, None)
  end.

(** ** Putting keys *)

(** [put_key] on file [i] of the list. *)
Definition put_in_file (i : nat) (key : string) (off ts : Z) (s : IndexService)
  : outcome (IndexService * bool) :=
  let* f := unwrap (index_file_list s !! i) in
  let* (f, ok) := put_key key off ts f in
  Done (set_index_files (<[i := f]> (index_file_list s)) s, ok).

(** [while !ok]: the file was full, another one is asked for. *)
Fixpoint put_key_loop (fuel : nat) (ok : bool) (i : nat) (key : string) (off ts : Z)
    (s : IndexService) : outcome (loop_end (IndexService * option nat)) :=
  if ok then Done (Ended (s, Some i))
  else
    match fuel with
    | O => Done OutOfFuel
    | S fuel' =>
        let* (s, f) := retry_get_and_create_index_file s in
        match f with
        | None => Done (Ended (s, None))
        | Some j =>
            let* (s, ok) := put_in_file j key off ts s in
            put_key_loop fuel' ok j key off ts s
        end
    end.
Definition service_put_key (fuel i : nat) (msg : DispatchRequest) (idx_key : string)
    (s : IndexService) : outcome (loop_end (IndexService * option nat)) :=
  let off := dr_commit_log_offset msg in
  let ts := dr_store_timestamp msg in
  let* (s, ok) := put_in_file i idx_key off ts s in
  put_key_loop fuel ok i idx_key off ts s.

(** The keys of a message: the unique one, then the non-empty parts of [keys]
    between spaces. *)
Definition index_keys (msg : DispatchRequest) : list string :=
  option_list (dr_uniq_key msg) ++
  filter (λ k, k ≠ ""%string) (bytes_str <$> split_byte Byte.x20 (str_bytes (dr_keys msg)) []).

Fixpoint put_keys (fuel : nat) (keys : list string) (i : nat) (msg : DispatchRequest)
    (s : IndexService) : outcome (loop_end IndexService) :=
  match keys with
  | [] => Done (Ended s)
  | key :: keys' =>
      let* r := service_put_key fuel i msg (build_key (dr_topic msg) key) s in
      match r with
      | Ended (s, Some j) => put_keys fuel keys' j msg s
      | Ended (s, None) => Done (Ended s)
      | Deadlock => Done Deadlock
      | OutOfFuel => Done OutOfFuel
      end
  end.

Definition build_index (fuel : nat) (msg : DispatchRequest) (s : IndexService)
  : outcome (loop_end IndexService) :=
  let* (s, f) := retry_get_and_create_index_file s in
  match f with
  | None => Done (Ended s)
  | Some i =>
      let* file := unwrap (index_file_list s !! i) in
      if dr_commit_log_offset msg <? end_phy_offset (index_header file) then Done (Ended s)
      else if MessageSysFlag.get_transaction_value (dr_sys_flag msg)
              =? MessageSysFlag.TRANSACTION_ROLLBACK_TYPE
      then Done (Ended s)
      else put_keys fuel (index_keys msg) i msg s
  end.
End Create.

(** ** Queries *)

(** The files from position [n] down; the offsets found so far. *)
Fixpoint query_files (fuel n : nat) (key : string) (max_num : nat) (b e : Z)
    (phy_offsets : list Z) (s : IndexService) : outcome (loop_end (IndexService * list Z)) :=
  match n with
  | O => Done (Ended (s, phy_offsets))
  | S i =>
      let* f := unwrap (index_file_list s !! i) in
      let continue (s : IndexService) (phy_offsets : list Z) :=
        if begin_timestamp (index_header f) <? b then Done (Ended (s, phy_offsets))
        else if (max_num <=? length phy_offsets)%nat then Done (Ended (s, phy_offsets))
        else query_files fuel i key max_num b e phy_offsets s in
      if is_time_matched b e f then
        match select_phy_offset fuel phy_offsets key max_num b e f with
        | None => Done OutOfFuel
        | Some Panic => Panic
        | Some (Done (f', phy_offsets)) =>
            continue (set_index_files (<[i := f']> (index_file_list s)) s) phy_offsets
        end
      else continue s phy_offsets
  end.

(** The offsets, with the time and the offset of the last update.  A vector
    with a negative capacity cannot be made. *)
Definition query_offset_of_key (fuel : nat) (topic key : string) (max_num b e : Z)
    (s : IndexService) : outcome (loop_end (IndexService * (list Z * Z * Z))) :=
  if max_num <? 0 then Panic
  else
    let max_num := Z.min max_num (as_i32 (max_msgs_num_batch s)) in
    let '(t, o) :=
      match last (index_file_list s) with
      | Some f => (end_timestamp (index_header f), end_phy_offset (index_header f))
      | None => (0, 0)
      end in
    let* r := query_files fuel (length (index_file_list s)) (build_key topic key)
                (Z.to_nat (as_usize max_num)) b e [] s in
    match r with
    | Ended (s, phy_offsets) => Done (Ended (s, (phy_offsets, t, o)))
    | Deadlock => Done Deadlock
    | OutOfFuel => Done OutOfFuel
    end.

(** ** Loading, flushing and deleting *)

Definition index_destroy (remove_ok : bool) (now interval : Z) (f : IndexFile)
  : IndexFile * bool :=
  let '(m, ok) := destroy remove_ok now interval (mapped_file f) in (with_file m f, ok).

(** The sorted files of the directory; the second result names the files that
    were destroyed. *)
Fixpoint load_files (last_exit_ok : bool) (files : list dir_entry) (s : IndexService)
    (destroyed : list string) : outcome (IndexService * list string) :=
  match files with
  | [] => Done (s, destroyed)
  | e :: files' =>
      let* f := new_index_file (e_name e) (sv_hash_slot_num s) (sv_index_num s) 0 0
                  (e_contents e) in
      let* f := IndexFile.load f in
      if negb last_exit_ok
         && (as_i64 (index_msg_timestamp (sv_checkpoint s)) <? end_timestamp (index_header f))
      then load_files last_exit_ok files' s (destroyed ++ [e_name e])
      else load_files last_exit_ok files'
             (set_index_files (index_file_list s ++ [f]) s) destroyed
  end.
Definition service_load (last_exit_ok : bool) (dir : option (list dir_entry)) (s : IndexService)
  : outcome (IndexService * list string) :=
  match dir with
  | None => Done (s, [])
  | Some files => load_files last_exit_ok (merge_sort name_le files) s []
  end.

(** The files below [offset] at the head of the list. *)
Fixpoint expired_files (offset : Z) (fs : list IndexFile) : list IndexFile :=
  match fs with
  | [] => []
  | f :: fs' =>
      if as_u64 (end_phy_offset (index_header f)) <? offset
      then f :: expired_files offset fs' else []
  end.
Definition index_file_name (f : IndexFile) : string := file_name (mapped_file f).
Definition retain_other (f : IndexFile) (fs : list IndexFile) : list IndexFile :=
  filter (λ g, index_file_name g ≠ index_file_name f) fs.
(** With what became of the expired files. *)
Definition service_delete_expired_file (remove_ok : nat → bool) (now offset : Z)
    (s : IndexService) : IndexService * list (IndexFile * bool) :=
  let files := expired_files offset (index_file_list s) in
  (set_index_files (foldl (λ fs f, retain_other f fs) (index_file_list s) files) s,
   imap (λ i f, index_destroy (remove_ok i) now 3000 f) files).
Definition service_destroy (remove_ok : nat → bool) (now : Z) (s : IndexService)
  : IndexService * list (IndexFile * bool) :=
  (set_index_files [] s,
   imap (λ i f, index_destroy (remove_ok i) now (1000 * 3) f) (index_file_list s)).

Definition service_flush (sync_ok : bool) (now : Z) (index_file : option nat) (s : IndexService)
  : outcome (locked IndexService) :=
  match index_file with
  | None => Done (Returned s)
  | Some i =>
      let* f := unwrap (index_file_list s !! i) in
      let ts := if is_write_full f then as_u64 (end_timestamp (index_header f)) else 0 in
      let* f := IndexFile.flush sync_ok now f in
      let s := set_index_files (<[i := f]> (index_file_list s)) s in
      if 0 <? ts then
        match flush_checkpoint (set_index_msg_timestamp ts (sv_checkpoint s)) with
        | Returned (c, _) => Done (Returned (set_checkpoint c s))
        | Blocked => Done Blocked
        end
      else Done (Returned s)
  end.

Fixpoint flush_files (sync_ok : nat → bool) (now : Z) (i : nat) (fs : list IndexFile)
  : outcome (list IndexFile) :=
  match fs with
  | [] => Done []
  | f :: fs' =>
      let* f := IndexFile.flush (sync_ok i) now f in
      let* fs' := flush_files sync_ok now (S i) fs' in
      Done (f :: fs')
  end.
(** With the files as they were left. *)
Definition service_shutdown (sync_ok : nat → bool) (now : Z) (s : IndexService)
  : outcome (IndexService * list IndexFile) :=
  let* fs := flush_files sync_ok now 0 (index_file_list s) in
  Done (set_index_files [] s, fs).

(** ** The service as a log of puts *)

(** A file that stores [es], with the service's dimensions. *)
Definition file_of (s : IndexService) (f : IndexFile) (es : list entry) : Prop :=
  index_ok f es ∧ hash_slot_num f = sv_hash_slot_num s ∧ index_num f = sv_index_num s.

Record service_ok (s : IndexService) (files : list (list entry)) : Prop := {
  so_slots : 0 < sv_hash_slot_num s;
  so_num : 2 ≤ sv_index_num s;
  so_size : 40 + 4 * sv_hash_slot_num s + 20 * sv_index_num s ≤ i32_MAX;
  so_files : Forall2 (file_of s) (index_file_list s) files;
}.

(** The puts of the service: hash of the key and offset, oldest first. *)
Definition logged (files : list (list entry)) : list (Z * Z) :=
  (λ e, (en_hash e, en_offset e)) <$> concat files.

Definition service_end (s : IndexService) : Z :=
  match last (index_file_list s) with
  | Some f => end_phy_offset (index_header f)
  | None => 0
  end.

(** Files are created under new names that are numbers. *)
Definition creations_ok (creation : nat → string * buffer) (size : Z) : Prop :=
  ∀ n, (creation n).2 = [] ∧
       ∃ off, parse_file_from_offset (creation n).1 = Done off ∧ 0 ≤ off ∧ off + size ≤ i64_MAX.

Definition index_file_bytes (s : IndexService) : Z :=
  40 + 4 * sv_hash_slot_num s + 20 * sv_index_num s.
Definition same_dims (s s' : IndexService) : Prop :=
  sv_hash_slot_num s' = sv_hash_slot_num s ∧ sv_index_num s' = sv_index_num s.

Lemma file_of_dims (s s' : IndexService) (f : IndexFile) (es : list entry) :
  same_dims s s' → file_of s f es → file_of s' f es.
Proof. intros [H1 H2]. unfold file_of. by rewrite H1, H2. Qed.

Lemma service_ok_dims (s s' : IndexService) (files files' : list (list entry)) :
  service_ok s files → same_dims s s' → Forall2 (file_of s) (index_file_list s') files' →
  service_ok s' files'.
Proof.
  intros [] Hd Hf. constructor; destruct Hd as [H1 H2]; rewrite ?H1, ?H2; try done.
  eapply Forall2_impl; [done |]. intros f es. by apply file_of_dims.
Qed.

(** A service about to be written: the last file holds [es]. *)
Record writing (s : IndexService) (pre : list IndexFile) (f : IndexFile)
    (prefiles : list (list entry)) (es : list entry) : Prop := {
  wr_list : index_file_list s = pre ++ [f];
  wr_ok : service_ok s (prefiles ++ [es]);
  wr_end : 0 ≤ end_phy_offset (index_header f);
}.

Lemma writing_last (s : IndexService) pre f prefiles es :
  writing s pre f prefiles es → Forall2 (file_of s) pre prefiles ∧ file_of s f es.
Proof.
  intros [Hl [] _]. rewrite Hl in so_files0.
  apply Forall2_app_inv_l in so_files0 as (p & q & H1 & H2 & Heq).
  apply Forall2_cons_inv_l in H2 as (e & r & He & Hr & ->). apply Forall2_nil_inv_l in Hr as ->.
  apply app_inj_tail in Heq as [-> ->]. done.
Qed.

Lemma write_full_spec (f : IndexFile) (es : list entry) :
  index_ok f es → is_write_full f = (index_num f <=? Z.of_nat (length es) + 1).
Proof.
  intros Hok. unfold is_write_full. pose proof (mf_size _ (io_wf _ _ Hok)).
  pose proof (io_size _ _ Hok). pose proof (io_slots _ _ Hok). pose proof (io_num _ _ Hok).
  unfold i32_MAX in *. rewrite (io_count _ _ Hok), as_i32_id by in_range. f_equal. lia.
Qed.

Lemma service_split (s : IndexService) (files : list (list entry)) :
  service_ok s files → 0 ≤ service_end s →
  index_file_list s = [] ∧ files = [] ∨
  ∃ pre f prefiles es, files = prefiles ++ [es] ∧ writing s pre f prefiles es.
Proof.
  intros Hok Hend. pose proof (so_files _ _ Hok) as Hf. unfold service_end in Hend.
  destruct (index_file_list s) as [| f pre _] eqn:El using rev_ind.
  - left. apply Forall2_nil_inv_l in Hf. done.
  - right. apply Forall2_app_inv_l in Hf as (p & q & H1 & H2 & ->).
    apply Forall2_cons_inv_l in H2 as (e & r & He & Hr & ->). apply Forall2_nil_inv_l in Hr as ->.
    rewrite last_snoc in Hend. by exists pre, f, p, e.
Qed.

Section Build.
Context (creation : nat → string * buffer).

(** Asking for the file to write yields one with room at the end of the list,
    without losing an entry. *)
Lemma retry_ok (s : IndexService) (files : list (list entry)) :
  service_ok s files → 0 ≤ service_end s → creations_ok creation (index_file_bytes s) →
  ∃ s' pre f prefiles es,
    retry_get_and_create_index_file creation s = Done (s', Some (length pre)) ∧
    writing s' pre f prefiles es ∧ same_dims s s' ∧
    Z.of_nat (length es) + 1 < sv_index_num s ∧
    concat (prefiles ++ [es]) = concat files ∧ end_phy_offset (index_header f) = service_end s.
Proof.
  intros Hok Hend Hcr. unfold retry_get_and_create_index_file. cbn [retry_create MAX_TRY_IDX_CREATE].
  unfold get_and_create_last_index_file.
  assert (Hnew : ∀ phy ts prev, in_s 64 phy → in_s 64 ts → ∃ f,
    create_index_file creation phy ts prev s =
      Done (created f prev s, Some (length (index_file_list s))) ∧
    file_of s f [] ∧ end_phy_offset (index_header f) = Z.max 0 phy).
  { intros phy ts prev Hphy Hts. unfold create_index_file.
    destruct (Hcr (sv_created s)) as [He (off & Hp & Ho & Hm)].
    destruct (creation (sv_created s)) as [name existing]. cbn in He, Hp. subst existing.
    destruct Hok. destruct (new_index_file_ok name (sv_hash_slot_num s) (sv_index_num s) off phy ts)
      as (f & -> & Hf & H1 & H2 & H3 & _); [done | done | done | lia | done | done | done | done |].
    exists f. done. }
  destruct (service_split s files Hok Hend) as [[Hl ->] | (pre & f & prefiles & es & -> & Hw)].
  - unfold service_end. rewrite Hl. cbn [last].
    destruct (Hnew 0 0 None ltac:(in_range) ltac:(in_range)) as (f & -> & Hf & He). cbn [obind].
    rewrite Hl. exists (created f None s), [], f, [], []. pose proof (so_num _ _ Hok).
    split_and!; try done; [| cbn; lia].
    constructor; [cbn; by rewrite Hl | | lia].
    apply (service_ok_dims s _ _ _ Hok); [done |]. cbn. rewrite Hl. by constructor.
  - destruct (writing_last _ _ _ _ _ Hw) as [Hpre Hlast]. assert (Hio := proj1 Hlast).
    destruct Hlast as (_ & Hs & Hn). unfold service_end. rewrite (wr_list _ _ _ _ _ Hw), last_snoc.
    rewrite (write_full_spec _ _ Hio), Hn.
    destruct (Z.leb_spec (sv_index_num s) (Z.of_nat (length es) + 1)) as [Hfull | Hroom];
      cbn [negb obind].
    + destruct (io_hdr _ _ Hio) as (_ & Hts & _ & Hphy & _).
      edestruct Hnew as (g & -> & Hg & He); [exact Hphy | exact Hts |]. cbn [obind].
      eexists _, (index_file_list s), g, (prefiles ++ [es]), [].
      pose proof (so_num _ _ Hok). pose proof (wr_end _ _ _ _ _ Hw).
      split_and!; try done; [| cbn; lia | by rewrite concat_app, app_nil_r | lia].
      constructor; [done | | lia].
      apply (service_ok_dims s _ _ _ Hok); [done |]. apply Forall2_app; [apply Hok | by constructor].
    + exists s, pre, f, prefiles, es. rewrite length_app. cbn [length].
      replace (length pre + 1 - 1)%nat with (length pre) by lia. done.
Qed.

(** A put into a file with room. *)
Lemma put_in_last (s : IndexService) pre f prefiles es (key : string) (off ts : Z) :
  writing s pre f prefiles es → Z.of_nat (length es) + 1 < sv_index_num s →
  0 ≤ off → in_s 64 off → in_s 64 ts →
  ∃ s' f' e, put_in_file (length pre) key off ts s = Done (s', true) ∧
    writing s' pre f' prefiles (es ++ [e]) ∧ same_dims s s' ∧
    en_hash e = index_key_hash_method key ∧ en_offset e = off ∧
    end_phy_offset (index_header f') = off.
Proof.
  intros Hw Hroom H0 Hoff Hts. destruct (writing_last _ _ _ _ _ Hw) as [Hpre (Hio & Hs & Hn)].
  unfold put_in_file. rewrite (wr_list _ _ _ _ _ Hw), list_lookup_middle by done. cbn [unwrap obind].
  destruct (put_key_ok f es key off ts Hio Hoff Hts) as (f' & -> & Hio' & Hs' & Hn' & _ & He);
    [lia |]. cbn [obind].
  eexists _, f', (new_entry key off ts f). split; [done |]. split; [| done].
  constructor; [cbn; by rewrite insert_app_r_alt, Nat.sub_diag by lia | | lia].
  apply (service_ok_dims s _ _ _ (wr_ok _ _ _ _ _ Hw)); [done |].
  cbn. rewrite insert_app_r_alt, Nat.sub_diag by lia.
  apply Forall2_app; [done |]. constructor; [| done]. unfold file_of. by rewrite Hs', Hn'.
Qed.

(** [put_key] of the service: one new file is enough. *)
Lemma service_put_key_ok (fuel : nat) (s : IndexService) pre f prefiles es
    (msg : DispatchRequest) (key : string) :
  writing s pre f prefiles es → creations_ok creation (index_file_bytes s) →
  end_phy_offset (index_header f) ≤ dr_commit_log_offset msg → in_s 64 (dr_commit_log_offset msg) →
  in_s 64 (dr_store_timestamp msg) →
  ∃ s' pre' f' prefiles' es',
    service_put_key creation (S fuel) (length pre) msg key s =
      Done (Ended (s', Some (length pre'))) ∧
    writing s' pre' f' prefiles' es' ∧ same_dims s s' ∧
    logged (prefiles' ++ [es']) = logged (prefiles ++ [es]) ++
      [(index_key_hash_method key, dr_commit_log_offset msg)] ∧
    end_phy_offset (index_header f') = dr_commit_log_offset msg.
Proof.
  intros Hw Hcr Hle Hoff Hts. unfold service_put_key. pose proof (wr_end _ _ _ _ _ Hw) as Hend.
  assert (Hlog : ∀ (pf : list (list entry)) (l : list entry) e,
    logged (pf ++ [l ++ [e]]) = logged (pf ++ [l]) ++ [(en_hash e, en_offset e)]).
  { intros. unfold logged. rewrite !concat_app. cbn. by rewrite !app_nil_r, !app_assoc, fmap_app. }
  destruct (decide (Z.of_nat (length es) + 1 < sv_index_num s)) as [Hroom | Hfull].
  - destruct (put_in_last s pre f prefiles es key (dr_commit_log_offset msg)
      (dr_store_timestamp msg)) as (s' & f' & e & -> & Hw' & Hd & He1 & He2 & He3);
      [done | done | lia | done | done |].
    cbn [obind put_key_loop]. exists s', pre, f', prefiles, (es ++ [e]).
    by rewrite Hlog, He1, He2.
  - destruct (writing_last _ _ _ _ _ Hw) as [Hpre (Hio & Hs & Hn)].
    unfold put_in_file at 1. rewrite (wr_list _ _ _ _ _ Hw), list_lookup_middle by done.
    cbn [unwrap obind]. rewrite (put_key_full f es) by (done || lia). cbn [obind put_key_loop].
    rewrite list_insert_id by (by apply list_lookup_middle).
    replace (set_index_files (pre ++ [f]) s) with s
      by (rewrite <- (wr_list _ _ _ _ _ Hw); by destruct s).
    destruct (retry_ok s (prefiles ++ [es])) as (s1 & pre1 & f1 & pf1 & es1 & -> & Hw1 & Hd1 & Hr1 & Hc1 & He1);
      [apply Hw | unfold service_end; by rewrite (wr_list _ _ _ _ _ Hw), last_snoc | done |].
    cbn [obind].
    destruct (put_in_last s1 pre1 f1 pf1 es1 key (dr_commit_log_offset msg)
      (dr_store_timestamp msg)) as (s' & f' & e & -> & Hw' & Hd & Hh & Ho & He3);
      [done | destruct Hd1 as [_ ->]; done | lia | done | done |].
    cbn [obind put_key_loop]. exists s', pre1, f', pf1, (es1 ++ [e]).
    split_and!; [by destruct fuel | done | unfold same_dims in *; intuition congruence | | done].
    rewrite Hlog, Hh, Ho. unfold logged. by rewrite Hc1.
Qed.

Lemma put_keys_ok (fuel : nat) (keys : list string) (s : IndexService) pre f prefiles es
    (msg : DispatchRequest) :
  writing s pre f prefiles es → creations_ok creation (index_file_bytes s) →
  end_phy_offset (index_header f) ≤ dr_commit_log_offset msg → in_s 64 (dr_commit_log_offset msg) →
  in_s 64 (dr_store_timestamp msg) →
  ∃ s' files',
    put_keys creation (S fuel) keys (length pre) msg s = Done (Ended s') ∧
    service_ok s' files' ∧ same_dims s s' ∧ 0 ≤ service_end s' ≤ dr_commit_log_offset msg ∧
    logged files' = logged (prefiles ++ [es]) ++
      ((λ k, (index_key_hash_method (build_key (dr_topic msg) k), dr_commit_log_offset msg))
         <$> keys).
Proof.
  revert s pre f prefiles es. induction keys as [| k keys IH];
    intros s pre f prefiles es Hw Hcr Hle Hoff Hts.
  - exists s, (prefiles ++ [es]). cbn. rewrite app_nil_r. unfold service_end.
    rewrite (wr_list _ _ _ _ _ Hw), last_snoc. split_and!; try done; by apply Hw.
  - cbn [put_keys]. destruct (service_put_key_ok fuel s pre f prefiles es msg
      (build_key (dr_topic msg) k)) as (s1 & pre1 & f1 & pf1 & es1 & -> & Hw1 & Hd1 & Hl1 & He1);
      try done. cbn [obind].
    destruct (IH s1 pre1 f1 pf1 es1) as (s' & files' & -> & Hok & Hd & He & Hl); try done; [| lia |].
    { destruct Hd1 as [H1 H2]. unfold index_file_bytes in *. by rewrite H1, H2. }
    exists s', files'. split_and!; try done; try (unfold same_dims in *; intuition congruence); try lia.
    rewrite Hl, Hl1. by rewrite <- app_assoc.
Qed.
End Build.

(** ** Completeness *)

(** The puts a message makes. *)
Definition is_rollback (msg : DispatchRequest) : bool :=
  MessageSysFlag.get_transaction_value (dr_sys_flag msg)
    =? MessageSysFlag.TRANSACTION_ROLLBACK_TYPE.
Definition puts_of (msg : DispatchRequest) : list (Z * Z) :=
  if is_rollback msg then []
  else (λ k, (index_key_hash_method (build_key (dr_topic msg) k), dr_commit_log_offset msg))
         <$> index_keys msg.

Fixpoint build_all (creation : nat → string * buffer) (fuel : nat) (msgs : list DispatchRequest)
    (s : IndexService) : outcome (loop_end IndexService) :=
  match msgs with
  | [] => Done (Ended s)
  | msg :: msgs' =>
      let* r := build_index creation fuel msg s in
      match r with
      | Ended s => build_all creation fuel msgs' s
      | e => Done e
      end
  end.

(** Messages in the order of the log, from [o] on. *)
Fixpoint in_log_order (o : Z) (msgs : list DispatchRequest) : Prop :=
  match msgs with
  | [] => True
  | msg :: msgs' =>
      o ≤ dr_commit_log_offset msg ∧ in_s 64 (dr_commit_log_offset msg) ∧
      in_s 64 (dr_store_timestamp msg) ∧ in_log_order (dr_commit_log_offset msg) msgs'
  end.

Lemma in_log_order_mono (o o' : Z) (msgs : list DispatchRequest) :
  o' ≤ o → in_log_order o msgs → in_log_order o' msgs.
Proof. destruct msgs; cbn; intuition lia. Qed.

Lemma build_index_ok (creation : nat → string * buffer) (fuel : nat) (msg : DispatchRequest)
    (s : IndexService) (files : list (list entry)) :
  service_ok s files → creations_ok creation (index_file_bytes s) →
  0 ≤ service_end s ≤ dr_commit_log_offset msg → in_s 64 (dr_commit_log_offset msg) →
  in_s 64 (dr_store_timestamp msg) →
  ∃ s' files', build_index creation (S fuel) msg s = Done (Ended s') ∧ service_ok s' files' ∧
    same_dims s s' ∧ 0 ≤ service_end s' ≤ dr_commit_log_offset msg ∧
    logged files' = logged files ++ puts_of msg.
Proof.
  intros Hok Hcr [H0 Hle] Hoff Hts. unfold build_index, puts_of.
  destruct (retry_ok creation s files) as (s1 & pre & f & pf & es & -> & Hw & Hd & _ & Hc & He);
    try done. cbn [obind].
  rewrite (wr_list _ _ _ _ _ Hw), list_lookup_middle by done. cbn [unwrap obind].
  rewrite He, (proj2 (Z.ltb_ge _ _)) by done. fold (is_rollback msg).
  destruct (is_rollback msg).
  - exists s1, (pf ++ [es]). unfold logged. rewrite Hc, app_nil_r. unfold service_end at 1 2.
    rewrite (wr_list _ _ _ _ _ Hw), last_snoc, He. split_and!; try done. apply Hw.
  - destruct (put_keys_ok creation fuel (index_keys msg) s1 pre f pf es msg)
      as (s' & files' & -> & Hok' & Hd' & He' & Hl); try done; [| lia |].
    { destruct Hd as [H1 H2]. unfold index_file_bytes in *. by rewrite H1, H2. }
    exists s', files'. split_and!; try done; try (unfold same_dims in *; intuition congruence); try lia.
    rewrite Hl. unfold logged. by rewrite Hc.
Qed.

Lemma build_all_ok (creation : nat → string * buffer) (fuel : nat) (msgs : list DispatchRequest)
    (s : IndexService) (files : list (list entry)) :
  service_ok s files → creations_ok creation (index_file_bytes s) → 0 ≤ service_end s →
  in_log_order (service_end s) msgs →
  ∃ s' files', build_all creation (S fuel) msgs s = Done (Ended s') ∧ service_ok s' files' ∧
    same_dims s s' ∧ logged files' = logged files ++ concat (puts_of <$> msgs).
Proof.
  revert s files. induction msgs as [| msg msgs IH]; intros s files Hok Hcr H0 Hin.
  - exists s, files. cbn. by rewrite app_nil_r.
  - destruct Hin as (Hle & Hoff & Hts & Hin). cbn [build_all].
    destruct (build_index_ok creation fuel msg s files) as (s1 & files1 & -> & Hok1 & Hd1 & He1 & Hl1);
      try done. cbn [obind].
    destruct (IH s1 files1) as (s' & files' & -> & Hok' & Hd' & Hl'); try done.
    { destruct Hd1 as [H1 H2]. unfold index_file_bytes in *. by rewrite H1, H2. }
    { lia. }
    { apply (in_log_order_mono (dr_commit_log_offset msg)); [lia | done]. }
    exists s', files'. split_and!; try done; [unfold same_dims in *; intuition congruence |].
    by rewrite Hl', Hl1, <- app_assoc.
Qed.

(** An entry of the log is reached from the slot of its hash in one of the files. *)
Lemma logged_found (s : IndexService) (files : list (list entry)) (h o : Z) :
  service_ok s files → (h, o) ∈ logged files →
  ∃ f es e, f ∈ index_file_list s ∧ chain_of f (h mod sv_hash_slot_num s) = Done es ∧
    e ∈ es ∧ en_hash e = h ∧ en_offset e = o.
Proof.
  intros [] Hin. unfold logged in Hin.
  apply list_elem_of_fmap in Hin as (e & [= -> ->] & (es & He & Hes)%list_elem_of_In%in_concat).
  apply list_elem_of_In in He, Hes. apply list_elem_of_lookup in He as [i Hi].
  destruct (Forall2_lookup_r _ _ _ _ _ so_files0 Hi) as (f & Hf & Hio & Hs & _).
  eexists f, _, e. split_and!; [by eapply list_elem_of_lookup_2 | | | done | done].
  - rewrite <- Hs. apply (chain_of_ok f es); [done |]. apply Z.mod_pos_bound. by rewrite Hs.
  - apply elem_of_reverse, list_elem_of_filter. by rewrite Hs.
Qed.

(** C13: The index is complete: building the index for messages in log order always
    ends, with one new file at most per key, and the service then holds its old
    entries followed by those of the messages: one under the unique key and one
    under each other key, except for rolled back transactions.  Each of the
    entries is reached from the slot of its key. *)
Theorem index_service_complete (creation : nat → string * buffer) (fuel : nat)
    (msgs : list DispatchRequest) (s : IndexService) (files : list (list entry)) :
  service_ok s files → creations_ok creation (index_file_bytes s) → 0 ≤ service_end s →
  in_log_order (service_end s) msgs →
  ∃ s' files', build_all creation (S fuel) msgs s = Done (Ended s') ∧ service_ok s' files' ∧
    logged files' = logged files ++ concat (puts_of <$> msgs) ∧
    ∀ msg key, msg ∈ msgs → is_rollback msg = false → key ∈ index_keys msg →
      let h := index_key_hash_method (build_key (dr_topic msg) key) in
      ∃ f es e, f ∈ index_file_list s' ∧ chain_of f (h mod sv_hash_slot_num s) = Done es ∧
        e ∈ es ∧ en_hash e = h ∧ en_offset e = dr_commit_log_offset msg.
Proof.
  intros Hok Hcr H0 Hin.
  destruct (build_all_ok creation fuel msgs s files Hok Hcr H0 Hin)
    as (s' & files' & Hb & Hok' & [Hd _] & Hl).
  exists s', files'. split_and!; try done. intros msg key Hmsg Hr Hk h. rewrite <- Hd.
  apply (logged_found s' files'); [done |]. rewrite Hl. apply elem_of_app. right.
  apply list_elem_of_In, in_concat. exists (puts_of msg). split.
  - apply list_elem_of_In, list_elem_of_fmap. by exists msg.
  - apply list_elem_of_In. unfold puts_of. rewrite Hr. apply list_elem_of_fmap. by exists key.
Qed.

Definition sample_creation (n : nat) : string * buffer :=
  (offset_to_file_name (20240101000000000 + Z.of_nat n mod 1000), []).
Definition sample_service : IndexService := new_index_service 3 3 64 0 (open_checkpoint []).
Definition sample_messages : list DispatchRequest :=
  [plain_request "t" 0 100 7 1000 4 "a b" (Some "u1"%string) 0;
   plain_request "t" 100 100 7 2000 4 "a" (Some "u2"%string) 12;
   plain_request "t" 200 100 7 3000 4 " a " (Some "u3"%string) 0].

Lemma sample_creations_ok : creations_ok sample_creation (index_file_bytes sample_service).
Proof.
  intros n. split; [done |]. pose proof (Z.mod_pos_bound (Z.of_nat n) 1000 ltac:(lia)).
  eexists. split; [apply parse_file_name; in_range |].
  change (index_file_bytes sample_service) with 112. unfold i64_MAX. lia.
Qed.

Lemma sample_service_ok : service_ok sample_service [].
Proof. constructor; cbn; try lia; try done. Qed.

Lemma index_service_complete_witness :
  concat (puts_of <$> sample_messages) ≠ [] ∧
  ∃ s' files', build_all sample_creation 1 sample_messages sample_service = Done (Ended s') ∧
    service_ok s' files' ∧ logged files' = [] ++ concat (puts_of <$> sample_messages).
Proof.
  split; [vm_compute; congruence |].
  destruct (index_service_complete sample_creation 0 sample_messages sample_service [])
    as (s' & files' & H1 & H2 & H3 & _);
    [apply sample_service_ok | apply sample_creations_ok | done
    | cbn; split_and!; solve [lia | in_range | done] |].
  exists s', files'. exact (conj H1 (conj H2 H3)).
Defined.

(** ** Restart *)

(** What a file stores depends on its memory alone. *)
Lemma index_ok_file (f : IndexFile) (es : list entry) (m : DefaultMappedFile) (t : Z) :
  index_ok f es → wf_mf m → file_size m = file_size (mapped_file f) →
  mmapped_file m = mmapped_file (mapped_file f) →
  index_ok (mkIndex (hash_slot_num f) (index_num f) t m (index_header f)) es.
Proof.
  intros [] Hwf Hs Hm.
  assert (Hw : ∀ a n, window m a n = window (mapped_file f) a n)
    by (intros; unfold window; by rewrite Hm).
  constructor; cbn; try done; [by rewrite Hs | ..]; intros *; rewrite Hw; auto.
Qed.

(** A file of the directory: what is stored under the name of an index file. *)
Definition on_disk_entry (name : string) (f : IndexFile) : dir_entry :=
  mkEntry name true false (mmapped_file (mapped_file f)).

(** Opening the file of an index with entries gives the entries back. *)
Lemma reload_index (s : IndexService) (f : IndexFile) (es : list entry) (name : string)
    (off : Z) :
  service_ok s [] → file_of s f es → es ≠ [] → parse_file_from_offset name = Done off →
  0 ≤ off → off + index_file_bytes s ≤ i64_MAX →
  ∃ f', (let* g := new_index_file name (sv_hash_slot_num s) (sv_index_num s) 0 0
                     (mmapped_file (mapped_file f)) in IndexFile.load g) = Done f' ∧
        file_of s f' es ∧ index_header f' = index_header f.
Proof.
  intros Hok (Hio & Hs & Hn) Hne Hp Ho Hb. unfold new_index_file.
  pose proof (so_size _ _ Hok) as Hsz. pose proof (so_slots _ _ Hok). pose proof (so_num _ _ Hok).
  unfold index_file_bytes, INDEX_HEADER_SIZE, HASH_SLOT_SIZE, INDEX_SIZE, i32_MAX, i64_MAX in *.
  rewrite as_usize_id by in_range.
  assert (Hfs : file_size (mapped_file f) = 40 + sv_hash_slot_num s * 4 + sv_index_num s * 20)
    by (rewrite (io_size _ _ Hio); lia).
  destruct (new_mapped_file_wf name (40 + sv_hash_slot_num s * 4 + sv_index_num s * 20) off
    (mmapped_file (mapped_file f)) Hp) as (m & Hm & Hwf & _);
    [unfold i32_MAX; lia | done | unfold i64_MAX; lia |].
  assert (Hmem : file_size m = file_size (mapped_file f) ∧
                 mmapped_file m = mmapped_file (mapped_file f)).
  { pose proof (mf_mem _ (io_wf _ _ Hio)) as Hl.
    unfold new_mapped_file in Hm. apply obind_done in Hm as (o & _ & Hm). apply done_inj in Hm.
    rewrite <- Hm. cbn. split; [lia |]. rewrite take_ge by lia.
    replace (_ - _)%nat with 0%nat by lia. apply app_nil_r. }
  rewrite Hm. cbn [obind Z.ltb]. clear Hm. destruct Hmem as [Hms Hmm].
  set (t := 40 + _ + _). pose proof (index_ok_file f es m t Hio Hwf Hms Hmm) as Hio'.
  rewrite Hs, Hn in Hio'.
  exists (mkIndex (sv_hash_slot_num s) (sv_index_num s) t m (index_header f)).
  split; [exact (load_header_ok _ es new_header Hio' Hne) | done].
Qed.

(** The files kept by a start after a crash: those not newer than the checkpoint. *)
Definition kept (last_exit_ok : bool) (s : IndexService) (f : IndexFile) : bool :=
  last_exit_ok ||
  negb (as_i64 (index_msg_timestamp (sv_checkpoint s)) <? end_timestamp (index_header f)).

(** [nm] names the files of a service. *)
Definition named (s : IndexService) (nm : string) : Prop :=
  ∃ off, parse_file_from_offset nm = Done off ∧ 0 ≤ off ∧ off + index_file_bytes s ≤ i64_MAX.

Definition reopened (s : IndexService) (f' : IndexFile) (fe : IndexFile * list entry) : Prop :=
  file_of s f' fe.2 ∧ index_header f' = index_header fe.1.

Lemma load_files_ok (ok : bool) (s : IndexService) (stored : list (string * (IndexFile * list entry)))
    (acc : list string) :
  service_ok s [] →
  Forall (λ x, named s x.1 ∧ file_of s x.2.1 x.2.2 ∧ x.2.2 ≠ []) stored →
  ∀ init : list IndexFile, let s0 := set_index_files init s in
  ∃ fs, load_files ok ((λ x, on_disk_entry x.1 x.2.1) <$> stored) s0 acc =
      Done (set_index_files (init ++ fs) s,
            acc ++ (fst <$> filter (λ x, kept ok s x.2.1 = false) stored)) ∧
    Forall2 (reopened s) fs (snd <$> filter (λ x, kept ok s x.2.1 = true) stored).
Proof.
  intros Hok Hst. revert acc. induction Hst as [| [nm [f es]] stored (Hnm & Hf & Hne) Hst IH];
    intros acc init s0.
  - exists []. cbn. by rewrite !app_nil_r.
  - cbn in Hnm, Hf, Hne. destruct Hnm as (off & Hp & Ho & Hb).
    destruct (reload_index s f es nm off) as (f' & Hl & Hf' & Hh); try done.
    rewrite fmap_cons. cbn [load_files on_disk_entry e_name e_contents fst snd].
    apply obind_done in Hl as (g & Hg & Hl). unfold s0 at 1 2.
    cbn [set_index_files sv_hash_slot_num sv_index_num]. rewrite Hg. cbn [obind]. rewrite Hl.
    cbn [obind]. rewrite Hh.
    change (sv_checkpoint s0) with (sv_checkpoint s).
    destruct (kept ok s f) eqn:Hk; unfold kept in Hk.
    + replace (negb ok && _) with false by (by destruct ok, (_ <? _)).
      destruct (IH acc (init ++ [f'])) as (fs & Hfs & Hr).
      exists (f' :: fs). rewrite filter_cons_False, filter_cons_True
        by (cbn; unfold kept; rewrite Hk; done). split.
      * etrans; [exact Hfs |]. by rewrite <- app_assoc.
      * constructor; [done | exact Hr].
    + replace (negb ok && _) with true by (by destruct ok, (_ <? _)).
      destruct (IH (acc ++ [nm]) init) as (fs & Hfs & Hr).
      exists fs. rewrite filter_cons_True, filter_cons_False
        by (cbn; unfold kept; rewrite Hk; done). split.
      * etrans; [exact Hfs |]. by rewrite <- app_assoc.
      * exact Hr.
Qed.

(** Names in strictly increasing order. *)
Definition name_lt (a b : dir_entry) : Prop :=
  bytes_cmp (str_bytes (e_name a)) (str_bytes (e_name b)) = Lt.

Lemma sort_named (l dir : list dir_entry) :
  StronglySorted name_lt l → dir ≡ₚ l → merge_sort name_le dir = l.
Proof.
  intros Hs Hp. apply (StronglySorted_unique_strong name_le).
  - assert (Htri : ∀ x y, x ∈ l → y ∈ l → x = y ∨ name_lt x y ∨ name_lt y x).
    { clear Hp. induction Hs as [| a l Hs IH Ha]; [by intros ? ? []%not_elem_of_nil |].
      rewrite Forall_forall in Ha.
      intros x y [-> | Hx]%elem_of_cons [-> | Hy]%elem_of_cons; auto. }
    intros x y Hx Hy Hxy Hyx. rewrite merge_sort_Permutation, Hp in Hx.
    unfold name_le, name_lt in *. rewrite (bytes_cmp_opp (str_bytes (e_name x))) in Hyx.
    destruct (Htri x y Hx Hy) as [? | [Hlt | Hlt]]; [done | by rewrite Hlt in Hyx |].
    rewrite (bytes_cmp_opp (str_bytes (e_name y))), Hlt in Hxy. done.
  - apply StronglySorted_merge_sort; apply _.
  - clear Hp. induction Hs as [| a l Hs IH Ha]; constructor; [done |].
    eapply Forall_impl; [exact Ha |]. unfold name_lt, name_le. intros b. by intros ->.
  - by rewrite merge_sort_Permutation.
Qed.

(** Restart: loading the directory, in whatever order it is listed, opens the
    files in the order of their names with the entries and headers they had.
    After an orderly exit that is every file; after a crash it is every file
    not newer than the checkpoint, and the others are destroyed. *)
Theorem index_service_restart (last_exit_ok : bool) (s : IndexService)
    (stored : list (string * (IndexFile * list entry))) (dir : list dir_entry) :
  service_ok s [] →
  Forall (λ x, named s x.1 ∧ file_of s x.2.1 x.2.2 ∧ x.2.2 ≠ []) stored →
  StronglySorted name_lt ((λ x, on_disk_entry x.1 x.2.1) <$> stored) →
  dir ≡ₚ (λ x, on_disk_entry x.1 x.2.1) <$> stored →
  ∃ fs, service_load last_exit_ok (Some dir) s =
      Done (set_index_files fs s,
            fst <$> filter (λ x, kept last_exit_ok s x.2.1 = false) stored) ∧
    Forall2 (reopened s) fs (snd <$> filter (λ x, kept last_exit_ok s x.2.1 = true) stored).
Proof.
  intros Hok Hst Hs Hp. unfold service_load. rewrite (sort_named _ _ Hs Hp).
  destruct (load_files_ok last_exit_ok s stored [] Hok Hst []) as (fs & Hfs & Hr).
  exists fs. split; [| done]. rewrite !app_nil_l in Hfs. rewrite <- Hfs. f_equal.
  pose proof (so_files _ _ Hok) as Hf. apply Forall2_nil_inv_r in Hf.
  destruct s. cbn in Hf. by subst.
Qed.

Definition sample_stored : list (string * (IndexFile * list entry)) :=
  [("20240101000000000"%string, (sample_index, [sample_entry]));
   ("20240101000000001"%string, (sample_index, [sample_entry]))].

Lemma index_service_restart_witness :
  let s := new_index_service 3 8 64 0 (open_checkpoint []) in
  ∃ fs, service_load false
      (Some (reverse ((λ x, on_disk_entry x.1 x.2.1) <$> sample_stored))) s =
      Done (set_index_files fs s,
            fst <$> filter (λ x, kept false s x.2.1 = false) sample_stored) ∧
    Forall2 (reopened s) fs (snd <$> filter (λ x, kept false s x.2.1 = true) sample_stored).
Proof.
  intros s. apply (index_service_restart false s sample_stored).
  - constructor; cbn; [lia | lia | unfold i32_MAX; lia | done].
  - assert (Hf : file_of s sample_index [sample_entry])
      by (split; [apply sample_index_ok | vm_compute; done]).
    assert (Hn : ∀ nm off, parse_file_from_offset nm = Done off → 0 ≤ off ≤ 2 ^ 60 → named s nm).
    { intros nm off Hp Ho. exists off. change (index_file_bytes s) with 212.
      unfold i64_MAX. split_and!; [done | lia | lia]. }
    repeat (apply Forall_cons_2; [split_and!; [| exact Hf | done] |]); [| | apply Forall_nil_2].
    + apply (Hn _ 20240101000000000); [done | lia].
    + apply (Hn _ 20240101000000001); [done | lia].
  - repeat constructor.
  - apply reverse_Permutation.
Defined.
