(* ===== verification/CheckMessage.v ===== *)
(** * CheckMessage: from a record of the commit log to its dispatch request
    ([check_message_and_return_size] of [commit_log.rs], [parse_delay_level] of
    [local_file_message_store.rs])

    Recovery and the reput service read the log record by record with this
    function; its result says how long the record is, whether it is intact, and
    what the consume queue and the index need to know about the message. *)

From stdpp Require Import base gmap list strings.
From coqutil Require Import Byte.
From Stdlib Require Import ZArith Lia.
From S2P Require Import Prelude Bytes Utf8 Message Properties MessageDecoder MessageCodec FileName MessageExtEncoder Hasher Rebalance DispatchRequest.
Open Scope Z_scope.
Open Scope rmq_scope.

Module MessageConst.
Definition PROPERTY_KEYS : string := "KEYS".
Definition PROPERTY_TAGS : string := "TAGS".
Definition PROPERTY_UNIQ_CLIENT_MESSAGE_ID_KEYIDX : string := "UNIQ_KEY".
Definition DUP_INFO : string := "DUP_INFO".
Definition PROPERTY_DELAY_TIME_LEVEL : string := "DELAY".
Definition PROPERTY_CRC32 : string := "__CRC32#".
Definition PROPERTY_INNER_NUM : string := "INNER_NUM".
Definition PROPERTY_INNER_BASE : string := "INNER_BASE".
End MessageConst.

Definition RMQ_SYS_SCHEDULE_TOPIC : string := "SCHEDULE_TOPIC_XXXX".

(** [get_delay_time_level] *)
Definition get_delay_time_level (m : Message) : Z :=
  match properties m !! MessageConst.PROPERTY_DELAY_TIME_LEVEL with
  | Some t => default 0 (parse_i32 t)
  | None => 0
  end.
(** [clear_property] of a message *)
Definition clear_property (name : string) (m : Message) : Message :=
  mkMessage (topic m) (flag m) (delete name (properties m)) (body m) (compressed_body m)
    (transaction_id m).

(** [tags_string2tags_code] of [message_single.rs] *)
Definition tags_string2tags_code (tags : option string) : Z :=
  match tags with
  | None => 0
  | Some t => if decide (t = "") then 0 else hash_str t
  end.

(** The delay levels of the store: the time in milliseconds of each level. *)
Record DelayLevels := mkDelay {
  delay_level_table : gmap Z Z;
  max_delay_level : Z;
}.

(** What of a message's property decides its place in the queue of delayed
    messages: the level, bounded, and its time after the store time. *)
Definition tags_code_of (d : DelayLevels) (topic : string) (store_timestamp : Z)
    (properties : gmap string string) : outcome Z :=
  let tags_code := tags_string2tags_code (properties !! MessageConst.PROPERTY_TAGS) in
  match properties !! MessageConst.PROPERTY_DELAY_TIME_LEVEL with
  | Some level =>
      if decide (topic = RMQ_SYS_SCHEDULE_TOPIC) then
        let* delay_level := unwrap (parse_i32 level) in
        let delay_level :=
          if max_delay_level d <? delay_level then max_delay_level d else delay_level in
        if 0 <? delay_level then
          match delay_level_table d !! delay_level with
          | Some t => Done (as_i64 (t + store_timestamp))
          | None => Done (as_i64 (store_timestamp + 1000))
          end
        else Done tags_code
      else Done tags_code
  | None => Done tags_code
  end.

(** Whether the duplication info is there and has two parts. *)
Definition dup_info_ok (properties : gmap string string) : bool :=
  match properties !! MessageConst.DUP_INFO with
  | None => false
  | Some content => (length (split_byte Byte.x5f (str_bytes content) []) =? 2)%nat
  end.

(** The CRC in the properties, read backwards digit by digit. *)
Definition expected_crc (properties : gmap string string) : Z :=
  match properties !! MessageConst.PROPERTY_CRC32 with
  | None => -1
  | Some s =>
      fold_left (λ acc ch, as_i32 (as_i32 (acc * 10) + as_u8 (as_u8 ch - 48)))
        (reverse (chars s)) 0
  end.

Definition set_batch_size_if_needed (properties : gmap string string) (r : DispatchRequest)
  : outcome DispatchRequest :=
  match properties !! MessageConst.PROPERTY_INNER_NUM,
        properties !! MessageConst.PROPERTY_INNER_BASE with
  | Some num, Some base =>
      let* b := unwrap (parse_i64 base) in
      let* n := unwrap (parse_signed (- 2 ^ 15) (2 ^ 15 - 1) num) in
      Done (set_batch b n r)
  | _, _ => Done r
  end.

Section Check.
Variable crc32fast : buffer → Z.
Variable force_verify_prop_crc : bool.
Variable delay : DelayLevels.

(** The body: [false] when its CRC is wrong. *)
Definition check_body (check_crc read_body : bool) (body_len body_crc : Z) : reader bool := λ b,
  if 0 <? body_len then
    let* (body, b) := get_bytes body_len b in
    if read_body then
      if check_crc && negb force_verify_prop_crc
      then Done (crc32 crc32fast body =? as_u32 body_crc, b)
      else Done (true, b)
    else Done (true, b)
  else Done (true, b).

(** The properties: the map, whether any were there, and what is read out of
    them; [None] when the duplication info is wrong. *)
Definition check_properties (check_dup_info : bool) (topic : string)
    (store_timestamp properties_length : Z)
  : reader (option (Z * string * option string * gmap string string)) := λ b,
  if 0 <? properties_length then
    let* (bytes, b) := get_bytes properties_length b in
    let properties := string_to_message_properties (Some (from_utf8_lossy bytes)) in
    if check_dup_info && negb (dup_info_ok properties) then Done (None, b)
    else
      let* tags_code := tags_code_of delay topic store_timestamp properties in
      Done (Some (tags_code, default "" (properties !! MessageConst.PROPERTY_KEYS),
                  properties !! MessageConst.PROPERTY_UNIQ_CLIENT_MESSAGE_ID_KEYIDX,
                  properties), b)
  else Done (Some (0, ""%string, None, ∅), b).

(** The rest of the record, from the length of the body on. *)
Definition check_rest (check_crc check_dup_info read_body : bool) (version : MessageVersion)
    (total_size body_crc queue_id queue_offset physic_offset sys_flag store_timestamp
     prepared_transaction_offset : Z) : reader DispatchRequest := λ b,
  let* (body_len, b) := get_i32 b in
  let* (ok, b) := check_body check_crc read_body body_len body_crc b in
  if negb ok then Done (sized_request (-1) false, b)
  else
    let* (topic_len, b) := get_topic_length version b in
    let* (topic_bytes, b) := get_bytes topic_len b in
    let topic := from_utf8_lossy topic_bytes in
    let* (properties_length, b) := get_i16 b in
    let* (props, b) :=
      check_properties check_dup_info topic store_timestamp properties_length b in
    match props with
    | None => Done (sized_request (-1) false, b)
    | Some (tags_code, keys, uniq_key, properties) =>
        if check_crc && force_verify_prop_crc && (0 <? expected_crc properties) then Panic
        else
          let read_length := cal_msg_length version sys_flag body_len (as_i32 topic_len)
                               properties_length in
          if negb (total_size =? read_length) then Done (sized_request total_size false, b)
          else
            let* r := set_batch_size_if_needed properties
              (mkRequest topic queue_id physic_offset total_size tags_code store_timestamp
                 queue_offset keys true uniq_key sys_flag prepared_transaction_offset None
                 (-1) (-1) 1) in
            Done (set_properties_map properties r, b)
    end.

Definition check_message_and_return_size (check_crc check_dup_info read_body : bool)
  : reader DispatchRequest := λ b,
  let* (total_size, b) := get_i32 b in
  let* (magic_code, b) := get_i32 b in
  if magic_code =? BLANK_MAGIC_CODE then Done (sized_request 0 true, b)
  else
    match value_of_magic_code magic_code with
    | None => Done (sized_request (-1) false, b)
    | Some version =>
        let* (body_crc, b) := get_i32 b in
        let* (queue_id, b) := get_i32 b in
        let* (_, b) := get_i32 b in
        let* (queue_offset, b) := get_i64 b in
        let* (physic_offset, b) := get_i64 b in
        let* (sys_flag, b) := get_i32 b in
        let* (_, b) := get_i64 b in
        let* (_, b) := get_bytes (host_length sys_flag MessageSysFlag.BORNHOST_V6_FLAG) b in
        let* (store_timestamp, b) := get_i64 b in
        let* (_, b) :=
          get_bytes (host_length sys_flag MessageSysFlag.STOREHOSTADDRESS_V6_FLAG) b in
        let* (_, b) := get_i32 b in
        let* (prepared_transaction_offset, b) := get_i64 b in
        check_rest check_crc check_dup_info read_body version total_size body_crc queue_id
          queue_offset physic_offset sys_flag store_timestamp prepared_transaction_offset b
    end.
End Check.

(** ** Stored records *)

(** The length of a record, as its own fields give it. *)
Definition stored_length (v : MessageVersion) (m : MessageExt) (data props : buffer) : Z :=
  4 + 4 + 4 + 4 + 4 + 8 + 8 + 4 + 8
  + host_length (sys_flag m) MessageSysFlag.BORNHOST_V6_FLAG + 8
  + host_length (sys_flag m) MessageSysFlag.STOREHOSTADDRESS_V6_FLAG + 4 + 8
  + 4 + Z.of_nat (length data) + get_topic_length_size v
  + Z.of_nat (length (str_bytes (topic (message m)))) + 2 + Z.of_nat (length props).

Lemma record_bytes_length (v : MessageVersion) (m : MessageExt) (data props : buffer) :
  wf_header m → Z.of_nat (length (record_bytes v m data props)) = stored_length v m data props.
Proof.
  intros []. unfold record_bytes, header_bytes, stored_length.
  pose proof (topic_field_length v (str_bytes (topic (message m)))).
  pose proof (host_length_bytes _ _ _ wf_born_host wf_born_flag).
  pose proof (host_length_bytes _ _ _ wf_store_host wf_store_flag).
  autorewrite with rmq_len. lia.
Qed.

(** The record announces its own length. *)
Definition sized (v : MessageVersion) (m : MessageExt) (data props : buffer) : Prop :=
  store_size m = stored_length v m data props ∧ stored_length v m data props ≤ i32_MAX.

(** The request for a message with the properties [pm]. *)
Definition request_of (d : DelayLevels) (m : MessageExt) (pm : gmap string string)
  : outcome DispatchRequest :=
  let* tags_code := tags_code_of d (topic (message m)) (store_timestamp m) pm in
  let* r := set_batch_size_if_needed pm
    (mkRequest (topic (message m)) (queue_id m) (commit_log_offset m) (store_size m) tags_code
       (store_timestamp m) (queue_offset m) (default "" (pm !! MessageConst.PROPERTY_KEYS)) true
       (pm !! MessageConst.PROPERTY_UNIQ_CLIENT_MESSAGE_ID_KEYIDX) (sys_flag m)
       (prepared_transaction_offset m) None (-1) (-1) 1) in
  Done (set_properties_map pm r).

Lemma request_of_fields (d : DelayLevels) (m : MessageExt) (pm : gmap string string)
    (r : DispatchRequest) :
  request_of d m pm = Done r →
  dr_success r = true ∧ dr_msg_size r = store_size m ∧ dr_buffer_size r = -1.
Proof.
  unfold request_of. destruct (tags_code_of _ _ _ _) as [tc |]; [| done].
  cbn [obind]. unfold set_batch_size_if_needed. intros H.
  apply obind_done in H as (r0 & H0 & H). apply done_inj in H as <-.
  destruct (_ !! MessageConst.PROPERTY_INNER_NUM);
    [destruct (_ !! MessageConst.PROPERTY_INNER_BASE) |].
  - apply obind_done in H0 as (b & _ & H0). apply obind_done in H0 as (n & _ & H0).
    by apply done_inj in H0 as <-.
  - by apply done_inj in H0 as <-.
  - by apply done_inj in H0 as <-.
Qed.

(** The property map a record carries. *)
Definition record_properties (props : buffer) : gmap string string :=
  match props with [] => ∅ | _ => string_to_message_properties (Some (bytes_str props)) end.

(** A body CRC written unsigned and read signed. *)
Lemma get_put_u32_i32 (z : Z) (rest : buffer) :
  in_u 32 z → ∃ s, get_i32 (put_u32 z ++ rest) = Done (s, rest) ∧ as_u32 s = z.
Proof.
  intros Hz. exists (wrap_s 32 z). split; [apply (get_sint_put_wrap 4) |].
  unfold as_u32, wrap_u, wrap_s. rewrite Zminus_mod_idemp_l.
  replace (z + 2 ^ (32 - 1) - 2 ^ (32 - 1)) with z by lia. by apply Z.mod_small.
Qed.

Section Stored.
Variable crc32fast : buffer → Z.
Variable delay : DelayLevels.

Lemma check_body_put (cc rb : bool) (data rest : buffer) (crc : Z) :
  (cc = true → rb = true → data ≠ [] → crc32 crc32fast data = as_u32 crc) →
  check_body crc32fast false cc rb (Z.of_nat (length data)) crc (data ++ rest) =
  Done (true, rest).
Proof.
  intros Hcrc. unfold check_body. destruct data as [| x data]; [done |].
  rewrite (proj2 (Z.ltb_lt _ _)) by (simpl; lia). rewrite get_bytes_app by done. cbn [obind].
  destruct rb; [| done]. destruct cc; [| done]. cbn [andb negb].
  by rewrite (proj2 (Z.eqb_eq _ _)) by (by apply Hcrc).
Qed.

Lemma check_properties_put (topic : string) (ts : Z) (props rest : buffer) :
  in_s 16 (Z.of_nat (length props)) → utf8_valid props = true →
  check_properties delay false topic ts (Z.of_nat (length props)) (props ++ rest) =
  let pm := record_properties props in
  let* tags_code := tags_code_of delay topic ts pm in
  Done (Some (tags_code, default "" (pm !! MessageConst.PROPERTY_KEYS),
              pm !! MessageConst.PROPERTY_UNIQ_CLIENT_MESSAGE_ID_KEYIDX, pm), rest).
Proof.
  intros Hl Hv. unfold check_properties. destruct props as [| x props]; [done |].
  rewrite (proj2 (Z.ltb_lt _ _)) by (simpl; lia). rewrite get_bytes_app by done. cbn [obind].
  rewrite from_utf8_lossy_valid by done. done.
Qed.

(** The fixed fields of a record. *)
Lemma check_header (cc dup rb : bool) (v : MessageVersion) (m : MessageExt) (tail : buffer) :
  wf_header m →
  ∃ crc, as_u32 crc = body_crc m ∧
    check_message_and_return_size crc32fast false delay cc dup rb (header_bytes v m ++ tail) =
    check_rest crc32fast false delay cc dup rb v (store_size m) crc (queue_id m)
      (queue_offset m) (commit_log_offset m) (sys_flag m) (store_timestamp m)
      (prepared_transaction_offset m) tail.
Proof.
  intros []. unfold check_message_and_return_size, header_bytes. rewrite <- !(assoc_L (++)).
  assert (in_s 32 (get_magic_code v)) by (by destruct v).
  do 2 (rewrite get_put_i32 by done; cbn [obind]).
  replace (get_magic_code v =? BLANK_MAGIC_CODE) with false by (by destruct v).
  rewrite value_of_get_magic_code.
  destruct (get_put_u32_i32 (body_crc m) (put_i32 (queue_id m) ++ put_i32 (flag (message m)) ++
    put_i64 (queue_offset m) ++ put_i64 (commit_log_offset m) ++ put_i32 (sys_flag m) ++
    put_i64 (born_timestamp m) ++ socket_address_2_byte_buffer (born_host m) ++
    put_i64 (store_timestamp m) ++ socket_address_2_byte_buffer (store_host m) ++
    put_i32 (reconsume_times m) ++ put_i64 (prepared_transaction_offset m) ++ tail))
    as (crc & Hget & Hcrc); [done |].
  exists crc. split; [done |]. rewrite Hget. clear Hget. cbn [obind].
  do 2 (rewrite get_put_i32 by done; cbn [obind]).
  do 2 (rewrite get_put_i64 by done; cbn [obind]).
  rewrite get_put_i32 by done; cbn [obind]. rewrite get_put_i64 by done; cbn [obind].
  rewrite get_bytes_app by (by apply host_length_bytes). cbn [obind].
  rewrite get_put_i64 by done; cbn [obind].
  rewrite get_bytes_app by (by apply host_length_bytes). cbn [obind].
  rewrite get_put_i32 by done; cbn [obind]. by rewrite get_put_i64 by done.
Qed.

(** Checking a stored record whose body is intact yields its request and leaves
    what follows unread. *)
Lemma check_record (cc rb : bool) (v : MessageVersion) (m : MessageExt)
    (data props rest : buffer) :
  wf_record v m data props → sized v m data props →
  (cc = true → rb = true → data ≠ [] → crc32 crc32fast data = body_crc m) →
  check_message_and_return_size crc32fast false delay cc false rb
    (record_bytes v m data props ++ rest) =
  let* r := request_of delay m (record_properties props) in Done (r, rest).
Proof.
  intros [] [Hsz Hmax] Hcrc. unfold record_bytes. rewrite <- !(assoc_L (++)).
  destruct (check_header cc false rb v m
    (put_i32 (Z.of_nat (length data)) ++ data ++ topic_field v (str_bytes (topic (message m))) ++
     put_i16 (Z.of_nat (length props)) ++ props ++ rest)) as (crc & Hc & ->); [done |].
  unfold check_rest. rewrite get_put_i32 by done. cbn [obind].
  rewrite check_body_put by (rewrite Hc; done). cbn [obind negb].
  rewrite get_topic_put by done. cbn [obind]. rewrite get_bytes_app by done. cbn [obind].
  rewrite from_utf8_lossy_valid, bytes_str_bytes by done.
  rewrite get_put_i16 by done. cbn [obind]. rewrite check_properties_put by done.
  unfold request_of. cbv zeta.
  destruct (tags_code_of _ _ _ _) as [tc |]; [| done]. cbn [obind].
  rewrite andb_false_r. cbn [andb].
  assert (Hlen : cal_msg_length v (sys_flag m) (Z.of_nat (length data))
    (as_i32 (Z.of_nat (length (str_bytes (topic (message m)))))) (Z.of_nat (length props)) =
    store_size m).
  { rewrite Hsz. unfold cal_msg_length, stored_length, i32_MAX in *.
    pose proof (host_length_bound (sys_flag m) MessageSysFlag.BORNHOST_V6_FLAG).
    pose proof (host_length_bound (sys_flag m) MessageSysFlag.STOREHOSTADDRESS_V6_FLAG).
    assert (0 ≤ get_topic_length_size v) by (by destruct v).
    rewrite (as_i32_id (Z.of_nat (length (str_bytes _)))) by in_range.
    rewrite as_i32_id by in_range. lia. }
  rewrite Hlen, Z.eqb_refl. cbn [negb].
  by destruct (set_batch_size_if_needed _ _).
Qed.
End Stored.

(** ** Delay levels *)

(** The milliseconds of a unit. *)
Definition time_unit (ch : Z) : option Z :=
  if ch =? 115 then Some 1000
  else if ch =? 109 then Some (1000 * 60)
  else if ch =? 104 then Some (1000 * 60 * 60)
  else if ch =? 100 then Some (1000 * 60 * 60 * 24)
  else None.

Fixpoint parse_levels (level : Z) (values : list buffer) (d : DelayLevels)
  : outcome DelayLevels :=
  match values with
  | [] => Done d
  | value :: values' =>
      let* ch := unwrap (last (chars (bytes_str value))) in
      match time_unit ch with
      | None => parse_levels (as_i32 (level + 1)) values' d
      | Some tu =>
          let m := if max_delay_level d <? level then level else max_delay_level d in
          match parse_i64 (bytes_str (take (length value - 1) value)) with
          | None => parse_levels (as_i32 (level + 1)) values' (mkDelay (delay_level_table d) m)
          | Some num =>
              parse_levels (as_i32 (level + 1)) values'
                (mkDelay (<[level := as_i64 (tu * num)]> (delay_level_table d)) m)
          end
      end
  end.
Definition parse_delay_level (level_string : string) : outcome DelayLevels :=
  parse_levels 1 (split_byte Byte.x20 (str_bytes level_string) []) (mkDelay ∅ 0).

(** The default levels of the store. *)
Definition default_levels : string :=
  "1s 5s 10s 30s 1m 2m 3m 4m 5m 6m 7m 8m 9m 10m 20m 30m 1h 2h".
Example default_levels_parse :
  match parse_delay_level default_levels with
  | Done d => max_delay_level d = 18 ∧ delay_level_table d !! 1 = Some 1000 ∧
              delay_level_table d !! 5 = Some 60000 ∧ delay_level_table d !! 18 = Some 7200000
  | Panic => False
  end.
Proof. vm_compute. done. Qed.

(** ** Whatever the bytes are *)

(** The fields of a request fit their machine widths. *)
Record request_typed (r : DispatchRequest) : Prop := {
  rt_queue_id : in_s 32 (dr_queue_id r);
  rt_offset : in_s 64 (dr_commit_log_offset r);
  rt_size : in_s 32 (dr_msg_size r);
  rt_tags : in_s 64 (dr_tags_code r);
  rt_timestamp : in_s 64 (dr_store_timestamp r);
  rt_queue_offset : in_s 64 (dr_consume_queue_offset r);
  rt_sys_flag : in_s 32 (dr_sys_flag r);
  rt_prepared : in_s 64 (dr_prepared_transaction_offset r);
  rt_buffer_size : in_s 32 (dr_buffer_size r);
  rt_base : in_s 64 (dr_msg_base_offset r);
  rt_batch : in_s 16 (dr_batch_size r);
}.

Lemma sized_typed (n : Z) (ok : bool) : in_s 32 n → request_typed (sized_request n ok).
Proof. intros H. constructor; cbn; first [done | in_range]. Qed.

Lemma parse_signed_range (w : Z) (s : string) (z : Z) :
  parse_signed (- 2 ^ (w - 1)) (2 ^ (w - 1) - 1) s = Some z → in_s w z.
Proof.
  unfold parse_signed, in_s. intros H. repeat case_match; simplify_eq; try done; lia.
Qed.

Lemma tags_code_typed (d : DelayLevels) (t : string) (ts z : Z) (pm : gmap string string) :
  tags_code_of d t ts pm = Done z → in_s 64 z.
Proof.
  unfold tags_code_of. set (tc := tags_string2tags_code _).
  assert (Htc : in_s 64 tc).
  { unfold tc, tags_string2tags_code. destruct (_ !! _) as [s |]; [case_decide |]; try in_range.
    pose proof (hash_str_range s). in_range. }
  intros H. repeat case_match; try (apply done_inj in H as <-; done).
  apply obind_done in H as (l & _ & H). cbv zeta in H.
  repeat case_match; apply done_inj in H as <-; first [done | apply (wrap_s_range 64); lia].
Qed.

Lemma set_batch_typed (pm : gmap string string) (r r' : DispatchRequest) :
  request_typed r → set_batch_size_if_needed pm r = Done r' →
  request_typed r' ∧ dr_success r' = dr_success r ∧ dr_msg_size r' = dr_msg_size r.
Proof.
  intros Hr. unfold set_batch_size_if_needed. intros H.
  repeat case_match; try (by apply done_inj in H as <-).
  apply obind_done in H as (b & Hb & H). apply obind_done in H as (n & Hn & H).
  apply done_inj in H as <-.
  destruct (parse_i64 _) eqn:Eb in Hb; [| done]. apply done_inj in Hb as <-.
  destruct (parse_signed _ _ _) eqn:En in Hn; [| done]. apply done_inj in Hn as <-.
  apply (parse_signed_range 64) in Eb. apply (parse_signed_range 16) in En.
  destruct Hr. split; [| done]. by constructor.
Qed.

Lemma check_body_used (crc32fast : buffer → Z) (force cc rb ok : bool) (n crc : Z)
    (b b' : buffer) :
  check_body crc32fast force cc rb n crc b = Done (ok, b') → used b b' (Z.max n 0).
Proof.
  unfold check_body. case_match eqn:E.
  - apply Z.ltb_lt in E. intros H. apply obind_done in H as ([v x] & H & Hk).
    apply get_bytes_used in H; [| lia]. rewrite Z.max_l by lia.
    repeat case_match; apply done_inj in Hk as [= _ <-]; done.
  - apply Z.ltb_ge in E. intros H. apply done_inj in H as [= _ <-].
    rewrite Z.max_r by lia. apply used_0.
Qed.

Lemma check_properties_used (d : DelayLevels) (dup : bool) (t : string) (ts n : Z) o
    (b b' : buffer) :
  check_properties d dup t ts n b = Done (o, b') →
  used b b' (Z.max n 0) ∧ match o with Some (tc, _, _, _) => in_s 64 tc | None => True end.
Proof.
  unfold check_properties. case_match eqn:E.
  - apply Z.ltb_lt in E. intros H. apply obind_done in H as ([v x] & H & Hk).
    apply get_bytes_used in H; [| lia]. rewrite Z.max_l by lia. cbv zeta in Hk. case_match.
    + by apply done_inj in Hk as [= <- <-].
    + apply obind_done in Hk as (tc & Htc & Hk). apply done_inj in Hk as [= <- <-].
      split; [done | by apply tags_code_typed in Htc].
  - apply Z.ltb_ge in E. intros H. apply done_inj in H as [= <- <-].
    rewrite Z.max_r by lia. split; [apply used_0 | in_range].
Qed.

Lemma get_topic_length_used (v : MessageVersion) (n : Z) (b b' : buffer) :
  get_topic_length v b = Done (n, b') → used b b' (get_topic_length_size v) ∧ 0 ≤ n.
Proof.
  destruct v; cbn [get_topic_length get_topic_length_size]; intros H.
  - by apply get_uint_used in H.
  - apply obind_done in H as ([z x] & H & Hk). apply done_inj in Hk as [= <- <-].
    apply get_sint_used in H as [H _]; [| lia]. split; [done |].
    apply Z.mod_pos_bound. lia.
Qed.

(** Takes the next field off a chain of reads, with what it used. *)
Ltac next_read H U R :=
  let z := fresh "z" in let x := fresh "x" in let E := fresh "E" in
  apply obind_done in H as ([z x] & E & H);
  first [ apply (get_sint_used 4) in E as [U R]; [| lia]
        | apply (get_sint_used 8) in E as [U R]; [| lia]
        | apply (get_sint_used 2) in E as [U R]; [| lia]
        | apply get_bytes_used in E; [rename E into U | unfold host_length; case_match; lia] ].

(** The bytes before the length of the body. *)
Definition fixed_length (sysf : Z) : Z :=
  4 + 4 + 4 + 4 + 4 + 8 + 8 + 4 + 8 + host_length sysf MessageSysFlag.BORNHOST_V6_FLAG + 8
  + host_length sysf MessageSysFlag.STOREHOSTADDRESS_V6_FLAG + 4 + 8.

(** A reported record: its fields fit, and a good one was read to its end. *)
Definition record_read (b b' : buffer) (before : Z) (r : DispatchRequest) : Prop :=
  request_typed r ∧ ∃ n, used b b' n ∧
  (dr_success r = true → 0 < dr_msg_size r → before + n = dr_msg_size r).

Lemma damaged_read (b b' : buffer) (before n k : Z) :
  in_s 32 k → used b b' n → record_read b b' before (sized_request k false).
Proof. intros Hk Hu. split; [by apply sized_typed |]. by exists n. Qed.

Lemma used_le (b b' : buffer) (n : Z) : used b b' n → 0 ≤ n ∧ n ≤ Z.of_nat (length b).
Proof. intros (u & -> & <-). rewrite length_app. lia. Qed.

Lemma check_rest_read (crc32fast : buffer → Z) (force : bool) (d : DelayLevels)
    (cc dup rb : bool) (v : MessageVersion) (total crc qid qo po sysf ts pto : Z)
    (b b' : buffer) (r : DispatchRequest) :
  in_s 32 total → in_s 32 qid → in_s 64 qo → in_s 64 po → in_s 32 sysf → in_s 64 ts →
  in_s 64 pto → fixed_length sysf + Z.of_nat (length b) ≤ i32_MAX →
  check_rest crc32fast force d cc dup rb v total crc qid qo po sysf ts pto b = Done (r, b') →
  record_read b b' (fixed_length sysf) r.
Proof.
  intros Ht Hq Hqo Hpo Hs Hts Hpto Hmax H. unfold check_rest in H.
  next_read H U0 R0. apply obind_done in H as ([ok x0] & Eb & H). apply check_body_used in Eb.
  pose proof (used_trans _ _ _ _ _ U0 Eb) as U1. destruct ok; cbn [negb] in H.
  2: { apply done_inj in H as [= <- <-]. by eapply damaged_read, U1. }
  apply obind_done in H as ([tl x1] & Etl & H). apply get_topic_length_used in Etl as [Etl Htl].
  pose proof (used_trans _ _ _ _ _ U1 Etl) as U2.
  apply obind_done in H as ([tb x2] & Etb & H). apply get_bytes_used in Etb; [| done].
  pose proof (used_trans _ _ _ _ _ U2 Etb) as U3. cbv zeta in H.
  next_read H U4 R4. pose proof (used_trans _ _ _ _ _ U3 U4) as U5.
  apply obind_done in H as ([o x4] & Ep & H). apply check_properties_used in Ep as [Ep Hp].
  pose proof (used_trans _ _ _ _ _ U5 Ep) as U6. clear U1 U2 U3 U4 U5.
  destruct o as [[[[tc keys] uq] pm] |].
  2: { apply done_inj in H as [= <- <-]. by eapply damaged_read, U6. }
  case_match; [done |]. case_match eqn:El.
  { apply done_inj in H as [= <- <-]. by eapply damaged_read, U6. }
  apply negb_false_iff, Z.eqb_eq in El.
  apply obind_done in H as (r0 & Hr0 & H). apply done_inj in H as [= <- <-].
  apply set_batch_typed in Hr0 as (Hr0 & Hok & Hsz);
    [| by constructor; cbn; first [done | in_range]].
  destruct Hr0. split; [by constructor |]. eexists; split; [exact U6 |]. intros _ _.
  cbn in Hsz |- *. rewrite Hsz, El. pose proof (used_le _ _ _ U6). pose proof (used_le _ _ _ Etb).
  pose proof (used_le _ _ _ Etl). pose proof (used_le _ _ _ Eb).
  pose proof (used_le _ _ _ U0). pose proof (used_le _ _ _ Ep).
  unfold cal_msg_length, fixed_length, i32_MAX in *.
  pose proof (host_length_bound sysf MessageSysFlag.BORNHOST_V6_FLAG).
  pose proof (host_length_bound sysf MessageSysFlag.STOREHOSTADDRESS_V6_FLAG).
  rewrite (as_i32_id tl) by in_range. rewrite as_i32_id by in_range. lia.
Qed.

(** ** Theorems *)

(** C14: Whatever the bytes are: the request a check reports has fields that fit
    their types, the check reads a prefix of the buffer, and a record reported
    as good was read exactly to the end its size announces, so the next record
    is read from its own beginning. *)
Theorem check_reads_records (crc32fast : buffer → Z) (force : bool) (d : DelayLevels)
    (cc dup rb : bool) (b b' : buffer) (r : DispatchRequest) :
  Z.of_nat (length b) ≤ i32_MAX →
  check_message_and_return_size crc32fast force d cc dup rb b = Done (r, b') →
  request_typed r ∧
  ∃ u, b = u ++ b' ∧
    (dr_success r = true → 0 < dr_msg_size r → Z.of_nat (length u) = dr_msg_size r).
Proof.
  intros Hmax H. unfold check_message_and_return_size in H.
  next_read H U0 R0. next_read H U1 R1. pose proof (used_trans _ _ _ _ _ U0 U1) as U.
  destruct (_ =? BLANK_MAGIC_CODE).
  { apply done_inj in H as [= <- <-]. destruct U as (u & Hu & _).
    split; [apply sized_typed; in_range | by exists u]. }
  destruct (value_of_magic_code _) as [v |].
  2: { apply done_inj in H as [= <- <-]. destruct U as (u & Hu & _).
       split; [apply sized_typed; in_range | by exists u]. }
  do 12 (let U' := fresh "U" in let R' := fresh "R" in
         next_read H U' R'; pose proof (used_trans _ _ _ _ _ U U'); clear U;
         match goal with K : used b _ _ |- _ => rename K into U end).
  pose proof (used_le _ _ _ U). destruct U as (u & -> & Hu). rewrite length_app in Hmax.
  apply check_rest_read in H as (Hr & n & (w & -> & Hw) & Hn); try done.
  - split; [done |]. exists (u ++ w). split; [by rewrite (assoc_L (++)) |]. intros Hok Hpos.
    rewrite <- (Hn Hok Hpos), length_app, Nat2Z.inj_add, Hu, Hw. unfold fixed_length. lia.
  - unfold fixed_length. lia.
Qed.

(** The log tells its consumers the truth: for a stored record whose body is
    intact, the request carries the topic, queue, offsets, size, times and flags
    of the message, the keys of its properties, and for a delayed message the
    time it is due; and nothing beyond the record is read. *)
Theorem check_stored_record (crc32fast : buffer → Z) (delay : DelayLevels) (cc rb : bool)
    (v : MessageVersion) (m : MessageExt) (data rest : buffer) (order : list (string * string)) :
  let props := str_bytes (message_properties_to_string order) in
  wf_record v m data props → sized v m data props →
  order ≡ₚ map_to_list (properties (message m)) →
  map_Forall (λ k v, sep_free (k, v) ∧ nonempty_entry (k, v)) (properties (message m)) →
  (cc = true → rb = true → data ≠ [] → crc32 crc32fast data = body_crc m) →
  check_message_and_return_size crc32fast false delay cc false rb
    (record_bytes v m data props ++ rest) =
  let* r := request_of delay m (properties (message m)) in Done (r, rest).
Proof.
  intros props Hwf Hsz Hp Hm Hcrc. rewrite check_record by done.
  replace (record_properties props) with (properties (message m)); [done |].
  rewrite <- (parse_print_perm (properties (message m)) order) by done.
  unfold record_properties, props. rewrite bytes_str_bytes.
  destruct (str_bytes _) eqn:E; [| done]. apply str_bytes_nil in E. by rewrite E.
Qed.

(** A delayed message is due its level's time after it was stored. *)
Definition sample_delayed : MessageExt :=
  mkMessageExt (mkMessage RMQ_SYS_SCHEDULE_TOPIC 0 {["DELAY"%string := "5"%string]} (Some (str_bytes "hello"))
                  None None)
    "" 4 123 7 0 1000 (SockV4 [Byte.x7f; Byte.x00; Byte.x00; Byte.x01] 10911) 2000
    (SockV4 [Byte.x7f; Byte.x00; Byte.x00; Byte.x01] 10911) "" 4096 0 0 0.
Definition sample_levels : DelayLevels := mkDelay {[5 := 60000]} 18.

Lemma check_reads_records_witness :
  let b := record_bytes V1 sample_delayed (str_bytes "hello")
             (str_bytes (message_properties_to_string [("DELAY", "5")%string])) ++ [Byte.xff] in
  ∃ r, check_message_and_return_size (λ _, 0) false sample_levels true false true b =
       Done (r, [Byte.xff]) ∧ request_typed r ∧
       ∃ u, b = u ++ [Byte.xff] ∧ Z.of_nat (length u) = 123.
Proof.
  intros b.
  destruct (check_message_and_return_size (λ _, 0) false sample_levels true false true b)
    as [[r b'] |] eqn:E; [| vm_compute in E; done].
  pose proof (check_reads_records (λ _, 0) false sample_levels true false true b b' r) as H.
  specialize (H ltac:(vm_compute; discriminate) E) as (Hr & u & Hu & Hn).
  assert (Hb : b' = [Byte.xff] ∧ dr_success r = true ∧ dr_msg_size r = 123).
  { vm_compute in E. by injection E as <- <-. }
  destruct Hb as (-> & Hok & Hsz). exists r. split; [done |]. split; [done |].
  exists u. split; [done |]. rewrite <- Hsz. apply Hn; [done |]. by rewrite Hsz.
Defined.

Lemma check_stored_record_witness :
  let props := str_bytes (message_properties_to_string [("DELAY", "5")%string]) in
  ∃ r, dr_success r = true ∧ dr_msg_size r = 123 ∧ dr_commit_log_offset r = 4096 ∧
    dr_tags_code r = 62000 ∧
    check_message_and_return_size (λ _, 0) false sample_levels true false true
      (record_bytes V1 sample_delayed (str_bytes "hello") props ++ [Byte.xff]) =
    Done (r, [Byte.xff]).
Proof.
  intros props. subst props.
  pose proof (check_stored_record (λ _, 0) sample_levels true true V1 sample_delayed
    (str_bytes "hello") [Byte.xff] [("DELAY", "5")%string]) as H.
  cbv zeta in H. rewrite H; clear H.
  - eexists. split_and!; [| | | | vm_compute; reflexivity]; vm_compute; reflexivity.
  - constructor; [constructor |..]; by vm_compute.
  - split; [vm_compute; reflexivity | vm_compute; congruence].
  - by vm_compute.
  - apply map_Forall_singleton. solve_sep_free.
  - by vm_compute.
Defined.

(** A record whose body does not match its CRC is reported as damaged, so that
    recovery ends there. *)
Theorem check_rejects_bad_body (crc32fast : buffer → Z) (delay : DelayLevels)
    (v : MessageVersion) (m : MessageExt) (data props rest : buffer) :
  wf_record v m data props → data ≠ [] → crc32 crc32fast data ≠ body_crc m →
  ∃ b, check_message_and_return_size crc32fast false delay true false true
         (record_bytes v m data props ++ rest) = Done (sized_request (-1) false, b).
Proof.
  intros [] Hne Hcrc. unfold record_bytes. rewrite <- !(assoc_L (++)).
  destruct (check_header crc32fast delay true false true v m
    (put_i32 (Z.of_nat (length data)) ++ data ++ topic_field v (str_bytes (topic (message m))) ++
     put_i16 (Z.of_nat (length props)) ++ props ++ rest)) as (crc & Hc & ->); [done |].
  unfold check_rest. rewrite get_put_i32 by done. cbn [obind]. unfold check_body.
  destruct data as [| x data]; [done |]. rewrite (proj2 (Z.ltb_lt _ _)) by (simpl; lia).
  rewrite get_bytes_app by done. cbn [obind andb negb]. rewrite Hc.
  rewrite (proj2 (Z.eqb_neq _ _)) by done. by eexists.
Qed.

Lemma check_rejects_bad_body_witness :
  ∃ b, check_message_and_return_size (λ _, 5) false sample_levels true false true
         (record_bytes V1 sample_delayed (str_bytes "hello") (str_bytes "") ++ []) =
       Done (sized_request (-1) false, b).
Proof.
  apply (check_rejects_bad_body (λ _, 5) sample_levels V1 sample_delayed (str_bytes "hello")
    (str_bytes "") []); [| done | by vm_compute].
  constructor; [constructor |..]; by vm_compute.
Defined.

(** The marker at the end of a segment is recognised. *)
Lemma check_blank (crc32fast : buffer → Z) (force : bool) (delay : DelayLevels)
    (cc dup rb : bool) (n : Z) (rest : buffer) :
  in_s 32 n →
  check_message_and_return_size crc32fast force delay cc dup rb
    (put_i32 n ++ put_i32 BLANK_MAGIC_CODE ++ rest) = Done (sized_request 0 true, rest).
Proof.
  intros Hn. unfold check_message_and_return_size. rewrite get_put_i32 by done. cbn [obind].
  by rewrite get_put_i32 by (vm_compute; done).
Qed.
