(* ===== verification/QueueOffsets.v ===== *)
(** * QueueOffsets: the offsets given to messages ([queue_offset_operator.rs])

    Three tables of next offsets, by topic and queue: of ordinary, batch and
    light queues.  [assign_queue_offset] and [increase_queue_offset] of
    [single_consume_queue.rs] give a message its offset and then move the
    table on. *)

From stdpp Require Import base gmap list strings pretty.
From Stdlib Require Import ZArith Lia.
From S2P Require Import Prelude Bytes FileName.
Open Scope Z_scope.
Open Scope rmq_scope.

Record QueueOffsetOperator := mkOperator {
  topic_queue_table : gmap string Z;
  batch_topic_queue_table : gmap string Z;
  lmq_topic_queue_table : gmap string Z;
}.

Definition new_operator : QueueOffsetOperator := mkOperator ∅ ∅ ∅.

(** [*table.entry(key).or_insert(0)], and the same followed by [+= n]. *)
Definition entry_or_zero (key : string) (t : gmap string Z) : gmap string Z * Z :=
  match t !! key with Some o => (t, o) | None => (<[key := 0]> t, 0) end.
Definition entry_add (key : string) (n : Z) (t : gmap string Z) : gmap string Z :=
  let '(t, o) := entry_or_zero key t in <[key := as_i64 (o + n)]> t.

Definition set_topic_queue_table t o :=
  mkOperator t (batch_topic_queue_table o) (lmq_topic_queue_table o).
Definition set_batch_topic_queue_table t o :=
  mkOperator (topic_queue_table o) t (lmq_topic_queue_table o).
Definition put_lmq_table t o := mkOperator (topic_queue_table o) (batch_topic_queue_table o) t.

Definition get_queue_offset (key : string) (o : QueueOffsetOperator) : QueueOffsetOperator * Z :=
  let '(t, v) := entry_or_zero key (topic_queue_table o) in (set_topic_queue_table t o, v).
Definition get_topic_queue_next_offset (key : string) (o : QueueOffsetOperator) : option Z :=
  topic_queue_table o !! key.
Definition increase_queue_offset (key : string) (n : Z) (o : QueueOffsetOperator)
  : QueueOffsetOperator := set_topic_queue_table (entry_add key n (topic_queue_table o)) o.
Definition update_queue_offset (key : string) (v : Z) (o : QueueOffsetOperator)
  : QueueOffsetOperator := set_topic_queue_table (<[key := v]> (topic_queue_table o)) o.
Definition get_batch_queue_offset (key : string) (o : QueueOffsetOperator)
  : QueueOffsetOperator * Z :=
  let '(t, v) := entry_or_zero key (batch_topic_queue_table o) in
  (set_batch_topic_queue_table t o, v).
Definition increase_batch_queue_offset (key : string) (n : Z) (o : QueueOffsetOperator)
  : QueueOffsetOperator :=
  set_batch_topic_queue_table (entry_add key n (batch_topic_queue_table o)) o.
Definition get_lmq_offset (key : string) (o : QueueOffsetOperator) : QueueOffsetOperator * Z :=
  let '(t, v) := entry_or_zero key (lmq_topic_queue_table o) in (put_lmq_table t o, v).
Definition get_lmq_topic_queue_next_offset (key : string) (o : QueueOffsetOperator) : option Z :=
  lmq_topic_queue_table o !! key.
Definition increase_lmq_offset (key : string) (n : Z) (o : QueueOffsetOperator)
  : QueueOffsetOperator := put_lmq_table (entry_add key n (lmq_topic_queue_table o)) o.
Definition current_queue_offset (key : string) (o : QueueOffsetOperator) : Z :=
  default 0 (topic_queue_table o !! key).

(** [format!("{topic}-{queue_id}")] *)
Definition topic_queue_key (topic : string) (queue_id : Z) : string :=
  (topic +:+ "-" +:+ pretty queue_id)%string.

Definition remove_queue (topic : string) (queue_id : Z) (o : QueueOffsetOperator)
  : QueueOffsetOperator :=
  let key := topic_queue_key topic queue_id in
  mkOperator (delete key (topic_queue_table o)) (delete key (batch_topic_queue_table o))
    (delete key (lmq_topic_queue_table o)).

(** [key.contains("lmq")] *)
Fixpoint contains_lmq (s : string) : bool :=
  match s with
  | EmptyString => false
  | String _ s' => String.prefix "lmq" s || contains_lmq s'
  end.
Definition set_lmq_topic_queue_table (t : gmap string Z) (o : QueueOffsetOperator)
  : QueueOffsetOperator := put_lmq_table (filter (λ kv, contains_lmq kv.1 = true) t) o.

(** [ConsumeQueue]: the offset of a message, and the offset after it. *)
Definition assign_queue_offset (topic : string) (queue_id : Z) (o : QueueOffsetOperator)
  : QueueOffsetOperator * Z := get_queue_offset (topic_queue_key topic queue_id) o.
Definition increase_offset_of (topic : string) (queue_id n : Z) (o : QueueOffsetOperator)
  : QueueOffsetOperator := increase_queue_offset (topic_queue_key topic queue_id) n o.

(** ** Theorems *)

(** Appending messages: each takes its offset and then the table moves on by
    the number of messages in it. *)
Fixpoint assign_all (ms : list (string * Z * Z)) (o : QueueOffsetOperator)
  : QueueOffsetOperator * list Z :=
  match ms with
  | [] => (o, [])
  | (topic, id, n) :: ms' =>
      let '(o, v) := assign_queue_offset topic id o in
      let '(o, vs) := assign_all ms' (increase_offset_of topic id n o) in (o, v :: vs)
  end.

(** The messages of [ms] before position [i] that go to the queue of [key]. *)
Definition sent_to (key : string) (ms : list (string * Z * Z)) : Z :=
  foldr (λ m acc, acc + (if decide (topic_queue_key m.1.1 m.1.2 = key) then m.2 else 0)) 0 ms.

Lemma current_assign (topic key : string) (id : Z) (o : QueueOffsetOperator) :
  current_queue_offset key (assign_queue_offset topic id o).1 = current_queue_offset key o ∧
  (assign_queue_offset topic id o).2 = current_queue_offset (topic_queue_key topic id) o.
Proof.
  unfold assign_queue_offset, get_queue_offset, entry_or_zero, current_queue_offset.
  destruct (topic_queue_table o !! topic_queue_key topic id) eqn:E; cbn; [done |].
  split; [| done]. destruct (decide (key = topic_queue_key topic id)) as [-> | Hne].
  - by rewrite lookup_insert_eq, E.
  - by rewrite lookup_insert_ne.
Qed.

Lemma current_increase (topic key : string) (id n : Z) (o : QueueOffsetOperator) :
  in_s 64 (current_queue_offset (topic_queue_key topic id) o + n) →
  current_queue_offset key (increase_offset_of topic id n o) =
  current_queue_offset key o + (if decide (topic_queue_key topic id = key) then n else 0).
Proof.
  unfold increase_offset_of, increase_queue_offset, entry_add, entry_or_zero, current_queue_offset.
  intros Hr. destruct (decide (topic_queue_key topic id = key)) as [<- | Hne].
  - destruct (topic_queue_table o !! topic_queue_key topic id) eqn:E; cbn in *;
      rewrite lookup_insert_eq; cbn; by rewrite as_i64_id.
  - destruct (topic_queue_table o !! topic_queue_key topic id) eqn:E; cbn in *;
      rewrite !lookup_insert_ne by done; lia.
Qed.

(** Offsets are given consecutively per queue: a message's offset is where its
    queue stood plus the number of messages sent to that queue before it,
    whatever goes to other queues in between. *)
Theorem queue_offsets_consecutive (ms : list (string * Z * Z)) (o : QueueOffsetOperator) (i : nat)
    (topic : string) (id n : Z) :
  (∀ key, 0 ≤ current_queue_offset key o ∧ current_queue_offset key o + sent_to key ms < 2 ^ 63) →
  Forall (λ m, 0 ≤ m.2) ms → ms !! i = Some (topic, id, n) →
  (assign_all ms o).2 !! i =
  Some (current_queue_offset (topic_queue_key topic id) o +
        sent_to (topic_queue_key topic id) (take i ms)).
Proof.
  revert o i. induction ms as [| [[t j] k] ms IH]; intros o i Hb Hn Hi; [done |].
  apply Forall_cons_1 in Hn as [Hk Hn]. cbn [snd] in Hk. cbn [assign_all].
  pose proof (λ key, current_assign t key j o) as Ha.
  destruct (assign_queue_offset t j o) as [o1 v] eqn:E1. cbn [fst snd] in Ha.
  assert (Hinc : ∀ key, current_queue_offset key (increase_offset_of t j k o1) =
    current_queue_offset key o + (if decide (topic_queue_key t j = key) then k else 0)).
  { intros key. rewrite current_increase, (proj1 (Ha key)); [done |].
    rewrite (proj1 (Ha _)). destruct (Hb (topic_queue_key t j)) as [Hb0 Hb1].
    cbn in Hb1. rewrite decide_True in Hb1 by done.
    assert (0 ≤ sent_to (topic_queue_key t j) ms).
    { clear -Hn. induction Hn as [| m ms Hm _ IH]; cbn; [lia |]. unfold sent_to in IH.
      case_decide; lia. }
    unfold sent_to in *. in_range. }
  destruct (assign_all ms _) as [o2 vs] eqn:E2. cbn [snd].
  destruct i as [| i]; cbn in Hi |- *.
  - simplify_eq. rewrite (proj2 (Ha "")). f_equal. lia.
  - replace vs with (assign_all ms (increase_offset_of t j k o1)).2 by (by rewrite E2).
    rewrite IH; [| | done | done].
    + rewrite Hinc. f_equal. unfold sent_to. lia.
    + intros key. rewrite Hinc. destruct (Hb key) as [Hb0 Hb1]. unfold sent_to in *. cbn in Hb1.
      case_decide; lia.
Qed.

Lemma queue_offsets_consecutive_witness :
  (assign_all [("t", 0, 1); ("t", 1, 1); ("t", 0, 3); ("t", 0, 1)] new_operator).2 !! 3%nat = Some 4.
Proof.
  apply (queue_offsets_consecutive [("t", 0, 1); ("t", 1, 1); ("t", 0, 3); ("t", 0, 1)]
           new_operator 3 "t" 0 1); [| repeat (apply Forall_cons; split); done | done].
  intros key. unfold current_queue_offset, sent_to. cbn. rewrite lookup_empty. cbn.
  repeat case_decide; lia.
Defined.
