(* ===== verification/ConsumeQueueStore.v ===== *)
(** * ConsumeQueueStore: the table of consume queues
    ([local_file_consume_queue_store.rs])

    The store keeps a consume queue per topic and queue id, creates it when it
    is first asked for, gives messages their queue offsets and dispatches
    requests of the commit log to the queues.

    A queue is shared between the table and whoever looked it up, so a change to
    it is a change of the table.  The operations of the batch queue are
    unimplemented in the source, except for its creation and loading.  The table
    is under a lock that is not reentrant: an operation that asks for it while
    it holds it is [Blocked]. *)

From stdpp Require Import base gmap list strings pretty.
From coqutil Require Import Byte.
From Stdlib Require Import ZArith Lia.
From S2P Require Import Prelude Bytes Message MessageId FileName ReferenceResource RunningFlags MappedFile AppendCallback MappedFileQueue.
From S2P Require Import DispatchRequest ConsumeQueue QueueOffsets.
Open Scope Z_scope.
Open Scope rmq_scope.

(** ** Queue types and paths *)

#[export] Instance CQType_eq_dec : EqDecision CQType.
Proof. solve_decision. Defined.

(** [CQType::from_str] *)
Definition cq_type_from_str (s : string) : option CQType :=
  let u := bytes_str (to_uppercase <$> str_bytes s) in
  if decide (u = "SIMPLECQ") then Some SimpleCQ
  else if decide (u = "BATCHCQ") then Some BatchCQ
  else if decide (u = "ROCKSDBCQ") then Some RocksDBCQ
  else None.

(** The type of a topic's queues, from the attributes of its configuration; the
    default value of the attribute is [SimpleCQ]. *)
Definition get_cq_type (attributes : option (gmap string string)) : CQType :=
  match attributes with
  | Some a =>
      match a !! "queue.type"%string with
      | Some value => default SimpleCQ (cq_type_from_str value)
      | None => SimpleCQ
      end
  | None => SimpleCQ
  end.
Definition is_batch_cq (attributes : option (gmap string string)) : bool :=
  bool_decide (get_cq_type attributes = BatchCQ).

(** [PathBuf::join] on a Unix path. *)
Definition join_path (p x : string) : string :=
  match str_bytes x, last (str_bytes p) with
  | Byte.x2f :: _, _ => x
  | _, None => x
  | _, Some Byte.x2f => (p +:+ x)%string
  | _, Some _ => (p +:+ "/" +:+ x)%string
  end.
Definition get_store_path_consume_queue (root : string) : string := join_path root "consumequeue".
Definition get_store_path_consume_queue_ext (root : string) : string :=
  join_path root "consumequeue_ext".
Definition get_store_path_batch_consume_queue (root : string) : string :=
  join_path root "batchconsumequeue".
(** The directory of a queue. *)
Definition queue_dir (store_path topic : string) (queue_id : Z) : string :=
  join_path (join_path store_path topic) (pretty queue_id).

(** ** The state *)

Record BatchConsumeQueue := mkBatch {
  bcq_queue : MappedFileQueue;
  bcq_topic : string;
  bcq_queue_id : Z;
}.
Definition new_batch_consume_queue (topic : string) (queue_id : Z) (store_path : string)
    (size : Z) : BatchConsumeQueue :=
  mkBatch (new_queue (queue_dir store_path topic queue_id) size false) topic queue_id.

Inductive queue_slot := Simple (c : ConsumeQueue) | Batch (b : BatchConsumeQueue).

(** What the store reads of the configuration and of the message store. *)
Record CqsConfig := mkCqsConfig {
  store_path_root_dir : string;
  mapped_file_size_consume_queue : Z;
  mapper_file_size_batch_consume_queue : Z;
  ext_file_size : option Z;
  unsupported_mode : bool;
  topic_attributes : string → option (gmap string string);
}.

Record ConsumeQueueStore := mkCqs {
  consume_queue_table : gmap string (gmap Z queue_slot);
  queue_offset_operator : QueueOffsetOperator;
  cqs_shared : cq_store;
}.
Definition set_table t s := mkCqs t (queue_offset_operator s) (cqs_shared s).
Definition set_operator o s := mkCqs (consume_queue_table s) o (cqs_shared s).
Definition set_shared c s := mkCqs (consume_queue_table s) (queue_offset_operator s) c.

Definition new_consume_queue_store (shared : cq_store) : ConsumeQueueStore :=
  mkCqs ∅ new_operator shared.

Definition slot_at (topic : string) (id : Z) (s : ConsumeQueueStore) : option queue_slot :=
  consume_queue_table s !! topic ≫= (.!! id).
(** [put_consume_queue] *)
Definition put_consume_queue (topic : string) (id : Z) (q : queue_slot) (s : ConsumeQueueStore)
  : ConsumeQueueStore :=
  set_table (<[topic := <[id := q]> (default ∅ (consume_queue_table s !! topic))]>
               (consume_queue_table s)) s.

(** [get_topic] and [get_queue_id] of a queue. *)
Definition slot_name (q : queue_slot) : outcome (string * Z) :=
  match q with Simple c => Done (cq_topic c, cq_queue_id c) | Batch _ => Panic end.
(** An operation that only the simple queue has. *)
Definition on_simple {A} (q : queue_slot) (f : ConsumeQueue → outcome A) : outcome A :=
  match q with Simple c => f c | Batch _ => Panic end.

Section Store.
Variable cfg : CqsConfig.

(** ** Finding and creating queues *)

(** [ConsumeQueue::new] *)
Definition make_simple (topic : string) (id : Z) (store_path : string) : queue_slot :=
  Simple (new_consume_queue (queue_dir store_path topic id)
            ((λ sz, (queue_dir (get_store_path_consume_queue_ext (store_path_root_dir cfg)) topic id,
                     sz)) <$> ext_file_size cfg)
            topic id (mapped_file_size_consume_queue cfg)).

Definition make_queue (topic : string) (id : Z) : queue_slot :=
  match get_cq_type (topic_attributes cfg topic) with
  | SimpleCQ | RocksDBCQ =>
      make_simple topic id (get_store_path_consume_queue (store_path_root_dir cfg))
  | BatchCQ =>
      Batch (new_batch_consume_queue topic id
               (get_store_path_batch_consume_queue (store_path_root_dir cfg))
               (mapper_file_size_batch_consume_queue cfg))
  end.

Definition find_or_create_consume_queue (topic : string) (id : Z) (s : ConsumeQueueStore)
  : ConsumeQueueStore * queue_slot :=
  match slot_at topic id s with
  | Some q => (s, q)
  | None => let q := make_queue topic id in (put_consume_queue topic id q s, q)
  end.

Definition find_consume_queue_map (topic : string) (s : ConsumeQueueStore)
  : option (gmap Z queue_slot) := consume_queue_table s !! topic.

(** Every queue of a copy of the table is named, looked up again and changed by
    [f]. *)
Fixpoint each_queue (f : ConsumeQueue → outcome (loop_end ConsumeQueue)) (qs : list queue_slot)
    (s : ConsumeQueueStore) : outcome (loop_end ConsumeQueueStore) :=
  match qs with
  | [] => Done (Ended s)
  | q :: qs' =>
      let* (topic, id) := slot_name q in
      let '(s, q) := find_or_create_consume_queue topic id s in
      let* e := on_simple q f in
      match e with
      | Ended c => each_queue f qs' (put_consume_queue topic id (Simple c) s)
      | Deadlock => Done Deadlock
      | OutOfFuel => Done OutOfFuel
      end
  end.
(** The queues of the table, topic by topic. *)
Definition all_queues (s : ConsumeQueueStore) : list queue_slot :=
  '(_, m) ← map_to_list (consume_queue_table s); snd <$> map_to_list m.

(** ** Dispatching and queue offsets *)

Definition cqs_put_message_position_info_wrapper (existing : nat → buffer) (r : DispatchRequest)
    (s : ConsumeQueueStore) : outcome ConsumeQueueStore :=
  let '(s, q) := find_or_create_consume_queue (dr_topic r) (dr_queue_id r) s in
  let* (shared, c) :=
    on_simple q (put_message_position_info_wrapper existing r (cqs_shared s)) in
  Done (set_shared shared (put_consume_queue (dr_topic r) (dr_queue_id r) (Simple c) s)).

(** [CommitLogDispatcherBuildConsumeQueue::dispatch]: plain and committed
    messages have a place in a queue. *)
Definition in_queue (r : DispatchRequest) : bool :=
  let t := MessageSysFlag.get_transaction_value (dr_sys_flag r) in
  (t =? 0) || (t =? MessageSysFlag.TRANSACTION_COMMIT_TYPE).
Definition build_consume_queue (existing : nat → buffer) (r : DispatchRequest)
    (s : ConsumeQueueStore) : outcome ConsumeQueueStore :=
  if in_queue r then cqs_put_message_position_info_wrapper existing r s else Done s.

Definition cqs_assign_queue_offset (topic : string) (id : Z) (s : ConsumeQueueStore)
  : outcome (ConsumeQueueStore * Z) :=
  let '(s, q) := find_or_create_consume_queue topic id s in
  on_simple q (λ _,
    let '(o, v) := assign_queue_offset topic id (queue_offset_operator s) in
    Done (set_operator o s, v)).
Definition cqs_increase_queue_offset (topic : string) (id n : Z) (s : ConsumeQueueStore)
  : outcome ConsumeQueueStore :=
  let '(s, q) := find_or_create_consume_queue topic id s in
  on_simple q (λ _, Done (set_operator (increase_offset_of topic id n (queue_offset_operator s)) s)).

Definition cqs_get_max_offset (topic : string) (id : Z) (s : ConsumeQueueStore) : option Z :=
  Some (current_queue_offset (topic_queue_key topic id) (queue_offset_operator s)).
Definition cqs_get_min_offset_in_queue (topic : string) (id : Z) (s : ConsumeQueueStore)
  : outcome (ConsumeQueueStore * Z) :=
  let '(s, q) := find_or_create_consume_queue topic id s in
  on_simple q (λ c, Done (s, get_min_offset_in_queue c)).
Definition remove_topic_queue_table (topic : string) (id : Z) (s : ConsumeQueueStore)
  : ConsumeQueueStore := set_operator (remove_queue topic id (queue_offset_operator s)) s.

(** ** Recovery, truncation, destruction *)

Definition cqs_recover (disk : nat → bool * Z) (s : ConsumeQueueStore)
  : outcome (loop_end ConsumeQueueStore) :=
  each_queue (λ c, let* c := recover disk c in Done (Ended c)) (all_queues s) s.
Definition truncate_dirty (fuel : nat) (disk : nat → bool * Z) (offset : Z)
    (s : ConsumeQueueStore) : outcome (loop_end ConsumeQueueStore) :=
  each_queue (truncate_dirty_logic_files fuel disk offset) (all_queues s) s.
Definition cqs_destroy (disk ext_disk : nat → bool * Z) (s : ConsumeQueueStore)
  : outcome (loop_end ConsumeQueueStore) :=
  each_queue (λ c, Done (Ended (cq_destroy disk ext_disk c))) (all_queues s) s.
Definition destroy_one_queue (disk ext_disk : nat → bool * Z) (topic : string) (id : Z)
    (s : ConsumeQueueStore) : outcome ConsumeQueueStore :=
  let '(s, q) := find_or_create_consume_queue topic id s in
  let* c := on_simple q (λ c, Done (cq_destroy disk ext_disk c)) in
  Done (put_consume_queue topic id (Simple c) s).

(** [recover_concurrently]: every queue is recovered on its own, and a panic is
    caught: that of a batch queue, whose recovery is unimplemented. *)
Definition recover_slot (disk : nat → bool * Z) (q : queue_slot) : queue_slot * bool :=
  match q with
  | Simple c => match recover disk c with Done c => (Simple c, true) | Panic => (Simple c, false) end
  | Batch b => (Batch b, false)
  end.
Definition recover_concurrently (disk : nat → bool * Z) (s : ConsumeQueueStore)
  : ConsumeQueueStore * bool :=
  (set_table (fmap (M := gmap string) (fmap (M := gmap Z) (fst ∘ recover_slot disk))
                (consume_queue_table s)) s,
   forallb (snd ∘ recover_slot disk) (all_queues s)).

(** The loop of [recover_offset_table]: the next offset of every queue, and the
    correction of its smallest offset. *)
Fixpoint offsets_of (fuel : nat) (min_phy : Z) (qs : list (string * Z * queue_slot))
    (table : gmap string Z) (s : ConsumeQueueStore)
  : outcome (loop_end (gmap string Z * ConsumeQueueStore)) :=
  match qs with
  | [] => Done (Ended (table, s))
  | (topic, id, q) :: qs' =>
      let* (t, i) := slot_name q in
      let* c := on_simple q Done in
      let table := <[topic_queue_key t i := get_max_offset_in_queue c]> table in
      let* e := correct_min_offset fuel min_phy c in
      match e with
      | Ended c => offsets_of fuel min_phy qs' table (put_consume_queue topic id (Simple c) s)
      | Deadlock => Done Deadlock
      | OutOfFuel => Done OutOfFuel
      end
  end.
Definition all_entries (s : ConsumeQueueStore) : list (string * Z * queue_slot) :=
  '(t, m) ← map_to_list (consume_queue_table s); (λ '(i, q), (t, i, q)) <$> map_to_list m.
Definition cqs_set_topic_queue_table (t : gmap string Z) (s : ConsumeQueueStore)
  : ConsumeQueueStore :=
  set_operator (set_lmq_topic_queue_table t (set_topic_queue_table t (queue_offset_operator s))) s.
(** No queue of the second table is left to correct: a batch queue panics. *)
Definition recover_offset_table (fuel : nat) (min_phy : Z) (s : ConsumeQueueStore)
  : outcome (loop_end ConsumeQueueStore) :=
  let* e := offsets_of fuel min_phy (all_entries s) ∅ s in
  match e with
  | Ended (table, s) =>
      if unsupported_mode cfg then Panic
      else
        let s := cqs_set_topic_queue_table table s in
        Done (Ended (set_operator (set_batch_topic_queue_table ∅ (queue_offset_operator s)) s))
  | Deadlock => Done Deadlock
  | OutOfFuel => Done OutOfFuel
  end.

(** ** The end of the indexed part of the log *)

Fixpoint max_phy (qs : list queue_slot) (acc : Z) : outcome Z :=
  match qs with
  | [] => Done acc
  | q :: qs' =>
      let* o := on_simple q (λ c, Done (max_physic_offset c)) in
      max_phy qs' (if acc <? o then o else acc)
  end.
Definition get_max_phy_offset_in_consume_queue_global (s : ConsumeQueueStore) : outcome Z :=
  max_phy (all_queues s) (-1).
(** The arguments are shadowed: the answer is that of the whole store. *)
Definition get_max_phy_offset_in_consume_queue (topic : string) (id : Z) (s : ConsumeQueueStore)
  : outcome (option Z) := let* o := max_phy (all_queues s) (-1) in Done (Some o).

(** ** The self check *)

(** [check_self] of the store: it holds the table while every queue is looked
    up in it again. *)
Definition cqs_check_self (s : ConsumeQueueStore) : outcome (locked unit) :=
  match all_queues s with
  | [] => Done (Returned ())
  | q :: _ => let* _ := slot_name q in Done Blocked
  end.

(** ** Loading *)

(** A directory: its subdirectories with their names; [None] for a name that is
    not text. *)
Record queue_dir_entry := mkQueueDir {
  qd_name : option string;
  qd_is_dir : bool;
  qd_files : option (list (option dir_entry));
  qd_ext : option (list (option dir_entry));
}.
Record topic_dir_entry := mkTopicDir {
  td_name : option string;
  td_is_dir : bool;
  td_queues : option (list queue_dir_entry);
}.

Definition queue_type_should_be (topic : string) (t : CQType) : outcome unit :=
  if decide (get_cq_type (topic_attributes cfg topic) = t) then Done () else Panic.
Definition create_consume_queue_by_type (topic : string) (id : Z) (t : CQType)
    (store_path : string) : outcome queue_slot :=
  match t with
  | SimpleCQ => Done (make_simple topic id store_path)
  | BatchCQ =>
      Done (Batch (new_batch_consume_queue topic id store_path
                     (mapper_file_size_batch_consume_queue cfg)))
  | RocksDBCQ => Panic
  end.
Definition load_slot (files ext : option (list (option dir_entry))) (q : queue_slot)
  : outcome (queue_slot * bool) :=
  match q with
  | Simple c => let* (c, ok) := cq_load files ext c in Done (Simple c, ok)
  | Batch b =>
      let* (q, _, ok) := load files (bcq_queue b) in
      Done (Batch (mkBatch q (bcq_topic b) (bcq_queue_id b)), ok)
  end.

Fixpoint load_queues (topic store_path : string) (t : CQType) (qs : list queue_dir_entry)
    (s : ConsumeQueueStore) : outcome (ConsumeQueueStore * bool) :=
  match qs with
  | [] => Done (s, true)
  | d :: qs' =>
      match (if qd_is_dir d then qd_name d ≫= parse_i32 else None) with
      | None => load_queues topic store_path t qs' s
      | Some id =>
          let* _ := queue_type_should_be topic t in
          let* q := create_consume_queue_by_type topic id t store_path in
          let s := put_consume_queue topic id q s in
          let '(s, q) := find_or_create_consume_queue topic id s in
          let* (q, ok) := load_slot (qd_files d) (qd_ext d) q in
          let s := put_consume_queue topic id q s in
          if ok then load_queues topic store_path t qs' s else Done (s, false)
      end
  end.
Fixpoint load_topics (store_path : string) (t : CQType) (ts : list topic_dir_entry)
    (s : ConsumeQueueStore) : outcome (ConsumeQueueStore * bool) :=
  match ts with
  | [] => Done (s, true)
  | d :: ts' =>
      match (if td_is_dir d then td_name d else None) with
      | None => load_topics store_path t ts' s
      | Some topic =>
          match td_queues d with
          | None => Done (s, false)
          | Some qs =>
              let* (s, ok) := load_queues topic store_path t qs s in
              if ok then load_topics store_path t ts' s else Done (s, false)
          end
      end
  end.
(** [dir]: [None] when there is no such directory; the inner [None] when it
    cannot be read. *)
Definition load_consume_queues (dir : option (option (list topic_dir_entry)))
    (store_path : string) (t : CQType) (s : ConsumeQueueStore)
  : outcome (ConsumeQueueStore * bool) :=
  match dir with
  | None => Done (s, true)
  | Some None => Done (s, false)
  | Some (Some ts) => load_topics store_path t ts s
  end.
Definition cqs_load (dir batch_dir : option (option (list topic_dir_entry)))
    (s : ConsumeQueueStore) : outcome (ConsumeQueueStore * bool) :=
  let* (s, a) := load_consume_queues dir
    (get_store_path_consume_queue (store_path_root_dir cfg)) SimpleCQ s in
  let* (s, b) := load_consume_queues batch_dir
    (get_store_path_batch_consume_queue (store_path_root_dir cfg)) BatchCQ s in
  Done (s, a && b).
End Store.

(** ** What a queue holds *)

(** [c] holds the units [us], the first at queue offset [n]; a queue whose first
    message is not at a segment boundary starts with blanks. *)
Definition holds_from (k : nat) (c : ConsumeQueue) (n : nat) (us : list unit_data) : Prop :=
  ∃ uss, cq_rep k c uss ∧
    ((us = [] ∧ uss = [] ∧ min_logic_offset c = 0) ∨
     (us ≠ [] ∧ min_logic_offset c ≤ 20 * Z.of_nat n ∧
      ∃ b, mjoin uss = replicate b blank_unit ++ us ∧ first_index c + Z.of_nat b = Z.of_nat n)).

Lemma put_position_name (b : buffer) (o sz tg i : Z) (c c' : ConsumeQueue) (ok : bool) :
  put_message_position_info b o sz tg i c = Done (c', ok) →
  cq_topic c' = cq_topic c ∧ cq_queue_id c' = cq_queue_id c.
Proof.
  unfold put_message_position_info. intros H.
  case_match; [by apply done_inj in H as [= <- _] |].
  apply obind_done in H as ([q found] & _ & H). cbv zeta in H.
  destruct found as [j |]; [| by apply done_inj in H as [= <- _]].
  apply obind_done in H as (m & _ & H). apply obind_done in H as (c1 & H1 & H).
  assert (Hn : cq_topic c1 = cq_topic c ∧ cq_queue_id c1 = cq_queue_id c).
  { case_match; [| by apply done_inj in H1 as <-].
    apply obind_done in H1 as (m1 & _ & H1). by apply done_inj in H1 as <-. }
  destruct Hn as [<- <-]. unfold append_unit in H. apply obind_done in H as (m1 & _ & H).
  case_match; [by apply done_inj in H as [= <- _] |].
  destruct (append_message_bytes _ _) in H. by apply done_inj in H as [= <- _].
Qed.

Section Holds.
Variable k : nat.
Local Notation limit := (i64_MAX - 40 * Z.of_nat k).

(** The next request of a queue is entered at its end. *)
Lemma holds_put (s : cq_store) (c : ConsumeQueue) (n : nat) (us : list unit_data)
    (r : DispatchRequest) :
  writable s → holds_from k c n us →
  dr_consume_queue_offset r = Z.of_nat (n + length us) →
  20 * Z.of_nat (n + length us) ≤ limit →
  max_physic_offset c < msg_end r → in_s 64 (msg_end r) →
  ∃ s' c', put_message_position_info_wrapper (λ _, []) r s c = Done (s', c') ∧ writable s' ∧
    holds_from k c' n (us ++ [unit_of r]) ∧ max_physic_offset c' = msg_end r ∧
    cq_topic c' = cq_topic c ∧ cq_queue_id c' = cq_queue_id c.
Proof.
  intros Hs (uss & Hrep & Hcase) Ho Hlim Hmax Hend.
  assert (Hput : ∃ c', put_message_position_info [] (dr_commit_log_offset r) (dr_msg_size r)
      (dr_tags_code r) (dr_consume_queue_offset r) c = Done (c', true) ∧
    holds_from k c' n (us ++ [unit_of r]) ∧ max_physic_offset c' = msg_end r).
  { rewrite Ho. destruct Hcase as [(-> & -> & Hmin) | (Hne & Hmin & b & Hj & Hf)].
    - cbn [length app] in *. rewrite Nat.add_0_r in *.
      destruct (put_first k n c (unit_of r) [] Hrep Hend Hmax)
        as (c1 & Hput & Hrep1 & Hm1 & Hmin1 & Hf1); [lia |].
      exists c1. split_and!; [exact Hput | | done]. eexists. split; [exact Hrep1 |]. right.
      pose proof (r_k _ _ _ Hrep). pose proof (Nat.Div0.mod_le n k).
      split_and!; [done | rewrite Hmin1; case_decide; lia |].
      exists (n mod k)%nat. split; [cbn; by rewrite app_nil_r | lia].
    - assert (Hne' : uss ≠ []). { intros ->. by destruct b, us. }
      assert (Hnext : next_index c uss = Z.of_nat (n + length us)).
      { unfold next_index. rewrite Hj, length_app, length_replicate. lia. }
      destruct (put_next k c uss (unit_of r) [] Hrep Hne' Hend Hmax)
        as (c1 & uss1 & Hput & Hrep1 & Hj1 & Hm1 & Hmin1 & Hf1); [lia |].
      rewrite Hnext in Hput. exists c1. split_and!; [exact Hput | | done].
      exists uss1. split; [done |]. right. split_and!; [by destruct us | congruence |].
      exists b. rewrite Hj1, Hj, <- app_assoc. split; [done | congruence]. }
  destruct Hput as (c' & Hput & Hh & Hm).
  destruct (wrapper_ok r s c c' Hs Hput) as (s' & Hw & Hs'). exists s', c'.
  destruct (put_position_name _ _ _ _ _ _ _ _ Hput). by split_and!.
Qed.

(** Every unit is found at its queue offset. *)
Lemma holds_lookup (c : ConsumeQueue) (n i : nat) (us : list unit_data) (u : unit_data) :
  holds_from k c n us → us !! i = Some u → unit_ok u →
  ∃ c' f b rest, get_index_buffer (Z.of_nat (n + i)) c = Done (c', Some (f, b)) ∧
    bytes b = Some (unit_bytes u ++ rest) ∧ read_unit (unit_bytes u ++ rest) = Done u.
Proof.
  intros (uss & Hrep & [(-> & _) | (Hne & Hmin & b & Hj & Hf)]) Hi Hok; [done |].
  assert (Hl : mjoin uss !! (b + i)%nat = Some u).
  { rewrite Hj, lookup_app_r by (rewrite length_replicate; lia).
    by rewrite length_replicate, Nat.add_comm, Nat.add_sub. }
  destruct (get_index_buffer_unit k c uss _ _ Hrep Hl) as (c' & r & rest & Hg & Hb & _); [lia |].
  replace (first_index c + Z.of_nat (b + i)) with (Z.of_nat (n + i)) in Hg by lia.
  exists c', ((b + i) / k)%nat, r, rest. split_and!; [done | done | by apply read_unit_bytes].
Qed.
End Holds.

(** ** The store as a table of unit lists *)

Lemma slot_at_put (t t' : string) (i i' : Z) (q : queue_slot) (s : ConsumeQueueStore) :
  slot_at t' i' (put_consume_queue t i q s) =
  if decide (t' = t ∧ i' = i) then Some q else slot_at t' i' s.
Proof.
  unfold slot_at, put_consume_queue. cbn. destruct (decide (t' = t)) as [-> | Ht].
  - rewrite lookup_insert_eq. cbn. destruct (decide (i' = i)) as [-> | Hi].
    + rewrite decide_True by done. by rewrite lookup_insert_eq.
    + rewrite decide_False by naive_solver. rewrite lookup_insert_ne by done.
      by destruct (consume_queue_table s !! t).
  - rewrite decide_False by naive_solver. by rewrite lookup_insert_ne.
Qed.

(** The requests of a queue. *)
Definition queue_part (t : string) (i : Z) (rs : list DispatchRequest) : list DispatchRequest :=
  filter (λ r, in_queue r = true ∧ dr_topic r = t ∧ dr_queue_id r = i) rs.

(** Requests in the order of the log, from offset [p] on. *)
Fixpoint in_log (p : Z) (rs : list DispatchRequest) : Prop :=
  match rs with
  | [] => True
  | r :: rs' => p < msg_end r ∧ in_s 64 (msg_end r) ∧ in_log (msg_end r) rs'
  end.
Fixpoint log_end (p : Z) (rs : list DispatchRequest) : Z :=
  match rs with [] => p | r :: rs' => log_end (msg_end r) rs' end.

(** Requests for consecutive queue offsets from [n] on. *)
Fixpoint numbered (limit : Z) (n : nat) (rs : list DispatchRequest) : Prop :=
  match rs with
  | [] => True
  | r :: rs' =>
      dr_consume_queue_offset r = Z.of_nat n ∧ 20 * Z.of_nat n ≤ limit ∧ unit_ok (unit_of r) ∧
      numbered limit (S n) rs'
  end.

Definition slot_holds (k : nat) (start : string → Z → nat) (us : string → Z → list unit_data)
    (p : Z) (t : string) (i : Z) (q : option queue_slot) : Prop :=
  match q with
  | Some (Simple c) =>
      cq_topic c = t ∧ cq_queue_id c = i ∧ holds_from k c (start t i) (us t i) ∧
      max_physic_offset c ≤ p
  | Some (Batch _) => False
  | None => us t i = []
  end.

(** The store after the log was dispatched up to [p]: every queue holds its
    units, from its first queue offset on. *)
Definition store_holds (k : nat) (start : string → Z → nat) (us : string → Z → list unit_data)
    (p : Z) (s : ConsumeQueueStore) : Prop :=
  writable (cqs_shared s) ∧ ∀ t i, slot_holds k start us p t i (slot_at t i s).

(** A configuration for simple queues of [k] units per segment. *)
Record simple_config (k : nat) (cfg : CqsConfig) : Prop := {
  sc_k : (2 ≤ k)%nat;
  sc_max : 20 * Z.of_nat k ≤ i32_MAX;
  sc_size : mapped_file_size_consume_queue cfg = 20 * Z.of_nat k;
  sc_type : ∀ t, get_cq_type (topic_attributes cfg t) ≠ BatchCQ;
}.

Section Dispatch.
Variables (k : nat) (cfg : CqsConfig) (start : string → Z → nat).
Hypothesis Hcfg : simple_config k cfg.
Local Notation limit := (i64_MAX - 40 * Z.of_nat k).

Lemma new_queue_rep (path : string) (ext : option (string * Z)) (t : string) (i : Z) :
  cq_rep k (new_consume_queue path ext t i (20 * Z.of_nat k)) [].
Proof.
  destruct Hcfg as [Hk Hmax _ _]. unfold i32_MAX in *. unfold new_consume_queue.
  assert (Hu : as_u64 (20 * Z.of_nat k) = 20 * Z.of_nat k).
  { unfold as_u64, wrap_u. apply Z.mod_small. lia. }
  rewrite Hu. constructor; cbn; try done; try apply Forall_nil_2.
  constructor; cbn; try done; [unfold i32_MAX; lia | by exists 0].
Qed.

Lemma make_queue_holds (us : string → Z → list unit_data) (p : Z) (t : string) (i : Z) :
  us t i = [] → -1 ≤ p →
  ∃ c, make_queue cfg t i = Simple c ∧ slot_holds k start us p t i (Some (Simple c)).
Proof.
  intros Hu Hp. unfold make_queue.
  destruct (get_cq_type _) eqn:E; [| by destruct (sc_type _ _ Hcfg t) |];
    (eexists; split; [reflexivity |]; cbn; split_and!; [done | done | | done];
     rewrite Hu, (sc_size _ _ Hcfg); eexists; split; [apply new_queue_rep | by left]).
Qed.

(** Looking a queue up, and creating it, leaves the contents alone. *)
Lemma find_or_create_holds (us : string → Z → list unit_data) (p : Z) (t : string) (i : Z)
    (s : ConsumeQueueStore) :
  -1 ≤ p → store_holds k start us p s →
  ∃ s' c, find_or_create_consume_queue cfg t i s = (s', Simple c) ∧ store_holds k start us p s' ∧
    slot_at t i s' = Some (Simple c) ∧ queue_offset_operator s' = queue_offset_operator s.
Proof.
  intros Hp [Hw Hs]. unfold find_or_create_consume_queue. pose proof (Hs t i) as Hti.
  destruct (slot_at t i s) as [[c | b] |] eqn:E; cbn in Hti; [by exists s, c | done |].
  destruct (make_queue_holds us p t i Hti Hp) as (c & -> & Hc).
  exists (put_consume_queue t i (Simple c) s), c. split_and!; [done | | | done].
  - split; [done |]. intros t' i'. rewrite slot_at_put. case_decide as Hd; [| apply Hs].
    by destruct Hd as [-> ->].
  - rewrite slot_at_put. by rewrite decide_True.
Qed.

(** The units of the queues after one more request. *)
Definition with_request (r : DispatchRequest) (us : string → Z → list unit_data)
    (t : string) (i : Z) : list unit_data :=
  us t i ++ (unit_of <$> queue_part t i [r]).

Lemma dispatch_one (us : string → Z → list unit_data) (p : Z) (r : DispatchRequest)
    (s : ConsumeQueueStore) :
  -1 ≤ p → store_holds k start us p s → p < msg_end r → in_s 64 (msg_end r) →
  (in_queue r = true →
     let n := (start (dr_topic r) (dr_queue_id r) + length (us (dr_topic r) (dr_queue_id r)))%nat in
     dr_consume_queue_offset r = Z.of_nat n ∧ 20 * Z.of_nat n ≤ limit) →
  ∃ s', build_consume_queue cfg (λ _, []) r s = Done s' ∧
    store_holds k start (with_request r us) (msg_end r) s' ∧
    queue_offset_operator s' = queue_offset_operator s.
Proof.
  intros Hp Hs Hlt Hend Hn. unfold build_consume_queue.
  destruct (in_queue r) eqn:Hin.
  - specialize (Hn eq_refl) as [Hn Hlim]. unfold cqs_put_message_position_info_wrapper.
    destruct (find_or_create_holds us p (dr_topic r) (dr_queue_id r) s Hp Hs)
      as (s1 & c & -> & [Hw Hs1] & Hc & Hop). cbn [on_simple].
    pose proof (Hs1 (dr_topic r) (dr_queue_id r)) as Hti. rewrite Hc in Hti.
    destruct Hti as (Ht & Hi & Hh & Hm).
    destruct (holds_put k (cqs_shared s1) c _ _ r Hw Hh Hn Hlim) as
      (sh & c' & -> & Hw' & Hh' & Hm' & Ht' & Hi'); [lia | done |].
    cbn [obind]. eexists. split; [done |]. split; [| done]. split; [done |]. intros t i.
    change (slot_at t i (set_shared sh ?x)) with (slot_at t i x). rewrite slot_at_put.
    unfold with_request, queue_part. case_decide as Hd.
    + destruct Hd as [-> ->]. cbn. split_and!; [congruence | congruence | | lia].
      rewrite decide_True by done. done.
    + assert (Hq : filter (λ r, in_queue r = true ∧ dr_topic r = t ∧ dr_queue_id r = i) [r] = []).
      { rewrite filter_cons_False; [done |]. naive_solver. }
      specialize (Hs1 t i). unfold slot_holds in *. rewrite Hq. cbn. rewrite app_nil_r.
      destruct (slot_at t i s1) as [[c0 | b0] |]; [| done | done].
      destruct Hs1 as (? & ? & ? & ?). split_and!; try done. lia.
  - eexists. split; [done |]. split; [| done]. destruct Hs as [Hw Hs]. split; [done |].
    intros t i. specialize (Hs t i). unfold with_request, queue_part, slot_holds in *.
    rewrite filter_cons_False by (rewrite Hin; naive_solver). cbn. rewrite app_nil_r.
    destruct (slot_at t i s) as [[c0 | b0] |]; [| done | done].
    destruct Hs as (? & ? & ? & ?). split_and!; try done. lia.
Qed.

(** Requests dispatched one after the other. *)
Fixpoint build_queues (rs : list DispatchRequest) (s : ConsumeQueueStore)
  : outcome ConsumeQueueStore :=
  match rs with
  | [] => Done s
  | r :: rs' => let* s := build_consume_queue cfg (λ _, []) r s in build_queues rs' s
  end.

Lemma queue_part_cons (t : string) (i : Z) (r : DispatchRequest) (rs : list DispatchRequest) :
  queue_part t i (r :: rs) = queue_part t i [r] ++ queue_part t i rs.
Proof. unfold queue_part. change (r :: rs) with ([r] ++ rs). apply filter_app. Qed.

(** The first request of a queue has the next number of that queue. *)
Lemma numbered_head (us : string → Z → list unit_data) (r : DispatchRequest)
    (rs : list DispatchRequest) :
  (∀ t i, numbered limit (start t i + length (us t i)) (queue_part t i (r :: rs))) →
  (in_queue r = true →
     let n := (start (dr_topic r) (dr_queue_id r) + length (us (dr_topic r) (dr_queue_id r)))%nat in
     dr_consume_queue_offset r = Z.of_nat n ∧ 20 * Z.of_nat n ≤ limit) ∧
  (∀ t i, numbered limit (start t i + length (with_request r us t i)) (queue_part t i rs)).
Proof.
  intros H. split.
  - intros Hin n. specialize (H (dr_topic r) (dr_queue_id r)). unfold queue_part in H.
    rewrite filter_cons_True in H by done. by destruct H as (? & ? & _).
  - intros t i. specialize (H t i). unfold with_request. unfold queue_part in *.
    rewrite filter_cons in H. rewrite filter_cons. case_decide.
    + destruct H as (_ & _ & _ & H). cbn. rewrite length_app. cbn.
      by replace (start t i + (length (us t i) + 1))%nat with (S (start t i + length (us t i))) by lia.
    + cbn. by rewrite app_nil_r.
Qed.

Lemma build_queues_holds (us : string → Z → list unit_data) (p : Z) (rs : list DispatchRequest)
    (s : ConsumeQueueStore) :
  -1 ≤ p → store_holds k start us p s → in_log p rs →
  (∀ t i, numbered limit (start t i + length (us t i)) (queue_part t i rs)) →
  ∃ s', build_queues rs s = Done s' ∧
    store_holds k start (λ t i, us t i ++ (unit_of <$> queue_part t i rs)) (log_end p rs) s' ∧
    queue_offset_operator s' = queue_offset_operator s.
Proof.
  revert us p s. induction rs as [| r rs IH]; intros us p s Hp Hs Hlog Hnum; cbn [build_queues].
  - exists s. split_and!; try done. destruct Hs as [Hw Hs]. split; [done |]. intros t i.
    specialize (Hs t i). unfold slot_holds in *. cbn. by rewrite app_nil_r.
  - destruct Hlog as (Hlt & Hend & Hlog). apply numbered_head in Hnum as [Hn Hnum].
    destruct (dispatch_one us p r s Hp Hs Hlt Hend Hn) as (s1 & -> & Hs1 & Ho). cbn [obind].
    destruct (IH (with_request r us) (msg_end r) s1) as (s' & -> & Hs' & Ho'); [lia | done | done | done |].
    exists s'. split; [done |]. split; [| congruence]. destruct Hs' as [Hw' Hs'].
    split; [done |]. intros t i. specialize (Hs' t i). unfold slot_holds, with_request in *.
    cbn beta. by rewrite queue_part_cons, fmap_app, (assoc_L (++)).
Qed.

Lemma numbered_ok (n j : nat) (r : DispatchRequest) (rs : list DispatchRequest) :
  numbered limit n rs → rs !! j = Some r → unit_ok (unit_of r).
Proof.
  revert n j. induction rs as [| x rs IH]; intros n j Hn Hj; [done |].
  destruct Hn as (_ & _ & Hx & Hn). destruct j as [| j]; [by injection Hj as <- |].
  by apply (IH _ j Hn).
Qed.
End Dispatch.

(** C3: The table of queues implements a table of lists: dispatching requests in log
    order whose queue offsets, queue by queue, go on from the end of the queue
    without gaps or repetitions, to any number of queues and interleaved as they
    come, appends to each queue exactly its own units, and each of them is found
    at its queue offset.  Queues are created as they are needed; messages of transactions
    that are not committed stay out. *)
Theorem store_dispatch_refines (k : nat) (cfg : CqsConfig) (start : string → Z → nat)
    (us : string → Z → list unit_data) (p : Z) (rs : list DispatchRequest)
    (s : ConsumeQueueStore) :
  simple_config k cfg → -1 ≤ p → store_holds k start us p s → in_log p rs →
  (∀ t i, numbered (i64_MAX - 40 * Z.of_nat k) (start t i + length (us t i))
            (queue_part t i rs)) →
  ∃ s', build_queues cfg rs s = Done s' ∧
    store_holds k start (λ t i, us t i ++ (unit_of <$> queue_part t i rs)) (log_end p rs) s' ∧
    ∀ t i j r, queue_part t i rs !! j = Some r →
      ∃ c c' f b rest, slot_at t i s' = Some (Simple c) ∧
        get_index_buffer (Z.of_nat (start t i + length (us t i) + j)) c = Done (c', Some (f, b)) ∧
        bytes b = Some (unit_bytes (unit_of r) ++ rest) ∧
        read_unit (unit_bytes (unit_of r) ++ rest) = Done (unit_of r).
Proof.
  intros Hcfg Hp Hs Hlog Hnum.
  destruct (build_queues_holds k cfg start Hcfg us p rs s Hp Hs Hlog Hnum) as (s' & Hrun & Hs' & _).
  exists s'. split_and!; [done | done |]. intros t i j r Hj.
  pose proof (numbered_ok k _ _ _ _ (Hnum t i) Hj) as Hok.
  assert (Hl : (us t i ++ (unit_of <$> queue_part t i rs)) !! (length (us t i) + j)%nat =
               Some (unit_of r)).
  { rewrite lookup_app_r, Nat.add_comm, Nat.add_sub by lia. by rewrite list_lookup_fmap, Hj. }
  destruct Hs' as [_ Hs']. specialize (Hs' t i).
  destruct (slot_at t i s') as [[c | b] |] eqn:E; cbn in Hs'; [| done |].
  - destruct Hs' as (_ & _ & Hh & _).
    destruct (holds_lookup k c _ _ _ _ Hh Hl Hok) as (c' & f & b & rest & Hg & Hb & Hr).
    exists c, c', f, b, rest. rewrite <- Nat.add_assoc. by split_and!.
  - by rewrite Hs' in Hl.
Qed.

Definition sample_config : CqsConfig := mkCqsConfig "/store" 60 460 None false (λ _, None).
Lemma sample_config_simple : simple_config 3 sample_config.
Proof. by constructor; cbn; [lia | | |]. Qed.
Definition to_queue (t : string) (i o off : Z) : DispatchRequest :=
  mkRequest t i off 100 7 5 o "" true None 0 0 None (-1) (-1) 1.
Definition mixed_requests : list DispatchRequest :=
  [to_queue "a" 0 0 0; to_queue "b" 1 0 100; to_queue "a" 0 1 200; to_queue "a" 1 0 300].

Lemma new_store_holds (k : nat) : store_holds k (λ _ _, O) (λ _ _, []) (-1)
  (new_consume_queue_store sample_store).
Proof. split; [apply sample_writable |]. intros t i. by unfold slot_at. Qed.

Lemma numbered_part (limit : Z) (rs : list DispatchRequest) (t : string) (i : Z) :
  Forall (λ r, numbered limit 0 (queue_part (dr_topic r) (dr_queue_id r) rs)) rs →
  numbered limit 0 (queue_part t i rs).
Proof.
  intros H. destruct (queue_part t i rs) as [| r l] eqn:E; [done |]. rewrite <- E.
  assert (Hr : r ∈ queue_part t i rs) by (rewrite E; left).
  apply list_elem_of_filter in Hr as [(_ & <- & <-) Hr]. rewrite Forall_forall in H. by apply H.
Qed.

Lemma store_dispatch_refines_witness :
  ∃ s', build_queues sample_config mixed_requests (new_consume_queue_store sample_store) = Done s' ∧
    ∃ c c' f b rest, slot_at "a" 0 s' = Some (Simple c) ∧
      get_index_buffer 1 c = Done (c', Some (f, b)) ∧
      bytes b = Some (unit_bytes (mkUnit 200 100 7) ++ rest) ∧
      read_unit (unit_bytes (mkUnit 200 100 7) ++ rest) = Done (mkUnit 200 100 7).
Proof.
  destruct (store_dispatch_refines 3 sample_config (λ _ _, O) (λ _ _, []) (-1) mixed_requests
    (new_consume_queue_store sample_store)) as (s' & Hrun & _ & Hl).
  - apply sample_config_simple.
  - lia.
  - apply new_store_holds.
  - repeat split; by vm_compute.
  - intros t i. apply numbered_part. repeat constructor; by vm_compute.
  - exists s'. split; [exact Hrun |]. apply (Hl "a"%string 0 1%nat (to_queue "a" 0 1 200)).
    by vm_compute.
Defined.

(** The periodic self check of the store stops for good as soon as there is a
    queue: it looks the queue up under the lock of the table, which it already
    holds. *)
Theorem check_self_blocks (k : nat) (start : string → Z → nat) (us : string → Z → list unit_data)
    (p : Z) (s : ConsumeQueueStore) (t : string) (i : Z) (q : queue_slot) :
  store_holds k start us p s → slot_at t i s = Some q → cqs_check_self s = Done Blocked.
Proof.
  intros [_ Hs] Hq. unfold cqs_check_self.
  assert (Hin : q ∈ all_queues s).
  { unfold slot_at in Hq. destruct (consume_queue_table s !! t) as [m |] eqn:Em; [| done].
    apply list_elem_of_bind. exists (t, m). split; [| by apply elem_of_map_to_list].
    apply list_elem_of_fmap. exists (i, q). split; [done | by apply elem_of_map_to_list]. }
  destruct (all_queues s) as [| q0 l] eqn:E; [by apply not_elem_of_nil in Hin |].
  assert (Hq0 : q0 ∈ all_queues s) by (rewrite E; left).
  apply list_elem_of_bind in Hq0 as ([t0 m0] & Hq0 & Hm0).
  apply list_elem_of_fmap in Hq0 as ([i0 q1] & -> & Hq1).
  apply elem_of_map_to_list in Hm0, Hq1. specialize (Hs t0 i0). unfold slot_at in Hs.
  rewrite Hm0 in Hs. cbn in Hs. rewrite Hq1 in Hs. by destruct q1.
Qed.

Lemma check_self_blocks_witness :
  cqs_check_self (put_consume_queue "a" 0 (make_queue sample_config "a" 0)
                    (new_consume_queue_store sample_store)) = Done Blocked.
Proof.
  destruct (find_or_create_holds 3 sample_config (λ _ _, O) sample_config_simple (λ _ _, []) (-1)
    "a" 0 (new_consume_queue_store sample_store)) as (s' & c & Hf & Hs & Hc & _);
    [lia | apply new_store_holds |].
  pose proof (check_self_blocks 3 (λ _ _, O) (λ _ _, []) (-1) s' "a" 0 _ Hs Hc) as H.
  unfold find_or_create_consume_queue in Hf. cbn in Hf. by injection Hf as <- _.
Defined.
