(* ===== verification/CommitLog.v ===== *)
(** * CommitLog: the log of all messages ([commit_log.rs],
    [defalut_flush_manager.rs])

    The commit log is a queue of segments.  A message is prepared, given its
    queue offset, encoded and appended to the last segment; recovery reads the
    segments record by record, dispatches what it finds and cuts the log after
    the last intact record.

    The rest of the store (consume queues, index, offset tables) is the client
    of the log: the class [LogClient] states the calls the log makes.  The
    asynchronous parts enter as their results: the clock readings, the contents
    of created files and whether a wait for the flush timed out. *)

From stdpp Require Import base gmap list strings.
From coqutil Require Import Byte.
From Stdlib Require Import ZArith Lia.
From S2P Require Import Prelude Bytes Utf8 Message Properties MessageId MessageDecoder MessageCodec MessageUtils.
From S2P Require Import FileName ReferenceResource MappedFile MessageExtEncoder AppendCallback MappedFileQueue.
From S2P Require Import DispatchRequest ConsumeQueue StoreCheckpoint QueueOffsets CheckMessage.
Open Scope Z_scope.
Open Scope rmq_scope.

Inductive BrokerRole := AsyncMaster | SyncMaster | Slave.
Inductive FlushDiskType := SyncFlush | AsyncFlush.

#[export] Instance BrokerRole_eq_dec : EqDecision BrokerRole.
Proof. solve_decision. Defined.

(** The fields of [MessageStoreConfig] and [BrokerConfig] the log reads. *)
Record StoreConfig := mkStoreConfig {
  encoder_config : EncoderConfig;
  mapped_file_size_commit_log : Z;
  duplication_enable : bool;
  broker_duplication_enable : bool;
  auto_message_version_on_topic_len : bool;
  broker_role : BrokerRole;
  enable_controller_mode : bool;
  enable_slave_acting_master : bool;
  in_sync_replicas : Z;
  check_crc_on_recover : bool;
  force_verify_prop_crc : bool;
  message_index_enable : bool;
  message_index_safe : bool;
  enable_rocksdb_store : bool;
  flush_disk_type : FlushDiskType;
}.

(** The channels of the group commit service: the offsets of the requests it
    has not worked on, and the answers that no put has received.  The answers
    of all puts go through one channel. *)
Record CommitChannels := mkChannels {
  waiting_requests : list Z;
  unread_replies : list PutMessageStatus;
}.

(** The channels are there once the service has been started. *)
Record CommitLog := mkCommitLog {
  cl_queue : MappedFileQueue;
  confirm_offset : Z;
  cl_checkpoint : StoreCheckpoint;
  begin_time_in_lock : Z;
  cl_channels : option CommitChannels;
}.
Definition set_cl_queue q l :=
  mkCommitLog q (confirm_offset l) (cl_checkpoint l) (begin_time_in_lock l) (cl_channels l).
Definition set_begin_time t l :=
  mkCommitLog (cl_queue l) (confirm_offset l) (cl_checkpoint l) t (cl_channels l).
Definition set_channels ch l :=
  mkCommitLog (cl_queue l) (confirm_offset l) (cl_checkpoint l) (begin_time_in_lock l) ch.

Definition new_commit_log (cfg : StoreConfig) (path : string) (cp : StoreCheckpoint) : CommitLog :=
  mkCommitLog (new_queue path (mapped_file_size_commit_log cfg) false) (-1) cp 0 None.

(** [start]: the flush manager starts its services. *)
Definition cl_start (cfg : StoreConfig) (l : CommitLog) : CommitLog :=
  match flush_disk_type cfg with
  | SyncFlush => set_channels (Some (mkChannels [] [])) l
  | AsyncFlush => l
  end.

Definition cl_load (dir : option (list (option dir_entry))) (l : CommitLog)
  : outcome (CommitLog * list string * bool) :=
  let* (q, removed, ok) := MappedFileQueue.load dir (cl_queue l) in
  Done (set_cl_queue q l, removed, ok).

Definition set_confirm_offset (phy_offset : Z) (l : CommitLog) : CommitLog :=
  mkCommitLog (cl_queue l) phy_offset
    (set_confirm_phy_offset (as_u64 phy_offset) (cl_checkpoint l)) (begin_time_in_lock l)
    (cl_channels l).

(** ** Offsets and reads *)

Definition cl_max_offset (l : CommitLog) : Z := get_max_offset (cl_queue l).

Definition roll_next_file (cfg : StoreConfig) (offset : Z) : outcome Z :=
  let sz := as_i64 (mapped_file_size_commit_log cfg) in
  if sz =? 0 then Panic else Done (as_i64 (as_i64 (offset + sz) - rrem offset sz)).

Definition cl_min_offset (cfg : StoreConfig) (l : CommitLog) : outcome Z :=
  match mapped_files (cl_queue l) with
  | [] => Done (-1)
  | m :: _ =>
      if is_available (reference_resource m) then Done (as_i64 (file_from_offset m))
      else roll_next_file cfg (as_i64 (file_from_offset m))
  end.

Definition get_confirm_offset (cfg : StoreConfig) (l : CommitLog) : outcome Z :=
  if enable_controller_mode cfg then Panic
  else if broker_duplication_enable cfg then Done (confirm_offset l)
  else Done (cl_max_offset l).

(** Replaces segment [i]. *)
Definition set_segment (i : nat) (m : DefaultMappedFile) (l : CommitLog) : CommitLog :=
  set_cl_queue (set_mapped_files (<[i := m]> (mapped_files (cl_queue l))) (cl_queue l)) l.

(** The result comes with the segment it is in, which it keeps held. *)
Definition get_message (cfg : StoreConfig) (offset sz : Z) (l : CommitLog)
  : outcome (CommitLog * option (nat * SelectMappedBufferResult)) :=
  let* found := find_mapped_file_by_offset offset (offset =? 0) (cl_queue l) in
  match found with
  | None => Done (l, None)
  | Some i =>
      let* m := unwrap (mapped_files (cl_queue l) !! i) in
      let fsz := as_i64 (mapped_file_size_commit_log cfg) in
      if fsz =? 0 then Panic
      else
        let* (m, r) := select_mapped_buffer (as_i32 (rrem offset fsz)) sz m in
        Done (set_segment i m l, (λ r, (i, r)) <$> r)
  end.

Definition get_data_with_option (cfg : StoreConfig) (offset : Z) (return_first : bool)
    (l : CommitLog) : outcome (CommitLog * option (nat * SelectMappedBufferResult)) :=
  let* found := find_mapped_file_by_offset offset return_first (cl_queue l) in
  match found with
  | None => Done (l, None)
  | Some i =>
      let* m := unwrap (mapped_files (cl_queue l) !! i) in
      let fsz := as_i64 (mapped_file_size_commit_log cfg) in
      if fsz =? 0 then Panic
      else
        let '(m, r) := select_mapped_buffer_with_position (as_i32 (rrem offset fsz)) m in
        Done (set_segment i m l, (λ r, (i, r)) <$> r)
  end.
Definition cl_get_data (cfg : StoreConfig) (offset : Z) (l : CommitLog)
  : outcome (CommitLog * option (nat * SelectMappedBufferResult)) :=
  get_data_with_option cfg offset (offset =? 0) l.

(** [get_buffer] indexes the mapped memory of the segment with the result's
    offset in the whole log. *)
Definition get_buffer (r : SelectMappedBufferResult) (m : DefaultMappedFile) : outcome buffer :=
  let to := as_usize (start_offset r + as_u64 (size r)) in
  if (start_offset r <=? to) && (to <=? Z.of_nat (length (mmapped_file m)))
  then Done (slice (mmapped_file m) (Z.to_nat (start_offset r)) (Z.to_nat to)) else Panic.

(** [(&buffer[pos..]).get_i32()] and [get_i64()] *)
Definition get_i32_from (pos : Z) (b : buffer) : outcome Z :=
  if pos <=? Z.of_nat (length b) then let* (v, _) := get_i32 (drop (Z.to_nat pos) b) in Done v
  else Panic.
Definition get_i64_from (pos : Z) (b : buffer) : outcome Z :=
  if pos <=? Z.of_nat (length b) then let* (v, _) := get_i64 (drop (Z.to_nat pos) b) in Done v
  else Panic.

Definition pickup_store_timestamp (cfg : StoreConfig) (offset sz : Z) (l : CommitLog)
  : outcome (CommitLog * Z) :=
  let* low := cl_min_offset cfg l in
  if (low <=? offset) && (as_i64 (offset + sz) <=? cl_max_offset l) then
    let* (l, r) := get_message cfg offset sz l in
    match r with
    | Some (i, r) =>
        let* m := unwrap (mapped_files (cl_queue l) !! i) in
        let* b := get_buffer r m in
        let* sysf := get_i32_from SYSFLAG_POSITION b in
        let* ts := get_i64_from
          (4 + 4 + 4 + 4 + 4 + 8 + 8 + 4 + 8 + host_length sysf MessageSysFlag.BORNHOST_V6_FLAG) b in
        Done (l, ts)
    | None => Done (l, -1)
    end
  else Done (l, -1).

Definition lock_time_mills (now : Z) (l : CommitLog) : Z :=
  if 0 <? begin_time_in_lock l then as_i64 (now - begin_time_in_lock l) else 0.

Definition get_simple_message_bytes (position : Z) (m : DefaultMappedFile)
  : outcome (option buffer * Z) :=
  match mf_get_bytes position 4 m with
  | None => Done (None, 0)
  | Some b =>
      let* (sz, _) := get_i32 b in
      if sz <=? 0 then Done (None, 0) else Done (mf_get_bytes position sz m, sz)
  end.

(** ** The client of the log *)

Class LogClient (W : Type) := {
  (** [CommitLogDispatcher::dispatch] *)
  lc_dispatch : DispatchRequest → W → outcome W;
  (** [truncate_dirty_logic_files] of the message store *)
  lc_truncate : Z → W → outcome (loop_end W);
  (** [destroy] of the consume queue store *)
  lc_destroy : W → outcome W;
  (** [assign_queue_offset]: the queue offset of the message *)
  lc_assign : MessageExtBrokerInner → W → outcome (W * Z);
  (** [increase_queue_offset] *)
  lc_increase : MessageExtBrokerInner → Z → W → outcome W;
}.

(** Requests dispatched one after the other. *)
Fixpoint dispatch_all {W} `{!LogClient W} (rs : list DispatchRequest) (w : W) : outcome W :=
  match rs with
  | [] => Done w
  | r :: rs' => let* w := lc_dispatch r w in dispatch_all rs' w
  end.

(** ** Recovery *)

Record scan_state := mkScan {
  process_offset : Z;
  mapped_file_offset : Z;
  current_pos : Z;
  last_valid : Z;
}.

Section Recovery.
Context {W : Type} `{!LogClient W}.
Variable crc32fast : buffer → Z.
Variable cfg : StoreConfig.
Variable delay : DelayLevels.

(** The loops of the two recoveries, which differ in what they do with an
    intact record: [on_record size request].  [rest] are the files after
    [m]. *)
Fixpoint recover_loop (on_record : Z → DispatchRequest → W → outcome W) (fuel : nat)
    (m : DefaultMappedFile) (rest : list DefaultMappedFile) (s : scan_state) (w : W)
  : outcome (loop_end (scan_state * W)) :=
  match fuel with
  | O => Done OutOfFuel
  | S fuel' =>
      let* (msg, sz) := get_simple_message_bytes (current_pos s) m in
      match msg with
      | None => Done (Ended (s, w))
      | Some b =>
          let* (r, _) :=
            check_message_and_return_size crc32fast (force_verify_prop_crc cfg) delay
              (check_crc_on_recover cfg) (duplication_enable cfg) true b in
          let pos := current_pos s + sz in
          if dr_success r && (0 <? dr_msg_size r) then
            let s := mkScan (process_offset s)
                       (as_u64 (mapped_file_offset s + as_u64 (dr_msg_size r))) pos
                       (as_u64 (process_offset s + mapped_file_offset s)) in
            let* w := on_record sz r w in
            recover_loop on_record fuel' m rest s w
          else if dr_success r && (dr_msg_size r =? 0) then
            match rest with
            | [] =>
                Done (Ended (mkScan (process_offset s) (mapped_file_offset s) pos (last_valid s), w))
            | m' :: rest' =>
                recover_loop on_record fuel' m' rest'
                  (mkScan (file_from_offset m') 0 0 (last_valid s)) w
            end
          else if negb (dr_success r) then
            Done (Ended (mkScan (process_offset s) (mapped_file_offset s) pos (last_valid s), w))
          else
            recover_loop on_record fuel' m rest
              (mkScan (process_offset s) (mapped_file_offset s) pos (last_valid s)) w
      end
  end.

(** Every round moves on in a file or to the next one. *)
Definition recover_fuel (ms : list DefaultMappedFile) : nat :=
  S (foldr (λ m n, S (Z.to_nat (file_size m)) + n)%nat O ms).

(** The end of both recoveries. *)
Definition finish_recovery (disk : nat → bool * Z) (max_phy_offset_of_consume_queue : Z)
    (s : scan_state) (l : CommitLog) (w : W) : outcome (loop_end (CommitLog * W)) :=
  let process_offset := as_u64 (process_offset s + mapped_file_offset s) in
  if enable_controller_mode cfg then Panic
  else
    let l := set_confirm_offset (as_i64 (last_valid s)) l in
    let* w :=
      if process_offset <=? as_u64 max_phy_offset_of_consume_queue
      then lc_truncate (as_i64 process_offset) w else Done (Ended w) in
    match w with
    | Ended w =>
        let q := set_flushed_where (as_i64 process_offset) (cl_queue l) in
        let q := set_committed_where (as_i64 process_offset) q in
        Done (Ended (set_cl_queue (truncate_dirty_files disk (as_i64 process_offset) q) l, w))
    | Deadlock => Done Deadlock
    | OutOfFuel => Done OutOfFuel
    end.

(** Without files the consume queues go as well. *)
Definition recover_empty (l : CommitLog) (w : W) : outcome (loop_end (CommitLog * W)) :=
  let q := set_committed_where 0 (set_flushed_where 0 (cl_queue l)) in
  let* w := lc_destroy w in Done (Ended (set_cl_queue q l, w)).

Definition recover_from (index : nat) (on_record : Z → DispatchRequest → W → outcome W)
    (initial_valid : DefaultMappedFile → Z) (disk : nat → bool * Z) (max_cq : Z)
    (l : CommitLog) (w : W) : outcome (loop_end (CommitLog * W)) :=
  match drop index (mapped_files (cl_queue l)) with
  | [] => Panic
  | m :: rest =>
      let* e := recover_loop on_record (recover_fuel (m :: rest)) m rest
                  (mkScan (file_from_offset m) 0 0 (initial_valid m)) w in
      match e with
      | Ended (s, w) => finish_recovery disk max_cq s l w
      | Deadlock => Done Deadlock
      | OutOfFuel => Done OutOfFuel
      end
  end.

(** The last three files. *)
Definition normal_start (l : CommitLog) : nat := (length (mapped_files (cl_queue l)) - 3)%nat.

Definition recover_normally (disk : nat → bool * Z) (max_cq : Z) (l : CommitLog) (w : W)
  : outcome (loop_end (CommitLog * W)) :=
  match mapped_files (cl_queue l) with
  | [] => recover_empty l w
  | _ =>
      let* confirm := get_confirm_offset cfg l in
      recover_from (normal_start l) (λ _ _ w, Done w) (λ _, as_u64 confirm) disk max_cq l w
  end.

(** [None] stands for the bytes of a file too short. *)
Definition file_i32 (pos : Z) (m : DefaultMappedFile) : outcome Z :=
  let* (v, _) := get_i32 (default (replicate 4 Byte.x00) (mf_get_bytes pos 4 m)) in Done v.
Definition file_i64 (pos : Z) (m : DefaultMappedFile) : outcome Z :=
  let* (v, _) := get_i64 (default (replicate 8 Byte.x00) (mf_get_bytes pos 8 m)) in Done v.

Definition is_mapped_file_matched_recover (m : DefaultMappedFile) (cp : StoreCheckpoint)
  : outcome bool :=
  let* magic_code := file_i32 MESSAGE_MAGIC_CODE_POSITION m in
  if negb (magic_code =? MESSAGE_MAGIC_CODE_V1) && negb (magic_code =? MESSAGE_MAGIC_CODE_V2)
  then Done false
  else if enable_rocksdb_store cfg then Panic
  else
    let* sysf := file_i32 SYSFLAG_POSITION m in
    let* ts := file_i64 (4 + 4 + 4 + 4 + 4 + 8 + 8 + 4 + 8 +
                         host_length sysf MessageSysFlag.BORNHOST_V6_FLAG) m in
    if ts =? 0 then Done false
    else if message_index_enable cfg && message_index_safe cfg
    then Done (ts <=? as_i64 (get_min_timestamp_index cp))
    else Done (ts <=? as_i64 (get_min_timestamp cp)).

(** The last file old enough, looked for from the end; the first one when
    there is none. *)
Fixpoint abnormal_start (rev_files : list DefaultMappedFile) (cp : StoreCheckpoint) : outcome nat :=
  match rev_files with
  | [] => Done O
  | m :: ms =>
      let* matched := is_mapped_file_matched_recover m cp in
      if matched then Done (length ms) else abnormal_start ms cp
  end.

(** A record is dispatched unless it lies beyond the confirmed offset of a
    duplicated log. *)
Definition abnormal_record (confirm : outcome Z) (sz : Z) (r : DispatchRequest) (w : W)
  : outcome W :=
  if duplication_enable cfg || enable_controller_mode cfg then
    let* c := confirm in
    if as_i64 (dr_commit_log_offset r + sz) <=? c then lc_dispatch r w else Done w
  else lc_dispatch r w.

Definition recover_abnormally (disk : nat → bool * Z) (max_cq : Z) (l : CommitLog) (w : W)
  : outcome (loop_end (CommitLog * W)) :=
  match mapped_files (cl_queue l) with
  | [] => recover_empty l w
  | _ =>
      let* index := abnormal_start (reverse (mapped_files (cl_queue l))) (cl_checkpoint l) in
      recover_from index (abnormal_record (get_confirm_offset cfg l)) file_from_offset disk max_cq
        l w
  end.
End Recovery.

(** ** Putting a message *)

Definition set_body_crc (crc : Z) (m : MessageExtBrokerInner) : MessageExtBrokerInner :=
  let e := message_ext_inner m in
  set_inner (mkMessageExt (message e) (broker_name e) (queue_id e) (store_size e) (queue_offset e)
    (sys_flag e) (born_timestamp e) (born_host e) (store_timestamp e) (store_host e) (msg_id e)
    (commit_log_offset e) crc (reconsume_times e) (prepared_transaction_offset e)) m.
Definition set_queue_offset (o : Z) (m : MessageExtBrokerInner) : MessageExtBrokerInner :=
  let e := message_ext_inner m in
  set_inner (mkMessageExt (message e) (broker_name e) (queue_id e) (store_size e) o
    (sys_flag e) (born_timestamp e) (born_host e) (store_timestamp e) (store_host e) (msg_id e)
    (commit_log_offset e) (body_crc e) (reconsume_times e) (prepared_transaction_offset e)) m.
Definition or_sys_flag (f : Z) (m : MessageExtBrokerInner) : MessageExtBrokerInner :=
  let e := message_ext_inner m in
  set_inner (mkMessageExt (message e) (broker_name e) (queue_id e) (store_size e) (queue_offset e)
    (Z.lor (sys_flag e) f) (born_timestamp e) (born_host e) (store_timestamp e) (store_host e)
    (msg_id e) (commit_log_offset e) (body_crc e) (reconsume_times e)
    (prepared_transaction_offset e)) m.
Definition with_version (v : MessageVersion) (m : MessageExtBrokerInner) : MessageExtBrokerInner :=
  mkBrokerInner (message_ext_inner m) (properties_string m) (tags_code m) (encoded_buff m)
    (encode_completed m) v.
(** [MessageExtBrokerInner::delete_property]: of the map and of the string. *)
Definition broker_delete_property (name : string) (m : MessageExtBrokerInner)
  : MessageExtBrokerInner :=
  let e := message_ext_inner m in
  mkBrokerInner (mkMessageExt (clear_property name (message e)) (broker_name e) (queue_id e)
      (store_size e) (queue_offset e) (sys_flag e) (born_timestamp e) (born_host e)
      (store_timestamp e) (store_host e) (msg_id e) (commit_log_offset e) (body_crc e)
      (reconsume_times e) (prepared_transaction_offset e))
    (default (properties_string m) (delete_property (properties_string m) name))
    (tags_code m) (encoded_buff m) (encode_completed m) (version m).

(** [value.parse::<bool>().unwrap_or(true)] of the property [WAIT]. *)
Definition is_wait_store_msg_ok (m : MessageExtBrokerInner) : bool :=
  match properties (message (message_ext_inner m)) !! "WAIT" with
  | None => true
  | Some v => negb (String.eqb v "false")
  end.

Definition need_handle_ha (cfg : StoreConfig) (m : MessageExtBrokerInner) : bool :=
  is_wait_store_msg_ok m && negb (duplication_enable cfg)
  && bool_decide (broker_role cfg = SyncMaster).

(** The fields the log sets before it looks at the queue of segments. *)
Definition prepare_message (crc32fast : buffer → Z) (cfg : StoreConfig) (now : Z)
    (m : MessageExtBrokerInner) : MessageExtBrokerInner :=
  let m := if negb (duplication_enable cfg) then set_msg_timestamp (as_i64 now) m else m in
  let m := set_body_crc (crc32 crc32fast (body_of m)) m in
  let m := if cfg_enabled_append_prop_crc (encoder_config cfg)
           then broker_delete_property MessageConst.PROPERTY_CRC32 m else m in
  let m := with_version V1 m in
  let m := if auto_message_version_on_topic_len cfg &&
              (127 <? Z.of_nat (length (str_bytes (topic (message (message_ext_inner m))))))
           then with_version V2 m else m in
  let m := if is_v6 (born_host (message_ext_inner m))
           then or_sys_flag MessageSysFlag.BORNHOST_V6_FLAG m else m in
  if is_v6 (store_host (message_ext_inner m))
  then or_sys_flag MessageSysFlag.STOREHOSTADDRESS_V6_FLAG m else m.

(** Plain and committed messages get a place in a consume queue. *)
Definition enters_queue (m : MessageExtBrokerInner) : bool :=
  let t := MessageSysFlag.get_transaction_value (sys_flag (message_ext_inner m)) in
  (0 =? t) || (MessageSysFlag.TRANSACTION_COMMIT_TYPE =? t).

Record PutMessageResult := mkPutResult {
  put_message_status : PutMessageStatus;
  append_message_result : option AppendMessageResult;
  remote_put : bool;
}.
Definition new_append_result (s : PutMessageStatus) (r : option AppendMessageResult)
  : PutMessageResult := mkPutResult s r false.
Definition new_default (s : PutMessageStatus) : PutMessageResult := mkPutResult s None false.
Definition set_put_message_status (s : PutMessageStatus) (r : PutMessageResult)
  : PutMessageResult := mkPutResult s (append_message_result r) (remote_put r).
Definition is_ok (r : PutMessageResult) : bool :=
  if remote_put r then
    match put_message_status r with
    | StatusPutOk | FlushDiskTimeout | FlushSlaveTimeout | SlaveNotAvailable => true
    | _ => false
    end
  else
    match append_message_result r with
    | Some a => match status a with PutOk => true | _ => false end
    | None => false
    end.

(** What the surroundings contribute to a put: the clock on entry, under the
    lock and for the write, what created files hold, the queue type of the
    topic, and how the flush goes: whether syncing succeeds, how many requests
    the group commit service works on before and after the request of the put
    is sent, and whether the time of the put is over before it gets an answer. *)
Record put_env := mkPutEnv {
  pe_now : Z;
  pe_begin : Z;
  pe_elapsed : Z;
  pe_existing : buffer;
  pe_existing_next : buffer;
  pe_cq_type : CQType;
  pe_sync_ok : bool;
  pe_flush_now : Z;
  pe_served_before : nat;
  pe_served : nat;
  pe_timed_out : bool;
  pe_task_failed : bool;
}.

Section Put.
Context {W : Type} `{!LogClient W}.
Variable crc32fast : buffer → Z.
Variable cfg : StoreConfig.

Definition assign_offset (m : MessageExtBrokerInner) (w : W)
  : outcome (W * MessageExtBrokerInner) :=
  if enters_queue m then let* (w, o) := lc_assign m w in Done (w, set_queue_offset o m)
  else Done (w, m).
Definition increase_offset (m : MessageExtBrokerInner) (message_num : Z) (w : W) : outcome W :=
  if enters_queue m then lc_increase m message_num w else Done w.

(** [handle_ha]: the service behind it is not there yet. *)
Definition handle_ha (need_ack_nums : Z) : PutMessageStatus := StatusPutOk.

(** The group commit service: it flushes until the request's offset is on
    disk, [n] times at most. *)
Fixpoint group_commit (n : nat) (sync_ok : bool) (now next_offset : Z) (q : MappedFileQueue)
  : outcome (MappedFileQueue * PutMessageStatus) :=
  if next_offset <=? get_flushed_where q then Done (q, StatusPutOk)
  else
    match n with
    | O => Done (q, FlushDiskTimeout)
    | S n' =>
        let* (q, _) := MappedFileQueue.flush sync_ok now 0 q in
        group_commit n' sync_ok now next_offset q
    end.

Definition CHANNEL_CAPACITY : nat := 1024.

(** The service works on [k] requests, as far as there are some and there is
    room for the answers. *)
Fixpoint serve (k : nat) (env : put_env) (ch : CommitChannels) (q : MappedFileQueue)
  : outcome (CommitChannels * MappedFileQueue) :=
  match k, waiting_requests ch with
  | S k', next_offset :: rest =>
      if (CHANNEL_CAPACITY <=? length (unread_replies ch))%nat then Done (ch, q)
      else
        let* (q, st) := group_commit 1000 (pe_sync_ok env) (pe_flush_now env) next_offset q in
        serve k' env (mkChannels rest (unread_replies ch ++ [st])) q
  | _, _ => Done (ch, q)
  end.

(** [put_request] with its timeout: the request is sent once there is room, and
    the first answer in the channel is taken, whoever asked for it.  A put whose
    time is over leaves its request, or the answer to it, behind. *)
Definition put_request (env : put_env) (next_offset : Z) (ch : CommitChannels) (q : MappedFileQueue)
  : outcome (CommitChannels * MappedFileQueue * PutMessageStatus) :=
  let* (ch, q) := serve (pe_served_before env) env ch q in
  if (CHANNEL_CAPACITY <=? length (waiting_requests ch))%nat then Done (ch, q, FlushDiskTimeout)
  else
    let ch := mkChannels (waiting_requests ch ++ [next_offset]) (unread_replies ch) in
    let* (ch, q) := serve (pe_served env) env ch q in
    match unread_replies ch with
    | st :: rest =>
        if pe_timed_out env then Done (ch, q, FlushDiskTimeout)
        else Done (mkChannels (waiting_requests ch) rest, q, st)
    | [] => Done (ch, q, FlushDiskTimeout)
    end.

Definition handle_disk_flush (env : put_env) (r : AppendMessageResult) (m : MessageExtBrokerInner)
    (l : CommitLog) : outcome (CommitLog * PutMessageStatus) :=
  match flush_disk_type cfg with
  | SyncFlush =>
      if is_wait_store_msg_ok m then
        match cl_channels l with
        | None => Done (l, FlushDiskTimeout)
        | Some ch =>
            let* (ch, q, st) := put_request env (as_i64 (wrote_offset r + wrote_bytes r)) ch
                                  (cl_queue l) in
            Done (set_channels (Some ch) (set_cl_queue q l), st)
        end
      else Done (l, StatusPutOk)
  | AsyncFlush => Done (l, StatusPutOk)
  end.

Definition handle_disk_flush_and_ha (env : put_env) (r : PutMessageResult)
    (m : MessageExtBrokerInner) (need_ha : bool) (l : CommitLog)
  : outcome (CommitLog * PutMessageResult) :=
  let* a := unwrap (append_message_result r) in
  if pe_task_failed env then Done (l, set_put_message_status FlushDiskTimeout r)
  else
    let* (l, st) := handle_disk_flush env a m l in
    let r := set_put_message_status st r in
    match st with
    | StatusPutOk =>
        Done (l, set_put_message_status
                   (if need_ha then handle_ha (in_sync_replicas cfg) else StatusPutOk) r)
    | _ => Done (l, r)
    end.

(** The segment to write to: the last one, or a new one in its place when it
    is full or missing. *)
Definition segment_for_put (existing : buffer) (q : MappedFileQueue)
  : outcome (MappedFileQueue * option nat) :=
  match get_last_mapped_file q ≫= (mapped_files q !!.) with
  | Some m => if is_full m then get_last_mapped_file_mut_start_offset existing 0 true q
              else Done (q, get_last_mapped_file q)
  | None => get_last_mapped_file_mut_start_offset existing 0 true q
  end.

Definition append_to (i : nat) (env : put_env) (m : MessageExtBrokerInner) (q : MappedFileQueue)
  : outcome (MappedFileQueue * MessageExtBrokerInner * AppendMessageResult) :=
  let* f := unwrap (mapped_files q !! i) in
  let* (f, m, r) := append_message crc32fast (encoder_config cfg) (pe_cq_type env) (pe_elapsed env)
                      m f in
  Done (set_mapped_files (<[i := f]> (mapped_files q)) q, m, r).

(** The append under the lock, with the second attempt after a segment was
    closed. *)
Definition append_in_log (env : put_env) (m : MessageExtBrokerInner) (q : MappedFileQueue)
  : outcome (MappedFileQueue * MessageExtBrokerInner * PutMessageResult) :=
  let* (q, found) := segment_for_put (pe_existing env) q in
  match found with
  | None => Done (q, m, new_default CreateMappedFileFailed)
  | Some i =>
      let* (q, m, r) := append_to i env m q in
      match status r with
      | PutOk => Done (q, m, new_append_result StatusPutOk (Some r))
      | EndOfFile =>
          let* (q, found) :=
            get_last_mapped_file_mut_start_offset (pe_existing_next env) 0 true q in
          match found with
          | None => Done (q, m, new_append_result CreateMappedFileFailed (Some r))
          | Some j =>
              let* (q, m, r) := append_to j env m q in
              match status r with
              | PutOk => Done (q, m, new_append_result StatusPutOk (Some r))
              | _ => Done (q, m, new_append_result StatusUnknownError (Some r))
              end
          end
      | MessageSizeExceeded | AppendPropertiesSizeExceeded =>
          Done (q, m, new_append_result MessageIllegal (Some r))
      | UnknownError => Done (q, m, new_append_result StatusUnknownError (Some r))
      end
  end.

(** Every way out of the locked section stores 0 in [begin_time_in_lock],
    except a panic. *)
Definition put_message (env : put_env) (msg : MessageExtBrokerInner) (l : CommitLog) (w : W)
  : outcome (CommitLog * W * PutMessageResult) :=
  let msg := prepare_message crc32fast cfg (pe_now env) msg in
  let need_ha := need_handle_ha cfg msg in
  if need_ha && (enable_controller_mode cfg || enable_slave_acting_master cfg) then Panic
  else
    let need_assign := negb (duplication_enable cfg && negb (bool_decide (broker_role cfg = Slave))) in
    let* (w, msg) := if need_assign then assign_offset msg w else Done (w, msg) in
    let* (b, err) := encode (encoder_config cfg) msg in
    match err with
    | Some st => Done (l, w, new_default st)
    | None =>
        let msg := with_encoded b msg in
        let msg := if negb (duplication_enable cfg)
                   then set_msg_timestamp (as_i64 (pe_begin env)) msg else msg in
        let* (q, msg, r) := append_in_log env msg (cl_queue l) in
        let l := set_begin_time 0 (set_cl_queue q l) in
        match put_message_status r with
        | StatusPutOk =>
            let* w := increase_offset msg (get_message_num (pe_cq_type env) msg) w in
            let* (l, r) := handle_disk_flush_and_ha env r msg need_ha l in
            Done (l, w, r)
        | _ => Done (l, w, r)
        end
    end.
End Put.
