(* ===== verification/CommitLogRecovery.v ===== *)
(** * CommitLogRecovery: what a restart finds in the commit log

    The theorems about [recover_normally] and [recover_abnormally] of
    [CommitLog]: recovery ends whatever the files hold, finds exactly the
    records of a well-formed log, and what a missing end marker costs. *)

From stdpp Require Import base gmap list strings.
From coqutil Require Import Byte.
From Stdlib Require Import ZArith Lia.
From S2P Require Import Prelude Bytes Utf8 Message Properties MessageId MessageDecoder MessageCodec MessageUtils.
From S2P Require Import FileName ReferenceResource MappedFile MessageExtEncoder AppendCallback MappedFileQueue.
From S2P Require Import DispatchRequest ConsumeQueue StoreCheckpoint QueueOffsets CheckMessage CommitLog.
Open Scope Z_scope.
Open Scope rmq_scope.

(** ** Recovery ends *)

Section Termination.
Context {W : Type} `{!LogClient W}.
Variable crc32fast : buffer → Z.
Variable cfg : StoreConfig.
Variable delay : DelayLevels.
Variable on_record : Z → DispatchRequest → W → outcome W.
Local Notation loop := (recover_loop crc32fast cfg delay on_record).

Definition scan_measure (m : DefaultMappedFile) (rest : list DefaultMappedFile) (pos : Z) : nat :=
  (S (Z.to_nat (file_size m - pos)) + foldr (λ m n, S (Z.to_nat (file_size m)) + n) 0 rest)%nat.

Lemma simple_bytes_inside (pos sz : Z) (m : DefaultMappedFile) (b : buffer) :
  get_simple_message_bytes pos m = Done (Some b, sz) → 0 < sz ∧ pos + sz ≤ file_size m.
Proof.
  unfold get_simple_message_bytes. destruct (mf_get_bytes pos 4 m) as [b4 |]; [| done].
  destruct (get_i32 b4) as [[z ?] |]; [cbn [obind] | done].
  destruct (z <=? 0) eqn:Hz; [done |]. unfold mf_get_bytes.
  destruct (file_size m <? pos + z) eqn:Hf; [done |]. intros [= _ <-]. split; lia.
Qed.

(** Whatever the files hold, the loop ends within the fuel it is given. *)
Lemma recover_loop_ends (fuel : nat) (m : DefaultMappedFile) (rest : list DefaultMappedFile)
    (s : scan_state) (w : W) :
  (scan_measure m rest (current_pos s) ≤ fuel)%nat → loop fuel m rest s w ≠ Done OutOfFuel.
Proof.
  revert m rest s w. induction fuel as [| fuel IH]; intros m rest s w Hf.
  { unfold scan_measure in Hf. lia. }
  cbn [recover_loop]. destruct (get_simple_message_bytes _ m) as [[[b |] sz] |] eqn:E;
    cbn [obind]; [| done | done].
  apply simple_bytes_inside in E as [Hsz Hin].
  destruct (check_message_and_return_size _ _ _ _ _ _ b) as [[r ?] |]; cbn [obind]; [| done].
  assert (Hnext : (scan_measure m rest (current_pos s + sz) ≤ fuel)%nat)
    by (unfold scan_measure in *; lia).
  destruct (dr_success r && (0 <? dr_msg_size r)).
  { destruct (on_record sz r w) as [w' |]; cbn [obind]; [| done]. by apply IH. }
  destruct (dr_success r && (dr_msg_size r =? 0)).
  { destruct rest as [| m' rest]; [done |]. apply IH. cbn [current_pos].
    unfold scan_measure in *. cbn [foldr] in *. rewrite Z.sub_0_r. lia. }
  destruct (negb (dr_success r)); [done |]. by apply IH.
Qed.

(** More fuel does not change an answer. *)
Lemma recover_loop_more (fuel n : nat) (m : DefaultMappedFile) (rest : list DefaultMappedFile)
    (s : scan_state) (w : W) :
  loop fuel m rest s w ≠ Done OutOfFuel → loop (fuel + n) m rest s w = loop fuel m rest s w.
Proof.
  revert m rest s w. induction fuel as [| fuel IH]; intros m rest s w H; [done |].
  cbn [Nat.add recover_loop] in *.
  destruct (get_simple_message_bytes _ m) as [[[b |] sz] |]; cbn [obind] in *; [| done | done].
  destruct (check_message_and_return_size _ _ _ _ _ _ b) as [[r ?] |]; cbn [obind] in *; [| done].
  destruct (dr_success r && (0 <? dr_msg_size r)).
  { destruct (on_record sz r w) as [w' |]; cbn [obind] in *; [| done]. by apply IH. }
  destruct (dr_success r && (dr_msg_size r =? 0)).
  { destruct rest as [| m' rest]; [done |]. by apply IH. }
  destruct (negb (dr_success r)); [done |]. by apply IH.
Qed.

(** So an answer with some fuel is the answer of recovery. *)
Lemma recover_loop_answer (fuel : nat) (m : DefaultMappedFile) (rest : list DefaultMappedFile)
    (from valid : Z) (w : W) (e : outcome (loop_end (scan_state * W))) :
  loop fuel m rest (mkScan from 0 0 valid) w = e → e ≠ Done OutOfFuel →
  loop (recover_fuel (m :: rest)) m rest (mkScan from 0 0 valid) w = e.
Proof.
  intros H Hne. assert (Hr : loop (recover_fuel (m :: rest)) m rest (mkScan from 0 0 valid) w ≠
                             Done OutOfFuel).
  { apply recover_loop_ends. unfold scan_measure, recover_fuel. cbn. rewrite Z.sub_0_r. lia. }
  rewrite <- H in Hne |- *.
  rewrite <- (recover_loop_more _ fuel _ _ _ _ Hr), <- (recover_loop_more _ (recover_fuel (m :: rest))
    _ _ _ _ Hne). f_equal. lia.
Qed.
End Termination.

(** ** Segments that hold records *)

Section Records.
Context {W : Type} `{!LogClient W}.
Variable crc32fast : buffer → Z.
Variable cfg : StoreConfig.
Variable delay : DelayLevels.
Variable on_record : Z → DispatchRequest → W → outcome W.
Local Notation loop := (recover_loop crc32fast cfg delay on_record).

(** A record that announces its own length and passes the check. *)
Definition valid_record (e : buffer * DispatchRequest) : Prop :=
  (∃ rest, get_i32 (take 4 e.1) = Done (Z.of_nat (length e.1), rest)) ∧ (4 ≤ length e.1)%nat ∧
  (∃ rest, check_message_and_return_size crc32fast (force_verify_prop_crc cfg) delay
     (check_crc_on_recover cfg) (duplication_enable cfg) true e.1 = Done (e.2, rest)) ∧
  dr_success e.2 = true ∧ dr_msg_size e.2 = Z.of_nat (length e.1).

Definition seg_bytes (rs : list (buffer * DispatchRequest)) : buffer := concat (fst <$> rs).
Definition seg_len (rs : list (buffer * DispatchRequest)) : Z := Z.of_nat (length (seg_bytes rs)).

(** A segment closed by the blank marker, and one whose records end before bytes
    that are no record: too few for a size, a size that is not positive or
    reaches past the file, or bytes that do not pass the check. *)
Definition closed_segment (m : DefaultMappedFile) (rs : list (buffer * DispatchRequest)) : Prop :=
  ∃ tl, mmapped_file m = seg_bytes rs ++ blank_bytes (file_size m - seg_len rs) ++ tl.
Definition ends_here (tl : buffer) : Prop :=
  (length tl < 4)%nat ∨
  ∃ z rest, get_i32 (take 4 tl) = Done (z, rest) ∧
    (z ≤ 0 ∨ Z.of_nat (length tl) < z ∨
     ∃ r rest', check_message_and_return_size crc32fast (force_verify_prop_crc cfg) delay
         (check_crc_on_recover cfg) (duplication_enable cfg) true (take (Z.to_nat z) tl) = Done (r, rest') ∧
       dr_success r = false).
Definition open_segment (m : DefaultMappedFile) (rs : list (buffer * DispatchRequest)) : Prop :=
  ∃ tl, mmapped_file m = seg_bytes rs ++ tl ∧ ends_here tl.

Fixpoint on_all (rs : list (buffer * DispatchRequest)) (w : W) : outcome W :=
  match rs with
  | [] => Done w
  | (b, r) :: rs' => let* w := on_record (Z.of_nat (length b)) r w in on_all rs' w
  end.

(** Where the last record starts. *)
Fixpoint last_start (start : Z) (rs : list (buffer * DispatchRequest)) (old : Z) : Z :=
  match rs with
  | [] => old
  | (b, _) :: rs' => last_start (start + Z.of_nat (length b)) rs' start
  end.

Lemma slice_app_middle (pre b tl : buffer) (i j : nat) :
  i = length pre → (j = i + length b)%nat → slice (pre ++ b ++ tl) i j = b.
Proof.
  intros -> ->. unfold slice. rewrite drop_app_length.
  replace (length pre + length b - length pre)%nat with (length b) by lia. apply take_app_length.
Qed.

Lemma take_slice (l : buffer) (i j k : nat) : (i + k ≤ j)%nat → take k (slice l i j) = slice l i (i + k).
Proof. intros H. unfold slice. rewrite take_take. f_equal. lia. Qed.

(** Reading at a record gives the record. *)
Lemma simple_bytes_record (m : DefaultMappedFile) (pre b tl rest : buffer) :
  wf_mf m → mmapped_file m = pre ++ b ++ tl → (4 ≤ length b)%nat →
  get_i32 (take 4 b) = Done (Z.of_nat (length b), rest) →
  get_simple_message_bytes (Z.of_nat (length pre)) m = Done (Some b, Z.of_nat (length b)).
Proof.
  intros [] Hm Hb Hi. rewrite Hm, !length_app in mf_mem.
  unfold get_simple_message_bytes, mf_get_bytes.
  rewrite (proj2 (Z.ltb_ge _ _)) by lia. rewrite Hm.
  assert (Hs : slice (pre ++ b ++ tl) (Z.to_nat (Z.of_nat (length pre)))
                 (Z.to_nat (Z.of_nat (length pre) + 4)) = take 4 b).
  { rewrite <- (slice_app_middle pre b tl (length pre) (length pre + length b)) at 2 by done.
    rewrite take_slice by lia. f_equal; lia. }
  rewrite Hs, Hi. cbn [obind]. rewrite (proj2 (Z.leb_gt _ _)), (proj2 (Z.ltb_ge _ _)) by lia.
  do 3 f_equal. apply slice_app_middle; lia.
Qed.

(** The scan stops where the records end. *)
Lemma loop_stops (m : DefaultMappedFile) (rest : list DefaultMappedFile) (pre tl : buffer)
    (from p valid : Z) (w : W) :
  wf_mf m → mmapped_file m = pre ++ tl → ends_here tl →
  ∃ p', loop 1 m rest (mkScan from p (Z.of_nat (length pre)) valid) w =
        Done (Ended (mkScan from p p' valid, w)).
Proof.
  intros [] Hm He. rewrite Hm, length_app in mf_mem. cbn [recover_loop current_pos].
  unfold get_simple_message_bytes, mf_get_bytes.
  assert (Hs : ∀ k, 0 ≤ k → slice (mmapped_file m) (Z.to_nat (Z.of_nat (length pre)))
                 (Z.to_nat (Z.of_nat (length pre) + k)) = take (Z.to_nat k) tl).
  { intros k Hk. rewrite Hm. unfold slice. rewrite Nat2Z.id, drop_app_length. f_equal. lia. }
  destruct (Z.ltb_spec (file_size m) (Z.of_nat (length pre) + 4)) as [| Hin]; [by eexists |].
  destruct He as [Hshort | (z & b & Hz & He)]; [lia |].
  rewrite Hs by lia. change (Z.to_nat 4) with 4%nat. rewrite Hz. cbn [obind].
  destruct (Z.leb_spec z 0) as [| Hpos]; [by eexists |].
  destruct (Z.ltb_spec (file_size m) (Z.of_nat (length pre) + z)) as [| Hfit]; [by eexists |].
  destruct He as [Hneg | [Hlong | (r & b' & Hc & Hr)]]; [lia | lia |].
  rewrite Hs by lia. cbn [obind]. rewrite Hc. cbn [obind]. rewrite Hr. by eexists.
Qed.

Lemma seg_bytes_cons (e : buffer * DispatchRequest) (rs : list (buffer * DispatchRequest)) :
  seg_bytes (e :: rs) = e.1 ++ seg_bytes rs.
Proof. done. Qed.

Lemma on_all_app (xs ys : list (buffer * DispatchRequest)) (w : W) :
  on_all (xs ++ ys) w = let* w := on_all xs w in on_all ys w.
Proof.
  revert w. induction xs as [| [b r] xs IH]; intros w; [done |]. cbn.
  destruct (on_record _ r w); cbn; [apply IH | done].
Qed.

Lemma recover_records (rs : list (buffer * DispatchRequest)) (fuel : nat) (m : DefaultMappedFile)
    (rest : list DefaultMappedFile) (pre tl : buffer) (from valid : Z) (w : W) :
  wf_mf m → file_from_offset m = from → Forall valid_record rs →
  mmapped_file m = pre ++ seg_bytes rs ++ tl →
  let p := Z.of_nat (length pre) in
  loop (length rs + fuel) m rest (mkScan from p p valid) w =
  let* w := on_all rs w in
  loop fuel m rest
    (mkScan from (p + seg_len rs) (p + seg_len rs) (last_start (from + p) rs valid)) w.
Proof.
  revert pre valid w. induction rs as [| [b r] rs IH]; intros pre valid w Hwf Hfr Hv Hm p.
  { cbn. unfold seg_len. cbn. by rewrite Z.add_0_r. }
  apply Forall_cons in Hv as [(Hi & H4 & (rb & Hc) & Hs & Hz) Hv]. cbn [fst snd] in *.
  destruct Hi as [ri Hi]. rewrite seg_bytes_cons in Hm. cbn [fst] in Hm.
  rewrite <- (assoc_L (++)) in Hm.
  cbn [length Nat.add recover_loop current_pos].
  unfold p. rewrite (simple_bytes_record m pre b (seg_bytes rs ++ tl) ri) by done. cbn [obind].
  rewrite Hc. cbn [obind]. rewrite Hs, Hz. rewrite (proj2 (Z.ltb_lt _ _)) by lia. cbn [andb].
  cbn [process_offset mapped_file_offset last_valid on_all].
  destruct (on_record (Z.of_nat (length b)) r w) as [w' |]; cbn [obind]; [| done].
  assert (Hb : 0 ≤ from ∧ from + p + Z.of_nat (length b) ≤ i64_MAX ∧ p + Z.of_nat (length b) ≤ i64_MAX).
  { unfold p. destruct Hwf. rewrite Hm, !length_app in mf_mem. lia. }
  destruct Hb as (Hb0 & Hb1 & Hb2). unfold i64_MAX, p in *.
  rewrite (as_u64_id (Z.of_nat (length b))), !as_u64_id by in_range.
  replace (Z.of_nat (length pre) + Z.of_nat (length b)) with (Z.of_nat (length (pre ++ b)))
    by (rewrite length_app; lia).
  rewrite (IH (pre ++ b)); [| done | done | done | by rewrite Hm, <- (assoc_L (++))].
  destruct (on_all rs w') as [w'' |]; cbn [obind]; [| done]. cbn [last_start].
  unfold seg_len. rewrite seg_bytes_cons. cbn [fst]. rewrite !length_app.
  do 2 f_equal; [lia | lia | f_equal; lia].
Qed.

(** The scan of the files from [m] on: closed segments one after the other, up
    to the first segment without a marker, whatever comes after it. *)
Lemma recover_segments (segs : list (DefaultMappedFile * list (buffer * DispatchRequest)))
    (lst : DefaultMappedFile) (rs : list (buffer * DispatchRequest))
    (ignored : list DefaultMappedFile) (m : DefaultMappedFile) (fs : list DefaultMappedFile)
    (valid : Z) (w : W) :
  m :: fs = (fst <$> segs) ++ lst :: ignored →
  Forall (λ s, wf_mf s.1 ∧ closed_segment s.1 s.2 ∧ Forall valid_record s.2) segs →
  wf_mf lst → open_segment lst rs → Forall valid_record rs →
  ∃ fuel v p,
    loop fuel m fs (mkScan (file_from_offset m) 0 0 valid) w =
    let* w := on_all (concat (snd <$> segs) ++ rs) w in
    Done (Ended (mkScan (file_from_offset lst) (seg_len rs) p v, w)).
Proof.
  revert m fs valid w. induction segs as [| [s srs] segs IH]; intros m fs valid w Heq Hs Hl Ho Hv.
  - injection Heq as -> ->. destruct Ho as (tl & Hm & He).
    exists (length rs + 1)%nat. eexists (last_start _ rs valid).
    change (mkScan (file_from_offset lst) 0 0 valid) with
      (mkScan (file_from_offset lst) (Z.of_nat (length (@nil Byte.byte)))
         (Z.of_nat (length (@nil Byte.byte))) valid).
    rewrite (recover_records rs 1 lst ignored [] tl) by done.
    cbn [concat fmap list_fmap app length].
    destruct (on_all rs w) as [w' |]; cbn [obind]; [| by exists 0]. rewrite !Z.add_0_l.
    apply (loop_stops lst ignored (seg_bytes rs) tl); done.
  - cbn [fmap list_fmap fst app] in Heq. injection Heq as -> Hfs. rename s into m.
    apply Forall_cons in Hs as [(Hwf & (tl & Hm) & Hvs) Hs]. cbn [fst snd] in *.
    destruct fs as [| m' fs']; [by destruct segs |].
    set (v1 := last_start (file_from_offset m + 0) srs valid).
    assert (Hmark : ∀ w fuel, loop (S fuel) m (m' :: fs')
        (mkScan (file_from_offset m) (seg_len srs) (seg_len srs) v1) w =
        loop fuel m' fs' (mkScan (file_from_offset m') 0 0 v1) w).
    { intros w1 fuel. cbn [recover_loop current_pos].
      assert (Hfl : Z.of_nat (length (seg_bytes srs)) + 8 + Z.of_nat (length tl) = file_size m ∧
                    file_size m ≤ i32_MAX).
      { destruct Hwf. rewrite Hm, !length_app in mf_mem.
        change (length (blank_bytes (file_size m - seg_len srs))) with 8%nat in mf_mem. lia. }
      destruct Hfl as [Hfl Hmax]. unfold i32_MAX in *.
      assert (Hl4 : (length (blank_bytes (file_size m - seg_len srs)) = 8)%nat) by done.
      unfold seg_len at 1.
      rewrite (simple_bytes_record m (seg_bytes srs)
        (blank_bytes (file_size m - seg_len srs) ++ tl) [] []).
      + cbn [obind]. unfold blank_bytes. rewrite <- (assoc_L (++)), check_blank
          by (unfold seg_len; in_range). cbn [obind sized_request dr_success dr_msg_size andb].
        done.
      + done.
      + by rewrite app_nil_r.
      + rewrite length_app, Hl4. lia.
      + unfold blank_bytes. rewrite <- (assoc_L (++)), take_app_length' by done.
        rewrite <- (app_nil_r (put_i32 _)), get_put_i32 by (unfold seg_len; in_range).
        do 2 f_equal. autorewrite with rmq_len. unfold seg_len. cbn [length]. lia. }
    destruct (on_all srs w) as [w1 |] eqn:Hw1.
    + destruct (IH m' fs' v1 w1 Hfs Hs Hl Ho Hv) as (fuel & v & p & IHr).
      exists (length srs + S fuel)%nat, v, p. change 0 with (Z.of_nat (length (@nil Byte.byte))) at 1 2.
      rewrite (recover_records srs (S fuel) m (m' :: fs') []
        (blank_bytes (file_size m - seg_len srs) ++ tl)) by done.
      rewrite Hw1. cbn [obind length]. rewrite !Z.add_0_l.
      change (last_start (file_from_offset m + Z.of_nat 0) srs valid) with v1.
      rewrite Hmark, IHr. cbn [concat fmap list_fmap snd]. rewrite <- (assoc_L (++)).
      rewrite (on_all_app srs), Hw1. done.
    + exists (length srs + 0)%nat, 0, 0. change 0 with (Z.of_nat (length (@nil Byte.byte))) at 1 2.
      rewrite (recover_records srs 0 m (m' :: fs') []
        (blank_bytes (file_size m - seg_len srs) ++ tl)) by done.
      rewrite Hw1. cbn [obind concat fmap list_fmap snd].
      rewrite <- (assoc_L (++)), on_all_app, Hw1. done.
Qed.
End Records.

Section Restored.
Context {W : Type} `{!LogClient W}.
Variable crc32fast : buffer → Z.
Variable cfg : StoreConfig.
Variable delay : DelayLevels.
Variable disk : nat → bool * Z.
Variable max_cq : Z.
Local Notation valid := (valid_record crc32fast cfg delay).

(** A log whose segments from [pre] on hold records: closed ones, then one
    that ends without a marker, then [ignored]. *)
Record log_segments (l : CommitLog) (pre : list DefaultMappedFile)
    (segs : list (DefaultMappedFile * list (buffer * DispatchRequest))) (lst : DefaultMappedFile)
    (rs : list (buffer * DispatchRequest)) (ignored : list DefaultMappedFile) : Prop := {
  ls_ok : queue_ok (cl_queue l);
  ls_files : mapped_files (cl_queue l) = pre ++ (fst <$> segs) ++ lst :: ignored;
  ls_closed : Forall (λ s, closed_segment s.1 s.2 ∧ Forall valid s.2) segs;
  ls_open : open_segment crc32fast cfg delay lst rs;
  ls_valid : Forall valid rs;
  ls_room : seg_len rs < mapped_file_size (cl_queue l);
}.

(** All the records found. *)
Definition all_records (segs : list (DefaultMappedFile * list (buffer * DispatchRequest)))
    (rs : list (buffer * DispatchRequest)) : list (buffer * DispatchRequest) :=
  concat (snd <$> segs) ++ rs.

(** What is left to the client when the records end at [off]. *)
Definition cut_client (off : Z) (w : W) : outcome (loop_end W) :=
  if off <=? as_u64 max_cq then lc_truncate off w else Done (Ended w).

Section Log.
Context (l : CommitLog) (pre : list DefaultMappedFile)
  (segs : list (DefaultMappedFile * list (buffer * DispatchRequest))) (lst : DefaultMappedFile)
  (rs : list (buffer * DispatchRequest)) (ignored : list DefaultMappedFile).
Hypothesis Hls : log_segments l pre segs lst rs ignored.
Hypothesis Hctl : enable_controller_mode cfg = false.
Let off := file_from_offset lst + seg_len rs.
Let n := (length pre + length segs)%nat.

Lemma ls_lookup : mapped_files (cl_queue l) !! n = Some lst.
Proof.
  rewrite (ls_files _ _ _ _ _ _ Hls), (assoc_L (++)). apply list_lookup_middle.
  by rewrite length_app, length_fmap.
Qed.

Lemma ls_bounds : 0 ≤ file_from_offset lst ∧ 0 ≤ seg_len rs ∧ off < i64_MAX ∧
  off < file_from_offset lst + mapped_file_size (cl_queue l).
Proof.
  destruct (ok_lookup _ (ls_ok _ _ _ _ _ _ Hls) _ _ ls_lookup) as (_ & _ & _ & H0 & H1).
  pose proof (ls_room _ _ _ _ _ _ Hls). unfold off, seg_len in *. lia.
Qed.

Lemma recover_from_segments (on_record : Z → DispatchRequest → W → outcome W)
    (initial : DefaultMappedFile → Z) (w w' : W) :
  on_all on_record (all_records segs rs) w = Done w' →
  ∃ v p, recover_from crc32fast cfg delay (length pre) on_record initial disk max_cq l w =
       finish_recovery cfg disk max_cq (mkScan (file_from_offset lst) (seg_len rs) p v) l w'.
Proof.
  intros Hon. destruct Hls. unfold recover_from. rewrite ls_files0, drop_app_length.
  assert (Hwf : Forall (λ m, wf_mf m) ((fst <$> segs) ++ lst :: ignored)).
  { destruct ls_ok0. rewrite ls_files0 in q_files. apply Forall_app in q_files as [_ H].
    eapply Forall_impl; [exact H |]. by intros ? []. }
  apply Forall_app in Hwf as [Hwfs Hwfl]. apply Forall_cons in Hwfl as [Hwfl _].
  destruct ((fst <$> segs) ++ lst :: ignored) as [| m fs] eqn:E; [by destruct segs |].
  destruct (recover_segments crc32fast cfg delay on_record segs lst rs ignored m fs (initial m) w)
    as (fuel & v & p & Hloop); [done | | done | done | done |].
  { rewrite Forall_fmap in Hwfs. apply Forall_forall. intros s Hs.
    rewrite Forall_forall in Hwfs. rewrite Forall_forall in ls_closed0.
    specialize (Hwfs _ Hs). specialize (ls_closed0 _ Hs). by destruct ls_closed0. }
  fold (all_records segs rs) in Hloop. rewrite Hon in Hloop. cbn [obind] in Hloop.
  rewrite (recover_loop_answer crc32fast cfg delay on_record fuel m fs _ _ w _ Hloop) by done.
  by exists v, p.
Qed.

(** The log after recovery: cut at the end of the records. *)
Definition recovered (l' : CommitLog) : Prop :=
  get_flushed_where (cl_queue l') = off ∧ get_committed_where (cl_queue l') = off ∧
  take n (mapped_files (cl_queue l')) = take n (mapped_files (cl_queue l)) ∧
  (∃ m, mapped_files (cl_queue l') !! n = Some m ∧ log m = seg_bytes rs ∧
        file_from_offset m = file_from_offset lst ∧ wrote_position m = seg_len rs) ∧
  (∀ i m, mapped_files (cl_queue l) !! i = Some m → (n < i)%nat →
     mapped_files (cl_queue l') !! i = Some (destroy (disk i).1 (disk i).2 1000 m).1).

Lemma finish_recovered (v p : Z) (w w' : W) :
  cut_client off w = Done (Ended w') →
  ∃ l', finish_recovery cfg disk max_cq
          (mkScan (file_from_offset lst) (seg_len rs) p v) l w = Done (Ended (l', w')) ∧
        recovered l'.
Proof.
  intros Hcut. destruct ls_bounds as (H0 & H1 & H2 & H3). unfold i64_MAX in *.
  unfold finish_recovery. cbn [process_offset mapped_file_offset].
  rewrite Hctl. fold off. rewrite (as_u64_id off) by (unfold off in *; in_range).
  rewrite (as_i64_id off) by (unfold off in *; in_range).
  unfold cut_client in Hcut. rewrite Hcut. cbn [obind]. eexists. split; [reflexivity |].
  set (q := set_committed_where off _).
  assert (Hq : queue_ok q) by (destruct (ls_ok _ _ _ _ _ _ Hls); by constructor).
  assert (Hoff : as_i64 (as_u64 off) = off)
    by (rewrite as_u64_id, as_i64_id by (unfold off in *; in_range); done).
  pose proof (ls_lookup : mapped_files q !! n = Some lst) as Hn.
  assert (Hpos : 0 ≤ off) by (unfold off; lia).
  pose proof (truncate_file_cases q (disk n) off n lst Hq Hn Hpos) as (_ & Hmid & _).
  destruct Hmid as (Hf & Hmm & Hw & _); [unfold off in *; cbn; lia |].
  unfold recovered. split_and!.
  - exact Hoff.
  - exact Hoff.
  - apply list_eq. intros j. destruct (decide (j < n)%nat) as [Hj | Hj].
    + rewrite !lookup_take_lt by done.
      destruct (lookup_lt_is_Some_2 (mapped_files q) j) as [x Hx].
      { pose proof (lookup_lt_Some _ _ _ Hn). lia. }
      transitivity (Some x); [| done]. etransitivity; [by apply truncate_lookup |]. f_equal.
      pose proof (ok_lookup q Hq _ _ Hx) as (_ & _ & Hxf & _ & _).
      pose proof (ok_lookup q Hq _ _ Hn) as (_ & _ & Hlf & _ & _). pose proof (q_size _ Hq).
      apply (truncate_file_cases q (disk j) off j x Hq Hx Hpos). unfold off in *. nia.
    + by rewrite !lookup_take_ge by lia.
  - eexists. split; [by apply truncate_lookup |].
    assert (Hwp : wrote_position (truncate_file (mapped_file_size q) off (disk n) lst) = seg_len rs)
      by (rewrite Hf in Hw; unfold off in *; lia).
    split_and!; [| done | done]. unfold log. rewrite Hwp, Hmm.
    destruct (ls_open _ _ _ _ _ _ Hls) as (tl & -> & _). unfold seg_len.
    by rewrite Nat2Z.id, take_app_length.
  - intros i m Hi Hlt. etransitivity; [by apply (truncate_lookup disk off q) |]. f_equal.
    pose proof (ok_lookup q Hq _ _ Hi) as (_ & _ & Hif & Hi0 & Hi1).
    pose proof (ok_lookup q Hq _ _ Hn) as (_ & _ & Hlf & _ & _). pose proof (q_size _ Hq).
    destruct (ok_cast q Hq _ _ Hi) as [Hc1 Hc2]. unfold truncate_file, i64_MAX, i32_MAX in *.
    assert (off < file_from_offset m).
    { change (mapped_file_size (cl_queue l)) with (mapped_file_size q) in H3. unfold off in *. nia. }
    rewrite as_u64_id, Hc2, Hc1 by in_range.
    by rewrite (proj2 (Z.ltb_lt _ _)), (proj2 (Z.leb_gt _ _)) by lia.
Qed.
End Log.
End Restored.

(** ** Theorems *)


Lemma on_all_skip {W} `{!LogClient W} (rs : list (buffer * DispatchRequest)) (w : W) :
  on_all (λ _ _ w, Done w) rs w = Done w.
Proof. induction rs as [| [b r] rs IH]; [done |]. exact IH. Qed.


(** A client that notes the requests, for the examples. *)
Definition trace_client : LogClient (list DispatchRequest) := {|
  lc_dispatch r w := Done (w ++ [r]);
  lc_truncate _ w := Done (Ended w);
  lc_destroy w := Done [];
  lc_assign m w := Done (w, Z.of_nat (length w));
  lc_increase _ _ w := Done w;
|}.

Definition sample_store : StoreConfig :=
  mkStoreConfig sample_config 400 false false true AsyncMaster false false 1 true false true false
    false AsyncFlush.

(** A record as it lies in the log, with the request the check makes of it. *)
Definition sample_entry (off : Z) : buffer * DispatchRequest :=
  let b := stored_record sample_inner off in
  (b, match check_message_and_return_size (λ _, 0) false sample_levels true false true b with
      | Done (r, _) => r | Panic => default_request end).
Definition fill (b : buffer) : buffer := b ++ replicate (400 - length b) Byte.x00.
Definition sample_segment (from : Z) (b : buffer) : DefaultMappedFile :=
  mkMF new (fill b) false (offset_to_file_name from) from 400 400 400 400 0 false 0 0 true.
Definition closed_bytes (rs : list (buffer * DispatchRequest)) : buffer :=
  seg_bytes rs ++ blank_bytes (400 - seg_len rs).

(** A record whose magic code was not written, and a segment that holds one
    between two records. *)
Definition torn_record (b : buffer) : buffer := take 4 b ++ put_i32 0 ++ drop 8 b.
Definition torn_bytes : buffer :=
  seg_bytes [sample_entry 400] ++ torn_record (sample_entry 515).1 ++ seg_bytes [sample_entry 630].
Definition crashed_log : CommitLog :=
  mkCommitLog
    (mkQueue "commitlog" 400
       [sample_segment 0 (closed_bytes [sample_entry 0; sample_entry 115]);
        sample_segment 400 torn_bytes] false 0 0 0)
    (-1) (open_checkpoint []) 0 None.

Lemma sample_entry_valid (off : Z) :
  off ∈ [0; 115; 400; 800] → valid_record (λ _, 0) sample_store sample_levels (sample_entry off).
Proof.
  intros H. assert (off = 0 ∨ off = 115 ∨ off = 400 ∨ off = 800) as Hc by set_solver.
  destruct Hc as [-> | [-> | [-> | ->]]];
    (split_and!; [eexists; vm_compute; reflexivity | vm_compute; lia
                 | eexists; vm_compute; reflexivity | vm_compute; reflexivity
                 | vm_compute; reflexivity]).
Qed.

Lemma sample_segment_wf (from : Z) (b : buffer) :
  (length b ≤ 400)%nat → 0 ≤ from ≤ 10000 → wf_mf (sample_segment from b).
Proof.
  intros Hb Hf. constructor; cbn; unfold i32_MAX, i64_MAX; try lia.
  unfold fill. rewrite length_app, length_replicate. lia.
Qed.

Lemma crashed_segments :
  log_segments (λ _, 0) sample_store sample_levels crashed_log []
    [(sample_segment 0 (closed_bytes [sample_entry 0; sample_entry 115]),
      [sample_entry 0; sample_entry 115])]
    (sample_segment 400 torn_bytes) [sample_entry 400] [].
Proof.
  constructor.
  - constructor; [by vm_compute | | by vm_compute | by exists 0 | done].
    repeat (apply Forall_cons; split); try apply Forall_nil_2;
      (split; [apply sample_segment_wf; [by vm_compute; lia | lia] | done]).
  - done.
  - apply Forall_singleton. split.
    + eexists. unfold sample_segment, fill, closed_bytes. cbn [fst snd mmapped_file file_size].
      by rewrite <- (assoc_L (++)).
    + repeat (apply Forall_cons; split); try apply Forall_nil_2; apply sample_entry_valid; set_solver.
  - eexists. unfold sample_segment, fill, torn_bytes. cbn [mmapped_file].
    split; [by rewrite <- (assoc_L (++)) |]. right. eexists _, _.
    split; [vm_compute; reflexivity |]. right. right. eexists _, _.
    split; [vm_compute; reflexivity | reflexivity].
  - apply Forall_singleton, sample_entry_valid. set_solver.
  - by vm_compute.
Qed.


(** A segment that was closed without its marker (see [blank_marker_lost])
    ends the recovery of a log that was shut down properly: the log is cut
    there and every later segment is destroyed, records and all. *)
Theorem recovery_drops_segments {W} `{!LogClient W} (crc32fast : buffer → Z) (cfg : StoreConfig)
    (delay : DelayLevels) (disk : nat → bool * Z) (max_cq : Z) (l : CommitLog)
    (pre : list DefaultMappedFile)
    (segs : list (DefaultMappedFile * list (buffer * DispatchRequest))) (lst : DefaultMappedFile)
    (rs : list (buffer * DispatchRequest)) (ignored : list DefaultMappedFile) (w w1 : W) :
  log_segments crc32fast cfg delay l pre segs lst rs ignored →
  enable_controller_mode cfg = false → normal_start l = length pre →
  cut_client max_cq (file_from_offset lst + seg_len rs) w = Done (Ended w1) →
  ∃ l', recover_normally crc32fast cfg delay disk max_cq l w = Done (Ended (l', w1)) ∧
    get_flushed_where (cl_queue l') = file_from_offset lst + seg_len rs ∧
    (∀ i m, ignored !! i = Some m →
       let j := (length pre + length segs + 1 + i)%nat in
       mapped_files (cl_queue l') !! j = Some (destroy (disk j).1 (disk j).2 1000 m).1).
Proof.
  intros Hls Hctl Hst Hcut. unfold recover_normally.
  destruct (mapped_files (cl_queue l)) as [| m0 ms] eqn:Em.
  { pose proof (ls_files _ _ _ _ _ _ _ _ _ Hls) as E. rewrite Em in E.
    destruct pre; [by destruct segs | done]. }
  unfold get_confirm_offset. rewrite Hctl.
  set (c := if broker_duplication_enable cfg then _ else _).
  assert (Hc : ∃ z, c = Done z) by (unfold c; destruct (broker_duplication_enable cfg); by eexists).
  destruct Hc as [z ->]. cbn [obind]. rewrite Hst.
  destruct (recover_from_segments crc32fast cfg delay disk max_cq l pre segs lst rs ignored Hls
    (λ _ _ w, Done w) (λ _, as_u64 z) w w (on_all_skip _ w)) as (v & p & ->).
  destruct (finish_recovered crc32fast cfg delay disk max_cq l pre segs lst rs ignored Hls Hctl v p w
    w1 Hcut) as (l' & -> & (Hf & _ & _ & _ & Hdel)).
  exists l'. split; [done |]. split; [exact Hf |]. intros i m Hi. cbv zeta. set (j := (length pre + length segs + 1 + i)%nat). apply Hdel; [| unfold j; lia].
  rewrite (ls_files _ _ _ _ _ _ _ _ _ Hls), (assoc_L (++)).
  rewrite lookup_app_r by (rewrite length_app, length_fmap; unfold j; lia).
  rewrite length_app, length_fmap. unfold j.
  replace (length pre + length segs + 1 + i - (length pre + length segs))%nat with (S i) by lia.
  done.
Qed.

(** Three segments, the second closed without a marker. *)
Definition unmarked_log : CommitLog :=
  mkCommitLog
    (mkQueue "commitlog" 400
       [sample_segment 0 (closed_bytes [sample_entry 0; sample_entry 115]);
        sample_segment 400 (seg_bytes [sample_entry 400]);
        sample_segment 800 (seg_bytes [sample_entry 800])] false 0 0 0)
    (-1) (open_checkpoint []) 0 None.

Lemma recovery_drops_segments_witness :
  ∃ l', recover_normally (LogClient0 := trace_client) (λ _, 0) sample_store sample_levels
      (λ _, (true, 0)) (-1) unmarked_log [] = Done (Ended (l', [])) ∧
    get_flushed_where (cl_queue l') = 515 ∧
    (∀ i m, [sample_segment 800 (seg_bytes [sample_entry 800])] !! i = Some m →
       mapped_files (cl_queue l') !! (2 + i)%nat = Some (destroy true 0 1000 m).1).
Proof.
  apply (recovery_drops_segments (LogClient0 := trace_client) (λ _, 0) sample_store sample_levels
    (λ _, (true, 0)) (-1) unmarked_log []
    [(sample_segment 0 (closed_bytes [sample_entry 0; sample_entry 115]),
      [sample_entry 0; sample_entry 115])]
    (sample_segment 400 (seg_bytes [sample_entry 400])) [sample_entry 400]
    [sample_segment 800 (seg_bytes [sample_entry 800])] [] []); [| done | done | done].
  destruct crashed_segments as [_ _ Hcl _ Hv Hr]. constructor; [| done | done | | done | done].
  2: { eexists. unfold sample_segment, fill. cbn [mmapped_file]. split; [reflexivity |].
       right. eexists _, _. split; [vm_compute; reflexivity | by left]. }
  constructor; [by vm_compute | | by vm_compute | by exists 0 | done].
  repeat (apply Forall_cons; split); try apply Forall_nil_2;
    (split; [apply sample_segment_wf; [by vm_compute; lia | lia] | done]).
Defined.

(** C15: Recovery ends: on any segments, whatever they hold, neither recovery runs
    on for ever, provided the client's own truncation ends. *)
Theorem recovery_terminates {W} `{!LogClient W} (crc32fast : buffer → Z) (cfg : StoreConfig)
    (delay : DelayLevels) (disk : nat → bool * Z) (max_cq : Z) (l : CommitLog) (w : W) :
  (∀ off w, lc_truncate off w ≠ Done OutOfFuel) →
  recover_normally crc32fast cfg delay disk max_cq l w ≠ Done OutOfFuel ∧
  recover_abnormally crc32fast cfg delay disk max_cq l w ≠ Done OutOfFuel.
Proof.
  intros Htr.
  assert (Hempty : recover_empty l w ≠ Done OutOfFuel).
  { unfold recover_empty. by destruct (lc_destroy w). }
  assert (Hfin : ∀ s w, finish_recovery cfg disk max_cq s l w ≠ Done OutOfFuel).
  { intros s w0. unfold finish_recovery. destruct (enable_controller_mode cfg); [done |].
    destruct (_ <=? _); cbn [obind]; [| done].
    destruct (lc_truncate _ w0) as [[w1 | |] |] eqn:E; cbn [obind]; try done. by apply Htr in E. }
  assert (Hfrom : ∀ n on init, recover_from crc32fast cfg delay n on init disk max_cq l w ≠
                               Done OutOfFuel).
  { intros n on init. unfold recover_from. destruct (drop n _) as [| m rest]; [done |].
    pose proof (recover_loop_ends crc32fast cfg delay on (recover_fuel (m :: rest)) m rest
      (mkScan (file_from_offset m) 0 0 (init m)) w) as Hl.
    destruct (recover_loop _ _ _ _ _ _ _ _ _) as [[[s w1] | |] |]; cbn [obind]; try done.
    destruct Hl; [| done]. unfold scan_measure, recover_fuel. cbn. rewrite Z.sub_0_r. lia. }
  split.
  - unfold recover_normally. destruct (mapped_files (cl_queue l)); [done |].
    destruct (get_confirm_offset cfg l); cbn [obind]; [apply Hfrom | done].
  - unfold recover_abnormally. destruct (mapped_files (cl_queue l)); [done |].
    destruct (abnormal_start _ _ _); cbn [obind]; [apply Hfrom | done].
Qed.

Lemma recovery_terminates_witness :
  recover_normally (LogClient0 := trace_client) (λ _, 0) sample_store sample_levels
    (λ _, (true, 0)) (-1) unmarked_log [] ≠ Done OutOfFuel ∧
  recover_abnormally (LogClient0 := trace_client) (λ _, 0) sample_store sample_levels
    (λ _, (true, 0)) (-1) unmarked_log [] ≠ Done OutOfFuel.
Proof.
  apply (recovery_terminates (LogClient0 := trace_client) (λ _, 0) sample_store sample_levels
    (λ _, (true, 0)) (-1) unmarked_log []). done.
Defined.
