(* ===== verification/CommitLogPut.v ===== *)
(** * CommitLogPut: what storing a message does to the commit log

    The theorems about [put_message] of [CommitLog]: a message with room is
    appended under the next queue offset; with synchronous flushing the answer
    means that it is on disk; and what happens when the segment is used up. *)

From stdpp Require Import base gmap list strings.
From coqutil Require Import Byte.
From Stdlib Require Import ZArith Lia.
From S2P Require Import Prelude Bytes Utf8 Message Properties MessageId MessageDecoder MessageCodec MessageUtils.
From S2P Require Import FileName ReferenceResource MappedFile MessageExtEncoder AppendCallback MappedFileQueue.
From S2P Require Import DispatchRequest ConsumeQueue StoreCheckpoint QueueOffsets CheckMessage CommitLog CommitLogRecovery.
Open Scope Z_scope.
Open Scope rmq_scope.

(** What is free in the segment the next message goes to. *)
Definition put_room (q : MappedFileQueue) : Z :=
  match last (mapped_files q) with
  | Some m => if is_full m then mapped_file_size q else mapped_file_size q - wrote_position m
  | None => mapped_file_size q
  end.

(** Room for one more segment at the end of the offsets. *)
Definition can_grow (q : MappedFileQueue) : Prop :=
  ∀ m, last (mapped_files q) = Some m → file_from_offset m + 2 * mapped_file_size q ≤ i64_MAX.

Lemma set_mapped_files_same (q : MappedFileQueue) : set_mapped_files (mapped_files q) q = q.
Proof. by destruct q. Qed.

Lemma log_nil_wrote (m : DefaultMappedFile) : wf_mf m → log m = [] → wrote_position m = 0.
Proof. intros Hwf Hl. pose proof (log_length m Hwf) as H. rewrite Hl in H. cbn in H. destruct Hwf. lia. Qed.

(** The segment a put writes to: the last one of the queue or a fresh one. *)
Lemma segment_for_put_ok (q : MappedFileQueue) (existing : buffer) :
  queue_ok q → can_grow q →
  ∃ ms f, let q1 := set_mapped_files (ms ++ [f]) q in
    segment_for_put existing q = Done (q1, Some (length ms)) ∧ queue_ok q1 ∧
    is_full f = false ∧ file_from_offset f + wrote_position f = get_max_offset q ∧
    file_size f = mapped_file_size q ∧ mapped_file_size q - wrote_position f = put_room q ∧
    (mapped_files q = ms ++ [f] ∨
     (mapped_files q = ms ∧ log f = [] ∧ reference_resource f = new ∧ transient_store_pool f = false ∧
      (∀ m, last ms = Some m → is_full m = true))).
Proof.
  intros Hq Hgrow. pose proof (q_size _ Hq) as Hsz. unfold segment_for_put, put_room, get_max_offset.
  destruct (mapped_files q) as [| l ms _] eqn:E using rev_ind.
  - unfold get_last_mapped_file. rewrite E. cbn [mbind option_bind last].
    destruct (last_of_empty q existing 0 Hq E) as (m & Hrun & Hq' & Hwf & Hfs & Hf & Hl & Hfull & _ & Hr & Ht);
      [lia | unfold i32_MAX, i64_MAX in *; lia |].
    exists [], m. cbv zeta. rewrite Hrun. pose proof (log_nil_wrote m Hwf Hl) as Hw.
    rewrite Z.mod_0_l in Hf by lia. cbn [app length]. rewrite Hw, Hf.
    split_and!; try done; [lia |]. right. by split_and!.
  - assert (Hll : mapped_files q !! length ms = Some l) by (rewrite E; by apply list_lookup_middle).
    assert (Hglm : get_last_mapped_file q = Some (length ms)).
    { unfold get_last_mapped_file. rewrite E. destruct ms; [done |]. cbn.
      by rewrite length_app, Nat.add_1_r. }
    rewrite last_snoc. rewrite Hglm. cbn [mbind option_bind]. rewrite <- E, Hll.
    pose proof (ok_lookup q Hq _ _ Hll) as (Hwf & Hfs & _ & H0 & H1).
    assert (Hcast : as_i64 (as_i64 (file_from_offset l) + get_read_position l) =
                    file_from_offset l + wrote_position l).
    { unfold get_read_position, i64_MAX in *. destruct Hwf.
      rewrite (as_i64_id (file_from_offset l)), as_i64_id by in_range. done. }
    rewrite Hcast. destruct (is_full l) eqn:Hfull.
    + assert (Hln : last (mapped_files q) = Some l) by (rewrite E; apply last_snoc).
      destruct (last_full q existing 0 ms l Hq E Hfull (Hgrow _ Hln))
        as (m & Hrun & Hq' & Hwf' & Hfs' & Hf & Hl & Hfull' & _ & Hr & Ht).
      exists (mapped_files q), m. cbv zeta. rewrite Hrun. pose proof (log_nil_wrote m Hwf' Hl) as Hw.
      unfold is_full in Hfull. apply Z.eqb_eq in Hfull.
      destruct (wf_casts _ Hwf) as [_ Hc]. rewrite Hc in Hfull. rewrite Hw, Hf.
      split_and!; try done; [lia | lia |]. right. split_and!; try done.
      intros x Hx. rewrite Hln in Hx. injection Hx as <-. unfold is_full. rewrite Hc. by apply Z.eqb_eq.
    + exists ms, l. cbv zeta. rewrite <- E, set_mapped_files_same. split_and!; try done. by left.
Qed.

(** [q'] is [q] with [b] written at its end. *)
Definition appended (q q' : MappedFileQueue) (b : buffer) : Prop :=
  queue_ok q' ∧ get_max_offset q' = get_max_offset q + Z.of_nat (length b) ∧
  mapped_file_size q' = mapped_file_size q ∧ flushed_where q' = flushed_where q ∧
  ∃ ms f f', mapped_files q' = ms ++ [f'] ∧ log f' = log f ++ b ∧ frame f f' ∧
    file_from_offset f' + Z.of_nat (length (log f)) = get_max_offset q ∧
    (mapped_files q = ms ++ [f] ∨
     (mapped_files q = ms ∧ log f = [] ∧ reference_resource f = new ∧ transient_store_pool f = false ∧
      (∀ m, last ms = Some m → is_full m = true))).

Lemma max_offset_snoc (q : MappedFileQueue) (ms : list DefaultMappedFile) (f : DefaultMappedFile) :
  queue_ok q → mapped_files q = ms ++ [f] →
  get_max_offset q = file_from_offset f + wrote_position f.
Proof.
  intros Hq E. assert (Hll : mapped_files q !! length ms = Some f)
    by (rewrite E; by apply list_lookup_middle).
  pose proof (ok_lookup q Hq _ _ Hll) as (Hwf & Hfs & _ & H0 & H1).
  unfold get_max_offset. rewrite E, last_snoc. unfold get_read_position, i64_MAX in *.
  destruct Hwf. rewrite (as_i64_id (file_from_offset f)), as_i64_id by in_range. done.
Qed.

(** Writing [b] at the end of the segment [segment_for_put] gave. *)
Lemma appended_last (q : MappedFileQueue) (ms : list DefaultMappedFile) (f f' : DefaultMappedFile)
    (b : buffer) :
  let q1 := set_mapped_files (ms ++ [f]) q in
  queue_ok q1 → wf_mf f' → wf_mf f → file_size f' = file_size f → frame f f' →
  file_from_offset f + wrote_position f = get_max_offset q →
  wrote_position f' = wrote_position f + Z.of_nat (length b) → log f' = log f ++ b →
  (mapped_files q = ms ++ [f] ∨
   (mapped_files q = ms ∧ log f = [] ∧ reference_resource f = new ∧ transient_store_pool f = false ∧
    (∀ m, last ms = Some m → is_full m = true))) →
  appended q (set_mapped_files (<[length ms := f']> (mapped_files q1)) q1) b.
Proof.
  intros q1 Hq1 Hwf' Hwf Hfs Hfr Hoff Hw Hlog Hwhere.
  assert (Hfrom : file_from_offset f' = file_from_offset f) by (by destruct Hfr as (_ & ? & _)).
  assert (Hins : <[length ms := f']> (ms ++ [f]) = ms ++ [f']) by apply insert_snoc.
  assert (Hq2 : queue_ok (set_mapped_files (ms ++ [f']) q1)).
  { rewrite <- Hins. apply queue_ok_insert with (m := f); [done | | done | done | done].
    by apply list_lookup_middle. }
  unfold q1 in *. cbn [mapped_files set_mapped_files] in *. rewrite Hins. unfold appended. split_and!.
  - exact Hq2.
  - rewrite (max_offset_snoc _ ms f' Hq2 eq_refl), Hfrom, Hw. lia.
  - done.
  - done.
  - exists ms, f, f'. split_and!; try done. rewrite Hfrom, (log_length f Hwf). exact Hoff.
Qed.

Section Append.
Variable crc32fast : buffer → Z.
Variable cfg : StoreConfig.
Variable env : put_env.
Variables (m : MessageExtBrokerInner) (t : Z).
Hypothesis Henc : encodable (encoder_config cfg) m.
Hypothesis Hcrc : cfg_enabled_append_prop_crc (encoder_config cfg) = false.
Hypothesis Hbuf : encoded_buff m = Some (record_of (set_msg_timestamp t m) (record_len m)).

Lemma append_in_log_fits (q : MappedFileQueue) :
  queue_ok q → can_grow q → record_len m + 8 ≤ put_room q →
  let off := get_max_offset q in
  ∃ q' r, append_in_log crc32fast cfg env m q =
      Done (q', take_encoded m, new_append_result StatusPutOk (Some r)) ∧
    wrote_offset r = off ∧ wrote_bytes r = record_len m ∧
    logics_offset r = stored_queue_offset m ∧ status r = PutOk ∧
    appended q q' (stored_record m off).
Proof.
  intros Hq Hgrow Hroom off.
  destruct (segment_for_put_ok q (pe_existing env) Hq Hgrow)
    as (ms & f & Hseg & Hq1 & Hfull & Hoff & Hfs & Hr & Hwhere).
  unfold append_in_log. rewrite Hseg. cbn [obind]. unfold append_to. cbn [mapped_files set_mapped_files].
  rewrite list_lookup_middle by done. cbn [unwrap obind].
  assert (Hf : mapped_files (set_mapped_files (ms ++ [f]) q) !! length ms = Some f)
    by (by apply list_lookup_middle).
  pose proof (ok_lookup _ Hq1 _ _ Hf) as (Hwf & _ & Hbase & H0 & H1).
  destruct (append_message_fits crc32fast (encoder_config cfg) (pe_cq_type env) (pe_elapsed env) m t
    f Hwf Henc Hcrc Hbuf) as (f' & r & -> & Hs & Ho & Hb & Hlo & Hwf' & Hw & Hlog & Hfr & Hfs');
    [lia |].
  cbn [obind]. rewrite Hs. eexists _, r. split; [reflexivity |].
  rewrite Hoff in Ho, Hlog. fold off in Ho, Hlog. split_and!; try done.
  eapply appended_last; try done. rewrite (stored_record_length (encoder_config cfg)) by done. lia.
Qed.
End Append.

(** ** The put *)

Lemma encodable_irrelevant (c : EncoderConfig) (m m' : MessageExtBrokerInner) :
  message (message_ext_inner m') = message (message_ext_inner m) →
  properties_string m' = properties_string m → version m' = version m →
  born_host (message_ext_inner m') = born_host (message_ext_inner m) →
  store_host (message_ext_inner m') = store_host (message_ext_inner m) →
  sys_flag (message_ext_inner m') = sys_flag (message_ext_inner m) →
  encodable c m → encodable c m'.
Proof.
  intros H1 H2 H3 H4 H5 H6 []. constructor; unfold is_multi_dispatch_msg, body_of in *;
    rewrite ?H1, ?H2, ?H3, ?H4, ?H5, ?H6; done.
Qed.

(** The record of a message does not depend on the buffer it carries. *)
Lemma record_of_ext (m m' : MessageExtBrokerInner) (total : Z) :
  message_ext_inner m' = message_ext_inner m → properties_string m' = properties_string m →
  version m' = version m → record_of m' total = record_of m total ∧ record_len m' = record_len m.
Proof.
  intros H1 H2 H3. unfold record_of, record_len, blank_record, body_of. by rewrite H1, H2, H3.
Qed.

Lemma stored_record_encoded (m : MessageExtBrokerInner) (b : buffer) (off : Z) :
  stored_record (with_encoded b m) off = stored_record m off.
Proof. unfold stored_record, stored_message, record_len, body_of. reflexivity. Qed.

Lemma record_len_encoded (m : MessageExtBrokerInner) (b : buffer) :
  record_len (with_encoded b m) = record_len m.
Proof. reflexivity. Qed.

Lemma with_encoded_buff (m : MessageExtBrokerInner) (t : Z) :
  let b := record_of (set_msg_timestamp t m) (record_len m) in
  encoded_buff (with_encoded b m) =
  Some (record_of (set_msg_timestamp t (with_encoded b m)) (record_len (with_encoded b m))).
Proof.
  intros b. destruct (record_of_ext m (with_encoded b m) 0) as [_ ->]; [done | done | done |].
  destruct (record_of_ext (set_msg_timestamp t m) (set_msg_timestamp t (with_encoded b m))
    (record_len m)) as [-> _]; done.
Qed.

(** The message as it is written: prepared, with its queue offset and the time
    under the lock. *)
Definition put_form (crc32fast : buffer → Z) (cfg : StoreConfig) (env : put_env) (o : Z)
    (msg : MessageExtBrokerInner) : MessageExtBrokerInner :=
  set_msg_timestamp (as_i64 (pe_begin env))
    (set_queue_offset o (prepare_message crc32fast cfg (pe_now env) msg)).

Section Put.
Context {W : Type} `{!LogClient W}.
Variable crc32fast : buffer → Z.
Variable cfg : StoreConfig.
Variable env : put_env.
Variables (msg : MessageExtBrokerInner) (l : CommitLog) (w w1 : W) (o : Z).
Let p := prepare_message crc32fast cfg (pe_now env) msg.
Let f := put_form crc32fast cfg env o msg.
Hypothesis Hdup : duplication_enable cfg = false.
Hypothesis Hctl : enable_controller_mode cfg = false.
Hypothesis Hact : enable_slave_acting_master cfg = false.
Hypothesis Hcrc : cfg_enabled_append_prop_crc (encoder_config cfg) = false.
Hypothesis Henc : encodable (encoder_config cfg) p.
Hypothesis Hlen : record_len p ≤ max_message_size (encoder_config cfg).
Hypothesis Hin : enters_queue p = true.
Hypothesis Hassign : lc_assign p w = Done (w1, o).
Hypothesis Hq : queue_ok (cl_queue l).
Hypothesis Hgrow : can_grow (cl_queue l).

Lemma put_encodable : encodable (encoder_config cfg) f.
Proof. by apply (encodable_irrelevant _ p). Qed.

(** Up to the append, a put is the append of [put_form]. *)
Lemma put_message_append :
  put_message crc32fast cfg env msg l w =
  let* (q, m, r) :=
    append_in_log crc32fast cfg env
      (with_encoded (record_of (set_msg_timestamp (store_timestamp (message_ext_inner p)) f)
         (record_len f)) f) (cl_queue l) in
  let l := set_begin_time 0 (set_cl_queue q l) in
  match put_message_status r with
  | StatusPutOk =>
      let* w := increase_offset m (get_message_num (pe_cq_type env) m) w1 in
      let* (l, r) := handle_disk_flush_and_ha cfg env r m (need_handle_ha cfg p) l in
      Done (l, w, r)
  | _ => Done (l, w1, r)
  end.
Proof.
  unfold put_message. fold p. rewrite Hdup, Hctl, Hact. cbn [orb andb negb].
  rewrite andb_false_r. unfold assign_offset. rewrite Hin, Hassign. cbn [obind].
  rewrite encode_no_crc; [| | done | done | apply max_message_size_le].
  2: { by apply (encodable_irrelevant _ p). }
  cbn [obind]. done.
Qed.
End Put.

(** ** A stored record is a valid one *)

Lemma record_len_stored (m : MessageExtBrokerInner) (off : Z) :
  record_len m = stored_length (version m) (stored_message m off) (body_of m)
                   (str_bytes (properties_string m)).
Proof. unfold record_len, stored_length. cbn. lia. Qed.

Lemma stored_record_valid (crc32fast : buffer → Z) (cfg : StoreConfig) (delay : DelayLevels)
    (m : MessageExtBrokerInner) (off : Z) (r : DispatchRequest) :
  force_verify_prop_crc cfg = false → duplication_enable cfg = false →
  encodable (encoder_config cfg) m → record_len m ≤ i32_MAX →
  body_crc (message_ext_inner m) = crc32 crc32fast (body_of m) →
  wf_record (version m) (stored_message m off) (body_of m) (str_bytes (properties_string m)) →
  request_of delay (stored_message m off) (record_properties (str_bytes (properties_string m))) =
    Done r →
  valid_record crc32fast cfg delay (stored_record m off, r).
Proof.
  intros Hforce Hdup He Hmax Hbc Hwr Hreq.
  pose proof (stored_record_length _ m off He) as Hl. pose proof (record_len_pos m) as Hp.
  unfold valid_record. cbn [fst snd]. rewrite Hforce, Hdup.
  assert (Hck : ∃ rest, check_message_and_return_size crc32fast false delay
    (check_crc_on_recover cfg) false true (stored_record m off) = Done (r, rest)).
  { exists []. rewrite <- (app_nil_r (stored_record m off)). unfold stored_record.
    rewrite check_record; [by rewrite Hreq | done | | by intros _ _ _; rewrite <- Hbc].
    split; rewrite <- record_len_stored; done. }
  destruct (request_of_fields _ _ _ _ Hreq) as (Hs & Hz & _).
  change (dr_msg_size r = record_len m) in Hz. split_and!; [| lia | done | done | by rewrite Hl].
  unfold stored_record, record_bytes, header_bytes. rewrite <- !(assoc_L (++)).
  rewrite take_app_length' by done.
  exists []. rewrite <- (app_nil_r (put_i32 _)), get_put_i32.
  - f_equal. f_equal. cbn [store_size stored_message]. rewrite <- Hl.
    unfold stored_record, record_bytes, header_bytes. by rewrite <- !(assoc_L (++)).
  - cbn. unfold i32_MAX in *. in_range.
Qed.

(** ** Theorems *)

Section Theorems.
Context {W : Type} `{!LogClient W}.
Variable crc32fast : buffer → Z.
Variable cfg : StoreConfig.
Variable env : put_env.
Variables (msg : MessageExtBrokerInner) (l : CommitLog) (w w1 w2 : W) (o : Z).
Let p := prepare_message crc32fast cfg (pe_now env) msg.
Let f := put_form crc32fast cfg env o msg.

(** A put that is not disturbed: no duplication, a master without controller,
    a message that fits the format and goes to a queue. *)
Record put_ready : Prop := {
  pr_dup : duplication_enable cfg = false;
  pr_ctl : enable_controller_mode cfg = false;
  pr_act : enable_slave_acting_master cfg = false;
  pr_crc : cfg_enabled_append_prop_crc (encoder_config cfg) = false;
  pr_enc : encodable (encoder_config cfg) p;
  pr_len : record_len p ≤ max_message_size (encoder_config cfg);
  pr_in : enters_queue p = true;
  pr_assign : lc_assign p w = Done (w1, o);
  pr_increase : lc_increase (take_encoded f) (get_message_num (pe_cq_type env) f) w1 = Done w2;
  pr_ok : queue_ok (cl_queue l);
  pr_grow : can_grow (cl_queue l);
}.
Hypothesis Hready : put_ready.

Lemma put_queue_offset : stored_queue_offset f = o.
Proof.
  pose proof (pr_in Hready) as Hin. revert Hin. unfold enters_queue, stored_queue_offset.
  change (sys_flag (message_ext_inner f)) with (sys_flag (message_ext_inner p)).
  set (t := MessageSysFlag.get_transaction_value _). intros H.
  assert (t = 0 ∨ t = MessageSysFlag.TRANSACTION_COMMIT_TYPE) as [-> | ->] by lia; done.
Qed.

(** The put up to the flush. *)
Lemma put_appends :
  record_len f + 8 ≤ put_room (cl_queue l) →
  ∃ q r, let off := get_max_offset (cl_queue l) in
    put_message crc32fast cfg env msg l w =
      (let* (l, r) := handle_disk_flush_and_ha cfg env (new_append_result StatusPutOk (Some r))
                        (take_encoded f) (need_handle_ha cfg p) (set_begin_time 0 (set_cl_queue q l)) in
       Done (l, w2, r)) ∧
    wrote_offset r = off ∧ wrote_bytes r = record_len f ∧ logics_offset r = o ∧
    status r = PutOk ∧ appended (cl_queue l) q (stored_record f off).
Proof.
  intros Hroom. destruct Hready as [Hdup Hctl Hact Hcrc Henc Hlen Hin Has Hinc Hq Hg].
  set (b := record_of (set_msg_timestamp (store_timestamp (message_ext_inner p)) f) (record_len f)).
  assert (He : encodable (encoder_config cfg) (with_encoded b f))
    by (apply (encodable_irrelevant _ p); reflexivity || exact Henc).
  rewrite <- (record_len_encoded f b) in Hroom.
  destruct (append_in_log_fits crc32fast cfg env (with_encoded b f)
    (store_timestamp (message_ext_inner p)) He Hcrc
    (with_encoded_buff f (store_timestamp (message_ext_inner p))) (cl_queue l) Hq Hg Hroom)
    as (q & r & Hrun & Ho & Hb & Hlo & Hst & Happ).
  exists q, r. cbv zeta. split.
  - rewrite (put_message_append crc32fast cfg env msg l w w1 o Hdup Hctl Hact Hcrc Henc Hlen Hin Has).
    fold p f. fold b. rewrite Hrun. cbn [obind put_message_status].
    unfold increase_offset. change (enters_queue (take_encoded (with_encoded b f))) with (enters_queue p).
    rewrite Hin.
    change (lc_increase (take_encoded (with_encoded b f))
             (get_message_num (pe_cq_type env) (take_encoded (with_encoded b f))) w1)
      with (lc_increase (take_encoded f) (get_message_num (pe_cq_type env) f) w1).
    rewrite Hinc. cbn [obind set_begin_time set_cl_queue cl_queue]. done.
  - split; [exact Ho |]. rewrite record_len_encoded in Hb.
    split; [exact Hb |]. split; [rewrite Hlo; apply put_queue_offset |].
    split; [exact Hst |]. by rewrite <- (stored_record_encoded f b).
Qed.
End Theorems.

Lemma put_form_crc (crc32fast : buffer → Z) (cfg : StoreConfig) (env : put_env) (o : Z)
    (msg : MessageExtBrokerInner) :
  let f := put_form crc32fast cfg env o msg in
  body_crc (message_ext_inner f) = crc32 crc32fast (body_of f).
Proof.
  cbv zeta. unfold put_form, prepare_message. cbv zeta.
  repeat match goal with |- context [if ?b then _ else _] => destruct b end; reflexivity.
Qed.

(** C5: Storing a message: a message with room in the log is answered as stored at
    the old end of the log and under the queue offset the client of the log
    gave it, the log grows by its record and by nothing else, and that record
    is one that recovery accepts, with the request the consumers of the log
    need. *)
Theorem put_message_stores {W} `{!LogClient W} (crc32fast : buffer → Z) (cfg : StoreConfig)
    (env : put_env) (msg : MessageExtBrokerInner) (l : CommitLog) (w w1 w2 : W) (o : Z) :
  put_ready crc32fast cfg env msg l w w1 w2 o →
  flush_disk_type cfg = AsyncFlush → pe_task_failed env = false →
  force_verify_prop_crc cfg = false →
  let f := put_form crc32fast cfg env o msg in let off := get_max_offset (cl_queue l) in
  record_len f + 8 ≤ put_room (cl_queue l) → record_len f ≤ i32_MAX →
  wf_record (version f) (stored_message f off) (body_of f) (str_bytes (properties_string f)) →
  ∃ l' r,
    put_message crc32fast cfg env msg l w = Done (l', w2, new_append_result StatusPutOk (Some r)) ∧
    wrote_offset r = off ∧ logics_offset r = o ∧
    appended (cl_queue l) (cl_queue l') (stored_record f off) ∧
    ∀ delay req,
      request_of delay (stored_message f off) (record_properties (str_bytes (properties_string f))) =
        Done req →
      valid_record crc32fast cfg delay (stored_record f off, req).
Proof.
  intros Hr Hasync Htask Hforce f off Hroom Hmax Hwr.
  destruct (put_appends crc32fast cfg env msg l w w1 w2 o Hr Hroom)
    as (q & r & Hrun & Ho & Hb & Hlo & Hst & Happ). cbv zeta in Hrun. rewrite Hrun.
  unfold handle_disk_flush_and_ha, handle_disk_flush. cbn [append_message_result new_append_result unwrap obind].
  rewrite Htask, Hasync. cbn [obind set_put_message_status append_message_result new_append_result].
  eexists _, r. split.
  { unfold handle_ha. destruct (need_handle_ha _ _); reflexivity. }
  split; [exact Ho |]. split; [exact Hlo |]. split; [exact Happ |].
  intros delay req Hreq. apply stored_record_valid;
    [done | exact (pr_dup _ _ _ _ _ _ _ _ _ Hr) | | done | | done | done].
  - apply (encodable_irrelevant _ (prepare_message crc32fast cfg (pe_now env) msg));
      try reflexivity. exact (pr_enc _ _ _ _ _ _ _ _ _ Hr).
  - apply put_form_crc.
Qed.

(** ** Synchronous flushing *)

Lemma group_commit_reaches (n : nat) (ok : bool) (now next : Z) (q qn : MappedFileQueue) :
  flush_n n ok now q = Done qn → next ≤ get_flushed_where qn →
  ∃ q', group_commit n ok now next q = Done (q', StatusPutOk) ∧ next ≤ get_flushed_where q' ∧
        same_logs q q'.
Proof.
  revert q. induction n as [| n IH]; intros q Hf Hn; cbn [flush_n group_commit] in *.
  - injection Hf as ->. rewrite (proj2 (Z.leb_le _ _)) by done. by exists qn.
  - destruct (Z.leb_spec next (get_flushed_where q)) as [Hle | Hgt]; [by exists q |].
    apply obind_done in Hf as ([q1 b] & Hf1 & Hf). rewrite Hf1. cbn [obind].
    apply flush_same_logs in Hf1.
    destruct (IH q1 Hf Hn) as (q' & -> & Hq' & Hs). exists q'. split_and!; try done. by trans q1.
Qed.

(** A queue stays dense when a record is appended. *)
Lemma dense_appended (q q' : MappedFileQueue) (b : buffer) :
  dense q → appended q q' b → dense q'.
Proof.
  intros [Hq Hlive Hfull]
    (Hq' & _ & Hsz & _ & ms & f & f' & Hf' & _ & (_ & _ & _ & Hr & Ht) & _ & Hold).
  constructor; [done | |].
  - rewrite Hf'. destruct Hold as [E | (E & _ & Hnew & Htr & _)]; rewrite E in Hlive.
    + apply Forall_app in Hlive as [Hms Hl]. apply Forall_app. split; [done |].
      apply Forall_cons_1 in Hl as [Hl _]. apply Forall_singleton. rewrite Hr, Ht. exact Hl.
    + apply Forall_app. split; [done |]. apply Forall_singleton. rewrite Hr, Ht, Hnew.
      split; [done |]. by exists O.
  - intros i m Hi Hlt. rewrite Hf' in Hi, Hlt. rewrite length_app in Hlt. cbn in Hlt.
    rewrite lookup_app_l in Hi by lia. rewrite Hsz.
    destruct Hold as [E | (E & _ & _ & _ & Hl)].
    + apply (Hfull i); [by rewrite E, lookup_app_l by lia |]. rewrite E, length_app. cbn. lia.
    + destruct (decide (S i = length ms)) as [Hlast | Hmore].
      * specialize (Hl m). rewrite last_lookup, <- Hlast in Hl. cbn in Hl. specialize (Hl Hi).
        rewrite <- E in Hi. pose proof (ok_lookup q Hq _ _ Hi) as (Hwf & Hfs & _).
        unfold is_full in Hl. apply Z.eqb_eq in Hl. destruct (wf_casts _ Hwf) as [_ Hc].
        rewrite Hc in Hl. lia.
      * apply (Hfull i); [by rewrite E |]. rewrite E. lia.
Qed.

(** The service answers the only request there is. *)
Lemma put_request_alone (env : put_env) (next : Z) (q q' : MappedFileQueue) :
  pe_timed_out env = false → (0 < pe_served env)%nat →
  group_commit 1000 (pe_sync_ok env) (pe_flush_now env) next q = Done (q', StatusPutOk) →
  put_request env next (mkChannels [] []) q = Done (mkChannels [] [], q', StatusPutOk).
Proof.
  intros Ht Hk Hg. unfold put_request.
  assert (∀ k, serve k env (mkChannels [] []) q = Done (mkChannels [] [], q)) as -> by (by intros []).
  cbn [obind length waiting_requests unread_replies app]. change (CHANNEL_CAPACITY <=? 0)%nat with false.
  cbv iota. destruct (pe_served env) as [| k]; [lia |]. cbn [serve waiting_requests unread_replies length app].
  change (CHANNEL_CAPACITY <=? 0)%nat with false. cbv iota. rewrite Hg. cbn [obind].
  assert (∀ rs q, serve k env (mkChannels [] rs) q = Done (mkChannels [] rs, q)) as -> by (by destruct k).
  cbn. by rewrite Ht.
Qed.

(** C6: Synchronous flushing, with a message that waits for the disk, the group
    commit service started and no request or answer of an earlier put left in
    its channels: if the service gets to the request in time, the put is
    answered as stored, and then the whole record is below the flushed offset
    and the channels are empty again; no segment changes between the append and
    the answer. *)
Theorem put_message_durable {W} `{!LogClient W} (crc32fast : buffer → Z) (cfg : StoreConfig)
    (env : put_env) (msg : MessageExtBrokerInner) (l : CommitLog) (w w1 w2 : W) (o : Z) :
  put_ready crc32fast cfg env msg l w w1 w2 o →
  flush_disk_type cfg = SyncFlush → cl_channels l = Some (mkChannels [] []) →
  pe_task_failed env = false → pe_timed_out env = false → (0 < pe_served env)%nat →
  let f := put_form crc32fast cfg env o msg in let off := get_max_offset (cl_queue l) in
  is_wait_store_msg_ok f = true → record_len f + 8 ≤ put_room (cl_queue l) →
  dense (cl_queue l) → (length (mapped_files (cl_queue l)) < 1000)%nat →
  flushed_where (cl_queue l) = 0 ∨
    base_of (mapped_files (cl_queue l)) ≤ flushed_where (cl_queue l) ≤ off →
  ∃ l' r q,
    put_message crc32fast cfg env msg l w = Done (l', w2, new_append_result StatusPutOk (Some r)) ∧
    wrote_offset r = off ∧ appended (cl_queue l) q (stored_record f off) ∧
    same_logs q (cl_queue l') ∧ off + record_len f ≤ get_flushed_where (cl_queue l') ∧
    cl_channels l' = Some (mkChannels [] []).
Proof.
  intros Hr Hsync Hch Htask Htime Hserved f off Hwait Hroom Hd Hlen Hfl.
  destruct (put_appends crc32fast cfg env msg l w w1 w2 o Hr Hroom)
    as (q & r & Hrun & Ho & Hb & Hlo & Hst & Happ). cbv zeta in Hrun. rewrite Hrun.
  pose proof (dense_appended _ _ _ Hd Happ) as Hd'.
  assert (He : encodable (encoder_config cfg) f).
  { apply (encodable_irrelevant _ (prepare_message crc32fast cfg (pe_now env) msg));
      try reflexivity. exact (pr_enc _ _ _ _ _ _ _ _ _ Hr). }
  destruct Happ as (Hq & Hmax & Hsz & Hfw & ms & x & x' & Hfiles & Hlog & Hfr & Hat & Hold).
  change (get_max_offset q = off + Z.of_nat (length (stored_record f off))) in Hmax.
  rewrite (stored_record_length _ f off He) in Hmax.
  assert (Hne : mapped_files q ≠ []) by (rewrite Hfiles; by destruct ms).
  destruct (max_offset_end q Hq) as [Hend Hrange]. specialize (Hrange Hne).
  pose proof (record_len_pos f) as Hpos.
  destruct (flush_n_end q (pe_sync_ok env) (pe_flush_now env) 1000 Hd' Hne) as (qn & Hn & Hdn & Hsn & Hwn).
  { rewrite <- Hend, Hfw, Hmax. destruct Hfl as [Hz | Hin]; [by left |].
    destruct Hold as [E | (E & _)].
    - right. rewrite Hfiles. rewrite E in Hin.
      replace (base_of (ms ++ [x'])) with (base_of (ms ++ [x])); [unfold off in *; lia |].
      destruct ms; cbn; [by destruct Hfr as (_ & -> & _) | done].
    - destruct ms as [| y ms']; [| right; rewrite Hfiles; rewrite E in Hin; cbn in *; unfold off in *; lia].
      rewrite E in Hin. cbn in Hin. left. unfold off, get_max_offset in Hin. rewrite E in Hin.
      cbn in Hin. lia. }
  { rewrite Hfiles, length_app. cbn. destruct Hold as [E | (E & _)]; rewrite E in Hlen;
      [rewrite length_app in Hlen; cbn in Hlen |]; lia. }
  assert (Hgn : get_flushed_where qn = off + record_len f)
    by (rewrite get_flushed_where_id; rewrite Hwn; unfold off in *; lia).
  destruct (group_commit_reaches 1000 (pe_sync_ok env) (pe_flush_now env) (off + record_len f) q qn Hn)
    as (q' & Hgc & Hge & Hsame); [lia |].
  unfold handle_disk_flush_and_ha, handle_disk_flush. cbn [append_message_result new_append_result unwrap obind].
  fold f. change (is_wait_store_msg_ok (take_encoded f)) with (is_wait_store_msg_ok f).
  rewrite Htask, Hsync, Hwait, Ho, Hb. fold f off.
  rewrite as_i64_id by (unfold off, i64_MAX in *; in_range).
  change (cl_channels (set_begin_time 0 (set_cl_queue q l))) with (cl_channels l). rewrite Hch.
  change (cl_queue (set_begin_time 0 (set_cl_queue q l))) with q.
  rewrite (put_request_alone env _ q q' Htime Hserved Hgc). cbn [obind].
  cbn [set_put_message_status append_message_result new_append_result].
  eexists _, r, q. split.
  { unfold handle_ha. destruct (need_handle_ha _ _); reflexivity. }
  split_and!; try done. unfold appended. rewrite (stored_record_length _ f off He).
  split_and!; try done. by exists ms, x, x'.
Qed.


(** C40: The end of a segment: the message that no longer fits is not stored.  The
    append callback has taken the encoded message out of it when it reports the
    end of the file, so the second attempt, on the new segment, finds none and
    panics. *)
Theorem put_rollover_panics {W} `{!LogClient W} (crc32fast : buffer → Z) (cfg : StoreConfig)
    (env : put_env) (msg : MessageExtBrokerInner) (l : CommitLog) (w w1 w2 : W) (o : Z)
    (ms : list DefaultMappedFile) (x : DefaultMappedFile) :
  put_ready crc32fast cfg env msg l w w1 w2 o →
  let f := put_form crc32fast cfg env o msg in
  mapped_files (cl_queue l) = ms ++ [x] → record_len f ≤ i32_MAX - 8 →
  wrote_position x < mapped_file_size (cl_queue l) < wrote_position x + record_len f + 8 →
  put_message crc32fast cfg env msg l w = Panic.
Proof.
  intros Hr f E Hlen Hroom.
  assert (He : encodable (encoder_config cfg) f).
  { apply (encodable_irrelevant _ (prepare_message crc32fast cfg (pe_now env) msg));
      try reflexivity. exact (pr_enc _ _ _ _ _ _ _ _ _ Hr). }
  destruct Hr as [Hdup Hctl Hact Hcrc Henc Hmax Hin Has Hinc Hq Hg].
  rewrite (put_message_append crc32fast cfg env msg l w w1 o Hdup Hctl Hact Hcrc Henc Hmax Hin Has).
  fold f. set (t := store_timestamp _). set (b := record_of _ _).
  assert (Heb : encodable (encoder_config cfg) (with_encoded b f))
    by (apply (encodable_irrelevant _ f); reflexivity || exact He).
  assert (Hx : mapped_files (cl_queue l) !! length ms = Some x)
    by (rewrite E; by apply list_lookup_middle).
  pose proof (ok_lookup _ Hq _ _ Hx) as (Hwf & Hfs & _ & _ & _).
  assert (Hglm : get_last_mapped_file (cl_queue l) = Some (length ms)).
  { unfold get_last_mapped_file. rewrite E. destruct ms; [done |]. cbn.
    by rewrite length_app, Nat.add_1_r. }
  unfold append_in_log, segment_for_put. rewrite Hglm. cbn [mbind option_bind]. rewrite Hx.
  destruct (wf_casts _ Hwf) as [_ Hc]. unfold is_full. rewrite Hc.
  rewrite (proj2 (Z.eqb_neq _ _)) by lia. cbn [obind]. unfold append_to at 1. rewrite Hx.
  cbn [unwrap obind].
  destruct (append_message_eof crc32fast (encoder_config cfg) (pe_cq_type env) (pe_elapsed env)
    (with_encoded b f) t x Hwf Heb) as (x' & r & -> & Hst & _ & Hfull & _ & Hfr & Hfs').
  { by rewrite record_len_encoded. }
  { apply with_encoded_buff. }
  { rewrite record_len_encoded. lia. }
  cbn [obind]. rewrite Hst.
  set (q1 := set_mapped_files _ _).
  assert (Hwf' : wf_mf x') by apply Hfr. assert (Hfo : file_from_offset x' = file_from_offset x) by apply Hfr.
  assert (Hq1 : queue_ok q1) by (apply queue_ok_insert with (m := x); done).
  assert (E1 : mapped_files q1 = ms ++ [x']) by (unfold q1; cbn; rewrite E; apply insert_snoc).
  destruct (last_full q1 (pe_existing_next env) 0 ms x' Hq1 E1 Hfull)
    as (y & -> & Hq2 & Hwfy & Hfsy & _ & Hly & _).
  { rewrite Hfo. apply Hg. rewrite E. apply last_snoc. }
  cbn [obind]. unfold append_to. cbn [mapped_files set_mapped_files].
  rewrite list_lookup_middle by done. cbn [unwrap obind]. unfold append_message.
  destruct (wf_casts _ Hwfy) as [_ Hcy]. rewrite Hcy, (log_nil_wrote y Hwfy Hly).
  pose proof (mf_size _ Hwfy). by rewrite (proj2 (Z.leb_gt _ _)) by lia.
Qed.

(** ** Examples *)

Definition sample_env : put_env :=
  mkPutEnv 1700000000001 1700000000002 0 [] [] SimpleCQ true 5 0 1 false false.

Definition put_log (wrote : Z) : CommitLog :=
  mkCommitLog
    (mkQueue "commitlog" 400
       [mkMF new (replicate 400 Byte.x00) false (offset_to_file_name 0) 0 wrote 0 0 400 0 true 0 0
          true] false 0 0 0)
    (-1) (open_checkpoint []) 0 (Some (mkChannels [] [])).
Definition sync_store : StoreConfig :=
  mkStoreConfig sample_config 400 false false true AsyncMaster false false 1 true false true false
    false SyncFlush.

Lemma put_log_ok (wrote : Z) : 0 ≤ wrote ≤ 400 → queue_ok (cl_queue (put_log wrote)).
Proof.
  intros H. constructor; [by vm_compute | | done | by exists 0 | done].
  apply Forall_singleton. split; [| done]. constructor; cbn; unfold i32_MAX, i64_MAX; lia || done.
Qed.

Ltac put_is_ready :=
  constructor; [done | done | done | done | constructor; by vm_compute | by vm_compute | done | done
    | done | by apply put_log_ok |]; intros m Hm; injection Hm as <-; cbn; unfold i64_MAX; lia.
Lemma sample_put_ready (cfg : StoreConfig) (wrote : Z) :
  cfg ∈ [sample_store; sync_store] → 0 ≤ wrote ≤ 400 →
  put_ready (LogClient0 := trace_client) (λ _, 0) cfg sample_env sample_inner (put_log wrote) [] [] []
    0.
Proof.
  intros Hcfg Hw. assert (cfg = sample_store ∨ cfg = sync_store) as [-> | ->] by set_solver;
    put_is_ready.
Qed.

Lemma put_message_stores_witness :
  let f := put_form (λ _, 0) sample_store sample_env 0 sample_inner in
  ∃ l' r,
    put_message (LogClient0 := trace_client) (λ _, 0) sample_store sample_env sample_inner
      (put_log 0) [] = Done (l', [], new_append_result StatusPutOk (Some r)) ∧
    wrote_offset r = 0 ∧ logics_offset r = 0 ∧
    appended (cl_queue (put_log 0)) (cl_queue l') (stored_record f 0) ∧
    ∀ delay req,
      request_of delay (stored_message f 0) (record_properties (str_bytes (properties_string f))) =
        Done req →
      valid_record (λ _, 0) sample_store delay (stored_record f 0, req).
Proof.
  apply (put_message_stores (LogClient0 := trace_client) (λ _, 0) sample_store sample_env sample_inner
    (put_log 0) [] [] [] 0); [| done | done | done | by vm_compute | by vm_compute |].
  - apply sample_put_ready; [set_solver | lia].
  - constructor; [constructor |..]; by vm_compute.
Defined.

Lemma put_message_durable_witness :
  ∃ l' r q,
    put_message (LogClient0 := trace_client) (λ _, 0) sync_store sample_env sample_inner
      (put_log 0) [] = Done (l', [], new_append_result StatusPutOk (Some r)) ∧
    wrote_offset r = 0 ∧
    appended (cl_queue (put_log 0)) q
      (stored_record (put_form (λ _, 0) sync_store sample_env 0 sample_inner) 0) ∧
    same_logs q (cl_queue l') ∧ 0 + 115 ≤ get_flushed_where (cl_queue l') ∧
    cl_channels l' = Some (mkChannels [] []).
Proof.
  apply (put_message_durable (LogClient0 := trace_client) (λ _, 0) sync_store sample_env sample_inner
    (put_log 0) [] [] [] 0);
    [| done | done | done | done | cbn; lia | done | by vm_compute | | cbn; lia | by left].
  - apply sample_put_ready; [set_solver | lia].
  - constructor; [by apply put_log_ok | |].
    + apply Forall_singleton. split; [done |]. by exists O.
    + intros i m Hi Hlt. cbn in Hlt. lia.
Defined.


(** How the answer comes to be there: a put whose request was worked on when its
    time was over. *)
Definition late_env : put_env :=
  mkPutEnv 1700000000001 1700000000002 0 [] [] SimpleCQ true 5 0 1 true false.
Lemma timed_out_put_leaves_reply :
  ∃ l' r, put_message (LogClient0 := trace_client) (λ _, 0) sync_store late_env sample_inner
      (put_log 0) [] = Done (l', [], new_append_result FlushDiskTimeout (Some r)) ∧
    cl_channels l' = Some (mkChannels [] [StatusPutOk]).
Proof. eexists _, _. split; [vm_compute; reflexivity | reflexivity]. Qed.

Lemma put_rollover_panics_witness :
  put_message (LogClient0 := trace_client) (λ _, 0) sample_store sample_env sample_inner
    (put_log 300) [] = Panic.
Proof.
  eapply (put_rollover_panics (LogClient0 := trace_client) (λ _, 0) sample_store sample_env sample_inner
    (put_log 300) [] [] [] 0 []); [| reflexivity | by vm_compute | by vm_compute].
  apply sample_put_ready; [set_solver | lia].
Defined.
