(* ===== verification/Reput.v ===== *)
(** * Reput: handing the commit log on to its consumers
    ([ReputMessageServiceInner] of [local_file_message_store.rs])

    The service reads the log from the offset it has reached, makes a dispatch
    request of each record, hands it to the dispatchers and tells the listener
    that a message has arrived. *)

From stdpp Require Import base gmap list strings.
From coqutil Require Import Byte.
From Stdlib Require Import ZArith Lia.
From S2P Require Import Prelude Bytes Utf8 Message Properties MessageId MessageDecoder MessageCodec MessageUtils.
From S2P Require Import FileName ReferenceResource MappedFile MessageExtEncoder AppendCallback MappedFileQueue.
From S2P Require Import DispatchRequest ConsumeQueue StoreCheckpoint QueueOffsets CheckMessage CommitLog CommitLogRecovery.
Open Scope Z_scope.
Open Scope rmq_scope.

Section Reput.
Context {W : Type} `{!LogClient W}.
Variable crc32fast : buffer → Z.
Variable cfg : StoreConfig.
Variable delay : DelayLevels.
Variables (read_uncommitted notify_message_arrive_in_batch enable_dledger_commit_log : bool).
(** [notify_message_arrive_if_necessary]: the listener is the broker's. *)
Variable notify_message_arrive : DispatchRequest → W → outcome W.

Definition get_reput_end_offset (l : CommitLog) : outcome Z :=
  if read_uncommitted then Done (cl_max_offset l) else get_confirm_offset cfg l.

Definition is_commit_log_available (from : Z) (l : CommitLog) : outcome bool :=
  let* e := get_reput_end_offset l in Done (from <? e).

(** The loop over the records of one result; [b] is what of it is unread. *)
Fixpoint reput_records (fuel : nat) (result_size read_size from : Z) (b : buffer)
    (l : CommitLog) (w : W) : outcome (loop_end (Z * bool * W)) :=
  match fuel with
  | O => Done OutOfFuel
  | S fuel' =>
      let* e := get_reput_end_offset l in
      if negb ((read_size <? result_size) && (from <? e)) then Done (Ended (from, true, w))
      else
        let* (r, b) :=
          check_message_and_return_size crc32fast (force_verify_prop_crc cfg) delay
            false false false b in
        let sz := if dr_buffer_size r =? -1 then dr_msg_size r else dr_buffer_size r in
        if e <? as_i64 (from + sz) then Done (Ended (from, false, w))
        else if dr_success r then
          if 0 <? dr_msg_size r then
            let* w := lc_dispatch r w in
            let* w :=
              if negb notify_message_arrive_in_batch then notify_message_arrive r w else Done w in
            if negb (duplication_enable cfg) && bool_decide (broker_role cfg = Slave) then Panic
            else reput_records fuel' result_size (as_i32 (read_size + sz)) (as_i64 (from + sz)) b l w
          else if dr_msg_size r =? 0 then
            let* from := roll_next_file cfg from in
            reput_records fuel' result_size result_size from b l w
          else reput_records fuel' result_size read_size from b l w
        else if 0 <? sz then
          reput_records fuel' result_size read_size (as_i64 (from + sz)) b l w
        else if enable_dledger_commit_log then Panic
        else Done (Ended (from, false, w))
  end.

(** The loop over the results.  Every record has more than one byte, so the
    length of a result is enough fuel for its records. *)
Fixpoint reput_loop (fuel : nat) (from : Z) (l : CommitLog) (w : W)
  : outcome (loop_end (Z * CommitLog * W)) :=
  match fuel with
  | O => Done OutOfFuel
  | S fuel' =>
      let* available := is_commit_log_available from l in
      if negb available then Done (Ended (from, l, w))
      else
        let* (l, result) := cl_get_data cfg from l in
        match result with
        | None => Done (Ended (from, l, w))
        | Some (i, result) =>
            let* b := unwrap (bytes result) in
            let* x := reput_records (S (length b)) (size result) 0 (as_i64 (start_offset result)) b
                        l w in
            match x with
            | Ended (from, do_next, w) =>
                let* m := unwrap (mapped_files (cl_queue l) !! i) in
                let l := set_segment i (mf_release m) l in
                if do_next then reput_loop fuel' from l w else Done (Ended (from, l, w))
            | Deadlock => Done Deadlock
            | OutOfFuel => Done OutOfFuel
            end
        end
  end.

Definition do_reput (fuel : nat) (from : Z) (l : CommitLog) (w : W)
  : outcome (loop_end (Z * CommitLog * W)) :=
  let* low := cl_min_offset cfg l in
  reput_loop fuel (if from <? low then low else from) l w.
End Reput.

(** ** A log in use *)

(** Segment [i] of the log holds the bytes [bs !! i]; all but the last are
    full. *)
Record log_holds (l : CommitLog) (bs : list buffer) : Prop := {
  lh_ok : queue_ok (cl_queue l);
  lh_live : Forall mf_live (mapped_files (cl_queue l));
  lh_logs : Forall2 (λ m b, log m = b) (mapped_files (cl_queue l)) bs;
  lh_full : ∀ i b, bs !! i = Some b → (S i < length bs)%nat →
            Z.of_nat (length b) = mapped_file_size (cl_queue l);
}.

(** The offset of segment [i]. *)
Definition seg_from (l : CommitLog) (i : nat) : Z :=
  base_of (mapped_files (cl_queue l)) + Z.of_nat i * mapped_file_size (cl_queue l).

Lemma log_holds_lookup (l : CommitLog) (bs : list buffer) (i : nat) (b : buffer) :
  log_holds l bs → bs !! i = Some b →
  ∃ m, mapped_files (cl_queue l) !! i = Some m ∧ wf_mf m ∧ mf_live m ∧ log m = b ∧
    file_size m = mapped_file_size (cl_queue l) ∧ wrote_position m = Z.of_nat (length b) ∧
    file_from_offset m = seg_from l i ∧ 0 ≤ seg_from l i ∧
    seg_from l i + mapped_file_size (cl_queue l) ≤ i64_MAX ∧
    Z.of_nat (length b) ≤ mapped_file_size (cl_queue l).
Proof.
  intros [Hq Hlive Hlogs Hfull] Hb.
  destruct (Forall2_lookup_r _ _ _ _ _ Hlogs Hb) as (m & Hm & Hl).
  pose proof (ok_lookup _ Hq _ _ Hm) as (Hwf & Hs & Hf & H0 & H1).
  pose proof (Forall_lookup_1 _ _ _ _ Hlive Hm). pose proof (log_length m Hwf) as Hll.
  exists m. unfold seg_from. rewrite <- Hf. rewrite Hl in Hll.
  pose proof (mf_pos _ Hwf). split_and!; first [done | lia].
Qed.

Lemma log_holds_max (l : CommitLog) (bs : list buffer) (b : buffer) :
  log_holds l (bs ++ [b]) → cl_max_offset l = seg_from l (length bs) + Z.of_nat (length b).
Proof.
  intros H. destruct (log_holds_lookup l (bs ++ [b]) (length bs) b H) as
    (m & Hm & Hwf & _ & _ & Hs & Hw & Hf & H0 & H1 & Hle); [by apply list_lookup_middle |].
  unfold cl_max_offset, get_max_offset. rewrite last_lookup.
  pose proof (Forall2_length _ _ _ (lh_logs _ _ H)) as Hlen. rewrite length_app in Hlen. cbn in Hlen.
  rewrite Hlen. replace (pred (length bs + 1)) with (length bs) by lia. rewrite Hm.
  unfold get_read_position, i64_MAX in *. rewrite Hf, Hw.
  rewrite (as_i64_id (seg_from _ _)), as_i64_id by in_range. done.
Qed.

(** Replacing a segment by one with the same contents. *)
Lemma log_holds_set (l : CommitLog) (bs : list buffer) (i : nat) (m m' : DefaultMappedFile) :
  log_holds l bs → mapped_files (cl_queue l) !! i = Some m → same_file m m' → mf_live m' →
  log_holds (set_segment i m' l) bs ∧ seg_from (set_segment i m' l) = seg_from l.
Proof.
  intros [Hq Hlive Hlogs Hfull] Hm Hs Hl.
  pose proof (ok_lookup _ Hq _ _ Hm) as (Hwf & _). pose proof (same_file_wf _ _ Hwf Hs) as Hwf'.
  destruct Hs as (Hf & Hsz & Hmem & Hw & _).
  destruct (queue_ok_insert _ i m m' Hq Hm Hwf' Hsz Hf) as [Hq' Hb].
  split.
  - constructor; cbn.
    + done.
    + by apply Forall_insert.
    + destruct (Forall2_lookup_l _ _ _ _ _ Hlogs Hm) as (b & Hbi & Hlog).
      rewrite <- (list_insert_id _ _ _ Hbi). apply Forall2_insert; [done |].
      unfold log in *. by rewrite Hmem, Hw.
    + done.
  - unfold seg_from. cbn. by rewrite Hb.
Qed.

(** An offset inside a segment, as a position in it. *)
Lemma rem_in_segment (q : MappedFileQueue) (i : nat) (m : DefaultMappedFile) (off : Z) :
  queue_ok q → mapped_files q !! i = Some m →
  file_from_offset m ≤ off < file_from_offset m + mapped_file_size q →
  rrem off (mapped_file_size q) = off - file_from_offset m.
Proof.
  intros Hq Hm Hin. pose proof (ok_lookup _ Hq _ _ Hm) as (_ & _ & Hf & H0 & _).
  pose proof (q_size _ Hq). destruct (q_aligned _ Hq) as [k Hk]. unfold rrem.
  rewrite Z.rem_mod_nonneg by lia. rewrite (Z.mod_eq off) by lia.
  replace (off / mapped_file_size q) with (k + Z.of_nat i); [lia |].
  apply Z.div_unique with (off - file_from_offset m); lia.
Qed.

(** Reading from an offset inside what a segment holds. *)
Lemma get_data_holds (cfg : StoreConfig) (l : CommitLog) (bs : list buffer) (i : nat) (b : buffer)
    (p : nat) :
  log_holds l bs → mapped_file_size_commit_log cfg = mapped_file_size (cl_queue l) →
  bs !! i = Some b → (p < length b)%nat →
  let from := seg_from l i + Z.of_nat p in
  ∃ l1, cl_get_data cfg from l =
      Done (l1, Some (i, mkSelect from (Z.of_nat (length b - p)) (Some (drop p b)) true)) ∧
    cl_max_offset l1 = cl_max_offset l ∧ confirm_offset l1 = confirm_offset l ∧
    ∃ m1, mapped_files (cl_queue l1) !! i = Some m1 ∧
      log_holds (set_segment i (mf_release m1) l1) bs ∧
      seg_from (set_segment i (mf_release m1) l1) = seg_from l ∧
      cl_max_offset (set_segment i (mf_release m1) l1) = cl_max_offset l ∧
      mapped_file_size (cl_queue (set_segment i (mf_release m1) l1)) = mapped_file_size (cl_queue l).
Proof.
  intros Hh Hcfg Hb Hp from.
  destruct (log_holds_lookup l bs i b Hh Hb) as
    (m & Hm & Hwf & Hlv & Hlog & Hs & Hw & Hf & H0 & H1 & Hle).
  pose proof (q_size _ (lh_ok _ _ Hh)) as Hsz. unfold i64_MAX, i32_MAX in *.
  unfold cl_get_data, get_data_with_option.
  rewrite (find_in _ (lh_ok _ _ Hh) from _ i m Hm) by (unfold from; lia). cbn [obind]. rewrite Hm.
  cbn [unwrap obind]. rewrite Hcfg, (sz_i64 _ (lh_ok _ _ Hh)), (proj2 (Z.eqb_neq _ _)) by lia.
  rewrite (rem_in_segment _ i m from (lh_ok _ _ Hh) Hm) by (unfold from; lia).
  replace (from - file_from_offset m) with (Z.of_nat p) by (unfold from; lia).
  rewrite as_i32_id by in_range.
  destruct Hlv as (h & Hlive & Hh61).
  assert (Hsel : ∃ m', select_mapped_buffer_with_position (Z.of_nat p) m =
    (m', Some (mkSelect from (Z.of_nat (length b - p)) (Some (drop p b)) true)) ∧ same_file m m' ∧
    live (S h) (reference_resource m')).
  { destruct (select_live m (Z.of_nat p) Hwf) as (m' & Hrun & Hsame); [by exists h | lia |].
    exists m'. split_and!.
    - rewrite Hrun, Hf, Hw, Nat2Z.id, Hlog. fold from. repeat f_equal. lia.
    - done.
    - unfold select_mapped_buffer_with_position in Hrun.
      destruct (_ && _); [| done]. unfold mf_hold in Hrun.
      destruct (hold_live h (reference_resource m)) as [Hl2 _]; [lia | done |].
      destruct (hold (reference_resource m)) as [r bb]. cbn in Hl2. destruct bb; [| done].
      injection Hrun as <- _. exact Hl2. }
  destruct Hsel as (m' & -> & Hsame & Hl'). eexists. split; [reflexivity |].
  assert (Hmax : ∀ m2 l2, same_file m m2 → mapped_files (cl_queue l2) = <[i := m2]> (mapped_files (cl_queue l)) →
    cl_max_offset l2 = cl_max_offset l).
  { intros m2 l2 (Hf2 & _ & _ & Hw2 & _) E. unfold cl_max_offset, get_max_offset.
    rewrite !last_lookup, E, length_insert.
    destruct (decide (i = pred (length (mapped_files (cl_queue l))))) as [Hi | Hi].
    - rewrite <- Hi, list_lookup_insert_eq by (by eapply lookup_lt_Some).
      rewrite Hm. unfold get_read_position. by rewrite Hf2, Hw2.
    - by rewrite list_lookup_insert_ne by done. }
  split; [by apply (Hmax m') |]. split; [done |]. exists m'. split.
  { cbn. by apply list_lookup_insert_eq; eapply lookup_lt_Some. }
  assert (E2 : set_segment i (mf_release m') (set_segment i m' l) = set_segment i (mf_release m') l).
  { unfold set_segment, set_cl_queue. cbn. by rewrite list_insert_insert_eq. }
  rewrite E2. assert (Hs2 : same_file m (mf_release m')) by (etrans; [exact Hsame | apply mf_release_same]).
  destruct (log_holds_set l bs i m (mf_release m') Hh Hm Hs2) as [Hh2 Hsf].
  { exists h. split; [| done]. cbn. apply release_live; [lia | done]. }
  split_and!; try done. by apply (Hmax (mf_release m')).
Qed.

(** ** Dispatching what a log holds *)

Section Dispatch.
Context {W : Type} `{!LogClient W}.
Variable crc32fast : buffer → Z.
Variable cfg : StoreConfig.
Variable delay : DelayLevels.
Variables (read_uncommitted in_batch dledger : bool).
Variable notify : DispatchRequest → W → outcome W.
Local Notation records := (reput_records crc32fast cfg delay read_uncommitted in_batch dledger notify).
Local Notation loop := (reput_loop crc32fast cfg delay read_uncommitted in_batch dledger notify).
Local Notation reput := (do_reput crc32fast cfg delay read_uncommitted in_batch dledger notify).

(** The service follows the end of the log and runs on a master. *)
Definition follows_end : Prop :=
  (read_uncommitted = true ∨
   (enable_controller_mode cfg = false ∧ broker_duplication_enable cfg = false)) ∧
  negb (duplication_enable cfg) && bool_decide (broker_role cfg = Slave) = false.
Hypothesis Hend : follows_end.

Lemma end_offset (l : CommitLog) :
  get_reput_end_offset cfg read_uncommitted l = Done (cl_max_offset l).
Proof.
  unfold get_reput_end_offset, get_confirm_offset.
  destruct Hend as [[-> | [Hc Hd]] _]; [done |]. rewrite Hc, Hd. by destruct read_uncommitted.
Qed.

(** A record the service reads as a request. *)
Definition reput_record (e : buffer * DispatchRequest) : Prop :=
  (0 < length e.1)%nat ∧
  (∀ tl, check_message_and_return_size crc32fast (force_verify_prop_crc cfg) delay false false false
           (e.1 ++ tl) = Done (e.2, tl)) ∧
  dr_success e.2 = true ∧ dr_msg_size e.2 = Z.of_nat (length e.1) ∧ dr_buffer_size e.2 = -1.

(** What is done with a request. *)
Definition consume (r : DispatchRequest) (w : W) : outcome W :=
  let* w := lc_dispatch r w in if negb in_batch then notify r w else Done w.
Local Notation consume_all := (on_all (λ _ r w, consume r w)).

Lemma seg_len_cons (e : buffer * DispatchRequest) (rs : list (buffer * DispatchRequest)) :
  seg_len (e :: rs) = Z.of_nat (length e.1) + seg_len rs.
Proof. unfold seg_len. rewrite seg_bytes_cons, length_app. lia. Qed.

Lemma seg_len_app (a b : list (buffer * DispatchRequest)) : seg_len (a ++ b) = seg_len a + seg_len b.
Proof. unfold seg_len, seg_bytes. rewrite fmap_app, concat_app, length_app. lia. Qed.

Lemma seg_bytes_app (a b : list (buffer * DispatchRequest)) :
  seg_bytes (a ++ b) = seg_bytes a ++ seg_bytes b.
Proof. unfold seg_bytes. by rewrite fmap_app, concat_app. Qed.

Lemma seg_len_pos (rs : list (buffer * DispatchRequest)) :
  Forall reput_record rs → Z.of_nat (length rs) ≤ seg_len rs.
Proof.
  induction 1 as [| e rs (H & _) _ IH]; [done |]. rewrite seg_len_cons. cbn [length]. lia.
Qed.

Lemma reput_records_spec (rs : list (buffer * DispatchRequest)) (fuel : nat)
    (rsize read from : Z) (tl : buffer) (l : CommitLog) (w : W) :
  Forall reput_record rs → 0 ≤ from → from + seg_len rs ≤ cl_max_offset l →
  cl_max_offset l ≤ i64_MAX → 0 ≤ read → read + seg_len rs ≤ rsize → rsize ≤ i32_MAX →
  records (length rs + fuel) rsize read from (seg_bytes rs ++ tl) l w =
  let* w := consume_all rs w in
  records fuel rsize (read + seg_len rs) (from + seg_len rs) tl l w.
Proof.
  intros Hv. revert read from w.
  induction Hv as [| [b r] rs (Hl & Hc & Hs & Hz & Hbs) Hv IH];
    intros read from w H0 H1 H2 H3 H4 H5.
  { unfold seg_len. cbn. by rewrite !Z.add_0_r. }
  rewrite seg_len_cons in *. cbn [fst snd] in *. pose proof (seg_len_pos rs Hv).
  unfold i64_MAX, i32_MAX in *.
  cbn [length Nat.add reput_records]. rewrite end_offset. cbn [obind].
  rewrite (proj2 (Z.ltb_lt _ _)), (proj2 (Z.ltb_lt from _)) by lia. cbn [negb andb].
  rewrite seg_bytes_cons. cbn [fst]. rewrite <- (assoc_L (++)), Hc. cbn [obind].
  rewrite Hbs, Z.eqb_refl, Hz, Hs, (as_i64_id (from + _)) by in_range.
  rewrite (proj2 (Z.ltb_ge _ _)), (proj2 (Z.ltb_lt 0 _)) by lia.
  cbn [on_all]. unfold consume at 1. destruct (lc_dispatch r w) as [w0 |]; [cbn [obind] | done].
  destruct (if negb in_batch then _ else _) as [w' |]; [cbn [obind] | done].
  rewrite (proj2 Hend), (as_i32_id (read + _)) by in_range.
  rewrite IH by (unfold i64_MAX, i32_MAX; lia).
  destruct (on_all _ rs _) as [w'' |]; [cbn [obind] | done]. f_equal; lia.
Qed.

(** Segments from index [i] on: closed ones, then the last one. *)
Fixpoint segments_hold (sz : Z) (bs : list buffer) (segs : list (list (buffer * DispatchRequest)))
  : Prop :=
  match bs, segs with
  | [b], [rs] => b = seg_bytes rs ∧ Forall reput_record rs
  | b :: bs', rs :: segs' =>
      (∃ tl, b = seg_bytes rs ++ blank_bytes (sz - seg_len rs) ++ tl) ∧ Forall reput_record rs ∧
      segments_hold sz bs' segs'
  | _, _ => False
  end.

(** At the end of a closed segment the service moves to the next one. *)
Lemma reput_marker (l : CommitLog) (bs : list buffer) (i : nat) (b : buffer) (p : Z) (fuel : nat)
    (rsize read n : Z) (tl : buffer) (l1 : CommitLog) (w : W) :
  log_holds l bs → mapped_file_size_commit_log cfg = mapped_file_size (cl_queue l) →
  cl_max_offset l1 = cl_max_offset l → bs !! i = Some b → (S i < length bs)%nat → 0 ≤ p < mapped_file_size (cl_queue l) → in_s 32 n →
  read < rsize → seg_from l (S i) ≤ cl_max_offset l ≤ i64_MAX →
  records (S (S fuel)) rsize read (seg_from l i + p) (blank_bytes n ++ tl) l1 w =
  Done (Ended (seg_from l (S i), true, w)).
Proof.
  intros Hh Hcfg Hm1 Hb Hi Hp Hn Hrd Hmax.
  destruct (log_holds_lookup l bs i b Hh Hb) as
    (m & Hm & Hwf & Hlv & Hlog & Hs & Hw & Hf & H0 & H1 & Hle).
  pose proof (q_size _ (lh_ok _ _ Hh)) as Hsz. unfold i64_MAX, i32_MAX in *.
  assert (Hnext : seg_from l (S i) = seg_from l i + mapped_file_size (cl_queue l))
    by (unfold seg_from; lia).
  destruct (lookup_lt_is_Some_2 bs (S i) Hi) as [b' Hb'].
  destruct (log_holds_lookup l bs (S i) b' Hh Hb') as (_ & _ & _ & _ & _ & _ & _ & _ & _ & H2 & _).
  unfold i64_MAX in *.
  cbn [reput_records]. rewrite end_offset, Hm1. cbn [obind].
  rewrite (proj2 (Z.ltb_lt _ _)), (proj2 (Z.ltb_lt (seg_from l i + p) _)) by lia. cbn [negb andb].
  unfold blank_bytes. rewrite <- (assoc_L (++)), check_blank by done. cbn [obind].
  change (dr_buffer_size (sized_request 0 true) =? -1) with true.
  change (dr_msg_size (sized_request 0 true)) with 0.
  change (dr_success (sized_request 0 true)) with true. cbv iota.
  rewrite Z.add_0_r, as_i64_id, (proj2 (Z.ltb_ge _ _)) by in_range.
  change (0 <? 0) with false. change (0 =? 0) with true. cbv iota.
  unfold roll_next_file. rewrite Hcfg, (sz_i64 _ (lh_ok _ _ Hh)), (proj2 (Z.eqb_neq _ _)) by lia.
  rewrite (rem_in_segment _ i m _ (lh_ok _ _ Hh) Hm) by lia. cbn [obind].
  rewrite (as_i64_id (_ + mapped_file_size _)), as_i64_id by in_range.
  rewrite (proj2 (Z.ltb_ge rsize rsize)) by lia. cbn [negb andb]. do 4 f_equal. lia.
Qed.

(** One round of the outer loop, from [a] on in segment [i]. *)
Lemma reput_round (l : CommitLog) (bs : list buffer) (i : nat) (b : buffer)
    (a r : list (buffer * DispatchRequest)) (tl : buffer) (fuel : nat) (w : W) :
  log_holds l bs → mapped_file_size_commit_log cfg = mapped_file_size (cl_queue l) →
  bs !! i = Some b → b = seg_bytes (a ++ r) ++ tl → seg_bytes r ++ tl ≠ [] →
  seg_from l i + Z.of_nat (length b) ≤ cl_max_offset l ≤ i64_MAX →
  let from := seg_from l i + seg_len a in
  ∃ l1 l2, cl_max_offset l1 = cl_max_offset l ∧ log_holds l2 bs ∧ seg_from l2 = seg_from l ∧
    cl_max_offset l2 = cl_max_offset l ∧
    mapped_file_size (cl_queue l2) = mapped_file_size (cl_queue l) ∧
    loop (S fuel) from l w =
    let d := seg_bytes r ++ tl in
    let* x := records (S (length d)) (Z.of_nat (length d)) 0 from d l1 w in
    match x with
    | Ended (from, do_next, w) => if do_next then loop fuel from l2 w else Done (Ended (from, l2, w))
    | Deadlock => Done Deadlock
    | OutOfFuel => Done OutOfFuel
    end.
Proof.
  intros Hh Hcfg Hb Hbb Hne Hmax from.
  assert (Hd : drop (length (seg_bytes a)) b = seg_bytes r ++ tl).
  { rewrite Hbb, seg_bytes_app, <- (assoc_L (++)). apply drop_app_length. }
  assert (Hlen : (length (seg_bytes a) < length b)%nat).
  { apply (f_equal length) in Hd. rewrite length_drop in Hd.
    destruct (seg_bytes r ++ tl); [done | cbn in Hd; lia]. }
  destruct (log_holds_lookup l bs i b Hh Hb) as (_ & _ & _ & _ & _ & _ & _ & _ & H0 & _ & _).
  destruct (get_data_holds cfg l bs i b (length (seg_bytes a)) Hh Hcfg Hb Hlen)
    as (l1 & Hget & Hm1 & Hc1 & m1 & Hmf & Hh2 & Hsf2 & Hm2 & Hz2).
  exists l1, (set_segment i (mf_release m1) l1). split_and!; try done.
  cbn [reput_loop]. unfold is_commit_log_available. rewrite end_offset. cbn [obind].
  assert (Hlt : from < cl_max_offset l) by (unfold from, seg_len; lia).
  rewrite (proj2 (Z.ltb_lt _ _)) by done. cbn [negb]. unfold from, seg_len. rewrite Hget.
  cbn [obind bytes unwrap size start_offset]. rewrite Hd.
  rewrite as_i64_id by (unfold from, seg_len, i64_MAX in *; in_range).
  replace (length b - length (seg_bytes a))%nat with (length (seg_bytes r ++ tl))
    by (rewrite <- Hd, length_drop; done).
  destruct (records _ _ _ _ _ _ _) as [[[[from' dn] w'] | |] |]; cbn [obind]; try done.
  rewrite Hmf. done.
Qed.

Lemma reput_loop_segments (segs : list (list (buffer * DispatchRequest))) (bs0 bs1 : list buffer)
    (b : buffer) (a r : list (buffer * DispatchRequest)) (l : CommitLog) (w w' : W) :
  log_holds l (bs0 ++ b :: bs1) →
  mapped_file_size_commit_log cfg = mapped_file_size (cl_queue l) → cl_max_offset l ≤ i64_MAX →
  segments_hold (mapped_file_size (cl_queue l)) (b :: bs1) ((a ++ r) :: segs) →
  consume_all (r ++ concat segs) w = Done w' →
  ∃ l', loop (2 + length segs) (seg_from l (length bs0) + seg_len a) l w =
          Done (Ended (cl_max_offset l, l', w')) ∧
        log_holds l' (bs0 ++ b :: bs1) ∧ cl_max_offset l' = cl_max_offset l ∧
        mapped_file_size (cl_queue l') = mapped_file_size (cl_queue l).
Proof.
  revert bs0 bs1 b a r l w. induction segs as [| s segs IH];
    intros bs0 bs1 b a r l w Hh Hcfg Hmx Hseg Hcon.
  - destruct bs1 as [| b' bs1]; [| by destruct Hseg as (_ & _ & ?); destruct bs1].
    destruct Hseg as [Hb Hv]. apply Forall_app in Hv as [Hva Hvr].
    rewrite app_nil_r in Hcon. pose proof (log_holds_max l bs0 b Hh) as Hmax.
    assert (Hbl : Z.of_nat (length b) = seg_len a + seg_len r)
      by (rewrite Hb; change (Z.of_nat (length (seg_bytes (a ++ r)))) with (seg_len (a ++ r));
          apply seg_len_app).
    assert (Hstop : ∀ fuel l2 w2, cl_max_offset l2 = cl_max_offset l →
      loop (S fuel) (cl_max_offset l) l2 w2 = Done (Ended (cl_max_offset l, l2, w2))).
    { intros fuel l2 w2 E. cbn [reput_loop]. unfold is_commit_log_available. rewrite end_offset, E.
      cbn [obind]. by rewrite (proj2 (Z.ltb_ge _ _)) by lia. }
    destruct r as [| e r].
    + cbn in Hcon. injection Hcon as ->. exists l. split; [| done].
      replace (seg_from l (length bs0) + seg_len a) with (cl_max_offset l)
        by (rewrite Hmax, Hbl; unfold seg_len; cbn; lia). by apply Hstop.
    + assert (Hi : (bs0 ++ [b]) !! length bs0 = Some b) by (by apply list_lookup_middle).
      destruct (reput_round l (bs0 ++ [b]) (length bs0) b a (e :: r) [] 1 w Hh Hcfg Hi)
        as (l1 & l2 & Hm1 & Hh2 & Hsf & Hm2 & Hz2 & Hrun);
        [by rewrite app_nil_r | | lia |].
      { rewrite app_nil_r, seg_bytes_cons. apply Forall_cons in Hvr as [(He & _) _].
        destruct (e.1); [cbn in He; lia | done]. }
      cbn [length Nat.add]. rewrite Hrun. clear Hrun. cbv zeta. rewrite app_nil_r.
      pose proof (seg_len_pos _ Hvr) as Hpos.
      set (n := (length (seg_bytes (e :: r)) - length (e :: r))%nat).
      replace (S (length (seg_bytes (e :: r)))) with (length (e :: r) + S n)%nat
        by (unfold n, seg_len in *; lia).
      destruct (log_holds_lookup l _ _ _ Hh Hi) as (_ & _ & _ & _ & _ & _ & _ & _ & H0 & _ & Hle).
      pose proof (q_size _ (lh_ok _ _ Hh)) as [_ Hsz].
      pose proof (reput_records_spec (e :: r) (S n) (Z.of_nat (length (seg_bytes (e :: r)))) 0
        (seg_from l (length bs0) + seg_len a) [] l1 w Hvr) as Hspec.
      rewrite app_nil_r in Hspec.
      rewrite Hspec; clear Hspec; [| unfold seg_len; lia | rewrite Hm1; lia | lia | lia
        | unfold seg_len; lia | unfold seg_len, i32_MAX in *; lia].
      rewrite Hcon. cbn [obind reput_records]. rewrite end_offset. cbn [obind].
      rewrite (proj2 (Z.ltb_ge _ _)) by (unfold seg_len; lia). cbn [negb andb obind].
      replace (seg_from l (length bs0) + seg_len a + seg_len (e :: r)) with (cl_max_offset l) by lia.
      rewrite Hstop by done. by exists l2.
  - destruct bs1 as [| b1 bs1]; [by destruct Hseg as (_ & _ & []) |]. destruct Hseg as ((tl & Hb) & Hv & Hseg).
    apply Forall_app in Hv as [Hva Hvr].
    assert (Hi : (bs0 ++ b :: b1 :: bs1) !! length bs0 = Some b) by (by apply list_lookup_middle).
    destruct (log_holds_lookup l _ _ _ Hh Hi) as (_ & _ & _ & _ & _ & _ & _ & _ & H0 & H1 & Hle).
    pose proof (q_size _ (lh_ok _ _ Hh)) as [Hsz0 Hsz].
    pose proof (lh_full _ _ Hh _ _ Hi) as Hfull.
    assert (Hbl : Z.of_nat (length b) = mapped_file_size (cl_queue l))
      by (apply Hfull; rewrite length_app; cbn; lia).
    assert (Hnext : seg_from l (S (length bs0)) = seg_from l (length bs0) + Z.of_nat (length b))
      by (unfold seg_from; lia).
    assert (Hmax : seg_from l (S (length bs0)) ≤ cl_max_offset l).
    { destruct (exists_last (l := b1 :: bs1)) as (init & lst & E); [done |].
      rewrite E in Hh. rewrite app_comm_cons, (assoc_L (++)) in Hh.
      rewrite (log_holds_max l _ lst Hh). unfold seg_from. rewrite length_app. cbn [length].
      assert (0 ≤ Z.of_nat (length init) * mapped_file_size (cl_queue l)) by nia. lia. }
    set (mk := blank_bytes (mapped_file_size (cl_queue l) - seg_len (a ++ r))) in *.
    destruct (reput_round l (bs0 ++ b :: b1 :: bs1) (length bs0) b a r (mk ++ tl) (2 + length segs) w Hh Hcfg Hi)
      as (l1 & l2 & Hm1 & Hh2 & Hsf & Hm2 & Hz2 & Hrun); [done | | lia |].
    { intros Habs. apply app_nil in Habs as [_ Habs]. by apply app_nil in Habs as [Habs _]. }
    cbn [length]. replace (2 + S (length segs))%nat with (S (2 + length segs)) by lia.
    rewrite Hrun. clear Hrun. cbv zeta.
    assert (Hlmk : length mk = 8%nat) by done.
    pose proof (seg_len_pos _ Hvr) as Hpos. pose proof (seg_len_app a r) as Hsa.
    assert (0 ≤ seg_len a) by (unfold seg_len; lia).
    assert (Htot : seg_len a + seg_len r + 8 + Z.of_nat (length tl) = mapped_file_size (cl_queue l)).
    { rewrite <- Hbl, Hb, !length_app, Hlmk. unfold seg_len in *. lia. }
    set (d := seg_bytes r ++ mk ++ tl). assert (Hdl : Z.of_nat (length d) = seg_len r + 8 + Z.of_nat (length tl))
      by (unfold d; rewrite !length_app, Hlmk; unfold seg_len; lia).
    set (n := (length d - length r - 1)%nat).
    replace (S (length d)) with (length r + S (S n))%nat by (unfold n; unfold seg_len in *; lia).
    rewrite on_all_app in Hcon. apply obind_done in Hcon as (w1 & Hw1 & Hcon).
    unfold d at 2. rewrite reput_records_spec;
      [| done | unfold seg_len; lia | rewrite Hm1; unfold seg_len in *; lia | lia | lia | lia
       | unfold i32_MAX in *; lia].
    rewrite Hw1. cbn [obind]. rewrite <- Z.add_assoc.
    unfold i32_MAX in *. unfold mk.
    rewrite (reput_marker l (bs0 ++ b :: b1 :: bs1) (length bs0) b); try done;
      [| rewrite length_app; cbn; lia | unfold seg_len in *; lia | unfold seg_len in *; in_range | lia].
    cbn [obind].
    destruct (IH (bs0 ++ [b]) bs1 b1 [] s l2 w1) as (l' & Hl' & Hh' & Hm' & Hz').
    { by rewrite <- (assoc_L (++)). }
    { by rewrite Hz2. }
    { by rewrite Hm2. }
    { by rewrite Hz2. }
    { exact Hcon. }
    rewrite length_app, Nat.add_1_r, Hsf in Hl'. unfold seg_len in Hl' at 1. cbn [length] in Hl'.
    change (Z.of_nat (length (seg_bytes []))) with 0 in Hl'. rewrite Z.add_0_r, Hm2 in Hl'.
    exists l'. split_and!; [exact Hl' | by rewrite <- (assoc_L (++)) in Hh' | congruence | congruence].
Qed.

(** A stored record is one the service reads. *)
Lemma stored_reput_record (v : MessageVersion) (m : MessageExt) (data props : buffer)
    (r : DispatchRequest) :
  force_verify_prop_crc cfg = false → sized v m data props → wf_record v m data props →
  request_of delay m (record_properties props) = Done r →
  reput_record (record_bytes v m data props, r).
Proof.
  intros Hforce Hsz Hwr Hreq. destruct (request_of_fields _ _ _ _ Hreq) as (Hs & Hz & Hb).
  assert (Hl : Z.of_nat (length (record_bytes v m data props)) = store_size m).
  { rewrite record_bytes_length by apply Hwr. by destruct Hsz as [-> _]. }
  split_and!; cbn [fst snd].
  - destruct Hsz as [Hsz _]. rewrite Hsz in Hl. unfold stored_length in Hl.
    pose proof (host_length_bound (sys_flag m) MessageSysFlag.BORNHOST_V6_FLAG).
    pose proof (host_length_bound (sys_flag m) MessageSysFlag.STOREHOSTADDRESS_V6_FLAG).
    assert (0 ≤ get_topic_length_size v) by (by destruct v). lia.
  - intros tl. rewrite Hforce, check_record by done. by rewrite Hreq.
  - done.
  - by rewrite Hz.
  - done.
Qed.

(** The log starts at or below what it holds. *)
Lemma min_offset_holds (l : CommitLog) (bs : list buffer) (i : nat) (b : buffer) :
  log_holds l bs → bs !! i = Some b →
  ∃ low, cl_min_offset cfg l = Done low ∧ low ≤ seg_from l i.
Proof.
  intros Hh Hb. destruct (log_holds_lookup l bs i b Hh Hb) as (m & Hm & _).
  pose proof (q_size _ (lh_ok _ _ Hh)). unfold cl_min_offset, seg_from.
  destruct (mapped_files (cl_queue l)) as [| m0 ms] eqn:E; [by rewrite lookup_nil in Hm |].
  assert (Hm0 : mapped_files (cl_queue l) !! 0%nat = Some m0) by (by rewrite E).
  destruct (Forall_lookup_1 _ _ _ _ (lh_live _ _ Hh) Hm0) as (h & (Ha & _) & _).
  unfold is_available. rewrite Ha. eexists. split; [done |].
  destruct (ok_cast _ (lh_ok _ _ Hh) _ _ Hm0) as [-> _]. cbn. nia.
Qed.
End Dispatch.

(** ** Theorems *)

(** C9: Everything that is in the log reaches its consumers: when every segment but
    the last is closed by its blank marker, one run of the service from any
    record boundary dispatches every record up to the end of the log, once and in
    order, and ends with its offset at the end of the log.  Without a marker the
    service stays at the end of that segment, see [reput_stuck]. *)
Theorem reput_dispatches_all {W} `{!LogClient W} (crc32fast : buffer → Z) (cfg : StoreConfig)
    (delay : DelayLevels) (read_uncommitted in_batch dledger : bool)
    (notify : DispatchRequest → W → outcome W) (l : CommitLog) (bs0 bs1 : list buffer) (b : buffer)
    (a r : list (buffer * DispatchRequest)) (segs : list (list (buffer * DispatchRequest)))
    (w w' : W) :
  follows_end cfg read_uncommitted → log_holds l (bs0 ++ b :: bs1) →
  mapped_file_size_commit_log cfg = mapped_file_size (cl_queue l) →
  segments_hold crc32fast cfg delay (mapped_file_size (cl_queue l)) (b :: bs1) ((a ++ r) :: segs) →
  on_all (λ _ r w, consume in_batch notify r w) (r ++ concat segs) w = Done w' →
  let from := seg_from l (length bs0) + seg_len a in
  ∃ l', do_reput crc32fast cfg delay read_uncommitted in_batch dledger notify (2 + length segs)
          from l w = Done (Ended (cl_max_offset l, l', w')) ∧
    log_holds l' (bs0 ++ b :: bs1) ∧ cl_max_offset l' = cl_max_offset l.
Proof.
  intros He Hh Hcfg Hseg Hcon from.
  assert (Hi : (bs0 ++ b :: bs1) !! length bs0 = Some b) by (by apply list_lookup_middle).
  destruct (min_offset_holds cfg l _ _ _ Hh Hi) as (low & Hlow & Hle).
  unfold do_reput. rewrite Hlow. cbn [obind].
  rewrite (proj2 (Z.ltb_ge _ _)) by (unfold from, seg_len; lia).
  destruct (reput_loop_segments crc32fast cfg delay read_uncommitted in_batch dledger notify He segs
    bs0 bs1 b a r l w w') as (l' & Hl & Hk & Hm & _); [done | done | | done | done | by exists l'].
  destruct (exists_last (l := bs0 ++ b :: bs1)) as (init & lst & E); [by destruct bs0 |].
  rewrite E in Hh. rewrite (log_holds_max l init lst Hh).
  destruct (log_holds_lookup l (init ++ [lst]) (length init) lst Hh)
    as (_ & _ & _ & _ & _ & _ & _ & _ & _ & H1 & Hl); [by apply list_lookup_middle |]. lia.
Qed.

Definition live_segment (from : Z) (b : buffer) (wrote : Z) : DefaultMappedFile :=
  mkMF new (fill b) false (offset_to_file_name from) from wrote wrote 0 400 0 false 0 0 true.
Definition live_log : CommitLog :=
  mkCommitLog
    (mkQueue "commitlog" 400
       [live_segment 0 (closed_bytes [sample_entry 0; sample_entry 115]) 400;
        live_segment 400 (seg_bytes [sample_entry 400]) 115] false 0 0 0)
    (-1) (open_checkpoint []) 0 None.
Definition live_bytes : list buffer :=
  [fill (closed_bytes [sample_entry 0; sample_entry 115]); seg_bytes [sample_entry 400]].

Lemma live_segment_wf (from wrote : Z) (b : buffer) :
  (length b ≤ 400)%nat → 0 ≤ from ≤ 10000 → 0 ≤ wrote ≤ 400 → wf_mf (live_segment from b wrote).
Proof.
  intros Hb Hf Hw. constructor; cbn; unfold i32_MAX, i64_MAX; try lia.
  unfold fill. rewrite length_app, length_replicate. lia.
Qed.

Lemma live_log_holds : log_holds live_log live_bytes.
Proof.
  constructor.
  - constructor; [by vm_compute | | by vm_compute | by exists 0 | done].
    repeat (apply Forall_cons; split); try apply Forall_nil_2;
      (split; [apply live_segment_wf; [by vm_compute; lia | lia | lia] | done]).
  - repeat (apply Forall_cons; split); try apply Forall_nil_2; by apply mf_live_new.
  - constructor; [by vm_compute |]. constructor; [by vm_compute | constructor].
  - intros i b Hi Hlt. destruct i as [| i]; [| cbn in Hlt; lia]. injection Hi as <-. by vm_compute.
Qed.

Lemma sample_reput_record (off : Z) :
  off ∈ [0; 115; 400; 800] → reput_record (λ _, 0) sample_store sample_levels (sample_entry off).
Proof.
  intros H. assert (off = 0 ∨ off = 115 ∨ off = 400 ∨ off = 800) as Hc by set_solver.
  unfold sample_entry, stored_record. cbv zeta.
  apply (stored_reput_record (λ _, 0) sample_store sample_levels (version sample_inner)
    (stored_message sample_inner off) (body_of sample_inner)
    (str_bytes (properties_string sample_inner))).
  - done.
  - destruct Hc as [-> | [-> | [-> | ->]]]; split; by vm_compute.
  - destruct Hc as [-> | [-> | [-> | ->]]]; (constructor; [constructor |..]; by vm_compute).
  - destruct Hc as [-> | [-> | [-> | ->]]]; by vm_compute.
Qed.

Lemma reput_dispatches_all_witness :
  ∃ l', do_reput (LogClient0 := trace_client) (λ _, 0) sample_store sample_levels true true false
          (λ _ w, Done w) 3 (seg_from live_log 0 + seg_len [sample_entry 0]) live_log [] =
        Done (Ended (cl_max_offset live_log, l', snd <$> [sample_entry 115; sample_entry 400])) ∧
    log_holds l' live_bytes ∧ cl_max_offset l' = cl_max_offset live_log.
Proof.
  assert (Hs : segments_hold (λ _, 0) sample_store sample_levels (mapped_file_size (cl_queue live_log))
    live_bytes (([sample_entry 0] ++ [sample_entry 115]) :: [[sample_entry 400]])).
  { split_and!; cbn [app].
    + eexists. unfold fill, closed_bytes. by rewrite <- (assoc_L (++)).
    + apply Forall_cons_2; [apply sample_reput_record; set_solver |].
      apply Forall_cons_2; [apply sample_reput_record; set_solver | apply Forall_nil_2].
    + split; [reflexivity |].
      apply Forall_cons_2; [apply sample_reput_record; set_solver | apply Forall_nil_2]. }
  assert (Hc : on_all (λ _ r w, consume (LogClient0 := trace_client) true (λ _ w, Done w) r w)
    ([sample_entry 115] ++ concat [[sample_entry 400]]) [] =
    Done (snd <$> [sample_entry 115; sample_entry 400])) by reflexivity.
  exact (reput_dispatches_all (LogClient0 := trace_client) (λ _, 0) sample_store sample_levels true
    true false (λ _ w, Done w) live_log [] _ _ _ _ _ [] _
    (conj (or_introl eq_refl) eq_refl) live_log_holds eq_refl Hs Hc).
Defined.

(** A segment closed without its marker stops the service for good: at the end
    of its records the service finds no record, keeps its offset and dispatches
    nothing, however often it runs, while the log goes on in later segments. *)
Theorem reput_stuck {W} `{!LogClient W} (crc32fast : buffer → Z) (cfg : StoreConfig)
    (delay : DelayLevels) (read_uncommitted in_batch : bool) (notify : DispatchRequest → W → outcome W)
    (l : CommitLog) (bs : list buffer) (i k fuel : nat) (a : list (buffer * DispatchRequest)) (w : W) :
  follows_end cfg read_uncommitted → log_holds l bs →
  mapped_file_size_commit_log cfg = mapped_file_size (cl_queue l) →
  bs !! i = Some (seg_bytes a ++ replicate k Byte.x00) → (8 ≤ k)%nat →
  seg_from l i + Z.of_nat (length (seg_bytes a ++ replicate k Byte.x00)) ≤ cl_max_offset l ≤ i64_MAX →
  let from := seg_from l i + seg_len a in
  ∃ l', do_reput crc32fast cfg delay read_uncommitted in_batch false notify (S fuel) from l w =
          Done (Ended (from, l', w)) ∧
    log_holds l' bs ∧ from < cl_max_offset l'.
Proof.
  intros He Hh Hcfg Hb Hk Hmax from.
  destruct (min_offset_holds cfg l _ _ _ Hh Hb) as (low & Hlow & Hle).
  unfold do_reput. rewrite Hlow. cbn [obind].
  rewrite (proj2 (Z.ltb_ge _ _)) by (unfold from, seg_len; lia).
  destruct (reput_round crc32fast cfg delay read_uncommitted in_batch false notify He l bs i _ a []
    (replicate k Byte.x00) fuel w Hh Hcfg Hb) as (l1 & l2 & Hm1 & Hh2 & Hsf & Hm2 & Hz2 & Hrun).
  { by rewrite app_nil_r. }
  { cbn. destruct k; [lia | done]. }
  { done. }
  unfold from. rewrite Hrun. cbv zeta. change (seg_bytes [] ++ replicate k Byte.x00) with (replicate k Byte.x00).
  destruct (log_holds_lookup l bs i _ Hh Hb) as (_ & _ & _ & _ & _ & _ & _ & _ & H0 & _ & _).
  rewrite !length_app, !length_replicate in *. unfold i64_MAX in *.
  assert (Hck : check_message_and_return_size crc32fast (force_verify_prop_crc cfg) delay false false
    false (replicate (8 + (k - 8)) Byte.x00) =
    Done (sized_request (-1) false, replicate (k - 8) Byte.x00)).
  { change (replicate (8 + (k - 8)) Byte.x00) with (put_i32 0 ++ put_i32 0 ++ replicate (k - 8) Byte.x00).
    unfold check_message_and_return_size. by do 2 (rewrite get_put_i32 by in_range; cbn [obind]). }
  replace (8 + (k - 8))%nat with k in Hck by lia.
  assert (Hstop : ∀ n, reput_records crc32fast cfg delay read_uncommitted in_batch false notify
    (S n) (Z.of_nat k) 0 (seg_from l i + seg_len a) (replicate k Byte.x00) l1 w =
    Done (Ended (seg_from l i + seg_len a, false, w))).
  { intros n. cbn [reput_records].
    rewrite (end_offset cfg read_uncommitted He), Hm1. cbn [obind].
    rewrite (proj2 (Z.ltb_lt _ _)) by lia.
    rewrite (proj2 (Z.ltb_lt (seg_from l i + seg_len a) _)) by (unfold seg_len; lia). cbn [negb andb].
    rewrite Hck. cbn [obind sized_request dr_buffer_size dr_msg_size dr_success].
    change (-1 =? -1) with true. change (0 <? -1) with false. cbv iota.
    rewrite as_i64_id by (unfold seg_len; in_range).
    by rewrite (proj2 (Z.ltb_ge _ _)) by (unfold seg_len; lia). }
  rewrite Hstop. cbn [obind].
  exists l2. split_and!; [done | done |]. rewrite Hm2. unfold seg_len. lia.
Qed.

Definition stuck_log : CommitLog :=
  mkCommitLog
    (mkQueue "commitlog" 400
       [live_segment 400 (seg_bytes [sample_entry 400]) 400;
        live_segment 800 (seg_bytes [sample_entry 800]) 115] false 0 0 0)
    (-1) (open_checkpoint []) 0 None.
Lemma stuck_log_holds : log_holds stuck_log [fill (seg_bytes [sample_entry 400]); seg_bytes [sample_entry 800]].
Proof.
  constructor.
  - constructor; [by vm_compute | | by vm_compute | by exists 1 | done].
    repeat (apply Forall_cons; split); try apply Forall_nil_2;
      (split; [apply live_segment_wf; [by vm_compute; lia | lia | lia] | done]).
  - repeat (apply Forall_cons; split); try apply Forall_nil_2; by apply mf_live_new.
  - constructor; [by vm_compute |]. constructor; [by vm_compute | constructor].
  - intros i b Hi Hlt. destruct i as [| i]; [| cbn in Hlt; lia]. injection Hi as <-. by vm_compute.
Qed.

Lemma reput_stuck_witness :
  let from := seg_from stuck_log 0 + seg_len [sample_entry 400] in
  ∃ l', do_reput (LogClient0 := trace_client) (λ _, 0) sample_store sample_levels true true false
          (λ _ w, Done w) 5 from stuck_log [] = Done (Ended (from, l', [])) ∧
    log_holds l' [fill (seg_bytes [sample_entry 400]); seg_bytes [sample_entry 800]] ∧
    from < cl_max_offset l'.
Proof.
  assert (Hb : [fill (seg_bytes [sample_entry 400]); seg_bytes [sample_entry 800]] !! 0%nat =
    Some (seg_bytes [sample_entry 400] ++ replicate 285 Byte.x00)) by (vm_compute; reflexivity).
  apply (reput_stuck (LogClient0 := trace_client) (λ _, 0) sample_store sample_levels true true
    (λ _ w, Done w) stuck_log _ 0 285 4 [sample_entry 400] [] (conj (or_introl eq_refl) eq_refl)
    stuck_log_holds eq_refl Hb); [lia |].
  split; vm_compute; congruence.
Defined.
