(* ===== verification/MessageStore.v ===== *)
(** * MessageStore: the store that owns the log and its consumers
    ([local_file_message_store.rs])

    The store puts messages into the commit log, hands the records of the log to
    the consume queues and the index, and answers reads by queue offset, by log
    offset and by key.

    The running flags and the checkpoint are shared objects of the source: the
    flag word and the checkpoint of [Consumers] are the only ones, and every
    call of a component takes its view from there and writes it back. *)

From stdpp Require Import base gmap list strings sorting.
From coqutil Require Import Byte.
From Stdlib Require Import ZArith Lia.
From S2P Require Import Prelude Bytes Utf8 Message Properties MessageId MessageDecoder MessageCodec MessageUtils.
From S2P Require Import FileName ReferenceResource RunningFlags MappedFile MessageExtEncoder AppendCallback MappedFileQueue.
From S2P Require Import DispatchRequest ConsumeQueue StoreCheckpoint IndexFile IndexService QueueOffsets CheckMessage Rebalance ConsumeQueueStore CommitLog CommitLogRecovery CommitLogPut Reput.
Open Scope Z_scope.
Open Scope rmq_scope.

(** ** Configuration *)

(** What the store reads of [MessageStoreConfig] and [BrokerConfig], beyond what
    the log and the queues read.  [in_memory] is the part of the physical memory
    messages may take, in bytes. *)
Record MessageStoreConfig := mkMsConfig {
  log_config : StoreConfig;
  queue_config : CqsConfig;
  offset_check_in_slave : bool;
  max_filter_message_size : Z;
  travel_cq_file_num_when_get_message : nat;
  max_transfer_bytes_on_message_in_memory : Z;
  max_transfer_count_on_message_in_memory : Z;
  max_transfer_bytes_on_message_in_disk : Z;
  max_transfer_count_on_message_in_disk : Z;
  in_memory : Z;
  enable_compaction : bool;
  cold_data_flow_control_enable : bool;
  disk_fall_recorded : bool;
  broker_stats : bool;
  auto_delete_unused_stats : bool;
  recover_concurrently_enabled : bool;
  os_page_cache_busy_timeout_mills : Z;
  read_uncommitted : bool;
  notify_message_arrive_in_batch : bool;
  enable_dledger_commit_log : bool;
  long_polling_enable : bool;
  has_listener : bool;
  enable_lmq : bool;
}.

Definition i64_MIN : Z := - 2 ^ 63.
Definition MESSAGE_STORE_TIMESTAMP_POSITION : Z := 56.
Definition MAX_PULL_MSG_SIZE : Z := 128 * 1024 * 1024.

(** [CleanupPolicy] with [from_str], and the policy of a topic: an unknown one
    panics. *)
Inductive CleanupPolicy := DELETE | COMPACTION.
Definition cleanup_policy_from_str (s : string) : option CleanupPolicy :=
  let u := bytes_str (to_uppercase <$> str_bytes s) in
  if decide (u = "DELETE") then Some DELETE
  else if decide (u = "COMPACTION") then Some COMPACTION
  else None.
Definition get_delete_policy (attributes : option (gmap string string)) : outcome CleanupPolicy :=
  match attributes with
  | Some a =>
      match a !! "cleanup.policy"%string with
      | Some value => unwrap (cleanup_policy_from_str value)
      | None => Done DELETE
      end
  | None => Done DELETE
  end.

(** ** The consumers of the log *)

(** A call of the listener: topic, queue, offset after the message, tag code and
    store time. *)
Record arrival := mkArrival {
  ar_topic : string;
  ar_queue_id : Z;
  ar_offset : Z;
  ar_tags_code : Z;
  ar_store_timestamp : Z;
}.

(** [co_arrivals] are the calls of the listener so far, oldest first. *)
Record Consumers := mkConsumers {
  co_flags : Z;
  co_checkpoint : StoreCheckpoint;
  co_queues : ConsumeQueueStore;
  co_index : IndexService;
  co_arrivals : list arrival;
}.
Definition set_co_queues q w :=
  mkConsumers (co_flags w) (co_checkpoint w) q (co_index w) (co_arrivals w).
Definition set_co_checkpoint c w :=
  mkConsumers (co_flags w) c (co_queues w) (co_index w) (co_arrivals w).
Definition add_arrivals a w :=
  mkConsumers (co_flags w) (co_checkpoint w) (co_queues w) (co_index w) (co_arrivals w ++ a).

(** The queues with the store's flags and checkpoint, and back. *)
Definition queues_of (w : Consumers) : ConsumeQueueStore :=
  let s := cqs_shared (co_queues w) in
  set_shared (mkCqStore (co_flags w) (StoreCheckpoint.logics_msg_timestamp (co_checkpoint w))
                (enable_consume_queue_ext s) (slave_or_dledger s)) (co_queues w).
Definition with_queues (q : ConsumeQueueStore) (w : Consumers) : Consumers :=
  mkConsumers (running_flags (cqs_shared q))
    (set_logics_msg_timestamp (ConsumeQueue.logics_msg_timestamp (cqs_shared q)) (co_checkpoint w)) q (co_index w)
    (co_arrivals w).
Definition index_service_of (w : Consumers) : IndexService :=
  set_checkpoint (co_checkpoint w) (set_running_flags (co_flags w) (co_index w)).
Definition with_index (i : IndexService) (w : Consumers) : Consumers :=
  mkConsumers (sv_running_flags i) (sv_checkpoint i) (co_queues w) i (co_arrivals w).

(** What the surroundings contribute to the work of the consumers: the contents
    of created files, the clock and the answers of the file system.  [ce_fuel]
    bounds the loops that look for room in an index file and cut a queue. *)
Record consumer_env := mkConsumerEnv {
  ce_existing : nat → buffer;
  ce_creation : nat → string * buffer;
  ce_disk : nat → bool * Z;
  ce_ext_disk : nat → bool * Z;
  ce_fuel : nat;
}.

Section Clients.
Variable cfg : MessageStoreConfig.
Variable env : consumer_env.

(** [CommitLogDispatcherBuildConsumeQueue] *)
Definition dispatch_to_queues (r : DispatchRequest) (w : Consumers) : outcome Consumers :=
  let* q := build_consume_queue (queue_config cfg) (ce_existing env) r (queues_of w) in
  Done (with_queues q w).
(** [CommitLogDispatcherBuildIndex]; a search for room that does not end is as
    little a return as a panic. *)
Definition dispatch_to_index (r : DispatchRequest) (w : Consumers) : outcome Consumers :=
  if message_index_enable (log_config cfg) then
    let* e := build_index (ce_creation env) (ce_fuel env) r (index_service_of w) in
    match e with Ended i => Done (with_index i w) | _ => Panic end
  else Done w.

(** [CommitLogDispatcherDefault::dispatch] over the dispatchers of the store. *)
Definition dispatcher_vec : list (DispatchRequest → Consumers → outcome Consumers) :=
  [dispatch_to_queues; dispatch_to_index].
Fixpoint run_dispatchers (ds : list (DispatchRequest → Consumers → outcome Consumers))
    (r : DispatchRequest) (w : Consumers) : outcome Consumers :=
  match ds with
  | [] => Done w
  | d :: ds' => let* w := d r w in run_dispatchers ds' r w
  end.
Definition do_dispatch (r : DispatchRequest) (w : Consumers) : outcome Consumers :=
  run_dispatchers dispatcher_vec r w.

(** [on_commit_log_dispatch] of the store. *)
Definition on_commit_log_dispatch (r : DispatchRequest) (dispatch is_recover : bool) (w : Consumers)
  : outcome Consumers := if dispatch && negb is_recover then do_dispatch r w else Done w.

Definition truncate_dirty_queues (offset : Z) (w : Consumers) : outcome (loop_end Consumers) :=
  let* e := truncate_dirty (queue_config cfg) (ce_fuel env) (ce_disk env) offset (queues_of w) in
  match e with
  | Ended q => Done (Ended (with_queues q w))
  | Deadlock => Done Deadlock
  | OutOfFuel => Done OutOfFuel
  end.
Definition destroy_queues (w : Consumers) : outcome Consumers :=
  let* e := cqs_destroy (queue_config cfg) (ce_disk env) (ce_ext_disk env) (queues_of w) in
  match e with Ended q => Done (with_queues q w) | _ => Panic end.

Definition assign_queue_offset_of (m : MessageExtBrokerInner) (w : Consumers)
  : outcome (Consumers * Z) :=
  let e := message_ext_inner m in
  let* (q, o) := cqs_assign_queue_offset (queue_config cfg) (topic (message e)) (queue_id e)
                   (queues_of w) in
  Done (with_queues q w, o).
Definition increase_queue_offset_of (m : MessageExtBrokerInner) (n : Z) (w : Consumers)
  : outcome Consumers :=
  let e := message_ext_inner m in
  let* q := cqs_increase_queue_offset (queue_config cfg) (topic (message e)) (queue_id e) n
              (queues_of w) in
  Done (with_queues q w).

(** The consumers are the client the commit log is written against. *)
Definition store_client : LogClient Consumers :=
  {| lc_dispatch := do_dispatch;
     lc_truncate := truncate_dirty_queues;
     lc_destroy := destroy_queues;
     lc_assign := assign_queue_offset_of;
     lc_increase := increase_queue_offset_of |}.
End Clients.

(** ** The store *)

Record StoreStats := mkStats {
  put_message_failed_times : Z;
  get_message_times_total_found : Z;
  get_message_times_total_miss : Z;
  get_message_transferred_msg_count : Z;
}.
Definition add_put_failed s :=
  mkStats (put_message_failed_times s + 1) (get_message_times_total_found s)
    (get_message_times_total_miss s) (get_message_transferred_msg_count s).
Definition add_get (found : bool) (transferred : Z) s :=
  mkStats (put_message_failed_times s)
    (get_message_times_total_found s + (if found then 1 else 0))
    (get_message_times_total_miss s + (if found then 0 else 1))
    (get_message_transferred_msg_count s + transferred).

Record LocalFileMessageStore := mkStore {
  ms_log : CommitLog;
  ms_consumers : Consumers;
  ms_reput_from : option Z;
  ms_master_flushed_offset : Z;
  ms_broker_init_max_offset : Z;
  ms_shutdown : bool;
  ms_abort_file : bool;
  ms_stats : StoreStats;
}.
Definition set_log l s :=
  mkStore l (ms_consumers s) (ms_reput_from s) (ms_master_flushed_offset s)
    (ms_broker_init_max_offset s) (ms_shutdown s) (ms_abort_file s) (ms_stats s).
Definition set_consumers w s :=
  mkStore (ms_log s) w (ms_reput_from s) (ms_master_flushed_offset s)
    (ms_broker_init_max_offset s) (ms_shutdown s) (ms_abort_file s) (ms_stats s).
Definition set_reput_from o s :=
  mkStore (ms_log s) (ms_consumers s) o (ms_master_flushed_offset s)
    (ms_broker_init_max_offset s) (ms_shutdown s) (ms_abort_file s) (ms_stats s).
Definition set_ms_master_flushed_offset o s :=
  mkStore (ms_log s) (ms_consumers s) (ms_reput_from s) o
    (ms_broker_init_max_offset s) (ms_shutdown s) (ms_abort_file s) (ms_stats s).
Definition set_broker_init_max_offset o s :=
  mkStore (ms_log s) (ms_consumers s) (ms_reput_from s) (ms_master_flushed_offset s) o
    (ms_shutdown s) (ms_abort_file s) (ms_stats s).
Definition set_ms_shutdown b s :=
  mkStore (ms_log s) (ms_consumers s) (ms_reput_from s) (ms_master_flushed_offset s)
    (ms_broker_init_max_offset s) b (ms_abort_file s) (ms_stats s).
Definition set_abort_file b s :=
  mkStore (ms_log s) (ms_consumers s) (ms_reput_from s) (ms_master_flushed_offset s)
    (ms_broker_init_max_offset s) (ms_shutdown s) b (ms_stats s).
Definition set_stats t s :=
  mkStore (ms_log s) (ms_consumers s) (ms_reput_from s) (ms_master_flushed_offset s)
    (ms_broker_init_max_offset s) (ms_shutdown s) (ms_abort_file s) t.

(** The log with the checkpoint of the store, and the confirmed offset it set
    written back. *)
Definition log_of (s : LocalFileMessageStore) : CommitLog :=
  let l := ms_log s in
  mkCommitLog (cl_queue l) (confirm_offset l) (co_checkpoint (ms_consumers s))
    (begin_time_in_lock l) (cl_channels l).
Definition with_log (l : CommitLog) (s : LocalFileMessageStore) : LocalFileMessageStore :=
  set_log l (set_consumers
    (set_co_checkpoint
       (set_confirm_phy_offset (confirm_phy_offset (cl_checkpoint l))
          (co_checkpoint (ms_consumers s))) (ms_consumers s)) s).

(** ** Telling the listener *)

(** The queues a message was dispatched to besides its own, with their offsets
    from [offsets]; an offset that is not a number panics. *)
Fixpoint multi_arrivals (lmq : bool) (r : DispatchRequest) (queues offsets : list string)
  : outcome (list arrival) :=
  match queues, offsets with
  | q :: queues', o :: offsets' =>
      let* o := unwrap (parse_i64 o) in
      let id := if lmq && String.prefix "%LMQ%" q then 0 else dr_queue_id r in
      let* rest := multi_arrivals lmq r queues' offsets' in
      Done (mkArrival q id (as_i64 (o + 1)) (dr_tags_code r) (dr_store_timestamp r) :: rest)
  | _, _ => Done []
  end.

Definition split_comma (s : string) : list string :=
  bytes_str <$> split_byte Byte.x2c (str_bytes s) [].

(** [notify_message_arrive4multi_queue] of the service ([inner = false]) and of
    its inner part: the service splits the queue names twice, where the inner
    part splits the names and the offsets. *)
Definition notify_message_arrive4multi_queue (inner : bool) (cfg : MessageStoreConfig)
    (r : DispatchRequest) : outcome (list arrival) :=
  match dr_properties_map r with
  | None => Done []
  | Some prop =>
      if String.prefix "%RETRY%" (dr_topic r) then Done []
      else
        match prop !! "INNER_MULTI_DISPATCH"%string, prop !! "INNER_MULTI_QUEUE_OFFSET"%string with
        | Some queues, Some offsets =>
            if bool_decide (queues = ""%string) || bool_decide (offsets = ""%string) then Done []
            else
              let qs := split_comma queues in
              let os := split_comma (if inner then offsets else queues) in
              if (length qs =? length os)%nat then multi_arrivals (enable_lmq cfg) r qs os
              else Done []
        | _, _ => Done []
        end
  end.

(** [notify_message_arrive_if_necessary] *)
Definition notify_message_arrive_if_necessary (cfg : MessageStoreConfig) (r : DispatchRequest)
    (w : Consumers) : outcome Consumers :=
  if long_polling_enable cfg && has_listener cfg then
    let w := add_arrivals
      [mkArrival (dr_topic r) (dr_queue_id r) (as_i64 (dr_consume_queue_offset r + 1))
         (dr_tags_code r) (dr_store_timestamp r)] w in
    let* more := notify_message_arrive4multi_queue false cfg r in Done (add_arrivals more w)
  else Done w.

(** ** Putting *)

(** A hook may change the message and may answer in its place. *)
Definition put_hook : Type := MessageExtBrokerInner → MessageExtBrokerInner * option PutMessageResult.
Fixpoint run_hooks (hooks : list put_hook) (m : MessageExtBrokerInner)
  : MessageExtBrokerInner * option PutMessageResult :=
  match hooks with
  | [] => (m, None)
  | h :: hooks' =>
      match h m with
      | (m, Some r) => (m, Some r)
      | (m, None) => run_hooks hooks' m
      end
  end.

Section Put.
Variable crc32fast : buffer → Z.
Variable cfg : MessageStoreConfig.
Variable cenv : consumer_env.

Definition with_cq_type (t : CQType) (env : put_env) : put_env :=
  mkPutEnv (pe_now env) (pe_begin env) (pe_elapsed env) (pe_existing env) (pe_existing_next env) t
    (pe_sync_ok env) (pe_flush_now env) (pe_served_before env) (pe_served env) (pe_timed_out env) (pe_task_failed env).

(** [put_message]: the log reads the queue type of the topic from the same
    table. *)
Definition store_put_message (hooks : list put_hook) (env : put_env) (msg : MessageExtBrokerInner)
    (s : LocalFileMessageStore) : outcome (LocalFileMessageStore * PutMessageResult) :=
  let '(msg, answer) := run_hooks hooks msg in
  match answer with
  | Some r => Done (s, r)
  | None =>
      let e := message_ext_inner msg in
      let attributes := topic_attributes (queue_config cfg) (topic (message e)) in
      let batch := MessageSysFlag.check (sys_flag e) MessageSysFlag.INNER_BATCH_FLAG in
      if bool_decide (is_Some (properties (message e) !! MessageConst.PROPERTY_INNER_NUM)) && negb batch
      then Done (s, new_default MessageIllegal)
      else if batch && negb (is_batch_cq attributes)
      then Done (s, new_default MessageIllegal)
      else
        let* (l, w, r) :=
          put_message (LogClient0 := store_client cfg cenv) crc32fast (log_config cfg)
            (with_cq_type (get_cq_type attributes) env) msg (log_of s) (ms_consumers s) in
        let s := with_log l (set_consumers w s) in
        Done (if is_ok r then s else set_stats (add_put_failed (ms_stats s)) s, r)
  end.

(** The reput service of the store. *)
Definition store_do_reput (delay : DelayLevels) (fuel : nat) (s : LocalFileMessageStore)
  : outcome (loop_end LocalFileMessageStore) :=
  let* from := unwrap (ms_reput_from s) in
  let* e := do_reput (LogClient0 := store_client cfg cenv) crc32fast (log_config cfg) delay
              (read_uncommitted cfg) (notify_message_arrive_in_batch cfg)
              (enable_dledger_commit_log cfg) (notify_message_arrive_if_necessary cfg) fuel from
              (log_of s) (ms_consumers s) in
  match e with
  | Ended (from, l, w) => Done (Ended (set_reput_from (Some from) (with_log l (set_consumers w s))))
  | Deadlock => Done Deadlock
  | OutOfFuel => Done OutOfFuel
  end.
End Put.

(** ** Reading by queue offset *)

Inductive GetMessageStatus :=
| Found | NoMatchedMessage | MessageWasRemoving | OffsetFoundNull | OffsetOverflowBadly
| OffsetOverflowOne | OffsetTooSmall | NoMatchedLogicQueue | NoMessageInQueue | OffsetReset.
#[export] Instance GetMessageStatus_eq_dec : EqDecision GetMessageStatus.
Proof. solve_decision. Defined.

(** The buffers come with the segment of the log they are in. *)
Record GetMessageResult := mkGetResult {
  message_mapped_list : list (nat * SelectMappedBufferResult);
  message_queue_offset : list Z;
  gr_status : option GetMessageStatus;
  next_begin_offset : Z;
  gr_min_offset : Z;
  gr_max_offset : Z;
  buffer_total_size : Z;
  message_count : Z;
  suggest_pulling_from_slave : bool;
  msg_count4_commercial : Z;
  cold_data_sum : Z;
}.
Definition new_get_result : GetMessageResult := mkGetResult [] [] None 0 0 0 0 0 false 0 0.
Definition set_cold_data_sum z r :=
  mkGetResult (message_mapped_list r) (message_queue_offset r) (gr_status r) (next_begin_offset r)
    (gr_min_offset r) (gr_max_offset r) (buffer_total_size r) (message_count r)
    (suggest_pulling_from_slave r) (msg_count4_commercial r) z.
Definition set_suggest_pulling_from_slave b r :=
  mkGetResult (message_mapped_list r) (message_queue_offset r) (gr_status r) (next_begin_offset r)
    (gr_min_offset r) (gr_max_offset r) (buffer_total_size r) (message_count r)
    b (msg_count4_commercial r) (cold_data_sum r).
(** The four setters at the end of a read. *)
Definition finish_result (st : GetMessageStatus) (next low high : Z) (r : GetMessageResult) :=
  mkGetResult (message_mapped_list r) (message_queue_offset r) (Some st) next low high
    (buffer_total_size r) (message_count r) (suggest_pulling_from_slave r)
    (msg_count4_commercial r) (cold_data_sum r).

(** [(size as f64 / 4096.0).ceil()] is exact. *)
Definition COMMERCIAL_SIZE_PER_MSG : Z := 4 * 1024.
Definition commercial_count (sz : Z) : Z := - (- sz / COMMERCIAL_SIZE_PER_MSG).
Definition add_message (b : nat * SelectMappedBufferResult) (queue_offset batch_num : Z)
    (r : GetMessageResult) : GetMessageResult :=
  mkGetResult (message_mapped_list r ++ [b]) (message_queue_offset r ++ [queue_offset])
    (gr_status r) (next_begin_offset r) (gr_min_offset r) (gr_max_offset r)
    (as_i32 (buffer_total_size r + size b.2)) (as_i32 (message_count r + batch_num))
    (suggest_pulling_from_slave r)
    (as_i32 (msg_count4_commercial r + commercial_count (size b.2))) (cold_data_sum r).

(** The trait [MessageFilter]; no queue has an extension unit to show. *)
Record MessageFilter := mkFilter {
  is_matched_by_consume_queue : option Z → bool;
  is_matched_by_commit_log : option buffer → bool;
}.
Definition get_valid_tags_code_as_long (u : CqUnit) : option Z :=
  if is_ext_addr (cu_tags_code u) then None else Some (cu_tags_code u).

Definition next_offset_correction (cfg : MessageStoreConfig) (old_offset new_offset : Z) : Z :=
  if negb (bool_decide (broker_role (log_config cfg) = Slave)) || offset_check_in_slave cfg
  then new_offset else old_offset.

Definition estimate_in_mem_by_commit_offset (cfg : MessageStoreConfig) (offset_py max_offset_py : Z)
  : bool := as_i64 (max_offset_py - offset_py) <=? in_memory cfg.

Definition is_the_batch_full (cfg : MessageStoreConfig)
    (size_py unit_batch_num max_msg_nums max_msg_size buffer_total message_total : Z)
    (is_in_mem : bool) : bool :=
  if (buffer_total =? 0) || (message_total =? 0) then false
  else if max_msg_nums <? as_i32 (message_total + unit_batch_num) then true
  else if max_msg_size <? buffer_total + size_py then true
  else
    let '(max_bytes, max_count) :=
      if is_in_mem
      then (max_transfer_bytes_on_message_in_memory cfg, max_transfer_count_on_message_in_memory cfg)
      else (max_transfer_bytes_on_message_in_disk cfg, max_transfer_count_on_message_in_disk cfg) in
    if max_bytes <? as_u64 (as_i32 (buffer_total + size_py)) then true
    else as_u64 (max_count - 1) <? as_u64 message_total.

(** [is_sys_consumer_group_for_no_cold_read_limit] *)
Definition system_groups : list string :=
  ["DEFAULT_CONSUMER"; "TOOLS_CONSUMER"; "SCHEDULE_CONSUMER"; "FILTERSRV_CONSUMER";
   "__MONITOR_CONSUMER"; "SELF_TEST_C_GROUP"; "CID_ONS-HTTP-PROXY"; "CID_ONSAPI_PERMISSION";
   "CID_ONSAPI_OWNER"; "CID_ONSAPI_PULL"; "CID_RMQ_SYS_TRANS"]%string.
Definition is_sys_consumer_group_for_no_cold_read_limit (group : string) : bool :=
  bool_decide (group ∈ system_groups) || String.prefix "CID_RMQ_SYS_" group.

(** The state of a read. *)
Record get_state := mkGet {
  g_status : GetMessageStatus;
  g_next : Z;
  g_next_file : Z;
  g_pulling : Z;
  g_transferred : Z;
  g_result : GetMessageResult;
  g_log : CommitLog;
}.
Definition set_g_status st g :=
  mkGet st (g_next g) (g_next_file g) (g_pulling g) (g_transferred g) (g_result g) (g_log g).
Definition set_g_next_file f g :=
  mkGet (g_status g) (g_next g) f (g_pulling g) (g_transferred g) (g_result g) (g_log g).
Definition set_g_log l g :=
  mkGet (g_status g) (g_next g) (g_next_file g) (g_pulling g) (g_transferred g) (g_result g) l.
Definition set_g_result r g :=
  mkGet (g_status g) (g_next g) (g_next_file g) (g_pulling g) (g_transferred g) r (g_log g).
(** The status of a message left out, while nothing has been taken. *)
Definition skipped st g :=
  if buffer_total_size (g_result g) =? 0 then set_g_status st g else g.

Section Get.
Variable cfg : MessageStoreConfig.
Variables (group : string) (offset max_msg_nums max_pull_size max_offset_py max_offset : Z).
Variable filter : option MessageFilter.

Definition unit_matches (u : CqUnit) : bool :=
  match filter with
  | Some f => is_matched_by_consume_queue f (get_valid_tags_code_as_long u)
  | None => true
  end.
(** The second filter reads the bytes through [get_buffer]. *)
Definition buffer_matches (i : nat) (b : SelectMappedBufferResult) (l : CommitLog) : outcome bool :=
  match filter with
  | Some f =>
      let* m := unwrap (mapped_files (cl_queue l) !! i) in
      let* d := get_buffer b m in Done (is_matched_by_commit_log f (Some d))
  | None => Done true
  end.

Definition max_filter_size : Z :=
  Z.max (max_filter_message_size cfg) (as_i32 (max_msg_nums * CQ_STORE_UNIT_SIZE)).

(** One unit of the queue: the state after it, and whether to go on.  The
    buffers of messages left out stay held. *)
Definition take_unit (u : CqUnit) (g : get_state) : outcome (get_state * bool) :=
  let r := g_result g in
  let in_mem := estimate_in_mem_by_commit_offset cfg (cu_pos u) max_offset_py in
  if max_filter_size <? as_i64 (as_i64 (cu_queue_offset u - offset) * CQ_STORE_UNIT_SIZE)
  then Done (g, false)
  else if is_the_batch_full cfg (cu_size u) 1 max_msg_nums max_pull_size (buffer_total_size r)
            (message_count r) in_mem
  then Done (g, false)
  else if max_pull_size <=? buffer_total_size r then Done (g, false)
  else
    let g := mkGet (g_status g) (as_i64 (cu_queue_offset u + 1)) (g_next_file g) (cu_pos u)
               (g_transferred g) r (g_log g) in
    if negb (g_next_file g =? i64_MIN) && (cu_pos u <? g_next_file g) then Done (g, true)
    else if negb (unit_matches u) then Done (skipped NoMatchedMessage g, true)
    else
      let* (l, found) := get_message (log_config cfg) (cu_pos u) (cu_size u) (g_log g) in
      let g := set_g_log l g in
      match found with
      | None =>
          let* f := roll_next_file (log_config cfg) (cu_pos u) in
          Done (set_g_next_file f (skipped MessageWasRemoving g), true)
      | Some (i, b) =>
          let g :=
            if cold_data_flow_control_enable cfg
               && negb (is_sys_consumer_group_for_no_cold_read_limit group)
               && negb (is_in_cache b)
            then set_g_result (set_cold_data_sum (as_i64 (cold_data_sum r + cu_size u)) r) g
            else g in
          let* ok := buffer_matches i b l in
          if negb ok then Done (skipped NoMatchedMessage g, true)
          else
            Done (mkGet Found (g_next g) i64_MIN (g_pulling g) (g_transferred g + 1)
                    (add_message (i, b) (as_u64 (cu_queue_offset u)) 1 (g_result g)) (g_log g), true)
      end.

(** The loop over the units of one segment of the queue.  When the units are
    used up the loop goes round without taking anything. *)
Fixpoint get_units (fuel : nat) (c : ConsumeQueue) (it : ConsumeQueueIterator) (g : get_state)
  : outcome (loop_end get_state) :=
  match fuel with
  | O => Done OutOfFuel
  | S fuel' =>
      if max_offset <=? g_next g then Done (Ended g)
      else
        let* (it, u) := iter_next c it in
        match u with
        | None => get_units fuel' c it g
        | Some u =>
            let* (g, more) := take_unit u g in
            if more then get_units fuel' c it g else Done (Ended g)
        end
  end.

(** The loop over segments of the queue, [n] at most; where the queue has none
    for the offset, [roll_next_file] of the queue store is unimplemented. *)
Fixpoint get_files (n fuel : nat) (c : ConsumeQueue) (g : get_state)
  : outcome (loop_end (ConsumeQueue * get_state)) :=
  if (buffer_total_size (g_result g) <=? 0) && (g_next g <? max_offset) then
    match n with
    | O => Done (Ended (c, g))
    | S n' =>
        let* (c, it) := iterate_from (g_next g) c in
        match it with
        | None => Panic
        | Some it =>
            let* e := get_units fuel c it (set_g_next_file i64_MIN g) in
            match e with
            | Ended g => get_files n' fuel c g
            | Deadlock => Done Deadlock
            | OutOfFuel => Done OutOfFuel
            end
        end
    end
  else Done (Ended (c, g)).
End Get.

Definition get_from_queue (cfg : MessageStoreConfig) (fuel : nat) (group : string)
    (offset max_msg_nums max_total_msg_size : Z) (filter : option MessageFilter) (l : CommitLog)
    (c : ConsumeQueue) : outcome (loop_end (ConsumeQueue * CommitLog * GetMessageResult * Z)) :=
  let max_offset_py := cl_max_offset l in
  let low := get_min_offset_in_queue c in
  let high := get_max_offset_in_queue c in
  let answer st next :=
    Done (Ended (c, l, finish_result st (next_offset_correction cfg offset next) low high
                         new_get_result, 0)) in
  if high =? 0 then answer NoMessageInQueue 0
  else if offset <? low then answer OffsetTooSmall low
  else if offset =? high then answer OffsetOverflowOne offset
  else if high <? offset then answer OffsetOverflowBadly high
  else
    let max_pull_size := Z.min (Z.max max_total_msg_size 100) MAX_PULL_MSG_SIZE in
    let* e := get_files cfg group offset max_msg_nums max_pull_size max_offset_py high filter
                (travel_cq_file_num_when_get_message cfg) fuel c
                (mkGet NoMatchedMessage offset i64_MIN 0 0 new_get_result l) in
    match e with
    | Ended (c, g) =>
        if disk_fall_recorded cfg && negb (broker_stats cfg) then Panic
        else
          let diff := as_i64 (max_offset_py - g_pulling g) in
          let r := set_suggest_pulling_from_slave (in_memory cfg <? diff) (g_result g) in
          Done (Ended (c, g_log g, finish_result (g_status g) (g_next g) low high r,
                       g_transferred g))
    | Deadlock => Done Deadlock
    | OutOfFuel => Done OutOfFuel
    end.

(** [get_message_with_size_limit]; the compaction store has no messages. *)
Definition get_message_with_size_limit (cfg : MessageStoreConfig) (fuel : nat) (group topic : string)
    (queue_id offset max_msg_nums max_total_msg_size : Z) (filter : option MessageFilter)
    (s : LocalFileMessageStore)
  : outcome (loop_end (LocalFileMessageStore * option GetMessageResult)) :=
  if ms_shutdown s then Done (Ended (s, None))
  else if negb (is_readable (co_flags (ms_consumers s))) then Done (Ended (s, None))
  else
    let* policy := get_delete_policy (topic_attributes (queue_config cfg) topic) in
    match policy, enable_compaction cfg with
    | COMPACTION, true => Done (Ended (s, None))
    | _, _ =>
        let '(q, slot) := find_or_create_consume_queue (queue_config cfg) topic queue_id
                            (queues_of (ms_consumers s)) in
        let* e := on_simple slot
          (get_from_queue cfg fuel group offset max_msg_nums max_total_msg_size filter (log_of s)) in
        match e with
        | Ended (c, l, r, n) =>
            let q := put_consume_queue topic queue_id (Simple c) q in
            let s := with_log l (set_consumers (with_queues q (ms_consumers s)) s) in
            let found := bool_decide (gr_status r = Some Found) in
            Done (Ended (set_stats (add_get found n (ms_stats s)) s, Some r))
        | Deadlock => Done Deadlock
        | OutOfFuel => Done OutOfFuel
        end
    end.

(** [get_message] of the store. *)
Definition store_get_message (cfg : MessageStoreConfig) (fuel : nat) (group topic : string)
    (queue_id offset max_msg_nums : Z) (filter : option MessageFilter) (s : LocalFileMessageStore)
  : outcome (loop_end (LocalFileMessageStore * option GetMessageResult)) :=
  get_message_with_size_limit cfg fuel group topic queue_id offset max_msg_nums MAX_PULL_MSG_SIZE
    filter s.

Definition get_max_offset_in_queue_committed (cfg : MessageStoreConfig) (topic : string)
    (queue_id : Z) (committed : bool) (s : LocalFileMessageStore)
  : outcome (LocalFileMessageStore * Z) :=
  let w := ms_consumers s in
  if committed then
    let '(q, slot) := find_or_create_consume_queue (queue_config cfg) topic queue_id (queues_of w) in
    on_simple slot (λ c, Done (set_consumers (with_queues q w) s, get_max_offset_in_queue c))
  else Done (s, default 0 (cqs_get_max_offset topic queue_id (queues_of w))).
Definition store_get_max_offset_in_queue (cfg : MessageStoreConfig) (topic : string) (queue_id : Z)
    (s : LocalFileMessageStore) : outcome (LocalFileMessageStore * Z) :=
  get_max_offset_in_queue_committed cfg topic queue_id true s.
Definition store_get_min_offset_in_queue (cfg : MessageStoreConfig) (topic : string) (queue_id : Z)
    (s : LocalFileMessageStore) : outcome (LocalFileMessageStore * Z) :=
  let w := ms_consumers s in
  let* (q, o) := cqs_get_min_offset_in_queue (queue_config cfg) topic queue_id (queues_of w) in
  Done (set_consumers (with_queues q w) s, o).
Definition get_consume_queue (topic : string) (queue_id : Z) (s : LocalFileMessageStore)
  : option queue_slot := slot_at topic queue_id (co_queues (ms_consumers s)).

(** [get] of a queue never finds anything, but holds the segment it looked in. *)
Definition cq_get (index : Z) (c : ConsumeQueue) : outcome (ConsumeQueue * option CqUnit) :=
  let* (c, _) := iterate_from index c in Done (c, None).
Definition check_in_mem_by_consume_offset (cfg : MessageStoreConfig) (topic : string)
    (queue_id consume_offset batch_size : Z) (in_mem : Z → Z → bool) (s : LocalFileMessageStore)
  : outcome (LocalFileMessageStore * bool) :=
  let w := ms_consumers s in
  let '(q, slot) := find_or_create_consume_queue (queue_config cfg) topic queue_id (queues_of w) in
  let* (c, first) := on_simple slot (cq_get consume_offset) in
  let q := put_consume_queue topic queue_id (Simple c) q in
  match first with
  | None => Done (set_consumers (with_queues q w) s, false)
  | Some u =>
      if batch_size <=? 1 then
        Done (set_consumers (with_queues q w) s, in_mem (cu_pos u) (cu_size u))
      else
        let* (c, last) := cq_get (as_i64 (consume_offset + batch_size)) c in
        let q := put_consume_queue topic queue_id (Simple c) q in
        let s := set_consumers (with_queues q w) s in
        match last with
        | None => Done (s, in_mem (cu_pos u) (cu_size u))
        | Some v =>
            Done (s, in_mem (cu_pos u) (as_i32 (as_i64 (cu_pos v - cu_pos u) + cu_size v)))
        end
  end.

(** ** Reading by log offset *)

Section Look.
Variable crc32fast : buffer → Z.
Variable decompression : CompressionType → buffer → outcome buffer.
Variable cfg : StoreConfig.

Definition look_message_by_offset_with_size (commit_log_offset sz : Z) (l : CommitLog)
  : outcome (CommitLog * option MessageExt) :=
  let* (l, found) := get_message cfg commit_log_offset sz l in
  match found ≫= (λ b, bytes b.2) with
  | Some value =>
      let* (m, _) := decode crc32fast decompression true false false false false value in Done (l, m)
  | None => Done (l, None)
  end.

(** The size of the record at an offset is read through [get_buffer]. *)
Definition record_size_at (commit_log_offset : Z) (l : CommitLog) : outcome (CommitLog * option Z) :=
  let* (l, found) := get_message cfg commit_log_offset 4 l in
  match found with
  | Some (i, b) =>
      let* m := unwrap (mapped_files (cl_queue l) !! i) in
      let* d := get_buffer b m in
      let* (sz, _) := get_i32 d in Done (l, Some sz)
  | None => Done (l, None)
  end.
Definition look_message_by_offset (commit_log_offset : Z) (l : CommitLog)
  : outcome (CommitLog * option MessageExt) :=
  let* (l, sz) := record_size_at commit_log_offset l in
  match sz with
  | Some sz => look_message_by_offset_with_size commit_log_offset sz l
  | None => Done (l, None)
  end.
Definition select_one_message_by_offset (commit_log_offset : Z) (l : CommitLog)
  : outcome (CommitLog * option (nat * SelectMappedBufferResult)) :=
  let* (l, sz) := record_size_at commit_log_offset l in
  match sz with
  | Some sz => get_message cfg commit_log_offset sz l
  | None => Done (l, None)
  end.

(** ** Reading by key *)

Record QueryMessageResult := mkQueryResult {
  message_maped_list : list (nat * SelectMappedBufferResult);
  index_last_update_timestamp : Z;
  index_last_update_phyoffset : Z;
  query_buffer_total_size : Z;
}.
Definition query_add_message (b : nat * SelectMappedBufferResult) (r : QueryMessageResult)
  : QueryMessageResult :=
  mkQueryResult (message_maped_list r ++ [b]) (index_last_update_timestamp r)
    (index_last_update_phyoffset r) (as_i32 (query_buffer_total_size r + size b.2)).

(** The messages at the offsets: each is looked up, and then the rest of its
    segment is added to the result.  [first] is the store time of the first. *)
Fixpoint query_offsets (offsets : list Z) (is_first : bool) (time : Z) (r : QueryMessageResult)
    (l : CommitLog) : outcome (CommitLog * QueryMessageResult * Z) :=
  match offsets with
  | [] => Done (l, r, time)
  | o :: offsets' =>
      let* (l, m) := look_message_by_offset o l in
      let* time := if is_first then let* m := unwrap m in Done (store_timestamp m) else Done time in
      let* (l, found) := get_data_with_option cfg o false l in
      let r := match found with Some b => query_add_message b r | None => r end in
      query_offsets offsets' false time r l
  end.

(** The rounds of [query_message]: every round asks the index the same. *)
Fixpoint query_rounds (n fuel : nat) (topic key : string) (max_num begin end_ time : Z)
    (r : QueryMessageResult) (l : CommitLog) (i : IndexService)
  : outcome (loop_end (CommitLog * IndexService * QueryMessageResult)) :=
  match n with
  | O => Done (Ended (l, i, r))
  | S n' =>
      let* e := query_offset_of_key fuel topic key max_num begin end_ i in
      match e with
      | Ended (i, (offsets, t, o)) =>
          match offsets with
          | [] => Done (Ended (l, i, r))
          | _ =>
              let r := mkQueryResult (message_maped_list r) t o (query_buffer_total_size r) in
              let* (l, r, time) := query_offsets (merge_sort Z.le offsets) true time r l in
              if 0 <? query_buffer_total_size r then Done (Ended (l, i, r))
              else if time <? begin then Done (Ended (l, i, r))
              else query_rounds n' fuel topic key max_num begin end_ time r l i
          end
      | Deadlock => Done Deadlock
      | OutOfFuel => Done OutOfFuel
      end
  end.
Definition query_message (fuel : nat) (topic key : string) (max_num begin end_ : Z)
    (s : LocalFileMessageStore)
  : outcome (loop_end (LocalFileMessageStore * option QueryMessageResult)) :=
  let* e := query_rounds 2 fuel topic key max_num begin end_ end_ (mkQueryResult [] 0 0 0) (log_of s)
              (index_service_of (ms_consumers s)) in
  match e with
  | Ended (l, i, r) =>
      Done (Ended (with_log l (set_consumers (with_index i (ms_consumers s)) s), Some r))
  | Deadlock => Done Deadlock
  | OutOfFuel => Done OutOfFuel
  end.
End Look.

Definition get_commit_log_data (cfg : StoreConfig) (offset : Z) (s : LocalFileMessageStore)
  : outcome (LocalFileMessageStore * option (nat * SelectMappedBufferResult)) :=
  if ms_shutdown s then Done (s, None)
  else let* (l, r) := cl_get_data cfg offset (log_of s) in Done (with_log l s, r).

(** The offset lies [position] bytes into the first record: 20 more for an IPv6
    address of the broker. *)
Definition get_earliest_message_time_store (cfg : StoreConfig) (broker_is_ipv6 : option bool)
    (s : LocalFileMessageStore) : outcome (LocalFileMessageStore * Z) :=
  let* low := cl_min_offset cfg (log_of s) in
  let* v6 := unwrap broker_is_ipv6 in
  let sz := if v6 then MESSAGE_STORE_TIMESTAMP_POSITION + 20 else MESSAGE_STORE_TIMESTAMP_POSITION + 8 in
  let* (l, t) := pickup_store_timestamp cfg low sz (log_of s) in Done (with_log l s, t).

Definition is_os_page_cache_busy (cfg : MessageStoreConfig) (now : Z) (s : LocalFileMessageStore)
  : bool :=
  let diff := as_u64 (now - begin_time_in_lock (ms_log s)) in
  (diff <? 10000000) && (os_page_cache_busy_timeout_mills cfg <? diff).

(** ** Deleting topics *)

(** The queues of one topic: destroyed, and their offsets forgotten. *)
Fixpoint destroy_topic_queues (cfg : CqsConfig) (env : consumer_env) (topic : string)
    (qs : list (Z * queue_slot)) (q : ConsumeQueueStore) : outcome ConsumeQueueStore :=
  match qs with
  | [] => Done q
  | (id, slot) :: qs' =>
      let* (t, i) := slot_name slot in
      let* q := destroy_one_queue cfg (ce_disk env) (ce_ext_disk env) t i q in
      destroy_topic_queues cfg env topic qs' (remove_topic_queue_table topic id q)
  end.
Fixpoint delete_topics (cfg : MessageStoreConfig) (env : consumer_env) (topics : list string)
    (w : Consumers) : outcome (Consumers * Z) :=
  match topics with
  | [] => Done (w, 0)
  | topic :: topics' =>
      match find_consume_queue_map topic (queues_of w) with
      | None => delete_topics cfg env topics' w
      | Some m =>
          let* q := destroy_topic_queues (queue_config cfg) env topic (map_to_list m) (queues_of w) in
          let q := set_table (delete topic (consume_queue_table q)) q in
          if auto_delete_unused_stats cfg && negb (broker_stats cfg) then Panic
          else
            let* (w, n) := delete_topics cfg env topics' (with_queues q w) in
            Done (w, as_i32 (1 + n))
      end
  end.

(** ** The life of the store *)

(** What the directories hold when the store is loaded. *)
Record store_dirs := mkDirs {
  sd_log : option (list (option dir_entry));
  sd_queues : option (option (list topic_dir_entry));
  sd_batch_queues : option (option (list topic_dir_entry));
  sd_index : option (list dir_entry);
}.

Section Life.
Variable crc32fast : buffer → Z.
Variable cfg : MessageStoreConfig.
Variable env : consumer_env.
Variable delay : DelayLevels.
Variable log_disk : nat → bool * Z.

Definition is_recover_concurrently : bool :=
  recover_concurrently_enabled cfg && enable_rocksdb_store (log_config cfg).

(** [recover_consume_queue] *)
Definition recover_consume_queue (w : Consumers) : outcome (loop_end Consumers) :=
  if is_recover_concurrently
  then Done (Ended (with_queues (recover_concurrently (ce_disk env) (queues_of w)).1 w))
  else
    let* e := cqs_recover (queue_config cfg) (ce_disk env) (queues_of w) in
    match e with
    | Ended q => Done (Ended (with_queues q w))
    | Deadlock => Done Deadlock
    | OutOfFuel => Done OutOfFuel
    end.

(** [recover_topic_queue_table] *)
Definition recover_topic_queue_table (s : LocalFileMessageStore)
  : outcome (loop_end LocalFileMessageStore) :=
  let* low := cl_min_offset (log_config cfg) (log_of s) in
  let* e := recover_offset_table (queue_config cfg) (ce_fuel env) low (queues_of (ms_consumers s)) in
  match e with
  | Ended q => Done (Ended (set_consumers (with_queues q (ms_consumers s)) s))
  | Deadlock => Done Deadlock
  | OutOfFuel => Done OutOfFuel
  end.

(** [recover] *)
Definition store_recover (last_exit_ok : bool) (s : LocalFileMessageStore)
  : outcome (loop_end LocalFileMessageStore) :=
  let* e := recover_consume_queue (ms_consumers s) in
  match e with
  | Ended w =>
      let* high := get_max_phy_offset_in_consume_queue_global (queues_of w) in
      let s := set_consumers w s in
      let* e :=
        (if last_exit_ok
         then recover_normally (LogClient0 := store_client cfg env) crc32fast (log_config cfg) delay
                log_disk high (log_of s) w
         else recover_abnormally (LogClient0 := store_client cfg env) crc32fast (log_config cfg)
                delay log_disk high (log_of s) w) in
      match e with
      | Ended (l, w) => recover_topic_queue_table (with_log l (set_consumers w s))
      | Deadlock => Done Deadlock
      | OutOfFuel => Done OutOfFuel
      end
  | Deadlock => Done Deadlock
  | OutOfFuel => Done OutOfFuel
  end.

(** [load]; the compaction service is never made. *)
Definition store_load (d : store_dirs) (s : LocalFileMessageStore)
  : outcome (loop_end (LocalFileMessageStore * bool)) :=
  let last_exit_ok := negb (ms_abort_file s) in
  let* (l, _, ok) := cl_load (sd_log d) (log_of s) in
  let s := with_log l s in
  if negb ok then Done (Ended (s, false))
  else
    let* (q, ok) := cqs_load (queue_config cfg) (sd_queues d) (sd_batch_queues d)
                      (queues_of (ms_consumers s)) in
    let s := set_consumers (with_queues q (ms_consumers s)) s in
    if enable_compaction cfg then Panic
    else
      let finish s result :=
        Done (Ended (set_broker_init_max_offset (cl_max_offset (ms_log s)) s, result)) in
      if negb ok then finish s false
      else
        let cp := co_checkpoint (ms_consumers s) in
        let s := set_ms_master_flushed_offset (as_i64 (StoreCheckpoint.master_flushed_offset cp)) s in
        let s := with_log (set_confirm_offset (as_i64 (confirm_phy_offset cp)) (log_of s)) s in
        let* (i, _) := service_load last_exit_ok (sd_index d) (index_service_of (ms_consumers s)) in
        let s := set_consumers (with_index i (ms_consumers s)) s in
        let* e := store_recover last_exit_ok s in
        match e with
        | Ended s => finish s true
        | Deadlock => Done Deadlock
        | OutOfFuel => Done OutOfFuel
        end.

(** [start]: the service that dispatches begins at the confirmed end of the
    log. *)
Definition store_start (s : LocalFileMessageStore) : outcome LocalFileMessageStore :=
  let* from := get_confirm_offset (log_config cfg) (log_of s) in
  let s := set_log (cl_start (log_config cfg) (ms_log s)) s in
  Done (set_ms_shutdown false (set_abort_file true (set_reput_from (Some from) s))).

(** [shutdown]: waiting for the dispatching service changes nothing; the service
    must have been started. *)
Definition store_shutdown (sync_ok : nat → bool) (now : Z) (s : LocalFileMessageStore)
  : outcome (locked LocalFileMessageStore) :=
  if ms_shutdown s then Done (Returned s)
  else
    let s := set_ms_shutdown true s in
    let* _ := unwrap (ms_reput_from s) in
    let* (i, _) := service_shutdown sync_ok now (index_service_of (ms_consumers s)) in
    let w := with_index i (ms_consumers s) in
    match flush_checkpoint (co_checkpoint w) with
    | Blocked => Done Blocked
    | Returned (c, _) =>
        let s := set_consumers (set_co_checkpoint c w) s in
        Done (Returned (if is_writeable (co_flags w) then set_abort_file false s else s))
    end.

(** [destroy]: the commit log's is unimplemented and does nothing; the
    checkpoint file is removed but not forgotten. *)
Definition store_destroy (remove_ok : nat → bool) (now : Z) (s : LocalFileMessageStore)
  : outcome LocalFileMessageStore :=
  let* w := destroy_queues cfg env (ms_consumers s) in
  let '(i, _) := service_destroy remove_ok now (index_service_of w) in
  Done (set_abort_file false (set_consumers (with_index i w) s)).

(** [check_self] *)
Definition store_check_self (s : LocalFileMessageStore) : outcome (locked (list (string * string))) :=
  let wrong := check_self (cl_queue (ms_log s)) in
  let* r := cqs_check_self (co_queues (ms_consumers s)) in
  match r with Returned _ => Done (Returned wrong) | Blocked => Done Blocked end.
End Life.
