(* ===== verification/StoreReads.v ===== *)
(** * StoreReads: what reading from the store gives

    The theorems about [get_message] of [MessageStore]: a read by queue offset
    returns the longest run of messages the limits allow, and the loop that does
    not end at the end of a segment of the queue. *)

From stdpp Require Import base gmap list strings.
From coqutil Require Import Byte.
From Stdlib Require Import ZArith Lia.
From S2P Require Import Prelude Bytes Utf8 Message Properties MessageId MessageDecoder MessageCodec MessageUtils.
From S2P Require Import FileName ReferenceResource RunningFlags MappedFile MessageExtEncoder AppendCallback MappedFileQueue.
From S2P Require Import DispatchRequest ConsumeQueue StoreCheckpoint IndexFile IndexService QueueOffsets CheckMessage ConsumeQueueStore CommitLog CommitLogRecovery CommitLogPut Reput MessageStore.
Open Scope Z_scope.
Open Scope rmq_scope.

(** ** Reading records of the log *)

(** Every segment can be held [n] times more. *)
Definition log_slack (n : nat) (l : CommitLog) : Prop :=
  Forall (λ m, ∃ h, live h (reference_resource m) ∧ Z.of_nat (h + n) < 2 ^ 62)
    (mapped_files (cl_queue l)).

(** The segments hold the bytes [bs]. *)
Definition log_keeps (l : CommitLog) (bs : list buffer) : Prop :=
  queue_ok (cl_queue l) ∧ Forall2 (λ m b, log m = b) (mapped_files (cl_queue l)) bs.

Lemma holds_keeps (l : CommitLog) (bs : list buffer) (n : nat) :
  log_holds l bs → Z.of_nat n ≤ 2 ^ 61 → log_keeps l bs ∧ log_slack n l.
Proof.
  intros [Hq Hlive Hlogs _] Hn. split; [done |]. eapply Forall_impl; [exact Hlive |].
  intros m (h & Hl & Hh). exists h. split; [done | lia].
Qed.

Lemma cl_max_set (l : CommitLog) (i : nat) (m m' : DefaultMappedFile) :
  mapped_files (cl_queue l) !! i = Some m → same_file m m' →
  cl_max_offset (set_segment i m' l) = cl_max_offset l.
Proof.
  intros Hm (Hf & _ & _ & Hw & _). unfold cl_max_offset, get_max_offset. cbn.
  rewrite !last_lookup, length_insert.
  destruct (decide (i = pred (length (mapped_files (cl_queue l))))) as [Hi | Hi].
  - rewrite <- Hi, list_lookup_insert_eq by (by eapply lookup_lt_Some).
    rewrite Hm. unfold get_read_position. by rewrite Hf, Hw.
  - by rewrite list_lookup_insert_ne by done.
Qed.

(** A window of what a segment holds. *)
Lemma select_window (m : DefaultMappedFile) (h p sz : nat) :
  wf_mf m → live h (reference_resource m) → Z.of_nat h < 2 ^ 62 →
  (p + sz ≤ length (log m))%nat →
  ∃ m', select_mapped_buffer (Z.of_nat p) (Z.of_nat sz) m =
    Done (m', Some (mkSelect (file_from_offset m + Z.of_nat p) (Z.of_nat sz)
                (Some (slice (log m) p (p + sz))) true)) ∧ same_file m m' ∧
    live (S h) (reference_resource m').
Proof.
  intros Hwf Hlive Hh Hin. pose proof (log_length m Hwf) as Hll.
  destruct (hold_live h (reference_resource m)) as [Hl Hb]; [lia | done |].
  unfold select_mapped_buffer, get_read_position, mf_hold.
  pose proof (mf_mem _ Hwf) as Hmem. pose proof (mf_size _ Hwf). pose proof (mf_from _ Hwf).
  pose proof (mf_pos _ Hwf). unfold i32_MAX, i64_MAX in *.
  rewrite as_i32_id by in_range. rewrite (proj2 (Z.leb_le _ _)) by lia.
  destruct (hold (reference_resource m)) as [r b]. cbn in Hb, Hl. subst b.
  cbn [mmapped_file count_access set_reference]. rewrite !as_usize_id by in_range.
  rewrite (proj2 (Z.leb_le _ _)), (proj2 (Z.leb_le _ (Z.of_nat (length _)))) by lia. cbn [andb].
  exists (count_access (set_reference r m)). split; [| by split].
  cbn. rewrite (as_u64_id (Z.of_nat p)), as_u64_id by in_range.
  rewrite <- Nat2Z.inj_add, !Nat2Z.id. by rewrite slice_log by lia.
Qed.

Lemma get_message_holds (cfg : StoreConfig) (l : CommitLog) (bs : list buffer) (i n p sz : nat)
    (b : buffer) :
  log_keeps l bs → mapped_file_size_commit_log cfg = mapped_file_size (cl_queue l) →
  log_slack (S n) l → bs !! i = Some b → (p + sz ≤ length b)%nat → (0 < sz)%nat →
  let from := seg_from l i + Z.of_nat p in
  ∃ l', get_message cfg from (Z.of_nat sz) l =
      Done (l', Some (i, mkSelect from (Z.of_nat sz) (Some (slice b p (p + sz))) true)) ∧
    log_keeps l' bs ∧ log_slack n l' ∧ seg_from l' = seg_from l ∧
    cl_max_offset l' = cl_max_offset l ∧
    mapped_file_size (cl_queue l') = mapped_file_size (cl_queue l).
Proof.
  intros [Hq Hlogs] Hcfg Hsl Hb Hin Hpos from.
  destruct (Forall2_lookup_r _ _ _ _ _ Hlogs Hb) as (m & Hm & Hlog).
  pose proof (ok_lookup _ Hq _ _ Hm) as (Hwf & Hs & Hf & H0 & H1).
  pose proof (log_length m Hwf) as Hw. pose proof (mf_pos _ Hwf). rewrite Hlog in Hw.
  pose proof (q_size _ Hq) as Hsz. unfold i64_MAX, i32_MAX in *.
  assert (Hfrom : seg_from l i = file_from_offset m) by (unfold seg_from; lia).
  unfold get_message.
  rewrite (find_in _ Hq from _ i m Hm) by (unfold from; lia). cbn [obind]. rewrite Hm.
  cbn [unwrap obind]. rewrite Hcfg, (sz_i64 _ Hq), (proj2 (Z.eqb_neq _ _)) by lia.
  rewrite (rem_in_segment _ i m from Hq Hm) by (unfold from; lia).
  replace (from - file_from_offset m) with (Z.of_nat p) by (unfold from; lia).
  rewrite as_i32_id by in_range.
  destruct (Forall_lookup_1 _ _ _ _ Hsl Hm) as (h & Hlive & Hh61).
  destruct (select_window m h p sz Hwf Hlive) as (m' & -> & Hsame & Hlive'); [lia | by rewrite Hlog |].
  cbn [obind]. rewrite <- Hfrom, Hlog. fold from. eexists. split; [reflexivity |].
  pose proof (same_file_wf _ _ Hwf Hsame) as Hwf'. pose proof Hsame as (Hf' & Hs' & Hmem & Hwr & _).
  destruct (queue_ok_insert _ i m m' Hq Hm Hwf' Hs' Hf') as [Hq' Hbase].
  split_and!.
  - split; [done |]. cbn. rewrite <- (list_insert_id _ _ _ Hb). apply Forall2_insert; [done |].
    unfold log in *. by rewrite Hmem, Hwr.
  - unfold log_slack. cbn. apply Forall_insert.
    + eapply Forall_impl; [exact Hsl |]. intros x (hx & ? & ?). exists hx. split; [done | lia].
    + exists (S h). split; [done | lia].
  - unfold seg_from. cbn. by rewrite Hbase.
  - by apply (cl_max_set l i m).
  - done.
Qed.

(** [d] is what the log holds at the place [u] names. *)
Definition unit_reads (from : nat → Z) (bs : list buffer) (e : unit_data * buffer) : Prop :=
  ∃ i b p, bs !! i = Some b ∧ u_offset e.1 = from i + Z.of_nat p ∧
    u_size e.1 = Z.of_nat (length e.2) ∧ (0 < length e.2)%nat ∧
    (p + length e.2 ≤ length b)%nat ∧ slice b p (p + length e.2) = e.2.

(** ** Reading units of the first segment of a queue *)

(** The first segment of the queue holds [us], and [b] is what the iterator from
    queue offset [o] on reads. *)
Record iterating (c : ConsumeQueue) (o : nat) (us : list unit_data) (b : SelectMappedBufferResult)
  : Prop := {
  it_file : ∃ m, mapped_files (cq_queue c) !! 0%nat = Some m ∧ wf_mf m ∧ log m = enc us;
  it_start : start_offset b = 20 * Z.of_nat o;
  it_size : size b = 20 * Z.of_nat (length us - o);
  it_max : 20 * Z.of_nat (length us) ≤ i32_MAX;
  it_ext : Forall (λ u, is_ext_addr (u_tags u) = false) us;
  it_ok : Forall unit_ok us;
}.

Definition cq_unit (n : nat) (u : unit_data) : CqUnit :=
  mkCqUnit (Z.of_nat n) (u_size u) (u_offset u) (u_tags u).

Lemma iter_next_unit (c : ConsumeQueue) (o j : nat) (us : list unit_data)
    (b : SelectMappedBufferResult) (u : unit_data) :
  iterating c o us b → us !! (o + j)%nat = Some u →
  iter_next c (mkIter (Some (0%nat, b)) (Z.of_nat j)) =
  Done (mkIter (Some (0%nat, b)) (Z.of_nat (S j)), Some (cq_unit (o + j) u)).
Proof.
  intros [(m & Hm & Hwf & Hlog) Hst Hsz Hmax Hext Hok] Hu.
  pose proof (lookup_lt_Some _ _ _ Hu) as Hlt. unfold i32_MAX in *.
  assert (Hw : wrote_position m = 20 * Z.of_nat (length us))
    by (rewrite <- log_length, Hlog, enc_length by done; lia).
  pose proof (mf_mem _ Hwf). pose proof (mf_pos _ Hwf).
  unfold iter_next, CQ_STORE_UNIT_SIZE. cbn [smbr counter].
  rewrite (as_i32_id (Z.of_nat j * 20)) by in_range.
  rewrite (proj2 (Z.leb_gt _ _)) by lia. rewrite Hm. cbn [unwrap obind].
  rewrite (as_usize_id (start_offset b)), (as_usize_id (Z.of_nat j * 20)) by in_range.
  rewrite (as_usize_id (start_offset b + _)), (as_usize_id (_ + _ + 20)) by in_range.
  rewrite (as_i32_id (Z.of_nat j + 1)) by in_range.
  rewrite (proj2 (Z.leb_le (start_offset b + _) _)), (proj2 (Z.leb_le _ (Z.of_nat (length _)))) by lia.
  cbn [andb negb].
  assert (Hsl : slice (mmapped_file m) (Z.to_nat (start_offset b + Z.of_nat j * 20))
    (Z.to_nat (start_offset b + Z.of_nat j * 20 + 20)) = unit_bytes u).
  { rewrite slice_log, Hlog by lia. rewrite <- (app_nil_r (enc us)).
    replace (Z.to_nat (start_offset b + Z.of_nat j * 20)) with (20 * (o + j))%nat by lia.
    replace (Z.to_nat (start_offset b + Z.of_nat j * 20 + 20)) with (20 * (o + j) + 20)%nat by lia.
    by apply slice_unit. }
  rewrite Hsl, <- (app_nil_r (unit_bytes u)), read_unit_bytes
    by (by apply (Forall_lookup_1 _ _ _ _ Hok Hu)).
  cbn [obind cu_tags_code]. rewrite (Forall_lookup_1 _ _ _ _ Hext Hu). cbn [andb].
  unfold rdiv, cq_unit. rewrite as_i64_id by in_range. rewrite Z.quot_div_nonneg by lia.
  replace (start_offset b + Z.of_nat j * 20) with (Z.of_nat (o + j) * 20) by lia.
  rewrite Z.div_mul by lia. repeat f_equal. lia.
Qed.

(** At the end of the segment the iterator has no unit, and stays there. *)
Lemma iter_next_end (c : ConsumeQueue) (o j : nat) (us : list unit_data)
    (b : SelectMappedBufferResult) :
  iterating c o us b → (o + j = length us)%nat →
  iter_next c (mkIter (Some (0%nat, b)) (Z.of_nat j)) = Done (mkIter (Some (0%nat, b)) (Z.of_nat j), None).
Proof.
  intros [_ Hst Hsz Hmax _ _] Hj. unfold i32_MAX in *. unfold iter_next, CQ_STORE_UNIT_SIZE.
  cbn [smbr counter]. rewrite as_i32_id by in_range. by rewrite (proj2 (Z.leb_le _ _)) by lia.
Qed.

(** ** The limits of a read *)

Section Limits.
Variable cfg : MessageStoreConfig.
Variables (max_msg_nums max_pull_size max_offset_py : Z).

(** Whether a message is added to [n] messages of [tot] bytes: the first always
    is, and then the number and the bytes have their bounds, those of memory or
    of disk by how far behind the end of the log the message is. *)
Definition fits (n tot : Z) (u : unit_data) : bool :=
  let near := max_offset_py - u_offset u <=? in_memory cfg in
  let max_bytes := if near then max_transfer_bytes_on_message_in_memory cfg
                   else max_transfer_bytes_on_message_in_disk cfg in
  let max_count := if near then max_transfer_count_on_message_in_memory cfg
                   else max_transfer_count_on_message_in_disk cfg in
  (n =? 0) || ((n <? max_msg_nums) && (n <? max_count) && (tot + u_size u <=? max_pull_size)
               && (tot + u_size u <=? max_bytes)).

(** The longest run of messages that fit. *)
Fixpoint batch {A} (n tot : Z) (us : list (unit_data * A)) : list (unit_data * A) :=
  match us with
  | [] => []
  | e :: us' => if fits n tot e.1 then e :: batch (n + 1) (tot + u_size e.1) us' else []
  end.

Lemma batch_prefix {A} (n tot : Z) (us : list (unit_data * A)) :
  batch n tot us = take (length (batch n tot us)) us.
Proof.
  revert n tot. induction us as [| e us IH]; intros n tot; [done |]. cbn.
  destruct (fits n tot e.1); [| done]. cbn. by rewrite <- IH.
Qed.

Record limits_ok : Prop := {
  lim_filter : 0 ≤ max_filter_message_size cfg ≤ i32_MAX;
  lim_nums : 0 < max_msg_nums ≤ 100000000;
  lim_pull : 100 ≤ max_pull_size ≤ MAX_PULL_MSG_SIZE;
  lim_mem : 0 < max_transfer_count_on_message_in_memory cfg < 2 ^ 63 ∧
            0 ≤ max_transfer_bytes_on_message_in_memory cfg < 2 ^ 63;
  lim_disk : 0 < max_transfer_count_on_message_in_disk cfg < 2 ^ 63 ∧
             0 ≤ max_transfer_bytes_on_message_in_disk cfg < 2 ^ 63;
  lim_log : 0 ≤ max_offset_py ≤ i64_MAX;
}.
Hypothesis Hlim : limits_ok.

(** The test of the code is the bound above. *)
Lemma batch_full_fits (n tot : Z) (u : unit_data) :
  0 ≤ n < i32_MAX → 0 ≤ tot → (0 < n → 0 < tot ≤ i32_MAX) → (n = 0 → tot = 0) →
  0 < u_size u ≤ i32_MAX → 0 ≤ u_offset u ≤ max_offset_py →
  is_the_batch_full cfg (u_size u) 1 max_msg_nums max_pull_size tot n
    (estimate_in_mem_by_commit_offset cfg (u_offset u) max_offset_py) = false ∧
  (max_pull_size <=? tot) = false ↔ fits n tot u = true.
Proof using Hlim.
  intros Hn Ht Hpos Hz Hsz Hoff. destruct Hlim as [_ Hnums Hpull [Hm1 Hm2] [Hd1 Hd2] Hlog].
  unfold is_the_batch_full, fits, estimate_in_mem_by_commit_offset, MAX_PULL_MSG_SIZE, i32_MAX, i64_MAX in *.
  rewrite (as_i64_id (max_offset_py - _)) by in_range.
  destruct (Z.eqb_spec n 0) as [-> | Hn0].
  { rewrite Hz by done. cbn. rewrite (proj2 (Z.leb_gt _ _)) by lia. done. }
  rewrite (proj2 (Z.eqb_neq tot 0)) by lia. cbn [orb].
  set (near := _ <=? in_memory cfg).
  destruct (Z.ltb_spec n max_msg_nums) as [H1 | H1]; cycle 1.
  { rewrite (as_i32_id (n + 1)) by in_range.
    rewrite (proj2 (Z.ltb_lt _ _)) by lia. cbn. naive_solver. }
  rewrite (as_i32_id (n + 1)) by in_range. rewrite (proj2 (Z.ltb_ge _ _)) by lia. cbn [andb].
  destruct (Z.ltb_spec max_pull_size (tot + u_size u)) as [H2 | H2].
  { rewrite (proj2 (Z.leb_gt (tot + u_size u) max_pull_size)) by lia.
    rewrite andb_false_r. cbn. naive_solver. }
  rewrite (proj2 (Z.leb_le (tot + u_size u) max_pull_size)) by lia.
  rewrite (as_i32_id (tot + u_size u)), (as_u64_id (tot + u_size u)), (as_u64_id n) by in_range.
  rewrite (proj2 (Z.leb_gt max_pull_size tot)) by lia.
  destruct near; rewrite (as_u64_id (_ - 1)) by in_range; rewrite andb_true_r;
    repeat match goal with
    | |- context [?a <? ?b] => destruct (Z.ltb_spec a b)
    | |- context [?a <=? ?b] => destruct (Z.leb_spec a b)
    end; cbn; try lia; naive_solver.
Qed.
End Limits.

(** ** A read *)

Definition total (ts : list (unit_data * buffer)) : Z := foldr (λ e a, u_size e.1 + a) 0 ts.
Lemma total_snoc (ts : list (unit_data * buffer)) (e : unit_data * buffer) :
  total (ts ++ [e]) = total ts + u_size e.1.
Proof. unfold total. induction ts as [| x ts IH]; cbn in *; lia. Qed.

(** The state of a read from queue offset [o] that has taken [ts]. *)
Record got (o : nat) (ts : list (unit_data * buffer)) (g : get_state) : Prop := {
  got_next : g_next g = Z.of_nat (o + length ts);
  got_file : g_next_file g = i64_MIN;
  got_status : g_status g = match ts with [] => NoMatchedMessage | _ => Found end;
  got_transferred : g_transferred g = Z.of_nat (length ts);
  got_bytes : bytes ∘ snd <$> message_mapped_list (g_result g) = Some ∘ snd <$> ts;
  got_offsets : message_queue_offset (g_result g) = seqZ (Z.of_nat o) (Z.of_nat (length ts));
  got_total : buffer_total_size (g_result g) = total ts;
  got_count : message_count (g_result g) = Z.of_nat (length ts);
  got_range : 0 ≤ total ts ≤ i32_MAX ∧ (ts ≠ [] → 0 < total ts);
}.

Section Reading.
Variable cfg : MessageStoreConfig.
Variables (group : string) (max_msg_nums max_pull_size max_offset_py max_offset : Z).
Variables (o : nat) (us : list unit_data) (c : ConsumeQueue) (b : SelectMappedBufferResult).
Variables (bs : list buffer) (from : nat → Z).
Hypothesis Hlim : limits_ok cfg max_msg_nums max_pull_size max_offset_py.
Hypothesis Hit : iterating c o us b.
Hypothesis Hmax : Z.of_nat (length us) ≤ max_offset.
Local Notation take_one := (take_unit cfg group (Z.of_nat o) max_msg_nums max_pull_size max_offset_py None).
Local Notation fits := (fits cfg max_msg_nums max_pull_size max_offset_py).
Local Notation batch := (batch cfg max_msg_nums max_pull_size max_offset_py).
Local Notation units := (get_units cfg group (Z.of_nat o) max_msg_nums max_pull_size max_offset_py max_offset None).

(** What the log must be for [n] more reads. *)
Definition log_ready (n : nat) (l : CommitLog) : Prop :=
  log_keeps l bs ∧ mapped_file_size_commit_log (log_config cfg) = mapped_file_size (cl_queue l) ∧
  log_slack n l ∧ seg_from l = from ∧ cl_max_offset l = max_offset_py.

Definition entry_ok (e : unit_data * buffer) : Prop :=
  unit_reads from bs e ∧ u_size e.1 ≤ i32_MAX ∧ 0 ≤ u_offset e.1 ≤ max_offset_py.

(** The distance test never stops a read before the number of messages does. *)
Lemma distance_ok (ts : list (unit_data * buffer)) (tot : Z) (u : unit_data) :
  (o + length ts < length us)%nat → fits (Z.of_nat (length ts)) tot u = true →
  (max_filter_size cfg max_msg_nums <?
    as_i64 (as_i64 (Z.of_nat (o + length ts) - Z.of_nat o) * CQ_STORE_UNIT_SIZE)) = false.
Proof using Hlim Hit.
  intros Hlt Hf. pose proof (it_max _ _ _ _ Hit). destruct Hlim as [Hfil Hnums _ _ _ _].
  unfold max_filter_size, CQ_STORE_UNIT_SIZE, i32_MAX in *.
  rewrite (as_i32_id (_ * 20)) by in_range. rewrite (as_i64_id (_ - _)), as_i64_id by in_range.
  apply Z.ltb_ge. unfold StoreReads.fits in Hf.
  destruct (Z.eqb_spec (Z.of_nat (length ts)) 0); [lia |]. cbn in Hf.
  apply andb_prop in Hf as [[[Hf _]%andb_prop _]%andb_prop _]. lia.
Qed.

Lemma take_fits (n : nat) (ts : list (unit_data * buffer)) (e : unit_data * buffer) (g : get_state) :
  got o ts g → log_ready (S n) (g_log g) → entry_ok e → (o + length ts < length us)%nat →
  fits (Z.of_nat (length ts)) (total ts) e.1 = true →
  ∃ g', take_one (cq_unit (o + length ts) e.1) g = Done (g', true) ∧ got o (ts ++ [e]) g' ∧
    log_ready n (g_log g').
Proof using Hlim Hit.
  intros Hg (Hh & Hsz & Hsl & Hfrom & Hmaxl) (Hrd & Hsi & Hof) Hlt Hf.
  pose proof (distance_ok ts (total ts) e.1 Hlt Hf) as Hd.
  destruct e as [u d]. cbn [fst snd] in *.
  destruct Hrd as (i & sb & p & Hb & Hoff & Hsize & Hpos & Hle & Hsl').
  cbn [fst snd] in Hoff, Hsize, Hpos, Hle, Hsl'.
  pose proof (it_max _ _ _ _ Hit) as Hit20. destruct Hg. unfold i32_MAX in *.
  assert (Hne : ts ≠ [] ∨ ts = []) by (destruct ts; auto).
  assert (Hz : Z.of_nat (length ts) = 0 → total ts = 0) by (by destruct ts).
  assert (Hp : 0 < Z.of_nat (length ts) → 0 < total ts ≤ 2147483647)
    by (destruct ts; [cbn; lia | intros _; split; [by apply got_range0 | lia]]).
  destruct (proj2 (batch_full_fits cfg max_msg_nums max_pull_size max_offset_py Hlim
    (Z.of_nat (length ts)) (total ts) u ltac:(unfold i32_MAX; lia) ltac:(lia) Hp Hz ltac:(unfold i32_MAX; lia)
    ltac:(lia)) Hf) as [Hfull Hpull].
  unfold take_unit. rewrite got_total0, got_count0. cbn [cu_pos cu_size cu_queue_offset cq_unit].
  rewrite Hd, Hfull, Hpull. cbn [g_next_file]. rewrite got_file0, Z.eqb_refl. cbn [negb andb].
  unfold unit_matches. cbn [negb]. rewrite <- Hfrom in Hoff. rewrite Hoff, Hsize. cbn [g_log].
  destruct (get_message_holds (log_config cfg) (g_log g) bs i n p (length d) sb Hh Hsz Hsl Hb Hle Hpos)
    as (l' & -> & Hh' & Hsl2 & Hsf & Hm' & Hz'). cbn [obind fst snd is_in_cache].
  rewrite andb_false_r. unfold buffer_matches. cbn [obind negb]. eexists. split; [reflexivity |].
  assert (Htot : total ts + u_size u ≤ 2147483647).
  { unfold StoreReads.fits in Hf. destruct (Z.eqb_spec (Z.of_nat (length ts)) 0) as [E | E].
    - rewrite Hz by done. lia.
    - cbn in Hf. apply andb_prop in Hf as [[_ Hf]%andb_prop _].
      destruct Hlim as [_ _ Hpl _ _ _]. unfold MAX_PULL_MSG_SIZE in *. lia. }
  split.
  - constructor; cbn [g_next g_next_file g_status g_transferred g_result add_message
      message_mapped_list message_queue_offset buffer_total_size message_count set_g_log];
      rewrite ?length_app; cbn [length].
    + rewrite as_i64_id by in_range. lia.
    + done.
    + by destruct ts.
    + lia.
    + rewrite !fmap_app, got_bytes0. cbn. by rewrite Hsl'.
    + rewrite got_offsets0, as_u64_id by in_range.
      rewrite (Nat2Z.inj_add (length ts) 1), seqZ_app by lia. f_equal.
      change (Z.of_nat 1) with 1. rewrite seqZ_cons by lia. cbn. f_equal. lia.
    + cbn [size snd]. rewrite total_snoc. cbn [fst]. rewrite got_total0, <- Hsize, as_i32_id by in_range. done.
    + rewrite got_count0, as_i32_id by in_range. lia.
    + rewrite total_snoc. cbn [fst]. unfold i32_MAX. split; [lia |]. intros _. lia.
  - cbn [g_log set_g_log]. split_and!; [done | congruence | done | congruence | congruence].
Qed.

Lemma take_full (ts : list (unit_data * buffer)) (u : unit_data) (g : get_state) :
  got o ts g → 0 < u_size u ≤ i32_MAX → 0 ≤ u_offset u ≤ max_offset_py →
  (o + length ts < length us)%nat → fits (Z.of_nat (length ts)) (total ts) u = false →
  take_one (cq_unit (o + length ts) u) g = Done (g, false).
Proof using Hlim Hit.
  intros Hg Hsi Hof Hlt Hf. pose proof (it_max _ _ _ _ Hit). destruct Hg. unfold i32_MAX in *.
  assert (Hz : Z.of_nat (length ts) = 0 → total ts = 0) by (by destruct ts).
  assert (Hp : 0 < Z.of_nat (length ts) → 0 < total ts ≤ 2147483647)
    by (destruct ts; [cbn; lia | intros _; split; [by apply got_range0 | lia]]).
  pose proof (batch_full_fits cfg max_msg_nums max_pull_size max_offset_py Hlim
    (Z.of_nat (length ts)) (total ts) u ltac:(unfold i32_MAX; lia) ltac:(lia) Hp Hz ltac:(unfold i32_MAX; lia)
    ltac:(lia)) as [Hto _].
  unfold take_unit. rewrite got_total0, got_count0. cbn [cu_pos cu_size cu_queue_offset cq_unit].
  destruct (_ <? _); [done |]. destruct (is_the_batch_full _ _ _ _ _ _ _ _); [done |].
  destruct (max_pull_size <=? total ts); [done |]. rewrite Hto in Hf by done. done.
Qed.

(** The loop over the units: it takes the longest run that fits, and stops, or
    goes on at the end of the segment. *)
Lemma units_run (rem : list (unit_data * buffer)) (ts : list (unit_data * buffer)) (g : get_state) :
  got o ts g → log_ready (length rem) (g_log g) → Forall entry_ok rem →
  fst <$> rem = drop (o + length ts) us →
  let it j := mkIter (Some (0%nat, b)) (Z.of_nat j) in
  let taken := batch (Z.of_nat (length ts)) (total ts) rem in
  ∃ g', got o (ts ++ taken) g' ∧ log_ready (length rem - length taken) (g_log g') ∧
    ((length taken < length rem)%nat ∧
       (∀ fuel, units (length taken + S fuel) c (it (length ts)) g = Done (Ended g')) ∨
     taken = rem ∧
       (∀ fuel, units (length taken + fuel) c (it (length ts)) g =
                units fuel c (it (length ts + length rem)%nat) g')).
Proof using Hlim Hit Hmax.
  revert ts g. induction rem as [| e rem IH]; intros ts g Hg Hlr Hok Hus it taken.
  - exists g. unfold taken. cbn. rewrite app_nil_r, Nat.add_0_r. split_and!; [done | done |].
    right. split; [done |]. intros fuel. done.
  - apply Forall_cons_1 in Hok as [He Hok].
    assert (Hu : us !! (o + length ts)%nat = Some e.1).
    { rewrite <- (Nat.add_0_r (o + length ts)), <- lookup_drop, <- Hus. done. }
    pose proof (lookup_lt_Some _ _ _ Hu) as Hlt.
    assert (Hstep : ∀ fuel, units (S fuel) c (it (length ts)) g =
      let* (g, more) := take_one (cq_unit (o + length ts) e.1) g in
      if more then units fuel c (it (S (length ts))) g else Done (Ended g)).
    { intros fuel. cbn [get_units]. rewrite (got_next _ _ _ Hg), (proj2 (Z.leb_gt _ _)) by lia.
      unfold it. by rewrite (iter_next_unit c o (length ts) us b e.1 Hit Hu). }
    unfold taken. cbn [StoreReads.batch]. destruct (fits _ _ e.1) eqn:Hf.
    + destruct (take_fits (length rem) ts e g Hg Hlr He Hlt Hf) as (g1 & Hrun & Hg1 & Hlr1).
      destruct (IH (ts ++ [e]) g1 Hg1 Hlr1 Hok) as (g' & Hg' & Hlr' & Hcase).
      { rewrite length_app, Nat.add_assoc, <- drop_drop, <- Hus. done. }
      rewrite length_app, Nat.add_1_r, total_snoc, Nat2Z.inj_succ, <- Z.add_1_r in *.
      set (tk := batch _ _ rem) in *. rewrite <- (assoc_L (++)) in Hg'. exists g'.
      cbn [length Nat.add Nat.sub]. split_and!; [exact Hg' | exact Hlr' |].
      destruct Hcase as [[Hl Hr] | [Htk Hr]].
      * left. split; [lia |]. intros fuel. rewrite Hstep, Hrun. cbn [obind].
        unfold it. rewrite Nat2Z.inj_succ, <- Z.add_1_r. apply Hr.
      * right. split; [by rewrite Htk |]. intros fuel. rewrite Hstep, Hrun. cbn [obind].
        unfold it. rewrite Nat2Z.inj_succ, <- Z.add_1_r, Hr. do 2 f_equal. lia.
    + exists g. cbn [length Nat.add Nat.sub app]. rewrite app_nil_r. split_and!; [done | done |].
      left. split; [lia |]. intros fuel. rewrite Hstep.
      destruct He as ((i & sb & p & _ & _ & Hsz & Hpos & _) & Hsi & Hof).
      rewrite (take_full ts e.1 g Hg); [done | lia | done | done | done].
Qed.
End Reading.

(** ** The first segment of a queue that starts at offset 0 *)

Lemma first_segment (k : nat) (c : ConsumeQueue) (us : list unit_data) :
  holds_from k c 0 us → us ≠ [] →
  ∃ uss, cq_rep k c uss ∧ mjoin uss = us ∧ uss !! 0%nat = Some (take k us) ∧ first_index c = 0 ∧
    min_logic_offset c ≤ 0 ∧ get_max_offset_in_queue c = Z.of_nat (length us).
Proof.
  intros (uss & Hrep & [(-> & _) | (Hne & Hmin & b & Hj & Hf)]) Hn; [done |].
  assert (Hne' : uss ≠ []) by (intros ->; by destruct b, us).
  destruct (rep_snoc k c uss Hrep Hne') as (ms & l & uss0 & us0 & E & Eu & Hlen & _ & Hwf & _ & Hle & Hend & H0 & _).
  assert (b = 0%nat) as -> by lia. cbn in Hj. assert (Hf0 : first_index c = 0) by lia.
  exists uss. split_and!; try done.
  - destruct uss as [| u0 rest]; [done |]. cbn. f_equal.
    change (mjoin (u0 :: rest)) with (u0 ++ mjoin rest) in Hj. rewrite <- Hj.
    destruct (decide (rest = [])) as [-> | Hr].
    + cbn. rewrite app_nil_r. destruct uss0; [| by destruct uss0]. cbn in Eu. injection Eu as ->.
      by rewrite take_ge.
    + pose proof (r_full _ _ _ Hrep 0%nat u0 eq_refl) as Hk. destruct rest; [done |].
      cbn in Hk. rewrite <- Hk by lia. by rewrite take_app_length.
  - assert (Hlast : mapped_files (cq_queue c) ≠ []) by (rewrite E; by destruct ms).
    unfold get_max_offset_in_queue, CQ_STORE_UNIT_SIZE.
    rewrite (max_offset_snoc _ ms l (r_ok _ _ _ Hrep) E), Hend.
    unfold next_index. rewrite Hf0, Hj. unfold rdiv. rewrite Z.quot_div_nonneg by lia.
    rewrite Z.mul_comm, Z.div_mul by lia. lia.
Qed.

(** What iterating from an offset in the first segment starts with. *)
Lemma start_iterating (k o : nat) (c : ConsumeQueue) (us : list unit_data) :
  holds_from k c 0 us → (o < length us)%nat → (o < k)%nat → Forall unit_ok us →
  Forall (λ u, is_ext_addr (u_tags u) = false) us →
  ∃ c' b, iterate_from (Z.of_nat o) c = Done (c', Some (mkIter (Some (0%nat, b)) 0)) ∧
    iterating c' o (take k us) b.
Proof.
  intros Hh Ho Hk Hok Hext.
  destruct (first_segment k c us Hh) as (uss & Hrep & Hj & H0 & Hf & Hmin & Hmax);
    [intros ->; cbn in Ho; lia |].
  destruct (Forall2_lookup_r _ _ _ _ _ (r_logs _ _ _ Hrep) H0) as (m & Hm & Hlog).
  pose proof (ok_lookup _ (r_ok _ _ _ Hrep) _ _ Hm) as (Hwf & Hfs & Hff & _).
  pose proof (base_index _ _ _ Hrep) as Hb0. rewrite Hf in Hb0.
  pose proof (Forall_lookup_1 _ _ _ _ (r_live _ _ _ Hrep) Hm) as Hlv.
  assert (Hw : wrote_position m = 20 * Z.of_nat (length (take k us)))
    by (rewrite <- log_length, Hlog, enc_length by done; lia).
  pose proof (mf_pos _ Hwf). pose proof (mf_size _ Hwf) as Hms. unfold i32_MAX in *.
  assert (Hlt : (o < length (take k us))%nat) by (rewrite length_take; lia).
  pose proof (r_fsize _ _ _ Hrep) as Hcf. pose proof (r_size _ _ _ Hrep) as Hsz.
  unfold iterate_from, get_index_buffer, CQ_STORE_UNIT_SIZE.
  rewrite as_i64_id by in_range. rewrite (proj2 (Z.leb_le _ _)) by lia.
  rewrite (find_in _ (r_ok _ _ _ Hrep) _ false 0 m Hm) by lia. cbn [obind]. rewrite Hm.
  cbn [unwrap obind]. rewrite Hcf, (proj2 (Z.eqb_neq _ _)) by lia.
  replace (rrem (Z.of_nat o * 20) (20 * Z.of_nat k)) with (20 * Z.of_nat o).
  2: { unfold rrem. rewrite Z.rem_mod_nonneg, Z.mod_small by lia. lia. }
  rewrite as_i32_id by in_range.
  destruct (select_live m (20 * Z.of_nat o) Hwf Hlv) as (m' & -> & Hsame); [lia |].
  cbn [fmap option_fmap option_map obind]. eexists _, _. split; [reflexivity |].
  pose proof (same_file_wf _ _ Hwf Hsame) as Hwf'. destruct Hsame as (_ & _ & Hmem & Hwr & _).
  constructor.
  - exists m'. split_and!; [| done |].
    + cbn. apply list_lookup_insert_eq. by eapply lookup_lt_Some.
    + unfold log in *. by rewrite Hmem, Hwr.
  - cbn. lia.
  - cbn. lia.
  - unfold i32_MAX. lia.
  - by apply Forall_take.
  - by apply Forall_take.
Qed.

(** ** Theorems *)

(** The bytes of the messages a read returned. *)
Definition result_bytes (r : GetMessageResult) : list (option buffer) :=
  bytes ∘ snd <$> message_mapped_list r.

Section Queue.
Variable cfg : MessageStoreConfig.
Variables (k o : nat) (c : ConsumeQueue) (es : list (unit_data * buffer)) (l : CommitLog).
Variables (bs : list buffer) (group : string) (max_msg_nums max_total_msg_size : Z).
Let us := es.*1.
Let max_pull_size := Z.min (Z.max max_total_msg_size 100) MAX_PULL_MSG_SIZE.

(** A queue that holds the units of [es] from offset 0 on, a log that holds
    their records, limits that are not degenerate, and an offset in the first
    segment of the queue. *)
Record readable_queue : Prop := {
  rq_holds : holds_from k c 0 us;
  rq_units : Forall unit_ok us;
  rq_tags : Forall (λ u, is_ext_addr (u_tags u) = false) us;
  rq_offset : (o < length us)%nat ∧ (o < k)%nat;
  rq_log : log_ready cfg (cl_max_offset l) bs (seg_from l) (length es) l;
  rq_entries : Forall (entry_ok (cl_max_offset l) bs (seg_from l)) es;
  rq_limits : limits_ok cfg max_msg_nums max_pull_size (cl_max_offset l);
  rq_travel : (0 < travel_cq_file_num_when_get_message cfg)%nat;
  rq_stats : disk_fall_recorded cfg && negb (broker_stats cfg) = false;
}.
Hypothesis Hq : readable_queue.

(** The messages of the first segment from [o] on. *)
Let rest := drop o (take k es).

Lemma got_start : got o [] (mkGet NoMatchedMessage (Z.of_nat o) i64_MIN 0 0 new_get_result l).
Proof using. constructor; cbn; try done. by rewrite Nat.add_0_r. Qed.

Lemma rest_units : rest.*1 = drop (o + length (@nil (unit_data * buffer))) (take k us).
Proof using. cbn. unfold rest, us. by rewrite Nat.add_0_r, fmap_drop, fmap_take. Qed.

Lemma rest_ready : log_ready cfg (cl_max_offset l) bs (seg_from l) (length rest) l.
Proof using Hq.
  destruct Hq as [_ _ _ _ (H1 & H2 & H3 & H4) _ _ _ _]. split_and!; try done.
  eapply Forall_impl; [exact H3 |]. intros m (h & Hl & Hh). exists h. split; [done |].
  assert (length rest ≤ length es)%nat by (unfold rest; rewrite length_drop, length_take; lia). lia.
Qed.

Lemma queue_offsets :
  (get_max_offset_in_queue c =? 0) = false ∧ (Z.of_nat o <? get_min_offset_in_queue c) = false ∧
  (Z.of_nat o =? get_max_offset_in_queue c) = false ∧
  (get_max_offset_in_queue c <? Z.of_nat o) = false ∧
  get_max_offset_in_queue c = Z.of_nat (length us).
Proof using Hq.
  destruct (rq_offset Hq) as [Ho _].
  destruct (first_segment k c us (rq_holds Hq)) as (_ & _ & _ & _ & _ & Hmin & Hmax);
    [intros E; rewrite E in Ho; cbn in Ho; lia |].
  rewrite Hmax. split_and!; [| | | | done].
  - apply Z.eqb_neq. lia.
  - apply Z.ltb_ge. unfold get_min_offset_in_queue, rdiv, CQ_STORE_UNIT_SIZE.
    assert (Z.quot (min_logic_offset c) 20 ≤ 0); [| lia].
    apply Z.quot_le_upper_bound; lia.
  - apply Z.eqb_neq. lia.
  - apply Z.ltb_ge. lia.
Qed.

(** Up to the loops over the queue, a read is the loop over its first segment. *)
Lemma get_from_queue_units :
  ∃ c' b, iterating c' o (take k us) b ∧ ∀ fuel,
    get_from_queue cfg fuel group (Z.of_nat o) max_msg_nums max_total_msg_size None l c =
    let* e := get_units cfg group (Z.of_nat o) max_msg_nums max_pull_size (cl_max_offset l)
                (Z.of_nat (length us)) None fuel c' (mkIter (Some (0%nat, b)) 0)
                (mkGet NoMatchedMessage (Z.of_nat o) i64_MIN 0 0 new_get_result l) in
    match e with
    | Ended g =>
        let* e := get_files cfg group (Z.of_nat o) max_msg_nums max_pull_size (cl_max_offset l)
                    (Z.of_nat (length us)) None (pred (travel_cq_file_num_when_get_message cfg)) fuel c' g in
        match e with
        | Ended (c2, g) =>
            let diff := as_i64 (cl_max_offset l - g_pulling g) in
            let r := set_suggest_pulling_from_slave (in_memory cfg <? diff) (g_result g) in
            Done (Ended (c2, g_log g, finish_result (g_status g) (g_next g)
              (get_min_offset_in_queue c) (Z.of_nat (length us)) r, g_transferred g))
        | Deadlock => Done Deadlock
        | OutOfFuel => Done OutOfFuel
        end
    | Deadlock => Done Deadlock
    | OutOfFuel => Done OutOfFuel
    end.
Proof using Hq.
  destruct queue_offsets as (H1 & H2 & H3 & H4 & H5).
  destruct (rq_offset Hq) as [Ho Hk].
  destruct (start_iterating k o c us (rq_holds Hq) Ho Hk (rq_units Hq) (rq_tags Hq))
    as (c' & b & Hrun & Hit).
  exists c', b. split; [exact Hit |]. intros fuel. unfold get_from_queue.
  rewrite H1, H2, H3, H4, H5. fold max_pull_size.
  destruct (travel_cq_file_num_when_get_message cfg) as [| n] eqn:En;
    [pose proof (rq_travel Hq); lia |]. cbn [get_files g_result new_get_result buffer_total_size].
  change (0 <=? 0) with true. cbn [g_next]. rewrite (proj2 (Z.ltb_lt _ _)) by lia. cbn [andb].
  rewrite Hrun. cbn [obind pred]. rewrite (rq_stats Hq).
  change (set_g_next_file i64_MIN (mkGet ?a ?b ?x ?d ?e ?f ?g)) with (mkGet a b i64_MIN d e f g).
  destruct (get_units _ _ _ _ _ _ _ _ _ _ _ _) as [[g | |] |]; done.
Qed.

(** A read from a queue with one segment. *)
Lemma get_from_queue_returns :
  (length us ≤ k)%nat →
  let taken := batch cfg max_msg_nums max_pull_size (cl_max_offset l) 0 0 (drop o es) in
  ∃ c' l' r, get_from_queue cfg (S (length us)) group (Z.of_nat o) max_msg_nums max_total_msg_size
      None l c = Done (Ended (c', l', r, Z.of_nat (length taken))) ∧
    gr_status r = Some Found ∧ result_bytes r = Some <$> taken.*2 ∧
    message_queue_offset r = seqZ (Z.of_nat o) (Z.of_nat (length taken)) ∧
    next_begin_offset r = Z.of_nat (o + length taken) ∧
    gr_max_offset r = Z.of_nat (length us) ∧ message_count r = Z.of_nat (length taken) ∧
    (0 < length taken)%nat ∧ log_keeps l' bs.
Proof using Hq.
  intros Hle taken. destruct (rq_offset Hq) as [Ho Hk].
  destruct get_from_queue_units as (c' & b & Hit & Hrun).
  assert (Hes : length es = length us) by (unfold us; by rewrite length_fmap).
  assert (Htk : take k us = us) by (by apply take_ge).
  assert (Hrest : rest = drop o es) by (unfold rest; rewrite take_ge; [done | lia]).
  assert (Hlr : length rest = (length us - o)%nat) by (rewrite Hrest, length_drop; lia).
  destruct (units_run cfg group max_msg_nums max_pull_size (cl_max_offset l) (Z.of_nat (length us))
    o (take k us) c' b bs (seg_from l) (rq_limits Hq) Hit ltac:(rewrite Htk; lia) rest [] _ got_start
    rest_ready) as (g & Hg & (Hlh & _) & Hcase).
  { rewrite Hrest. apply Forall_drop, (rq_entries Hq). }
  { apply rest_units. }
  cbn [length] in Hg, Hcase. rewrite Hrest in Hg, Hcase.
  change (batch _ _ _ _ (Z.of_nat 0) (total []) (drop o es)) with taken in Hg, Hcase.
  cbn [app Nat.add] in Hg, Hcase.
  assert (Hne : taken ≠ []).
  { unfold taken. rewrite Hrest in Hlr. destruct (drop o es); [cbn in Hlr; lia | done]. }
  assert (Hend : get_units cfg group (Z.of_nat o) max_msg_nums max_pull_size (cl_max_offset l)
    (Z.of_nat (length us)) None (S (length us)) c' (mkIter (Some (0%nat, b)) 0)
    (mkGet NoMatchedMessage (Z.of_nat o) i64_MIN 0 0 new_get_result l) = Done (Ended g)).
  { rewrite Hrest in Hlr. destruct Hcase as [[Hlt Hr] | [Hall Hr]].
    - replace (S (length us)) with (length taken + S (length us - length taken))%nat by lia. apply Hr.
    - replace (S (length us)) with (length taken + S (length us - length taken))%nat
        by (rewrite Hall; lia).
      rewrite Hr. cbn [get_units]. rewrite (got_next _ _ _ Hg), Hall.
      by rewrite (proj2 (Z.leb_le _ _)) by lia. }
  rewrite Hrun, Hend. cbn [obind].
  assert (Hstop : ∀ n f, get_files cfg group (Z.of_nat o) max_msg_nums max_pull_size (cl_max_offset l)
    (Z.of_nat (length us)) None n f c' g = Done (Ended (c', g))).
  { intros n f. pose proof (got_total _ _ _ Hg) as Ht. pose proof (got_range _ _ _ Hg) as [_ Hp].
    destruct n; cbn [get_files]; rewrite Ht, (proj2 (Z.leb_gt _ _)) by (by apply Hp); done. }
  rewrite Hstop. cbn [obind]. destruct Hg. rewrite got_transferred0.
  eexists _, _, _. split; [reflexivity |].
  cbn [finish_result set_suggest_pulling_from_slave gr_status result_bytes message_mapped_list
    message_queue_offset next_begin_offset gr_max_offset message_count].
  unfold result_bytes. cbn [message_mapped_list].
  split_and!; try done.
  - rewrite got_status0. by destruct taken.
  - etrans; [exact got_bytes0 |]. by rewrite <- list_fmap_compose.
  - destruct taken; [done | cbn; lia].
Qed.
End Queue.

(** The queue of the store a read goes to, with the rest of what it needs. *)
Definition reads_from (cfg : MessageStoreConfig) (topic : string) (id : Z) (c : ConsumeQueue)
    (s : LocalFileMessageStore) : Prop :=
  ms_shutdown s = false ∧ is_readable (co_flags (ms_consumers s)) = true ∧
  get_delete_policy (topic_attributes (queue_config cfg) topic) = Done DELETE ∧
  get_consume_queue topic id s = Some (Simple c).

Lemma get_message_queue (cfg : MessageStoreConfig) (fuel : nat) (group topic : string)
    (id offset nums sz : Z) (f : option MessageFilter) (c : ConsumeQueue) (s : LocalFileMessageStore) :
  reads_from cfg topic id c s →
  get_message_with_size_limit cfg fuel group topic id offset nums sz f s =
  let* e := get_from_queue cfg fuel group offset nums sz f (log_of s) c in
  match e with
  | Ended (c, l, r, n) =>
      let q := put_consume_queue topic id (Simple c) (queues_of (ms_consumers s)) in
      let s := with_log l (set_consumers (with_queues q (ms_consumers s)) s) in
      Done (Ended (set_stats (add_get (bool_decide (gr_status r = Some Found)) n (ms_stats s)) s, Some r))
  | Deadlock => Done Deadlock
  | OutOfFuel => Done OutOfFuel
  end.
Proof.
  intros (Hs & Hr & Hp & Hc). unfold get_message_with_size_limit. rewrite Hs, Hr, Hp. cbn [negb obind].
  unfold find_or_create_consume_queue. change (slot_at topic id (queues_of (ms_consumers s)))
    with (get_consume_queue topic id s). by rewrite Hc.
Qed.

(** C2: Reading by queue offset: from a queue that fits one segment, a read without
    filter returns the longest run of messages from the offset on that the
    bounds on number and bytes allow, at least one, each with its bytes as they
    are in the log, and the offset after the last of them. *)
Theorem get_message_returns (cfg : MessageStoreConfig) (k o : nat) (c : ConsumeQueue)
    (es : list (unit_data * buffer)) (bs : list buffer) (group topic : string)
    (id max_msg_nums max_total_msg_size : Z) (s : LocalFileMessageStore) :
  reads_from cfg topic id c s →
  readable_queue cfg k o c es (log_of s) bs max_msg_nums max_total_msg_size →
  (length es ≤ k)%nat →
  let max_pull_size := Z.min (Z.max max_total_msg_size 100) MAX_PULL_MSG_SIZE in
  let taken := batch cfg max_msg_nums max_pull_size (cl_max_offset (log_of s)) 0 0 (drop o es) in
  ∃ s' r, get_message_with_size_limit cfg (S (length es)) group topic id (Z.of_nat o) max_msg_nums
      max_total_msg_size None s = Done (Ended (s', Some r)) ∧
    gr_status r = Some Found ∧ result_bytes r = Some <$> taken.*2 ∧
    message_queue_offset r = seqZ (Z.of_nat o) (Z.of_nat (length taken)) ∧
    next_begin_offset r = Z.of_nat (o + length taken) ∧ (0 < length taken)%nat ∧
    gr_max_offset r = Z.of_nat (length es) ∧ log_keeps (ms_log s') bs.
Proof.
  intros Hs Hq Hle max_pull_size taken.
  destruct (get_from_queue_returns cfg k o c es (log_of s) bs group max_msg_nums max_total_msg_size Hq)
    as (c' & l' & r & Hrun & H1 & H2 & H3 & H4 & H5 & _ & H7 & H8); [by rewrite length_fmap |].
  rewrite length_fmap in Hrun, H5.
  rewrite (get_message_queue _ _ _ _ _ _ _ _ _ _ _ Hs), Hrun. cbn [obind].
  eexists _, r. split; [reflexivity |]. by split_and!.
Qed.

(** A loop that needs more than [fuel + n] rounds needs more than [fuel]. *)
Lemma get_units_fuel (cfg : MessageStoreConfig) (group : string) (offset nums pull high_py high : Z)
    (f : option MessageFilter) (n fuel : nat) (c : ConsumeQueue) (it : ConsumeQueueIterator)
    (g : get_state) :
  get_units cfg group offset nums pull high_py high f (n + fuel) c it g = Done OutOfFuel →
  get_units cfg group offset nums pull high_py high f fuel c it g = Done OutOfFuel.
Proof.
  revert it g. induction fuel as [| fuel IH]; intros it g H; [done |].
  rewrite Nat.add_succ_r in H. cbn [get_units] in *. case_match; [done |].
  destruct (iter_next c it) as [[it' [u |]] |]; cbn [obind] in *; [| by apply IH | done].
  destruct (take_unit _ _ _ _ _ _ _ _ _) as [[g' [|]] |]; cbn [obind] in *; [by apply IH | done | done].
Qed.

(** C39: Where a queue has a second segment, a read that takes all the messages to the
    end of the first one never returns: the loop asks the iterator for more for
    ever. *)
Theorem get_message_spins (cfg : MessageStoreConfig) (k o : nat) (c : ConsumeQueue)
    (es : list (unit_data * buffer)) (bs : list buffer) (group topic : string)
    (id max_msg_nums max_total_msg_size : Z) (fuel : nat) (s : LocalFileMessageStore) :
  reads_from cfg topic id c s →
  readable_queue cfg k o c es (log_of s) bs max_msg_nums max_total_msg_size →
  (k < length es)%nat →
  (let max_pull_size := Z.min (Z.max max_total_msg_size 100) MAX_PULL_MSG_SIZE in
   let rest := drop o (take k es) in
   batch cfg max_msg_nums max_pull_size (cl_max_offset (log_of s)) 0 0 rest = rest) →
  get_message_with_size_limit cfg fuel group topic id (Z.of_nat o) max_msg_nums max_total_msg_size
    None s = Done OutOfFuel.
Proof.
  intros Hs Hq Hlt Hall. cbv zeta in Hall.
  set (mp := Z.min (Z.max max_total_msg_size 100) MAX_PULL_MSG_SIZE) in *.
  rewrite (get_message_queue _ _ _ _ _ _ _ _ _ _ _ Hs).
  destruct (get_from_queue_units cfg k o c es (log_of s) bs group max_msg_nums max_total_msg_size Hq)
    as (c' & b & Hit & ->). set (us := es.*1) in *.
  assert (Hes : length us = length es) by (unfold us; by rewrite length_fmap).
  destruct (rq_offset _ _ _ _ _ _ _ _ _ Hq) as [Ho Hk].
  destruct (units_run cfg group max_msg_nums mp (cl_max_offset (log_of s)) (Z.of_nat (length us))
    o (take k us) c' b bs (seg_from (log_of s)) (rq_limits _ _ _ _ _ _ _ _ _ Hq) Hit
    ltac:(rewrite length_take; lia) (drop o (take k es)) [] _ (got_start o (log_of s))
    (rest_ready _ _ _ _ _ _ _ _ _ Hq)) as (g & Hg & _ & Hcase).
  { apply Forall_drop, Forall_take, (rq_entries _ _ _ _ _ _ _ _ _ Hq). }
  { apply rest_units. }
  cbn [length Nat.add app] in Hg, Hcase. change (Z.of_nat 0) with 0 in *. change (total []) with 0 in *.
  rewrite Hall in Hg, Hcase. destruct Hcase as [[Hbad _] | [_ Hr]]; [lia |].
  set (rest := drop o (take k es)) in *.
  assert (Hlr : length rest = (k - o)%nat) by (unfold rest; rewrite length_drop, length_take; lia).
  assert (Hspin : ∀ f, get_units cfg group (Z.of_nat o) max_msg_nums mp (cl_max_offset (log_of s))
    (Z.of_nat (length us)) None f c' (mkIter (Some (0%nat, b)) (Z.of_nat (length rest))) g =
    Done OutOfFuel).
  { induction f as [| f IH]; [done |]. cbn [get_units].
    rewrite (got_next _ _ _ Hg), (proj2 (Z.leb_gt _ _)) by lia.
    rewrite (iter_next_end c' o (length rest) (take k us) b Hit) by (rewrite length_take; lia).
    cbn [obind]. exact IH. }
  assert (Hfuel : ∀ f, get_units cfg group (Z.of_nat o) max_msg_nums mp (cl_max_offset (log_of s))
    (Z.of_nat (length us)) None f c' (mkIter (Some (0%nat, b)) 0)
    (mkGet NoMatchedMessage (Z.of_nat o) i64_MIN 0 0 new_get_result (log_of s)) = Done OutOfFuel).
  { intros f. apply (get_units_fuel _ _ _ _ _ _ _ _ (length rest)). rewrite Hr. apply Hspin. }
  fold mp. by rewrite Hfuel.
Qed.

(** ** Examples *)

Definition example_log_config : StoreConfig :=
  mkStoreConfig MessageExtEncoder.sample_config 400 false false true AsyncMaster false false 1 true
    false false false false AsyncFlush.
Definition example_config : MessageStoreConfig :=
  mkMsConfig example_log_config ConsumeQueueStore.sample_config false 16000 1 262144 32 65536 8
    1000000000 false false false false false false 1000 true false false true true false.

Lemma example_limits (n : Z) : 0 ≤ n ≤ i64_MAX → limits_ok example_config 32 1000 n.
Proof. intros Hn. constructor; [vm_compute; intuition discriminate .. | exact Hn]. Qed.


Definition example_requests (n : nat) : list DispatchRequest :=
  take n [to_queue "a" 0 0 0; to_queue "a" 0 1 100; to_queue "a" 0 2 200; to_queue "a" 0 3 300].
Definition example_entries (n : nat) : list (unit_data * buffer) :=
  (λ r, (unit_of r, slice (fill (closed_bytes [sample_entry 0; sample_entry 115]))
           (Z.to_nat (dr_commit_log_offset r)) (Z.to_nat (dr_commit_log_offset r) + 100)))
  <$> example_requests n.
Definition reading_store (q : ConsumeQueueStore) : LocalFileMessageStore :=
  mkStore live_log
    (mkConsumers 0 (open_checkpoint []) q (new_index_service 3 3 64 0 (open_checkpoint [])) [])
    (Some 0) 0 0 false false (mkStats 0 0 0 0).

Lemma example_entries_ok (n : nat) :
  Forall (λ r, 0 ≤ dr_commit_log_offset r ≤ 300 ∧ dr_msg_size r = 100) (example_requests n) →
  Forall (entry_ok (cl_max_offset live_log) live_bytes (seg_from live_log)) (example_entries n).
Proof.
  intros H. apply Forall_fmap. eapply Forall_impl; [exact H |]. intros r [Ho Hs].
  assert (Hlen : length (fill (closed_bytes [sample_entry 0; sample_entry 115])) = 400%nat) by (by vm_compute).
  set (b := fill _) in *. unfold compose, entry_ok. cbn [fst unit_of u_size u_offset].
  change (cl_max_offset live_log) with 515. rewrite Hs. unfold i32_MAX. split_and!; [| lia ..].
  exists 0%nat, b, (Z.to_nat (dr_commit_log_offset r)). cbn [fst snd unit_of u_size u_offset].
  change (seg_from live_log 0) with 0. rewrite slice_length by lia.
  replace (Z.to_nat (dr_commit_log_offset r) + 100 - Z.to_nat (dr_commit_log_offset r))%nat
    with 100%nat by lia.
  split_and!; try done; lia.
Qed.

(** A store whose queue has two units, or four, for 100 bytes of the log each. *)
Lemma example_readable (n : nat) :
  n = 2%nat ∨ n = 4%nat →
  ∃ q c, build_queues ConsumeQueueStore.sample_config (example_requests n)
      (new_consume_queue_store ConsumeQueue.sample_store) = Done q ∧
    reads_from example_config "a" 0 c (reading_store q) ∧
    readable_queue example_config 3 1 c (example_entries n) live_log live_bytes 32 1000.
Proof.
  intros Hn.
  destruct (build_queues_holds 3 ConsumeQueueStore.sample_config (λ _ _, O) sample_config_simple
    (λ _ _, []) (-1) (example_requests n) (new_consume_queue_store ConsumeQueue.sample_store))
    as (q & Hq & [_ Hh] & _).
  - lia.
  - apply new_store_holds.
  - destruct Hn as [-> | ->]; repeat split; by vm_compute.
  - intros t i. apply numbered_part. destruct Hn as [-> | ->]; repeat constructor; by vm_compute.
  - specialize (Hh "a"%string 0). exists q.
    destruct (slot_at "a" 0 q) as [[c | bq] |] eqn:Ec; cbn in Hh;
      [| done | by destruct Hn as [-> | ->]].
    exists c. destruct Hh as (_ & _ & Hc & _).
    destruct (holds_keeps live_log live_bytes (length (example_entries n)) live_log_holds) as [Hk Hsl].
    { destruct Hn as [-> | ->]; by vm_compute. }
    split; [exact Hq |]. split; [by split_and!; [| vm_compute | vm_compute |] |].
    constructor.
    + destruct Hn as [-> | ->]; exact Hc.
    + destruct Hn as [-> | ->]; repeat constructor; by vm_compute.
    + destruct Hn as [-> | ->]; repeat constructor; by vm_compute.
    + destruct Hn as [-> | ->]; vm_compute; lia.
    + by split_and!.
    + apply example_entries_ok. clear -Hn. destruct Hn as [-> | ->]; repeat constructor; cbn; lia.
    + apply (example_limits 515). by vm_compute.
    + cbn. lia.
    + done.
Qed.

Lemma get_message_returns_witness :
  ∃ q s' r, build_queues ConsumeQueueStore.sample_config (example_requests 2)
      (new_consume_queue_store ConsumeQueue.sample_store) = Done q ∧
    get_message_with_size_limit example_config 3 "g" "a" 0 1 32 1000 None (reading_store q) =
      Done (Ended (s', Some r)) ∧
    gr_status r = Some Found ∧ result_bytes r = Some <$> (drop 1 (example_entries 2)).*2 ∧
    next_begin_offset r = 2.
Proof.
  destruct (example_readable 2 (or_introl eq_refl)) as (q & c & Hq & Hs & Hrq).
  destruct (get_message_returns example_config 3 1 c (example_entries 2) live_bytes "g" "a" 0 32 1000
    (reading_store q) Hs Hrq) as (s' & r & Hrun & H1 & H2 & _ & H4 & _); [cbn; lia |].
  exists q, s', r. split; [exact Hq |]. split; [exact Hrun |]. split; [exact H1 |]. split; [exact H2 |].
  exact H4.
Defined.

Lemma get_message_spins_witness :
  ∃ q, build_queues ConsumeQueueStore.sample_config (example_requests 4)
      (new_consume_queue_store ConsumeQueue.sample_store) = Done q ∧
    ∀ fuel, get_message_with_size_limit example_config fuel "g" "a" 0 1 32 1000 None
              (reading_store q) = Done OutOfFuel.
Proof.
  destruct (example_readable 4 (or_intror eq_refl)) as (q & c & Hq & Hs & Hrq).
  exists q. split; [exact Hq |]. intros fuel.
  apply (get_message_spins example_config 3 1 c (example_entries 4) live_bytes "g" "a" 0 32 1000
    fuel (reading_store q) Hs Hrq); [cbn; lia | by vm_compute].
Defined.
