(* ===== verification/StoreRoundtrip.v ===== *)
(** * StoreRoundtrip: from a put to a read

    The store as a whole: messages put one after the other are dispatched to
    their queues and come back from a read, in order, byte for byte. *)

From stdpp Require Import base gmap list strings pretty.
From coqutil Require Import Byte.
From Stdlib Require Import ZArith Lia.
From S2P Require Import Prelude Bytes Utf8 Message Properties MessageId MessageDecoder MessageCodec MessageUtils.
From S2P Require Import FileName Numerals ReferenceResource RunningFlags MappedFile MessageExtEncoder AppendCallback MappedFileQueue.
From S2P Require Import DispatchRequest ConsumeQueue StoreCheckpoint IndexFile IndexService QueueOffsets CheckMessage ConsumeQueueStore CommitLog CommitLogRecovery CommitLogPut Reput MessageStore StoreReads.
Open Scope Z_scope.
Open Scope rmq_scope.

(** ** Queue keys *)

Lemma split_last {A} (c : A) (a a' b b' : list A) :
  c ∉ b → c ∉ b' → a ++ c :: b = a' ++ c :: b' → a = a' ∧ b = b'.
Proof.
  intros Hb Hb' H. apply app_eq_inv in H as [(k & -> & H) | (k & -> & H)];
    destruct k as [| x k]; cbn in H.
  - rewrite app_nil_r. by injection H as ->.
  - injection H as -> ->. destruct Hb'. set_solver.
  - rewrite app_nil_r. by injection H as ->.
  - injection H as -> ->. destruct Hb. set_solver.
Qed.

(** The key of a queue determines it. *)
Lemma topic_queue_key_inj (t t' : string) (i i' : Z) :
  0 ≤ i → 0 ≤ i' → topic_queue_key t i = topic_queue_key t' i' → t = t' ∧ i = i'.
Proof.
  intros Hi Hi' H. apply (f_equal str_bytes) in H. unfold topic_queue_key in H.
  rewrite !str_bytes_app in H. change (str_bytes "-") with [Byte.x2d] in H.
  apply split_last in H as [Ht Hp]; [| by apply pretty_no_minus..].
  apply (f_equal bytes_str) in Ht, Hp. rewrite !bytes_str_bytes in Ht, Hp.
  split; [done |]. by apply (inj pretty) in Hp.
Qed.

(** ** Queue offsets *)

Lemma queues_of_with (q : ConsumeQueueStore) (w : Consumers) : queues_of (with_queues q w) = q.
Proof. by destruct q as [? ? []]. Qed.

Lemma find_or_create_shared (cfg : CqsConfig) (t : string) (i : Z) (s s' : ConsumeQueueStore)
    (q : queue_slot) :
  find_or_create_consume_queue cfg t i s = (s', q) → cqs_shared s' = cqs_shared s.
Proof.
  unfold find_or_create_consume_queue. destruct (slot_at t i s); intros [= <- _]; done.
Qed.

Definition offset_of (t : string) (i : Z) (w : Consumers) : Z :=
  current_queue_offset (topic_queue_key t i) (queue_offset_operator (co_queues w)).

Section Offsets.
Variables (cfg : MessageStoreConfig) (k : nat) (start : string → Z → nat).
Hypothesis Hcfg : simple_config k (queue_config cfg).
Variables (us : string → Z → list unit_data) (p : Z) (m : MessageExtBrokerInner).
Hypothesis Hp : -1 ≤ p.
Let t := topic (message (message_ext_inner m)).
Let i := queue_id (message_ext_inner m).

(** Giving a message its offset. *)
Lemma assign_holds (w : Consumers) :
  store_holds k start us p (queues_of w) →
  ∃ w', assign_queue_offset_of cfg m w = Done (w', offset_of t i w) ∧
    store_holds k start us p (queues_of w') ∧ co_flags w' = co_flags w ∧
    ∀ t' i', offset_of t' i' w' = offset_of t' i' w.
Proof using Hcfg Hp.
  intros Hs. unfold assign_queue_offset_of, cqs_assign_queue_offset.
  destruct (find_or_create_holds k (queue_config cfg) start Hcfg us p t i (queues_of w) Hp Hs)
    as (s' & c & Hf & [Hw' Hs'] & Hc & Hop).
  fold t i. pose proof (find_or_create_shared _ _ _ _ _ _ Hf) as Hsh. rewrite Hf. cbn [on_simple].
  pose proof (λ key, current_assign t key i (queue_offset_operator s')) as Ha.
  destruct (assign_queue_offset t i (queue_offset_operator s')) as [o' v] eqn:Ea. cbn [fst snd] in Ha.
  cbn [obind]. eexists. split.
  { unfold offset_of. rewrite (proj2 (Ha "")), Hop. reflexivity. }
  rewrite queues_of_with. split_and!.
  - by split.
  - cbn. by rewrite Hsh.
  - intros t' i'. unfold offset_of. cbn. by rewrite (proj1 (Ha _)), Hop.
Qed.

(** Moving the queue of a message on by [n]. *)
Lemma increase_holds (n : Z) (w : Consumers) :
  store_holds k start us p (queues_of w) → in_s 64 (offset_of t i w + n) →
  ∃ w', increase_queue_offset_of cfg m n w = Done w' ∧
    store_holds k start us p (queues_of w') ∧ co_flags w' = co_flags w ∧
    ∀ t' i', offset_of t' i' w' = offset_of t' i' w +
      (if decide (topic_queue_key t i = topic_queue_key t' i') then n else 0).
Proof using Hcfg Hp.
  intros Hs Hr. unfold increase_queue_offset_of, cqs_increase_queue_offset.
  destruct (find_or_create_holds k (queue_config cfg) start Hcfg us p t i (queues_of w) Hp Hs)
    as (s' & c & Hf & [Hw' Hs'] & Hc & Hop).
  fold t i. pose proof (find_or_create_shared _ _ _ _ _ _ Hf) as Hsh. rewrite Hf. cbn [on_simple obind].
  eexists. split; [reflexivity |]. rewrite queues_of_with. split_and!.
  - by split.
  - cbn. by rewrite Hsh.
  - intros t' i'. unfold offset_of in *. cbn. rewrite current_increase, Hop; [done |].
    rewrite Hop. exact Hr.
Qed.
End Offsets.

(** ** Dispatching *)

Lemma put_retries_readable (n i : nat) (existing : nat → buffer) (r : DispatchRequest)
    (s s' : cq_store) (c c' : ConsumeQueue) :
  put_retries n i existing r s c = Done (s', c') →
  is_readable (running_flags s') = is_readable (running_flags s).
Proof.
  revert i s c. induction n as [| n IH]; intros i s c H; cbn [put_retries] in H.
  - apply done_inj in H as [= <- _]. cbn. unfold is_readable, make_logics_queue_error, fetch_or.
    rewrite Z.land_lor_distr_l. change (Z.land WRITE_LOGICS_QUEUE_ERROR_BIT NOT_READABLE_BIT) with 0.
    by rewrite Z.lor_0_r.
  - destruct (is_ext_write_enable s c); [done |].
    apply obind_done in H as ([c1 ok] & _ & H). destruct ok; [| by apply IH in H].
    destruct (slave_or_dledger s); [done |]. by apply done_inj in H as [= <- _].
Qed.

Lemma build_queue_readable (cfg : CqsConfig) (existing : nat → buffer) (r : DispatchRequest)
    (s s' : ConsumeQueueStore) :
  build_consume_queue cfg existing r s = Done s' →
  is_readable (running_flags (cqs_shared s')) = is_readable (running_flags (cqs_shared s)).
Proof.
  unfold build_consume_queue. destruct (in_queue r); [| by intros H; apply done_inj in H as <-].
  unfold cqs_put_message_position_info_wrapper.
  destruct (find_or_create_consume_queue _ _ _ _) as [s1 q] eqn:Hf.
  rewrite <- (find_or_create_shared _ _ _ _ _ _ Hf). destruct q as [c | b]; [| done].
  cbn [on_simple]. intros H. apply obind_done in H as ([sh c1] & H1 & H).
  apply done_inj in H as <-. cbn. unfold put_message_position_info_wrapper in H1.
  by apply put_retries_readable in H1.
Qed.

(** A message that goes to one queue only. *)
Definition one_queue (r : DispatchRequest) : Prop :=
  dr_properties_map r ≫= (λ m, m !! "INNER_MULTI_DISPATCH"%string) = None.

Section Consume.
Variables (cfg : MessageStoreConfig) (env : consumer_env).
Hypothesis Hindex : message_index_enable (log_config cfg) = false.
Hypothesis Hnew : ce_existing env = (λ _, []).
Local Notation consume_one :=
  (consume (LogClient0 := store_client cfg env) (notify_message_arrive_in_batch cfg)
     (notify_message_arrive_if_necessary cfg)).

Lemma notify_one_queue (r : DispatchRequest) (w : Consumers) :
  one_queue r →
  ∃ a, notify_message_arrive_if_necessary cfg r w = Done (add_arrivals a w).
Proof using.
  unfold one_queue, notify_message_arrive_if_necessary, notify_message_arrive4multi_queue. intros H.
  destruct (_ && _).
  - destruct (dr_properties_map r) as [prop |]; cbn in H; [rewrite H |];
      [destruct (String.prefix _ _) |]; cbn [obind]; eexists (_ ++ []); unfold add_arrivals; cbn;
      by rewrite (assoc_L (++)).
  - exists []. unfold add_arrivals. rewrite app_nil_r. by destruct w.
Qed.

Lemma consume_queues (r : DispatchRequest) (w : Consumers) (q : ConsumeQueueStore) :
  one_queue r → build_consume_queue (queue_config cfg) (λ _, []) r (queues_of w) = Done q →
  ∃ w', consume_one r w = Done w' ∧ queues_of w' = q ∧
    is_readable (co_flags w') = is_readable (co_flags w).
Proof using Hindex Hnew.
  intros Hone Hq. unfold consume. cbn [lc_dispatch store_client]. unfold do_dispatch, dispatcher_vec.
  cbn [run_dispatchers]. unfold dispatch_to_queues, dispatch_to_index. rewrite Hnew, Hq, Hindex.
  cbn [obind].
  assert (Hr : is_readable (co_flags (with_queues q w)) = is_readable (co_flags w))
    by (by apply build_queue_readable in Hq).
  destruct (negb (notify_message_arrive_in_batch cfg)).
  - destruct (notify_one_queue r (with_queues q w) Hone) as [a ->]. eexists. split; [reflexivity |].
    split; [| done]. change (queues_of (add_arrivals a (with_queues q w)))
      with (queues_of (with_queues q w)). apply queues_of_with.
  - eexists. split; [reflexivity |]. split; [apply queues_of_with | done].
Qed.

Lemma consume_all_queues (rs : list (buffer * DispatchRequest)) (w : Consumers)
    (q : ConsumeQueueStore) :
  Forall (λ e, one_queue e.2) rs → build_queues (queue_config cfg) rs.*2 (queues_of w) = Done q →
  ∃ w', on_all (λ _ r w, consume_one r w) rs w = Done w' ∧ queues_of w' = q ∧
    is_readable (co_flags w') = is_readable (co_flags w).
Proof using Hindex Hnew.
  revert w. induction rs as [| [b r] rs IH]; intros w Hone Hq; cbn in Hq |- *.
  - exists w. by apply done_inj in Hq as <-.
  - apply Forall_cons_1 in Hone as [H1 Hone]. apply obind_done in Hq as (q1 & Hq1 & Hq).
    destruct (consume_queues r w q1 H1 Hq1) as (w1 & -> & <- & Hr1). cbn [obind].
    destruct (IH w1 Hone Hq) as (w' & -> & Hw' & Hr). exists w'. split_and!; [done | done | congruence].
Qed.
End Consume.

(** ** Growing the last segment *)

Lemma appended_holds (l l' : CommitLog) (b0 d : buffer) :
  log_holds l [b0] → Z.of_nat (length b0) < mapped_file_size (cl_queue l) →
  appended (cl_queue l) (cl_queue l') d →
  log_holds l' [b0 ++ d] ∧ seg_from l' 0 = seg_from l 0 ∧
  mapped_file_size (cl_queue l') = mapped_file_size (cl_queue l).
Proof.
  intros Hh Hlt (Hq' & _ & Hsz & _ & ms & f & f' & Hf' & Hlog & Hfr & _ & Hold).
  destruct (log_holds_lookup l [b0] 0 b0 Hh eq_refl) as (m & Hm & Hwf & Hlv & Hl & Hfs & Hw & _).
  pose proof (Forall2_length _ _ _ (lh_logs _ _ Hh)) as Hlen. cbn in Hlen.
  destruct (mapped_files (cl_queue l)) as [| m0 [|]] eqn:E; try (cbn in Hlen; lia).
  injection Hm as ->.
  assert (Hnf : is_full m = false).
  { unfold is_full. destruct (wf_casts _ Hwf) as [_ ->]. apply Z.eqb_neq. lia. }
  destruct Hold as [Hold | (<- & _ & _ & _ & Hl0)].
  2: { specialize (Hl0 m eq_refl). congruence. }
  destruct ms as [| ? [|]]; cbn in Hold; try done. injection Hold as <-.
  destruct Hfr as (Hwf' & Hff & _ & Hr & _).
  split_and!; [| | done].
  - constructor.
    + done.
    + rewrite Hf'. apply Forall_singleton. unfold mf_live. rewrite Hr. exact Hlv.
    + rewrite Hf'. constructor; [by rewrite Hlog, Hl | constructor].
    + intros i b _ Hi. cbn in Hi. lia.
  - unfold seg_from. rewrite E, Hf'. cbn. lia.
Qed.

Lemma log_holds_queue (l l' : CommitLog) (bs : list buffer) :
  cl_queue l' = cl_queue l → log_holds l bs → log_holds l' bs.
Proof. intros E []. constructor; by rewrite ?E. Qed.

Lemma single_room (l : CommitLog) (b0 : buffer) :
  log_holds l [b0] → Z.of_nat (length b0) < mapped_file_size (cl_queue l) →
  put_room (cl_queue l) = mapped_file_size (cl_queue l) - Z.of_nat (length b0) ∧
  get_max_offset (cl_queue l) = seg_from l 0 + Z.of_nat (length b0).
Proof.
  intros Hh Hlt. destruct (log_holds_lookup l [b0] 0 b0 Hh eq_refl) as
    (m & Hm & Hwf & Hlv & Hl & Hfs & Hw & Hf & _).
  pose proof (log_holds_max l [] b0 Hh) as Hmax.
  pose proof (Forall2_length _ _ _ (lh_logs _ _ Hh)) as Hlen. cbn in Hlen.
  split; [| exact Hmax]. unfold put_room. destruct (mapped_files (cl_queue l)) as [| m0 [|]]; try (cbn in Hlen; lia).
  injection Hm as ->. cbn [last]. unfold is_full. destruct (wf_casts _ Hwf) as [_ ->].
  rewrite (proj2 (Z.eqb_neq _ _)) by lia. lia.
Qed.

(** ** Requests in a row *)

Lemma in_log_snoc (p : Z) (rs : list DispatchRequest) (r : DispatchRequest) :
  in_log p rs → log_end p rs < msg_end r → in_s 64 (msg_end r) → in_log p (rs ++ [r]).
Proof.
  revert p. induction rs as [| x rs IH]; intros p Hl Hlt Hr; cbn in *; [done |].
  destruct Hl as (? & ? & Hl). split_and!; [done | done |]. by apply IH.
Qed.

Lemma numbered_snoc (limit : Z) (n : nat) (rs : list DispatchRequest) (r : DispatchRequest) :
  numbered limit n rs → dr_consume_queue_offset r = Z.of_nat (n + length rs) →
  20 * Z.of_nat (n + length rs) ≤ limit → unit_ok (unit_of r) → numbered limit n (rs ++ [r]).
Proof.
  revert n. induction rs as [| x rs IH]; intros n Hn Ho Hl Hu; cbn in *.
  - rewrite Nat.add_0_r in *. done.
  - destruct Hn as (? & ? & ? & Hn). split_and!; [done | done | done |].
    apply IH; [done | | | done]; rewrite Nat.add_succ_comm; done.
Qed.

Lemma queue_part_snoc (t : string) (i : Z) (rs : list DispatchRequest) (r : DispatchRequest) :
  in_queue r = true →
  queue_part t i (rs ++ [r]) =
  queue_part t i rs ++ (if decide (dr_topic r = t ∧ dr_queue_id r = i) then [r] else []).
Proof.
  intros Hin. unfold queue_part. rewrite filter_app, filter_cons. f_equal.
  repeat case_decide; try done; naive_solver.
Qed.

Lemma queue_part_length (t : string) (i : Z) (rs : list DispatchRequest) :
  (length (queue_part t i rs) ≤ length rs)%nat.
Proof. unfold queue_part. apply length_filter. Qed.

(** Every request names the place of its record, the first one at [base]. *)
Definition located (base : Z) (rs : list (buffer * DispatchRequest)) : Prop :=
  ∀ j e, rs !! j = Some e →
    dr_commit_log_offset e.2 = base + seg_len (take j rs) ∧
    dr_msg_size e.2 = Z.of_nat (length e.1).

Lemma located_snoc (base : Z) (rs : list (buffer * DispatchRequest)) (e : buffer * DispatchRequest) :
  located base rs → dr_commit_log_offset e.2 = base + seg_len rs →
  dr_msg_size e.2 = Z.of_nat (length e.1) → located base (rs ++ [e]).
Proof.
  intros Hl Ho Hs j x Hj. destruct (decide (j < length rs)%nat) as [Hlt | Hge].
  - rewrite lookup_app_l in Hj by done. rewrite take_app_le by lia. by apply Hl.
  - rewrite lookup_app_r in Hj by lia. apply list_lookup_singleton_Some in Hj as [Hz <-].
    replace j with (length rs) by lia. by rewrite take_app_length.
Qed.

Lemma located_end (base p : Z) (rs : list (buffer * DispatchRequest)) :
  located base rs → rs ≠ [] → log_end p rs.*2 = base + seg_len rs.
Proof.
  intros Hl Hne. destruct rs as [| e rs _] using rev_ind; [done |].
  destruct (Hl (length rs) e) as [Ho Hs]; [by apply list_lookup_middle |].
  rewrite take_app_length in Ho. rewrite fmap_app. cbn [fmap list_fmap].
  assert (Hend : ∀ p xs x, log_end p (xs ++ [x]) = msg_end x)
    by (intros q xs; revert q; induction xs; intros; cbn; auto).
  rewrite Hend. unfold msg_end. rewrite Ho, Hs, seg_len_app, seg_len_cons. unfold seg_len. cbn. lia.
Qed.

(** A record of a segment, by its place. *)
Lemma located_slice (rs : list (buffer * DispatchRequest)) (j : nat) (e : buffer * DispatchRequest) :
  rs !! j = Some e →
  let p := length (seg_bytes (take j rs)) in
  slice (seg_bytes rs) p (p + length e.1) = e.1 ∧ (p + length e.1 ≤ length (seg_bytes rs))%nat.
Proof.
  intros Hj p. assert (E : seg_bytes rs = seg_bytes (take j rs) ++ e.1 ++ seg_bytes (drop (S j) rs)).
  { rewrite <- (take_drop_middle _ _ _ Hj) at 1. by rewrite seg_bytes_app, seg_bytes_cons. }
  rewrite E. split.
  - by apply slice_app_middle.
  - rewrite !length_app. unfold p. lia.
Qed.

(** ** Messages that can be stored *)

Section Store.
Variable crc32fast : buffer → Z.
Variable decompression : CompressionType → buffer → outcome buffer.
Variable cfg : MessageStoreConfig.
Variable cenv : consumer_env.
Variable delay : DelayLevels.
Variable k : nat.

(** A master that keeps simple queues of [k] units per segment and flushes in the
    background. *)
Record plain_store : Prop := {
  ps_queues : simple_config k (queue_config cfg);
  ps_existing : ce_existing cenv = (λ _, []);
  ps_index : message_index_enable (log_config cfg) = false;
  ps_dup : duplication_enable (log_config cfg) = false;
  ps_ctl : enable_controller_mode (log_config cfg) = false;
  ps_act : enable_slave_acting_master (log_config cfg) = false;
  ps_crc : cfg_enabled_append_prop_crc (encoder_config (log_config cfg)) = false;
  ps_flush : flush_disk_type (log_config cfg) = AsyncFlush;
  ps_force : force_verify_prop_crc (log_config cfg) = false;
  ps_follows : follows_end (log_config cfg) (read_uncommitted cfg);
}.
Hypothesis Hps : plain_store.

(** The properties of a message as the record carries them. *)
Definition carried (m : MessageExtBrokerInner) : gmap string string :=
  record_properties (str_bytes (properties_string m)).

Record storable (env : put_env) (m : MessageExtBrokerInner) : Prop := {
  st_single : properties (message (message_ext_inner m)) !! MessageConst.PROPERTY_INNER_NUM = None;
  st_plain : MessageSysFlag.check (sys_flag (message_ext_inner m)) MessageSysFlag.INNER_BATCH_FLAG = false;
  st_task : pe_task_failed env = false;
  st_id : 0 ≤ queue_id (message_ext_inner m);
  st_enc : encodable (encoder_config (log_config cfg))
             (prepare_message crc32fast (log_config cfg) (pe_now env) m);
  st_len : record_len (prepare_message crc32fast (log_config cfg) (pe_now env) m)
             ≤ max_message_size (encoder_config (log_config cfg));
  st_in : enters_queue (prepare_message crc32fast (log_config cfg) (pe_now env) m) = true;
  st_wf : ∀ o off, in_s 64 o → in_s 64 off →
    let f := put_form crc32fast (log_config cfg) env o m in
    wf_record (version f) (stored_message f off) (body_of f) (str_bytes (properties_string f));
  st_tags : ∃ tc, tags_code_of delay (topic (message (message_ext_inner m))) (as_i64 (pe_begin env))
      (carried m) = Done tc ∧ in_s 64 tc ∧ is_ext_addr tc = false;
  st_batch : carried m !! MessageConst.PROPERTY_INNER_NUM = None;
  st_multi : carried m !! "INNER_MULTI_DISPATCH"%string = None;
}.

Lemma put_form_fields (env : put_env) (o : Z) (m : MessageExtBrokerInner) :
  let f := put_form crc32fast (log_config cfg) env o m in
  message (message_ext_inner f) = message (message_ext_inner m) ∧
  queue_id (message_ext_inner f) = queue_id (message_ext_inner m) ∧
  properties_string f = properties_string m ∧ queue_offset (message_ext_inner f) = o ∧
  store_timestamp (message_ext_inner f) = as_i64 (pe_begin env) ∧
  enters_queue f = enters_queue (prepare_message crc32fast (log_config cfg) (pe_now env) m) ∧
  record_len f = record_len (prepare_message crc32fast (log_config cfg) (pe_now env) m) ∧
  born_host (message_ext_inner f) = born_host (message_ext_inner m) ∧
  born_timestamp (message_ext_inner f) = born_timestamp (message_ext_inner m) ∧
  reconsume_times (message_ext_inner f) = reconsume_times (message_ext_inner m).
Proof using Hps.
  unfold put_form, prepare_message. rewrite (ps_crc Hps), (ps_dup Hps). cbv zeta.
  repeat match goal with |- context [if ?b then _ else _] => destruct b end; split_and!; reflexivity.
Qed.

(** What a consumer gets for a message: its bytes decode to it, with the queue
    offset it was given. *)
Definition delivered (m : MessageExtBrokerInner) (n : Z) (d : buffer) : Prop :=
  let e := message_ext_inner m in
  ∃ x, decode crc32fast decompression true false false false false d = Done (Some x, []) ∧
    topic (message x) = topic (message e) ∧ queue_id x = queue_id e ∧ queue_offset x = n ∧
    body (message x) = (match body_of m with [] => None | b => Some b end) ∧
    properties (message x) = carried m ∧ flag (message x) = flag (message e) ∧
    born_host x = born_host e ∧ born_timestamp x = born_timestamp e ∧
    reconsume_times x = reconsume_times e.

(** A record of the log and its request, for a message with queue offset [o]. *)
Record written (m : MessageExtBrokerInner) (o : Z) (e : buffer * DispatchRequest) : Prop := {
  wr_delivered : delivered m o e.1;
  wr_reput : reput_record crc32fast (log_config cfg) delay e;
  wr_one : one_queue e.2;
  wr_in : in_queue e.2 = true;
  wr_topic : dr_topic e.2 = topic (message (message_ext_inner m));
  wr_id : dr_queue_id e.2 = queue_id (message_ext_inner m);
  wr_offset : dr_consume_queue_offset e.2 = o;
  wr_tags : in_s 64 (dr_tags_code e.2) ∧ is_ext_addr (dr_tags_code e.2) = false;
}.

(** [f] is [m] as it is put at queue offset [o]. *)
Record put_as (env : put_env) (m : MessageExtBrokerInner) (o : Z) (f : MessageExtBrokerInner)
  : Prop := {
  pa_message : message (message_ext_inner f) = message (message_ext_inner m);
  pa_id : queue_id (message_ext_inner f) = queue_id (message_ext_inner m);
  pa_properties : properties_string f = properties_string m;
  pa_offset : queue_offset (message_ext_inner f) = o;
  pa_time : store_timestamp (message_ext_inner f) = as_i64 (pe_begin env);
  pa_enters : enters_queue f = true;
  pa_len : record_len f ≤ i32_MAX;
  pa_host : born_host (message_ext_inner f) = born_host (message_ext_inner m);
  pa_born : born_timestamp (message_ext_inner f) = born_timestamp (message_ext_inner m);
  pa_times : reconsume_times (message_ext_inner f) = reconsume_times (message_ext_inner m);
  pa_enc : encodable (encoder_config (log_config cfg)) f;
}.

Lemma put_as_offset (env : put_env) (m f : MessageExtBrokerInner) (o : Z) :
  put_as env m o f → stored_queue_offset f = o.
Proof using.
  intros []. unfold enters_queue in *. unfold stored_queue_offset.
  set (t := MessageSysFlag.get_transaction_value _) in *.
  assert (t = 0 ∨ t = MessageSysFlag.TRANSACTION_COMMIT_TYPE) as [-> | ->] by lia; done.
Qed.

Lemma put_as_request (env : put_env) (m f : MessageExtBrokerInner) (o off : Z) :
  storable env m → put_as env m o f →
  ∃ r, request_of delay (stored_message f off) (record_properties (str_bytes (properties_string f))) =
      Done r ∧ one_queue r ∧ in_queue r = true ∧
    dr_topic r = topic (message (message_ext_inner m)) ∧
    dr_queue_id r = queue_id (message_ext_inner m) ∧ dr_consume_queue_offset r = o ∧
    in_s 64 (dr_tags_code r) ∧ is_ext_addr (dr_tags_code r) = false ∧ dr_commit_log_offset r = off.
Proof using.
  intros Hst Hf. destruct (st_tags _ _ Hst) as (tc & Htc & Htr & Hext).
  pose proof (put_as_offset _ _ _ _ Hf) as Hso. destruct Hf.
  unfold request_of. rewrite pa_properties0. fold (carried m).
  cbn [stored_message message store_timestamp queue_id queue_offset sys_flag].
  rewrite pa_message0, pa_time0, Htc. cbn [obind]. unfold set_batch_size_if_needed.
  rewrite (st_batch _ _ Hst). cbn [obind]. eexists. split; [reflexivity |].
  unfold one_queue, in_queue. cbn. split_and!; try done; [by rewrite (st_multi _ _ Hst) |].
  unfold enters_queue in *.
  by rewrite (Z.eqb_sym 0), (Z.eqb_sym MessageSysFlag.TRANSACTION_COMMIT_TYPE) in pa_enters0.
Qed.

Lemma put_as_delivered (env : put_env) (m f : MessageExtBrokerInner) (o off : Z) :
  put_as env m o f →
  wf_record (version f) (stored_message f off) (body_of f) (str_bytes (properties_string f)) →
  delivered m o (stored_record f off).
Proof using.
  intros Hf Hwf. pose proof (put_as_offset _ _ _ _ Hf) as Hso. destruct Hf.
  assert (Hb : body_of f = body_of m) by (unfold body_of; by rewrite pa_message0).
  exists (decoded false (stored_message f off) (body_of f) (str_bytes (properties_string f))). split.
  - rewrite <- (app_nil_r (stored_record f off)). unfold stored_record.
    apply (decode_record crc32fast decompression (version f) (stored_message f off) (body_of f)
      (str_bytes (properties_string f)) [] false false false); [exact Hwf | done | done].
  - unfold decoded. cbn. rewrite Hso, pa_id0, pa_host0, pa_born0, pa_times0, pa_message0,
      pa_properties0, Hb. split_and!; try done. by destruct (body_of m).
Qed.

Lemma put_as_written (env : put_env) (m f : MessageExtBrokerInner) (o off : Z) :
  storable env m → put_as env m o f →
  wf_record (version f) (stored_message f off) (body_of f) (str_bytes (properties_string f)) →
  ∃ r, written m o (stored_record f off, r) ∧ dr_commit_log_offset r = off ∧
    dr_msg_size r = Z.of_nat (length (stored_record f off)) ∧
    Z.of_nat (length (stored_record f off)) = record_len f.
Proof using Hps.
  intros Hst Hf Hwf. pose proof (stored_record_length _ f off (pa_enc _ _ _ _ Hf)) as Hl.
  destruct (put_as_request env m f o off Hst Hf) as (r & Hreq & Hone & Hin & Ht & Hi & Hcq & Htg & Hx & Hcl).
  exists r. destruct (request_of_fields _ _ _ _ Hreq) as (_ & Hz & _).
  split_and!; [| done | by rewrite Hl | done].
  constructor; cbn [fst snd]; try done.
  - by apply (put_as_delivered env m f).
  - unfold stored_record. apply (stored_reput_record crc32fast (log_config cfg) delay (version f)
      (stored_message f off) (body_of f) (str_bytes (properties_string f)));
      [exact (ps_force Hps) | | exact Hwf | exact Hreq].
    split; rewrite <- record_len_stored; [done |]. apply (pa_len _ _ _ _ Hf).
Qed.

Lemma put_form_as (env : put_env) (m : MessageExtBrokerInner) (o : Z) :
  storable env m → put_as env m o (put_form crc32fast (log_config cfg) env o m).
Proof using Hps.
  intros Hst.
  destruct (put_form_fields env o m) as (Hmsg & Hid & Hps' & Hqo & Hts & Hent & Hlen & Hbh & Hbt & Hrt).
  constructor; try done.
  - rewrite Hent. exact (st_in _ _ Hst).
  - rewrite Hlen. pose proof (st_len _ _ Hst).
    pose proof (max_message_size_le (encoder_config (log_config cfg))). lia.
  - apply (encodable_irrelevant _ (prepare_message crc32fast (log_config cfg) (pe_now env) m));
      try reflexivity. exact (st_enc _ _ Hst).
Qed.

(** ** A store with messages not yet dispatched *)

(** The log holds the records [rs] in its one segment, none of them dispatched;
    the queues hold nothing, and their next offsets count the records. *)
Record pending (s : LocalFileMessageStore) (rs : list (buffer * DispatchRequest)) : Prop := {
  pd_log : log_holds (log_of s) [seg_bytes rs];
  pd_size : mapped_file_size_commit_log (log_config cfg) = mapped_file_size (cl_queue (log_of s));
  pd_grow : seg_from (log_of s) 0 + 2 * mapped_file_size (cl_queue (log_of s)) ≤ i64_MAX;
  pd_queues : store_holds k (λ _ _, O) (λ _ _, []) (-1) (queues_of (ms_consumers s));
  pd_offsets : ∀ t i, 0 ≤ i →
    offset_of t i (ms_consumers s) = Z.of_nat (length (queue_part t i rs.*2));
  pd_records : Forall (λ e, ∃ m, written m (dr_consume_queue_offset e.2) e) rs;
  pd_located : located (seg_from (log_of s) 0) rs;
  pd_inlog : in_log (-1) rs.*2;
  pd_numbered : ∀ t i, numbered (i64_MAX - 40 * Z.of_nat k) 0 (queue_part t i rs.*2);
  pd_reput : ms_reput_from s = Some (seg_from (log_of s) 0);
  pd_open : ms_shutdown s = false ∧ is_readable (co_flags (ms_consumers s)) = true;
}.

(** Room for a message behind the records. *)
Definition room_for (env : put_env) (m : MessageExtBrokerInner) (s : LocalFileMessageStore)
    (rs : list (buffer * DispatchRequest)) : Prop :=
  seg_len rs + record_len (prepare_message crc32fast (log_config cfg) (pe_now env) m) + 8
    ≤ mapped_file_size (cl_queue (log_of s)).

Lemma pending_count (s : LocalFileMessageStore) (rs : list (buffer * DispatchRequest)) :
  pending s rs → Z.of_nat (length rs) ≤ seg_len rs.
Proof using.
  intros Hp. apply (seg_len_pos crc32fast (log_config cfg) delay).
  eapply Forall_impl; [exact (pd_records _ _ Hp) |]. intros e (m & Hw). apply (wr_reput _ _ _ Hw).
Qed.

(** The room in the segment bounds everything else. *)
Lemma pending_bounds (s : LocalFileMessageStore) (rs : list (buffer * DispatchRequest)) :
  pending s rs → seg_len rs < mapped_file_size (cl_queue (log_of s)) →
  0 ≤ seg_from (log_of s) 0 ∧ mapped_file_size (cl_queue (log_of s)) ≤ i32_MAX ∧
  seg_from (log_of s) 0 + mapped_file_size (cl_queue (log_of s)) ≤ i64_MAX ∧
  ∀ t i, Z.of_nat (length (queue_part t i rs.*2)) ≤ i32_MAX.
Proof using.
  intros Hp Hlt. pose proof (pending_count s rs Hp) as Hc.
  destruct (log_holds_lookup _ _ 0 _ (pd_log _ _ Hp) eq_refl) as (_ & _ & _ & _ & _ & _ & _ & _ & H0 & H1 & _).
  pose proof (q_size _ (lh_ok _ _ (pd_log _ _ Hp))) as Hsz.
  split_and!; try done; [lia |]. intros t i. pose proof (queue_part_length t i rs.*2) as Hl.
  rewrite length_fmap in Hl. lia.
Qed.

(** The queue type of the topic, which the store hands to the log, does not
    change what is written. *)
Local Notation env_of env m :=
  (with_cq_type (get_cq_type (topic_attributes (queue_config cfg)
     (topic (message (message_ext_inner m))))) env).

(** Offset, put in the log, next offset. *)
Lemma put_in_log (env : put_env) (m : MessageExtBrokerInner) (s : LocalFileMessageStore)
    (rs : list (buffer * DispatchRequest)) :
  pending s rs → storable env m → room_for env m s rs →
  let e := message_ext_inner m in
  let o := Z.of_nat (length (queue_part (topic (message e)) (queue_id e) rs.*2)) in
  let f := put_form crc32fast (log_config cfg) env o m in
  let off := seg_from (log_of s) 0 + seg_len rs in
  ∃ q w a, put_message (LogClient0 := store_client cfg cenv) crc32fast (log_config cfg) (env_of env m)
      m (log_of s) (ms_consumers s) =
      Done (set_cl_queue q (set_begin_time 0 (log_of s)), w, new_append_result StatusPutOk (Some a)) ∧
    logics_offset a = o ∧ status a = PutOk ∧
    appended (cl_queue (log_of s)) q (stored_record f off) ∧
    store_holds k (λ _ _, O) (λ _ _, []) (-1) (queues_of w) ∧ co_flags w = co_flags (ms_consumers s) ∧
    ∀ t i, offset_of t i w = offset_of t i (ms_consumers s) +
      (if decide (topic_queue_key (topic (message e)) (queue_id e) = topic_queue_key t i) then 1 else 0).
Proof using Hps.
  intros Hp Hst Hroom e o f off.
  assert (Hlt : seg_len rs < mapped_file_size (cl_queue (log_of s))).
  { unfold room_for in Hroom. pose proof (record_len_pos (prepare_message crc32fast (log_config cfg)
      (pe_now env) m)). lia. }
  destruct (pending_bounds s rs Hp Hlt) as (H0 & H32 & H64 & Hcount).
  pose proof (put_form_as env m o Hst) as Hf. fold f in Hf.
  destruct (assign_holds cfg k (λ _ _, O) (ps_queues Hps) (λ _ _, []) (-1) f ltac:(lia)
    (ms_consumers s) (pd_queues _ _ Hp)) as (w1 & Has & Hs1 & Hfl1 & Hof1).
  rewrite (pa_message _ _ _ _ Hf), (pa_id _ _ _ _ Hf), (pd_offsets _ _ Hp) in Has by (apply (st_id _ _ Hst)).
  fold e o in Has.
  destruct (increase_holds cfg k (λ _ _, O) (ps_queues Hps) (λ _ _, []) (-1) f ltac:(lia) 1 w1 Hs1)
    as (w2 & Hinc & Hs2 & Hfl2 & Hof2).
  { rewrite Hof1, (pa_message _ _ _ _ Hf), (pa_id _ _ _ _ Hf), (pd_offsets _ _ Hp)
      by (apply (st_id _ _ Hst)). specialize (Hcount (topic (message e)) (queue_id e)).
    unfold e, i32_MAX in *. in_range. }
  rewrite (pa_message _ _ _ _ Hf), (pa_id _ _ _ _ Hf) in Hof2.
  destruct (single_room (log_of s) (seg_bytes rs) (pd_log _ _ Hp) Hlt) as [Hpr Hmax].
  assert (Hready : put_ready (LogClient0 := store_client cfg cenv) crc32fast (log_config cfg)
    (env_of env m) m (log_of s) (ms_consumers s) w1 w2 o).
  { constructor.
    - exact (ps_dup Hps).
    - exact (ps_ctl Hps).
    - exact (ps_act Hps).
    - exact (ps_crc Hps).
    - exact (st_enc _ _ Hst).
    - exact (st_len _ _ Hst).
    - exact (st_in _ _ Hst).
    - exact Has.
    - change (put_form crc32fast (log_config cfg) (env_of env m) o m) with f.
      replace (get_message_num _ f) with 1; [exact Hinc |]. unfold get_message_num.
      rewrite (pa_message _ _ _ _ Hf).
      change "INNER_NUM"%string with MessageConst.PROPERTY_INNER_NUM.
      rewrite (st_single _ _ Hst). by destruct (_ || _).
    - exact (lh_ok _ _ (pd_log _ _ Hp)).
    - intros x Hx. pose proof (pd_grow _ _ Hp) as Hg.
      destruct (log_holds_lookup _ _ 0 _ (pd_log _ _ Hp) eq_refl)
        as (y & Hy & _ & _ & _ & _ & _ & Hfy & _).
      pose proof (Forall2_length _ _ _ (lh_logs _ _ (pd_log _ _ Hp))) as Hl. cbn [length] in Hl.
      rewrite last_lookup, Hl in Hx. change (pred 1) with 0%nat in Hx. rewrite Hy in Hx.
      injection Hx as <-. rewrite Hfy. exact Hg. }
  destruct (put_appends (LogClient0 := store_client cfg cenv) crc32fast (log_config cfg) (env_of env m) m
    (log_of s) (ms_consumers s) w1 w2 o Hready) as (q & a & Hrun & _ & _ & Hlo & Hsta & Happ).
  { change (put_form crc32fast (log_config cfg) (env_of env m) o m) with f.
    destruct (put_form_fields env o m) as (_ & _ & _ & _ & _ & _ & Hlen & _). fold f in Hlen.
    rewrite Hlen, Hpr. unfold room_for, seg_len in *. lia. }
  cbv zeta in Hrun. change (put_form crc32fast (log_config cfg) (env_of env m) o m) with f in Happ.
  rewrite Hmax in Happ. exists q, w2, a. split_and!; try done.
  - rewrite Hrun. unfold handle_disk_flush_and_ha, handle_disk_flush.
    cbn [append_message_result new_append_result unwrap obind]. cbn [with_cq_type pe_task_failed].
    rewrite (st_task _ _ Hst), (ps_flush Hps). cbn [obind set_put_message_status append_message_result new_append_result].
    unfold handle_ha. by destruct (need_handle_ha _ _).
  - congruence.
  - intros t i. by rewrite Hof2, Hof1.
Qed.

(** One more message. *)
Lemma put_step (env : put_env) (m : MessageExtBrokerInner) (s : LocalFileMessageStore)
    (rs : list (buffer * DispatchRequest)) :
  pending s rs → storable env m → room_for env m s rs →
  let e := message_ext_inner m in
  let o := Z.of_nat (length (queue_part (topic (message e)) (queue_id e) rs.*2)) in
  ∃ s' a x, store_put_message crc32fast cfg cenv [] env m s =
      Done (s', new_append_result StatusPutOk (Some a)) ∧ logics_offset a = o ∧
    written m o x ∧ pending s' (rs ++ [x]) ∧
    mapped_file_size (cl_queue (log_of s')) = mapped_file_size (cl_queue (log_of s)) ∧
    seg_len (rs ++ [x]) =
      seg_len rs + record_len (prepare_message crc32fast (log_config cfg) (pe_now env) m).
Proof using Hps.
  intros Hp Hst Hroom e o.
  assert (Hlt : seg_len rs < mapped_file_size (cl_queue (log_of s))).
  { unfold room_for in Hroom. pose proof (record_len_pos (prepare_message crc32fast (log_config cfg)
      (pe_now env) m)). lia. }
  destruct (pending_bounds s rs Hp Hlt) as (H0 & H32 & H64 & Hcount).
  destruct (put_in_log env m s rs Hp Hst Hroom) as (q & w & a & Hrun & Hlo & Hsta & Happ & Hs & Hfl & Hof).
  fold e o in Hlo, Happ, Hof. set (off := seg_from (log_of s) 0 + seg_len rs) in *.
  assert (0 ≤ seg_len rs) by (unfold seg_len; lia). unfold i32_MAX, i64_MAX in *.
  pose proof (Hcount (topic (message e)) (queue_id e)) as Ho. fold o in Ho.
  assert (Ho64 : in_s 64 o) by (unfold o in *; in_range).
  assert (Hoff64 : in_s 64 off) by (unfold off in *; in_range).
  destruct (put_as_written env m _ o off Hst (put_form_as env m o Hst) (st_wf _ _ Hst o off Ho64 Hoff64))
    as (r & Hw & Hcl & Hsz & Hlen).
  destruct (put_form_fields env o m) as (_ & _ & _ & _ & _ & _ & Hfl2 & _).
  set (x := (stored_record (put_form crc32fast (log_config cfg) env o m) off, r)) in *.
  rewrite Hfl2 in Hlen.
  assert (Hsl : seg_len (rs ++ [x]) =
    seg_len rs + record_len (prepare_message crc32fast (log_config cfg) (pe_now env) m)).
  { rewrite seg_len_app, seg_len_cons. cbn [fst x]. rewrite Hlen. unfold seg_len. cbn. lia. }
  set (l' := set_cl_queue q (set_begin_time 0 (log_of s))) in *.
  destruct (appended_holds (log_of s) l' (seg_bytes rs) x.1 (pd_log _ _ Hp) Hlt Happ)
    as (Hh & Hsf & Hms).
  set (s' := with_log l' (set_consumers w s)).
  exists s', a, x. split.
  { unfold store_put_message. cbn [run_hooks].
    rewrite (bool_decide_false (is_Some (_ !! MessageConst.PROPERTY_INNER_NUM)))
      by (rewrite (st_single _ _ Hst); by intros []).
    rewrite (st_plain _ _ Hst). cbn [andb negb]. rewrite Hrun. cbn [obind].
    unfold is_ok. cbn [remote_put new_append_result append_message_result]. by rewrite Hsta. }
  split; [exact Hlo |]. split; [exact Hw |]. split; [| by split].
  assert (Hends : msg_end r = off + record_len (prepare_message crc32fast (log_config cfg) (pe_now env) m))
    by (unfold msg_end; rewrite Hcl, Hsz; cbn [x fst] in *; lia).
  pose proof (record_len_pos (prepare_message crc32fast (log_config cfg) (pe_now env) m)).
  unfold room_for in Hroom.
  assert (Hin : in_queue r = true) by apply (wr_in _ _ _ Hw).
  constructor.
  - rewrite seg_bytes_app. change (seg_bytes [x]) with (x.1 ++ []). rewrite app_nil_r.
    by apply (log_holds_queue l').
  - etrans; [exact (pd_size _ _ Hp) |]. symmetry. exact Hms.
  - etrans; [| exact (pd_grow _ _ Hp)].
    change (seg_from l' 0 + 2 * mapped_file_size (cl_queue l') ≤
            seg_from (log_of s) 0 + 2 * mapped_file_size (cl_queue (log_of s))). lia.
  - exact Hs.
  - intros t i Hi. change (offset_of t i (ms_consumers s')) with (offset_of t i w).
    rewrite Hof, (pd_offsets _ _ Hp) by done. rewrite fmap_app. cbn [fmap list_fmap x snd].
    rewrite queue_part_snoc, length_app by done. pose proof (wr_topic _ _ _ Hw) as Ht.
    pose proof (wr_id _ _ _ Hw) as Hi'. cbn [snd x] in Ht, Hi'. rewrite Ht, Hi'. fold e.
    destruct (decide (topic_queue_key _ _ = _)) as [Hk | Hk].
    + apply topic_queue_key_inj in Hk as [<- <-]; [| apply (st_id _ _ Hst) | done].
      rewrite decide_True by done. cbn. lia.
    + rewrite decide_False by (intros [<- <-]; done). cbn. lia.
  - apply Forall_app. split; [exact (pd_records _ _ Hp) |]. apply Forall_singleton. exists m.
    by rewrite (wr_offset _ _ _ Hw).
  - change (seg_from (log_of s') 0) with (seg_from l' 0). rewrite Hsf.
    apply located_snoc; [exact (pd_located _ _ Hp) | exact Hcl | exact Hsz].
  - rewrite fmap_app. apply in_log_snoc; [exact (pd_inlog _ _ Hp) | |].
    + cbn [snd x]. rewrite Hends. destruct (decide (rs = [])) as [-> | Hne].
      * cbn. unfold off, seg_len. cbn. lia.
      * rewrite (located_end _ (-1) rs (pd_located _ _ Hp) Hne). unfold off. lia.
    + cbn [snd x]. rewrite Hends. unfold off. in_range.
  - intros t i. rewrite fmap_app. cbn [fmap list_fmap x snd]. rewrite queue_part_snoc by done.
    case_decide as Hd; [| rewrite app_nil_r; apply (pd_numbered _ _ Hp)].
    pose proof (sc_max _ _ (ps_queues Hps)) as Hk. unfold i32_MAX in Hk.
    pose proof (wr_offset _ _ _ Hw) as Hco. cbn [snd x] in Hco.
    pose proof (wr_topic _ _ _ Hw) as Ht. pose proof (wr_id _ _ _ Hw) as Hi'. cbn [snd x] in Ht, Hi'.
    specialize (Hcount t i).
    apply numbered_snoc; [apply (pd_numbered _ _ Hp) | | unfold i64_MAX; lia |].
    + rewrite Hco. unfold o, e. destruct Hd as [<- <-]. by rewrite Ht, Hi'.
    + destruct (wr_tags _ _ _ Hw) as [Htg _]. cbn [snd x] in Htg. split_and!; cbn.
      * by rewrite Hcl.
      * rewrite Hsz. cbn [x fst] in *. rewrite Hlen. in_range.
      * done.
  - change (seg_from (log_of s') 0) with (seg_from l' 0). rewrite Hsf. exact (pd_reput _ _ Hp).
  - change (ms_shutdown s = false ∧ is_readable (co_flags w) = true). rewrite Hfl. exact (pd_open _ _ Hp).
Qed.

(** ** Messages put one after the other *)

Fixpoint put_all (ms : list (put_env * MessageExtBrokerInner)) (s : LocalFileMessageStore)
  : outcome (LocalFileMessageStore * list PutMessageResult) :=
  match ms with
  | [] => Done (s, [])
  | (env, m) :: ms' =>
      let* (s, r) := store_put_message crc32fast cfg cenv [] env m s in
      let* (s, rs) := put_all ms' s in Done (s, r :: rs)
  end.

(** The bytes the messages take in the log. *)
Definition stored_bytes (ms : list (put_env * MessageExtBrokerInner)) : Z :=
  foldr (λ x a, record_len (prepare_message crc32fast (log_config cfg) (pe_now x.1) x.2) + a) 0 ms.

Lemma stored_bytes_pos (ms : list (put_env * MessageExtBrokerInner)) : 0 ≤ stored_bytes ms.
Proof using.
  unfold stored_bytes. induction ms as [| x ms IH]; [done |]. cbn.
  pose proof (record_len_pos (prepare_message crc32fast (log_config cfg) (pe_now x.1) x.2)). lia.
Qed.

Lemma put_all_pending (ms : list (put_env * MessageExtBrokerInner)) (s : LocalFileMessageStore)
    (rs : list (buffer * DispatchRequest)) :
  pending s rs → Forall (λ x, storable x.1 x.2) ms →
  seg_len rs + stored_bytes ms + 8 ≤ mapped_file_size (cl_queue (log_of s)) →
  ∃ s' rts xs, put_all ms s = Done (s', rts) ∧
    Forall (λ r, put_message_status r = StatusPutOk) rts ∧ pending s' (rs ++ xs) ∧
    Forall2 (λ m x, written m.2 (dr_consume_queue_offset x.2) x) ms xs.
Proof using Hps.
  revert s rs. induction ms as [| [env m] ms IH]; intros s rs Hp Hst Hroom.
  - exists s, [], []. rewrite app_nil_r. split_and!; [done | done | done | constructor].
  - apply Forall_cons_1 in Hst as [Hm Hst]. pose proof (stored_bytes_pos ms) as Hpos.
    cbn [put_all stored_bytes foldr fst snd] in *. fold (stored_bytes ms) in Hroom.
    destruct (put_step env m s rs Hp Hm) as (s1 & a & x & Hrun & _ & Hw & Hp1 & Hms & Hsl).
    { unfold room_for. lia. }
    destruct (IH s1 (rs ++ [x]) Hp1 Hst) as (s' & rts & xs & Hrun' & Hok & Hp' & Hall).
    { rewrite Hms, Hsl. lia. }
    rewrite <- (assoc_L (++)) in Hp'. exists s', (new_append_result StatusPutOk (Some a) :: rts), (x :: xs).
    rewrite Hrun. cbn [obind]. rewrite Hrun'. cbn [obind]. split_and!; [done | | done |].
    + by apply Forall_cons.
    + constructor; [| done]. cbn [snd]. by rewrite (wr_offset _ _ _ Hw).
Qed.

(** ** Dispatched *)

Lemma reput_pending (s : LocalFileMessageStore) (rs : list (buffer * DispatchRequest)) :
  pending s rs →
  ∃ s', store_do_reput crc32fast cfg cenv delay 2 s = Done (Ended s') ∧
    log_holds (log_of s') [seg_bytes rs] ∧ cl_max_offset (log_of s') = cl_max_offset (log_of s) ∧
    seg_from (log_of s') 0 = seg_from (log_of s) 0 ∧
    mapped_file_size (cl_queue (log_of s')) = mapped_file_size (cl_queue (log_of s)) ∧
    store_holds k (λ _ _, O) (λ t i, unit_of <$> queue_part t i rs.*2) (log_end (-1) rs.*2)
      (queues_of (ms_consumers s')) ∧
    ms_shutdown s' = false ∧ is_readable (co_flags (ms_consumers s')) = true.
Proof using Hps.
  intros Hp. pose proof (sc_k _ _ (ps_queues Hps)) as Hk.
  destruct (build_queues_holds k (queue_config cfg) (λ _ _, O) (ps_queues Hps) (λ _ _, []) (-1) rs.*2
    (queues_of (ms_consumers s))) as (q & Hq & Hs & _);
    [lia | exact (pd_queues _ _ Hp) | exact (pd_inlog _ _ Hp) | exact (pd_numbered _ _ Hp) |].
  destruct (consume_all_queues cfg cenv (ps_index Hps) (ps_existing Hps) rs (ms_consumers s) q)
    as (w & Hw & Hwq & Hr); [| exact Hq |].
  { eapply Forall_impl; [exact (pd_records _ _ Hp) |]. intros e (m & Hm). apply (wr_one _ _ _ Hm). }
  pose proof (log_holds_max _ [] _ (pd_log _ _ Hp)) as Hmax.
  destruct (log_holds_lookup _ _ 0 _ (pd_log _ _ Hp) eq_refl) as (_ & _ & _ & _ & _ & _ & _ & _ & H0 & H1 & Hle).
  destruct (min_offset_holds (log_config cfg) (log_of s) _ 0 _ (pd_log _ _ Hp) eq_refl) as (low & Hlow & Hll).
  destruct (reput_loop_segments (LogClient0 := store_client cfg cenv) crc32fast (log_config cfg) delay
    (read_uncommitted cfg) (notify_message_arrive_in_batch cfg) (enable_dledger_commit_log cfg)
    (notify_message_arrive_if_necessary cfg) (ps_follows Hps) [] [] [] (seg_bytes rs) [] rs (log_of s)
    (ms_consumers s) w (pd_log _ _ Hp) (pd_size _ _ Hp)) as (l' & Hrun & Hh & Hm & Hz).
  { rewrite Hmax. cbn [length]. lia. }
  { split; [done |]. eapply Forall_impl; [exact (pd_records _ _ Hp) |].
    intros e (m & Hm). apply (wr_reput _ _ _ Hm). }
  { cbn [concat]. rewrite app_nil_r. exact Hw. }
  cbn [length Nat.add] in Hrun. rewrite Z.add_0_r in Hrun || change (seg_len []) with 0 in Hrun.
  unfold store_do_reput. rewrite (pd_reput _ _ Hp). cbn [unwrap obind]. unfold do_reput.
  rewrite Hlow. cbn [obind]. rewrite (proj2 (Z.ltb_ge _ _)) by lia.
  rewrite ?Z.add_0_r in Hrun. rewrite Hrun. cbn [obind].
  eexists. split; [reflexivity |]. split_and!.
  - by apply (log_holds_queue l').
  - exact Hm.
  - pose proof (log_holds_max l' [] _ Hh) as Hmax'. cbn [length] in Hmax, Hmax'.
    change (seg_from l' 0 = seg_from (log_of s) 0). lia.
  - exact Hz.
  - change (queues_of (ms_consumers (set_reput_from (Some (cl_max_offset (log_of s)))
      (with_log l' (set_consumers w s))))) with (queues_of w). rewrite Hwq. exact Hs.
  - apply (pd_open _ _ Hp).
  - change (is_readable (co_flags w) = true). rewrite Hr. apply (pd_open _ _ Hp).
Qed.

(** ** Read *)

(** The messages, and the records, of one queue. *)
Definition messages_of (t : string) (i : Z) (ms : list (put_env * MessageExtBrokerInner)) :=
  filter (λ x, topic (message (message_ext_inner x.2)) = t ∧ queue_id (message_ext_inner x.2) = i) ms.
Definition records_of (t : string) (i : Z) (xs : list (buffer * DispatchRequest)) :=
  filter (λ x, dr_topic x.2 = t ∧ dr_queue_id x.2 = i) xs.

Lemma records_part (t : string) (i : Z) (xs : list (buffer * DispatchRequest)) :
  Forall (λ x, in_queue x.2 = true) xs → (records_of t i xs).*2 = queue_part t i xs.*2.
Proof using.
  unfold records_of, queue_part. induction 1 as [| x xs Hx _ IH]; [done |].
  rewrite fmap_cons, !filter_cons. destruct (decide (dr_topic x.2 = t ∧ dr_queue_id x.2 = i)).
  - rewrite decide_True by done. by rewrite fmap_cons, IH.
  - rewrite decide_False by naive_solver. exact IH.
Qed.

Lemma records_messages (t : string) (i : Z) (ms : list (put_env * MessageExtBrokerInner))
    (xs : list (buffer * DispatchRequest)) :
  Forall2 (λ m x, written m.2 (dr_consume_queue_offset x.2) x) ms xs →
  Forall2 (λ m x, written m.2 (dr_consume_queue_offset x.2) x) (messages_of t i ms) (records_of t i xs).
Proof using.
  unfold messages_of, records_of. induction 1 as [| m x ms xs Hw _ IH]; [constructor |].
  rewrite !filter_cons. rewrite <- (wr_topic _ _ _ Hw), <- (wr_id _ _ _ Hw). case_decide; [by constructor | done].
Qed.

Lemma numbered_offset (limit : Z) (n j : nat) (rs : list DispatchRequest) (r : DispatchRequest) :
  numbered limit n rs → rs !! j = Some r → dr_consume_queue_offset r = Z.of_nat (n + j).
Proof using.
  revert n j. induction rs as [| x rs IH]; intros n j Hn Hj; [done |].
  destruct Hn as (Hx & _ & _ & Hn). destruct j as [| j]; [injection Hj as <-; by rewrite Nat.add_0_r |].
  rewrite <- Nat.add_succ_comm. by apply IH.
Qed.

Definition entry_of (x : buffer * DispatchRequest) : unit_data * buffer := (unit_of x.2, x.1).

Lemma pending_entries (s s' : LocalFileMessageStore) (xs : list (buffer * DispatchRequest)) (t : string)
    (i : Z) :
  pending s xs → cl_max_offset (log_of s') = cl_max_offset (log_of s) →
  seg_from (log_of s') 0 = seg_from (log_of s) 0 →
  Forall (entry_ok (cl_max_offset (log_of s')) [seg_bytes xs] (seg_from (log_of s')))
    (entry_of <$> records_of t i xs) ∧
  Forall (λ u, unit_ok u ∧ is_ext_addr (u_tags u) = false) (entry_of <$> records_of t i xs).*1.
Proof using.
  intros Hp Hmax Hsf. pose proof (log_holds_max _ [] _ (pd_log _ _ Hp)) as Hm. cbn [length] in Hm.
  destruct (log_holds_lookup _ _ 0 _ (pd_log _ _ Hp) eq_refl) as (_ & _ & _ & _ & _ & _ & _ & _ & H0 & H1 & Hle).
  pose proof (q_size _ (lh_ok _ _ (pd_log _ _ Hp))) as Hsz. unfold i32_MAX, i64_MAX in *.
  assert (Hall : Forall (λ x, entry_ok (cl_max_offset (log_of s')) [seg_bytes xs] (seg_from (log_of s'))
    (entry_of x) ∧ unit_ok (unit_of x.2) ∧ is_ext_addr (dr_tags_code x.2) = false) xs).
  { apply Forall_lookup. intros j x Hj. destruct (pd_located _ _ Hp j x Hj) as [Ho Hs].
    destruct (located_slice xs j x Hj) as [Hsl Hin].
    destruct (Forall_lookup_1 _ _ _ _ (pd_records _ _ Hp) Hj) as (m & Hw).
    destruct (wr_reput _ _ _ Hw) as (Hpos & _). destruct (wr_tags _ _ _ Hw) as [Htg Hx].
    unfold seg_len in Ho. unfold entry_ok, unit_ok. split_and!.
    - exists 0%nat, (seg_bytes xs), (length (seg_bytes (take j xs))). cbn. rewrite Hsf.
      split_and!; try done.
    - cbn. unfold i32_MAX. lia.
    - cbn. lia.
    - cbn. lia.
    - cbn. in_range.
    - cbn. in_range.
    - done.
    - done. }
  assert (Hpart : Forall (λ x, entry_ok (cl_max_offset (log_of s')) [seg_bytes xs] (seg_from (log_of s'))
    (entry_of x) ∧ unit_ok (unit_of x.2) ∧ is_ext_addr (dr_tags_code x.2) = false) (records_of t i xs)).
  { rewrite Forall_forall in Hall. apply Forall_forall. intros x Hx. apply list_elem_of_filter in Hx as [_ Hx].
    by apply Hall. }
  split.
  - apply Forall_fmap. eapply Forall_impl; [exact Hpart |]. by intros x (? & _).
  - rewrite <- list_fmap_compose. apply Forall_fmap.
    eapply Forall_impl; [exact Hpart |]. intros x (_ & ? & ?). done.
Qed.

(** The bounds of a read are not degenerate. *)
Definition read_limits (nums sz : Z) (s : LocalFileMessageStore) : Prop :=
  limits_ok cfg nums (Z.min (Z.max sz 100) MAX_PULL_MSG_SIZE) (cl_max_offset (log_of s)) ∧
  (0 < travel_cq_file_num_when_get_message cfg)%nat ∧
  disk_fall_recorded cfg && negb (broker_stats cfg) = false.

Lemma dispatched_read (ms : list (put_env * MessageExtBrokerInner)) (s s' : LocalFileMessageStore)
    (xs : list (buffer * DispatchRequest)) (t : string) (i : Z) (o : nat) (group : string) (nums sz : Z) :
  let mine := messages_of t i ms in
  pending s xs → Forall2 (λ m x, written m.2 (dr_consume_queue_offset x.2) x) ms xs →
  log_holds (log_of s') [seg_bytes xs] → cl_max_offset (log_of s') = cl_max_offset (log_of s) →
  seg_from (log_of s') 0 = seg_from (log_of s) 0 →
  mapped_file_size (cl_queue (log_of s')) = mapped_file_size (cl_queue (log_of s)) →
  store_holds k (λ _ _, O) (λ t i, unit_of <$> queue_part t i xs.*2) (log_end (-1) xs.*2)
    (queues_of (ms_consumers s')) →
  ms_shutdown s' = false → is_readable (co_flags (ms_consumers s')) = true →
  get_delete_policy (topic_attributes (queue_config cfg) t) = Done DELETE →
  (o < length mine)%nat → (length mine ≤ k)%nat → read_limits nums sz s' →
  ∃ s'' r ds, get_message_with_size_limit cfg (S (length mine)) group t i (Z.of_nat o) nums sz None s' =
      Done (Ended (s'', Some r)) ∧ gr_status r = Some Found ∧ result_bytes r = Some <$> ds ∧
    (0 < length ds)%nat ∧ next_begin_offset r = Z.of_nat (o + length ds) ∧
    gr_max_offset r = Z.of_nat (length mine) ∧
    ∀ j d, ds !! j = Some d →
      ∃ m, mine !! (o + j)%nat = Some m ∧ delivered m.2 (Z.of_nat (o + j)) d.
Proof using Hps.
  intros mine Hp Hms Hh Hmax Hsf Hmz Hsh Hsd Hrd Hpol Ho Hle (Hlim & Htr & Hst).
  pose proof (records_messages t i ms xs Hms) as Hmine. fold mine in Hmine.
  pose proof (Forall2_length _ _ _ Hmine) as Hlen.
  assert (Hin : Forall (λ x, in_queue x.2 = true) xs).
  { eapply Forall_impl; [exact (pd_records _ _ Hp) |]. intros x (m & Hw). apply (wr_in _ _ _ Hw). }
  pose proof (records_part t i xs Hin) as Hpart.
  set (es := entry_of <$> records_of t i xs).
  assert (Hes : es.*1 = unit_of <$> queue_part t i xs.*2).
  { unfold es. rewrite <- Hpart, <- !list_fmap_compose. done. }
  assert (Hel : length es = length mine) by (unfold es; by rewrite length_fmap).
  assert (Hne : es.*1 ≠ []) by (intros E; apply (f_equal length) in E; rewrite length_fmap in E; cbn in E; lia).
  destruct (pending_entries s s' xs t i Hp Hmax Hsf) as [Hent Hunits]. fold es in Hent, Hunits.
  destruct Hsh as [_ Hsh]. specialize (Hsh t i).
  destruct (slot_at t i (queues_of (ms_consumers s'))) as [[c | bq] |] eqn:Ec; cbn in Hsh;
    [| done | by rewrite <- Hes in Hsh].
  destruct Hsh as (_ & _ & Hc & _).
  assert (Hcount : Z.of_nat (length es) ≤ 2 ^ 61).
  { rewrite Hel, Hlen. unfold records_of.
    pose proof (length_filter (λ x, dr_topic x.2 = t ∧ dr_queue_id x.2 = i) xs).
    pose proof (pending_count s xs Hp).
    destruct (log_holds_lookup _ _ 0 _ (pd_log _ _ Hp) eq_refl) as (_ & _ & _ & _ & _ & _ & _ & _ & _ & _ & Hl).
    pose proof (q_size _ (lh_ok _ _ (pd_log _ _ Hp))). unfold seg_len, i32_MAX in *. lia. }
  assert (Hrq : readable_queue cfg k o c es (log_of s') [seg_bytes xs] nums sz).
  { destruct (holds_keeps _ _ (length es) Hh Hcount) as [Hk Hsl]. constructor.
    - rewrite Hes. exact Hc.
    - eapply Forall_impl; [exact Hunits |]. by intros u [? _].
    - eapply Forall_impl; [exact Hunits |]. by intros u [_ ?].
    - rewrite length_fmap. lia.
    - split_and!; try done. rewrite Hmz. exact (pd_size _ _ Hp).
    - exact Hent.
    - exact Hlim.
    - exact Htr.
    - exact Hst. }
  assert (Hfrom : reads_from cfg t i c s') by (by split_and!).
  destruct (get_from_queue_returns cfg k o c es (log_of s') [seg_bytes xs] group nums sz Hrq)
    as (c' & l' & r & Hrun & H1 & H2 & H3 & H4 & H5 & _ & H7 & _); [rewrite length_fmap; lia |].
  set (taken := batch _ _ _ _ 0 0 (drop o es)) in *.
  rewrite length_fmap, Hel in Hrun, H5.
  rewrite (get_message_queue _ _ _ _ _ _ _ _ _ _ _ Hfrom), Hrun. cbn [obind].
  eexists _, r, taken.*2. split; [reflexivity |]. rewrite length_fmap. split_and!; try done.
  intros j d Hj. rewrite list_lookup_fmap in Hj.
  destruct (taken !! j) as [e |] eqn:Ej; [| done]. cbn in Hj. injection Hj as <-.
  unfold taken in Ej. rewrite batch_prefix in Ej. apply lookup_take_Some in Ej as [Ej _].
  rewrite lookup_drop in Ej. unfold es in Ej. rewrite list_lookup_fmap in Ej.
  destruct (records_of t i xs !! (o + j)%nat) as [x |] eqn:Ex; [| done]. cbn in Ej. injection Ej as <-.
  destruct (Forall2_lookup_r _ _ _ _ _ Hmine Ex) as (m & Hm & Hw). exists m. split; [done |].
  assert (Hno : dr_consume_queue_offset x.2 = Z.of_nat (o + j)).
  { apply (numbered_offset (i64_MAX - 40 * Z.of_nat k) 0 (o + j) (queue_part t i xs.*2));
      [apply (pd_numbered _ _ Hp) |]. by rewrite <- Hpart, list_lookup_fmap, Ex. }
  rewrite <- Hno. exact (wr_delivered _ _ _ Hw).
Qed.
End Store.

(** ** Theorem *)

(** C1: From a put to a read, within one segment: valid messages put one after the
    other, to any queues, into an empty store that flushes asynchronously and
    keeps no index, whose segment of the log has room for all of them, are all
    answered as stored; one run of the dispatching service makes them visible;
    and then, for a queue whose messages fit one segment of the queue, a read
    from any offset of it returns a run of its messages from there on, at least
    one, in the order in which they were put, each with bytes that decode to it
    and to its queue offset, and the offset to read on from. *)
Theorem stored_messages_read (crc32fast : buffer → Z)
    (decompression : CompressionType → buffer → outcome buffer) (cfg : MessageStoreConfig)
    (cenv : consumer_env) (delay : DelayLevels) (k : nat) (s : LocalFileMessageStore)
    (ms : list (put_env * MessageExtBrokerInner)) :
  plain_store cfg cenv k → pending crc32fast decompression cfg delay k s [] →
  Forall (λ x, storable crc32fast cfg delay x.1 x.2) ms →
  stored_bytes crc32fast cfg ms + 8 ≤ mapped_file_size (cl_queue (log_of s)) →
  ∃ s1 rts s2, put_all crc32fast cfg cenv ms s = Done (s1, rts) ∧
    Forall (λ r, put_message_status r = StatusPutOk) rts ∧
    store_do_reput crc32fast cfg cenv delay 2 s1 = Done (Ended s2) ∧
    ∀ t i o group nums sz,
      let mine := messages_of t i ms in
      get_delete_policy (topic_attributes (queue_config cfg) t) = Done DELETE →
      (o < length mine)%nat → (length mine ≤ k)%nat → read_limits cfg nums sz s2 →
      ∃ s3 r ds,
        get_message_with_size_limit cfg (S (length mine)) group t i (Z.of_nat o) nums sz None s2 =
          Done (Ended (s3, Some r)) ∧
        gr_status r = Some Found ∧ result_bytes r = Some <$> ds ∧ (0 < length ds)%nat ∧
        next_begin_offset r = Z.of_nat (o + length ds) ∧ gr_max_offset r = Z.of_nat (length mine) ∧
        ∀ j d, ds !! j = Some d →
          ∃ m, mine !! (o + j)%nat = Some m ∧
            delivered crc32fast decompression m.2 (Z.of_nat (o + j)) d.
Proof.
  intros Hps Hp Hst Hroom.
  destruct (put_all_pending crc32fast decompression cfg cenv delay k Hps ms s [] Hp Hst)
    as (s1 & rts & xs & Hput & Hok & Hp1 & Hms); [unfold seg_len; cbn in *; lia |].
  cbn [app] in Hp1.
  destruct (reput_pending crc32fast decompression cfg cenv delay k Hps s1 xs Hp1)
    as (s2 & Hrep & Hh & Hmax & Hsf & Hmz & Hsh & Hsd & Hrd).
  exists s1, rts, s2. split_and!; [done | done | done |].
  intros t i o group nums sz mine Hpol Ho Hle Hlim.
  exact (dispatched_read crc32fast decompression cfg cenv delay k Hps ms s1 s2 xs t i o group nums sz
    Hp1 Hms Hh Hmax Hsf Hmz Hsh Hsd Hrd Hpol Ho Hle Hlim).
Qed.

(** ** Examples *)

Definition example_consumer_env : consumer_env :=
  mkConsumerEnv (λ _, []) (λ _, (""%string, [])) (λ _, (true, 0)) (λ _, (true, 0)) 100.
Definition example_message (id : Z) (text : string) : MessageExtBrokerInner :=
  mkBrokerInner
    (mkMessageExt (mkMessage "TopicTest" 0 {["TAGS" := "TagA"]} (Some (str_bytes text)) None None)
       "" id 0 7 0 1700000000000 default_host 1700000000001 default_host "" 0 0 0 0)
    (message_properties_to_string [("TAGS", "TagA")]) 0 None false V1.
Definition example_messages : list (put_env * MessageExtBrokerInner) :=
  [(sample_env, example_message 3 "hello"); (sample_env, example_message 0 "other");
   (sample_env, example_message 3 "world")].
Definition example_store : LocalFileMessageStore :=
  mkStore (put_log 0)
    (mkConsumers 0 (open_checkpoint []) (new_consume_queue_store ConsumeQueue.sample_store)
       (new_index_service 3 3 64 0 (open_checkpoint [])) [])
    (Some 0) 0 0 false false (mkStats 0 0 0 0).
Definition no_decompression (t : CompressionType) (b : buffer) : outcome buffer := Done b.

Lemma example_plain : plain_store example_config example_consumer_env 3.
Proof.
  constructor; try done; [apply sample_config_simple |]. split; [by left | done].
Qed.

Lemma example_pending :
  pending (λ _, 0) no_decompression example_config sample_levels 3 example_store [].
Proof.
  constructor; try done. constructor.
  - by apply (put_log_ok 0).
  - apply Forall_singleton. by apply mf_live_new.
  - constructor; [by vm_compute | constructor].
  - intros i b _ Hi. cbn in Hi. lia.
Qed.

Lemma example_storable_at (id : Z) (text : string) :
  (id = 3 ∧ text = "hello") ∨ (id = 0 ∧ text = "other") ∨ (id = 3 ∧ text = "world") →
  storable (λ _, 0) example_config sample_levels sample_env (example_message id text).
Proof.
  assert (Htags : ∃ tc, tags_code_of sample_levels "TopicTest" (as_i64 (pe_begin sample_env))
      (carried (example_message 3 "hello")) = Done tc ∧ in_s 64 tc ∧ is_ext_addr tc = false).
  { let v := eval vm_compute in (tags_code_of sample_levels "TopicTest"
      (as_i64 (pe_begin sample_env)) (carried (example_message 3 "hello"))) in
    match v with Done ?z => exists z end. split_and!; by vm_compute. }
  intros [[-> ->] | [[-> ->] | [-> ->]]];
    (constructor; [by vm_compute | by vm_compute | by vm_compute | by vm_compute
       | constructor; by vm_compute | by vm_compute | by vm_compute | | exact Htags
       | by vm_compute | by vm_compute];
     intros o off Ho Hoff; constructor; [constructor; try assumption; by vm_compute | by vm_compute ..]).
Qed.

Lemma example_storable :
  Forall (λ x, storable (λ _, 0) example_config sample_levels x.1 x.2) example_messages.
Proof.
  repeat (apply Forall_cons; split); try apply Forall_nil_2; apply example_storable_at; auto.
Qed.

Lemma stored_messages_read_witness :
  ∃ s1 rts s2, put_all (λ _, 0) example_config example_consumer_env example_messages example_store =
      Done (s1, rts) ∧
    Forall (λ r, put_message_status r = StatusPutOk) rts ∧
    store_do_reput (λ _, 0) example_config example_consumer_env sample_levels 2 s1 = Done (Ended s2) ∧
    ∃ s3 r ds, get_message_with_size_limit example_config 3 "g" "TopicTest" 3 0 32 1000 None s2 =
        Done (Ended (s3, Some r)) ∧
      gr_status r = Some Found ∧ result_bytes r = Some <$> ds ∧ (0 < length ds)%nat ∧
      next_begin_offset r = Z.of_nat (0 + length ds) ∧ gr_max_offset r = 2 ∧
      ∀ j d, ds !! j = Some d →
        ∃ m, messages_of "TopicTest" 3 example_messages !! (0 + j)%nat = Some m ∧
          delivered (λ _, 0) no_decompression m.2 (Z.of_nat (0 + j)) d.
Proof.
  pose proof (example_limits 345 ltac:(by vm_compute)) as Hlim.
  destruct (stored_messages_read (λ _, 0) no_decompression example_config example_consumer_env
    sample_levels 3 example_store example_messages example_plain example_pending example_storable)
    as (s1 & rts & s2 & Hput & Hok & Hrep & Hread); [by vm_compute |].
  exists s1, rts, s2. split_and!; [exact Hput | exact Hok | exact Hrep |].
  assert (Hmax : cl_max_offset (log_of s2) = 345).
  { vm_compute in Hput. injection Hput as <- _. vm_compute in Hrep. by injection Hrep as <-. }
  apply (Hread "TopicTest"%string 3 0%nat "g"%string 32 1000).
  - by vm_compute.
  - by vm_compute; lia.
  - by vm_compute; lia.
  - unfold read_limits. rewrite Hmax. exact (conj Hlim (conj (le_n 1) eq_refl)).
Defined.
