(* ===== verification/MessageBatch.v ===== *)
(** * MessageBatch: storing a batch of messages

    [encode_batch] of [message_ext_encoder.rs] turns the body of a batch, the
    messages one after the other as the client encoded them, into the records of
    the log; [do_append_batch] of [append_message_callback.rs] patches offsets
    and times into all of them and writes them at once; [put_messages] of
    [commit_log.rs] and of [local_file_message_store.rs] drive both. *)

From stdpp Require Import base gmap list strings.
From coqutil Require Import Byte.
From Stdlib Require Import ZArith Lia.
From S2P Require Import Prelude Bytes Utf8 Message Properties MessageId MessageDecoder MessageCodec MessageUtils.
From S2P Require Import FileName Numerals ReferenceResource RunningFlags MappedFile MessageExtEncoder AppendCallback MappedFileQueue.
From S2P Require Import DispatchRequest ConsumeQueue StoreCheckpoint IndexFile IndexService QueueOffsets CheckMessage ConsumeQueueStore CommitLog CommitLogRecovery CommitLogPut Reput MessageStore StoreReads StoreRoundtrip.
Open Scope Z_scope.
Open Scope rmq_scope.

(** ** Data *)

Record MessageExtBatch := mkBatch {
  message_ext_broker_inner : MessageExtBrokerInner;
  is_inner_batch : bool;
  batch_encoded_buff : option buffer;
}.
Definition set_batch_encoded (b : option buffer) (m : MessageExtBatch) : MessageExtBatch :=
  mkBatch (message_ext_broker_inner m) (is_inner_batch m) b.
Definition on_inner (f : MessageExtBrokerInner → MessageExtBrokerInner) (m : MessageExtBatch)
  : MessageExtBatch :=
  mkBatch (f (message_ext_broker_inner m)) (is_inner_batch m) (batch_encoded_buff m).

(** [wrap]: the body of the batch. *)
Definition wrap (m : MessageExtBatch) : option buffer :=
  body (message (message_ext_inner (message_ext_broker_inner m))).

Record PutMessageContext := mkPutContext {
  topic_queue_table_key : string;
  phy_pos : list Z;
  batch_size : Z;
}.
Definition default_context : PutMessageContext := mkPutContext "" [] 0.

(** ** Encoding *)

Section Encode.
Variable cfg : EncoderConfig.
(** The batch, and its properties as printed. *)
Variables (m : MessageExtBrokerInner) (batch_props : buffer).

(** One message of the body, as the record of the log; the CRC of the body is
    the one the body carries. *)
Definition encode_batch_entry : reader buffer := λ b,
  let e := message_ext_inner m in
  let* (_, b) := get_i32 b in
  let* (_, b) := get_i32 b in
  let* (crc, b) := get_i32 b in
  let* (flag, b) := get_i32 b in
  let* (body_len, b) := get_i32 b in
  let* (body, b) := get_bytes (as_usize body_len) b in
  let* (properties_len, b) := get_i16 b in
  let* (props, b) := get_bytes (as_usize properties_len) b in
  let batch_prop_len := as_i16 (Z.of_nat (length batch_props)) in
  let sep := (0 <? properties_len) && (0 <? batch_prop_len) &&
             match last props with
             | Some c => negb (bool_decide (c = PROPERTY_SEPARATOR))
             | None => false
             end in
  let topic_data := str_bytes (topic (message e)) in
  let topic_length := as_i32 (Z.of_nat (length topic_data)) in
  let total_prop_len :=
    as_i16 ((if sep then as_i16 (as_i16 (properties_len + batch_prop_len) + 1)
             else as_i16 (properties_len + batch_prop_len))
            + as_i16 (crc32_reserved_length cfg)) in
  let msg_len := cal_msg_length (version m) (sys_flag e) body_len topic_length total_prop_len in
  Done
    (put_i32 msg_len ++ put_i32 (get_magic_code (version m)) ++ put_i32 crc ++
     put_i32 (queue_id e) ++ put_i32 flag ++ put_i64 0 ++ put_i64 0 ++ put_i32 (sys_flag e) ++
     put_i64 (born_timestamp e) ++ socket_address_2_byte_buffer (born_host e) ++
     put_i64 (store_timestamp e) ++ socket_address_2_byte_buffer (store_host e) ++
     put_i32 (reconsume_times e) ++ put_i64 0 ++
     put_i32 body_len ++ (if 0 <? body_len then body else []) ++
     match version m with
     | V2 => put_i16 (as_i16 topic_length)
     | V1 => put_u8 (as_u8 topic_length)
     end ++ topic_data ++
     put_i16 total_prop_len ++ (if 0 <? properties_len then props else []) ++
     (if 0 <? batch_prop_len then (if sep then [PROPERTY_SEPARATOR] else []) ++ batch_props else []),
     b).

(** The loop over the body; every message takes at least the 22 bytes of its
    fields, so a round per byte is enough.  The final [advance] of a round
    consumes bytes at the front of what has been written. *)
Fixpoint encode_batch_loop (fuel : nat) (b byte_buf : buffer) (n : Z) : outcome (buffer * Z) :=
  match fuel with
  | O => Done (byte_buf, n)
  | S fuel' =>
      if decide (b = []) then Done (byte_buf, n)
      else
        let* (r, b) := encode_batch_entry b in
        let* (_, byte_buf) := get_bytes (crc32_reserved_length cfg) (byte_buf ++ r) in
        encode_batch_loop fuel' b byte_buf (as_i32 (n + 1))
  end.
End Encode.

(** [encode_batch]: nothing where the body is missing or a size is exceeded.
    [order] lists the properties of the batch in iteration order. *)
Definition encode_batch (cfg : EncoderConfig) (order : list (string * string)) (m : MessageExtBatch)
    (ctx : PutMessageContext) : outcome (PutMessageContext * option buffer) :=
  match wrap m with
  | None => Done (ctx, None)
  | Some b =>
      if as_usize (max_message_body_size cfg) <? Z.of_nat (length b) then Done (ctx, None)
      else
        let batch_props := str_bytes (message_properties_to_string order) in
        if 32767 <? Z.of_nat (length batch_props) then Done (ctx, None)
        else
          let* (out, n) :=
            encode_batch_loop cfg (message_ext_broker_inner m) batch_props (length b) b [] 0 in
          Done (mkPutContext (topic_queue_table_key ctx) (replicate (Z.to_nat n) 0) n, Some out)
  end.

(** ** Appending *)

Section Append.
Variables (m : MessageExtBrokerInner) (wrote_off max_blank : Z).

(** The offsets and the time of one record at [msg_pos]. *)
Definition patch_batch_entry (b : buffer) (msg_pos total_msg_len msg_len : Z) : outcome (buffer * Z) :=
  let e := message_ext_inner m in
  let pos := msg_pos + 20 in
  let* b := patch b pos (put_i64 (queue_offset e)) in
  let pos := pos + 8 in
  let phy := as_i64 (as_i64 (wrote_off + total_msg_len) - msg_len) in
  let* b := patch b pos (put_i64 phy) in
  let pos := pos + (8 + 4 + 8 + host_length (sys_flag e) MessageSysFlag.BORNHOST_V6_FLAG) in
  let* b := patch b pos (put_i64 (store_timestamp e)) in
  Done (b, phy).

Inductive batch_end :=
| Patched (b : buffer) (phy : list Z) (total_msg_len msg_num : Z)
| Closed (phy : list Z).

(** The loop over the records; a round after the last position panics, so a
    round more than there are positions is enough. *)
Fixpoint append_batch_loop (fuel : nat) (b : buffer) (phy : list Z)
    (total_msg_len num msg_pos : Z) (index : nat) : outcome batch_end :=
  if total_msg_len <? as_i32 (Z.of_nat (length b)) then
    match fuel with
    | O => Panic
    | S fuel' =>
        let* head := (if (0 <=? total_msg_len) && (total_msg_len + 4 <=? Z.of_nat (length b))
                      then Done (slice b (Z.to_nat total_msg_len) (Z.to_nat total_msg_len + 4))
                      else Panic) in
        let* (msg_len, _) := get_i32 head in
        let total_msg_len := as_i32 (total_msg_len + msg_len) in
        if max_blank <? as_i32 (total_msg_len + END_FILE_MIN_BLANK_LENGTH) then Done (Closed phy)
        else
          let* (b, p) := patch_batch_entry b msg_pos total_msg_len msg_len in
          if decide (index < length phy)%nat then
            append_batch_loop fuel' b (<[index := p]> phy) total_msg_len (as_i32 (num + 1))
              (as_usize (msg_pos + as_usize msg_len)) (S index)
          else Panic
    end
  else Done (Patched b phy total_msg_len num).
End Append.

(** [do_append_batch].  The id supplier has a copy of the positions made before
    they are filled in; a supplier that would panic is kept as [None].
    [elapsed] is the time the write took. *)
Definition do_append_batch {MF : Type} `{!MappedFileOps MF} (elapsed file_from_offset : Z) (mf : MF)
    (max_blank : Z) (msg : MessageExtBatch) (ctx : PutMessageContext)
  : outcome (MF * MessageExtBatch * PutMessageContext * AppendMessageResult) :=
  let m := message_ext_broker_inner msg in
  let e := message_ext_inner m in
  let wrote_off := as_i64 (file_from_offset + mf_wrote mf) in
  let* b := unwrap (batch_encoded_buff msg) in
  let msg := set_batch_encoded None msg in
  let id := match build_batch_message_id (store_host e)
                    (host_length (sys_flag e) MessageSysFlag.STOREHOSTADDRESS_V6_FLAG)
                    (batch_size ctx) (phy_pos ctx) with
            | Done s => Some s
            | Panic => None
            end in
  let* r := append_batch_loop m wrote_off max_blank (S (length (phy_pos ctx))) b (phy_pos ctx) 0 0 0 0 in
  match r with
  | Closed phy =>
      let '(mf, _) := mf_write (blank_bytes max_blank) (as_usize wrote_off) mf in
      Done (mf, msg, mkPutContext (topic_queue_table_key ctx) phy (batch_size ctx),
            mkAppendResult EndOfFile wrote_off max_blank id (store_timestamp e) (queue_offset e)
              elapsed (msg_num default_append_result))
  | Patched b phy total num =>
      let '(mf, _) := mf_append b mf in
      Done (mf, msg, mkPutContext (topic_queue_table_key ctx) phy (batch_size ctx),
            mkAppendResult PutOk wrote_off total id (store_timestamp e) (queue_offset e) elapsed num)
  end.

(** [append_messages] of a segment. *)
Definition append_messages (elapsed : Z) (msg : MessageExtBatch) (ctx : PutMessageContext)
    (f : DefaultMappedFile)
  : outcome (DefaultMappedFile * MessageExtBatch * PutMessageContext * AppendMessageResult) :=
  let current_pos := as_u64 (wrote_position f) in
  if file_size f <=? current_pos then Done (f, msg, ctx, default_append_result)
  else
    let* (r, result) := do_append_batch elapsed (as_i64 (file_from_offset f)) f
                          (as_i32 (file_size f - current_pos)) msg ctx in
    let '(f, msg, ctx) := r in
    let f := set_wrote_position (as_i32 (wrote_position f + wrote_bytes result)) f in
    let f := set_store_timestamp (as_u64 (result_store_timestamp result)) f in
    Done (f, msg, ctx, result).

(** ** The put *)

(** [generate_key] *)
Definition generate_key (m : MessageExtBrokerInner) : string :=
  topic_queue_key (topic (message (message_ext_inner m))) (queue_id (message_ext_inner m)).

Section Put.
Context {W : Type} `{!LogClient W}.
Variable cfg : StoreConfig.

Definition append_batch_to (i : nat) (env : put_env) (m : MessageExtBatch) (ctx : PutMessageContext)
    (q : MappedFileQueue)
  : outcome (MappedFileQueue * MessageExtBatch * PutMessageContext * AppendMessageResult) :=
  let* f := unwrap (mapped_files q !! i) in
  let* (f, m, ctx, r) := append_messages (pe_elapsed env) m ctx f in
  Done (set_mapped_files (<[i := f]> (mapped_files q)) q, m, ctx, r).

(** The append under the lock; a second attempt after a segment was closed. *)
Definition append_batch_in_log (env : put_env) (m : MessageExtBatch) (ctx : PutMessageContext)
    (q : MappedFileQueue)
  : outcome (MappedFileQueue * MessageExtBatch * PutMessageContext * PutMessageResult) :=
  let* (q, found) := segment_for_put (pe_existing env) q in
  match found with
  | None => Done (q, m, ctx, new_default CreateMappedFileFailed)
  | Some i =>
      let* (q, m, ctx, r) := append_batch_to i env m ctx q in
      match status r with
      | PutOk => Done (q, m, ctx, new_append_result StatusPutOk (Some r))
      | EndOfFile =>
          let* (q, found) :=
            get_last_mapped_file_mut_start_offset (pe_existing_next env) 0 true q in
          match found with
          | None => Done (q, m, ctx, new_append_result CreateMappedFileFailed (Some r))
          | Some j =>
              let* (q, m, ctx, r) := append_batch_to j env m ctx q in
              match status r with
              | PutOk => Done (q, m, ctx, new_append_result StatusPutOk (Some r))
              | _ => Done (q, m, ctx, new_append_result StatusUnknownError (Some r))
              end
          end
      | MessageSizeExceeded | AppendPropertiesSizeExceeded =>
          Done (q, m, ctx, new_append_result MessageIllegal (Some r))
      | UnknownError => Done (q, m, ctx, new_append_result StatusUnknownError (Some r))
      end
  end.

(** The batch before the encoding: its flags for addresses, its version. *)
Definition prepare_batch (m : MessageExtBrokerInner) : MessageExtBrokerInner :=
  let m := if is_v6 (born_host (message_ext_inner m))
           then or_sys_flag MessageSysFlag.BORNHOST_V6_FLAG m else m in
  let m := if is_v6 (store_host (message_ext_inner m))
           then or_sys_flag MessageSysFlag.STOREHOSTADDRESS_V6_FLAG m else m in
  let m := with_version V1 m in
  if auto_message_version_on_topic_len cfg &&
     (127 <? Z.of_nat (length (str_bytes (topic (message (message_ext_inner m))))))
  then with_version V2 m else m.

(** [put_messages] of the log.  A batch that was not encoded reaches the append
    all the same. *)
Definition put_messages (env : put_env) (order : list (string * string)) (msg_batch : MessageExtBatch)
    (l : CommitLog) (w : W) : outcome (CommitLog * W * PutMessageResult) :=
  let b := on_inner (set_msg_timestamp (as_i64 (pe_now env))) msg_batch in
  let m := message_ext_broker_inner b in
  let tran_type := MessageSysFlag.get_transaction_value (sys_flag (message_ext_inner m)) in
  if negb (0 =? tran_type) then Done (l, w, new_default MessageIllegal)
  else if 0 <? get_delay_time_level (message (message_ext_inner m))
  then Done (l, w, new_default MessageIllegal)
  else
    let need_ha := need_handle_ha cfg m in
    if need_ha && (enable_controller_mode cfg || enable_slave_acting_master cfg) then Panic
    else
      let b := on_inner prepare_batch b in
      let* (ctx, encoded) := encode_batch (encoder_config cfg) order b default_context in
      let ctx := mkPutContext (generate_key (message_ext_broker_inner b)) (phy_pos ctx)
                   (batch_size ctx) in
      let b := set_batch_encoded encoded b in
      let* (w, m) := assign_offset (message_ext_broker_inner b) w in
      let b := on_inner (λ _, set_msg_timestamp (as_i64 (pe_begin env)) m) b in
      let* (q, b, ctx, r) := append_batch_in_log env b ctx (cl_queue l) in
      let l := set_begin_time 0 (set_cl_queue q l) in
      match put_message_status r with
      | StatusPutOk =>
          let* w := increase_offset (message_ext_broker_inner b) (as_i16 (batch_size ctx)) w in
          let* (l, r) := handle_disk_flush_and_ha cfg env r (message_ext_broker_inner b) need_ha l in
          Done (l, w, r)
      | _ => Done (l, w, r)
      end.
End Put.

(** [put_messages] of the store. *)
Definition store_put_messages (cfg : MessageStoreConfig) (cenv : consumer_env) (hooks : list put_hook)
    (env : put_env) (order : list (string * string)) (b : MessageExtBatch) (s : LocalFileMessageStore)
  : outcome (LocalFileMessageStore * PutMessageResult) :=
  let '(m, answer) := run_hooks hooks (message_ext_broker_inner b) in
  match answer with
  | Some r => Done (s, r)
  | None =>
      let b := on_inner (λ _, m) b in
      let* (l, w, r) := put_messages (LogClient0 := store_client cfg cenv) (log_config cfg) env order b (log_of s)
                          (ms_consumers s) in
      let s := with_log l (set_consumers w s) in
      let s := if is_ok r then s else set_stats (add_put_failed (ms_stats s)) s in
      Done (s, r)
  end.

(** ** Lemmas *)

(** A message of the batch as it is stored: topic, queue, hosts and times are
    those of the batch; the record has the properties as text, those of the
    message before those of the batch. *)
Definition batch_form (m : MessageExtBrokerInner) (batch_order : list (string * string))
    (om : list (string * string) * Message) : MessageExtBrokerInner :=
  let e := message_ext_inner m in
  mkBrokerInner
    (mkMessageExt (mkMessage (topic (message e)) (flag om.2) ∅ (body om.2) None None)
       (broker_name e) (queue_id e) (store_size e) (queue_offset e) (sys_flag e) (born_timestamp e)
       (born_host e) (store_timestamp e) (store_host e) (msg_id e) (commit_log_offset e) 0
       (reconsume_times e) 0)
    (message_properties_to_string om.1 +:+ message_properties_to_string batch_order)
    (tags_code m) None false (version m).

(** Printed properties end with their separator. *)
Lemma printed_last (order : list (string * string)) (c : byte) :
  last (str_bytes (message_properties_to_string order)) = Some c → c = PROPERTY_SEPARATOR.
Proof.
  unfold message_properties_to_string. rewrite str_bytes_str.
  destruct order as [| e order _] using rev_ind; [done |].
  rewrite fmap_app, concat_app. cbn [fmap list_fmap concat]. rewrite app_nil_r.
  unfold Properties.entry_bytes. rewrite !(assoc_L (++)), last_snoc. congruence.
Qed.

Section Entry.
Variables (cfg : EncoderConfig) (m : MessageExtBrokerInner) (batch_order : list (string * string)).
Hypothesis Hcrc : cfg_enabled_append_prop_crc cfg = false.
Local Notation batch_props := (str_bytes (message_properties_to_string batch_order)).
Local Notation form := (batch_form m batch_order).

(** What encoding gives for a message of the client's batch. *)
Lemma encode_batch_entry_ok (om : list (string * string) * Message) (b rest : buffer) :
  wf_batch_message om → encode_message om.1 om.2 = Done b → encodable cfg (form om) →
  record_len (form om) ≤ i32_MAX →
  encode_batch_entry cfg m batch_props (b ++ rest) =
  Done (record_of (restamped (store_timestamp (message_ext_inner m)) 0 (form om))
          (record_len (form om)), rest).
Proof using Hcrc.
  destruct om as [order x]. intros (data & Hbody & Hsize & Hflag & Hplen & _) He Henc Hmax.
  cbn [fst snd] in *. unfold encode_message in He. rewrite Hbody in He. cbn [unwrap obind] in He.
  apply done_inj in He as <-. set (ps := str_bytes (message_properties_to_string order)) in *.
  assert (Hall : str_bytes (properties_string (form (order, x))) = ps ++ batch_props)
    by (cbn; apply str_bytes_app).
  pose proof (enc_props _ _ Henc) as Hp. rewrite Hall, length_app in Hp.
  pose proof (enc_topic _ _ Henc) as Ht. cbn [batch_form message_ext_inner message topic version] in Ht.
  assert (Hr : crc32_reserved_length cfg = 0) by (unfold crc32_reserved_length; by rewrite Hcrc).
  unfold encode_batch_entry. rewrite <- !(assoc_L (++)).
  rewrite get_put_i32 by in_range. cbn [obind].
  rewrite get_put_i32 by in_range. cbn [obind]. change (put_u32 0) with (put_i32 0).
  rewrite get_put_i32 by in_range. cbn [obind].
  rewrite get_put_i32 by done. cbn [obind].
  rewrite get_put_i32 by in_range. cbn [obind].
  rewrite as_usize_id, get_bytes_app by first [done | in_range]. cbn [obind].
  rewrite get_put_i16 by done. cbn [obind].
  rewrite as_usize_id, get_bytes_app by first [done | in_range]. cbn [obind].
  cbv zeta. rewrite Hr. fold ps.
  replace (match last ps with Some c => negb (bool_decide (c = PROPERTY_SEPARATOR)) | None => false end)
    with false.
  2: { destruct (last ps) as [c |] eqn:El; [| done]. apply printed_last in El as ->.
       by rewrite bool_decide_true. }
  rewrite andb_false_r. rewrite (as_i16_id 0), !Z.add_0_r by in_range.
  rewrite (as_i16_id (Z.of_nat (length batch_props))) by in_range.
  rewrite !(as_i16_id (Z.of_nat (length ps) + Z.of_nat (length batch_props))) by in_range.
  pose proof (cal_msg_length_record cfg (form (order, x)) Henc Hmax) as Hcal.
  unfold body_of in Hcal. rewrite Hall, length_app, Nat2Z.inj_add in Hcal.
  cbn [batch_form message_ext_inner message topic version sys_flag body snd] in Hcal.
  rewrite Hbody in Hcal. cbn [from_option id] in Hcal.
  rewrite (as_i32_id (Z.of_nat (length data))), (as_i32_id (_ + Z.of_nat (length batch_props))) in Hcal
    by in_range.
  cbn [from_option id]. rewrite Hcal. f_equal. f_equal.
  unfold record_of, record_bytes, MessageDecoder.header_bytes, body_of.
  change (str_bytes (properties_string (restamped (store_timestamp (message_ext_inner m)) 0
    (form (order, x))))) with (str_bytes (properties_string (form (order, x)))).
  rewrite Hall.
  cbn [restamped set_inner message_ext_inner batch_form blank_record store_size message queue_id
       queue_offset commit_log_offset sys_flag born_timestamp born_host store_timestamp store_host
       reconsume_times prepared_transaction_offset body_crc topic flag body snd version].
  rewrite Hbody. cbn [from_option id]. rewrite length_app, Nat2Z.inj_add.
  assert (Htf : match version m with
     | V2 => put_i16 (as_i16 (as_i32 (Z.of_nat (length (str_bytes (topic (message (message_ext_inner m))))))))
     | V1 => put_u8 (as_u8 (as_i32 (Z.of_nat (length (str_bytes (topic (message (message_ext_inner m))))))))
     end ++ str_bytes (topic (message (message_ext_inner m))) =
     topic_field (version m) (str_bytes (topic (message (message_ext_inner m))))).
  { destruct (version m); cbn [topic_field]; rewrite as_i32_id by in_range.
    - unfold as_u8. by rewrite wrap_u_id by in_range.
    - by rewrite as_i16_id by in_range. }
  rewrite <- Htf, <- !(assoc_L (++)).
  replace (if 0 <? Z.of_nat (length data) then data else []) with data
    by (destruct data; [done | by rewrite (proj2 (Z.ltb_lt _ _)) by (cbn; lia)]).
  replace (if 0 <? Z.of_nat (length ps) then ps else []) with ps
    by (destruct ps; [done | by rewrite (proj2 (Z.ltb_lt _ _)) by (cbn; lia)]).
  replace (if 0 <? Z.of_nat (length batch_props) then [] ++ batch_props else []) with batch_props
    by (destruct batch_props; [done | by rewrite (proj2 (Z.ltb_lt _ _)) by (cbn; lia)]).
  done.
Qed.
End Entry.

Section Encoded.
Variables (cfg : EncoderConfig) (m : MessageExtBrokerInner) (batch_order : list (string * string)).
Hypothesis Hcrc : cfg_enabled_append_prop_crc cfg = false.
Local Notation batch_props := (str_bytes (message_properties_to_string batch_order)).
Local Notation form := (batch_form m batch_order).

(** A message of the batch that can be stored. *)
Definition batch_ok (om : list (string * string) * Message) : Prop :=
  wf_batch_message om ∧ encodable cfg (form om) ∧ record_len (form om) ≤ i32_MAX.

(** The records before the offsets are known, with the store time [t]. *)
Definition blank_record_of (t : Z) (om : list (string * string) * Message) : buffer :=
  record_of (restamped t 0 (form om)) (record_len (form om)).
Definition blank_records (t : Z) (ms : list (list (string * string) * Message)) : buffer :=
  concat (blank_record_of t <$> ms).

Lemma encode_batch_loop_ok (ms : list (list (string * string) * Message)) (fuel : nat)
    (b out : buffer) (n : Z) :
  Forall batch_ok ms → encode_messages ms = Done b → (length b ≤ fuel)%nat →
  0 ≤ n → n + Z.of_nat (length ms) ≤ i32_MAX →
  encode_batch_loop cfg m batch_props fuel b out n =
  Done (out ++ blank_records (store_timestamp (message_ext_inner m)) ms, n + Z.of_nat (length ms)).
Proof using Hcrc.
  intros Hall. revert fuel b out n. induction Hall as [| [order x] ms (Hwf & Henc & Hmax) _ IH];
    intros fuel b out n He Hf Hn Hsize.
  - cbn in He. injection He as <-. unfold blank_records. cbn. rewrite app_nil_r, Z.add_0_r.
    by destruct fuel.
  - apply encode_messages_cons in He as (b1 & b2 & H1 & H2 & ->).
    pose proof (encode_message_shape _ _ _ Hwf H1) as (Hlen & _).
    destruct fuel as [| fuel]; [rewrite length_app in Hf; lia |].
    cbn [encode_batch_loop]. rewrite decide_False by (intros E; apply app_eq_nil in E as [-> _]; cbn in Hlen; lia).
    rewrite (encode_batch_entry_ok cfg m batch_order Hcrc (order, x) b1 b2 Hwf H1 Henc Hmax).
    cbn [obind]. unfold crc32_reserved_length. rewrite Hcrc, get_bytes_0. cbn [obind].
    rewrite length_app in Hf. cbn [length] in Hsize. unfold i32_MAX in *.
    rewrite as_i32_id by in_range. rewrite IH; [| done | lia | lia | lia].
    unfold blank_records. cbn [fmap list_fmap concat]. rewrite <- (assoc_L (++)).
    f_equal. f_equal. cbn [length]. lia.
Qed.

(** ** Offsets and time of every record *)

(** A patch inside a part of the buffer. *)
Lemma patch_inside (pre b b' post data : buffer) (pos : Z) :
  patch b pos data = Done b' → 0 ≤ pos →
  patch (pre ++ b ++ post) (Z.of_nat (length pre) + pos) data = Done (pre ++ b' ++ post) ∧
  length b' = length b.
Proof using.
  unfold patch. intros H Hp. case_match eqn:E; [| done]. apply Z.leb_le in E. injection H as <-.
  rewrite (proj2 (Z.leb_le _ _)) by (rewrite !length_app; lia). split.
  - f_equal. unfold splice. rewrite Z2Nat.inj_add, Nat2Z.id by lia.
    rewrite take_app_add, take_app_le by lia.
    rewrite <- !(assoc_L (++)). do 3 f_equal.
    rewrite <- Nat.add_assoc, drop_app_add. by rewrite drop_app_le by lia.
  - apply splice_length. lia.
Qed.

(** The record of the message at [off], with the time of the batch. *)
Lemma patch_batch_entry_ok (om : list (string * string) * Message) (pre post : buffer) (t wrote : Z) :
  encodable cfg (form om) → 0 = MessageSysFlag.get_transaction_value (sys_flag (message_ext_inner m)) →
  let len := record_len (form om) in
  let p := Z.of_nat (length pre) in
  in_s 64 (wrote + p + len) → in_s 64 (wrote + p) →
  patch_batch_entry m wrote (pre ++ record_of (restamped t 0 (form om)) len ++ post) p (p + len) len =
  Done (pre ++ stored_record (form om) (wrote + p) ++ post, wrote + p).
Proof using Hcrc.
  intros Henc Htran len p H1 H2.
  pose proof (patch_restamped (λ _, 0) cfg (form om) t 0 (wrote + p) Henc Hcrc) as Hpatch.
  unfold patch_record in Hpatch. rewrite Hcrc in Hpatch. fold len in Hpatch.
  assert (Hqo : stored_queue_offset (form om) = queue_offset (message_ext_inner m)).
  { unfold stored_queue_offset. cbn [batch_form message_ext_inner sys_flag queue_offset].
    by rewrite <- Htran. }
  rewrite Hqo in Hpatch.
  change (sys_flag (message_ext_inner (form om))) with (sys_flag (message_ext_inner m)) in Hpatch.
  change (store_timestamp (message_ext_inner (form om))) with (store_timestamp (message_ext_inner m)) in Hpatch.
  apply obind_done in Hpatch as (b1 & E1 & Hpatch).
  apply obind_done in Hpatch as (b2 & E2 & Hpatch).
  apply obind_done in Hpatch as (b3 & E3 & Hpatch). apply done_inj in Hpatch as <-.
  unfold patch_batch_entry.
  replace (as_i64 (as_i64 (wrote + (p + len)) - len)) with (wrote + p).
  2: { rewrite (as_i64_id (wrote + (p + len))) by (rewrite Z.add_assoc; done).
       rewrite as_i64_id; [lia |]. by replace (wrote + (p + len) - len) with (wrote + p) by lia. }
  pose proof (host_length_bound (sys_flag (message_ext_inner m)) MessageSysFlag.BORNHOST_V6_FLAG).
  destruct (patch_inside pre _ b1 post _ _ E1) as [E1' _]; [lia |]. fold p in E1'.
  change (p + (4 + 4 + 4 + 4 + 4)) with (p + 20) in E1'. rewrite E1'. cbn [obind].
  destruct (patch_inside pre _ b2 post _ _ E2) as [E2' _]; [lia |]. fold p in E2'.
  replace (p + 20 + 8) with (p + (4 + 4 + 4 + 4 + 4 + 8)) by lia. rewrite E2'. cbn [obind].
  destruct (patch_inside pre _ b3 post _ _ E3) as [E3' _]; [lia |]. fold p in E3'.
  rewrite <- Z.add_assoc. rewrite E3'. done.
Qed.

(** The stored records of the messages from [off] on. *)
Fixpoint stored_records (off : Z) (ms : list (list (string * string) * Message)) : list buffer :=
  match ms with
  | [] => []
  | om :: ms' => stored_record (form om) off :: stored_records (off + record_len (form om)) ms'
  end.
Definition records_len (ms : list (list (string * string) * Message)) : Z :=
  foldr (λ om a, record_len (form om) + a) 0 ms.

Lemma records_len_pos (ms : list (list (string * string) * Message)) : 0 ≤ records_len ms.
Proof using.
  unfold records_len. induction ms as [| om ms IH]; cbn; [lia |]. pose proof (record_len_pos (form om)). lia.
Qed.

Lemma blank_record_length (t : Z) (om : list (string * string) * Message) :
  encodable cfg (form om) → Z.of_nat (length (blank_record_of t om)) = record_len (form om).
Proof using.
  intros He. unfold blank_record_of. rewrite (record_of_length cfg); [done |].
  by apply (encodable_irrelevant _ (form om)).
Qed.

Lemma blank_records_length (t : Z) (ms : list (list (string * string) * Message)) :
  Forall batch_ok ms → Z.of_nat (length (blank_records t ms)) = records_len ms.
Proof using.
  induction 1 as [| om ms (_ & He & _) _ IH]; [done |].
  unfold blank_records in *. cbn [fmap list_fmap concat records_len foldr]. rewrite length_app.
  pose proof (blank_record_length t om He). unfold records_len in *. lia.
Qed.

Lemma stored_records_length (off : Z) (ms : list (list (string * string) * Message)) :
  Forall batch_ok ms → Z.of_nat (length (concat (stored_records off ms))) = records_len ms.
Proof using.
  intros Hall. revert off. induction Hall as [| om ms (_ & He & _) _ IH]; intros off; [done |].
  cbn [stored_records concat records_len foldr]. rewrite length_app, Nat2Z.inj_add, IH.
  rewrite (stored_record_length cfg) by done. done.
Qed.

(** The size word of the next record. *)
Lemma blank_record_head (t : Z) (om : list (string * string) * Message) (pre post : buffer) :
  in_s 32 (record_len (form om)) →
  let b := pre ++ blank_record_of t om ++ post in
  (4 ≤ length (blank_record_of t om))%nat ∧
  get_i32 (slice b (length pre) (length pre + 4)) = Done (record_len (form om), []).
Proof using.
  intros Hin b.
  assert (∃ tl, blank_record_of t om = put_i32 (record_len (form om)) ++ tl) as [tl E].
  { unfold blank_record_of, record_of, record_bytes, MessageDecoder.header_bytes.
    rewrite <- !(assoc_L (++)). by eexists. }
  unfold b. rewrite E. split; [rewrite length_app, put_i32_length; lia |].
  rewrite <- (assoc_L (++)). unfold slice. rewrite drop_app_length.
  replace (length pre + 4 - length pre)%nat with 4%nat by lia. rewrite take_app_length' by done.
  rewrite <- (app_nil_r (put_i32 _)). by apply get_put_i32.
Qed.

Lemma append_batch_loop_ok (wrote max_blank t : Z) (ms : list (list (string * string) * Message))
    (fuel index : nat) (pre : buffer) (phy : list Z) (num : Z) :
  0 = MessageSysFlag.get_transaction_value (sys_flag (message_ext_inner m)) →
  Forall batch_ok ms → (length ms < fuel)%nat → (index + length ms = length phy)%nat →
  let p := Z.of_nat (length pre) in
  p + records_len ms + 8 ≤ max_blank → max_blank ≤ i32_MAX →
  0 ≤ wrote → in_s 64 (wrote + p + records_len ms) →
  0 ≤ num → num + Z.of_nat (length ms) ≤ i32_MAX →
  ∃ phy', append_batch_loop m wrote max_blank fuel (pre ++ blank_records t ms) phy p num p index =
    Done (Patched (pre ++ concat (stored_records (wrote + p) ms)) phy' (p + records_len ms)
            (num + Z.of_nat (length ms))).
Proof using Hcrc.
  intros Htran Hall. revert fuel index pre phy num.
  induction Hall as [| om ms (Hwf & Henc & Hmax) Hall IH];
    intros fuel index pre phy num Hf Hix p Hroom Hmb Hw Hin Hn Hnum; unfold i32_MAX in *.
  - exists phy. unfold blank_records. cbn [fmap list_fmap concat stored_records records_len foldr length].
    rewrite !app_nil_r, !Z.add_0_r. cbn in Hroom.
    destruct fuel; cbn [append_batch_loop]; rewrite as_i32_id by in_range;
      by rewrite (proj2 (Z.ltb_ge _ _)) by lia.
  - cbn [records_len foldr length] in *. fold (records_len ms) in *.
    pose proof (record_len_pos (form om)) as Hpos. pose proof (records_len_pos ms) as Hrest.
    destruct fuel as [| fuel]; [lia |].
    assert (Hsplit : pre ++ blank_records t (om :: ms) = pre ++ blank_record_of t om ++ blank_records t ms)
      by done.
    pose proof (blank_record_length t om Henc) as Hbl. pose proof (blank_records_length t ms Hall) as Hbs.
    rewrite Hsplit. cbn [append_batch_loop].
    assert (Hlen : Z.of_nat (length (pre ++ blank_record_of t om ++ blank_records t ms)) =
      p + record_len (form om) + records_len ms) by (rewrite !length_app; unfold p; lia).
    rewrite Hlen, as_i32_id by in_range. rewrite (proj2 (Z.ltb_lt _ _)) by lia.
    rewrite (proj2 (Z.leb_le 0 p)), (proj2 (Z.leb_le (p + 4) _)) by lia. cbn [andb].
    destruct (blank_record_head t om pre (blank_records t ms)) as [_ Hhead]; [in_range |].
    replace (Z.to_nat p) with (length pre) by (unfold p; lia). cbn [obind]. rewrite Hhead. cbn [obind].
    rewrite (as_i32_id (p + _)) by in_range. unfold END_FILE_MIN_BLANK_LENGTH.
    rewrite as_i32_id by in_range. rewrite (proj2 (Z.ltb_ge _ _)) by lia.
    unfold blank_record_of at 1. rewrite patch_batch_entry_ok; [| done | done | in_range | in_range].
    cbn [obind]. fold p. rewrite decide_True by lia. rewrite (as_i32_id (num + 1)) by in_range.
    rewrite (as_usize_id (record_len _)), (as_usize_id (p + _)) by in_range.
    set (r := stored_record (form om) (wrote + p)).
    assert (Hp' : p + record_len (form om) = Z.of_nat (length (pre ++ r))).
    { unfold p, r. rewrite length_app, Nat2Z.inj_add, (stored_record_length cfg) by done. done. }
    rewrite (assoc_L (++)), Hp'.
    destruct (IH fuel (S index) (pre ++ r) (<[index := wrote + p]> phy) (num + 1)) as (phy' & ->);
      [lia | rewrite length_insert; lia | lia | lia | done | rewrite <- Hp'; in_range | lia | lia |].
    exists phy'. f_equal. cbn [stored_records concat]. fold r. rewrite <- Hp', (assoc_L (++)).
    rewrite !Z.add_assoc. f_equal; lia.
Qed.
End Encoded.

(** ** Appended *)

Section Appended.
Variables (cfg : StoreConfig) (env : put_env) (m : MessageExtBrokerInner).
Variables (batch_order : list (string * string)) (ms : list (list (string * string) * Message)).
Variables (t : Z) (inner : bool) (key : string).
Hypothesis Hcrc : cfg_enabled_append_prop_crc (encoder_config cfg) = false.
Hypothesis Htran : 0 = MessageSysFlag.get_transaction_value (sys_flag (message_ext_inner m)).
Hypothesis Hall : Forall (batch_ok (encoder_config cfg) m batch_order) ms.
Let b := mkBatch m inner (Some (blank_records m batch_order t ms)).
Let ctx := mkPutContext key (replicate (length ms) 0) (Z.of_nat (length ms)).
Local Notation records off := (concat (stored_records m batch_order off ms)).
Local Notation len := (records_len m batch_order ms).

Lemma append_messages_fits (f : DefaultMappedFile) :
  wf_mf f → wrote_position f + len + 8 ≤ file_size f → Z.of_nat (length ms) ≤ 32767 →
  let off := file_from_offset f + wrote_position f in
  ∃ f' ctx' r, append_messages (pe_elapsed env) b ctx f = Done (f', mkBatch m inner None, ctx', r) ∧
    batch_size ctx' = Z.of_nat (length ms) ∧
    status r = PutOk ∧ wrote_offset r = off ∧ wrote_bytes r = len ∧
    logics_offset r = queue_offset (message_ext_inner m) ∧ msg_num r = Z.of_nat (length ms) ∧
    wf_mf f' ∧ wrote_position f' = wrote_position f + len ∧
    log f' = log f ++ records off ∧ frame f f' ∧ file_size f' = file_size f.
Proof using Hcrc Htran Hall.
  intros Hwf Hroom Hnum off. pose proof (wf_casts _ Hwf) as [_ Hc].
  pose proof (records_len_pos m batch_order ms) as Hp. assert (Hwf0 := Hwf).
  destruct Hwf0 as [Hmem Hsz Hfr Hpos]. unfold i32_MAX, i64_MAX in *.
  unfold append_messages, do_append_batch. rewrite Hc, (proj2 (Z.leb_gt _ _)) by lia.
  rewrite (as_i64_id (file_from_offset f)), (as_i32_id (file_size f - _)) by in_range.
  cbn [b message_ext_broker_inner batch_encoded_buff unwrap obind set_batch_encoded is_inner_batch].
  change (mf_wrote f) with (wrote_position f). rewrite (as_i64_id (_ + wrote_position f)) by in_range.
  fold off. change (phy_pos ctx) with (replicate (length ms) 0). rewrite length_replicate.
  destruct (append_batch_loop_ok (encoder_config cfg) m batch_order Hcrc off
    (file_size f - wrote_position f) t ms (S (length ms)) 0 [] (replicate (length ms) 0) 0 Htran Hall)
    as (phy' & Hloop);
    [lia | by rewrite length_replicate | cbn [length]; lia | unfold i32_MAX; lia | unfold off; lia
     | unfold off; cbn [length]; in_range | lia | unfold i32_MAX; lia |].
  cbn [length app] in Hloop. rewrite !Z.add_0_l in Hloop. change (Z.of_nat 0) with 0 in Hloop.
  rewrite Hloop, Z.add_0_r. cbn [obind].
  pose proof (stored_records_length (encoder_config cfg) m batch_order off ms Hall) as Hl.
  destruct (law_append (ok := frame f) (records off) f (frame_refl _ Hwf))
    as (mf & Happ & (Hwf' & Hf & Hfl & Hr & Ht) & Hw & Hcap & Hm); [cbn; lia |].
  change (mf_append (records off) f) with (append_message_bytes_no_position_update (records off) f) in *.
  rewrite Happ. cbn [obind wrote_bytes]. cbn in Hw, Hcap, Hm.
  eexists _, _, _. split; [reflexivity |].
  match goal with |- context [wf_mf ?m1] => assert (Hwf1 : wf_mf m1) end.
  { destruct Hwf'. constructor; cbn; [done | done | done |]. rewrite as_i32_id by in_range. lia. }
  do 6 (split; [done |]). split; [exact Hwf1 |]. split_and!.
  - cbn. rewrite as_i32_id by in_range. lia.
  - unfold log. cbn. rewrite as_i32_id, Hm, Hw by in_range.
    rewrite <- log_splice by lia. f_equal. lia.
  - by split_and!.
  - done.
Qed.

Lemma append_batch_in_log_fits (q : MappedFileQueue) :
  queue_ok q → can_grow q → len + 8 ≤ put_room q → Z.of_nat (length ms) ≤ 32767 →
  let off := get_max_offset q in
  ∃ q' ctx' r, append_batch_in_log env b ctx q =
      Done (q', mkBatch m inner None, ctx', new_append_result StatusPutOk (Some r)) ∧
    batch_size ctx' = Z.of_nat (length ms) ∧
    wrote_offset r = off ∧ wrote_bytes r = len ∧
    logics_offset r = queue_offset (message_ext_inner m) ∧ msg_num r = Z.of_nat (length ms) ∧
    status r = PutOk ∧ appended q q' (records off).
Proof using Hcrc Htran Hall.
  intros Hq Hgrow Hroom Hnum off.
  destruct (segment_for_put_ok q (pe_existing env) Hq Hgrow)
    as (fs & f & Hseg & Hq1 & Hfull & Hoff & Hfs & Hr & Hwhere).
  unfold append_batch_in_log. rewrite Hseg. cbn [obind]. unfold append_batch_to.
  cbn [mapped_files set_mapped_files].
  rewrite list_lookup_middle by done. cbn [unwrap obind].
  assert (Hf : mapped_files (set_mapped_files (fs ++ [f]) q) !! length fs = Some f)
    by (by apply list_lookup_middle).
  pose proof (ok_lookup _ Hq1 _ _ Hf) as (Hwf & _ & Hbase & H0 & H1).
  destruct (append_messages_fits f Hwf) as
    (f' & ctx' & r & -> & Hbs & Hs & Ho & Hb & Hlo & Hmn & Hwf' & Hw & Hlog & Hfr & Hfs'); [lia | done |].
  cbn [obind]. rewrite Hs. eexists _, ctx', r. split; [reflexivity |].
  rewrite Hoff in Ho, Hlog. fold off in Ho, Hlog. split_and!; try done.
  eapply appended_last; try done. rewrite (stored_records_length (encoder_config cfg)) by done. lia.
Qed.
End Appended.

(** ** Theorems *)

Lemma prepare_batch_tran (cfg : StoreConfig) (m : MessageExtBrokerInner) :
  MessageSysFlag.get_transaction_value (sys_flag (message_ext_inner (prepare_batch cfg m))) =
  MessageSysFlag.get_transaction_value (sys_flag (message_ext_inner m)).
Proof.
  unfold prepare_batch, MessageSysFlag.get_transaction_value. cbv zeta.
  repeat match goal with |- context [if ?c then _ else _] => destruct c end;
    cbn [or_sys_flag with_version set_inner message_ext_inner sys_flag];
    rewrite ?Z.land_lor_distr_l; change (Z.land MessageSysFlag.BORNHOST_V6_FLAG _) with 0;
    change (Z.land MessageSysFlag.STOREHOSTADDRESS_V6_FLAG _) with 0; by rewrite ?Z.lor_0_r.
Qed.

(** The batch as it is encoded, and as it is written. *)
Definition batch_prepared (cfg : StoreConfig) (env : put_env) (m : MessageExtBrokerInner)
  : MessageExtBrokerInner := prepare_batch cfg (set_msg_timestamp (as_i64 (pe_now env)) m).
Definition batch_written (cfg : StoreConfig) (env : put_env) (o : Z) (m : MessageExtBrokerInner)
  : MessageExtBrokerInner :=
  set_msg_timestamp (as_i64 (pe_begin env)) (set_queue_offset o (batch_prepared cfg env m)).

(** A batch whose body is the client's encoding of [ms], put without
    disturbance. *)
Record batch_ready {W} `{!LogClient W} (cfg : StoreConfig) (env : put_env)
    (order : list (string * string)) (ms : list (list (string * string) * Message))
    (m : MessageExtBrokerInner) (l : CommitLog) (w w1 w2 : W) (o : Z) : Prop := {
  br_body : ∃ b, body (message (message_ext_inner m)) = Some b ∧ encode_messages ms = Done b ∧
      Z.of_nat (length b) ≤ cfg_max_message_size (encoder_config cfg) ≤ i32_MAX;
  br_tran : MessageSysFlag.get_transaction_value (sys_flag (message_ext_inner m)) = 0;
  br_delay : get_delay_time_level (message (message_ext_inner m)) ≤ 0;
  br_ctl : enable_controller_mode cfg = false;
  br_act : enable_slave_acting_master cfg = false;
  br_crc : cfg_enabled_append_prop_crc (encoder_config cfg) = false;
  br_messages : Forall (batch_ok (encoder_config cfg) (batch_prepared cfg env m) order) ms;
  br_number : Z.of_nat (length ms) ≤ 32767;
  br_props : Z.of_nat (length (str_bytes (message_properties_to_string order))) ≤ 32767;
  br_assign : lc_assign (batch_prepared cfg env m) w = Done (w1, o);
  br_increase : lc_increase (batch_written cfg env o m) (Z.of_nat (length ms)) w1 = Done w2;
  br_ok : queue_ok (cl_queue l);
  br_grow : can_grow (cl_queue l);
}.

(** C4: Storing a batch: a batch with room in the log is answered as stored at the
    old end of the log; the log grows by exactly the records of its messages, in
    order, each with its own flag, body and properties, the properties of the
    batch added, and the topic, the queue and the hosts of the batch.  The next
    queue offset moves on by the number of messages, but all the records carry
    the same one, that of the first. *)
Theorem put_messages_stores {W} `{!LogClient W} (cfg : StoreConfig) (env : put_env)
    (order : list (string * string)) (ms : list (list (string * string) * Message))
    (m : MessageExtBrokerInner) (inner : bool) (enc0 : option buffer) (l : CommitLog) (w w1 w2 : W)
    (o : Z) :
  batch_ready cfg env order ms m l w w1 w2 o →
  flush_disk_type cfg = AsyncFlush → pe_task_failed env = false →
  let f := batch_written cfg env o m in let off := get_max_offset (cl_queue l) in
  records_len f order ms + 8 ≤ put_room (cl_queue l) →
  ∃ l' r,
    put_messages cfg env order (mkBatch m inner enc0) l w =
      Done (l', w2, new_append_result StatusPutOk (Some r)) ∧
    wrote_offset r = off ∧ logics_offset r = o ∧ msg_num r = Z.of_nat (length ms) ∧
    appended (cl_queue l) (cl_queue l') (concat (stored_records f order off ms)) ∧
    Forall (λ om, queue_offset (stored_message (batch_form f order om) off) = o) ms.
Proof.
  intros [(b & Hb & He & Hsz) Htran Hdelay Hctl Hact Hcrc Hall Hnum Hprops Has Hinc Hq Hg] Hasync Htask
    f off Hroom.
  set (p := batch_prepared cfg env m) in *. unfold i32_MAX in *.
  assert (Hpt : MessageSysFlag.get_transaction_value (sys_flag (message_ext_inner p)) = 0)
    by (unfold p, batch_prepared; by rewrite prepare_batch_tran).
  assert (Hpb : body (message (message_ext_inner p)) = Some b).
  { unfold p, batch_prepared, prepare_batch. cbv zeta.
    repeat match goal with |- context [if ?c then _ else _] => destruct c end; exact Hb. }
  unfold put_messages, on_inner. cbv zeta. cbn [message_ext_broker_inner is_inner_batch batch_encoded_buff].
  change (sys_flag (message_ext_inner (set_msg_timestamp (as_i64 (pe_now env)) m)))
    with (sys_flag (message_ext_inner m)).
  change (message (message_ext_inner (set_msg_timestamp (as_i64 (pe_now env)) m)))
    with (message (message_ext_inner m)).
  rewrite Htran. cbn [Z.eqb negb]. rewrite (proj2 (Z.ltb_ge _ _)) by lia.
  rewrite Hctl, Hact. cbn [orb]. rewrite andb_false_r.
  change (prepare_batch cfg (set_msg_timestamp (as_i64 (pe_now env)) m)) with p.
  unfold encode_batch, wrap. cbn [message_ext_broker_inner]. rewrite Hpb.
  unfold max_message_body_size. rewrite as_usize_id by in_range.
  rewrite (proj2 (Z.ltb_ge _ _)) by lia. rewrite (proj2 (Z.ltb_ge _ _)) by lia.
  rewrite (encode_batch_loop_ok (encoder_config cfg) p order Hcrc ms (length b) b [] 0 Hall He);
    [| lia | lia | unfold i32_MAX; lia].
  cbn [obind app phy_pos batch_size]. rewrite Z.add_0_l, Nat2Z.id.
  cbn [message_ext_broker_inner set_batch_encoded is_inner_batch].
  assert (Hent : enters_queue p = true) by (unfold enters_queue; by rewrite Hpt).
  unfold assign_offset. rewrite Hent, Has. cbn [obind is_inner_batch batch_encoded_buff].
  change (set_msg_timestamp (as_i64 (pe_begin env)) (set_queue_offset o p)) with f.
  change (blank_records p order (store_timestamp (message_ext_inner p)) ms)
    with (blank_records f order (store_timestamp (message_ext_inner p)) ms).
  assert (Hall' : Forall (batch_ok (encoder_config cfg) f order) ms).
  { eapply Forall_impl; [exact Hall |]. intros om (H1 & H2 & H3). split_and!; [done | | done].
    by apply (encodable_irrelevant _ (batch_form p order om)). }
  destruct (append_batch_in_log_fits cfg env f order ms (store_timestamp (message_ext_inner p)) inner
    (generate_key p) Hcrc (eq_sym Hpt) Hall' (cl_queue l) Hq Hg Hroom Hnum)
    as (q & ctx & r & Hrun & Hbs & Ho & _ & Hlo & Hmn & Hst & Happ).
  cbn [batch_encoded_buff set_batch_encoded]. rewrite Hrun. cbn [obind put_message_status new_append_result]. rewrite Hbs.
  unfold increase_offset. cbn [message_ext_broker_inner].
  change (enters_queue f) with (enters_queue p). rewrite Hent.
  rewrite as_i16_id by in_range. change f with (batch_written cfg env o m) at 1. rewrite Hinc. cbn [obind].
  unfold handle_disk_flush_and_ha, handle_disk_flush. cbn [append_message_result new_append_result unwrap obind].
  rewrite Htask, Hasync. cbn [obind set_put_message_status append_message_result new_append_result].
  eexists _, r. split.
  { unfold handle_ha. destruct (need_handle_ha _ _); reflexivity. }
  split_and!; try done. apply Forall_forall. intros om _. cbn [stored_message queue_offset].
  unfold stored_queue_offset. cbn [batch_form message_ext_inner sys_flag queue_offset].
  change (sys_flag (message_ext_inner f)) with (sys_flag (message_ext_inner p)). by rewrite Hpt.
Qed.

(** A unit for a queue offset that is taken already is dropped, unless the
    offset is 0. *)
Lemma put_repeated (k : nat) (c : ConsumeQueue) (uss : list (list unit_data)) (u : unit_data) (o : Z)
    (existing : buffer) :
  cq_rep k c uss → (length (mjoin uss) mod k ≠ 0)%nat → 0 < o < next_index c uss →
  20 * next_index c uss ≤ i64_MAX →
  put_message_position_info existing (u_offset u) (u_size u) (u_tags u) o c = Done (c, true).
Proof.
  intros Hrep Hmod Ho Hend. pose proof (r_k _ _ _ Hrep) as Hk.
  assert (Hne : uss ≠ []) by (intros ->; by rewrite Nat.Div0.mod_0_l in Hmod).
  destruct (rep_snoc _ _ _ Hrep Hne)
    as (ms & l & uss0 & us & E & -> & Hlen & Hlog & Hwf & Hw & Hle & Hend' & Hfi & Hfs).
  rewrite (full_length k) in Hmod by apply (r_full _ _ _ Hrep).
  assert (Hus : (0 < length us < k)%nat).
  { destruct (decide (length us = 0%nat)) as [H0 | ?].
    { exfalso. apply Hmod. rewrite H0, Nat.add_0_r. by apply Nat.Div0.mod_mul. }
    destruct (decide (length us = k)) as [H1 | ?]; [| lia].
    exfalso. apply Hmod. rewrite H1. replace (length uss0 * k + k)%nat with (S (length uss0) * k)%nat by lia.
    by apply Nat.Div0.mod_mul. }
  unfold put_message_position_info. case_match; [done |].
  unfold CQ_STORE_UNIT_SIZE, i64_MAX in *. rewrite (as_i64_id (_ * 20)), as_u64_id by in_range.
  assert (Hisfull : is_full l = false) by (rewrite is_full_spec by done; apply bool_decide_false; lia).
  rewrite (last_not_full _ existing _ ms l E Hisfull). cbn [obind set_cq_queue cq_queue].
  rewrite E, list_lookup_middle by done. cbn [unwrap obind].
  rewrite (proj2 (Z.eqb_neq (wrote_position l) 0)) by lia. rewrite andb_false_r. cbn [obind].
  replace (set_cq_queue (cq_queue c) c) with c by (by destruct c).
  unfold append_unit, CQ_STORE_UNIT_SIZE. rewrite E, list_lookup_middle by done. cbn [unwrap obind].
  pose proof (mf_pos _ Hwf). pose proof (mf_from _ Hwf). unfold i64_MAX in *.
  rewrite (as_i64_id (file_from_offset l)), (as_i64_id (o * 20)), (as_i64_id (wrote_position l + _))
    by in_range.
  rewrite (proj2 (Z.eqb_neq o 0)), (proj2 (Z.ltb_lt _ _)) by lia. done.
Qed.

(** A batch after its first message: records that carry the queue offset of a
    message the queue already has, as all but the first of a batch do, are
    dispatched without an error and leave the queue as it is, so the messages
    cannot be consumed. *)
Theorem batch_rest_dropped (k : nat) (s : cq_store) (c : ConsumeQueue) (uss : list (list unit_data))
    (o : Z) (rs : list DispatchRequest) :
  writable s → cq_rep k c uss → (length (mjoin uss) mod k ≠ 0)%nat →
  next_index c uss = o + 1 → 0 < o → 20 * (o + 1) ≤ i64_MAX →
  Forall (λ r, dr_consume_queue_offset r = o) rs →
  ∃ s', dispatch rs s c = Done (s', c) ∧ writable s'.
Proof.
  intros Hs Hrep Hmod Hn Ho Hmax Hall. revert s Hs.
  induction Hall as [| r rs Hr _ IH]; intros s Hs; [by exists s |].
  destruct (wrapper_ok r s c c Hs) as (s1 & Hw & Hs1).
  { rewrite Hr. apply (put_repeated k c uss (unit_of r)); [done | done | lia | lia]. }
  destruct (IH s1 Hs1) as (s2 & Hd & Hs2). exists s2. cbn [dispatch]. rewrite Hw. by cbn [obind].
Qed.

(** ** Examples *)

Definition example_part (text : string) : list (string * string) * Message :=
  ([("TAGS", "TagA")], mkMessage "TopicTest" 0 {["TAGS" := "TagA"]} (Some (str_bytes text)) None None).
Definition example_parts : list (list (string * string) * Message) :=
  [example_part "hello"; example_part "world"].
Definition example_batch_body : buffer :=
  match encode_messages example_parts with Done b => b | Panic => [] end.
Definition example_batch_inner : MessageExtBrokerInner :=
  mkBrokerInner
    (mkMessageExt (mkMessage "TopicTest" 0 ∅ (Some example_batch_body) None None)
       "" 3 0 7 0 1700000000000 default_host 1700000000001 default_host "" 0 0 0 0)
    "" 0 None false V1.

Lemma example_part_wf (text : string) : text ∈ ["hello"; "world"]%string → wf_batch_message (example_part text).
Proof.
  intros Ht. exists (str_bytes text). split; [done |].
  assert (text = "hello" ∨ text = "world")%string as [-> | ->] by set_solver;
    (split_and!; try (vm_compute; done); apply map_Forall_singleton; solve_sep_free).
Qed.

Lemma example_batch_ready :
  batch_ready (LogClient0 := trace_client) example_log_config sample_env [] example_parts
    example_batch_inner (put_log 0) [] [] [] 0.
Proof.
  constructor; try done.
  - exists example_batch_body. split_and!; by vm_compute.
  - repeat (apply Forall_cons; split); try apply Forall_nil_2;
      (split_and!; [apply example_part_wf; set_solver | constructor; by vm_compute | by vm_compute]).
  - by apply put_log_ok.
  - intros m Hm. injection Hm as <-. cbn. unfold i64_MAX. lia.
Qed.

Lemma put_messages_stores_witness :
  let f := batch_written example_log_config sample_env 0 example_batch_inner in
  ∃ l' r,
    put_messages (LogClient0 := trace_client) example_log_config sample_env []
      (mkBatch example_batch_inner false None) (put_log 0) [] =
      Done (l', [], new_append_result StatusPutOk (Some r)) ∧
    wrote_offset r = 0 ∧ logics_offset r = 0 ∧ msg_num r = 2 ∧
    appended (cl_queue (put_log 0)) (cl_queue l') (concat (stored_records f [] 0 example_parts)) ∧
    Forall (λ om, queue_offset (stored_message (batch_form f [] om) 0) = 0) example_parts.
Proof.
  apply (put_messages_stores (LogClient0 := trace_client) example_log_config sample_env [] example_parts
    example_batch_inner false None (put_log 0) [] [] [] 0 example_batch_ready); [done | done |].
  by vm_compute.
Defined.

Definition first_requests : list DispatchRequest :=
  [plain_request "t" 1000 100 7 1 0 "" None 0; plain_request "t" 1100 50 8 2 1 "" None 0].

Lemma batch_rest_dropped_witness :
  ∃ s c s', dispatch first_requests ConsumeQueue.sample_store sample_cq = Done (s, c) ∧
    dispatch [plain_request "t" 1150 60 9 3 1 "" None 0; plain_request "t" 1210 60 9 3 1 "" None 0] s c =
      Done (s', c).
Proof.
  destruct (dispatch_empty 3 0 ConsumeQueue.sample_store sample_cq first_requests sample_writable
    sample_cq_rep) as (s & c & uss & Hrun & Hrep & Hj & Hf & _); [done | done | done |].
  assert (Hs : writable s) by (vm_compute in Hrun; injection Hrun as <- _; done).
  exists s, c.
  destruct (batch_rest_dropped 3 s c uss 1
    [plain_request "t" 1150 60 9 3 1 "" None 0; plain_request "t" 1210 60 9 3 1 "" None 0] Hs Hrep)
    as (s' & Hd & _).
  - by rewrite Hj.
  - unfold next_index. rewrite Hf, Hj. done.
  - lia.
  - by vm_compute.
  - repeat constructor.
  - exists s'. split; [exact Hrun | exact Hd].
Defined.

(** A message, then a batch of two, one run of the dispatching service and a
    read: whether the batch was stored, the next queue offset, and the maximum
    offset and the number of messages the read answers with. *)
Definition message_then_batch : outcome (bool * Z * Z * nat) :=
  let* (s, _) := put_all (λ _, 0) example_config example_consumer_env
                   [(sample_env, example_message 3 "first")] example_store in
  let* (s, r) := store_put_messages example_config example_consumer_env [] sample_env []
                   (mkBatch example_batch_inner false None) s in
  let* e := store_do_reput (λ _, 0) example_config example_consumer_env sample_levels 2 s in
  match e with
  | Ended s =>
      let* e := get_message_with_size_limit example_config 3 "g" "TopicTest" 3 0 32 1000 None s in
      match e with
      | Ended (s, Some g) =>
          Done (is_ok r, offset_of "TopicTest" 3 (ms_consumers s), gr_max_offset g,
                length (message_mapped_list g))
      | _ => Panic
      end
  | _ => Panic
  end.

(** Three messages are stored and the next offset of the queue is 3, but the
    queue has two of them. *)
Lemma batch_lost_example : message_then_batch = Done (true, 3, 2, 2%nat).
Proof. by vm_compute. Qed.
