(* ===== verification/Remoting.v ===== *)
(** * Remoting: commands on the wire ([rocketmq-remoting])

    [remoting_command.rs], [rocketmq_serializable.rs], [protocol.rs] and
    [codec/remoting_command_codec.rs]: a command, its header in the binary
    format, the frames of a connection and the codec that cuts them out of a
    stream.  Strings are their bytes.  Two things are parameters: JSON
    ([serde_json]), and the order in which a hash map is iterated. *)

From stdpp Require Import base gmap list strings.
From Stdlib Require Import ZArith Lia.
From S2P Require Import Prelude Bytes.
Open Scope Z_scope.
Open Scope rmq_scope.

(** ** Codes ([protocol.rs]) *)

Inductive RemotingCommandType := REQUEST | RESPONSE.
Definition type_value_of (code : Z) : option RemotingCommandType :=
  if code =? 0 then Some REQUEST else if code =? 1 then Some RESPONSE else None.
Definition type_get_code (t : RemotingCommandType) : Z :=
  match t with REQUEST => 0 | RESPONSE => 1 end.

Inductive LanguageCode :=
  | JAVA | CPP | DOTNET | PYTHON | DELPHI | ERLANG | RUBY | OTHER | HTTP | GO | PHP | OMS | RUST.
#[export] Instance LanguageCode_eq_dec : EqDecision LanguageCode.
Proof. solve_decision. Defined.

Definition language_get_code (l : LanguageCode) : Z :=
  match l with
  | JAVA => 0 | CPP => 1 | DOTNET => 2 | PYTHON => 3 | DELPHI => 4 | ERLANG => 5 | RUBY => 6
  | OTHER => 7 | HTTP => 8 | GO => 9 | PHP => 10 | OMS => 11 | RUST => 12
  end.
Definition language_value_of (code : Z) : option LanguageCode :=
  match code with
  | 0 => Some JAVA | 1 => Some CPP | 2 => Some DOTNET | 3 => Some PYTHON | 4 => Some DELPHI
  | 5 => Some ERLANG | 6 => Some RUBY | 7 => Some OTHER | 8 => Some HTTP | 9 => Some GO
  | 10 => Some PHP | 11 => Some OMS | 12 => Some RUST
  | _ => None
  end.

Inductive SerializeType := JSON | ROCKETMQ.
#[export] Instance SerializeType_eq_dec : EqDecision SerializeType.
Proof. solve_decision. Defined.
Definition serialize_get_code (t : SerializeType) : Z := match t with JSON => 0 | ROCKETMQ => 1 end.
Definition serialize_value_of (code : Z) : option SerializeType :=
  if code =? 0 then Some JSON else if code =? 1 then Some ROCKETMQ else None.

(** ** Commands ([remoting_command.rs]) *)

(** What a custom header gives: its fields, and its own encoding if it has
    one. *)
Record CustomHeader := mkCustomHeader {
  to_map : option (gmap string string);
  support_fast_codec : bool;
  encode_fast : buffer;
}.

Record RemotingCommand := mkCmd {
  code : Z;
  language : LanguageCode;
  version : Z;
  opaque : Z;
  flag : Z;
  remark : option string;
  ext_fields : option (gmap string string);
  body : option buffer;
  suspended : bool;
  command_custom_header : option CustomHeader;
  serialize_type : SerializeType;
}.

Definition RPC_TYPE : Z := 0.
Definition RPC_ONEWAY : Z := 1.

Definition set_flag f c :=
  mkCmd (code c) (language c) (version c) (opaque c) f (remark c) (ext_fields c) (body c)
    (suspended c) (command_custom_header c) (serialize_type c).
Definition set_ext_fields e c :=
  mkCmd (code c) (language c) (version c) (opaque c) (flag c) (remark c) e (body c)
    (suspended c) (command_custom_header c) (serialize_type c).
Definition set_body b c :=
  mkCmd (code c) (language c) (version c) (opaque c) (flag c) (remark c) (ext_fields c) b
    (suspended c) (command_custom_header c) (serialize_type c).
Definition set_serialize_type t c :=
  mkCmd (code c) (language c) (version c) (opaque c) (flag c) (remark c) (ext_fields c) (body c)
    (suspended c) (command_custom_header c) t.

Definition mark_response_type (c : RemotingCommand) : RemotingCommand :=
  set_flag (Z.lor (flag c) (Z.shiftl 1 RPC_TYPE)) c.
Definition mark_oneway_rpc (c : RemotingCommand) : RemotingCommand :=
  set_flag (Z.lor (flag c) (Z.shiftl 1 RPC_ONEWAY)) c.
Definition is_response_type (c : RemotingCommand) : bool :=
  let bits := Z.shiftl 1 RPC_TYPE in Z.land (flag c) bits =? bits.
Definition is_oneway_rpc (c : RemotingCommand) : bool :=
  let bits := Z.shiftl 1 RPC_ONEWAY in Z.land (flag c) bits =? bits.
Definition get_type (c : RemotingCommand) : RemotingCommandType :=
  if is_response_type c then RESPONSE else REQUEST.

(** Without fields, adding one does nothing. *)
Definition add_ext_field (key value : string) (c : RemotingCommand) : RemotingCommand :=
  match ext_fields c with
  | Some ext => set_ext_fields (Some (<[key := value]> ext)) c
  | None => c
  end.
Definition add_ext_field_if_not_exist (key value : string) (c : RemotingCommand)
  : RemotingCommand :=
  match ext_fields c with
  | Some ext =>
      match ext !! key with
      | Some _ => c
      | None => set_ext_fields (Some (<[key := value]> ext)) c
      end
  | None => c
  end.

Definition make_custom_header_to_net (c : RemotingCommand) : RemotingCommand :=
  match command_custom_header c with
  | None => c
  | Some h =>
      match ext_fields c with
      | None => set_ext_fields (to_map h) c
      | Some ext =>
          match to_map h with
          | Some val => set_ext_fields (Some (val ∪ ext)) c
          | None => c
          end
      end
  end.

(** ** Results *)

Inductive RocketmqError :=
  | DecodingError (required available : Z)
  | RemotingCommandDecoderError
  | NotSupportSerializeType (code : Z).
Inductive result (A : Type) := Ok (a : A) | Err (e : RocketmqError).
Arguments Ok {A}. Arguments Err {A}.
Definition rbind {A B} (m : outcome (result A)) (k : A → outcome (result B))
  : outcome (result B) :=
  let* r := m in match r with Ok a => k a | Err e => Done (Err e) end.
Notation "'let?' x ':=' m 'in' k" := (rbind m (λ x, k))
  (at level 200, x pattern, m at level 100, k at level 200) : rmq_scope.

(** ** The length word of a header *)

Definition mark_protocol_type (source : Z) (t : SerializeType) : Z :=
  Z.lor (as_i32 (Z.shiftl (serialize_get_code t) 24)) (Z.land source 0xFFFFFF).
Definition mark_serialize_type (header_length : Z) (t : SerializeType) : Z :=
  Z.lor (as_i32 (Z.shiftl (serialize_get_code t) 24)) (Z.land header_length 0xFFFFFF).
Definition parse_header_length (size : Z) : Z := Z.land size 0xFFFFFF.
Definition parse_serialize_type (size : Z) : result SerializeType :=
  let code := as_u8 (Z.shiftr size 24) in
  match serialize_value_of code with
  | None => Err (NotSupportSerializeType code)
  | Some t => Ok t
  end.

(** ** The binary header ([rocketmq_serializable.rs]) *)

Definition put_u16 (z : Z) : buffer := be_bytes 2 z.
Definition get_u16 : reader Z := get_uint 2.

Definition write_str (use_short_length : bool) (s : string) : buffer :=
  let b := str_bytes s in
  let n := Z.of_nat (length b) in
  (if use_short_length then put_u16 (as_u16 n) else put_u32 (as_u32 n)) ++ b.

Definition read_str (use_short_length : bool) (limit : Z) (b : buffer)
  : outcome (result (option string * buffer)) :=
  let* (len, b) := (if use_short_length then get_u16 b else get_u32 b) in
  if len =? 0 then Done (Ok (None, b))
  else if limit <? len then Done (Err (DecodingError len limit))
  else let* (v, b) := get_bytes len b in Done (Ok (Some (bytes_str v), b)).

Section Wire.
(** The order in which a hash map is iterated. *)
Variable iter : gmap string string → list (string * string).

Definition not_blank (kv : string * string) : bool :=
  negb (bool_decide (kv.1 = "") || bool_decide (kv.2 = "")).

Definition field_bytes (kv : string * string) : buffer :=
  let k := str_bytes kv.1 in
  let v := str_bytes kv.2 in
  put_u16 (as_u16 (Z.of_nat (length k))) ++ k ++ put_i32 (as_i32 (Z.of_nat (length v))) ++ v.
Definition map_serialize (m : gmap string string) : option buffer :=
  let fields := filter (λ kv, not_blank kv = true) (iter m) in
  let total_length := foldr (λ kv acc, acc + 2 + Z.of_nat (length (str_bytes kv.1)) + 4 +
                        Z.of_nat (length (str_bytes kv.2))) 0 fields in
  if total_length =? 0 then None else Some (mjoin (field_bytes <$> fields)).

Definition rocket_mq_protocol_encode_bytes (c : RemotingCommand) : buffer :=
  let ext_fields_bytes := ext_fields c ≫= map_serialize in
  put_i16 (as_i16 (code c)) ++ put_u8 (language_get_code (language c)) ++
  put_i16 (as_i16 (version c)) ++ put_i32 (opaque c) ++ put_i32 (flag c) ++
  (match remark c with
   | Some r => put_i32 (as_i32 (Z.of_nat (length (str_bytes r)))) ++ str_bytes r
   | None => put_i32 0
   end) ++
  (match ext_fields_bytes with
   | Some e => put_i32 (as_i32 (Z.of_nat (length e))) ++ e
   | None => put_i32 0
   end).

(** The encoder of the codec: strings have short lengths throughout. *)
Definition rocketmq_protocol_encode (c : RemotingCommand) : outcome buffer :=
  let* header := unwrap (command_custom_header c) in
  let fields :=
    (if support_fast_codec header then encode_fast header else []) ++
    match ext_fields c with
    | Some ext =>
        mjoin ((λ kv, write_str true kv.1 ++ write_str true kv.2)
                 <$> filter (λ kv, not_blank kv = true) (iter ext))
    | None => []
    end in
  Done (put_u16 (as_u16 (code c)) ++ put_u8 (language_get_code (language c)) ++
        put_u16 (as_u16 (version c)) ++ put_i32 (opaque c) ++ put_i32 (flag c) ++
        (match remark c with Some r => write_str true r | None => put_i32 0 end) ++
        put_i32 (as_i32 (Z.of_nat (length fields))) ++ fields).

(** The fields up to [end_index] bytes before the end; every round reads at
    least the six bytes of two lengths. *)
Fixpoint map_deserialize_loop (fuel : nat) (end_index len : Z) (m : gmap string string)
    (b : buffer) : outcome (result (gmap string string)) :=
  match fuel with
  | O => Done (Ok m)
  | S fuel' =>
      if end_index <? Z.of_nat (length b) then
        let? (key, b) := read_str true len b in
        let* key := unwrap key in
        let? (value, b) := read_str false len b in
        let* value := unwrap value in
        map_deserialize_loop fuel' end_index len (<[key := value]> m) b
      else Done (Ok m)
  end.
Definition map_deserialize (len : Z) (b : buffer) : outcome (result (gmap string string)) :=
  let end_index := as_usize (Z.of_nat (length b) - len) in
  map_deserialize_loop (length b) end_index len ∅ b.

Definition rocket_mq_protocol_decode (header_len : Z) (b : buffer)
  : outcome (result RemotingCommand) :=
  let* (cd, b) := get_i16 b in
  let* (lang, b) := get_u8 b in
  let* lang := unwrap (language_value_of lang) in
  let* (ver, b) := get_i16 b in
  let* (opq, b) := get_i32 b in
  let* (flg, b) := get_i32 b in
  let? (rmk, b) := read_str false header_len b in
  let* (ext_len, b) := get_i32 b in
  let ext_len := as_usize ext_len in
  let? ext :=
    (if 0 <? ext_len then
       if header_len <? ext_len then Done (Err (DecodingError ext_len header_len))
       else map_deserialize ext_len b
     else Done (Ok ∅)) in
  Done (Ok (mkCmd cd lang ver opq flg rmk (Some ext) None false None JSON)).

(** ** Frames *)

(** [serde_json]: the fields of a command as JSON. *)
Variable to_json : RemotingCommand → option buffer.
Variable from_json : buffer → option RemotingCommand.

Definition header_encode (c : RemotingCommand) : RemotingCommand * option buffer :=
  let c := make_custom_header_to_net c in
  match serialize_type c with
  | ROCKETMQ => (c, Some (rocket_mq_protocol_encode_bytes c))
  | JSON => (c, to_json c)
  end.

Definition encode_header_with_body_length (body_length : Z) (c : RemotingCommand)
  : outcome (RemotingCommand * buffer) :=
  let '(c, h) := header_encode c in
  let* header_data := unwrap h in
  let hl := Z.of_nat (length header_data) in
  let len := 4 + hl + body_length in
  Done (c, put_i32 (as_i32 len) ++ put_i32 (mark_protocol_type (as_i32 hl) (serialize_type c)) ++
           header_data).
Definition body_len (c : RemotingCommand) : Z := default 0 (Z.of_nat ∘ length <$> body c).
Definition encode_header (c : RemotingCommand) : outcome (RemotingCommand * buffer) :=
  encode_header_with_body_length (body_len c) c.

(** [fast_header_encode]: what is appended to the buffer. *)
Definition fast_header_encode (c : RemotingCommand) : outcome (RemotingCommand * buffer) :=
  match serialize_type c with
  | JSON =>
      let c := make_custom_header_to_net c in
      let header := to_json c in
      let header_length := as_i32 (Z.of_nat (default 0%nat (length <$> header))) in
      let total_length := as_i32 (4 + header_length + as_i32 (body_len c)) in
      Done (c, put_i32 total_length ++ put_i32 (mark_serialize_type header_length JSON) ++
               default [] header)
  | ROCKETMQ =>
      let c :=
        match command_custom_header c with
        | Some h => if support_fast_codec h then c else make_custom_header_to_net c
        | None => c
        end in
      let* header := rocketmq_protocol_encode c in
      let header_size := as_i32 (Z.of_nat (length header)) in
      Done (c, put_i32 (as_i32 (header_size + as_i32 (body_len c))) ++
               put_i32 (mark_serialize_type header_size ROCKETMQ) ++ header)
  end.

(** [Encoder::encode] of the codec. *)
Definition codec_encode (c : RemotingCommand) : outcome buffer :=
  let* (c, h) := fast_header_encode c in Done (h ++ default [] (body c)).

Definition header_decode (header_length : Z) (t : SerializeType) (b : buffer)
  : outcome (result (option RemotingCommand)) :=
  match t with
  | JSON =>
      match from_json b with
      | Some c => Done (Ok (Some (set_serialize_type JSON c)))
      | None => Done (Err RemotingCommandDecoderError)
      end
  | ROCKETMQ =>
      let? c := rocket_mq_protocol_decode header_length b in
      Done (Ok (Some (set_serialize_type ROCKETMQ c)))
  end.

(** [decode]: the command, if there is one, and what stays in the buffer. *)
Definition decode_frame (total_size : Z) (cmd_data : buffer)
  : outcome (result (option RemotingCommand)) :=
  let* (_, cmd_data) := get_bytes 4 cmd_data in
  if Z.of_nat (length cmd_data) <? 4 then Done (Ok None)
  else
    let* (ori_header_length, cmd_data) := get_i32 cmd_data in
    let header_length := parse_header_length ori_header_length in
    if as_usize (total_size - 4) <? header_length then Done (Err RemotingCommandDecoderError)
    else
      let? t := Done (parse_serialize_type ori_header_length) in
      let* (header_data, cmd_data) := get_bytes header_length cmd_data in
      let? cmd := header_decode header_length t header_data in
      match cmd with
      | None => Done (Ok None)
      | Some cmd =>
          if header_length <? as_usize (total_size - 4) then
            let* (b, _) := get_bytes (as_usize (total_size - 4 - header_length)) cmd_data in
            Done (Ok (Some (set_body (Some b) cmd)))
          else Done (Ok (Some cmd))
      end.
Definition decode (src : buffer) : outcome (result (option RemotingCommand) * buffer) :=
  let read_to := Z.of_nat (length src) in
  if read_to <? 4 then Done (Ok None, src)
  else
    let* (size, _) := get_i32 src in
    let total_size := as_usize size in
    if read_to <? as_usize (total_size + 4) then Done (Ok None, src)
    else
      let* (cmd_data, src) := get_bytes (as_usize (total_size + 4)) src in
      let* r := decode_frame total_size cmd_data in
      Done (r, src).

End Wire.

(** ** The length word *)

Lemma lor_pow24 (l : Z) : 0 ≤ l < 2 ^ 24 → Z.lor (2 ^ 24) l = 2 ^ 24 + l.
Proof.
  intros Hl. rewrite <- Z.add_lor_land. replace (Z.land (2 ^ 24) l) with 0; [lia |].
  symmetry. apply Z.bits_inj'. intros n Hn. rewrite Z.land_spec, Z.bits_0, Z.pow2_bits_eqb by lia.
  destruct (Z.eqb_spec 24 n) as [<- |]; [| done]. rewrite andb_true_l.
  destruct (decide (l = 0)) as [-> | ?]; [done |].
  apply Z.bits_above_log2; [lia |]. apply Z.log2_lt_pow2; lia.
Qed.

Lemma mark_value (l : Z) (t : SerializeType) :
  0 ≤ l < 2 ^ 24 → mark_protocol_type l t = serialize_get_code t * 2 ^ 24 + l.
Proof.
  intros Hl. unfold mark_protocol_type. change 0xFFFFFF with (Z.ones 24).
  rewrite Z.land_ones, Z.mod_small by lia. destruct t; [done |].
  change (as_i32 (Z.shiftl (serialize_get_code ROCKETMQ) 24)) with (2 ^ 24).
  rewrite lor_pow24 by done. done.
Qed.

Lemma parse_mark (l : Z) (t : SerializeType) :
  0 ≤ l < 2 ^ 24 →
  parse_header_length (mark_protocol_type l t) = l ∧
  parse_serialize_type (mark_protocol_type l t) = Ok t ∧ in_s 32 (mark_protocol_type l t).
Proof.
  intros Hl. rewrite mark_value by done. unfold parse_header_length, parse_serialize_type.
  change 0xFFFFFF with (Z.ones 24). rewrite Z.land_ones, Z.shiftr_div_pow2 by lia.
  rewrite Z.div_add_l, Z.div_small, Z.add_0_r by lia.
  replace (serialize_get_code t * 2 ^ 24 + l) with (l + serialize_get_code t * 2 ^ 24) by lia.
  rewrite Z.mod_add, Z.mod_small by lia. split_and!; [done | by destruct t |].
  destruct t; cbn [serialize_get_code]; in_range.
Qed.

(** ** Strings and fields *)

Lemma read_str_write (short : bool) (limit : Z) (s : string) (rest : buffer) :
  let n := Z.of_nat (length (str_bytes s)) in
  n < (if short then 2 ^ 16 else 2 ^ 32) → n ≤ limit →
  read_str short limit (write_str short s ++ rest) =
  Done (Ok (if decide (s = "") then None else Some s, rest)).
Proof.
  intros n Hn Hlim. unfold read_str, write_str. fold n. rewrite <- app_assoc.
  assert (Hread : (if short then get_u16 ((if short then put_u16 (as_u16 n) else put_u32 (as_u32 n))
      ++ str_bytes s ++ rest)
    else get_u32 ((if short then put_u16 (as_u16 n) else put_u32 (as_u32 n)) ++ str_bytes s ++ rest))
    = Done (n, str_bytes s ++ rest)).
  { destruct short.
    - rewrite as_u16_id by in_range. apply get_uint_put. in_range.
    - rewrite as_u32_id by in_range. apply get_uint_put. in_range. }
  rewrite Hread. cbn [obind].
  destruct (Z.eqb_spec n 0) as [H0 | H0].
  - assert (Hnil : str_bytes s = []) by (apply nil_length_inv; lia). rewrite Hnil.
    rewrite decide_True; [done |]. rewrite <- (bytes_str_bytes s), Hnil. done.
  - rewrite (proj2 (Z.ltb_ge _ _)) by lia. rewrite get_bytes_app by done. cbn.
    rewrite bytes_str_bytes, decide_False; [done |]. intros ->. done.
Qed.

Lemma write_str_length (short : bool) (s : string) :
  length (write_str short s) = ((if short then 2 else 4) + length (str_bytes s))%nat.
Proof.
  unfold write_str. rewrite length_app. destruct short; [unfold put_u16 | unfold put_u32];
    by rewrite be_bytes_length.
Qed.

(** The lengths of a field are those of [write_str], short and long. *)
Lemma field_bytes_eq (kv : string * string) :
  Z.of_nat (length (str_bytes kv.2)) < 2 ^ 31 →
  field_bytes kv = write_str true kv.1 ++ write_str false kv.2.
Proof.
  intros Hv. unfold field_bytes, write_str. rewrite as_i32_id, as_u32_id by in_range.
  by rewrite <- !app_assoc.
Qed.

Definition field_ok (len : Z) (kv : string * string) : Prop :=
  kv.1 ≠ "" ∧ kv.2 ≠ "" ∧ Z.of_nat (length (str_bytes kv.1)) < 2 ^ 16 ∧
  Z.of_nat (length (str_bytes kv.1)) ≤ len ∧ Z.of_nat (length (str_bytes kv.2)) ≤ len ∧
  Z.of_nat (length (str_bytes kv.2)) < 2 ^ 31.

Definition insert_all (m : gmap string string) (l : list (string * string)) : gmap string string :=
  foldl (λ m kv, <[kv.1 := kv.2]> m) m l.

Lemma deserialize_fields (fields : list (string * string)) (len : Z) (fuel : nat)
    (m : gmap string string) (rest : buffer) :
  Forall (field_ok len) fields → (length fields ≤ fuel)%nat →
  map_deserialize_loop fuel (Z.of_nat (length rest)) len m
    (mjoin (field_bytes <$> fields) ++ rest) = Done (Ok (insert_all m fields)).
Proof.
  intros Hf. revert fuel m. induction Hf as [| kv fields Hkv Hf IH]; intros fuel m Hfuel.
  - cbn. destruct fuel; cbn; [done |]. by rewrite Z.ltb_irrefl.
  - destruct fuel as [| fuel]; [cbn in *; lia |]. destruct Hkv as (H1 & H2 & H3 & H4 & H5 & H6).
    change (mjoin (field_bytes <$> kv :: fields)) with
      (field_bytes kv ++ mjoin (field_bytes <$> fields)).
    cbn [map_deserialize_loop]. rewrite field_bytes_eq by done. rewrite <- !app_assoc.
    assert (Hpos : Z.of_nat (length rest) < Z.of_nat (length (write_str true kv.1 ++
      write_str false kv.2 ++ mjoin (field_bytes <$> fields) ++ rest))).
    { rewrite !length_app, write_str_length. lia. }
    rewrite (proj2 (Z.ltb_lt _ _)) by done.
    rewrite read_str_write, decide_False by done. cbn [rbind obind unwrap].
    rewrite read_str_write, decide_False by (done || lia). cbn [rbind obind unwrap].
    apply IH. cbn in Hfuel. lia.
Qed.

Lemma insert_all_perm (l : list (string * string)) (m : gmap string string) :
  l ≡ₚ map_to_list m → insert_all ∅ l = m.
Proof.
  intros Hp. assert (Hrev : insert_all ∅ l = list_to_map (reverse l)).
  { clear Hp. induction l as [| kv l IH] using rev_ind; [done |].
    unfold insert_all in *. by rewrite foldl_app, reverse_snoc, IH. }
  rewrite Hrev, <- (list_to_map_to_list m). apply list_to_map_proper.
  - rewrite reverse_Permutation, Hp. apply NoDup_fst_map_to_list.
  - by rewrite reverse_Permutation, Hp.
Qed.

(** ** Binary headers *)

Lemma filter_keep_all {A} (P : A → Prop) `{!∀ x, Decision (P x)} (l : list A) :
  Forall P l → filter P l = l.
Proof. induction 1 as [| x l Hx _ IH]; [done |]. by rewrite filter_cons_True, IH. Qed.

Section Binary.
Variable iter : gmap string string → list (string * string).
Hypothesis iter_perm : ∀ m, iter m ≡ₚ map_to_list m.

(** A command the binary format can carry: numbers in range, no empty strings
    (an absent one reads back the same), and a header below 16 MB. *)
Record wire_ok (c : RemotingCommand) : Prop := {
  w_code : in_s 16 (code c);
  w_version : in_s 16 (version c);
  w_opaque : in_s 32 (opaque c);
  w_flag : in_s 32 (flag c);
  w_remark : remark c ≠ Some "";
  w_fields : ∀ m k v, ext_fields c = Some m → m !! k = Some v →
             k ≠ "" ∧ v ≠ "" ∧ Z.of_nat (length (str_bytes k)) < 2 ^ 16;
  w_header : Z.of_nat (length (rocket_mq_protocol_encode_bytes iter c)) < 2 ^ 24;
}.

(** What the other side sees of a command. *)
Definition wire_view (t : SerializeType) (c : RemotingCommand) : RemotingCommand :=
  mkCmd (code c) (language c) (version c) (opaque c) (flag c) (remark c)
    (Some (default ∅ (ext_fields c))) None false None t.

Lemma iter_lookup (m : gmap string string) (k v : string) :
  (k, v) ∈ iter m → m !! k = Some v.
Proof using iter_perm. intros H. rewrite iter_perm in H. by apply elem_of_map_to_list. Qed.

Lemma fields_all_kept (m : gmap string string) :
  (∀ k v, m !! k = Some v → k ≠ "" ∧ v ≠ "" ∧ Z.of_nat (length (str_bytes k)) < 2 ^ 16) →
  filter (λ kv, not_blank kv = true) (iter m) = iter m.
Proof using iter_perm.
  intros Hm. apply filter_keep_all, Forall_forall. intros [k v] Hkv.
  apply iter_lookup in Hkv. destruct (Hm k v Hkv) as (Hk & Hv & _). unfold not_blank. cbn.
  by rewrite !bool_decide_false.
Qed.

Lemma fields_length (fields : list (string * string)) :
  Forall (λ kv, Z.of_nat (length (str_bytes kv.2)) < 2 ^ 31) fields →
  Z.of_nat (length (mjoin (field_bytes <$> fields))) =
  foldr (λ kv acc, acc + 2 + Z.of_nat (length (str_bytes kv.1)) + 4 +
           Z.of_nat (length (str_bytes kv.2))) 0 fields.
Proof using.
  induction 1 as [| kv fields _ _ IH]; [done |].
  change (mjoin (field_bytes <$> kv :: fields)) with
    (field_bytes kv ++ mjoin (field_bytes <$> fields)).
  rewrite length_app, Nat2Z.inj_add, IH. cbn [foldr]. unfold field_bytes, put_u16.
  rewrite !length_app, be_bytes_length, put_i32_length. lia.
Qed.

Definition ext_bytes (c : RemotingCommand) : buffer :=
  default [] (ext_fields c ≫= map_serialize iter).

(** The encoder, with its two optional parts as strings of known length. *)
Lemma encode_bytes_eq (c : RemotingCommand) :
  Z.of_nat (length (rocket_mq_protocol_encode_bytes iter c)) < 2 ^ 24 →
  rocket_mq_protocol_encode_bytes iter c =
  put_i16 (as_i16 (code c)) ++ put_u8 (language_get_code (language c)) ++
  put_i16 (as_i16 (version c)) ++ put_i32 (opaque c) ++ put_i32 (flag c) ++
  write_str false (default "" (remark c)) ++
  put_i32 (Z.of_nat (length (ext_bytes c))) ++ ext_bytes c.
Proof using.
  intros Hlen. unfold rocket_mq_protocol_encode_bytes, ext_bytes in *.
  rewrite !length_app in Hlen. do 5 f_equal. f_equal.
  - destruct (remark c) as [r |]; [| done]. unfold write_str. cbn [default from_option id].
    rewrite length_app in Hlen. rewrite as_i32_id, as_u32_id by in_range. done.
  - destruct (ext_fields c ≫= map_serialize iter) as [e |]; [| done].
    rewrite length_app in Hlen. cbn [default from_option id]. by rewrite as_i32_id by in_range.
Qed.

Lemma field_in_length (kv : string * string) (fields : list (string * string)) :
  kv ∈ fields →
  (length (str_bytes kv.1) + length (str_bytes kv.2) ≤ length (mjoin (field_bytes <$> fields)))%nat.
Proof using.
  induction 1 as [fields | ? y fields _ IH];
    match goal with |- context [field_bytes <$> ?x :: ?l] =>
      change (mjoin (field_bytes <$> x :: l)) with (field_bytes x ++ mjoin (field_bytes <$> l)) end;
    rewrite length_app; [| lia].
  unfold field_bytes. rewrite !length_app. lia.
Qed.

(** Reading the fields back gives the map. *)
Lemma ext_roundtrip (c : RemotingCommand) (len : Z) :
  wire_ok c → len = Z.of_nat (length (ext_bytes c)) → len < 2 ^ 24 →
  (if 0 <? len then map_deserialize len (ext_bytes c) else Done (Ok ∅)) =
  Done (Ok (default ∅ (ext_fields c))).
Proof using iter_perm.
  intros Hok Hlen Hmax. destruct (ext_fields c) as [m |] eqn:E.
  2: { unfold ext_bytes in Hlen. rewrite E in Hlen. cbn in Hlen. by subst len. }
  pose proof (w_fields _ Hok m) as Hm. specialize (λ k v, Hm k v E).
  assert (Hb : ext_bytes c = mjoin (field_bytes <$> iter m)).
  { unfold ext_bytes. rewrite E. cbn [mbind option_bind]. unfold map_serialize.
    rewrite fields_all_kept by done. destruct (iter m) as [| kv fields]; [done |].
    cbn [foldr]. rewrite (proj2 (Z.eqb_neq _ 0)); [done |].
    assert (0 ≤ foldr (λ kv acc, acc + 2 + Z.of_nat (length (str_bytes kv.1)) + 4 +
      Z.of_nat (length (str_bytes kv.2))) 0 fields); [| lia].
    clear. induction fields as [| ? fields IH]; cbn; lia. }
  rewrite <- (insert_all_perm (iter m) m (iter_perm m)).
  destruct (Z.ltb_spec 0 len) as [Hpos | Hz].
  - unfold map_deserialize. rewrite <- Hlen, Z.sub_diag. change (as_usize 0) with 0.
    rewrite Hb, <- (app_nil_r (mjoin _)). apply (deserialize_fields (iter m) len _ ∅ []).
    + apply Forall_forall. intros [k v] Hkv. pose proof (field_in_length _ _ Hkv) as Hl.
      cbn in Hl. rewrite <- Hb in Hl. destruct (Hm k v (iter_lookup _ _ _ Hkv)) as (? & ? & ?).
      split_and!; try done; cbn; lia.
    + rewrite app_nil_r. clear. induction (iter m) as [| kv l IH]; [done |].
      change (mjoin (field_bytes <$> kv :: l)) with (field_bytes kv ++ mjoin (field_bytes <$> l)).
      rewrite length_app. unfold field_bytes at 1. unfold put_u16.
      rewrite length_app, be_bytes_length. cbn. lia.
  - destruct (iter m) as [| kv fields]; [done |]. exfalso.
    rewrite Hb in Hlen. revert Hlen.
    change (mjoin (field_bytes <$> kv :: fields)) with
      (field_bytes kv ++ mjoin (field_bytes <$> fields)).
    rewrite length_app. unfold field_bytes at 1. unfold put_u16. rewrite length_app, be_bytes_length. lia.
Qed.

Lemma language_roundtrip (l : LanguageCode) : language_value_of (language_get_code l) = Some l.
Proof using. by destruct l. Qed.

Lemma header_roundtrip (c : RemotingCommand) :
  wire_ok c →
  rocket_mq_protocol_decode (Z.of_nat (length (rocket_mq_protocol_encode_bytes iter c)))
    (rocket_mq_protocol_encode_bytes iter c) = Done (Ok (wire_view JSON c)).
Proof using iter_perm.
  intros Hok. pose proof (w_header _ Hok) as Hlen.
  set (hl := Z.of_nat (length (rocket_mq_protocol_encode_bytes iter c))) in *.
  pose proof (encode_bytes_eq c Hlen) as Heq. rewrite Heq.
  assert (Hl : hl = 17 + Z.of_nat (length (str_bytes (default "" (remark c)))) + 4 +
                    Z.of_nat (length (ext_bytes c))).
  { unfold hl. rewrite Heq, !length_app, write_str_length.
    rewrite !put_i16_length, put_u8_length, !put_i32_length. lia. }
  unfold rocket_mq_protocol_decode.
  rewrite (as_i16_id (code c)), (as_i16_id (version c)) by apply Hok.
  rewrite get_put_i16 by apply Hok. cbn [obind].
  rewrite get_put_u8 by (destruct (language c); cbn; in_range). cbn [obind].
  rewrite language_roundtrip. cbn [obind unwrap].
  rewrite get_put_i16 by apply Hok. cbn [obind].
  rewrite get_put_i32 by apply Hok. cbn [obind].
  rewrite get_put_i32 by apply Hok. cbn [obind].
  rewrite read_str_write by lia. cbn [rbind obind].
  rewrite <- (app_nil_r (ext_bytes c)) at 2. rewrite app_nil_r at 1.
  rewrite get_put_i32 by in_range. cbn [obind].
  rewrite as_usize_id by in_range. rewrite (proj2 (Z.ltb_ge hl _)) by lia.
  rewrite (ext_roundtrip c _ Hok eq_refl) by lia. cbn [rbind obind]. unfold wire_view.
  destruct (decide (default "" (remark c) = "")) as [He | He]; [| by destruct (remark c)].
  destruct (remark c) as [r |] eqn:Er; [| done]. cbn in He. subst r.
  by destruct (w_remark _ Hok).
Qed.
End Binary.

(** ** Frames in a stream *)

Section Frames.
Variable iter : gmap string string → list (string * string).
Hypothesis iter_perm : ∀ m, iter m ≡ₚ map_to_list m.
Variable to_json : RemotingCommand → option buffer.
Variable from_json : buffer → option RemotingCommand.

Definition frame (t : SerializeType) (header bd : buffer) : buffer :=
  put_i32 (4 + Z.of_nat (length header) + Z.of_nat (length bd)) ++
  put_i32 (mark_protocol_type (Z.of_nat (length header)) t) ++ header ++ bd.

Definition with_body (bd : buffer) (c : RemotingCommand) : RemotingCommand :=
  match bd with [] => c | _ => set_body (Some bd) c end.

(** A whole frame at the head of the buffer is taken off it and decoded. *)
Lemma decode_frame_ok (t : SerializeType) (header bd rest : buffer) (c : RemotingCommand) :
  Z.of_nat (length header) < 2 ^ 24 →
  4 + Z.of_nat (length header) + Z.of_nat (length bd) < 2 ^ 31 →
  header_decode from_json (Z.of_nat (length header)) t header = Done (Ok (Some c)) →
  decode from_json (frame t header bd ++ rest) = Done (Ok (Some (with_body bd c)), rest).
Proof using.
  intros Hh Ht Hd. set (hl := Z.of_nat (length header)) in *.
  set (total := 4 + hl + Z.of_nat (length bd)) in *.
  destruct (parse_mark hl t) as (Hp1 & Hp2 & Hp3); [lia |].
  assert (Hlen : Z.of_nat (length (frame t header bd)) = total + 4).
  { unfold frame. fold hl total. rewrite !length_app, !put_i32_length. lia. }
  unfold decode. rewrite length_app, Nat2Z.inj_add, Hlen.
  rewrite (proj2 (Z.ltb_ge _ 4)) by lia. unfold frame at 1. fold hl total.
  rewrite <- !app_assoc, get_put_i32 by in_range. cbn [obind].
  rewrite !(as_usize_id total), !(as_usize_id (total + 4)) by in_range.
  rewrite (proj2 (Z.ltb_ge _ (total + 4))) by lia.
  rewrite get_bytes_app by done. cbn [obind]. unfold decode_frame.
  unfold frame. fold hl total. rewrite get_bytes_app by (by rewrite put_i32_length). cbn [obind].
  rewrite length_app, put_i32_length, (proj2 (Z.ltb_ge _ 4)) by lia.
  rewrite get_put_i32 by done. cbn [obind]. rewrite Hp1, Hp2, as_usize_id by in_range.
  rewrite (proj2 (Z.ltb_ge (total - 4) hl)) by lia. cbn [rbind obind].
  rewrite get_bytes_app by done. cbn [obind]. rewrite Hd. cbn [rbind obind].
  assert (Hbl : total - 4 - hl = Z.of_nat (length bd)) by (unfold total; lia). clearbody total.
  destruct bd as [| x bd].
  - by rewrite (proj2 (Z.ltb_ge _ _)) by (cbn in Hbl; lia).
  - rewrite (proj2 (Z.ltb_lt _ _)) by (cbn in Hbl; lia).
    rewrite Hbl, as_usize_id by in_range.
    pose proof (get_bytes_app _ (x :: bd) [] eq_refl) as Hg. rewrite app_nil_r in Hg.
    by rewrite Hg.
Qed.

(** A frame of which not all bytes have arrived is left in the buffer. *)
Lemma decode_partial (t : SerializeType) (header bd : buffer) (n : nat) :
  4 + Z.of_nat (length header) + Z.of_nat (length bd) < 2 ^ 31 →
  (n < length (frame t header bd))%nat →
  decode from_json (take n (frame t header bd)) = Done (Ok None, take n (frame t header bd)).
Proof using.
  intros Ht Hn. unfold decode. rewrite length_take, Nat.min_l by lia.
  destruct (Z.ltb_spec (Z.of_nat n) 4); [done |].
  assert (Hlen : Z.of_nat (length (frame t header bd)) =
                 4 + Z.of_nat (length header) + Z.of_nat (length bd) + 4).
  { unfold frame. rewrite !length_app, !put_i32_length. lia. }
  unfold frame at 1. rewrite take_app_ge by (rewrite put_i32_length; lia).
  rewrite get_put_i32 by in_range. cbn [obind].
  rewrite (as_usize_id (4 + _ + _)), as_usize_id by in_range.
  by rewrite (proj2 (Z.ltb_lt _ _)) by lia.
Qed.

(** The commands the codec can carry, as the sender has them after the custom
    header was added to the fields. *)
Definition sendable (c : RemotingCommand) : Prop :=
  body c ≠ Some [] ∧
  match serialize_type c with
  | ROCKETMQ =>
      wire_ok iter c ∧
      4 + Z.of_nat (length (rocket_mq_protocol_encode_bytes iter c)) + body_len c < 2 ^ 31
  | JSON => ∃ b, to_json c = Some b ∧ Z.of_nat (length b) < 2 ^ 24 ∧
                 4 + Z.of_nat (length b) + body_len c < 2 ^ 31
  end.

(** What the other side receives. *)
Definition received (c : RemotingCommand) : RemotingCommand :=
  match serialize_type c with
  | ROCKETMQ => set_body (body c) (wire_view ROCKETMQ c)
  | JSON => mkCmd (code c) (language c) (version c) (opaque c) (flag c) (remark c) (ext_fields c)
              (body c) false None JSON
  end.

(** [serde]: the fields that are not skipped come back, the skipped ones have
    their defaults. *)
Hypothesis json_roundtrip : ∀ c b, to_json c = Some b →
  from_json b = Some (mkCmd (code c) (language c) (version c) (opaque c) (flag c) (remark c)
                        (ext_fields c) None false None (serialize_type c)).

Lemma with_body_default (c d : RemotingCommand) :
  body c ≠ Some [] → body d = None → with_body (default [] (body c)) d = set_body (body c) d.
Proof using.
  intros Hb Hd. destruct (body c) as [[| x b] |]; [done | done |]. cbn. destruct d; cbn in *.
  by subst.
Qed.

(** Decoding the header of a sendable command. *)
Lemma header_decode_ok (c : RemotingCommand) (header : buffer) :
  sendable c → (serialize_type c = ROCKETMQ → header = rocket_mq_protocol_encode_bytes iter c) →
  (serialize_type c = JSON → to_json c = Some header) →
  ∃ d, header_decode from_json (Z.of_nat (length header)) (serialize_type c) header =
         Done (Ok (Some d)) ∧
       with_body (default [] (body c)) d = received c ∧ Z.of_nat (length header) < 2 ^ 24 ∧
       4 + Z.of_nat (length header) + Z.of_nat (length (default [] (body c))) < 2 ^ 31.
Proof using iter_perm json_roundtrip.
  intros [Hb Hs] H1 H2. unfold received, header_decode.
  assert (Hbl : body_len c = Z.of_nat (length (default [] (body c))))
    by (unfold body_len; by destruct (body c)). rewrite <- Hbl.
  destruct (serialize_type c) eqn:E.
  - destruct Hs as (b & Hj & Hl & Ht). rewrite H2 in Hj by done. injection Hj as <-.
    rewrite (json_roundtrip c header) by auto. eexists. split; [done |]. split; [| done].
    rewrite with_body_default by done. done.
  - destruct Hs as [Hw Ht]. rewrite H1 by done. rewrite header_roundtrip by done.
    cbn [rbind obind]. eexists. split; [done |]. split; [| split; [apply Hw | done]].
    by rewrite with_body_default by done.
Qed.

(** What [encode_header] and the body put on the wire is one frame. *)
Lemma encode_header_frame (c : RemotingCommand) :
  let c1 := make_custom_header_to_net c in
  sendable c1 → ∃ header,
    (serialize_type c1 = ROCKETMQ → header = rocket_mq_protocol_encode_bytes iter c1) ∧
    (serialize_type c1 = JSON → to_json c1 = Some header) ∧
    ∃ h, encode_header iter to_json c = Done (c1, h) ∧
      h ++ default [] (body c1) = frame (serialize_type c1) header (default [] (body c1)).
Proof using.
  intros c1 [Hb Hs]. unfold encode_header, encode_header_with_body_length, header_encode. fold c1.
  assert (Hbc : body c1 = body c).
  { unfold c1, make_custom_header_to_net. destruct (command_custom_header c); [| done].
    destruct (ext_fields c); [| done]. by destruct (to_map _). }
  assert (Hbl : body_len c = Z.of_nat (length (default [] (body c1))))
    by (unfold body_len; rewrite Hbc; by destruct (body c)).
  assert (Hbl1 : body_len c1 = body_len c) by (unfold body_len; by rewrite Hbc).
  destruct (serialize_type c1) eqn:E.
  - destruct Hs as (b & Hj & Hl & Ht). exists b. rewrite Hj. cbn [unwrap obind].
    split; [done |]. split; [done |]. eexists. split; [done |]. rewrite E, Hbl.
    unfold frame. rewrite <- !app_assoc, !as_i32_id by in_range. done.
  - destruct Hs as [[] Ht]. eexists. split; [done |]. split; [done |].
    cbn [unwrap obind]. eexists. split; [done |]. rewrite E, Hbl.
    unfold frame. rewrite <- !app_assoc, !as_i32_id by in_range. done.
Qed.

(** The header of [encode_header], then the body. *)
Definition header_then_body (c : RemotingCommand) : outcome buffer :=
  let* (c, h) := encode_header iter to_json c in Done (h ++ default [] (body c)).

(** For JSON commands the codec and [encode_header] give the same bytes. *)
Lemma codec_json_same (c : RemotingCommand) :
  serialize_type c = JSON → sendable (make_custom_header_to_net c) →
  codec_encode iter to_json c = header_then_body c.
Proof using.
  intros Ht Hs. assert (Ht1 : serialize_type (make_custom_header_to_net c) = JSON).
  { unfold make_custom_header_to_net. destruct (command_custom_header c); [| done].
    destruct (ext_fields c); [| done]. by destruct (to_map _). }
  destruct (encode_header_frame c Hs) as (header & _ & H2 & h & Henc & Hframe).
  specialize (H2 Ht1). unfold header_then_body. rewrite Henc. cbn [obind].
  destruct Hs as [_ Hs]. rewrite Ht1 in Hs. destruct Hs as (b & Hj & Hl & Htot).
  rewrite H2 in Hj. injection Hj as <-.
  unfold codec_encode, fast_header_encode. rewrite Ht, H2. cbn [obind fmap option_fmap option_map
    default from_option id]. rewrite Hframe, Ht1. unfold frame.
  assert (Hbl : body_len (make_custom_header_to_net c) =
    Z.of_nat (length (default [] (body (make_custom_header_to_net c)))))
    by (unfold body_len; by destruct (body _)).
  rewrite Hbl in *. rewrite (as_i32_id (Z.of_nat (length header))),
    (as_i32_id (Z.of_nat (length (default _ _)))), as_i32_id by in_range.
  by rewrite <- !app_assoc.
Qed.

(** The reader of a connection: commands are decoded while there are any. *)
Fixpoint drain (fuel : nat) (src : buffer) : outcome (list RemotingCommand * buffer) :=
  match fuel with
  | O => Done ([], src)
  | S fuel' =>
      let* (r, src) := decode from_json src in
      match r with
      | Ok (Some c) => let* (cs, src) := drain fuel' src in Done (c :: cs, src)
      | Ok None => Done ([], src)
      | Err _ => Done ([], src)
      end
  end.

(** What a connection sends for commands one after the other
    ([Connection::send_command], the codec's [encode]). *)
Fixpoint sent_all (cs : list RemotingCommand) : outcome buffer :=
  match cs with
  | [] => Done []
  | c :: cs' => let* b := codec_encode iter to_json c in let* bs := sent_all cs' in Done (b ++ bs)
  end.

(** C16: JSON commands whose header and body fit a frame arrive: decoding what a
    connection sends for them one after the other, followed by a part of another
    frame, gives back every command with its body, in order, and leaves exactly
    the unfinished frame in the buffer.  Binary commands do not, see
    [binary_codec_undecodable]. *)
Theorem stream_decodes (cs : list RemotingCommand) (t : SerializeType) (header bd : buffer)
    (n fuel : nat) :
  Forall (λ c, serialize_type c = JSON ∧ sendable (make_custom_header_to_net c)) cs →
  (length cs < fuel)%nat → 4 + Z.of_nat (length header) + Z.of_nat (length bd) < 2 ^ 31 →
  (n < length (frame t header bd))%nat →
  ∃ bytes, sent_all cs = Done bytes ∧
    drain fuel (bytes ++ take n (frame t header bd)) =
    Done (received ∘ make_custom_header_to_net <$> cs, take n (frame t header bd)).
Proof using iter_perm json_roundtrip.
  intros Hs Hfuel Ht Hn. revert fuel Hfuel. induction Hs as [| c cs [Hj Hc] Hs IH]; intros fuel Hfuel;
    (destruct fuel as [| fuel]; [cbn in *; lia |]).
  - exists []. split; [done |]. cbn [app drain]. rewrite decode_partial by done. done.
  - destruct (IH fuel ltac:(cbn in *; lia)) as (bytes & Hall & Hdrain).
    destruct (encode_header_frame c Hc) as (header' & H1 & H2 & h & Henc & Hframe).
    destruct (header_decode_ok _ header' Hc H1 H2) as (d & Hd & Hrec & Hl & Htot).
    exists (frame (serialize_type (make_custom_header_to_net c)) header'
              (default [] (body (make_custom_header_to_net c))) ++ bytes).
    cbn [sent_all drain]. rewrite (codec_json_same c Hj Hc). unfold header_then_body.
    rewrite Henc, Hall. cbn [obind].
    split; [by rewrite Hframe |]. rewrite <- app_assoc.
    rewrite (decode_frame_ok _ _ _ _ d) by done. cbn [obind]. rewrite Hdrain, Hrec. done.
Qed.

(** A binary frame of the codec cannot be decoded: its length word leaves out
    the four bytes of the header length, so a command without a body is
    refused and four of its bytes are left in front of the next frame. *)
Theorem binary_codec_undecodable (c : RemotingCommand) (b : buffer) :
  serialize_type c = ROCKETMQ → body c = None → codec_encode iter to_json c = Done b →
  Z.of_nat (length b) < 2 ^ 24 →
  decode from_json b =
  Done (Err RemotingCommandDecoderError, drop (length b - 4) b).
Proof using.
  intros Ht Hb Henc Hl. unfold codec_encode, fast_header_encode in Henc. rewrite Ht in Henc.
  set (c1 := match command_custom_header c with Some _ => _ | None => c end) in Henc.
  assert (Hb1 : body c1 = None).
  { unfold c1. destruct (command_custom_header c) as [h |] eqn:E; [| done].
    destruct (support_fast_codec h); [done |]. unfold make_custom_header_to_net. rewrite E.
    destruct (ext_fields c); [| done]. by destruct (to_map h). }
  apply obind_done in Henc as ([c2 h] & Hh & Henc). apply obind_done in Hh as (header & Hhd & Hh).
  apply done_inj, pair_equal_spec in Hh as [<- <-]. apply done_inj in Henc. rewrite Hb1 in Henc.
  cbn [default from_option id] in Henc. rewrite app_nil_r in Henc.
  unfold body_len in Henc. rewrite Hb1 in Henc.
  cbn [fmap option_fmap option_map default from_option] in Henc. change (as_i32 0) with 0 in Henc.
  assert (H17 : (17 ≤ length header)%nat).
  { unfold rocketmq_protocol_encode in Hhd. apply obind_done in Hhd as (? & _ & Hhd).
    apply done_inj in Hhd. subst header. unfold put_u16.
    rewrite !length_app, !be_bytes_length, put_u8_length, !put_i32_length. lia. }
  subst b. rewrite !length_app, !put_i32_length in Hl |- *. set (hl := Z.of_nat (length header)) in *.
  assert (Hhl : 17 ≤ hl < 2 ^ 24) by (unfold hl; lia).
  rewrite (as_i32_id hl), Z.add_0_r, as_i32_id by in_range.
  change (mark_serialize_type hl ROCKETMQ) with (mark_protocol_type hl ROCKETMQ).
  destruct (parse_mark hl ROCKETMQ) as (Hp1 & _ & Hp3); [lia |].
  unfold decode. rewrite !length_app, !put_i32_length. rewrite (proj2 (Z.ltb_ge _ 4)) by lia.
  rewrite get_put_i32 by in_range. cbn [obind].
  rewrite !(as_usize_id hl), !(as_usize_id (hl + 4)) by in_range.
  rewrite (proj2 (Z.ltb_ge _ _)) by (unfold hl; lia).
  unfold get_bytes at 1. rewrite decide_True by (rewrite !length_app, !put_i32_length; unfold hl; lia).
  cbn [obind]. replace (Z.to_nat (hl + 4)) with (4 + (4 + length header) - 4)%nat by (unfold hl; lia).
  rewrite (take_app_ge (put_i32 hl)) by (rewrite put_i32_length; lia). rewrite put_i32_length.
  replace (4 + (4 + length header) - 4 - 4)%nat with (length header) by lia.
  unfold decode_frame. rewrite get_bytes_app by (by rewrite put_i32_length). cbn [obind].
  rewrite (take_app_ge (put_i32 _)) by (rewrite put_i32_length; lia).
  rewrite length_app, put_i32_length, (proj2 (Z.ltb_ge _ 4)) by lia.
  rewrite get_put_i32 by done. cbn [obind]. rewrite Hp1, as_usize_id by in_range.
  by rewrite (proj2 (Z.ltb_lt _ _)) by lia.
Qed.
End Frames.

(** ** Samples *)

Definition sample_json : RemotingCommand :=
  mkCmd 105 JAVA 401 7 0 None (Some {[ "topic" := "t" ]}) None false None JSON.
Definition sample_json_text : buffer := str_bytes "{code:105,opaque:7,extFields:{topic:t}}".
#[export] Instance CustomHeader_eq_dec : EqDecision CustomHeader.
Proof. solve_decision. Defined.
#[export] Instance RemotingCommand_eq_dec : EqDecision RemotingCommand.
Proof. solve_decision. Defined.

(** A JSON library that knows one text. *)
Definition toy_to_json (c : RemotingCommand) : option buffer :=
  if decide (c = sample_json) then Some sample_json_text else None.
Definition toy_from_json (b : buffer) : option RemotingCommand :=
  if decide (b = sample_json_text) then Some sample_json else None.

Lemma toy_roundtrip (c : RemotingCommand) (b : buffer) :
  toy_to_json c = Some b →
  toy_from_json b = Some (mkCmd (code c) (language c) (version c) (opaque c) (flag c) (remark c)
                        (ext_fields c) None false None (serialize_type c)).
Proof.
  unfold toy_to_json. case_decide as H; [| done]. intros Hb. apply some_inj in Hb. subst.
  unfold toy_from_json. by rewrite decide_True.
Qed.

Definition sample_binary : RemotingCommand :=
  mkCmd 10 RUST 500 8 2 (Some "hello") None (Some (str_bytes "payload")) false
    (Some (mkCustomHeader (Some {[ "group" := "g" ]}) false [])) ROCKETMQ.

Lemma sample_sendable :
  Forall (λ c, serialize_type c = JSON ∧
               sendable map_to_list toy_to_json (make_custom_header_to_net c))
    [sample_json; sample_json].
Proof.
  repeat (apply Forall_cons; split); try done; (split; [done |]; split; [done |];
    exists sample_json_text; split; [vm_compute; reflexivity | vm_compute; done]).
Qed.

Lemma stream_decodes_witness :
  ∃ bytes, sent_all map_to_list toy_to_json [sample_json; sample_json] = Done bytes ∧
    drain toy_from_json 3 (bytes ++ take 5 (frame JSON (str_bytes "{}") [])) =
    Done (received ∘ make_custom_header_to_net <$> [sample_json; sample_json],
          take 5 (frame JSON (str_bytes "{}") [])).
Proof.
  apply stream_decodes; [done | apply toy_roundtrip | apply sample_sendable | cbn; lia | cbn; lia |].
  vm_compute. lia.
Defined.

Lemma binary_codec_undecodable_witness :
  let c := set_body None sample_binary in
  ∃ b, codec_encode map_to_list toy_to_json c = Done b ∧
    decode toy_from_json b = Done (Err RemotingCommandDecoderError, drop (length b - 4) b).
Proof.
  intros c. eexists. split; [vm_compute; reflexivity |].
  apply (binary_codec_undecodable map_to_list toy_to_json toy_from_json c); try reflexivity.
  all: vm_compute; reflexivity.
Defined.
