(* ===== verification/ConfigFile.v ===== *)
(** * ConfigFile: state kept in configuration files

    [file_utils.rs] writes a file after saving its old contents as a backup;
    the trait [ConfigManager] ([config_manager.rs]) loads and persists a
    manager's state through it, and is an interface here, proved against once
    for every manager; [consumer_offset_manager.rs] implements it, and
    [kvconfig_mananger.rs] of the name server uses the files directly.  Files
    are a map from paths to contents.  A write may be refused or cut at any
    byte, by a fault of the disk or because the program stops; reading a file
    that is there is assumed not to fail, and the documents are ASCII, so that
    reading them loses nothing. *)

From stdpp Require Import base gmap list strings.
From Stdlib Require Import ZArith Lia Ascii.
From S2P Require Import Prelude Bytes RouteInfo Offsets.
Open Scope Z_scope.
Open Scope rmq_scope.

Abbreviation files := (gmap string string).

(** ** [file_utils.rs] *)

(** A missing file reads as empty. *)
Definition file_to_string (name : string) (fs : files) : string := default "" (fs !! name).

Definition bak_name (name : string) : string := (name +:+ ".bak")%string.

(** How the write of a file ends: everything is written; the directory or the
    file cannot be created, which is reported and changes nothing; or the file
    is created, hence emptied, and [n] bytes are written.  The last is reported
    or, where the bytes are only written when the buffered writer is dropped,
    not.  A program that stops leaves what a reported cut leaves. *)
Inductive written := Whole | Refused | Cut (n : nat) (reported : bool).

(** [string_to_file_not_safe]: the files and whether it is [Ok]. *)
Definition string_to_file_not_safe (w : written) (content name : string) (fs : files)
  : files * bool :=
  match w with
  | Whole => (<[name := content]> fs, true)
  | Refused => (fs, false)
  | Cut n reported => (<[name := String.substring 0 n content]> fs, negb reported)
  end.
(** The writes of the backup and of the file end as [ws] says; the second is
    not tried when the first reports an error. *)
Definition string_to_file (ws : written * written) (content name : string) (fs : files)
  : files * bool :=
  let (fs, ok) := string_to_file_not_safe ws.1 (file_to_string name fs) (bak_name name) fs in
  if ok then string_to_file_not_safe ws.2 content name fs else (fs, false).
Definition whole : written * written := (Whole, Whole).

(** ** The interface [ConfigManager] *)

Class ConfigManager (S : Type) := {
  config_file_path : S → string;
  encode_pretty : bool → S → string;
  config_decode : string → S → outcome S;
}.

Section Manager.
Context {S : Type} `{!ConfigManager S}.

Definition load_bak (fs : files) (s : S) : outcome (S * bool) :=
  let content := file_to_string (bak_name (config_file_path s)) fs in
  if decide (content = "") then Done (s, true)
  else let* s := config_decode content s in Done (s, true).

Definition load (fs : files) (s : S) : outcome (S * bool) :=
  let content := file_to_string (config_file_path s) fs in
  if decide (content = "") then load_bak fs s
  else let* s := config_decode content s in Done (s, true).

(** An error is logged, nothing else. *)
Definition persist (ws : written * written) (s : S) (fs : files) : files :=
  let json := encode_pretty true s in
  if decide (json = "") then fs else (string_to_file ws json (config_file_path s) fs).1.
End Manager.

(** A text cut before its end. *)
Definition cut_text (p t : string) : Prop :=
  p ≠ "" ∧ ∃ n, p = String.substring 0 n t ∧ p ≠ t.

(** What a manager promises: its encoding is not empty, decoding it into a
    fresh manager with the same file gives the persistent part back, and a
    text cut before its end is no document, which the decoders unwrap. *)
Class ConfigLaws (S : Type) `{!ConfigManager S} (restored : S → S → S) := {
  encode_nonempty : ∀ b s, encode_pretty b s ≠ "";
  decode_encode : ∀ b s init, config_decode (encode_pretty b s) init = Done (restored init s);
  decode_cut : ∀ b s p init, cut_text p (encode_pretty b s) → config_decode p init = Panic;
}.

Lemma bak_name_ne (name : string) : bak_name name ≠ name.
Proof.
  unfold bak_name. induction name as [| c name IH]; [done |]. cbn. intros H. by injection H.
Qed.

Section Durable.
Context {S : Type} `{!ConfigManager S} (restored : S → S → S) `{!ConfigLaws S restored}.

Lemma load_file (fs : files) (s init : S) (b : bool) :
  file_to_string (config_file_path init) fs = encode_pretty b s →
  load fs init = Done (restored init s, true).
Proof using ConfigLaws0.
  intros H. unfold load. rewrite H, decide_False by apply (encode_nonempty b s).
  by rewrite decode_encode.
Qed.

(** The states a persisting manager leaves behind: the last saved state is in
    the file. *)
Definition saved_in (s : S) (path : string) (fs : files) : Prop :=
  file_to_string path fs = encode_pretty true s.

Lemma persist_saved (s : S) (fs : files) : saved_in s (config_file_path s) (persist whole s fs).
Proof using ConfigLaws0.
  unfold persist, saved_in. rewrite decide_False by apply (encode_nonempty true s).
  unfold string_to_file, file_to_string. cbn. by rewrite lookup_insert_eq.
Qed.

(** A text that was written in part. *)
Lemma cut_cases (n : nat) (t : string) :
  String.substring 0 n t = "" ∨ String.substring 0 n t = t ∨ cut_text (String.substring 0 n t) t.
Proof.
  destruct (decide (String.substring 0 n t = "")) as [E | E]; [by left |].
  destruct (decide (String.substring 0 n t = t)) as [E' | E']; [by right; left |].
  right; right. split; [done |]. by exists n.
Qed.

(** The file holds the start of a document and the manager panics on it. *)
Definition torn (s init : S) (fs : files) : Prop :=
  cut_text (file_to_string (config_file_path init) fs) (encode_pretty true s) ∧
  load fs init = Panic.

Lemma load_torn (fs : files) (s init : S) :
  cut_text (file_to_string (config_file_path init) fs) (encode_pretty true s) → torn s init fs.
Proof using ConfigLaws0.
  intros H. split; [done |]. unfold load. rewrite decide_False by apply H.
  by rewrite (decode_cut true s).
Qed.

(** A manager persists a new state over an old one and at most one of the two
    writes goes wrong, in any way: loading afterwards gives the old or the new
    state, or the file was cut inside the new document and the load panics. *)
Lemma persist_loads (ws : written * written) (old new init : S) (fs : files) :
  config_file_path new = config_file_path init → saved_in old (config_file_path init) fs →
  ws.1 = Whole ∨ ws.2 = Whole →
  let fs' := persist ws new fs in
  load fs' init = Done (restored init old, true) ∨
  load fs' init = Done (restored init new, true) ∨
  torn new init fs' ∧
    file_to_string (bak_name (config_file_path init)) fs' = encode_pretty true old.
Proof using ConfigLaws0.
  intros Hp Hs Hw. pose proof (bak_name_ne (config_file_path init)) as Hb. unfold saved_in in Hs.
  assert (∀ x, load (<[bak_name (config_file_path init) := x]> fs) init =
               Done (restored init old, true)) as Hbak.
  { intros x. apply (load_file _ old _ true). unfold file_to_string in *. by rewrite lookup_insert_ne. }
  assert (∀ fs0, load (<[config_file_path init := encode_pretty true new]> fs0) init =
                 Done (restored init new, true)) as Hnew.
  { intros fs0. apply (load_file _ new _ true). unfold file_to_string. by rewrite lookup_insert_eq. }
  unfold persist. rewrite decide_False by apply (encode_nonempty true new).
  unfold string_to_file. rewrite Hp, Hs. destruct ws as [wb wm]. cbn [fst snd] in *.
  destruct wb as [| | n [|]]; cbn.
  - destruct wm as [| | k r]; cbn; [by right; left; apply Hnew | by left; apply Hbak |].
    destruct (cut_cases k (encode_pretty true new)) as [E | [E | Hc]].
    + left. rewrite E. unfold load, load_bak, file_to_string. rewrite lookup_insert_eq.
      cbn [default from_option id]. rewrite decide_True by done.
      rewrite lookup_insert_ne, lookup_insert_eq by done. cbn [default from_option id].
      rewrite decide_False by apply (encode_nonempty true old). by rewrite decode_encode.
    + right; left. rewrite E. apply Hnew.
    + right; right. split.
      * apply load_torn. unfold file_to_string. by rewrite lookup_insert_eq.
      * unfold file_to_string. by rewrite lookup_insert_ne, lookup_insert_eq.
  - left. by apply (load_file _ old _ true).
  - left. apply Hbak.
  - destruct Hw as [Hw | ->]; [done |]. cbn. right; left. apply Hnew.
Qed.
End Durable.

(** ** Documents in a file

    The contents of a file and of its backup for a manager whose document is
    only read back: nothing, the start of a document, or a document. *)
Inductive saved (A : Type) := Blank | Torn | Saved (a : A).
Arguments Blank {A}.
Arguments Torn {A}.
Arguments Saved {A} a.
Record ConfigFile (A : Type) := mkConfigFile { file_main : saved A; file_bak : saved A }.
Arguments mkConfigFile {A} file_main file_bak.
Arguments file_main {A} c.
Arguments file_bak {A} c.

(** [string_to_file_not_safe]; a cut after the first byte is inside the text. *)
Definition write_saved {A} (w : written) (new old : saved A) : saved A * bool :=
  match w with
  | Whole => (new, true)
  | Refused => (old, false)
  | Cut n reported =>
      (match n, new with O, _ | _, Blank => Blank | S _, _ => Torn end, negb reported)
  end.
(** [persist] *)
Definition save {A} (ws : written * written) (a : A) (f : ConfigFile A) : ConfigFile A :=
  let (bak, ok) := write_saved ws.1 (file_main f) (file_bak f) in
  mkConfigFile (if ok then (write_saved ws.2 (Saved a) (file_main f)).1 else file_main f) bak.
(** [load] up to the decoded document; one that is cut is unwrapped. *)
Definition read_saved {A} (f : ConfigFile A) : outcome (option A) :=
  match file_main f, file_bak f with
  | Saved a, _ | Blank, Saved a => Done (Some a)
  | Torn, _ | Blank, Torn => Panic
  | Blank, Blank => Done None
  end.

Section Documents.
Context {A : Type} (print : A → string) (parse : string → option A).
Hypothesis print_nonempty : ∀ a, print a ≠ "".
Hypothesis parse_print : ∀ a, parse (print a) = Some a.
Hypothesis parse_cut : ∀ a p, cut_text p (print a) → parse p = None.

(** The text a file has. *)
Definition shows (s : saved A) (text : string) : Prop :=
  match s with
  | Blank => text = ""
  | Torn => ∃ a, cut_text text (print a)
  | Saved a => text = print a
  end.
Definition file_shows (f : ConfigFile A) (name : string) (fs : files) : Prop :=
  shows (file_main f) (file_to_string name fs) ∧
  shows (file_bak f) (file_to_string (bak_name name) fs).
(** The cut of a write falls inside the text. *)
Definition cuts (w : written) (text : string) : Prop :=
  match w with
  | Cut (S n) _ => text = "" ∨ String.substring 0 (S n) text ≠ text
  | _ => True
  end.

Lemma cut_again (p t : string) (n : nat) :
  cut_text p t → String.substring 0 (S n) p ≠ "" → cut_text (String.substring 0 (S n) p) t.
Proof using.
  intros (Hp & k & -> & Hk) Hne. split; [done |].
  assert (∀ (t : string) a b, String.substring 0 a (String.substring 0 b t) =
            String.substring 0 (min a b) t) as Hmin.
  { clear. induction t as [| c t IH]; intros [| a] [| b]; cbn; [done.. |]. by rewrite IH. }
  exists (min (S n) k). split; [apply Hmin |]. rewrite Hmin. intros E.
  assert (∀ (t : string) a b, String.substring 0 (min a b) t = t → String.substring 0 b t = t) as Hle.
  { clear. induction t as [| c t IH]; intros [| a] [| b] E; cbn in *; try done.
    injection E as E. by rewrite (IH a). }
  by apply Hk, (Hle t (S n)).
Qed.

Lemma write_shows (w : written) (new old : saved A) (text name : string) (fs : files) :
  shows new text → shows old (file_to_string name fs) → cuts w text →
  shows (write_saved w new old).1
    (file_to_string name (string_to_file_not_safe w text name fs).1) ∧
  (write_saved w new old).2 = (string_to_file_not_safe w text name fs).2.
Proof using print_nonempty.
  intros Hn Ho Hc. destruct w as [| | n r]; cbn; [| done |]; split; try done;
    unfold file_to_string in *; rewrite lookup_insert_eq; cbn; [done |].
  destruct n as [| n]; [destruct new; cbn in *; by destruct text |].
  assert (∀ c t, String.substring 0 (S n) (String c t) ≠ "") as Hs by done.
  destruct new as [| | a]; cbn in Hn |- *.
  - by rewrite Hn.
  - destruct Hn as [a Ha]. exists a. apply cut_again; [done |]. destruct text; [by destruct Ha | done].
  - subst text. destruct Hc as [Hc | Hc]; [by destruct (print_nonempty a) |].
    exists a. split; [| by exists (S n)]. pose proof (print_nonempty a). by destruct (print a).
Qed.

(** Saving a document and reading it back do to the texts of the files what
    [string_to_file] and [load] do. *)
Lemma save_shows (ws : written * written) (a : A) (f : ConfigFile A) (name : string) (fs : files) :
  file_shows f name fs → cuts ws.1 (file_to_string name fs) → cuts ws.2 (print a) →
  file_shows (save ws a f) name (string_to_file ws (print a) name fs).1.
Proof using print_nonempty.
  intros [Hm Hb] Hc1 Hc2. pose proof (bak_name_ne name) as Hne. unfold save, string_to_file.
  destruct (write_shows ws.1 _ _ _ (bak_name name) fs Hm Hb Hc1) as [H1 E1].
  destruct (write_saved ws.1 _ _) as [bak ok], (string_to_file_not_safe ws.1 _ _ fs) as [fs1 ok'] eqn:Ew.
  cbn [fst snd] in *. subst ok'.
  assert (file_to_string name fs1 = file_to_string name fs) as E.
  { destruct ws as [[| | ? ?] ?]; cbn in Ew; injection Ew as <- _; unfold file_to_string;
      [by rewrite lookup_insert_ne | done | by rewrite lookup_insert_ne]. }
  destruct ok; [| by split; cbn; rewrite ?E].
  destruct (write_shows ws.2 (Saved a) (file_main f) (print a) name fs1 eq_refl) as [H2 _];
    [by rewrite E | done |].
  split; cbn; [exact H2 |]. destruct ws as [? [| | ? ?]]; cbn; [| done |];
    unfold file_to_string in *; by rewrite lookup_insert_ne.
Qed.
Lemma read_shows (f : ConfigFile A) (name : string) (fs : files) :
  file_shows f name fs →
  read_saved f =
    (let content := file_to_string name fs in
     let content := if decide (content = "") then file_to_string (bak_name name) fs else content in
     if decide (content = "") then Done None
     else let* a := unwrap (parse content) in Done (Some a)).
Proof using print_nonempty parse_print parse_cut.
  assert (∀ a, Done (Some a) =
    if decide (print a = "") then Done None else let* a := unwrap (parse (print a)) in Done (Some a)) as Hs.
  { intros a. by rewrite decide_False, parse_print. }
  assert (∀ a p, cut_text p (print a) →
    Panic = if decide (p = "") then Done None else let* a := unwrap (parse p) in Done (Some a)) as Ht.
  { intros a p Hp. rewrite decide_False by apply Hp. by rewrite (parse_cut a). }
  intros [Hm Hb]. unfold read_saved. cbn zeta.
  destruct (decide (file_to_string name fs = "")) as [E | E], (file_main f) as [| | a]; cbn in Hm |- *.
  - destruct (file_bak f) as [| | b]; cbn in Hb |- *.
    + by rewrite Hb, decide_True.
    + destruct Hb as [a Ha]. by apply (Ht a).
    + rewrite Hb. apply Hs.
  - destruct Hm as (a & Ha & _). congruence.
  - destruct (print_nonempty a). congruence.
  - congruence.
  - destruct Hm as [a Ha]. by apply (Ht a).
  - rewrite Hm. apply Hs.
Qed.
End Documents.

(** ** The consumer offsets of the broker *)

Section OffsetFile.
(** JSON documents: [print] pretty or not, [parse]. *)
Variable print : bool → ConsumerOffsetManager → string.
Variable parse : string → option ConsumerOffsetManager.
(** The store path of the broker's configuration. *)
Variable store_path : string.

(** [get_consumer_offset_path] *)
Definition consumer_offset_path : string := (store_path +:+ "/config/consumerOffset.json")%string.

(** What [Serialize] and [Deserialize] of the wrapper keep: the tables and the
    version, not the counter of changes. *)
Definition wrapper_doc (m : ConsumerOffsetManager) : ConsumerOffsetManager :=
  mkOffsets (om_data_version m) (offset_table m) (reset_offset_table m) (pull_offset_table m) 0.

Definition offsets_decode (json : string) (m : ConsumerOffsetManager)
  : outcome ConsumerOffsetManager :=
  if decide (json = "") then Done m
  else let* w := unwrap (parse json) in Done (load_wrapper w m).

Definition offsets_config : ConfigManager ConsumerOffsetManager := {|
  config_file_path := λ _, consumer_offset_path;
  encode_pretty := λ pretty m, print pretty (wrapper_doc m);
  config_decode := offsets_decode;
|}.

(** [serde_json]: a printed document parses back, is not empty, and its text
    cut before the last brace does not parse. *)
Hypothesis print_nonempty : ∀ b d, print b d ≠ "".
Hypothesis parse_print : ∀ b d, parse (print b d) = Some d.
Hypothesis parse_cut : ∀ b d p, cut_text p (print b d) → parse p = None.

Definition offsets_restored (init m : ConsumerOffsetManager) : ConsumerOffsetManager :=
  load_wrapper (wrapper_doc m) init.

Lemma offsets_laws :
  @ConfigLaws ConsumerOffsetManager offsets_config offsets_restored.
Proof using print_nonempty parse_print parse_cut.
  split.
  - intros b s. apply print_nonempty.
  - intros b s init. cbn. unfold offsets_decode. rewrite decide_False by apply print_nonempty.
    by rewrite parse_print.
  - intros b s p init Hc. cbn. unfold offsets_decode. rewrite decide_False by apply Hc.
    by rewrite (parse_cut b (wrapper_doc s)).
Qed.
End OffsetFile.

(** C32: The broker has persisted its consumer offsets and persists a later state,
    both with some offset; at most one of the writes of the backup and of the
    file goes wrong, refused or cut at any byte, or the program stops in one of
    them.  A broker that starts afterwards either answers every query, of a
    queue with no reset pending, with the offset of the state saved before or
    of the later one, the pull offsets and the pending resets, which are
    written too, being lost; or the file was cut inside the later document,
    and then the start panics, with the earlier offsets in the backup unread. *)
Theorem consumer_offsets_durable (print : bool → ConsumerOffsetManager → string)
    (parse : string → option ConsumerOffsetManager) (store_path : string) (dv : DataVersion)
    (cfg : OffsetConfig) (m1 m2 : ConsumerOffsetManager) (ws : written * written) (fs : files) :
  (∀ b d, print b d ≠ "") → (∀ b d, parse (print b d) = Some d) →
  (∀ b d p, cut_text p (print b d) → parse p = None) →
  offset_table m1 ≠ ∅ → offset_table m2 ≠ ∅ → ws.1 = Whole ∨ ws.2 = Whole →
  let config := offsets_config print parse store_path in
  let fs1 := @persist _ config whole m1 fs in
  let fs2 := @persist _ config ws m2 fs1 in
  let answers m m' := ∀ g t q,
    use_server_side_reset_offset cfg = false ∨ reset_offset_table m' !! topic_at_group t g = None →
    query_offset cfg g t q m = query_offset cfg g t q m' in
  (∃ m, @load _ config fs2 (new_offsets dv) = Done (m, true) ∧ (answers m m1 ∨ answers m m2) ∧
     pull_offset_table m = ∅ ∧ reset_offset_table m = ∅) ∨
  (@load _ config fs2 (new_offsets dv) = Panic ∧
   cut_text (file_to_string (consumer_offset_path store_path) fs2) (print true (wrapper_doc m2)) ∧
   file_to_string (bak_name (consumer_offset_path store_path)) fs2 = print true (wrapper_doc m1)).
Proof.
  intros Hne Hpp Hcut H1 H2 Hw config fs1 fs2 answers.
  pose proof (offsets_laws print parse store_path Hne Hpp Hcut) as Hlaws.
  assert (Hq : ∀ m', offset_table m' ≠ ∅ →
    answers (offsets_restored (new_offsets dv) m') m' ∧
    pull_offset_table (offsets_restored (new_offsets dv) m') = ∅ ∧
    reset_offset_table (offsets_restored (new_offsets dv) m') = ∅).
  { intros m' Hm'. unfold offsets_restored, load_wrapper, wrapper_doc. cbn.
    rewrite bool_decide_false by done. split_and!; [| done | done].
    intros g t q Hr. unfold query_offset. cbn. rewrite lookup_empty, map_union_empty.
    destruct Hr as [-> | ->]; by case_match. }
  pose proof (@persist_saved _ config offsets_restored Hlaws m1 fs) as Hs.
  destruct (@persist_loads _ config offsets_restored Hlaws ws m1 m2 (new_offsets dv) fs1 eq_refl Hs Hw)
    as [Hl | [Hl | [[Hc Hl] Hb]]].
  - left. destruct (Hq m1 H1) as (Ha & Hb & Hc). eauto 6.
  - left. destruct (Hq m2 H2) as (Ha & Hb & Hc). eauto 6.
  - right. split_and!; done.
Qed.

(** ** The KV configuration of the name server ([kvconfig_mananger.rs]) *)

Abbreviation kv_table := (gmap string (gmap string string)).

Section KV.
(** JSON documents of the wrapper, whose table is optional, and the encoding
    of one namespace. *)
Variable print : option kv_table → string.
Variable parse : string → option (option kv_table).
Variable encode_kv : gmap string string → buffer.
Variable kv_config_path : string.
(** How the writes of each operation end. *)
Variable ws : written * written.

(** The table and the disk. *)
Record KVConfigManager := mkKV { config_table : kv_table; kv_files : files }.

(** [load]: an unreadable document is unwrapped. *)
Definition kv_load (m : KVConfigManager) : outcome KVConfigManager :=
  let* wrapper := unwrap (parse (file_to_string kv_config_path (kv_files m))) in
  match wrapper with
  | Some t => Done (mkKV (t ∪ config_table m) (kv_files m))
  | None => Done m
  end.

(** An error is logged. *)
Definition kv_persist (m : KVConfigManager) : KVConfigManager :=
  mkKV (config_table m)
    (string_to_file ws (print (Some (config_table m))) kv_config_path (kv_files m)).1.

Definition put_kv_config (namespace key value : string) (m : KVConfigManager) : KVConfigManager :=
  kv_persist (mkKV (<[namespace := <[key := value]> (default ∅ (config_table m !! namespace))]>
                      (config_table m)) (kv_files m)).
Definition delete_kv_config (namespace key : string) (m : KVConfigManager) : KVConfigManager :=
  match config_table m !! namespace with
  | None => m
  | Some t => kv_persist (mkKV (<[namespace := delete key t]> (config_table m)) (kv_files m))
  end.
Definition get_kvconfig (namespace key : string) (m : KVConfigManager) : option string :=
  config_table m !! namespace ≫= (.!! key).
Definition get_kv_list_by_namespace (namespace : string) (m : KVConfigManager) : option buffer :=
  encode_kv <$> config_table m !! namespace.

Inductive kv_op := PutKv (namespace key value : string) | DeleteKv (namespace key : string).
Definition kv_step (o : kv_op) (m : KVConfigManager) : KVConfigManager :=
  match o with PutKv n k v => put_kv_config n k v m | DeleteKv n k => delete_kv_config n k m end.
Definition kv_run (os : list kv_op) (m : KVConfigManager) : KVConfigManager :=
  foldl (λ m o, kv_step o m) m os.

(** The abstract store: one value per namespace and key. *)
Definition kv_spec (o : kv_op) (f : string → string → option string)
  : string → string → option string :=
  match o with
  | PutKv n k v => λ n' k', if decide (n' = n ∧ k' = k) then Some v else f n' k'
  | DeleteKv n k => λ n' k', if decide (n' = n ∧ k' = k) then None else f n' k'
  end.

End KV.

Lemma kv_step_spec (print : option kv_table → string) (path : string) (ws : written * written)
    (o : kv_op) (m : KVConfigManager) (n k : string) :
  get_kvconfig n k (kv_step print path ws o m) = kv_spec o (λ n k, get_kvconfig n k m) n k.
Proof.
  unfold get_kvconfig. destruct o as [n0 k0 v0 | n0 k0]; cbn.
  - destruct (decide (n = n0)) as [-> | Hn].
    + rewrite lookup_insert_eq. cbn. destruct (decide (k = k0)) as [-> | Hk].
      * by rewrite lookup_insert_eq, decide_True.
      * rewrite lookup_insert_ne, decide_False by (done || tauto).
        by destruct (config_table m !! n0).
    + rewrite lookup_insert_ne, decide_False by (done || tauto). done.
  - unfold delete_kv_config. destruct (config_table m !! n0) as [t |] eqn:E; cbn.
    + destruct (decide (n = n0)) as [-> | Hn].
      * rewrite lookup_insert_eq, E. cbn. destruct (decide (k = k0)) as [-> | Hk].
        -- by rewrite lookup_delete_eq, decide_True.
        -- by rewrite lookup_delete_ne, decide_False by (done || tauto).
      * by rewrite lookup_insert_ne, decide_False by (done || tauto).
    + case_decide as H; [destruct H as [-> _]; by rewrite E | done].
Qed.

Lemma kv_step_saved (print : option kv_table → string) (path : string) (o : kv_op)
    (m : KVConfigManager) :
  file_to_string path (kv_files m) = print (Some (config_table m)) →
  file_to_string path (kv_files (kv_step print path whole o m)) =
  print (Some (config_table (kv_step print path whole o m))).
Proof.
  intros H. destruct o as [n k v | n k]; cbn; unfold delete_kv_config, kv_persist, string_to_file,
    file_to_string in *.
  - cbn. by rewrite lookup_insert_eq.
  - destruct (config_table m !! n); cbn; [by rewrite lookup_insert_eq | done].
Qed.

(** The KV store keeps the last value put under every namespace and key until
    it is deleted, and a name server that loads the file left behind by any
    sequence of operations (at least one of them persisted, all writes
    whole) has the same
    values. *)
Theorem kv_config_durable (print : option kv_table → string)
    (parse : string → option (option kv_table)) (path n0 k0 v0 : string) (os : list kv_op)
    (fs : files) :
  (∀ d, parse (print d) = Some d) →
  let m := kv_run print path whole (PutKv n0 k0 v0 :: os) (mkKV ∅ fs) in
  (∀ n k, get_kvconfig n k m = foldl (λ f o, kv_spec o f) (λ _ _, None) (PutKv n0 k0 v0 :: os) n k) ∧
  ∃ m', kv_load parse path (mkKV ∅ (kv_files m)) = Done m' ∧
    ∀ n k, get_kvconfig n k m' = get_kvconfig n k m.
Proof.
  intros Hpp m. split.
  - assert (Hgen : ∀ os f m0, (∀ n k, get_kvconfig n k m0 = f n k) → ∀ n k,
      get_kvconfig n k (kv_run print path whole os m0) = foldl (λ f o, kv_spec o f) f os n k).
    { clear. induction os as [| o os IH]; intros f m0 Hf n k; [apply Hf |]. cbn. apply IH.
      clear n k. intros n k. rewrite kv_step_spec. unfold kv_spec.
      destruct o; case_decide; done. }
    apply Hgen. intros n k. unfold get_kvconfig. cbn. by rewrite lookup_empty.
  - assert (Hs : file_to_string path (kv_files m) = print (Some (config_table m))).
    { unfold m, kv_run. cbn [foldl kv_step]. set (m1 := put_kv_config _ _ _ _ _ _ _).
      assert (H1 : file_to_string path (kv_files m1) = print (Some (config_table m1))).
      { unfold m1, put_kv_config, kv_persist, string_to_file, file_to_string. cbn.
        by rewrite lookup_insert_eq. }
      clearbody m1. revert m1 H1. clear. induction os as [| o os IH]; intros m1 H1; [done |].
      cbn. apply IH. by apply kv_step_saved. }
    unfold kv_load. cbn [kv_files]. rewrite Hs, Hpp. cbn [unwrap obind]. eexists. split; [done |].
    intros n k. unfold get_kvconfig. cbn [config_table]. by rewrite map_union_empty.
Qed.

(** Loading without a file: the empty text is no document, and the load
    panics instead of starting with an empty table. *)
Lemma kv_load_missing_file (parse : string → option (option kv_table)) (path : string)
    (fs : files) :
  parse "" = None → fs !! path = None → kv_load parse path (mkKV ∅ fs) = Panic.
Proof. intros Hp Hf. unfold kv_load, file_to_string. cbn [kv_files]. rewrite Hf. cbn. by rewrite Hp. Qed.

(** ** A printer for the witnesses *)

(** Any countable document as a text of bits between braces. *)
Fixpoint bits_of (p : positive) : string :=
  match p with
  | xH => "}"
  | xO p' => String "0"%char (bits_of p')
  | xI p' => String "1"%char (bits_of p')
  end.
Fixpoint of_bits (s : string) : option positive :=
  match s with
  | EmptyString => None
  | String c s' =>
      if Ascii.eqb c "}"%char then if decide (s' = "") then Some xH else None
      else if Ascii.eqb c "0"%char then xO <$> of_bits s' else xI <$> of_bits s'
  end.
Lemma of_bits_of (p : positive) : of_bits (bits_of p) = Some p.
Proof. induction p as [p IH | p IH |]; cbn; by rewrite ?IH. Qed.
Lemma of_cut_bits (p : positive) (n : nat) :
  String.substring 0 n (bits_of p) ≠ bits_of p → of_bits (String.substring 0 n (bits_of p)) = None.
Proof.
  revert n. induction p as [p IH | p IH |]; intros [| n] Hn; try done; cbn in *.
  - rewrite IH; [done |]. congruence.
  - rewrite IH; [done |]. congruence.
  - by destruct n.
Qed.

Definition toy_print {A} `{Countable A} (a : A) : string := String "{"%char (bits_of (encode a)).
Definition toy_parse {A} `{Countable A} (s : string) : option A :=
  match s with String _ s' => p ← of_bits s'; decode p | EmptyString => None end.
Lemma toy_parse_print {A} `{Countable A} (a : A) : toy_parse (toy_print a) = Some a.
Proof. unfold toy_parse, toy_print. rewrite of_bits_of. apply countable.decode_encode. Qed.
Lemma toy_parse_cut {A} `{Countable A} (a : A) (p : string) :
  cut_text p (toy_print a) → toy_parse (A := A) p = None.
Proof.
  unfold toy_parse, toy_print. intros (Hne & [| n] & -> & Hn); [done |]. cbn in *.
  rewrite of_cut_bits; [done |]. congruence.
Qed.

#[export] Instance DataVersion_countable : Countable DataVersion.
Proof.
  refine (inj_countable' (λ d, (state_version d, dv_timestamp d, counter d))
            (λ '(a, b, c), mkDataVersion a b c) _). by intros [].
Defined.
#[export] Instance ConsumerOffsetManager_eq_dec : EqDecision ConsumerOffsetManager.
Proof. solve_decision. Defined.
#[export] Instance ConsumerOffsetManager_countable : Countable ConsumerOffsetManager.
Proof.
  refine (inj_countable' (λ m, (om_data_version m, offset_table m, reset_offset_table m,
                                pull_offset_table m, version_change_counter m))
            (λ '(a, b, c, d, e), mkOffsets a b c d e) _). by intros [].
Defined.

(** The later document is cut after its first byte. *)
Lemma consumer_offsets_durable_witness :
  let dv := mkDataVersion 0 0 0 in
  let m1 := mkOffsets dv {[ "t@g" := {[ 0 := 5 ]} ]} ∅ ∅ 1 in
  let m2 := mkOffsets dv {[ "t@g" := {[ 0 := 9 ]} ]} ∅ ∅ 2 in
  let config := offsets_config (λ _, toy_print) toy_parse "/store" in
  let fs1 := @persist _ config whole m1 ∅ in
  @load _ config (@persist _ config (Whole, Cut 1 true) m2 fs1) (new_offsets dv) = Panic ∧
  ∃ m, @load _ config (@persist _ config (Whole, Cut 0 false) m2 fs1) (new_offsets dv) = Done (m, true) ∧
    query_offset (mkOffsetConfig true 1) "g" "t" 0 m = 5.
Proof.
  intros dv m1 m2 config fs1.
  pose proof (λ ws, consumer_offsets_durable (λ _, toy_print) toy_parse "/store" dv
    (mkOffsetConfig true 1) m1 m2 ws ∅ ltac:(done) (λ _, toy_parse_print) (λ _, toy_parse_cut)
    (map_non_empty_singleton _ _) (map_non_empty_singleton _ _)) as H.
  split.
  - destruct (H (Whole, Cut 1 true) (or_introl eq_refl)) as [(m & Hm & _) | [Hm _]]; [| exact Hm].
    exfalso. vm_compute in Hm. discriminate Hm.
  - destruct (H (Whole, Cut 0 false) (or_introl eq_refl)) as [(m & Hm & Ha & _) | [Hm _]].
    + exists m. split; [exact Hm |]. destruct Ha as [Ha | Ha].
      * rewrite (Ha "g" "t" 0 (or_intror eq_refl)). reflexivity.
      * exfalso. pose proof (Ha "g" "t" 0 (or_intror eq_refl)) as E. vm_compute in Hm.
        injection Hm as <-. vm_compute in E. discriminate E.
    + exfalso. vm_compute in Hm. discriminate Hm.
Defined.

Lemma kv_config_durable_witness :
  let m := kv_run toy_print "/kv.json" whole [PutKv "n" "k" "v"; PutKv "n" "j" "w"; DeleteKv "n" "k"]
             (mkKV ∅ ∅) in
  (∀ n k, get_kvconfig n k m =
     foldl (λ f o, kv_spec o f) (λ _ _, None)
       [PutKv "n" "k" "v"; PutKv "n" "j" "w"; DeleteKv "n" "k"] n k) ∧
  ∃ m', kv_load toy_parse "/kv.json" (mkKV ∅ (kv_files m)) = Done m' ∧
    ∀ n k, get_kvconfig n k m' = get_kvconfig n k m.
Proof.
  apply (kv_config_durable toy_print toy_parse "/kv.json" "n" "k" "v"
           [PutKv "n" "j" "w"; DeleteKv "n" "k"] ∅).
  intros d. apply toy_parse_print.
Defined.
