(* ===== verification/PublishInfo.v ===== *)
(** * PublishInfo: how a producer chooses a queue

    [topic_publish_info.rs] goes round the queues of a topic with a thread's
    index ([thread_local_index.rs]); [mq_fault_strategy.rs] filters out the
    broker that just failed and the brokers that [latency_fault_tolerance_impl.rs]
    has isolated.  Random numbers, the clock and the resolver and detector of
    brokers are arguments; what the filters read does not change while one
    queue is chosen. *)

From stdpp Require Import base gmap list strings.
From Stdlib Require Import ZArith Lia.
From S2P Require Import Prelude Bytes Rebalance.
Open Scope Z_scope.
Open Scope rmq_scope.

(** ** The index of a thread *)

Definition POSITIVE_MASK : Z := 0x7FFFFFFF.

(** [random] is a number from 0 to [i32::MAX]. *)
Definition increment_and_get (random : Z) (index : option Z) : Z :=
  match index with
  | Some val => Z.land (as_i32 (val + 1)) POSITIVE_MASK
  | None => Z.land random POSITIVE_MASK
  end.
Definition reset_thread_index (random : Z) : Z := Z.abs random.

(** ** Choosing among the queues *)

Section Select.
Variable random : Z.

(** The rounds of the loop: the index after them and the queue found. *)
Fixpoint select_loop (n : nat) (queues : list MessageQueue) (filters : list (MessageQueue → bool))
    (index : option Z) : outcome (option Z * option MessageQueue) :=
  match n with
  | O => Done (index, None)
  | S n' =>
      let v := increment_and_get random index in
      let* mq := unwrap (queues !! Z.to_nat (as_usize v `mod` Z.of_nat (length queues))) in
      if forallb (λ f, f mq) filters then Done (Some v, Some mq)
      else select_loop n' queues filters (Some v)
  end.

Definition select_one_message_queue_with_filters_inner (queues : list MessageQueue)
    (filters : list (MessageQueue → bool)) (index : option Z)
  : outcome (option Z * option MessageQueue) :=
  match queues with
  | [] => Done (index, None)
  | _ =>
      match filters with
      | [] =>
          let v := increment_and_get random index in
          let* mq := unwrap (queues !! Z.to_nat (as_usize v `mod` Z.of_nat (length queues))) in
          Done (Some v, Some mq)
      | _ => select_loop (length queues) queues filters index
      end
  end.
Definition select_one_message_queue_filters (queues : list MessageQueue)
    (filters : list (MessageQueue → bool)) (index : option Z)
  : outcome (option Z * option MessageQueue) :=
  select_one_message_queue_with_filters_inner queues filters index.

Definition select_one_message_queue_by_broker (queues : list MessageQueue)
    (last_broker_name : option string) (index : option Z)
  : outcome (option Z * option MessageQueue) :=
  match last_broker_name with
  | Some b =>
      match filter (λ mq, mq_broker_name mq ≠ b) queues with
      | mq :: _ => Done (index, Some mq)
      | [] => select_one_message_queue_filters queues [] index
      end
  | None => select_one_message_queue_filters queues [] index
  end.

(** Without queues the remainder by their number panics. *)
Definition select_one_message_queue (queues : list MessageQueue) (index : option Z)
  : outcome (option Z * option MessageQueue) :=
  let v := increment_and_get random index in
  match queues with
  | [] => Panic
  | _ => Done (Some v, queues !! Z.to_nat (as_usize v `mod` Z.of_nat (length queues)))
  end.

End Select.

(** ** Faults *)

Record FaultItem := mkFault {
  current_latency : Z;
  start_timestamp : Z;
  check_stamp : Z;
  reachable_flag : bool;
}.
Abbreviation fault_table := (gmap string FaultItem).

Definition new_fault_item : FaultItem := mkFault 0 0 0 true.
Definition update_not_available_duration (now duration : Z) (f : FaultItem) : FaultItem :=
  if (0 <? duration) && (start_timestamp f <? as_u64 (now + duration))
  then mkFault (current_latency f) (as_u64 (now + duration)) (check_stamp f) (reachable_flag f)
  else f.
Definition item_available (now : Z) (f : FaultItem) : bool := start_timestamp f <=? now.

Definition update_fault_item (now : Z) (name : string) (latency duration : Z) (reachable : bool)
    (t : fault_table) : fault_table :=
  let f := default new_fault_item (t !! name) in
  let f := mkFault latency (start_timestamp f) (check_stamp f) (reachable_flag f) in
  let f := update_not_available_duration now duration f in
  <[name := mkFault (current_latency f) (start_timestamp f) (check_stamp f) reachable]> t.
Definition is_available (now : Z) (name : string) (t : fault_table) : bool :=
  match t !! name with Some f => item_available now f | None => true end.
Definition is_reachable (name : string) (t : fault_table) : bool :=
  match t !! name with Some f => reachable_flag f | None => true end.
Definition remove_fault (name : string) (t : fault_table) : fault_table := delete name t.

(** [pick_one_at_least]: [order] is the shuffled table. *)
Fixpoint pick_one_at_least (order : list (string * FaultItem)) : option string :=
  match order with
  | [] => None
  | (name, f) :: order' => if reachable_flag f then Some name else pick_one_at_least order'
  end.

(** [detect_by_one_round]: what becomes of one item. *)
Definition detect_item (now detect_interval : Z) (resolve : string → option string)
    (detect : option (string → bool)) (name : string) (f : FaultItem) : option FaultItem :=
  if as_i64 (as_i64 now - as_i64 (check_stamp f)) <? 0 then Some f
  else
    let f := mkFault (current_latency f) (start_timestamp f) (as_u64 (now + detect_interval))
               (reachable_flag f) in
    match resolve name with
    | None => None
    | Some addr =>
        match detect with
        | None => Some f
        | Some service =>
            if service addr && reachable_flag f
            then Some (mkFault (current_latency f) (start_timestamp f) (check_stamp f) true)
            else Some f
        end
    end.
Definition detect_by_one_round (now detect_interval : Z) (resolve : string → option string)
    (detect : option (string → bool)) (t : fault_table) : fault_table :=
  map_imap (detect_item now detect_interval resolve detect) t.

(** ** The strategy *)

Definition latency_max : list Z := [50; 100; 550; 1800; 3000; 5000; 15000].
Definition not_available_duration : list Z := [0; 0; 2000; 5000; 6000; 10000; 30000].

Fixpoint compute_from (n : nat) (latency : Z) : Z :=
  match n with
  | O => 0
  | S i =>
      if default 0 (latency_max !! i) <=? latency then default 0 (not_available_duration !! i)
      else compute_from i latency
  end.
Definition compute_not_available_duration (latency : Z) : Z :=
  compute_from (length latency_max) latency.

Definition strategy_update (enabled : bool) (now : Z) (broker_name : string) (latency : Z)
    (isolation reachable : bool) (t : fault_table) : fault_table :=
  if enabled then
    let duration := compute_not_available_duration (if isolation then 10000 else latency) in
    update_fault_item now broker_name latency duration reachable t
  else t.

Definition broker_filter (last_broker_name : option string) (mq : MessageQueue) : bool :=
  match last_broker_name with
  | Some b => bool_decide (mq_broker_name mq ≠ b)
  | None => true
  end.

(** Goes on when nothing was found. *)
Definition or_else (r : outcome (option Z * option MessageQueue))
    (k : option Z → outcome (option Z * option MessageQueue))
  : outcome (option Z * option MessageQueue) :=
  let* (index, mq) := r in
  match mq with Some mq => Done (index, Some mq) | None => k index end.

Definition strategy_select (random : Z) (enabled : bool) (now : Z) (t : fault_table)
    (queues : list MessageQueue) (last_broker_name : option string) (reset_index : bool)
    (index : option Z) : outcome (option Z * option MessageQueue) :=
  let available := λ mq, is_available now (mq_broker_name mq) t in
  let reachable := λ mq, is_reachable (mq_broker_name mq) t in
  let select filters index :=
    select_one_message_queue_filters random queues filters index in
  if enabled then
    let index := if reset_index then Some (reset_thread_index random) else index in
    or_else (select [available; broker_filter last_broker_name] index) (λ index,
    or_else (select [reachable; broker_filter last_broker_name] index) (λ index,
    select [] index))
  else
    or_else (select [broker_filter last_broker_name] index) (λ index, select [] index).

(** ** Theorems *)

(** The position the index of [v] points to among [n] queues. *)
Definition position (n : nat) (v : Z) : nat := Z.to_nat (v mod Z.of_nat n).

Lemma mask_id (v : Z) : 0 ≤ v < 2 ^ 31 → Z.land (as_i32 v) POSITIVE_MASK = v.
Proof.
  intros Hv. rewrite as_i32_id by in_range. change POSITIVE_MASK with (Z.ones 31).
  rewrite Z.land_ones by lia. by apply Z.mod_small.
Qed.

Lemma increment_next (random v : Z) :
  0 ≤ v → v + 1 < 2 ^ 31 → increment_and_get random (Some v) = v + 1.
Proof. intros H0 H1. apply mask_id. lia. Qed.

Lemma increment_range (random : Z) (index : option Z) :
  0 ≤ increment_and_get random index < 2 ^ 31.
Proof.
  unfold increment_and_get. change POSITIVE_MASK with (Z.ones 31).
  destruct index; rewrite Z.land_ones by lia; apply Z.mod_pos_bound; lia.
Qed.

Lemma position_lookup (queues : list MessageQueue) (v : Z) :
  queues ≠ [] → 0 ≤ v < 2 ^ 31 →
  ∃ mq, queues !! Z.to_nat (as_usize v `mod` Z.of_nat (length queues)) = Some mq ∧
        queues !! position (length queues) v = Some mq.
Proof.
  intros Hne Hv. assert (0 < Z.of_nat (length queues)) by (destruct queues; [done | cbn; lia]).
  rewrite as_usize_id by in_range. fold (position (length queues) v).
  destruct (lookup_lt_is_Some_2 queues (position (length queues) v)) as [mq Hmq]; [| eauto].
  unfold position. pose proof (Z.mod_pos_bound v (Z.of_nat (length queues))). lia.
Qed.

(** The loop from [v] on looks at the positions of [v+1], [v+2], ... in turn
    and returns the first queue that passes. *)
Lemma select_loop_spec (random v : Z) (queues : list MessageQueue)
    (filters : list (MessageQueue → bool)) (n : nat) :
  queues ≠ [] → 0 ≤ v → v + Z.of_nat n < 2 ^ 31 →
  ∃ index r, select_loop random n queues filters (Some v) = Done (index, r) ∧
    (∀ mq, r = Some mq → mq ∈ queues ∧ forallb (λ f, f mq) filters = true) ∧
    (r = None → index = Some (v + Z.of_nat n) ∧
       ∀ j mq, 1 ≤ j ≤ Z.of_nat n → queues !! position (length queues) (v + j) = Some mq →
         forallb (λ f, f mq) filters = false).
Proof.
  intros Hne. revert v. induction n as [| n IH]; intros v H0 H1; cbn [select_loop].
  - eexists _, _. split; [done |]. split; [done |]. intros _. split; [f_equal; lia | lia].
  - rewrite increment_next by lia.
    destruct (position_lookup queues (v + 1) Hne) as (mq & -> & Hmq); [lia |].
    cbn [unwrap obind]. destruct (forallb (λ f, f mq) filters) eqn:E.
    + eexists _, _. split; [done |]. split; [| done]. intros mq' [= <-].
      split; [by eapply list_elem_of_lookup_2 | done].
    + destruct (IH (v + 1)) as (index & r & Hrun & Hsome & Hnone); [lia | lia |].
      rewrite Hrun. exists index, r. split; [done |]. split; [done |]. intros Hr.
      destruct (Hnone Hr) as [Hi Hall]. split; [rewrite Hi; f_equal; lia |].
      intros j mq' Hj Hmq'. destruct (decide (j = 1)) as [-> | Hj1]; [by simplify_eq |].
      apply (Hall (j - 1) mq'); [lia |]. by replace (v + 1 + (j - 1)) with (v + j) by lia.
Qed.

(** A full round meets every position. *)
Lemma round_covers (n k : nat) (v : Z) :
  (k < n)%nat → 0 ≤ v → ∃ j, 1 ≤ j ≤ Z.of_nat n ∧ position n (v + j) = k.
Proof.
  intros Hk Hv. set (d := (Z.of_nat k - (v + 1)) mod Z.of_nat n).
  pose proof (Z.mod_pos_bound (Z.of_nat k - (v + 1)) (Z.of_nat n) ltac:(lia)) as Hd.
  exists (d + 1). split; [unfold d; lia |]. unfold position.
  replace (v + (d + 1)) with ((v + 1) + d) by lia. unfold d. rewrite Zplus_mod_idemp_r.
  replace (v + 1 + (Z.of_nat k - (v + 1))) with (Z.of_nat k) by lia.
  rewrite Z.mod_small by lia. lia.
Qed.

Lemma filters_complete (random v : Z) (queues : list MessageQueue)
    (filters : list (MessageQueue → bool)) :
  queues ≠ [] → filters ≠ [] → 0 ≤ v → v + Z.of_nat (length queues) < 2 ^ 31 →
  ∃ index r, select_one_message_queue_filters random queues filters (Some v) = Done (index, r) ∧
    (∀ mq, r = Some mq → mq ∈ queues ∧ forallb (λ f, f mq) filters = true) ∧
    (is_Some r ↔ ∃ mq, mq ∈ queues ∧ forallb (λ f, f mq) filters = true).
Proof.
  intros Hq Hf H0 H1.
  destruct (select_loop_spec random v queues filters (length queues) Hq H0 H1)
    as (index & r & Hrun & Hsome & Hnone).
  exists index, r. split.
  { unfold select_one_message_queue_filters, select_one_message_queue_with_filters_inner.
    destruct queues; [done |]. destruct filters; [done |]. exact Hrun. }
  split; [done |]. split.
  - intros [mq ->]. exists mq. by apply Hsome.
  - intros (mq & Hin & Hpass). destruct r as [mq' |]; [done |]. exfalso.
    destruct (Hnone eq_refl) as [_ Hall]. apply list_elem_of_lookup_1 in Hin as [k Hk].
    destruct (round_covers (length queues) k v) as (j & Hj & Hpos);
      [by eapply lookup_lt_Some | done |].
    rewrite (Hall j mq Hj) in Hpass; [done |]. by rewrite Hpos.
Qed.

(** Going round the queues finds one that passes the filters exactly when
    there is one, as long as the index does not wrap in the round. *)
Theorem filtered_select_complete (random v : Z) (queues : list MessageQueue)
    (filters : list (MessageQueue → bool)) :
  queues ≠ [] → filters ≠ [] → 0 ≤ v → v + Z.of_nat (length queues) < 2 ^ 31 →
  ∃ index r, select_one_message_queue_filters random queues filters (Some v) = Done (index, r) ∧
    (∀ mq, r = Some mq → mq ∈ queues ∧ forallb (λ f, f mq) filters = true) ∧
    (is_Some r ↔ ∃ mq, mq ∈ queues ∧ forallb (λ f, f mq) filters = true).
Proof. apply filters_complete. Qed.

Definition mq_of (b : string) (i : Z) : MessageQueue := mkMQ "t" b i.

Lemma filtered_select_complete_witness :
  let queues := [mq_of "a" 0; mq_of "a" 1; mq_of "b" 0] in
  ∃ index r, select_one_message_queue_filters 0 queues [broker_filter (Some "a")] (Some 4) =
      Done (index, r) ∧
    (∀ mq, r = Some mq → mq ∈ queues ∧
       forallb (λ f, f mq) [broker_filter (Some "a")] = true) ∧
    (is_Some r ↔ ∃ mq, mq ∈ queues ∧ forallb (λ f, f mq) [broker_filter (Some "a")] = true).
Proof. apply filtered_select_complete; [done | done | lia | cbn; lia]. Defined.

(** At the wrap of the index a round can miss a queue: here only the third
    queue passes, and it is not found. *)
Theorem filtered_select_wraps :
  select_one_message_queue_filters 0 [mq_of "a" 0; mq_of "a" 1; mq_of "b" 0]
    [broker_filter (Some "a")] (Some (2 ^ 31 - 2)) = Done (Some 1, None).
Proof. vm_compute. reflexivity. Qed.

(** The strategy always gives one of the topic's queues. *)
Lemma select_any (random : Z) (queues : list MessageQueue) (index : option Z) :
  queues ≠ [] →
  ∃ i mq, select_one_message_queue_filters random queues [] index = Done (i, Some mq) ∧ mq ∈ queues.
Proof.
  intros Hq. unfold select_one_message_queue_filters, select_one_message_queue_with_filters_inner.
  destruct queues as [| q0 qs] eqn:E; [done |]. rewrite <- E in *.
  destruct (position_lookup queues (increment_and_get random index) Hq (increment_range _ _))
    as (mq & -> & Hmq). cbn. eexists _, mq. split; [done |]. by eapply list_elem_of_lookup_2.
Qed.

Lemma select_loop_total (random : Z) (queues : list MessageQueue)
    (filters : list (MessageQueue → bool)) (n : nat) (index : option Z) :
  queues ≠ [] →
  ∃ i r, select_loop random n queues filters index = Done (i, r) ∧
    (∀ mq, r = Some mq → mq ∈ queues ∧ forallb (λ f, f mq) filters = true).
Proof.
  intros Hq. revert index. induction n as [| n IH]; intros index; cbn [select_loop].
  - eexists _, _. split; [done |]. done.
  - destruct (position_lookup queues (increment_and_get random index) Hq (increment_range _ _))
      as (mq & -> & Hmq). cbn [unwrap obind]. destruct (forallb _ filters) eqn:E; [| apply IH].
    eexists _, _. split; [done |]. intros mq' [= <-].
    split; [by eapply list_elem_of_lookup_2 | done].
Qed.

Lemma select_total (random : Z) (queues : list MessageQueue)
    (filters : list (MessageQueue → bool)) (index : option Z) :
  queues ≠ [] → filters ≠ [] →
  ∃ i r, select_one_message_queue_filters random queues filters index = Done (i, r) ∧
    (∀ mq, r = Some mq → mq ∈ queues ∧ forallb (λ f, f mq) filters = true).
Proof.
  intros Hq Hf. destruct (select_loop_total random queues filters (length queues) index Hq)
    as (i & r & Hrun & Hr).
  exists i, r. split; [| done].
  unfold select_one_message_queue_filters, select_one_message_queue_with_filters_inner.
  destruct queues; [done |]. destruct filters; [done |]. exact Hrun.
Qed.

(** A first choice [r], which takes a queue with [good] when there is one, and a
    fallback that takes any. *)
Lemma or_else_selects (queues : list MessageQueue) (good : MessageQueue → Prop) (i : option Z)
    (r : option MessageQueue) (k : option Z → outcome (option Z * option MessageQueue)) :
  (∀ mq, r = Some mq → mq ∈ queues ∧ good mq) → ((∃ q, q ∈ queues ∧ good q) → is_Some r) →
  (∀ index, ∃ j mq, k index = Done (j, Some mq) ∧ mq ∈ queues) →
  ∃ j mq, or_else (Done (i, r)) k = Done (j, Some mq) ∧ mq ∈ queues ∧
    ((∃ q, q ∈ queues ∧ good q) → good mq).
Proof.
  intros Hs Hc Hk. unfold or_else. cbn [obind]. destruct r as [mq |].
  - destruct (Hs mq eq_refl). eauto 6.
  - destruct (Hk i) as (j & mq & -> & Hin). exists j, mq. split_and!; try done.
    intros Hex. by destruct (Hc Hex).
Qed.

(** Whatever brokers are isolated and wherever the thread's index stands, a
    producer with a topic that has queues gets one of them; and the broker
    that just failed is avoided whenever another broker is available, as long
    as the index does not wrap in the round. *)
Theorem strategy_selects (random now : Z) (enabled : bool) (t : fault_table)
    (queues : list MessageQueue) (failed : string) (reset : bool) (v : Z) :
  queues ≠ [] → 0 ≤ random < 2 ^ 30 → 0 ≤ v < 2 ^ 30 → Z.of_nat (length queues) < 2 ^ 30 →
  ∃ i mq, strategy_select random enabled now t queues (Some failed) reset (Some v) =
            Done (i, Some mq) ∧ mq ∈ queues ∧
    ((∃ q, q ∈ queues ∧ mq_broker_name q ≠ failed ∧
           (enabled = true → is_available now (mq_broker_name q) t = true)) →
     mq_broker_name mq ≠ failed ∧
     (enabled = true → is_available now (mq_broker_name mq) t = true)).
Proof.
  intros Hq Hr Hv Hlen. unfold strategy_select.
  set (avail := λ mq, is_available now (mq_broker_name mq) t).
  set (reach := λ mq, is_reachable (mq_broker_name mq) t).
  destruct enabled.
  - assert (Hv' : ∃ w, (if reset then Some (reset_thread_index random) else Some v) = Some w ∧
                       0 ≤ w < 2 ^ 30).
    { unfold reset_thread_index. destruct reset; [exists (Z.abs random) | exists v];
        (split; [done | lia]). }
    destruct Hv' as (w & -> & Hw).
    destruct (filters_complete random w queues [avail; broker_filter (Some failed)] Hq)
      as (i & r & -> & Hs & Hc); [done | lia | lia |].
    set (good := λ q, mq_broker_name q ≠ failed ∧ (true = true → avail q = true)).
    assert (Hgood : ∀ mq, forallb (λ f, f mq) [avail; broker_filter (Some failed)] = true ↔ good mq).
    { intros mq. cbn. rewrite andb_true_r, andb_true_iff, bool_decide_eq_true. unfold good. naive_solver. }
    apply (or_else_selects queues good).
    + intros mq ->. rewrite <- Hgood. by apply Hs.
    + intros (q & Hin & Hg). apply Hc. exists q. by rewrite Hgood.
    + intros index. destruct (select_total random queues [reach; broker_filter (Some failed)] index Hq)
        as (i2 & r2 & -> & Hs2); [done |].
      unfold or_else. cbn [obind]. destruct r2 as [mq |]; [| by apply select_any].
      exists i2, mq. split; [done |]. by apply Hs2.
  - destruct (filters_complete random v queues [broker_filter (Some failed)] Hq)
      as (i & r & -> & Hs & Hc); [done | lia | lia |].
    set (good := λ q, mq_broker_name q ≠ failed ∧ (false = true → avail q = true)).
    assert (Hgood : ∀ mq, forallb (λ f, f mq) [broker_filter (Some failed)] = true ↔ good mq).
    { intros mq. cbn. rewrite andb_true_r, bool_decide_eq_true. unfold good. naive_solver. }
    apply (or_else_selects queues good).
    + intros mq ->. rewrite <- Hgood. by apply Hs.
    + intros (q & Hin & Hg). apply Hc. exists q. by rewrite Hgood.
    + intros index. by apply select_any.
Qed.

Lemma strategy_selects_witness :
  let queues := [mq_of "a" 0; mq_of "b" 0; mq_of "c" 0] in
  let t := update_fault_item 1000 "b" 3000 6000 true ∅ in
  ∃ i mq, strategy_select 0 true 2000 t queues (Some "a") false (Some 5) = Done (i, Some mq) ∧
    mq ∈ queues ∧
    ((∃ q, q ∈ queues ∧ mq_broker_name q ≠ "a" ∧
           (true = true → is_available 2000 (mq_broker_name q) t = true)) →
     mq_broker_name mq ≠ "a" ∧
     (true = true → is_available 2000 (mq_broker_name mq) t = true)).
Proof.
  intros queues t. apply strategy_selects; [done | lia | lia | cbn; lia].
Defined.

(** ** Isolation *)

(** How long a broker is isolated grows with the latency it showed. *)
Lemma duration_monotone (a b : Z) :
  a ≤ b → compute_not_available_duration a ≤ compute_not_available_duration b.
Proof.
  intros Hab. unfold compute_not_available_duration. cbn.
  repeat match goal with |- context [?x <=? ?y] => destruct (Z.leb_spec x y) end; lia.
Qed.

(** A broker isolated for [d] at [now] is not available before [now + d], and
    an update never shortens an isolation. *)
Lemma isolation_holds (now t' : Z) (name : string) (latency d : Z) (r : bool) (t : fault_table) :
  0 < d → 0 ≤ now → now + d < 2 ^ 63 → t' < now + d →
  is_available t' name (update_fault_item now name latency d r t) = false.
Proof.
  intros Hd Hn Hb Ht. unfold is_available, update_fault_item, update_not_available_duration.
  rewrite lookup_insert_eq, (proj2 (Z.ltb_lt _ _)), as_u64_id by (done || in_range). cbn.
  set (f := default new_fault_item (t !! name)).
  unfold item_available. destruct (Z.ltb_spec (start_timestamp f) (now + d)); cbn;
    apply Z.leb_gt; lia.
Qed.

(** A detector round never makes an unreachable broker reachable again, even
    when its service answers: the flag is only set where it already is. *)
Theorem detection_never_recovers (now interval : Z) (resolve : string → option string)
    (detect : option (string → bool)) (name : string) (t : fault_table) (f : FaultItem) :
  t !! name = Some f → reachable_flag f = false → is_Some (resolve name) →
  is_reachable name (detect_by_one_round now interval resolve detect t) = false.
Proof.
  intros Hf Hr [addr Ha]. unfold is_reachable, detect_by_one_round.
  rewrite map_lookup_imap, Hf. cbn [mbind option_bind]. unfold detect_item. rewrite Ha.
  destruct (_ <? 0); [done |]. destruct detect as [service |]; [| done]. cbn [reachable_flag].
  rewrite Hr, andb_false_r. done.
Qed.

Lemma detection_never_recovers_witness :
  is_reachable "b" (detect_by_one_round 5000 2000 (λ _, Some "addr") (Some (λ _, true))
    (update_fault_item 1000 "b" 3000 6000 false ∅)) = false.
Proof.
  apply (detection_never_recovers _ _ _ _ _ _ (mkFault 3000 7000 0 false)); [reflexivity | done |].
  by exists "addr".
Defined.
