(* ===== verification/ClientManagers.v ===== *)
(** * ClientManagers: the producers and consumers connected to a broker
    ([producer_manager.rs], [consumer_manager.rs], [consumer_group_info.rs])

    The broker keeps, per group, the channels of its clients and what they
    subscribe to.  Clients register with every heartbeat, unregister, lose
    their connection or expire; listeners are told.  Every operation runs under
    the lock of its table and is one step, with one reading of the clock; the
    notices to the listeners are recorded in the state. *)

From stdpp Require Import base gmap list strings.
From coqutil Require Import Byte.
From Stdlib Require Import ZArith Lia.
From S2P Require Import Prelude Bytes Message RouteInfo Remoting.
Open Scope Z_scope.

(** ** Data *)

#[export] Instance byte_countable : Countable byte.
Proof.
  refine (inj_countable Byte.to_N Byte.of_N _). intros b. apply Byte.of_to_N.
Defined.
#[export] Instance SocketAddr_countable : Countable SocketAddr.
Proof.
  refine (inj_countable'
    (λ a, match a with
          | SockV4 ip p => inl (ip, p)
          | SockV6 ip p f s => inr (ip, p, f, s)
          end)
    (λ x, match x with
          | inl (ip, p) => SockV4 ip p
          | inr (ip, p, f, s) => SockV6 ip p f s
          end) _). by intros [].
Defined.

(** Channels are compared by their addresses and their id. *)
Record Channel := mkChannel {
  local_address : SocketAddr;
  remote_address : SocketAddr;
  channel_id : string;
}.
#[export] Instance Channel_eq_dec : EqDecision Channel.
Proof. solve_decision. Defined.
#[export] Instance Channel_countable : Countable Channel.
Proof.
  refine (inj_countable' (λ c, (local_address c, remote_address c, channel_id c))
            (λ '(l, r, i), mkChannel l r i) _). by intros [].
Defined.

Record ClientChannelInfo := mkClient {
  cc_channel : Channel;
  cc_client_id : string;
  cc_language : LanguageCode;
  cc_version : Z;
  cc_last_update_timestamp : Z;
}.
Definition set_last_update (t : Z) (c : ClientChannelInfo) : ClientChannelInfo :=
  mkClient (cc_channel c) (cc_client_id c) (cc_language c) (cc_version c) t.

Record SubscriptionData := mkSub {
  class_filter_mode : bool;
  sub_topic : string;
  sub_string : string;
  tags_set : gset string;
  code_set : gset Z;
  sub_version : Z;
  expression_type : string;
  filter_class_source : string;
}.

Inductive ConsumeType := ConsumeActively | ConsumePassively | ConsumePop.
Inductive MessageModel := Broadcasting | Clustering.
Inductive ConsumeFromWhere :=
| ConsumeFromLastOffset | ConsumeFromLastOffsetAndFromMinWhenBootFirst | ConsumeFromMinOffset
| ConsumeFromMaxOffset | ConsumeFromFirstOffset | ConsumeFromTimestamp.

Definition is_broadcast_mode (m : MessageModel) : bool :=
  match m with Broadcasting => true | Clustering => false end.

(** ** A consumer group *)

Record ConsumerGroupInfo := mkGroup {
  group_name : string;
  subscription_table : gmap string SubscriptionData;
  channel_info_table : gmap Channel ClientChannelInfo;
  consume_type : ConsumeType;
  message_model : MessageModel;
  consume_from_where : ConsumeFromWhere;
  cg_last_update_timestamp : Z;
}.
Definition new_group (name : string) (t : ConsumeType) (m : MessageModel) (w : ConsumeFromWhere)
    (now : Z) : ConsumerGroupInfo := mkGroup name ∅ ∅ t m w now.
Definition with_group_name (name : string) (now : Z) : ConsumerGroupInfo :=
  mkGroup name ∅ ∅ ConsumePassively Clustering ConsumeFromLastOffset now.
Definition set_channels (t : gmap Channel ClientChannelInfo) (g : ConsumerGroupInfo) :=
  mkGroup (group_name g) (subscription_table g) t (consume_type g) (message_model g)
    (consume_from_where g) (cg_last_update_timestamp g).
Definition set_subscriptions (t : gmap string SubscriptionData) (g : ConsumerGroupInfo) :=
  mkGroup (group_name g) t (channel_info_table g) (consume_type g) (message_model g)
    (consume_from_where g) (cg_last_update_timestamp g).
Definition set_group_time (now : Z) (g : ConsumerGroupInfo) :=
  mkGroup (group_name g) (subscription_table g) (channel_info_table g) (consume_type g)
    (message_model g) (consume_from_where g) now.
Definition set_group_kind (t : ConsumeType) (m : MessageModel) (w : ConsumeFromWhere)
    (g : ConsumerGroupInfo) :=
  mkGroup (group_name g) (subscription_table g) (channel_info_table g) t m w
    (cg_last_update_timestamp g).

Definition find_channel_by_client_id (client_id : string) (g : ConsumerGroupInfo)
  : option ClientChannelInfo :=
  head (filter (λ c, cc_client_id c = client_id) ((map_to_list (channel_info_table g)).*2)).
Definition find_channel_by_channel (ch : Channel) (g : ConsumerGroupInfo) : option ClientChannelInfo :=
  channel_info_table g !! ch.
Definition get_all_channels (g : ConsumerGroupInfo) : list Channel :=
  (map_to_list (channel_info_table g)).*1.
Definition get_all_client_ids (g : ConsumerGroupInfo) : list string :=
  cc_client_id <$> (map_to_list (channel_info_table g)).*2.
Definition get_subscribe_topics (g : ConsumerGroupInfo) : gset string := dom (subscription_table g).
Definition find_subscription_data (topic : string) (g : ConsumerGroupInfo) : option SubscriptionData :=
  subscription_table g !! topic.

Definition unregister_channel (c : ClientChannelInfo) (g : ConsumerGroupInfo)
  : ConsumerGroupInfo * bool :=
  (set_channels (delete (cc_channel c) (channel_info_table g)) g,
   bool_decide (is_Some (channel_info_table g !! cc_channel c))).
Definition handle_channel_close_event (ch : Channel) (g : ConsumerGroupInfo)
  : ConsumerGroupInfo * option ClientChannelInfo :=
  (set_channels (delete ch (channel_info_table g)) g, channel_info_table g !! ch).

Definition update_channel (now : Z) (info_new : ClientChannelInfo) (t : ConsumeType)
    (m : MessageModel) (w : ConsumeFromWhere) (g : ConsumerGroupInfo) : ConsumerGroupInfo * bool :=
  let g := set_group_kind t m w g in
  let ch := cc_channel info_new in
  let '(g, updated) :=
    match channel_info_table g !! ch with
    | Some info_old =>
        let info := if String.eqb (cc_client_id info_old) (cc_client_id info_new)
                    then info_old else info_new in
        (set_channels (<[ch := set_last_update now info]> (channel_info_table g)) g, false)
    | None => (set_channels (<[ch := info_new]> (channel_info_table g)) g, true)
    end in
  (set_group_time now g, updated).

(** The loop of [update_subscription] over the list, in iteration order. *)
Fixpoint put_subscriptions (subs : list SubscriptionData) (t : gmap string SubscriptionData)
    (updated : bool) : gmap string SubscriptionData * bool :=
  match subs with
  | [] => (t, updated)
  | s :: subs' =>
      match t !! sub_topic s with
      | Some old =>
          put_subscriptions subs'
            (if sub_version old <? sub_version s then <[sub_topic s := s]> t else t) updated
      | None => put_subscriptions subs' (<[sub_topic s := s]> t) true
      end
  end.
Definition topics_of (subs : list SubscriptionData) : gset string := list_to_set (sub_topic <$> subs).
Definition update_subscription (now : Z) (subs : list SubscriptionData) (g : ConsumerGroupInfo)
  : ConsumerGroupInfo * bool :=
  let '(t, updated) := put_subscriptions subs (subscription_table g) false in
  let kept := filter (λ kv, kv.1 ∈ topics_of subs) t in
  (set_group_time now (set_subscriptions kept g),
   updated || negb (bool_decide (dom t ⊆ topics_of subs))).

(** ** The consumer manager *)

Inductive consumer_notice :=
| Change (group : string) (channels : list Channel)
| Unregister (group : string)
| Register (group : string) (subs : list SubscriptionData) (c : ClientChannelInfo)
| ClientRegister (group : string) (c : ClientChannelInfo) (topics : gset string)
| ClientUnregister (group : string) (c : ClientChannelInfo) (topics : gset string)
| ChannelUnregister (group : string) (ch : Channel) (topics : gset string).

Record ConsumerManager := mkConsumerManager {
  consumer_table : gmap string ConsumerGroupInfo;
  consumer_compensation_table : gmap string ConsumerGroupInfo;
  channel_expired_timeout : Z;
  subscription_expired_timeout : Z;
  notices : list consumer_notice;
}.
Definition new_consumer_manager (channel_timeout subscription_timeout : Z) : ConsumerManager :=
  mkConsumerManager ∅ ∅ channel_timeout subscription_timeout [].
Definition set_consumer_table t c :=
  mkConsumerManager t (consumer_compensation_table c) (channel_expired_timeout c)
    (subscription_expired_timeout c) (notices c).
Definition set_compensation t c :=
  mkConsumerManager (consumer_table c) t (channel_expired_timeout c)
    (subscription_expired_timeout c) (notices c).
Definition call_consumer_ids_change_listener (ns : list consumer_notice) c :=
  mkConsumerManager (consumer_table c) (consumer_compensation_table c) (channel_expired_timeout c)
    (subscription_expired_timeout c) (notices c ++ ns).

Definition get_consumer_group_info_internal (group : string) (from_compensation : bool)
    (c : ConsumerManager) : option ConsumerGroupInfo :=
  match consumer_table c !! group with
  | Some g => Some g
  | None => if from_compensation then consumer_compensation_table c !! group else None
  end.
Definition get_consumer_group_info (group : string) (c : ConsumerManager) :=
  get_consumer_group_info_internal group false c.
Definition find_subscription_data_internal (group topic : string) (from_compensation : bool)
    (c : ConsumerManager) : option SubscriptionData :=
  match get_consumer_group_info_internal group false c ≫= find_subscription_data topic with
  | Some s => Some s
  | None =>
      if from_compensation
      then consumer_compensation_table c !! group ≫= find_subscription_data topic else None
  end.
Definition find_subscription_data_count (group : string) (c : ConsumerManager) : nat :=
  match get_consumer_group_info group c with
  | Some g => size (subscription_table g)
  | None => 0
  end.
Definition query_topic_consume_by_who (topic : string) (c : ConsumerManager) : gset string :=
  dom (filter (λ kv, is_Some (find_subscription_data topic kv.2)) (consumer_table c)).

Definition compensate_subscribe_data (now : Z) (group topic : string) (s : SubscriptionData)
    (c : ConsumerManager) : ConsumerManager :=
  let g := default (with_group_name group now) (consumer_compensation_table c !! group) in
  set_compensation (<[group := set_subscriptions (<[topic := s]> (subscription_table g)) g]>
                      (consumer_compensation_table c)) c.
Definition compensate_basic_consumer_info (now : Z) (group : string) (t : ConsumeType)
    (m : MessageModel) (c : ConsumerManager) : ConsumerManager :=
  let g := default (with_group_name group now) (consumer_compensation_table c !! group) in
  set_compensation (<[group := set_group_kind t m (consume_from_where g) g]>
                      (consumer_compensation_table c)) c.

Definition register_consumer_ext (now : Z) (group : string) (info : ClientChannelInfo)
    (t : ConsumeType) (m : MessageModel) (w : ConsumeFromWhere) (subs : list SubscriptionData)
    (notify with_subscription : bool) (c : ConsumerManager) : ConsumerManager * bool :=
  let g := default (new_group group t m w now) (consumer_table c !! group) in
  let '(g, r1) := update_channel now info t m w g in
  let ns1 := if r1 then [ClientRegister group info (topics_of subs)] else [] in
  let '(g, r2) := if with_subscription then update_subscription now subs g else (g, false) in
  let ns2 := if (r1 || r2) && notify && negb (is_broadcast_mode (message_model g))
             then [Change group (get_all_channels g)] else [] in
  let c := set_consumer_table (<[group := g]> (consumer_table c)) c in
  (call_consumer_ids_change_listener (ns1 ++ ns2 ++ [Register group subs info]) c, r1 || r2).

(** Here the notice goes out for broadcasting groups only. *)
Definition register_consumer_without_sub (now : Z) (group : string) (info : ClientChannelInfo)
    (t : ConsumeType) (m : MessageModel) (w : ConsumeFromWhere) (notify : bool) (c : ConsumerManager)
  : ConsumerManager * bool :=
  let g := default (new_group group t m w now) (consumer_table c !! group) in
  let '(g, r1) := update_channel now info t m w g in
  let ns := if r1 && notify && is_broadcast_mode (message_model g)
            then [Change group (get_all_channels g)] else [] in
  let c := set_consumer_table (<[group := g]> (consumer_table c)) c in
  (call_consumer_ids_change_listener ns c, r1).

Definition unregister_consumer (group : string) (info : ClientChannelInfo) (notify : bool)
    (c : ConsumerManager) : ConsumerManager :=
  match consumer_table c !! group with
  | None => c
  | Some g =>
      let '(g, removed) := unregister_channel info g in
      let ns1 := if removed then [ClientUnregister group info (get_subscribe_topics g)] else [] in
      let channels := get_all_channels g in
      let empty := bool_decide (channel_info_table g = ∅) in
      let table := if empty then delete group (consumer_table c)
                   else <[group := g]> (consumer_table c) in
      let ns2 := if empty then [Unregister group] else [] in
      let ns3 := if notify && negb (is_broadcast_mode (message_model g))
                 then [Change group channels] else [] in
      call_consumer_ids_change_listener (ns1 ++ ns2 ++ ns3) (set_consumer_table table c)
  end.

(** [remove_expire_consumer_group_info]: a group goes when its last topic
    expires; one that never had a topic stays. *)
Definition sub_expired (now timeout : Z) (s : SubscriptionData) : bool :=
  timeout <? as_i64 (as_i64 now - sub_version s).
Definition expire_subscriptions (now timeout : Z) (g : ConsumerGroupInfo) : ConsumerGroupInfo :=
  set_subscriptions (filter (λ kv, sub_expired now timeout kv.2 = false) (subscription_table g)) g.
Definition remove_expire_consumer_group_info (now : Z) (c : ConsumerManager) : ConsumerManager :=
  let timeout := as_i64 (subscription_expired_timeout c) in
  let gone g := bool_decide (filter (λ kv, sub_expired now timeout kv.2 = true) (subscription_table g) ≠ ∅)
                && bool_decide (subscription_table (expire_subscriptions now timeout g) = ∅) in
  set_compensation
    (expire_subscriptions now timeout <$>
       filter (λ kv, gone kv.2 = false) (consumer_compensation_table c)) c.

(** [scan_not_active_channel] *)
Definition channel_expired (now timeout : Z) (i : ClientChannelInfo) : bool :=
  timeout <? as_i64 (as_i64 now - as_i64 (cc_last_update_timestamp i)).
Definition scan_group (now timeout : Z) (g : ConsumerGroupInfo) : ConsumerGroupInfo :=
  set_channels (filter (λ kv, channel_expired now timeout kv.2 = false) (channel_info_table g)) g.
Definition scan_notices (now timeout : Z) (kv : string * ConsumerGroupInfo) : list consumer_notice :=
  (λ e, ChannelUnregister kv.1 e.1 (get_subscribe_topics kv.2)) <$>
    filter (λ e, channel_expired now timeout e.2 = true) (map_to_list (channel_info_table kv.2)).
Definition scan_not_active_channel (now : Z) (c : ConsumerManager) : ConsumerManager :=
  let timeout := as_i64 (channel_expired_timeout c) in
  let ns := map_to_list (consumer_table c) ≫= scan_notices now timeout in
  let table := filter (λ kv, channel_info_table kv.2 ≠ ∅) (scan_group now timeout <$> consumer_table c) in
  remove_expire_consumer_group_info now
    (call_consumer_ids_change_listener ns (set_consumer_table table c)).

(** [do_channel_close_event] *)
Definition close_notices (ch : Channel) (kv : string * ConsumerGroupInfo) : list consumer_notice :=
  match handle_channel_close_event ch kv.2 with
  | (g, Some info) =>
      ClientUnregister kv.1 info (get_subscribe_topics g) ::
      (if is_broadcast_mode (message_model g) then [] else [Change kv.1 (get_all_channels g)])
  | (_, None) => []
  end.
Definition closes_group (ch : Channel) (g : ConsumerGroupInfo) : bool :=
  bool_decide (is_Some (channel_info_table g !! ch)) &&
  bool_decide (delete ch (channel_info_table g) = ∅).
Definition do_channel_close_event (ch : Channel) (c : ConsumerManager) : ConsumerManager * bool :=
  let entries := map_to_list (consumer_table c) in
  let ns1 := entries ≫= close_notices ch in
  let removed := existsb (λ kv, bool_decide (is_Some (channel_info_table kv.2 !! ch))) entries in
  let gone := (filter (λ kv, closes_group ch kv.2 = true) entries).*1 in
  let table := (λ g, (handle_channel_close_event ch g).1) <$> consumer_table c in
  let c := set_consumer_table (foldr delete table gone) c in
  (call_consumer_ids_change_listener (ns1 ++ (Unregister <$> gone)) c, removed).

(** ** Subscriptions of a group *)

(** The newest of [o] and of the subscriptions of [subs] to [topic]: a later one
    counts only with a higher version. *)
Fixpoint newest (topic : string) (o : option SubscriptionData) (subs : list SubscriptionData)
  : option SubscriptionData :=
  match subs with
  | [] => o
  | s :: subs' =>
      newest topic
        (if String.eqb (sub_topic s) topic then
           match o with
           | Some old => Some (if sub_version old <? sub_version s then s else old)
           | None => Some s
           end
         else o) subs'
  end.

Lemma put_subscriptions_lookup (subs : list SubscriptionData) (t : gmap string SubscriptionData)
    (u : bool) (topic : string) :
  (put_subscriptions subs t u).1 !! topic = newest topic (t !! topic) subs.
Proof.
  revert t u. induction subs as [| s subs IH]; intros t u; [done |]. cbn.
  destruct (t !! sub_topic s) as [old |] eqn:E; rewrite IH; f_equal;
    (destruct (String.eqb_spec (sub_topic s) topic) as [<- | Hne]; [| by repeat case_match; simplify_map_eq]).
  - rewrite E. case_match; [by rewrite lookup_insert_eq | done].
  - by rewrite lookup_insert_eq, E.
Qed.

Lemma put_subscriptions_dom (subs : list SubscriptionData) (t : gmap string SubscriptionData) (u : bool) :
  dom (put_subscriptions subs t u).1 = dom t ∪ topics_of subs ∧
  ((put_subscriptions subs t u).2 = true ↔ u = true ∨ ¬ topics_of subs ⊆ dom t).
Proof.
  revert t u. induction subs as [| s subs IH]; intros t u; cbn.
  - split; [set_solver |]. split; [by left | intros [? | H]; [done |]]. exfalso. apply H. set_solver.
  - unfold topics_of in *. cbn [fmap list_fmap list_to_set].
    destruct (t !! sub_topic s) as [old |] eqn:E.
    + apply elem_of_dom_2 in E as Hin.
      set (t' := if sub_version old <? sub_version s then _ else _).
      assert (Hd : dom t' = dom t) by (unfold t'; case_match; [rewrite dom_insert_L; set_solver | done]).
      destruct (IH t' u) as [H1 H2]. rewrite H1, H2, Hd. split; [set_solver |].
      split; (intros [? | H]; [by left | right; set_solver]).
    + apply not_elem_of_dom in E. destruct (IH (<[sub_topic s := s]> t) true) as [H1 H2].
      rewrite H1, H2, dom_insert_L. split; [set_solver |].
      split; intros _; [right; set_solver | by left].
Qed.

(** A heartbeat with subscriptions: the group is then subscribed to exactly the
    topics of the heartbeat, each with the newest subscription known for it, and
    the answer tells whether the set of topics changed. *)
Theorem update_subscription_spec (now : Z) (subs : list SubscriptionData) (g : ConsumerGroupInfo) :
  let '(g', updated) := update_subscription now subs g in
  dom (subscription_table g') = topics_of subs ∧
  (∀ topic, topic ∈ topics_of subs →
     find_subscription_data topic g' = newest topic (find_subscription_data topic g) subs) ∧
  (updated = true ↔ dom (subscription_table g) ≠ topics_of subs) ∧
  channel_info_table g' = channel_info_table g.
Proof.
  unfold update_subscription.
  pose proof (put_subscriptions_dom subs (subscription_table g) false) as [Hd Hu].
  pose proof (put_subscriptions_lookup subs (subscription_table g) false) as Hl.
  destruct (put_subscriptions _ _ _) as [t u]. cbn in Hd, Hu, Hl |- *. split_and!.
  - apply set_eq. intros x. rewrite elem_of_dom. unfold is_Some. setoid_rewrite map_lookup_filter_Some.
    cbn. split; [by intros (s & _ & Hx) |]. intros Hx.
    assert (Hin : x ∈ dom t) by (rewrite Hd; set_solver). apply elem_of_dom in Hin as [s Hs].
    by exists s.
  - intros topic Ht. unfold find_subscription_data. cbn. rewrite <- Hl.
    destruct (t !! topic) as [s |] eqn:E.
    + apply map_lookup_filter_Some. by split.
    + apply map_lookup_filter_None. by left.
  - rewrite orb_true_iff, Hu, negb_true_iff, bool_decide_eq_false, Hd. split.
    + intros [[? | Hn] | Hn] E; [done | apply Hn; by rewrite E | apply Hn; rewrite E; set_solver].
    + intros Hne. destruct (decide (topics_of subs ⊆ dom (subscription_table g))) as [Hs |];
        [| left; by right].
      right. intros Hs'. apply Hne. set_solver.
  - done.
Qed.

(** ** Reachable tables *)

Record group_ok (name : string) (g : ConsumerGroupInfo) : Prop := {
  go_name : group_name g = name;
  go_connected : channel_info_table g ≠ ∅;
  go_channels : map_Forall (λ ch i, cc_channel i = ch) (channel_info_table g);
  go_topics : map_Forall (λ t s, sub_topic s = t) (subscription_table g);
}.

Inductive consumer_op :=
| OpRegister (now : Z) (group : string) (info : ClientChannelInfo) (t : ConsumeType)
    (m : MessageModel) (w : ConsumeFromWhere) (subs : list SubscriptionData)
    (notify with_subscription : bool)
| OpRegisterWithoutSub (now : Z) (group : string) (info : ClientChannelInfo) (t : ConsumeType)
    (m : MessageModel) (w : ConsumeFromWhere) (notify : bool)
| OpUnregister (group : string) (info : ClientChannelInfo) (notify : bool)
| OpCompensate (now : Z) (group topic : string) (s : SubscriptionData)
| OpCompensateBasic (now : Z) (group : string) (t : ConsumeType) (m : MessageModel)
| OpScan (now : Z)
| OpClose (ch : Channel).
Definition consumer_step (op : consumer_op) (c : ConsumerManager) : ConsumerManager :=
  match op with
  | OpRegister now g i t m w subs n ws => (register_consumer_ext now g i t m w subs n ws c).1
  | OpRegisterWithoutSub now g i t m w n => (register_consumer_without_sub now g i t m w n c).1
  | OpUnregister g i n => unregister_consumer g i n c
  | OpCompensate now g t s => compensate_subscribe_data now g t s c
  | OpCompensateBasic now g t m => compensate_basic_consumer_info now g t m c
  | OpScan now => scan_not_active_channel now c
  | OpClose ch => (do_channel_close_event ch c).1
  end.
Definition consumer_run (ops : list consumer_op) (c : ConsumerManager) : ConsumerManager :=
  foldl (λ c op, consumer_step op c) c ops.

(** What the operations leave of the table, as a group's entry. *)
Lemma update_channel_table (now : Z) (info : ClientChannelInfo) (t : ConsumeType) (m : MessageModel)
    (w : ConsumeFromWhere) (g : ConsumerGroupInfo) :
  let g' := (update_channel now info t m w g).1 in
  group_name g' = group_name g ∧ subscription_table g' = subscription_table g ∧
  ∃ i, channel_info_table g' = <[cc_channel info := i]> (channel_info_table g) ∧
    match channel_info_table g !! cc_channel info with
    | Some old => cc_last_update_timestamp i = now ∧
                  (i = set_last_update now old ∨ i = set_last_update now info)
    | None => i = info
    end.
Proof.
  unfold update_channel. cbn. destruct (channel_info_table g !! cc_channel info) as [old |]; cbn.
  - split; [done |]. split; [done |]. eexists. split; [done |]. case_match; split; auto.
  - split; [done |]. split; [done |]. by eexists.
Qed.

Lemma update_channel_ok (now : Z) (info : ClientChannelInfo) (t : ConsumeType) (m : MessageModel)
    (w : ConsumeFromWhere) (group : string) (table : gmap string ConsumerGroupInfo) :
  map_Forall group_ok table →
  group_ok group (update_channel now info t m w (default (new_group group t m w now) (table !! group))).1.
Proof.
  intros Hok. set (g := default _ _).
  assert (Hg : group_name g = group ∧ map_Forall (λ ch i, cc_channel i = ch) (channel_info_table g) ∧
               map_Forall (λ t s, sub_topic s = t) (subscription_table g)).
  { unfold g. destruct (table !! group) as [g0 |] eqn:E; cbn.
    - destruct (Hok _ _ E). by split_and!.
    - split_and!; [done | apply map_Forall_empty | apply map_Forall_empty]. }
  destruct Hg as (Hn & Hc & Hs).
  destruct (update_channel_table now info t m w g) as (H1 & H2 & i & H3 & H4). constructor.
  - by rewrite H1.
  - rewrite H3. apply insert_non_empty.
  - rewrite H3. apply map_Forall_insert_2; [| done].
    destruct (channel_info_table g !! cc_channel info) as [old |] eqn:E; [| by rewrite H4].
    destruct H4 as [_ [-> | ->]]; [exact (Hc _ _ E) | done].
  - by rewrite H2.
Qed.

Lemma update_subscription_ok (now : Z) (subs : list SubscriptionData) (name : string)
    (g : ConsumerGroupInfo) :
  group_ok name g → group_ok name (update_subscription now subs g).1.
Proof.
  intros [Hn Hc Hch Ht]. unfold update_subscription.
  pose proof (put_subscriptions_lookup subs (subscription_table g) false) as Hl.
  destruct (put_subscriptions _ _ _) as [t u]. cbn in Hl |- *. constructor; cbn; try done.
  intros topic s Hs. apply map_lookup_filter_Some in Hs as [Hs _]. rewrite Hl in Hs.
  assert (Hnew : ∀ o, (∀ x, o = Some x → sub_topic x = topic) → ∀ x, newest topic o subs = Some x →
                 sub_topic x = topic).
  { clear. induction subs as [| y subs IH]; intros o Ho x Hx; [by apply Ho |]. cbn in Hx.
    apply (IH _) in Hx; [done |]. intros z Hz. destruct (String.eqb_spec (sub_topic y) topic); [| by apply Ho].
    destruct o as [old |]; [| by simplify_eq]. specialize (Ho old eq_refl). case_match; by simplify_eq. }
  eapply Hnew; [| exact Hs]. intros x Hx. by apply (Ht _ _ Hx).
Qed.

Lemma consumer_step_ok (op : consumer_op) (c : ConsumerManager) :
  map_Forall group_ok (consumer_table c) → map_Forall group_ok (consumer_table (consumer_step op c)).
Proof.
  intros Hok. destruct op; cbn.
  - unfold register_consumer_ext. pose proof (update_channel_ok now info t m w group _ Hok) as Hg.
    destruct (update_channel _ _ _ _ _ _) as [g r1]. cbn in Hg.
    destruct with_subscription; [| cbn; by apply map_Forall_insert_2].
    pose proof (update_subscription_ok now subs group g Hg) as Hg'.
    destruct (update_subscription _ _ _) as [g' r2]. cbn in Hg' |- *. by apply map_Forall_insert_2.
  - unfold register_consumer_without_sub. pose proof (update_channel_ok now info t m w group _ Hok) as Hg.
    destruct (update_channel _ _ _ _ _ _) as [g r1]. cbn in Hg |- *. by apply map_Forall_insert_2.
  - unfold unregister_consumer. destruct (consumer_table c !! group) as [g |] eqn:E; [| done]. cbn.
    destruct (Hok _ _ E). case_bool_decide as Hem.
    + by apply map_Forall_delete.
    + apply map_Forall_insert_2; [| done]. constructor; cbn in *; try done. by apply map_Forall_delete.
  - done.
  - done.
  - intros name g Hg. apply map_lookup_filter_Some in Hg as [Hg Hne].
    rewrite lookup_fmap in Hg. destruct (consumer_table c !! name) as [g0 |] eqn:E; [| done].
    cbn in Hg. injection Hg as <-. destruct (Hok _ _ E). constructor; cbn in *; try done.
    intros ch i Hi. apply map_lookup_filter_Some in Hi as [Hi _]. by apply (go_channels0 _ _ Hi).
  - intros name g Hg. cbn in Hg.
    set (gone := (filter _ _).*1) in Hg. apply lookup_foldr_delete_Some in Hg as [Hin Hg].
    rewrite lookup_fmap in Hg. destruct (consumer_table c !! name) as [g0 |] eqn:E; [| done].
    cbn in Hg. injection Hg as <-. destruct (Hok _ _ E). constructor; cbn in *; try done.
    + intros Hem. apply Hin. unfold gone. apply list_elem_of_fmap. exists (name, g0). split; [done |].
      apply list_elem_of_filter. split; [| by apply elem_of_map_to_list]. cbn. unfold closes_group.
      rewrite (bool_decide_true (delete _ _ = ∅)) by done. rewrite andb_true_r. apply bool_decide_eq_true.
      destruct (channel_info_table g0 !! ch) eqn:Ech; [done |].
      rewrite delete_id in Hem by done. done.
    + by apply map_Forall_delete.
Qed.

(** Whatever clients register, unregister, lose their connection or expire: a
    group in the table has a connected client, its channels and its
    subscriptions are filed under their own keys, and it carries its name. *)
Theorem consumer_groups_connected (ops : list consumer_op) (channel_timeout sub_timeout : Z) :
  map_Forall group_ok
    (consumer_table (consumer_run ops (new_consumer_manager channel_timeout sub_timeout))).
Proof.
  assert (H : ∀ c, map_Forall group_ok (consumer_table c) →
                   map_Forall group_ok (consumer_table (consumer_run ops c))).
  { induction ops as [| op ops IH]; intros c Hc; [done |]. cbn. by apply IH, consumer_step_ok. }
  apply H. apply map_Forall_empty.
Qed.

(** A time that does not wrap. *)
Definition sane (t : Z) : Prop := 0 ≤ t < 2 ^ 62.

(** The client on [ch] in [group] was heard of at [t0] or later. *)
Definition alive_since (t0 : Z) (group : string) (ch : Channel) (c : ConsumerManager) : Prop :=
  ∃ g i, consumer_table c !! group = Some g ∧ find_channel_by_channel ch g = Some i ∧
    t0 ≤ cc_last_update_timestamp i ∧ sane (cc_last_update_timestamp i).

(** The time the client on [ch] in [group] was last heard of: a registration of
    it, which is what a heartbeat is. *)
Definition heard (group : string) (ch : Channel) (op : consumer_op) (last : Z) : Z :=
  match op with
  | OpRegister now g i _ _ _ _ _ _ | OpRegisterWithoutSub now g i _ _ _ _ =>
      if decide (g = group ∧ cc_channel i = ch) then now else last
  | _ => last
  end.
(** The operation neither disconnects the channel nor is a scan more than the
    timeout after the client was last heard of. *)
Definition spares (last timeout : Z) (group : string) (ch : Channel) (op : consumer_op) : Prop :=
  match op with
  | OpRegister now _ _ _ _ _ _ _ _ | OpRegisterWithoutSub now _ _ _ _ _ _ => sane now
  | OpUnregister g i _ => g ≠ group ∨ cc_channel i ≠ ch
  | OpCompensate _ _ _ _ | OpCompensateBasic _ _ _ _ => True
  | OpScan now => sane now ∧ now - last ≤ timeout
  | OpClose ch' => ch' ≠ ch
  end.
Fixpoint attended (timeout : Z) (group : string) (ch : Channel) (ops : list consumer_op) (last : Z)
  : Prop :=
  match ops with
  | [] => True
  | op :: ops' => spares last timeout group ch op ∧ attended timeout group ch ops' (heard group ch op last)
  end.
(** The time the client was last heard of in a run. *)
Definition last_heard (group : string) (ch : Channel) (ops : list consumer_op) (last : Z) : Z :=
  foldl (λ t op, heard group ch op t) last ops.

(** A registration refreshes the time of its own channel and of no other. *)
Lemma update_channel_alive (now t0 : Z) (info : ClientChannelInfo) (t : ConsumeType) (m : MessageModel)
    (w : ConsumeFromWhere) (ch : Channel) (g : ConsumerGroupInfo) (i : ClientChannelInfo) :
  find_channel_by_channel ch g = Some i → t0 ≤ cc_last_update_timestamp i →
  sane (cc_last_update_timestamp i) → sane now →
  ∃ i', find_channel_by_channel ch (update_channel now info t m w g).1 = Some i' ∧
    (if decide (cc_channel info = ch) then now else t0) ≤ cc_last_update_timestamp i' ∧
    sane (cc_last_update_timestamp i').
Proof.
  unfold find_channel_by_channel. intros Hi Ht Hs Hsn.
  destruct (update_channel_table now info t m w g) as (_ & _ & i' & -> & H).
  destruct (decide (cc_channel info = ch)) as [<- | Hne].
  - rewrite Hi in H. destruct H as [H _]. exists i'. rewrite lookup_insert_eq, H. by split_and!.
  - exists i. by rewrite lookup_insert_ne.
Qed.

Lemma spares_alive (t0 timeout : Z) (group : string) (ch : Channel) (op : consumer_op)
    (c : ConsumerManager) :
  as_i64 (channel_expired_timeout c) = timeout → spares t0 timeout group ch op →
  alive_since t0 group ch c →
  alive_since (heard group ch op t0) group ch (consumer_step op c) ∧
  channel_expired_timeout (consumer_step op c) = channel_expired_timeout c.
Proof.
  intros Hto Hsp (g & i & Hg & Hi & Ht & Hs). unfold alive_since.
  destruct op; cbn in Hsp; cbn [consumer_step heard].
  - unfold register_consumer_ext. destruct (decide (group0 = group)) as [-> | Hne].
    + rewrite Hg. cbn [default from_option id].
      destruct (update_channel_alive now t0 info t m w ch g i Hi Ht Hs Hsp) as (i' & Hi' & H1 & H2).
      rewrite (decide_ext (group = group ∧ cc_channel info = ch) (cc_channel info = ch)) by tauto.
      destruct (update_channel _ _ _ _ _ _) as [g1 r1]. cbn in Hi'.
      destruct with_subscription; cbn; [| split; [| done]; exists g1, i'; (rewrite lookup_insert_eq; by split_and!)].
      pose proof (update_subscription_spec now subs g1) as Hu.
      destruct (update_subscription now subs g1) as [g2 r2]. destruct Hu as (_ & _ & _ & Hch). cbn.
      split; [| done]. exists g2, i'. unfold find_channel_by_channel. rewrite Hch. rewrite lookup_insert_eq. by split_and!.
    + rewrite decide_False by tauto. destruct (update_channel _ _ _ _ _ _) as [g1 r1].
      destruct (if with_subscription then _ else _) as [g2 r2]. cbn. split; [| done].
      exists g, i. by rewrite lookup_insert_ne.
  - unfold register_consumer_without_sub. destruct (decide (group0 = group)) as [-> | Hne].
    + rewrite Hg. cbn [default from_option id].
      destruct (update_channel_alive now t0 info t m w ch g i Hi Ht Hs Hsp) as (i' & Hi' & H1 & H2).
      rewrite (decide_ext (group = group ∧ cc_channel info = ch) (cc_channel info = ch)) by tauto.
      destruct (update_channel _ _ _ _ _ _) as [g1 r1]. cbn in Hi' |- *. split; [| done].
      exists g1, i'. rewrite lookup_insert_eq. by split_and!.
    + rewrite decide_False by tauto. destruct (update_channel _ _ _ _ _ _) as [g1 r1]. cbn. split; [| done].
      exists g, i. by rewrite lookup_insert_ne.
  - unfold unregister_consumer. destruct (consumer_table c !! group0) as [g0 |] eqn:E0;
      [| split; [by exists g, i | done]]. cbn. split; [| done].
    destruct (decide (group0 = group)) as [-> | Hne].
    + simplify_eq. destruct Hsp as [? | Hch]; [done |].
      assert (Hkeep : delete (cc_channel info) (channel_info_table g) !! ch = Some i)
        by (by rewrite lookup_delete_ne).
      rewrite bool_decide_false by (intros E; by rewrite E in Hkeep).
      exists (set_channels (delete (cc_channel info) (channel_info_table g)) g), i. rewrite lookup_insert_eq. by split_and!.
    + exists g, i. case_match; [by rewrite lookup_delete_ne | by rewrite lookup_insert_ne].
  - split; [by exists g, i | done].
  - split; [by exists g, i | done].
  - cbn. split; [| done]. exists (scan_group now (as_i64 (channel_expired_timeout c)) g), i.
    assert (Hch : channel_info_table (scan_group now (as_i64 (channel_expired_timeout c)) g) !! ch = Some i).
    { apply map_lookup_filter_Some. split; [exact Hi |]. cbn. unfold channel_expired. rewrite Hto.
      unfold sane in *. rewrite (as_i64_id now), (as_i64_id (cc_last_update_timestamp i)) by in_range.
      rewrite as_i64_id by in_range. apply Z.ltb_ge. lia. }
    split; [| done]. apply map_lookup_filter_Some. split; [by rewrite lookup_fmap, Hg |]. cbn.
    intros E. unfold scan_group in Hch. cbn [set_channels channel_info_table] in Hch. rewrite E in Hch. done.
  - cbn. split; [| done]. exists (handle_channel_close_event ch0 g).1, i.
    assert (Hch : delete ch0 (channel_info_table g) !! ch = Some i) by (by rewrite lookup_delete_ne).
    split; [| done]. apply lookup_foldr_delete_Some. split; [| by rewrite lookup_fmap, Hg].
    intros Hin. apply list_elem_of_fmap in Hin as ([n g0] & -> & Hin).
    apply list_elem_of_filter in Hin as [Hc Hin]. apply elem_of_map_to_list in Hin. cbn in Hin, Hg.
    simplify_eq. unfold closes_group in Hc. cbn in Hc.
    rewrite (bool_decide_false (delete ch0 _ = ∅)) in Hc by (intros E; by rewrite E in Hch).
    by rewrite andb_false_r in Hc.
Qed.

(** C19: A consumer stays connected: as long as its channel is not closed or
    unregistered and every scan comes within the timeout of its last heartbeat
    before it, a consumer that is registered is found under its group and
    channel, with a time no earlier than that of its last heartbeat, whatever
    the other clients do. *)
Theorem consumer_stays (t0 timeout : Z) (group : string) (ch : Channel) (ops : list consumer_op)
    (c : ConsumerManager) :
  as_i64 (channel_expired_timeout c) = timeout → alive_since t0 group ch c →
  attended timeout group ch ops t0 →
  alive_since (last_heard group ch ops t0) group ch (consumer_run ops c).
Proof.
  revert t0 c. induction ops as [| op ops IH]; intros t0 c Hto Ha Hops; [done |].
  destruct Hops as [Hop Hops]. destruct (spares_alive t0 timeout group ch op c Hto Hop Ha) as [Ha' Hto'].
  apply IH; [by rewrite Hto' | done | done].
Qed.

Definition example_channel (id : string) : Channel :=
  mkChannel (SockV4 [] 1) (SockV4 [] 2) id.
Definition example_client (id : string) (t : Z) : ClientChannelInfo :=
  mkClient (example_channel id) id RUST 1 t.
(** The client [a] sends a heartbeat at 100, so that the scan at 200 spares it;
    [b], heard of at 20, closes its connection. *)
Definition example_ops : list consumer_op :=
  [OpRegister 20 "g" (example_client "b" 20) ConsumePassively Clustering ConsumeFromLastOffset [] true true;
   OpRegister 100 "g" (example_client "a" 100) ConsumePassively Clustering ConsumeFromLastOffset [] true true;
   OpClose (example_channel "b"); OpScan 200].

Lemma consumer_stays_witness :
  let c := (register_consumer_ext 10 "g" (example_client "a" 10) ConsumePassively Clustering
              ConsumeFromLastOffset [] true true (new_consumer_manager 120 120)).1 in
  alive_since 100 "g" (example_channel "a") (consumer_run example_ops c).
Proof.
  intros c. apply (consumer_stays 10 120 "g" (example_channel "a") example_ops c).
  - done.
  - assert (cc_last_update_timestamp <$>
      (consumer_table c !! "g" ≫= find_channel_by_channel (example_channel "a")) = Some 10) as H
      by (vm_compute; reflexivity).
    apply fmap_Some in H as (i & H & Hi). apply bind_Some in H as (g & Hg & Hf).
    exists g, i. rewrite <- Hi. by split_and!.
  - by vm_compute.
Defined.
