(* ===== verification/ProducerManager.v ===== *)
(** * ProducerManager: the producers connected to a broker
    ([producer_manager.rs])

    Two tables: the channels of every producer group, and the channel of every
    client id.  The broker asks for a channel of a group to check a transaction
    and goes round the group until it finds one that is connected.  The first
    table's lock is held through every operation, which is therefore one step,
    with one reading of the clock. *)

From stdpp Require Import base gmap list strings.
From Stdlib Require Import ZArith Lia.
From S2P Require Import Prelude Bytes Message RouteInfo Remoting ClientManagers.
Open Scope Z_scope.

Inductive ProducerGroupEvent := GroupUnregister | ProducerClientUnregister.

Record ProducerManager := mkProducerManager {
  group_channel_table : gmap string (gmap Channel ClientChannelInfo);
  client_channel_table : gmap string Channel;
  positive_atomic_counter : Z;
  producer_notices : list (ProducerGroupEvent * string * option ClientChannelInfo);
}.
Definition new_producer_manager : ProducerManager := mkProducerManager ∅ ∅ 0 [].
Definition set_groups t p :=
  mkProducerManager t (client_channel_table p) (positive_atomic_counter p) (producer_notices p).
Definition set_clients t p :=
  mkProducerManager (group_channel_table p) t (positive_atomic_counter p) (producer_notices p).
Definition set_counter n p :=
  mkProducerManager (group_channel_table p) (client_channel_table p) n (producer_notices p).
Definition call_producer_change_listener ns p :=
  mkProducerManager (group_channel_table p) (client_channel_table p) (positive_atomic_counter p)
    (producer_notices p ++ ns).

Definition CHANNEL_EXPIRED_TIMEOUT : Z := 120000.
Definition GET_AVAILABLE_CHANNEL_RETRY_COUNT : nat := 3.

Record ProducerInfo := mkProducerInfo {
  pi_client_id : string;
  pi_remote : SocketAddr;
  pi_language : LanguageCode;
  pi_version : Z;
  pi_last_update_timestamp : Z;
}.
(** [get_producer_table] *)
Definition producer_info (c : ClientChannelInfo) : ProducerInfo :=
  mkProducerInfo (cc_client_id c) (remote_address (cc_channel c)) (cc_language c) (cc_version c)
    (as_i64 (cc_last_update_timestamp c)).
Definition get_producer_table (p : ProducerManager) : gmap string (list ProducerInfo) :=
  (λ m, producer_info <$> (map_to_list m).*2) <$>
    filter (λ kv, kv.2 ≠ ∅) (group_channel_table p).

Definition group_online (group : string) (p : ProducerManager) : bool :=
  match group_channel_table p !! group with
  | Some m => negb (bool_decide (m = ∅))
  | None => false
  end.

(** [unregister_producer]: [ch] is the channel the request came on.  The table
    of client ids keeps its entry. *)
Definition unregister_producer (group : string) (ch : Channel) (p : ProducerManager) : ProducerManager :=
  match group_channel_table p !! group with
  | None => p
  | Some m =>
      let m' := delete ch m in
      let ns1 := match m !! ch with
                 | Some old => [(ProducerClientUnregister, group, Some old)]
                 | None => []
                 end in
      if bool_decide (m' = ∅)
      then call_producer_change_listener (ns1 ++ [(ProducerClientUnregister, group, None)])
             (set_groups (delete group (group_channel_table p)) p)
      else call_producer_change_listener ns1 (set_groups (<[group := m']> (group_channel_table p)) p)
  end.

Definition register_producer (now : Z) (group : string) (info : ClientChannelInfo) (p : ProducerManager)
  : ProducerManager :=
  let m := default ∅ (group_channel_table p !! group) in
  let ch := cc_channel info in
  match m !! ch with
  | Some found => set_groups (<[group := <[ch := set_last_update now found]> m]> (group_channel_table p)) p
  | None =>
      set_clients (<[cc_client_id info := ch]> (client_channel_table p))
        (set_groups (<[group := <[ch := info]> m]> (group_channel_table p)) p)
  end.

Definition find_channel (client_id : string) (p : ProducerManager) : option Channel :=
  client_channel_table p !! client_id.

(** The rounds of [get_available_channel]: [alive] tells which channels still
    have a connection. *)
Fixpoint pick_channel (alive : Channel → bool) (n : nat) (channels : list Channel) (index : nat)
  : option Channel :=
  match n with
  | O => None
  | S n' =>
      match channels !! index with
      | Some ch => if alive ch then Some ch
                   else pick_channel alive n' channels (S index mod length channels)
      | None => None
      end
  end.
Definition get_available_channel (alive : Channel → bool) (group : option string) (p : ProducerManager)
  : ProducerManager * option Channel :=
  match group ≫= (group_channel_table p !!.) with
  | None => (p, None)
  | Some m =>
      if bool_decide (m = ∅) then (p, None)
      else
        let channels := (map_to_list m).*1 in
        let index := (Z.to_nat (Z.abs (positive_atomic_counter p)) mod length channels)%nat in
        (set_counter (as_i32 (positive_atomic_counter p + 1)) p,
         pick_channel alive GET_AVAILABLE_CHANNEL_RETRY_COUNT channels index)
  end.

(** [scan_not_active_channel]: the age is an unsigned difference. *)
Definition producer_expired (now : Z) (i : ClientChannelInfo) : bool :=
  CHANNEL_EXPIRED_TIMEOUT <? as_u64 (now - cc_last_update_timestamp i).
Definition forget_client (ch : Channel) (i : ClientChannelInfo) (t : gmap string Channel)
  : gmap string Channel :=
  if bool_decide (t !! cc_client_id i = Some ch) then delete (cc_client_id i) t else t.
Definition expired_entries (now : Z) (m : gmap Channel ClientChannelInfo)
  : list (Channel * ClientChannelInfo) :=
  filter (λ e, producer_expired now e.2 = true) (map_to_list m).
Fixpoint scan_groups (now : Z) (gs : list (string * gmap Channel ClientChannelInfo)) (p : ProducerManager)
  : ProducerManager :=
  match gs with
  | [] => p
  | (group, m) :: gs' =>
      let gone := expired_entries now m in
      let m' := foldr delete m gone.*1 in
      let p := set_groups (<[group := m']> (group_channel_table p)) p in
      let p := set_clients (foldl (λ t e, forget_client e.1 e.2 t) (client_channel_table p) gone) p in
      let p := call_producer_change_listener
                 ((λ e, (ProducerClientUnregister, group, Some e.2)) <$> gone) p in
      scan_groups now gs' p
  end.
Definition producer_scan_not_active_channel (now : Z) (p : ProducerManager) : ProducerManager :=
  let p := scan_groups now (map_to_list (group_channel_table p)) p in
  let empty := (filter (λ kv : string * gmap Channel ClientChannelInfo, kv.2 = ∅)
                  (map_to_list (group_channel_table p))).*1 in
  call_producer_change_listener ((λ g, (GroupUnregister, g, None)) <$> empty)
    (set_groups (foldr delete (group_channel_table p) empty) p).

(** [do_channel_close_event]: the client id of the entry is forgotten, whichever
    channel it stands for now. *)
Fixpoint close_groups (ch : Channel) (gs : list (string * gmap Channel ClientChannelInfo))
    (p : ProducerManager) (removed : bool) : ProducerManager * bool :=
  match gs with
  | [] => (p, removed)
  | (group, m) :: gs' =>
      match m !! ch with
      | Some i =>
          let p := set_groups (<[group := delete ch m]> (group_channel_table p)) p in
          let p := set_clients (delete (cc_client_id i) (client_channel_table p)) p in
          close_groups ch gs'
            (call_producer_change_listener [(ProducerClientUnregister, group, Some i)] p) true
      | None => close_groups ch gs' p removed
      end
  end.
Definition producer_channel_close_event (ch : Channel) (p : ProducerManager) : ProducerManager * bool :=
  let gs := map_to_list (group_channel_table p) in
  let '(p, removed) := close_groups ch gs p false in
  let gone := (filter (λ kv : string * gmap Channel ClientChannelInfo,
                   is_Some (kv.2 !! ch) ∧ delete ch kv.2 = ∅) gs).*1 in
  (call_producer_change_listener ((λ g, (GroupUnregister, g, None)) <$> gone)
     (set_groups (foldr delete (group_channel_table p) gone) p), removed).

(** ** Choosing a channel *)

Lemma pick_channel_spec (alive : Channel → bool) (n : nat) (channels : list Channel) (index : nat)
    (ch : Channel) :
  pick_channel alive n channels index = Some ch → ch ∈ channels ∧ alive ch = true.
Proof.
  revert index. induction n as [| n IH]; intros index H; [done |]. cbn in H.
  destruct (channels !! index) as [c |] eqn:E; [| done]. destruct (alive c) eqn:Ea; [| by eapply IH].
  injection H as <-. split; [| done]. by eapply list_elem_of_lookup_2.
Qed.

(** The rounds try [n] neighbours in turn. *)
Lemma pick_channel_found (alive : Channel → bool) (n j : nat) (channels : list Channel) (index : nat)
    (ch : Channel) :
  (index < length channels)%nat → (j < n)%nat →
  channels !! ((index + j) mod length channels)%nat = Some ch → alive ch = true →
  is_Some (pick_channel alive n channels index).
Proof.
  revert index j. induction n as [| n IH]; intros index j Hi Hj Hch Ha; [lia |]. cbn.
  destruct (lookup_lt_is_Some_2 channels index Hi) as [c E]. rewrite E.
  destruct (alive c) eqn:Ec; [done |].
  destruct j as [| j].
  - rewrite Nat.add_0_r, Nat.mod_small in Hch by done. simplify_eq. congruence.
  - apply (IH _ j); [apply Nat.mod_upper_bound; lia | lia | | done].
    rewrite Nat.Div0.add_mod_idemp_l. by rewrite Nat.add_succ_comm.
Qed.

(** A channel that is handed out belongs to the group and is connected; and in a
    group of at most three channels one that is connected is always found. *)
Theorem available_channel_found (alive : Channel → bool) (group : string) (p : ProducerManager)
    (m : gmap Channel ClientChannelInfo) :
  group_channel_table p !! group = Some m →
  (∀ ch, (get_available_channel alive (Some group) p).2 = Some ch → is_Some (m !! ch) ∧ alive ch = true) ∧
  ((size m ≤ GET_AVAILABLE_CHANNEL_RETRY_COUNT)%nat →
   (∃ ch, is_Some (m !! ch) ∧ alive ch = true) →
   is_Some (get_available_channel alive (Some group) p).2).
Proof.
  intros Hm. unfold get_available_channel. cbn [mbind option_bind]. rewrite Hm.
  case_bool_decide as Hne; cbn [snd].
  { subst m. split; [done |]. intros _ (ch & [i Hi] & _). by rewrite lookup_empty in Hi. }
  assert (Hmem : ∀ ch, ch ∈ (map_to_list m).*1 ↔ is_Some (m !! ch)).
  { intros ch. rewrite list_elem_of_fmap. split.
    - intros ([c i] & -> & Hin). apply elem_of_map_to_list in Hin. by exists i.
    - intros [i Hi]. exists (ch, i). by rewrite elem_of_map_to_list. }
  assert (Hlen : length (map_to_list m).*1 = size m) by (by rewrite length_fmap, length_map_to_list).
  assert (Hpos : (0 < size m)%nat).
  { destruct (size m) eqn:E; [| lia]. by apply map_size_empty_inv in E. }
  split.
  - intros ch H. apply pick_channel_spec in H as [H ?]. by rewrite Hmem in H.
  - intros Hsz (ch & Hin & Ha). apply Hmem, list_elem_of_lookup_1 in Hin as [k Hk].
    pose proof (lookup_lt_Some _ _ _ Hk) as Hlt. rewrite Hlen in *.
    set (start := (Z.to_nat _ mod size m)%nat).
    assert (Hst : (start < size m)%nat) by (apply Nat.mod_upper_bound; lia).
    apply (pick_channel_found alive _ ((k + size m - start) mod size m) _ _ ch); try done.
    + by rewrite Hlen.
    + pose proof (Nat.mod_upper_bound (k + size m - start) (size m)). lia.
    + rewrite Hlen. rewrite Nat.Div0.add_mod_idemp_r.
      replace (start + (k + size m - start))%nat with (k + 1 * size m)%nat by lia.
      rewrite Nat.Div0.mod_add, Nat.mod_small by done. exact Hk.
Qed.

Definition one_group : ProducerManager :=
  register_producer 5 "g" (example_client "b" 5)
    (register_producer 5 "g" (example_client "a" 5) new_producer_manager).

Lemma available_channel_found_witness :
  is_Some (get_available_channel (λ ch, bool_decide (ch = example_channel "b")) (Some "g") one_group).2.
Proof.
  assert (Hs : size <$> (group_channel_table one_group !! "g"%string) = Some 2%nat) by (by vm_compute).
  assert (Hb : (λ m, bool_decide (is_Some (m !! example_channel "b"))) <$>
                 (group_channel_table one_group !! "g"%string) = Some true) by (by vm_compute).
  destruct (group_channel_table one_group !! "g"%string) as [m |] eqn:E; [| done].
  injection Hs as Hs. injection Hb as Hb. apply bool_decide_eq_true in Hb.
  destruct (available_channel_found (λ ch, bool_decide (ch = example_channel "b")) "g" one_group m E)
    as [_ H].
  apply H; [rewrite Hs; unfold GET_AVAILABLE_CHANNEL_RETRY_COUNT; lia |].
  exists (example_channel "b"). split; [exact Hb | by vm_compute].
Defined.

(** Only three are tried: in a group of four the connected one can be missed. *)
Lemma pick_channel_misses :
  pick_channel (λ ch, bool_decide (ch = example_channel "d")) GET_AVAILABLE_CHANNEL_RETRY_COUNT
    (example_channel <$> ["a"; "b"; "c"; "d"]) 0 = None.
Proof. by vm_compute. Qed.

(** ** The table of client ids *)

(** A producer that has unregistered is still found under its client id. *)
Lemma unregistered_client_found (now : Z) (group : string) (info : ClientChannelInfo)
    (p : ProducerManager) :
  group_channel_table p !! group = None →
  let p' := unregister_producer group (cc_channel info) (register_producer now group info p) in
  group_online group p' = false ∧ find_channel (cc_client_id info) p' = Some (cc_channel info).
Proof.
  intros Hg. unfold register_producer. rewrite Hg. cbn [from_option id]. rewrite lookup_empty.
  unfold unregister_producer. cbn [group_channel_table set_clients set_groups].
  rewrite lookup_insert_eq, bool_decide_true by (by rewrite insert_empty, delete_singleton_eq).
  cbn. unfold group_online, find_channel. cbn. by rewrite lookup_delete_eq, lookup_insert_eq.
Qed.

(** A client that has reconnected is forgotten when its old channel closes. *)
Lemma reconnected_client_lost :
  let again := mkClient (example_channel "a2") "a" RUST 1 7 in
  let p := register_producer 7 "g" again (register_producer 5 "g" (example_client "a" 5) new_producer_manager) in
  find_channel "a" p = Some (example_channel "a2") ∧
  find_channel "a" (producer_channel_close_event (example_channel "a") p).1 = None ∧
  group_online "g" (producer_channel_close_event (example_channel "a") p).1 = true.
Proof. by vm_compute. Qed.

(** ** Reachable tables *)

Definition producers_ok (p : ProducerManager) : Prop :=
  map_Forall (λ _ m, m ≠ ∅ ∧ map_Forall (λ ch i, cc_channel i = ch) m) (group_channel_table p).

Inductive producer_op :=
| OpRegisterProducer (now : Z) (group : string) (info : ClientChannelInfo)
| OpUnregisterProducer (group : string) (ch : Channel)
| OpScanProducers (now : Z)
| OpCloseProducer (ch : Channel).
Definition producer_step (op : producer_op) (p : ProducerManager) : ProducerManager :=
  match op with
  | OpRegisterProducer now g i => register_producer now g i p
  | OpUnregisterProducer g ch => unregister_producer g ch p
  | OpScanProducers now => producer_scan_not_active_channel now p
  | OpCloseProducer ch => (producer_channel_close_event ch p).1
  end.

(** The loops rewrite the entries they are given. *)
Lemma scan_groups_table (now : Z) (gs : list (string * gmap Channel ClientChannelInfo))
    (p : ProducerManager) (group : string) (m : gmap Channel ClientChannelInfo) :
  NoDup gs.*1 → group_channel_table (scan_groups now gs p) !! group = Some m →
  (∃ m0, (group, m0) ∈ gs ∧ m = foldr delete m0 (expired_entries now m0).*1) ∨
  (group ∉ gs.*1 ∧ group_channel_table p !! group = Some m).
Proof.
  revert p. induction gs as [| [g m0] gs IH]; intros p Hnd H; [right; split; [set_solver | done] |].
  cbn in Hnd. apply NoDup_cons in Hnd as [Hg Hnd]. cbn in H. apply IH in H; [| done].
  destruct H as [(m1 & Hin & ->) | [Hn Ht]]; [left; exists m1; split; [by right | done] |].
  cbn in Ht. destruct (decide (g = group)) as [-> | Hne].
  - rewrite lookup_insert_eq in Ht. injection Ht as <-. left. exists m0. split; [left | done].
  - rewrite lookup_insert_ne in Ht by done. right. split; [set_solver | done].
Qed.

Lemma close_groups_table (ch : Channel) (gs : list (string * gmap Channel ClientChannelInfo))
    (p : ProducerManager) (r : bool) (group : string) (m : gmap Channel ClientChannelInfo) :
  NoDup gs.*1 → group_channel_table (close_groups ch gs p r).1 !! group = Some m →
  (∃ m0, (group, m0) ∈ gs ∧ is_Some (m0 !! ch) ∧ m = delete ch m0) ∨
  ((∀ m0, (group, m0) ∈ gs → m0 !! ch = None) ∧ group_channel_table p !! group = Some m).
Proof.
  revert p r. induction gs as [| [g m0] gs IH]; intros p r Hnd H.
  { right. split; [| done]. intros m0 Hin. by apply not_elem_of_nil in Hin. }
  cbn in Hnd. apply NoDup_cons in Hnd as [Hg Hnd]. cbn in H.
  assert (Hnot : ∀ m1, (g, m1) ∈ gs → False).
  { intros m1 Hin. apply Hg. apply list_elem_of_fmap. by exists (g, m1). }
  destruct (m0 !! ch) as [i |] eqn:E; (apply IH in H; [| done]);
    (destruct H as [(m1 & Hin & Hs & ->) | [Hn Ht]];
      [left; exists m1; split_and!; [by right | done | done] |]).
  - cbn in Ht. destruct (decide (g = group)) as [-> | Hne].
    + rewrite lookup_insert_eq in Ht. injection Ht as <-. left. exists m0. split_and!; [left | done | done].
    + rewrite lookup_insert_ne in Ht by done. right. split; [| done].
      intros m1 Hin. apply elem_of_cons in Hin as [? | Hin]; [by simplify_eq | by apply Hn].
  - right. split; [| done]. intros m1 Hin. apply elem_of_cons in Hin as [? | Hin]; [by simplify_eq |].
    by apply Hn.
Qed.

Lemma foldr_delete_sub {A} (ks : list Channel) (m : gmap Channel A) : foldr delete m ks ⊆ m.
Proof.
  induction ks as [| k ks IH]; [done |]. cbn. etrans; [apply delete_subseteq | done].
Qed.

Lemma producer_step_ok (op : producer_op) (p : ProducerManager) :
  producers_ok p → producers_ok (producer_step op p).
Proof.
  intros Hok. destruct op as [now group info | group ch | now | ch]; cbn.
  - assert (Hm : map_Forall (λ ch i, cc_channel i = ch) (default ∅ (group_channel_table p !! group))).
    { destruct (group_channel_table p !! group) as [m |] eqn:E; [by apply (Hok _ _ E) |].
      apply map_Forall_empty. }
    unfold register_producer. destruct (default ∅ _ !! cc_channel info) as [i |] eqn:Ei;
      (apply map_Forall_insert_2; [| exact Hok]); (split; [apply insert_non_empty |]);
      (apply map_Forall_insert_2; [| exact Hm]); [| done]. exact (Hm _ _ Ei).
  - unfold unregister_producer. destruct (group_channel_table p !! group) as [m |] eqn:E; [| done].
    case_bool_decide; cbn; [by apply map_Forall_delete |].
    apply map_Forall_insert_2; [| done]. split; [done |]. apply map_Forall_delete, (Hok _ _ E).
  - intros group m Hm. cbn in Hm. apply lookup_foldr_delete_Some in Hm as [Hin Hm].
    split.
    + intros ->. apply Hin. apply list_elem_of_fmap. exists (group, ∅). split; [done |].
      apply list_elem_of_filter. split; [done |]. by apply elem_of_map_to_list.
    + apply scan_groups_table in Hm; [| apply NoDup_fst_map_to_list].
      destruct Hm as [(m0 & Hin0 & ->) | [_ Hm]]; [| by apply (Hok _ _ Hm)].
      apply elem_of_map_to_list in Hin0. intros ch i Hi.
      apply (proj2 (Hok _ _ Hin0) ch i). eapply lookup_weaken; [exact Hi |]. apply foldr_delete_sub.
  - unfold producer_channel_close_event.
    pose proof (close_groups_table ch (map_to_list (group_channel_table p)) p false) as Hc.
    destruct (close_groups _ _ _ _) as [p1 r]. cbn in Hc |- *. intros group m Hm.
    apply lookup_foldr_delete_Some in Hm as [Hin Hm].
    apply Hc in Hm; [| apply NoDup_fst_map_to_list].
    destruct Hm as [(m0 & Hin0 & Hs & ->) | [_ Hm]]; [| by apply (Hok _ _ Hm)].
    assert (H0 : group_channel_table p !! group = Some m0) by (by apply elem_of_map_to_list).
    split; [| by apply map_Forall_delete, (Hok _ _ H0)].
    intros Hem. apply Hin. apply list_elem_of_fmap. exists (group, m0). split; [done |].
    by apply list_elem_of_filter.
Qed.

(** Whatever producers register, unregister, disconnect or expire: a group in
    the table has a connected client, and its channels are filed under
    themselves. *)
Theorem producer_groups_connected (ops : list producer_op) :
  producers_ok (foldl (λ p op, producer_step op p) new_producer_manager ops).
Proof.
  assert (H : ∀ p, producers_ok p → producers_ok (foldl (λ p op, producer_step op p) p ops)).
  { induction ops as [| op ops IH]; intros p Hp; [done |]. cbn. by apply IH, producer_step_ok. }
  apply H. apply map_Forall_empty.
Qed.
