(* ===== verification/PopInfo.v ===== *)
(** * PopInfo: keys and extra information of POP consumption
    ([key_builder.rs] and [pop_ack_constants.rs] of [rocketmq-common],
    [extra_info_util.rs] of [rocketmq-remoting])

    A message handed out by POP carries its receipt as text: where and when it
    was popped, for how long it is invisible, and whether its topic is a retry
    topic.  The response to a POP carries, again as text, the start offsets,
    the message offsets and the delivery counts of each queue. *)

From stdpp Require Import base gmap list strings pretty.
From coqutil Require Import Byte.
From Stdlib Require Import ZArith Lia.
From S2P Require Import Prelude Bytes FileName Numerals MessageExtEncoder MessageUtils Rebalance Offsets.
Open Scope Z_scope.
Open Scope rmq_scope.

(** ** Slices and splits of strings *)

(** [&s[i..]]: panics past the end and inside a character. *)
Definition is_char_boundary (bs : buffer) (i : nat) : bool :=
  match bs !! i with
  | Some b => (i =? 0)%nat || negb ((128 <=? byte.unsigned b) && (byte.unsigned b <? 192))
  | None => (i =? length bs)%nat
  end.
Definition slice_from (s : string) (i : nat) : outcome string :=
  if is_char_boundary (str_bytes s) i then Done (bytes_str (drop i (str_bytes s))) else Panic.

(** [s.split(sep)] at a text of two bytes or more. *)
Fixpoint split_sub (fuel : nat) (sep s : buffer) : list buffer :=
  match fuel with
  | O => [s]
  | S fuel' =>
      match find_sub sep s with
      | None => [s]
      | Some i => take i s :: split_sub fuel' sep (drop (i + length sep) s)
      end
  end.
Definition split_text (sep s : string) : list string :=
  bytes_str <$> split_sub (length (str_bytes s)) (str_bytes sep) (str_bytes s).

(** [s.split(c)] *)
Definition split_char (c : byte) (s : string) : list string :=
  bytes_str <$> split_byte c (str_bytes s) [].
Definition contains_char (c : byte) (s : string) : bool := bool_decide (c ∈ str_bytes s).

Definition str_len (s : string) : nat := length (str_bytes s).

(** ** [PopAckConstants] *)
Definition REVIVE_TOPIC : string := "rmq_sys_REVIVE_LOG_".
Definition CK_TAG : string := "ck".
Definition ACK_TAG : string := "ack".
Definition BATCH_ACK_TAG : string := "bAck".
Definition SPLIT : string := "@".
Definition ACK_TIME_INTERVAL : Z := 1000.
Definition build_cluster_revive_topic (cluster_name : string) : string :=
  REVIVE_TOPIC +:+ cluster_name.
Definition is_start_with_revive_prefix (topic_name : string) : bool :=
  String.prefix REVIVE_TOPIC topic_name.

(** ** [KeyBuilder] *)
Definition POP_ORDER_REVIVE_QUEUE : Z := 999.
Definition POP_RETRY_SEPARATOR_V1 : string := "_".
Definition POP_RETRY_SEPARATOR_V2 : string := "+".
(** The text ["\\+"] of the source: a backslash and a plus sign. *)
Definition POP_RETRY_REGEX_SEPARATOR_V2 : string := "\+".

Definition build_pop_retry_topic_v2 (topic cid : string) : string :=
  RETRY_GROUP_TOPIC_PREFIX +:+ cid +:+ POP_RETRY_SEPARATOR_V2 +:+ topic.
Definition build_pop_retry_topic_v1 (topic cid : string) : string :=
  RETRY_GROUP_TOPIC_PREFIX +:+ cid +:+ POP_RETRY_SEPARATOR_V1 +:+ topic.
Definition build_pop_retry_topic_default (topic cid : string) : string :=
  RETRY_GROUP_TOPIC_PREFIX +:+ cid +:+ POP_RETRY_SEPARATOR_V1 +:+ topic.
Definition build_pop_retry_topic (topic cid : string) (enable_retry_v2 : bool) : string :=
  if enable_retry_v2 then build_pop_retry_topic_v2 topic cid
  else build_pop_retry_topic_v1 topic cid.

Definition is_pop_retry_topic_v2 (retry_topic : string) : bool :=
  String.prefix RETRY_GROUP_TOPIC_PREFIX retry_topic && contains_char Byte.x2b retry_topic.

Definition parse_normal_topic (topic cid : string) : outcome string :=
  if String.prefix RETRY_GROUP_TOPIC_PREFIX topic then
    if String.prefix (RETRY_GROUP_TOPIC_PREFIX +:+ cid +:+ POP_RETRY_SEPARATOR_V2) topic
    then slice_from topic (str_len RETRY_GROUP_TOPIC_PREFIX + str_len cid + 1)
    else slice_from topic (str_len RETRY_GROUP_TOPIC_PREFIX + str_len cid + 1)
  else Done topic.

Definition parse_normal_topic_default (retry_topic : string) : string :=
  if is_pop_retry_topic_v2 retry_topic then
    match split_text POP_RETRY_REGEX_SEPARATOR_V2 retry_topic with
    | [_; t] => t
    | _ => retry_topic
    end
  else retry_topic.

Definition parse_group (retry_topic : string) : outcome string :=
  match is_pop_retry_topic_v2 retry_topic,
        split_text POP_RETRY_REGEX_SEPARATOR_V2 retry_topic with
  | true, [g; _] => slice_from g (str_len RETRY_GROUP_TOPIC_PREFIX)
  | _, _ => slice_from retry_topic (str_len RETRY_GROUP_TOPIC_PREFIX)
  end.

Definition build_polling_key (topic cid : string) (queue_id : Z) : string :=
  topic +:+ SPLIT +:+ cid +:+ SPLIT +:+ pretty queue_id.

(** ** [ExtraInfoUtil] *)
Definition KEY_SEPARATOR : string := " ".
Definition NORMAL_TOPIC : string := "0".
Definition RETRY_TOPIC : string := "1".
Definition RETRY_TOPIC_V2 : string := "2".
Definition QUEUE_OFFSET : string := "qo".

(** The two errors of [RocketmqError] the component answers. *)
Inductive RocketmqError :=
| IllegalArgument (msg : string)
| IllegalArgumentError (msg : string).

Abbreviation result A := (RocketmqError + A)%type.
Definition bind {A B} (m : result A) (k : A → result B) : result B :=
  match m with inl e => inl e | inr a => k a end.
Definition ok_or {A} (o : option A) (e : RocketmqError) : result A :=
  match o with Some a => inr a | None => inl e end.

Definition split (extra_info : string) : list string := split_char Byte.x20 extra_info.

(** The test on the number of parts, and the part. *)
Definition part (what : string) (i : nat) (strs : list string) : result string :=
  match strs !! i with
  | Some s => inr s
  | None =>
      inl (IllegalArgument (what +:+ " fail, extraInfoStrs length " +:+ pretty (length strs)))
  end.

Definition get_ck_queue_offset (strs : list string) : result Z :=
  bind (part "getCkQueueOffset" 0 strs)
    (λ s, ok_or (parse_i64 s) (IllegalArgument "parse ck_queue_offset error")).
Definition get_pop_time (strs : list string) : result Z :=
  bind (part "getPopTime" 1 strs)
    (λ s, ok_or (parse_i64 s) (IllegalArgument "parse pop_time error")).
Definition get_invisible_time (strs : list string) : result Z :=
  bind (part "getInvisibleTime" 2 strs)
    (λ s, ok_or (parse_i64 s) (IllegalArgument "parse invisible_time error")).
Definition get_revive_qid (strs : list string) : result Z :=
  bind (part "getReviveQid" 3 strs)
    (λ s, ok_or (parse_i32 s) (IllegalArgument "parse revive_qid error")).
Definition get_real_topic (strs : list string) (topic cid : string) : result string :=
  bind (part "getRealTopic" 4 strs) (λ s,
    inr (if decide (s = RETRY_TOPIC) then build_pop_retry_topic_v1 topic cid
         else if decide (s = RETRY_TOPIC_V2) then build_pop_retry_topic_v2 topic cid
         else topic)).
Definition get_real_topic_with_retry (topic cid retry : string) : result string :=
  if decide (retry = NORMAL_TOPIC) then inr topic
  else if decide (retry = RETRY_TOPIC) then inr (build_pop_retry_topic_v1 topic cid)
  else if decide (retry = RETRY_TOPIC_V2) then inr (build_pop_retry_topic_v2 topic cid)
  else inl (IllegalArgument "getRetry fail, format is wrong").
Definition get_retry (strs : list string) : result string := part "getRetry" 4 strs.
Definition get_broker_name (strs : list string) : result string := part "getBrokerName" 5 strs.
Definition get_queue_id (strs : list string) : result Z :=
  bind (part "getQueueId" 6 strs)
    (λ s, ok_or (parse_i32 s) (IllegalArgument "parse queue_id error")).
Definition get_queue_offset (strs : list string) : result Z :=
  bind (part "getQueueOffset" 7 strs)
    (λ s, ok_or (parse_i64 s) (IllegalArgument "parse queue_offset error")).

Definition is_order (strs : list string) : bool :=
  match get_revive_qid strs with
  | inr q => q =? POP_ORDER_REVIVE_QUEUE
  | inl _ => 0 =? POP_ORDER_REVIVE_QUEUE
  end.

Definition get_retry_from_topic (topic : string) : string :=
  if is_pop_retry_topic_v2 topic then RETRY_TOPIC_V2
  else if String.prefix RETRY_GROUP_TOPIC_PREFIX topic then RETRY_TOPIC
  else NORMAL_TOPIC.
Definition get_retry_from_topic_pop_ck (topic : string) (pop_ck : option string)
  : result string :=
  match pop_ck with
  | Some ck => get_retry (split ck)
  | None => inr (get_retry_from_topic topic)
  end.

(** The parts of a receipt, joined by the separator. *)
Fixpoint join (sep : string) (parts : list string) : string :=
  match parts with
  | [] => ""
  | [s] => s
  | s :: parts' => s +:+ sep +:+ join sep parts'
  end.

Definition build_extra_info (ck_queue_offset pop_time invisible_time revive_qid : Z)
    (topic broker_name : string) (queue_id : Z) : string :=
  join KEY_SEPARATOR
    [pretty ck_queue_offset; pretty pop_time; pretty invisible_time; pretty revive_qid;
     get_retry_from_topic topic; broker_name; pretty queue_id].
Definition build_extra_info_with_offset
    (ck_queue_offset pop_time invisible_time revive_qid : Z)
    (topic broker_name : string) (queue_id msg_queue_offset : Z) : string :=
  join KEY_SEPARATOR
    [pretty ck_queue_offset; pretty pop_time; pretty invisible_time; pretty revive_qid;
     get_retry_from_topic topic; broker_name; pretty queue_id; pretty msg_queue_offset].

(** *** The per-queue lists: entries of three parts, separated by semicolons *)

(** What a builder appends to the text. *)
Definition append_entry (sb flag key value : string) : string :=
  (if decide (sb = "") then sb else sb +:+ ";") +:+
  flag +:+ KEY_SEPARATOR +:+ key +:+ KEY_SEPARATOR +:+ value.

Definition build_start_offset_info (sb topic : string) (queue_id start_offset : Z) : string :=
  append_entry sb (get_retry_from_topic topic) (pretty queue_id) (pretty start_offset).
Definition build_queue_id_order_count_info (sb topic : string) (queue_id order_count : Z)
  : string :=
  append_entry sb (get_retry_from_topic topic) (pretty queue_id) (pretty order_count).

Definition get_queue_offset_key_value_key (queue_id queue_offset : Z) : string :=
  QUEUE_OFFSET +:+ pretty queue_id +:+ "%" +:+ pretty queue_offset.
Definition build_queue_offset_order_count_info (sb topic : string)
    (queue_id queue_offset order_count : Z) : string :=
  append_entry sb (get_retry_from_topic topic)
    (get_queue_offset_key_value_key queue_id queue_offset) (pretty order_count).
(** The loop puts a semicolon after every offset but the last. *)
Definition build_msg_offset_info (sb topic : string) (queue_id : Z) (msg_offsets : list Z)
  : string :=
  append_entry sb (get_retry_from_topic topic) (pretty queue_id)
    (join ";" (pretty <$> msg_offsets)).

Definition get_start_offset_info_map_key (topic : string) (key : Z) : string :=
  get_retry_from_topic topic +:+ "@" +:+ pretty key.
Definition get_start_offset_info_map_key_with_pop_ck (topic : string) (pop_ck : option string)
    (key : Z) : result string :=
  bind (get_retry_from_topic_pop_ck topic pop_ck) (λ r, inr (r +:+ "@" +:+ pretty key)).
Definition get_queue_offset_map_key (topic : string) (queue_id queue_offset : Z) : string :=
  get_retry_from_topic topic +:+ "@" +:+ get_queue_offset_key_value_key queue_id queue_offset.

(** The body of the three parsers: split, check the three parts, refuse a key
    seen before, parse the value. *)
Section Parser.
Context {A : Type} (value : string → result A) (bad_parts duplicate : RocketmqError).

Fixpoint parse_entries (entries : list string) (m : gmap string A) : result (gmap string A) :=
  match entries with
  | [] => inr m
  | one :: entries' =>
      match split_char Byte.x20 one with
      | [flag; k; v] =>
          let key := flag +:+ "@" +:+ k in
          if bool_decide (is_Some (m !! key)) then inl duplicate
          else bind (value v) (λ a, parse_entries entries' (<[key := a]> m))
      | _ => inl bad_parts
      end
  end.

Definition parse_info (info : string) : result (gmap string A) :=
  if decide (info = "") then inr ∅
  else
    let array := if negb (contains_char Byte.x3b info) then [info]
                 else split_char Byte.x3b info in
    parse_entries array ∅.
End Parser.

Definition parse_start_offset_info (start_offset_info : string) : result (gmap string Z) :=
  parse_info (λ v, ok_or (parse_i64 v) (IllegalArgumentError "parse startOffset error"))
    (IllegalArgument ("parse startOffsetInfo error, " +:+ start_offset_info))
    (IllegalArgumentError "parse startOffsetMap error, duplicate") start_offset_info.

Definition parse_order_count_info (order_count_info : string) : result (gmap string Z) :=
  parse_info (λ v, ok_or (parse_i32 v) (IllegalArgumentError "parse orderCountInfo error"))
    (IllegalArgument ("parse orderCountInfo error " +:+ order_count_info))
    (IllegalArgument ("parse orderCountInfo error, duplicate, " +:+ order_count_info))
    order_count_info.

(** The offsets of one queue: split at commas. *)
Fixpoint parse_offsets (vs : list string) : result (list Z) :=
  match vs with
  | [] => inr []
  | v :: vs' =>
      bind (ok_or (parse_i64 v) (IllegalArgumentError "parse msgOffset error")) (λ o,
      bind (parse_offsets vs') (λ os, inr (o :: os)))
  end.
Definition parse_msg_offset_info (msg_offset_info : string) : result (gmap string (list Z)) :=
  parse_info (λ v, parse_offsets (split_char Byte.x2c v))
    (IllegalArgument "parse msgOffsetInfo error")
    (IllegalArgument "parse msgOffsetMap error, duplicate") msg_offset_info.

(** ** Removing keys *)

Lemma lookup_delete_keys {A} (m : gmap string A) (ks : list string) (k : string) :
  foldr delete m ks !! k = if bool_decide (k ∈ ks) then None else m !! k.
Proof.
  induction ks as [| x ks IH]; cbn; [done |].
  destruct (decide (k = x)) as [-> | Hne].
  - rewrite lookup_delete_eq, bool_decide_true; [done | by apply list_elem_of_here].
  - rewrite lookup_delete_ne, IH by done.
    rewrite (bool_decide_ext (k ∈ x :: ks) (k ∈ ks)); [done |]. rewrite elem_of_cons. naive_solver.
Qed.

(** ** Splitting what was joined *)

Lemma split_char_join (c : byte) (sep : string) (parts : list string) :
  str_bytes sep = [c] → parts ≠ [] → Forall (λ s, c ∉ str_bytes s) parts →
  split_char c (join sep parts) = parts.
Proof.
  intros Hs Hne HF. unfold split_char. induction HF as [| s parts Hc HF IH]; [done |].
  destruct parts as [| s' parts].
  - cbn [join]. rewrite split_byte_none by done. cbn [app fmap list_fmap].
    by rewrite bytes_str_bytes.
  - change (join sep (s :: s' :: parts)) with (s +:+ (sep +:+ join sep (s' :: parts))).
    rewrite !str_bytes_app, Hs. cbn [app]. rewrite split_byte_app by done.
    rewrite fmap_cons, IH by done. cbn [app]. by rewrite bytes_str_bytes.
Qed.

Lemma join_bytes (c : byte) (sep : string) (parts : list string) :
  c ∉ str_bytes sep → Forall (λ s, c ∉ str_bytes s) parts → c ∉ str_bytes (join sep parts).
Proof.
  intros Hs HF. induction HF as [| s parts Hc HF IH]; [apply not_elem_of_nil |].
  destruct parts as [| s' parts]; [done |].
  change (join sep (s :: s' :: parts)) with (s +:+ (sep +:+ join sep (s' :: parts))).
  rewrite !str_bytes_app, !not_elem_of_app. auto.
Qed.

(** The separators are no bytes of numbers or of retry flags. *)
Definition separator (c : byte) : Prop := c = Byte.x20 ∨ c = Byte.x3b ∨ c = Byte.x2c.
Lemma pretty_no_separator (c : byte) (z : Z) : separator c → c ∉ str_bytes (pretty z).
Proof. intros [-> | [-> | ->]]; by apply pretty_not_byte. Qed.
Lemma retry_no_separator (c : byte) (t : string) :
  separator c → c ∉ str_bytes (get_retry_from_topic t).
Proof.
  intros Hc. unfold get_retry_from_topic. repeat case_match;
    destruct Hc as [-> | [-> | ->]]; apply (bool_decide_unpack _); by vm_compute.
Qed.
#[export] Hint Resolve pretty_no_separator retry_no_separator : rmq.
Lemma separator_space : separator Byte.x20. Proof. by left. Qed.
Lemma separator_semicolon : separator Byte.x3b. Proof. by right; left. Qed.
Lemma separator_comma : separator Byte.x2c. Proof. by right; right. Qed.
#[export] Hint Resolve separator_space separator_semicolon separator_comma : rmq.

Lemma prefix_retry (s : string) :
  String.prefix RETRY_GROUP_TOPIC_PREFIX (RETRY_GROUP_TOPIC_PREFIX +:+ s) = true.
Proof. destruct s; vm_compute; done. Qed.

(** The flag of a retry topic says which of the two forms it has, unless the
    names of the first form hold the separator of the second. *)
Lemma retry_flag (t cid : string) (v2 : bool) :
  (v2 = false → Byte.x2b ∉ str_bytes t ∧ Byte.x2b ∉ str_bytes cid) →
  get_retry_from_topic (build_pop_retry_topic t cid v2) =
    if v2 then RETRY_TOPIC_V2 else RETRY_TOPIC.
Proof.
  intros Hv. unfold get_retry_from_topic, is_pop_retry_topic_v2.
  assert (String.prefix RETRY_GROUP_TOPIC_PREFIX (build_pop_retry_topic t cid v2) = true) as ->.
  { destruct v2; apply prefix_retry. }
  cbn [andb]. unfold contains_char. destruct v2.
  - rewrite bool_decide_true; [done |]. cbn [build_pop_retry_topic].
    unfold build_pop_retry_topic_v2. rewrite !str_bytes_app. apply elem_of_app; right.
    apply elem_of_app; right. apply elem_of_app; left. by apply list_elem_of_here.
  - destruct (Hv eq_refl) as [Ht Hc]. rewrite bool_decide_false; [done |].
    cbn [build_pop_retry_topic]. unfold build_pop_retry_topic_v1.
    rewrite !str_bytes_app, !not_elem_of_app. split_and!; try done;
      apply (bool_decide_unpack _); by vm_compute.
Qed.

(** ** Receipts *)

(** The numbers of a receipt at their widths, and a broker name without the
    separator. *)
Record receipt_ok (ck_queue_offset pop_time invisible_time revive_qid : Z)
    (broker_name : string) (queue_id msg_queue_offset : Z) : Prop := {
  rc_ck : in_s 64 ck_queue_offset;
  rc_pop : in_s 64 pop_time;
  rc_invisible : in_s 64 invisible_time;
  rc_qid : in_s 32 revive_qid;
  rc_broker : Byte.x20 ∉ str_bytes broker_name;
  rc_queue : in_s 32 queue_id;
  rc_offset : in_s 64 msg_queue_offset;
}.

Lemma split_receipt (ck pt it rq : Z) (topic broker : string) (q off : Z) :
  Byte.x20 ∉ str_bytes broker →
  split (build_extra_info_with_offset ck pt it rq topic broker q off) =
    [pretty ck; pretty pt; pretty it; pretty rq; get_retry_from_topic topic; broker;
     pretty q; pretty off].
Proof.
  intros Hb. apply split_char_join; [done | done |].
  repeat (apply Forall_cons; split; [eauto with rmq |]). by apply Forall_nil.
Qed.

(** A receipt is read back field by field, the flag of a topic or of a retry
    topic gives that topic again, and the order flag is the test on the revive
    queue. *)
Theorem extra_info_roundtrip (ck pt it rq : Z) (t cid broker : string) (q off : Z) (v2 : bool) :
  receipt_ok ck pt it rq broker q off →
  (v2 = false → Byte.x2b ∉ str_bytes t ∧ Byte.x2b ∉ str_bytes cid) →
  String.prefix RETRY_GROUP_TOPIC_PREFIX t = false →
  ∀ topic, topic = t ∨ topic = build_pop_retry_topic t cid v2 →
  let strs := split (build_extra_info_with_offset ck pt it rq topic broker q off) in
  get_ck_queue_offset strs = inr ck ∧ get_pop_time strs = inr pt ∧
  get_invisible_time strs = inr it ∧ get_revive_qid strs = inr rq ∧
  get_broker_name strs = inr broker ∧ get_queue_id strs = inr q ∧
  get_queue_offset strs = inr off ∧ get_real_topic strs t cid = inr topic ∧
  is_order strs = (rq =? POP_ORDER_REVIVE_QUEUE).
Proof.
  intros [] Hv Ht topic Htopic strs. subst strs. rewrite split_receipt by done.
  unfold is_order, get_ck_queue_offset, get_pop_time, get_invisible_time, get_revive_qid,
    get_broker_name, get_queue_id, get_queue_offset, get_real_topic, part. cbn [lookup list_lookup bind].
  rewrite !parse_i64_pretty, !parse_i32_pretty by done. cbn [ok_or bind].
  split_and!; try done. f_equal. destruct Htopic as [-> | ->].
  - unfold get_retry_from_topic, is_pop_retry_topic_v2. rewrite Ht. by cbn.
  - rewrite retry_flag by done. by destruct v2.
Qed.
Lemma extra_info_roundtrip_witness :
  let strs := split (build_extra_info_with_offset 100 1700000000000 60000 999
                       (build_pop_retry_topic "orders" "billing" true) "broker-a" 3 104) in
  get_real_topic strs "orders" "billing" = inr "%RETRY%billing+orders" ∧ is_order strs = true.
Proof.
  assert (receipt_ok 100 1700000000000 60000 999 "broker-a" 3 104) as Hr.
  { constructor; try in_range. apply (bool_decide_unpack _). by vm_compute. }
  destruct (extra_info_roundtrip 100 1700000000000 60000 999 "orders" "billing" "broker-a" 3 104
    true Hr ltac:(done) eq_refl _ (or_intror eq_refl)) as (_ & _ & _ & _ & _ & _ & _ & H & H').
  split; [exact H | exact H'].
Defined.

(** A retry topic of the first form whose group holds a plus sign is taken for
    one of the second form, and the receipt then names another topic. *)
Example retry_flag_confused :
  get_real_topic
    (split (build_extra_info 1 2 3 4 (build_pop_retry_topic "orders" "a+b" false) "broker" 0))
    "orders" "a+b" = inr "%RETRY%a+b+orders" ∧
  build_pop_retry_topic "orders" "a+b" false = "%RETRY%a+b_orders".
Proof. by vm_compute. Qed.

(** ** Retry topics *)

Lemma is_char_boundary_app (a b : buffer) :
  match b with [] => True | c :: _ => byte.unsigned c < 128 ∨ 192 ≤ byte.unsigned c end →
  is_char_boundary (a ++ b) (length a) = true.
Proof.
  intros Hb. unfold is_char_boundary. rewrite lookup_app_r, Nat.sub_diag by lia.
  destruct b as [| c b]; cbn.
  - rewrite app_nil_r. apply Nat.eqb_refl.
  - apply orb_true_iff. right. apply negb_true_iff, andb_false_iff.
    destruct Hb; [left | right]; lia.
Qed.

(** The consumer of a retry topic, of either form, finds the topic again. *)
Theorem normal_topic_roundtrip (t cid : string) (v2 : bool) :
  match str_bytes t with [] => True | c :: _ => byte.unsigned c < 128 ∨ 192 ≤ byte.unsigned c end →
  parse_normal_topic (build_pop_retry_topic t cid v2) cid = Done t.
Proof.
  intros Hb. unfold parse_normal_topic.
  replace (String.prefix RETRY_GROUP_TOPIC_PREFIX (build_pop_retry_topic t cid v2)) with true
    by (destruct v2; symmetry; apply prefix_retry).
  set (n := (str_len _ + _ + 1)%nat).
  cut (slice_from (build_pop_retry_topic t cid v2) n = Done t).
  { intros ->. by destruct (String.prefix _ _). }
  assert (∃ c, str_bytes (build_pop_retry_topic t cid v2) =
    (str_bytes RETRY_GROUP_TOPIC_PREFIX ++ str_bytes cid ++ [c]) ++ str_bytes t) as [c E].
  { destruct v2; eexists; unfold build_pop_retry_topic, build_pop_retry_topic_v1,
      build_pop_retry_topic_v2; rewrite !str_bytes_app, <- !(assoc_L (++)); reflexivity. }
  unfold slice_from. rewrite E.
  replace n with (length (str_bytes RETRY_GROUP_TOPIC_PREFIX ++ str_bytes cid ++ [c]))
    by (rewrite !length_app; subst n; unfold str_len; cbn [length]; lia).
  rewrite is_char_boundary_app, drop_app_length by done. by rewrite bytes_str_bytes.
Qed.
Lemma normal_topic_roundtrip_witness :
  parse_normal_topic (build_pop_retry_topic "orders" "billing" true) "billing" = Done "orders".
Proof. apply (normal_topic_roundtrip "orders" "billing" true). vm_compute. by left. Defined.

Lemma find_sub_absent (a : byte) (sep s : buffer) :
  a ∉ s → find_sub (a :: sep) s = None.
Proof.
  intros Ha. induction s as [| b s IH]; [done |]. apply not_elem_of_cons in Ha as [Hab Ha].
  cbn [find_sub starts_with]. rewrite bool_decide_false by done. cbn. by rewrite IH.
Qed.

(** Without a group to skip, the second form is never taken apart: the text it
    is split at, a backslash and a plus sign, is in no retry topic. *)
Theorem retry_topic_not_split (t cid : string) :
  Byte.x5c ∉ str_bytes t → Byte.x5c ∉ str_bytes cid →
  match str_bytes cid with [] => True | c :: _ => byte.unsigned c < 128 ∨ 192 ≤ byte.unsigned c end →
  parse_normal_topic_default (build_pop_retry_topic_v2 t cid) = build_pop_retry_topic_v2 t cid ∧
  parse_group (build_pop_retry_topic_v2 t cid) =
    Done (cid +:+ POP_RETRY_SEPARATOR_V2 +:+ t).
Proof.
  intros Ht Hc Hb.
  assert (split_text POP_RETRY_REGEX_SEPARATOR_V2 (build_pop_retry_topic_v2 t cid) =
    [build_pop_retry_topic_v2 t cid]) as E.
  { unfold split_text. change (str_bytes POP_RETRY_REGEX_SEPARATOR_V2) with [Byte.x5c; Byte.x2b].
    assert (Byte.x5c ∉ str_bytes (build_pop_retry_topic_v2 t cid)) as Hn.
    { unfold build_pop_retry_topic_v2. rewrite !str_bytes_app, !not_elem_of_app.
      split_and!; try done; apply (bool_decide_unpack _); by vm_compute. }
    destruct (length _) as [| n]; cbn [split_sub]; [| rewrite find_sub_absent by done];
      cbn [fmap list_fmap]; by rewrite bytes_str_bytes. }
  unfold parse_normal_topic_default, parse_group. rewrite E.
  split; [by destruct (is_pop_retry_topic_v2 _) |].
  replace (if is_pop_retry_topic_v2 _ then _ else _) with
    (slice_from (build_pop_retry_topic_v2 t cid) (str_len RETRY_GROUP_TOPIC_PREFIX))
    by (by destruct (is_pop_retry_topic_v2 _)).
  unfold slice_from, build_pop_retry_topic_v2, str_len. rewrite str_bytes_app.
  rewrite is_char_boundary_app, drop_app_length; [by rewrite bytes_str_bytes |].
  rewrite str_bytes_app. destruct (str_bytes cid); [by left | done].
Qed.
Lemma retry_topic_not_split_witness :
  parse_group (build_pop_retry_topic_v2 "orders" "billing") = Done "billing+orders".
Proof.
  refine (proj2 (retry_topic_not_split "orders" "billing" _ _ _));
    [apply (bool_decide_unpack _); by vm_compute.. | vm_compute; by left].
Defined.

(** ** The per-queue lists *)

Definition entry (e : string * string * string) : string :=
  join KEY_SEPARATOR [e.1.1; e.1.2; e.2].
Definition entry_key (e : string * string * string) : string := e.1.1 +:+ "@" +:+ e.1.2.
(** No part holds a space or a semicolon. *)
Definition entry_ok (e : string * string * string) : Prop :=
  ∀ s, s ∈ [e.1.1; e.1.2; e.2] → Byte.x20 ∉ str_bytes s ∧ Byte.x3b ∉ str_bytes s.

Lemma split_entry (e : string * string * string) :
  entry_ok e → split_char Byte.x20 (entry e) = [e.1.1; e.1.2; e.2].
Proof.
  intros He. apply split_char_join; [done | done |].
  apply Forall_forall. intros s Hs. by apply He.
Qed.
Lemma entry_no_semicolon (e : string * string * string) :
  entry_ok e → Byte.x3b ∉ str_bytes (entry e).
Proof.
  intros He. apply join_bytes; [apply (bool_decide_unpack _); by vm_compute |].
  apply Forall_forall. intros s Hs. by apply He.
Qed.
Lemma string_app_assoc (a b c : string) : (a +:+ b) +:+ c = a +:+ (b +:+ c).
Proof. induction a as [| x a IH]; [done |]. exact (f_equal (String x) IH). Qed.

Lemma app_nonempty (a b c : string) : b ≠ "" → a +:+ (b +:+ c) ≠ "".
Proof. intros Hb H. destruct a, b; done. Qed.

(** Appending entry by entry is joining. *)
Lemma append_entries (es : list (string * string * string)) (sb : string) :
  foldl (λ sb e, append_entry sb e.1.1 e.1.2 e.2) sb es =
    match es with
    | [] => sb
    | _ => (if decide (sb = "") then sb else sb +:+ ";") +:+ join ";" (entry <$> es)
    end.
Proof.
  revert sb. induction es as [| e es IH]; intros sb; [done |]. cbn [foldl]. rewrite IH.
  assert (append_entry sb e.1.1 e.1.2 e.2 =
    (if decide (sb = "") then sb else sb +:+ ";") +:+ entry e) as ->; [done |].
  destruct es as [| e' es]; [done |].
  rewrite decide_False.
  - rewrite !string_app_assoc. done.
  - unfold entry, KEY_SEPARATOR. cbn [join].
    rewrite <- string_app_assoc. by apply app_nonempty.
Qed.

Section ParserSpec.
Context {A : Type} (value : string → result A) (bad_parts duplicate : RocketmqError).
Implicit Types (e : string * string * string) (vs : list A).

Lemma parse_entries_spec (es : list (string * string * string)) (vs : list A) (m : gmap string A) :
  Forall entry_ok es → Forall2 (λ e v, value e.2 = inr v) es vs →
  NoDup (entry_key <$> es) → (∀ e, e ∈ es → m !! entry_key e = None) →
  parse_entries value bad_parts duplicate (entry <$> es) m =
    inr (list_to_map (zip (entry_key <$> es) vs) ∪ m).
Proof.
  intros HF Hv. revert m. induction Hv as [| e v es vs Hev Hv IH]; intros m Hnd Hm.
  - cbn. by rewrite (left_id_L ∅ (∪)).
  - apply Forall_cons in HF as [He HF]. apply NoDup_cons in Hnd as [Hni Hnd].
    cbn [fmap list_fmap parse_entries]. rewrite split_entry by done. cbv zeta.
    change (e.1.1 +:+ ("@" +:+ e.1.2)) with (entry_key e).
    rewrite bool_decide_false by (rewrite Hm; [by intros [? ?] | apply list_elem_of_here]).
    rewrite Hev. cbn [bind]. fold (entry <$> es). rewrite IH; [| done | done |].
    + f_equal. cbn [zip zip_with list_to_map foldr fst snd]. fold (entry_key <$> es).
      rewrite <- insert_union_l, insert_union_r; [done |].
      apply not_elem_of_list_to_map_1. intros Hin.
      apply list_elem_of_fmap in Hin as [[k x] [Ek Hin]]. cbn in Ek. subst k.
      apply elem_of_zip_l in Hin. done.
    + intros e' He'. rewrite lookup_insert_ne.
      * apply Hm. by apply list_elem_of_further.
      * intros E. apply Hni. rewrite E. apply list_elem_of_fmap_2, He'.
Qed.

(** A text of entries with distinct keys parses to the map of their values. *)
Lemma parse_info_entries (es : list (string * string * string)) (vs : list A) :
  Forall entry_ok es → Forall2 (λ e v, value e.2 = inr v) es vs → NoDup (entry_key <$> es) →
  parse_info value bad_parts duplicate
    (foldl (λ sb e, append_entry sb e.1.1 e.1.2 e.2) "" es) =
    inr (list_to_map (zip (entry_key <$> es) vs)).
Proof.
  intros HF Hv Hnd. rewrite append_entries. unfold parse_info.
  destruct es as [| e es]; [by rewrite decide_True |].
  rewrite (decide_True (P := "" = "")) by done. change ("" +:+ ?s) with s.
  assert (Forall (λ s, Byte.x3b ∉ str_bytes s) (entry <$> e :: es)) as Hsc.
  { apply Forall_fmap. eapply Forall_impl; [exact HF | apply entry_no_semicolon]. }
  rewrite decide_False; [| by destruct e as [[[] ?] ?], es].
  assert ((if negb (contains_char Byte.x3b (join ";" (entry <$> e :: es)))
           then [join ";" (entry <$> e :: es)]
           else split_char Byte.x3b (join ";" (entry <$> e :: es))) = entry <$> e :: es) as ->.
  { rewrite split_char_join by done. destruct es as [| e' es].
    - by destruct (negb _).
    - unfold contains_char. rewrite bool_decide_true; [done |].
      change (join ";" (entry <$> e :: e' :: es))
        with (entry e +:+ (";" +:+ join ";" (entry <$> e' :: es))).
      rewrite !str_bytes_app. apply elem_of_app. right. by apply list_elem_of_here. }
  rewrite parse_entries_spec with (vs := vs); [| done.. |].
  - by rewrite (right_id_L ∅ (∪)).
  - intros e' _. apply lookup_empty.
Qed.
End ParserSpec.

Lemma entry_ok_parts (topic key : string) (v : Z) :
  Byte.x20 ∉ str_bytes key → Byte.x3b ∉ str_bytes key →
  entry_ok (get_retry_from_topic topic, key, pretty v).
Proof.
  intros H1 H2 s Hs. cbn [fst snd] in Hs.
  apply elem_of_cons in Hs as [-> | Hs]; [split; auto with rmq |].
  apply elem_of_cons in Hs as [-> | Hs]; [done |].
  apply list_elem_of_singleton in Hs as ->. split; auto with rmq.
Qed.

(** *** Start offsets *)

Definition start_key (x : string * Z * Z) : string := get_start_offset_info_map_key x.1.1 x.1.2.
Definition build_start_offsets (xs : list (string * Z * Z)) : string :=
  foldl (λ sb x, build_start_offset_info sb x.1.1 x.1.2 x.2) "" xs.

(** The start offsets of queues with distinct keys are read back. *)
Theorem start_offset_info_roundtrip (xs : list (string * Z * Z)) :
  NoDup (start_key <$> xs) → Forall (λ x, in_s 64 x.2) xs →
  parse_start_offset_info (build_start_offsets xs) =
    inr (list_to_map (zip (start_key <$> xs) xs.*2)).
Proof.
  intros Hnd HF. unfold parse_start_offset_info, build_start_offsets.
  set (f := λ x : string * Z * Z, (get_retry_from_topic x.1.1, pretty x.1.2, pretty x.2)).
  assert (foldl (λ sb x, build_start_offset_info sb x.1.1 x.1.2 x.2) "" xs =
          foldl (λ sb e, append_entry sb e.1.1 e.1.2 e.2) "" (f <$> xs)) as ->.
  { generalize "". induction xs as [| x xs IH]; intros sb; [done |]. cbn.
    apply IH; [by apply NoDup_cons in Hnd as [_ ?] | by apply Forall_cons in HF as [_ ?]]. }
  assert (entry_key <$> (f <$> xs) = start_key <$> xs) as <-.
  { rewrite <- list_fmap_compose. by apply list_fmap_ext. }
  apply parse_info_entries.
  - apply Forall_fmap, Forall_true. intros x. apply entry_ok_parts; auto with rmq.
  - clear Hnd. induction HF as [| x xs Hx HF IH]; constructor; [| exact IH].
    cbn. by rewrite parse_i64_pretty.
  - rewrite <- list_fmap_compose.
    by rewrite (list_fmap_ext _ start_key).
Qed.
Lemma start_offset_info_roundtrip_witness :
  build_start_offsets [("orders", 0, 12); ("%RETRY%g+orders", 0, 7)] = "0 0 12;2 0 7" ∧
  parse_start_offset_info (build_start_offsets [("orders", 0, 12); ("%RETRY%g+orders", 0, 7)]) =
    inr (list_to_map [("0@0", 12); ("2@0", 7)]).
Proof.
  split; [by vm_compute |].
  apply (start_offset_info_roundtrip [("orders", 0, 12); ("%RETRY%g+orders", 0, 7)]);
    [apply (bool_decide_unpack _); by vm_compute |].
  repeat (apply Forall_cons_2; [cbn; in_range |]). apply Forall_nil_2.
Defined.

(** *** Message offsets *)

Lemma parse_offsets_pretty (os : list Z) :
  Forall (in_s 64) os → parse_offsets (pretty <$> os) = inr os.
Proof.
  intros HF. induction HF as [| o os Ho HF IH]; [done |]. cbn [fmap list_fmap parse_offsets].
  rewrite parse_i64_pretty by done. cbn [ok_or bind]. fold (pretty <$> os). by rewrite IH.
Qed.

(** The builder separates the offsets of one queue with semicolons and the
    parser expects commas: one offset is read back, and the text of a queue
    with two or more is refused. *)
Theorem msg_offset_info_parse (topic : string) (queue_id o : Z) (os : list Z) :
  Forall (in_s 64) (o :: os) →
  parse_msg_offset_info (build_msg_offset_info "" topic queue_id (o :: os)) =
    if decide (os = []) then inr {[ get_start_offset_info_map_key topic queue_id := [o] ]}
    else inl (IllegalArgument "parse msgOffsetInfo error").
Proof.
  intros HF. set (e := (get_retry_from_topic topic, pretty queue_id, pretty o)).
  assert (entry_ok e) as He by (apply entry_ok_parts; auto with rmq).
  assert (parse_offsets (split_char Byte.x2c (pretty o)) = inr [o]) as Ho.
  { change (pretty o) with (join "," (pretty <$> [o])).
    rewrite split_char_join; [| done | done |].
    - apply parse_offsets_pretty. by apply Forall_cons in HF as [? _]; constructor.
    - repeat constructor. auto with rmq. }
  destruct os as [| o' os].
  - rewrite decide_True by done.
    refine (parse_info_entries _ _ _ [e] [[o]] _ _ (NoDup_singleton _)).
    + by apply Forall_singleton.
    + by apply Forall2_cons; split; [| apply Forall2_nil].
  - rewrite decide_False by done. unfold parse_msg_offset_info, parse_info.
    assert (build_msg_offset_info "" topic queue_id (o :: o' :: os) =
            join ";" (entry e :: (pretty <$> o' :: os))) as ->.
    { unfold build_msg_offset_info, append_entry, entry, KEY_SEPARATOR. rewrite decide_True by done.
      cbn [fmap list_fmap join]. subst e. cbn [fst snd]. by rewrite !string_app_assoc. }
    rewrite decide_False by (subst e; by destruct (get_retry_from_topic topic)).
    rewrite split_char_join.
    + unfold contains_char. rewrite bool_decide_true.
      * cbn [negb parse_entries]. rewrite split_entry by done. subst e. cbn [fst snd].
        rewrite bool_decide_false by (rewrite lookup_empty; by intros [? ?]).
        rewrite Ho. cbn [bind fmap list_fmap parse_entries].
        change (pretty o') with (join " " [pretty o']).
        rewrite split_char_join; [done | done | done | repeat constructor; auto with rmq].
      * cbn [fmap list_fmap join]. rewrite !str_bytes_app. apply elem_of_app. right.
        by apply list_elem_of_here.
    + done.
    + done.
    + constructor; [by apply entry_no_semicolon |]. apply Forall_fmap, Forall_true.
      intros z. cbn. auto with rmq.
Qed.
Lemma msg_offset_info_parse_witness :
  parse_msg_offset_info (build_msg_offset_info "" "orders" 3 [100; 101]) =
    inl (IllegalArgument "parse msgOffsetInfo error").
Proof.
  apply (msg_offset_info_parse "orders" 3 100 [101]).
  repeat (apply Forall_cons_2; [in_range |]). apply Forall_nil_2.
Defined.
