(* ===== verification/PopCheckPoint.v ===== *)
(** * PopCheckPoint: checkpoints, acknowledgements and queue locks of POP
    ([pop_check_point.rs], [ack_msg.rs], [batch_ack_msg.rs] of
    [rocketmq-store], [data_converter.rs] of [rocketmq-common], the message
    builders and the queue locks of [pop_message_processor.rs])

    A checkpoint remembers the messages of one POP: they start at an offset of
    a queue, and either follow it without gaps or stand at recorded distances
    from it.  An acknowledgement names an offset; the checkpoint keeps one bit
    per message. *)

From stdpp Require Import base gmap list strings pretty.
From Stdlib Require Import ZArith Lia.
From S2P Require Import Prelude Bytes Message Properties FileName MessageExtEncoder PopInfo.
Open Scope Z_scope.
Open Scope rmq_scope.

(** ** [DataConverter] *)
Definition bit_of (index : Z) : Z := as_i32 (Z.shiftl 1 index).
(** Both functions assert [index < 32]. *)
Definition set_bit (value index : Z) (flag : bool) : outcome Z :=
  if index <? 32 then
    Done (if flag then Z.lor value (bit_of index) else Z.land value (Z.lnot (bit_of index)))
  else Panic.
Definition get_bit (value index : Z) : outcome bool :=
  if index <? 32 then Done (negb (Z.land value (bit_of index) =? 0)) else Panic.

(** ** [PopCheckPoint] *)
Record PopCheckPoint := mkCk {
  ck_start_offset : Z;
  ck_pop_time : Z;
  ck_invisible_time : Z;
  ck_bit_map : Z;
  ck_num : Z;
  ck_queue_id : Z;
  ck_topic : string;
  ck_cid : string;
  ck_revive_offset : Z;
  ck_queue_offset_diff : list Z;
  ck_broker_name : option string;
  ck_re_put_times : option string;
}.

Definition add_diff (diff : Z) (ck : PopCheckPoint) : PopCheckPoint :=
  mkCk (ck_start_offset ck) (ck_pop_time ck) (ck_invisible_time ck) (ck_bit_map ck) (ck_num ck)
    (ck_queue_id ck) (ck_topic ck) (ck_cid ck) (ck_revive_offset ck)
    (ck_queue_offset_diff ck ++ [diff]) (ck_broker_name ck) (ck_re_put_times ck).

Definition index_of_ack (ck : PopCheckPoint) (ack_offset : Z) : Z :=
  if ack_offset <? ck_start_offset ck then -1
  else
    let distance := as_i64 (ack_offset - ck_start_offset ck) in
    match ck_queue_offset_diff ck with
    | [] => if distance <? ck_num ck then as_i32 distance else -1
    | diffs =>
        let index := as_usize distance in
        if Z.of_nat (length diffs) <=? index then -1
        else default (-1) (diffs !! Z.to_nat index)
    end.

(** [index] is a [u8]; the slice access panics past the end. *)
Definition ack_offset_by_index (ck : PopCheckPoint) (index : Z) : outcome Z :=
  match ck_queue_offset_diff ck with
  | [] => Done (as_i64 (ck_start_offset ck + index))
  | diffs =>
      let* d := unwrap (diffs !! Z.to_nat index) in
      Done (as_i64 (ck_start_offset ck + d))
  end.

Definition parse_re_put_times (ck : PopCheckPoint) : Z :=
  match ck_re_put_times ck with
  | None => 0
  | Some s => default (2 ^ 31 - 1) (parse_i32 s)
  end.

Definition get_revive_time (ck : PopCheckPoint) : Z :=
  as_i64 (ck_pop_time ck + ck_invisible_time ck).

(** The order of checkpoints is that of their start offsets. *)
Definition ck_cmp (a b : PopCheckPoint) : comparison :=
  Z.compare (ck_start_offset a) (ck_start_offset b).

(** ** Acknowledgements *)
Record AckMsg := mkAck {
  ack_offset : Z;
  ack_start_offset : Z;
  ack_consumer_group : string;
  ack_topic : string;
  ack_queue_id : Z;
  ack_pop_time : Z;
  ack_broker_name : string;
}.
Record BatchAckMsg := mkBatchAck {
  batch_ack_msg : AckMsg;
  ack_offset_list : list Z;
}.
(** [&dyn AckMessage]: the two implementations; the fields are those of the
    inner message. *)
Inductive AckMessage := SingleAck (m : AckMsg) | BatchAck (m : BatchAckMsg).
Definition ack_inner (a : AckMessage) : AckMsg :=
  match a with SingleAck m => m | BatchAck b => batch_ack_msg b end.

(** ** Messages of the revive topic *)

(** [{:?}] of a list of integers. *)
Definition debug_list (zs : list Z) : string := "[" +:+ join ", " (pretty <$> zs) +:+ "]".

Definition gen_ack_unique_id (a : AckMsg) : string :=
  ack_topic a +:+ SPLIT +:+ pretty (ack_queue_id a) +:+ SPLIT +:+ pretty (ack_offset a) +:+
  SPLIT +:+ ack_consumer_group a +:+ SPLIT +:+ pretty (ack_pop_time a) +:+ SPLIT +:+
  ack_broker_name a +:+ SPLIT +:+ ACK_TAG.
Definition gen_batch_ack_unique_id (b : BatchAckMsg) : string :=
  let a := batch_ack_msg b in
  ack_topic a +:+ SPLIT +:+ pretty (ack_queue_id a) +:+ SPLIT +:+
  debug_list (ack_offset_list b) +:+ SPLIT +:+ ack_consumer_group a +:+ SPLIT +:+
  pretty (ack_pop_time a) +:+ SPLIT +:+ BATCH_ACK_TAG.
Definition gen_ck_unique_id (ck : PopCheckPoint) : string :=
  ck_topic ck +:+ SPLIT +:+ pretty (ck_queue_id ck) +:+ SPLIT +:+ pretty (ck_start_offset ck) +:+
  SPLIT +:+ ck_cid ck +:+ SPLIT +:+ pretty (ck_pop_time ck) +:+ SPLIT +:+
  default "null" (ck_broker_name ck) +:+ SPLIT +:+ CK_TAG.

(** JSON of the three bodies (serde), the iteration order of a property map,
    and the address of the broker. *)
Record PopCodec := mkPopCodec {
  ck_to_json : PopCheckPoint → option buffer;
  ack_to_json : AckMsg → option buffer;
  batch_ack_to_json : BatchAckMsg → option buffer;
  property_order : gmap string string → list (string * string);
  pop_store_host : SocketAddr;
}.

(** A default message with what every builder sets: topic, body, queue, tags,
    birth, hosts, delay and unique key. *)
Definition revive_msg (cd : PopCodec) (revive_topic : string) (body_json : buffer)
    (revive_qid : Z) (tags : string) (born delay : Z) (unique_id : string)
  : MessageExtBrokerInner :=
  let props := <["UNIQ_KEY" := unique_id]>
    (<["TIMER_DELAY_MS" := pretty (as_u64 delay)]> (<["TAGS" := tags]> ∅)) in
  mkBrokerInner
    (mkMessageExt (mkMessage revive_topic 0 props (Some body_json) None None) "" revive_qid 0 0 0
       born (pop_store_host cd) 0 (pop_store_host cd) "" 0 0 0 0)
    (message_properties_to_string (property_order cd props)) 0 None false V1.

Definition build_ck_msg (cd : PopCodec) (born : Z) (ck : PopCheckPoint) (revive_qid : Z)
    (revive_topic : string) : outcome MessageExtBrokerInner :=
  let* body := unwrap (ck_to_json cd ck) in
  Done (revive_msg cd revive_topic body revive_qid CK_TAG born
          (as_i64 (get_revive_time ck - ACK_TIME_INTERVAL)) (gen_ck_unique_id ck)).

(** ** [QueueLockManager] *)
Record TimedLock := mkTimedLock { lock_held : bool; lock_time : Z }.
Abbreviation queue_locks := (gmap string TimedLock).

Definition new_timed_lock (now : Z) : TimedLock := mkTimedLock false now.
Definition timed_try_lock (now : Z) (l : TimedLock) : TimedLock * bool :=
  if lock_held l then (l, false) else (mkTimedLock true now, true).

Definition build_lock_key (topic consumer_group : string) (queue_id : Z) : string :=
  topic +:+ SPLIT +:+ consumer_group +:+ SPLIT +:+ pretty queue_id.

(** [created] and [now] are the two readings of the clock. *)
Definition try_lock_with_key (created now : Z) (key : string) (ls : queue_locks)
  : queue_locks * bool :=
  match ls !! key with
  | Some l => let '(l', ok) := timed_try_lock now l in (<[key := l']> ls, ok)
  | None =>
      let '(l', ok) := timed_try_lock now (new_timed_lock created) in (<[key := l']> ls, ok)
  end.
Definition unlock_with_key (key : string) (ls : queue_locks) : queue_locks :=
  match ls !! key with
  | Some l => <[key := mkTimedLock false (lock_time l)]> ls
  | None => ls
  end.
Definition queue_try_lock (created now : Z) (topic consumer_group : string) (queue_id : Z)
    (ls : queue_locks) : queue_locks * bool :=
  try_lock_with_key created now (build_lock_key topic consumer_group queue_id) ls.
Definition queue_unlock (topic consumer_group : string) (queue_id : Z) (ls : queue_locks)
  : queue_locks :=
  unlock_with_key (build_lock_key topic consumer_group queue_id) ls.
(** One reading of the clock per lock in the source; here one for the call. *)
Definition clean_unused_locks (now used_expire_millis : Z) (ls : queue_locks)
  : queue_locks * Z :=
  (filter (λ kl, as_u64 (now - lock_time kl.2) ≤ used_expire_millis) ls,
   Z.of_nat (size ls)).

(** ** Bits *)

(** A 32-bit word: above bit 31 it repeats its sign. *)
Lemma in_s32_shiftr (v : Z) : in_s 32 v ↔ Z.shiftr v 31 = 0 ∨ Z.shiftr v 31 = -1.
Proof.
  rewrite Z.shiftr_div_pow2 by lia. unfold in_s. simpl Z.sub.
  pose proof (Z.div_mod v (2 ^ 31) ltac:(lia)). pose proof (Z.mod_pos_bound v (2 ^ 31) ltac:(lia)).
  split; intros Hv; [assert (v / 2 ^ 31 = 0 ∨ v / 2 ^ 31 = -1); nia |].
  destruct Hv as [Hv | Hv]; rewrite Hv in *; lia.
Qed.
Lemma in_s32_testbit (v n : Z) : in_s 32 v → 31 ≤ n → Z.testbit v n = Z.testbit v 31.
Proof.
  intros Hv Hn. apply in_s32_shiftr in Hv.
  replace n with (n - 31 + 31) by lia. change 31 with (0 + 31) at 3.
  rewrite <- !Z.shiftr_spec by lia. destruct Hv as [-> | ->]; [by rewrite !Z.bits_0 |].
  by rewrite !Z.bits_m1 by lia.
Qed.
Lemma in_s32_lor (a b : Z) : in_s 32 a → in_s 32 b → in_s 32 (Z.lor a b).
Proof.
  rewrite !in_s32_shiftr, Z.shiftr_lor. intros [-> | ->] [-> | ->]; auto.
Qed.
Lemma bit_of_range (index : Z) : in_s 32 (bit_of index).
Proof. by apply wrap_s_range. Qed.

Lemma bit_of_testbit (index n : Z) :
  0 ≤ index < 32 → 0 ≤ n < 32 → Z.testbit (bit_of index) n = bool_decide (n = index).
Proof.
  intros Hx Hi. unfold bit_of. rewrite Z.shiftl_1_l. unfold as_i32, wrap_s.
  destruct (decide (index = 31)) as [-> | H31].
  - change ((2 ^ 31 + 2 ^ (32 - 1)) mod 2 ^ 32 - 2 ^ (32 - 1)) with (- 2 ^ 31).
    rewrite Z.bits_opp by lia. change (Z.pred (2 ^ 31)) with (Z.ones 31).
    rewrite Z.testbit_ones_nonneg by lia.
    destruct (decide (n = 31)) as [-> | Hn];
      [by rewrite bool_decide_true | rewrite bool_decide_false by done].
    apply negb_false_iff, Z.ltb_lt. lia.
  - assert (2 ^ index ≤ 2 ^ 30) by (apply Z.pow_le_mono_r; lia).
    assert (0 < 2 ^ index) by (apply Z.pow_pos_nonneg; lia).
    replace ((2 ^ index + 2 ^ (32 - 1)) mod 2 ^ 32 - 2 ^ (32 - 1)) with (2 ^ index)
      by (rewrite Z.mod_small; simpl Z.pow in *; simpl Z.sub in *; lia).
    rewrite Z.pow2_bits_eqb by lia. rewrite Z.eqb_sym.
    destruct (Z.eqb_spec n index); [by rewrite bool_decide_true | by rewrite bool_decide_false].
Qed.

Lemma get_bit_spec (value index : Z) :
  in_s 32 value → 0 ≤ index < 32 → get_bit value index = Done (Z.testbit value index).
Proof.
  intros Hv Hi. unfold get_bit. rewrite (proj2 (Z.ltb_lt _ _)) by lia. f_equal.
  destruct (Z.testbit value index) eqn:E.
  - apply negb_true_iff, Z.eqb_neq. intros H0.
    apply (f_equal (λ z, Z.testbit z index)) in H0.
    rewrite Z.land_spec, E, bit_of_testbit, bool_decide_true, Z.bits_0 in H0 by done. done.
  - apply negb_false_iff, Z.eqb_eq. apply Z.bits_inj_iff'. intros n Hn.
    rewrite Z.land_spec, Z.bits_0.
    destruct (decide (n < 32)) as [Hlt | Hge].
    + rewrite bit_of_testbit by lia. case_bool_decide; subst; [by rewrite E | apply andb_false_r].
    + rewrite (in_s32_testbit value), (in_s32_testbit (bit_of index)), bit_of_testbit
        by (done || lia || apply bit_of_range).
      case_bool_decide; subst; [by rewrite E | apply andb_false_r].
Qed.

(** Setting a bit keeps the word at its width, sets that bit and no other. *)
Lemma set_bit_spec (value index : Z) :
  in_s 32 value → 0 ≤ index < 32 →
  ∃ v', set_bit value index true = Done v' ∧ in_s 32 v' ∧
        ∀ i, 0 ≤ i < 32 → Z.testbit v' i = Z.testbit value i || bool_decide (i = index).
Proof.
  intros Hv Hi. unfold set_bit. rewrite (proj2 (Z.ltb_lt _ _)) by lia. eexists. split; [done |].
  split; [apply in_s32_lor; [done | apply bit_of_range] |].
  intros i Hx. by rewrite Z.lor_spec, bit_of_testbit.
Qed.

(** ** Acknowledged offsets *)

(** The offsets at recorded distances of a checkpoint without gaps. *)
Definition contiguous (ck : PopCheckPoint) : Prop :=
  ck_queue_offset_diff ck = [] ∨
  ck_queue_offset_diff ck = seqZ 0 (Z.of_nat (length (ck_queue_offset_diff ck))).

(** The messages a checkpoint stands for. *)
Definition ck_covers (ck : PopCheckPoint) (i : Z) : Prop :=
  0 ≤ i < match ck_queue_offset_diff ck with
          | [] => ck_num ck
          | diffs => Z.of_nat (length diffs)
          end.

(** For messages without gaps, the offset of a message and its bit determine
    each other, and an offset outside the checkpoint has no bit. *)
Theorem ack_index_roundtrip (ck : PopCheckPoint) :
  contiguous ck → in_u 8 (ck_num ck) → 0 ≤ ck_start_offset ck →
  (Z.of_nat (length (ck_queue_offset_diff ck)) ≤ 255) →
  ck_start_offset ck + 255 < 2 ^ 63 →
  (∀ i, ck_covers ck i →
     ack_offset_by_index ck i = Done (ck_start_offset ck + i) ∧
     index_of_ack ck (ck_start_offset ck + i) = i) ∧
  ∀ o, in_s 64 o → ¬ ck_covers ck (o - ck_start_offset ck) → index_of_ack ck o = -1.
Proof.
  intros Hc Hn Hs Hl Hmax. unfold ck_covers, ack_offset_by_index, index_of_ack.
  destruct (ck_queue_offset_diff ck) as [| d ds] eqn:Ed.
  - split.
    + intros i Hi. rewrite as_i64_id by in_range. split; [done |].
      rewrite (proj2 (Z.ltb_ge _ _)) by lia.
      replace (ck_start_offset ck + i - ck_start_offset ck) with i by lia.
      rewrite as_i64_id by in_range. rewrite (proj2 (Z.ltb_lt _ _)) by lia.
      apply as_i32_id. in_range.
    + intros o Ho Hout. destruct (Z.ltb_spec o (ck_start_offset ck)); [done |].
      rewrite as_i64_id by in_range. by rewrite (proj2 (Z.ltb_ge _ _)) by lia.
  - destruct Hc as [Hc | Hc]; [congruence |]. rewrite Ed in Hc.
    set (l := d :: ds) in *. split.
    + intros i Hi.
      assert (l !! Z.to_nat i = Some i) as Hli.
      { apply (f_equal (.!! Z.to_nat i)) in Hc. rewrite Hc. apply lookup_seqZ. lia. }
      rewrite Hli. cbn [unwrap obind]. rewrite as_i64_id by in_range. split; [done |].
      rewrite (proj2 (Z.ltb_ge _ _)) by lia.
      replace (ck_start_offset ck + i - ck_start_offset ck) with i by lia.
      rewrite as_i64_id, as_usize_id by in_range. rewrite (proj2 (Z.leb_gt _ _)) by lia.
      by rewrite Hli.
    + intros o Ho Hout. destruct (Z.ltb_spec o (ck_start_offset ck)); [done |].
      rewrite as_i64_id, as_usize_id by in_range. by rewrite (proj2 (Z.leb_le _ _)) by lia.
Qed.

Definition example_ck (diffs : list Z) : PopCheckPoint :=
  mkCk 10 1000 60000 0 (Z.of_nat (length diffs)) 0 "orders" "billing" 0 diffs (Some "broker-a")
    None.
Lemma ack_index_roundtrip_witness :
  index_of_ack (example_ck [0; 1; 2]) 12 = 2 ∧ index_of_ack (example_ck [0; 1; 2]) 13 = -1.
Proof.
  destruct (ack_index_roundtrip (example_ck [0; 1; 2])) as [H1 H2];
    [right; by vm_compute | cbn; in_range | cbn; lia | cbn; lia | cbn; lia |].
  split; [apply (H1 2); unfold ck_covers; cbn; lia |].
  apply H2; [in_range | unfold ck_covers; cbn; lia].
Defined.

(** With gaps the two functions disagree: of three messages at distances 0, 2
    and 5, the second is acknowledged at the bit 5, which belongs to none of
    them, and the acknowledgement of the third is taken for an invalid one. *)
Example sparse_ack_lost :
  ack_offset_by_index (example_ck [0; 2; 5]) 1 = Done 12 ∧
  index_of_ack (example_ck [0; 2; 5]) 12 = 5 ∧
  ack_offset_by_index (example_ck [0; 2; 5]) 2 = Done 15 ∧
  index_of_ack (example_ck [0; 2; 5]) 15 = -1.
Proof. by vm_compute. Qed.

(** ** Queue locks *)

(** A lock is held by one caller: whoever gets it finds it free, nobody gets
    it until it is given back, and other queues are not touched. *)
Theorem queue_lock_exclusive (created now created' now' : Z) (k : string) (ls ls1 : queue_locks)
    (ok : bool) :
  try_lock_with_key created now k ls = (ls1, ok) →
  (ok = true ↔ ∀ l, ls !! k = Some l → lock_held l = false) ∧
  snd (try_lock_with_key created' now' k ls1) = false ∧
  snd (try_lock_with_key created' now' k (unlock_with_key k ls1)) = true ∧
  ∀ k', k' ≠ k → ls1 !! k' = ls !! k'.
Proof.
  unfold try_lock_with_key, timed_try_lock, unlock_with_key. intros H.
  destruct (ls !! k) as [l |] eqn:E; [destruct (lock_held l) eqn:Hl |]; injection H as <- <-;
    repeat (rewrite ?lookup_insert_eq; cbn); rewrite ?Hl; split_and!; try done;
    try (intros k' Hk; by rewrite lookup_insert_ne); split; try naive_solver.
Qed.
