(* ===== verification/PopBuffer.v ===== *)
(** * PopBuffer: the buffer of checkpoints of POP ([pop_buffer_merge_service.rs])

    The broker keeps the checkpoints of recent POPs in memory and merges the
    acknowledgements into them, so that most are never written.  Each
    checkpoint is shared by a map, by its merge key, and by the queue of its
    consumer queue, in the order of the POPs: the consumer offset moves past
    the checkpoints at the front of the queue that are finished.

    The shared objects ([ArcMut<PopCheckPointWrapper>]) are cells of a store
    [wrappers], and the map and the queues hold their positions.  The clock and
    the bridge to the message store are an interface, [PopWorld]; the queue
    locks and the consumer offsets are those of [PopCheckPoint] and [Offsets].
    A scan visits the entries of the map one by one and the calls of other
    tasks run between the visits: [pop_step]. *)

From stdpp Require Import base gmap list strings pretty.
From Stdlib Require Import ZArith Lia.
From S2P Require Import Prelude Bytes Message MessageExtEncoder AppendCallback CommitLog RouteInfo Rebalance Offsets PopInfo PopCheckPoint.
Open Scope Z_scope.
Open Scope rmq_scope.

(** ** State *)
Record PopCheckPointWrapper := mkWrapper {
  pw_revive_queue_id : Z;
  pw_revive_queue_offset : Z;
  pw_ck : PopCheckPoint;
  pw_bits : Z;
  pw_to_store_bits : Z;
  pw_next_begin_offset : Z;
  pw_lock_key : string;
  pw_merge_key : string;
  pw_just_offset : bool;
  pw_ck_stored : bool;
}.

Definition merge_key_of (topic cid : string) (queue_id start_offset pop_time : Z)
    (broker_name : string) : string :=
  topic +:+ cid +:+ pretty queue_id +:+ pretty start_offset +:+ pretty pop_time +:+ broker_name.

(** The offset in the revive queue is kept in an [AtomicI32]. *)
Definition new_with_offset (revive_queue_id revive_queue_offset : Z) (ck : PopCheckPoint)
    (next_begin_offset : Z) (just_offset : bool) : PopCheckPointWrapper :=
  mkWrapper revive_queue_id (as_i32 revive_queue_offset) ck 0 0 next_begin_offset
    (build_lock_key (ck_topic ck) (ck_cid ck) (ck_queue_id ck))
    (merge_key_of (ck_topic ck) (ck_cid ck) (ck_queue_id ck) (ck_start_offset ck)
       (ck_pop_time ck) (default "" (ck_broker_name ck)))
    just_offset false.
Definition new_wrapper (revive_queue_id revive_queue_offset : Z) (ck : PopCheckPoint)
    (next_begin_offset : Z) : PopCheckPointWrapper :=
  new_with_offset revive_queue_id revive_queue_offset ck next_begin_offset false.

Definition set_stored (revive_queue_offset : Z) (w : PopCheckPointWrapper)
  : PopCheckPointWrapper :=
  mkWrapper (pw_revive_queue_id w) (as_i32 revive_queue_offset) (pw_ck w) (pw_bits w)
    (pw_to_store_bits w) (pw_next_begin_offset w) (pw_lock_key w) (pw_merge_key w)
    (pw_just_offset w) true.
Definition set_bits (b : Z) (w : PopCheckPointWrapper) : PopCheckPointWrapper :=
  mkWrapper (pw_revive_queue_id w) (pw_revive_queue_offset w) (pw_ck w) b
    (pw_to_store_bits w) (pw_next_begin_offset w) (pw_lock_key w) (pw_merge_key w)
    (pw_just_offset w) (pw_ck_stored w).
Definition set_to_store_bits (b : Z) (w : PopCheckPointWrapper) : PopCheckPointWrapper :=
  mkWrapper (pw_revive_queue_id w) (pw_revive_queue_offset w) (pw_ck w) (pw_bits w)
    b (pw_next_begin_offset w) (pw_lock_key w) (pw_merge_key w)
    (pw_just_offset w) (pw_ck_stored w).

Record QueueWithTime := mkQueue { qt_queue : list nat; qt_time : Z }.

Record PopBufferMergeService := mkPopBuffer {
  wrappers : list PopCheckPointWrapper;
  buffer_map : gmap string nat;
  commit_offsets : gmap string QueueWithTime;
  serving : bool;
  pb_counter : Z;
  scan_times : Z;
  master : bool;
}.

(** What the service reads of the broker configuration. *)
Record PopConfig := mkPopConfig {
  enable_pop_buffer_merge : bool;
  pop_ck_stay_buffer_time_out : Z;
  pop_ck_stay_buffer_time : Z;
  pop_ck_max_buffer_size : Z;
  pop_ck_offset_max_queue_size : Z;
  enable_pop_batch_ack : bool;
  enable_slave_acting_master : bool;
  broker_is_slave : bool;
  pop_offset_config : OffsetConfig;
  pop_store_version : Z;
}.

(** The clock and the escape bridge. *)
Class PopWorld (W : Type) := {
  current_millis : W → Z * W;
  put_message_to_specific_queue : MessageExtBrokerInner → W → outcome (PutMessageResult * W);
}.

(** The service and the parts of the broker it changes. *)
Record PopBroker (W : Type) := mkPopBroker {
  pop_service : PopBufferMergeService;
  pop_locks : queue_locks;
  pop_offsets : ConsumerOffsetManager;
  pop_world : W;
}.
Arguments mkPopBroker {W}. Arguments pop_service {W}. Arguments pop_locks {W}.
Arguments pop_offsets {W}. Arguments pop_world {W}.

Definition with_wrappers (ws : list PopCheckPointWrapper) (s : PopBufferMergeService)
  : PopBufferMergeService :=
  mkPopBuffer ws (buffer_map s) (commit_offsets s) (serving s) (pb_counter s) (scan_times s)
    (master s).
Definition with_buffer (b : gmap string nat) (counter : Z) (s : PopBufferMergeService)
  : PopBufferMergeService :=
  mkPopBuffer (wrappers s) b (commit_offsets s) (serving s) counter (scan_times s) (master s).
Definition with_commit_offsets (q : gmap string QueueWithTime) (s : PopBufferMergeService)
  : PopBufferMergeService :=
  mkPopBuffer (wrappers s) (buffer_map s) q (serving s) (pb_counter s) (scan_times s) (master s).
Definition with_serving (b : bool) (s : PopBufferMergeService) : PopBufferMergeService :=
  mkPopBuffer (wrappers s) (buffer_map s) (commit_offsets s) b (pb_counter s) (scan_times s)
    (master s).
Definition with_scan_times (t counter : Z) (s : PopBufferMergeService) : PopBufferMergeService :=
  mkPopBuffer (wrappers s) (buffer_map s) (commit_offsets s) (serving s) counter t (master s).
Definition with_master (b : bool) (s : PopBufferMergeService) : PopBufferMergeService :=
  mkPopBuffer (wrappers s) (buffer_map s) (commit_offsets s) (serving s) (pb_counter s)
    (scan_times s) b.

Definition new_pop_buffer : PopBufferMergeService := mkPopBuffer [] ∅ ∅ true 0 0 false.

(** A new shared object. *)
Definition alloc (w : PopCheckPointWrapper) (s : PopBufferMergeService)
  : nat * PopBufferMergeService :=
  (length (wrappers s), with_wrappers (wrappers s ++ [w]) s).
Definition write (id : nat) (w : PopCheckPointWrapper) (s : PopBufferMergeService)
  : PopBufferMergeService := with_wrappers (<[id := w]> (wrappers s)) s.

(** ** Bits of a checkpoint *)

(** [for i in from..from + n]: stops at the first bit that is not set. *)
Fixpoint all_bits (n : nat) (from bits : Z) : outcome bool :=
  match n with
  | O => Done true
  | S n' =>
      let* b := get_bit bits from in
      if b then all_bits n' (from + 1) bits else Done false
  end.
Definition is_ck_done (w : PopCheckPointWrapper) : outcome bool :=
  all_bits (Z.to_nat (ck_num (pw_ck w))) 0 (pw_bits w).
Definition is_ck_done_for_finish (w : PopCheckPointWrapper) : outcome bool :=
  all_bits (Z.to_nat (ck_num (pw_ck w))) 0 (Z.lxor (pw_bits w) (pw_to_store_bits w)).

(** The test of [scan] and [scan_commit_offset]. *)
Definition ck_finished (w : PopCheckPointWrapper) : outcome bool :=
  if pw_just_offset w && pw_ck_stored w then Done true
  else
    let* d := is_ck_done w in
    if d then Done true
    else
      let* f := is_ck_done_for_finish w in
      Done (f && pw_ck_stored w).

(** [mark_bit_cas]: the loop ends when the bit is set, by itself or another
    task. *)
Definition mark_bit (bits index : Z) : outcome Z :=
  let* b := get_bit bits index in
  if b then Done bits else set_bit bits index true.

Section Service.
Context {W : Type} `{!PopWorld W}.
Variables (cfg : PopConfig) (cd : PopCodec) (revive_topic : string).
Abbreviation broker := (PopBroker W).

Definition set_service (s : PopBufferMergeService) (b : broker) : broker :=
  mkPopBroker s (pop_locks b) (pop_offsets b) (pop_world b).
Definition set_world (w : W) (b : broker) : broker :=
  mkPopBroker (pop_service b) (pop_locks b) (pop_offsets b) w.
Definition read_clock (b : broker) : Z * broker :=
  let '(t, w) := current_millis (pop_world b) in (t, set_world w b).

(** ** Offset queues *)

Definition put_offset_queue (now : Z) (id : nat) (w : PopCheckPointWrapper)
    (s : PopBufferMergeService) : PopBufferMergeService :=
  let q := default (mkQueue [] now) (commit_offsets s !! pw_lock_key w) in
  with_commit_offsets
    (<[pw_lock_key w := mkQueue (qt_queue q ++ [id]) (as_u64 (ck_pop_time (pw_ck w)))]>
       (commit_offsets s)) s.

Definition check_queue_ok (w : PopCheckPointWrapper) (s : PopBufferMergeService) : bool :=
  match commit_offsets s !! pw_lock_key w with
  | None => true
  | Some q => Z.of_nat (length (qt_queue q)) <? pop_ck_offset_max_queue_size cfg
  end.

Definition get_latest_offset (lock_key : string) (s : PopBufferMergeService) : outcome Z :=
  match commit_offsets s !! lock_key with
  | None => Done (-1)
  | Some q =>
      match last (qt_queue q) with
      | None => Done (-1)
      | Some id => let* w := unwrap (wrappers s !! id) in Done (pw_next_begin_offset w)
      end
  end.
Definition get_latest_offset_full (topic group : string) (queue_id : Z)
    (s : PopBufferMergeService) : outcome Z :=
  get_latest_offset (build_polling_key topic group queue_id) s.
Definition clear_offset_queue (lock_key : string) (s : PopBufferMergeService)
  : PopBufferMergeService :=
  with_commit_offsets (delete lock_key (commit_offsets s)) s.
Definition get_offset_total_size (s : PopBufferMergeService) : nat :=
  map_fold (λ _ q n, n + length (qt_queue q))%nat 0%nat (commit_offsets s).

(** ** Writing to the store *)

Definition put_accepted (r : PutMessageResult) : bool :=
  match put_message_status r with
  | StatusPutOk | FlushDiskTimeout | FlushSlaveTimeout | SlaveNotAvailable => true
  | _ => false
  end.

(** The wrapper is stored in place. *)
Definition put_ck_to_store (id : nat) (b : broker) : outcome broker :=
  let* w := unwrap (wrappers (pop_service b) !! id) in
  if 0 <=? pw_revive_queue_offset w then Done b
  else
    let '(born, b) := read_clock b in
    let* msg := build_ck_msg cd born (pw_ck w) (pw_revive_queue_id w) revive_topic in
    let* (r, wd) := put_message_to_specific_queue msg (pop_world b) in
    let b := set_world wd b in
    if negb (put_accepted r) then Done b
    else if remote_put r then Done (set_service (write id (set_stored 0 w) (pop_service b)) b)
    else
      let* a := unwrap (append_message_result r) in
      Done (set_service (write id (set_stored (logics_offset a) w) (pop_service b)) b).

Definition ack_of (w : PopCheckPointWrapper) (off : Z) : AckMsg :=
  let ck := pw_ck w in
  mkAck off (ck_start_offset ck) (ck_cid ck) (ck_topic ck) (ck_queue_id ck) (ck_pop_time ck) "".

Definition put_ack_to_store (w : PopCheckPointWrapper) (index : Z) (b : broker)
  : outcome (bool * broker) :=
  let* off := ack_offset_by_index (pw_ck w) index in
  let a := ack_of w off in
  let* body := unwrap (ack_to_json cd a) in
  let '(born, b) := read_clock b in
  let msg := revive_msg cd revive_topic body (pw_revive_queue_id w) ACK_TAG born
               (get_revive_time (pw_ck w)) (gen_ack_unique_id a) in
  let* (r, wd) := put_message_to_specific_queue msg (pop_world b) in
  Done (put_accepted r, set_world wd b).

Fixpoint offsets_by_index (ck : PopCheckPoint) (idxs : list Z) : outcome (list Z) :=
  match idxs with
  | [] => Done []
  | i :: idxs' =>
      let* o := ack_offset_by_index ck i in
      let* os := offsets_by_index ck idxs' in
      Done (o :: os)
  end.
Definition put_batch_ack_to_store (w : PopCheckPointWrapper) (index_list : list Z) (b : broker)
  : outcome (bool * broker) :=
  let* os := offsets_by_index (pw_ck w) index_list in
  let a := mkBatchAck (ack_of w 0) os in
  let* body := unwrap (batch_ack_to_json cd a) in
  let '(born, b) := read_clock b in
  let msg := revive_msg cd revive_topic body (pw_revive_queue_id w) BATCH_ACK_TAG born
               (get_revive_time (pw_ck w)) (gen_batch_ack_unique_id a) in
  let* (r, wd) := put_message_to_specific_queue msg (pop_world b) in
  Done (put_accepted r, set_world wd b).

(** ** Adding checkpoints *)

Definition insert_wrapper (id : nat) (w : PopCheckPointWrapper) (s : PopBufferMergeService)
  : PopBufferMergeService :=
  with_buffer (<[pw_merge_key w := id]> (buffer_map s)) (as_i32 (pb_counter s + 1)) s.

Definition add_ck (point : PopCheckPoint) (revive_queue_id revive_queue_offset
    next_begin_offset : Z) (b : broker) : bool * broker :=
  if negb (enable_pop_buffer_merge cfg) then (false, b)
  else if negb (serving (pop_service b)) then (false, b)
  else
    let '(now, b) := read_clock b in
    let s := pop_service b in
    if as_i64 (get_revive_time point - as_i64 now)
         <? as_i64 (as_i64 (pop_ck_stay_buffer_time_out cfg) + 1500) then (false, b)
    else if pop_ck_max_buffer_size cfg <? pb_counter s then (false, b)
    else
      let w := new_wrapper revive_queue_id revive_queue_offset point next_begin_offset in
      if negb (check_queue_ok w s) then (false, b)
      else if bool_decide (is_Some (buffer_map s !! pw_merge_key w)) then (false, b)
      else
        let '(created, b) := read_clock b in
        let '(id, s) := alloc w (pop_service b) in
        (true, set_service (insert_wrapper id w (put_offset_queue created id w s)) b).

Definition add_ck_just_offset (point : PopCheckPoint) (revive_queue_id revive_queue_offset
    next_begin_offset : Z) (b : broker) : outcome (bool * broker) :=
  let w := new_with_offset revive_queue_id revive_queue_offset point next_begin_offset true in
  if bool_decide (is_Some (buffer_map (pop_service b) !! pw_merge_key w)) then Done (false, b)
  else
    let '(id, s) := alloc w (pop_service b) in
    let* b := put_ck_to_store id (set_service s b) in
    let '(created, b) := read_clock b in
    Done (true,
      set_service (insert_wrapper id w (put_offset_queue created id w (pop_service b))) b).

(** [i64::MAX] as the offset in the revive queue. *)
Definition add_ck_mock (group topic : string) (queue_id start_offset invisible_time pop_time
    revive_queue_id next_begin_offset : Z) (broker_name : string) (b : broker) : broker :=
  let ck := mkCk (as_i64 start_offset) (as_i64 pop_time) (as_i64 invisible_time) 0 0 queue_id
              topic group 0 [] (Some broker_name) None in
  let w := new_with_offset revive_queue_id (2 ^ 63 - 1) ck (as_i64 next_begin_offset) true in
  let w := mkWrapper (pw_revive_queue_id w) (pw_revive_queue_offset w) (pw_ck w) (pw_bits w)
    (pw_to_store_bits w) (pw_next_begin_offset w) (pw_lock_key w) (pw_merge_key w)
    (pw_just_offset w) true in
  let '(created, b) := read_clock b in
  let '(id, s) := alloc w (pop_service b) in
  set_service (put_offset_queue created id w s) b.

(** ** Acknowledgements *)

(** Marks the bits of the offsets that belong to the checkpoint. *)
Fixpoint mark_acks (ck : PopCheckPoint) (offs : list Z) (bits : Z) : outcome Z :=
  match offs with
  | [] => Done bits
  | o :: offs' =>
      let index := index_of_ack ck o in
      if -1 <? index then
        let* bits := mark_bit bits (as_usize index) in mark_acks ck offs' bits
      else mark_acks ck offs' bits
  end.

Definition acked_offsets (a : AckMessage) : list Z :=
  match a with SingleAck m => [ack_offset m] | BatchAck m => ack_offset_list m end.

Definition ack_merge_key (a : AckMessage) : string :=
  let m := ack_inner a in
  merge_key_of (ack_topic m) (ack_consumer_group m) (ack_queue_id m) (ack_start_offset m)
    (ack_pop_time m) (ack_broker_name m).

Definition add_ack (a : AckMessage) (b : broker) : outcome (bool * broker) :=
  if negb (enable_pop_buffer_merge cfg) then Done (false, b)
  else if negb (serving (pop_service b)) then Done (false, b)
  else
    match buffer_map (pop_service b) !! ack_merge_key a with
    | None => Done (false, b)
    | Some id =>
        let* w := unwrap (wrappers (pop_service b) !! id) in
        if pw_just_offset w then Done (false, b)
        else
          let point := pw_ck w in
          let '(now, b) := read_clock b in
          if as_u64 (as_u64 (get_revive_time point) - now)
               <? as_u64 (pop_ck_stay_buffer_time_out cfg + 1500) then Done (false, b)
          else if as_u64 (pop_ck_stay_buffer_time_out cfg - 1500)
                    <? as_u64 (now - as_u64 (ck_pop_time point)) then Done (false, b)
          else
            let* bits := mark_acks point (acked_offsets a) (pw_bits w) in
            Done (true, set_service (write id (set_bits bits w) (pop_service b)) b)
    end.

(** ** Scanning the buffer *)

(** Acknowledged and not written. *)
Definition to_store (w : PopCheckPointWrapper) (i : Z) : outcome bool :=
  let* a := get_bit (pw_bits w) i in
  if a then let* t := get_bit (pw_to_store_bits w) i in Done (negb t) else Done false.

(** The indices of [from..from + n] to write. *)
Fixpoint batch_indices (n : nat) (from : Z) (w : PopCheckPointWrapper) : outcome (list Z) :=
  match n with
  | O => Done []
  | S n' =>
      let* t := to_store w from in
      let* rest := batch_indices n' (from + 1) w in
      Done (if t then from :: rest else rest)
  end.
Fixpoint mark_indices (idxs : list Z) (bits : Z) : outcome Z :=
  match idxs with
  | [] => Done bits
  | i :: idxs' => let* bits := mark_bit bits i in mark_indices idxs' bits
  end.

Definition store_acks_batch (id : nat) (b : broker) : outcome broker :=
  let* w := unwrap (wrappers (pop_service b) !! id) in
  let* idxs := batch_indices (Z.to_nat (ck_num (pw_ck w))) 0 w in
  match idxs with
  | [] => Done b
  | _ =>
      let* (ok, b) := put_batch_ack_to_store w idxs b in
      if ok then
        let* bits := mark_indices idxs (pw_to_store_bits w) in
        Done (set_service (write id (set_to_store_bits bits w) (pop_service b)) b)
      else Done b
  end.

Fixpoint store_acks_single (n : nat) (from : Z) (id : nat) (b : broker) : outcome broker :=
  match n with
  | O => Done b
  | S n' =>
      let* w := unwrap (wrappers (pop_service b) !! id) in
      let* t := to_store w from in
      let* b :=
        (if t then
           let* (ok, b) := put_ack_to_store w from b in
           if ok then
             let* bits := mark_bit (pw_to_store_bits w) from in
             Done (set_service (write id (set_to_store_bits bits w) (pop_service b)) b)
           else Done b
         else Done b) in
      store_acks_single n' (from + 1) id b
  end.

(** Whether a checkpoint must leave: the service stops, the checkpoint is
    about to time out, or it stayed too long. *)
Definition remove_ck (s : PopBufferMergeService) (w : PopCheckPointWrapper) (now : Z) : bool :=
  negb (serving s) ||
  (as_i64 (get_revive_time (pw_ck w) - as_i64 now) <? as_i64 (pop_ck_stay_buffer_time_out cfg)) ||
  (as_i64 (pop_ck_stay_buffer_time cfg) <? as_i64 (as_i64 now - get_revive_time (pw_ck w))).

Definition count_down (b : broker) : broker :=
  let s := pop_service b in
  set_service (with_buffer (buffer_map s) (as_i32 (pb_counter s - 1)) s) b.

(** One entry of the map: whether its key is to be removed. *)
Definition scan_entry (key : string) (b : broker) : outcome (bool * broker) :=
  match buffer_map (pop_service b) !! key with
  | None => Done (false, b)
  | Some id =>
      let* w := unwrap (wrappers (pop_service b) !! id) in
      let* finished := ck_finished w in
      if finished then Done (true, count_down b)
      else
        let '(now, b) := read_clock b in
        let leave := remove_ck (pop_service b) w now in
        let* d := is_ck_done w in
        if d then Done (false, b)
        else if pw_just_offset w then
          let* b := put_ck_to_store id b in Done (false, b)
        else if leave then
          let* b := put_ck_to_store id b in
          let* w := unwrap (wrappers (pop_service b) !! id) in
          if negb (pw_ck_stored w) then Done (false, b)
          else
            let* b := (if enable_pop_batch_ack cfg then store_acks_batch id b
                       else store_acks_single (Z.to_nat (ck_num (pw_ck w))) 0 id b) in
            let* w := unwrap (wrappers (pop_service b) !! id) in
            let* f := is_ck_done_for_finish w in
            if f && pw_ck_stored w then Done (true, count_down b) else Done (false, b)
        else Done (false, b)
  end.

Fixpoint scan_entries (keys : list string) (b : broker) : outcome (list string * broker) :=
  match keys with
  | [] => Done ([], b)
  | k :: keys' =>
      let* (r, b) := scan_entry k b in
      let* (rs, b) := scan_entries keys' b in
      Done (if r then k :: rs else rs, b)
  end.
Definition remove_keys (keys : list string) (b : broker) : broker :=
  let s := pop_service b in
  set_service (with_buffer (foldr delete (buffer_map s) keys) (pb_counter s) s) b.

(** ** Committing offsets *)

(** The clock is read for a new lock, and when the lock is taken. *)
Definition lock_queue (key : string) (b : broker) : bool * broker :=
  let l := pop_locks b !! key in
  let '(created, b) := match l with None => read_clock b | Some _ => (0, b) end in
  let '(now, b) := if default false (lock_held <$> l) then (0, b) else read_clock b in
  let '(ls, ok) := try_lock_with_key created now key (pop_locks b) in
  (ok, mkPopBroker (pop_service b) ls (pop_offsets b) (pop_world b)).

Definition commit_ck_offset (w : PopCheckPointWrapper) (b : broker) : outcome (bool * broker) :=
  if pw_next_begin_offset w <? 0 then Done (true, b)
  else
    let '(ok, b) := lock_queue (pw_lock_key w) b in
    if negb ok then Done (false, b)
    else
      let ck := pw_ck w in
      let '(t, b) := read_clock b in
      let* om := commit_offset (pop_offset_config cfg) t (pop_store_version cfg) (ck_cid ck)
                   (ck_topic ck) (ck_queue_id ck) (pw_next_begin_offset w) (pop_offsets b) in
      Done (true, mkPopBroker (pop_service b) (unlock_with_key (pw_lock_key w) (pop_locks b)) om
                    (pop_world b)).

(** The front of one queue: whether it was taken off. *)
Definition commit_front (key : string) (b : broker) : outcome (bool * broker) :=
  match commit_offsets (pop_service b) !! key with
  | Some (mkQueue (id :: ids) t) =>
      let* w := unwrap (wrappers (pop_service b) !! id) in
      let* finished := ck_finished w in
      if finished then
        let* (ok, b) := commit_ck_offset w b in
        if ok then
          Done (true, set_service (with_commit_offsets
            (<[key := mkQueue ids t]> (commit_offsets (pop_service b))) (pop_service b)) b)
        else Done (false, b)
      else Done (false, b)
  | _ => Done (false, b)
  end.

(** The loop over one queue takes one element off each time. *)
Fixpoint commit_queue (fuel : nat) (key : string) (b : broker) : outcome broker :=
  match fuel with
  | O => Done b
  | S fuel' =>
      let* (more, b) := commit_front key b in
      if more then commit_queue fuel' key b else Done b
  end.
Definition queue_length (key : string) (s : PopBufferMergeService) : nat :=
  match commit_offsets s !! key with Some q => length (qt_queue q) | None => 0 end.
Fixpoint scan_commit_offset (keys : list string) (b : broker) : outcome broker :=
  match keys with
  | [] => Done b
  | k :: keys' =>
      let* b := commit_queue (queue_length k (pop_service b)) k b in
      scan_commit_offset keys' b
  end.

(** ** Rounds of the service *)

Definition interval : Z := 5.
Definition minute5 : Z := 5 * 60 * 1000.
Definition count_of_minute1 : Z := 60 * 1000 / interval.
Definition count_of_second30 : Z := 30 * 1000 / interval.

(** [keys] and [queues] are the iteration orders of the two maps, [eclipse]
    the time the scan took. *)
Definition scan (keys queues : list string) (eclipse : Z) (b : broker) : outcome broker :=
  let* (rs, b) := scan_entries keys b in
  let* b := scan_commit_offset queues (remove_keys rs b) in
  let s := pop_service b in
  let s := if as_i64 (as_i64 (pop_ck_stay_buffer_time_out cfg) - 1000) <? eclipse
           then with_serving false s else s in
  let times := as_u64 (scan_times s + 1) in
  Done (set_service
    (if count_of_minute1 <=? times then with_scan_times 0 (as_i32 (Z.of_nat (size (buffer_map s)))) s
     else with_scan_times times (pb_counter s) s) b).

(** [topics] and [groups] are the topics and the subscription groups the
    broker knows. *)
Definition contains_subscription_group (groups : gset string) (group : string) : bool :=
  negb (bool_decide (group = "")) && bool_decide (group ∈ groups).
Definition keep_queue (topics groups : gset string) (now : Z) (kq : string * QueueWithTime)
  : bool :=
  match split_char Byte.x40 kq.1 with
  | [topic; cid; _] =>
      if negb (bool_decide (topic ∈ topics)) then false
      else if contains_subscription_group groups cid then false
      else if minute5 <? as_u64 (now - qt_time kq.2) then false
      else true
  | _ => true
  end.
Definition scan_garbage (topics groups : gset string) (now : Z) (s : PopBufferMergeService)
  : PopBufferMergeService :=
  with_commit_offsets (filter (λ kq, keep_queue topics groups now kq = true) (commit_offsets s)) s.

Definition is_should_running (s : PopBufferMergeService) : bool * PopBufferMergeService :=
  if enable_slave_acting_master cfg then (true, s)
  else let m := negb (broker_is_slave cfg) in (m, with_master m s).

(** The body of the loop of [start]. *)
Definition service_round (keys queues : list string) (eclipse : Z) (topics groups : gset string)
    (b : broker) : outcome broker :=
  let '(run, s) := is_should_running (pop_service b) in
  let b := set_service s b in
  if negb run then
    Done (set_service (with_commit_offsets ∅ (with_buffer ∅ (pb_counter s) s)) b)
  else
    let* b := scan keys queues eclipse b in
    let b := if scan_times (pop_service b) mod count_of_second30 =? 0 then
               let '(now, b) := read_clock b in
               set_service (scan_garbage topics groups now (pop_service b)) b
             else b in
    let s := pop_service b in
    Done (if negb (serving s) && bool_decide (buffer_map s = ∅) && (get_offset_total_size s =? 0)%nat
          then set_service (with_serving true s) b else b).
End Service.

(** ** Words of a checkpoint *)

(** Both words are 32 bits wide, there are at most 32 messages, and only
    acknowledged messages are marked as written. *)
Record wok (w : PopCheckPointWrapper) : Prop := {
  wok_bits : in_s 32 (pw_bits w);
  wok_stored : in_s 32 (pw_to_store_bits w);
  wok_num : 0 ≤ ck_num (pw_ck w) ≤ 32;
  wok_sub : ∀ i, 0 ≤ i < 32 → Z.testbit (pw_to_store_bits w) i = true →
                 Z.testbit (pw_bits w) i = true;
  wok_diffs : Forall (in_s 32) (ck_queue_offset_diff (pw_ck w));
}.
(** The message [i] has been acknowledged. *)
Definition acked (w : PopCheckPointWrapper) (i : Z) : bool := Z.testbit (pw_bits w) i.
Definition all_acked (w : PopCheckPointWrapper) : Prop :=
  ∀ i, 0 ≤ i < ck_num (pw_ck w) → acked w i = true.

Lemma all_bits_spec (n : nat) (from bits : Z) :
  in_s 32 bits → 0 ≤ from → from + Z.of_nat n ≤ 32 →
  ∃ r, all_bits n from bits = Done r ∧
       (r = true ↔ ∀ i, from ≤ i < from + Z.of_nat n → Z.testbit bits i = true).
Proof.
  intros Hb. revert from. induction n as [| n IH]; intros from Hf Hn.
  - exists true. split; [done |]. split; [| done]. intros _ i Hi. lia.
  - cbn [all_bits]. rewrite get_bit_spec by (done || lia). cbn [obind].
    destruct (Z.testbit bits from) eqn:E.
    + destruct (IH (from + 1) ltac:(lia) ltac:(lia)) as (r & -> & Hr). exists r. split; [done |].
      rewrite Hr. split; intros H i Hi; [| apply H; lia].
      destruct (decide (i = from)) as [-> |]; [done | apply H; lia].
    + exists false. split; [done |]. split; [done |]. intros H. rewrite H in E by lia. done.
Qed.

(** What the test of the scan amounts to. *)
Definition finished (w : PopCheckPointWrapper) : Prop :=
  (pw_just_offset w = true ∧ pw_ck_stored w = true) ∨ all_acked w.

Lemma ck_done_spec (w : PopCheckPointWrapper) :
  wok w → ∃ r, is_ck_done w = Done r ∧ (r = true ↔ all_acked w).
Proof.
  intros [Hb _ Hn _ _]. unfold is_ck_done.
  destruct (all_bits_spec (Z.to_nat (ck_num (pw_ck w))) 0 (pw_bits w)) as (r & -> & Hr);
    [done | lia | lia |].
  exists r. split; [done |]. rewrite Hr. unfold all_acked, acked.
  split; intros H i Hi; apply H; lia.
Qed.

(** A checkpoint whose acknowledgements differ everywhere from what is
    written is acknowledged everywhere. *)
Lemma done_for_finish_acked (w : PopCheckPointWrapper) :
  wok w → ∃ r, is_ck_done_for_finish w = Done r ∧ (r = true → all_acked w).
Proof.
  intros [Hb Hs Hn Hsub _]. unfold is_ck_done_for_finish.
  assert (in_s 32 (Z.lxor (pw_bits w) (pw_to_store_bits w))) as Hx.
  { apply in_s32_shiftr in Hb, Hs. apply in_s32_shiftr. rewrite Z.shiftr_lxor.
    destruct Hb as [-> | ->], Hs as [-> | ->]; auto. }
  destruct (all_bits_spec (Z.to_nat (ck_num (pw_ck w))) 0 _ Hx) as (r & -> & Hr); [lia | lia |].
  exists r. split; [done |]. intros Hrt i Hi. pose proof (proj1 Hr Hrt i ltac:(lia)) as Hi'.
  rewrite Z.lxor_spec in Hi'. unfold acked.
  destruct (Z.testbit (pw_bits w) i) eqn:Ea, (Z.testbit (pw_to_store_bits w) i) eqn:Et; try done.
  by rewrite Hsub in Ea by (done || lia).
Qed.

Lemma ck_finished_spec (w : PopCheckPointWrapper) :
  wok w → ∃ r, ck_finished w = Done r ∧ (r = true ↔ finished w).
Proof.
  intros Hw. unfold ck_finished, finished.
  destruct (pw_just_offset w && pw_ck_stored w) eqn:Ej.
  { apply andb_true_iff in Ej. exists true. naive_solver. }
  apply andb_false_iff in Ej.
  destruct (ck_done_spec w Hw) as (d & -> & Hd), (done_for_finish_acked w Hw) as (f & -> & Hf).
  cbn [obind]. destruct d; [exists true; naive_solver |].
  exists (f && pw_ck_stored w). split; [done |]. rewrite andb_true_iff. split; [naive_solver |].
  intros [[H1 H2] | Ha]; [destruct Ej; congruence | naive_solver].
Qed.

(** ** How the shared objects evolve *)

(** Bits are only ever added; the rest of a wrapper is fixed, but for the mark
    that it is stored. *)
Record wle (w w' : PopCheckPointWrapper) : Prop := {
  wle_ck : pw_ck w' = pw_ck w;
  wle_next : pw_next_begin_offset w' = pw_next_begin_offset w;
  wle_lock : pw_lock_key w' = pw_lock_key w;
  wle_merge : pw_merge_key w' = pw_merge_key w;
  wle_just : pw_just_offset w' = pw_just_offset w;
  wle_bits : ∀ i, 0 ≤ i < 32 → Z.testbit (pw_bits w) i = true → Z.testbit (pw_bits w') i = true;
  wle_tsb : ∀ i, 0 ≤ i < 32 → Z.testbit (pw_to_store_bits w) i = true →
                 Z.testbit (pw_to_store_bits w') i = true;
  wle_stored : pw_ck_stored w = true → pw_ck_stored w' = true;
}.
#[export] Instance wle_preorder : PreOrder wle.
Proof.
  split; [by intros w; constructor |].
  intros a b c [] []. constructor; try congruence; auto.
Qed.

Lemma finished_mono (w w' : PopCheckPointWrapper) :
  wok w → wle w w' → finished w → finished w'.
Proof.
  intros [_ _ Hn _ _] [Hck _ _ _ Hj Hb _ Hs] [[H1 H2] | Ha].
  - left. split; [congruence | auto].
  - right. intros i Hi. rewrite Hck in Hi. apply Hb; [lia |]. by apply Ha.
Qed.

(** The objects after some calls: those there were, further on, and new ones. *)
Record evolves (s s' : PopBufferMergeService) : Prop := {
  ev_map : buffer_map s' = buffer_map s;
  ev_queues : commit_offsets s' = commit_offsets s;
  ev_length : length (wrappers s') = length (wrappers s);
  ev_wrappers : ∀ id w, wrappers s !! id = Some w →
    ∃ w', wrappers s' !! id = Some w' ∧ wle w w' ∧ (wok w → wok w');
}.
#[export] Instance evolves_preorder : PreOrder evolves.
Proof.
  split.
  - intros s. constructor; try done. intros id w H. by exists w.
  - intros a b c [] []. constructor; try congruence. intros id w Hw.
    destruct (ev_wrappers0 id w Hw) as (w1 & H1 & L1 & O1).
    destruct (ev_wrappers1 id w1 H1) as (w2 & H2 & L2 & O2).
    exists w2. split_and!; [done | by etrans | auto].
Qed.

Lemma evolves_write (id : nat) (w w' : PopCheckPointWrapper) (s : PopBufferMergeService) :
  wrappers s !! id = Some w → wle w w' → (wok w → wok w') → evolves s (write id w' s).
Proof.
  intros Hw Hle Hok. constructor; [done | done | apply length_insert |].
  intros id' v Hv. cbn [write with_wrappers wrappers]. destruct (decide (id' = id)) as [-> | Hne].
  - assert (v = w) as -> by congruence. exists w'.
    rewrite list_lookup_insert_eq by (by eapply lookup_lt_Some). done.
  - exists v. rewrite list_lookup_insert_ne by done. done.
Qed.

(** Marking a bit of either word. *)
Lemma mark_bit_spec (bits index bits' : Z) :
  in_s 32 bits → 0 ≤ index → mark_bit bits index = Done bits' →
  index < 32 ∧ in_s 32 bits' ∧
  ∀ i, 0 ≤ i < 32 → Z.testbit bits' i = Z.testbit bits i || bool_decide (i = index).
Proof.
  intros Hb Hi. unfold mark_bit. destruct (decide (index < 32)) as [Hlt | Hge].
  - rewrite get_bit_spec by (done || lia). cbn [obind].
    destruct (Z.testbit bits index) eqn:E.
    + intros [= <-]. split_and!; [done | done |]. intros i Hx.
      case_bool_decide; subst; [by rewrite E | by rewrite orb_false_r].
    + destruct (set_bit_spec bits index Hb ltac:(lia)) as (v & -> & Hv & Hs).
      intros [= <-]. done.
  - unfold get_bit. rewrite (proj2 (Z.ltb_ge _ _)) by lia. done.
Qed.
Lemma mark_bit_total (bits index : Z) :
  in_s 32 bits → 0 ≤ index < 32 → is_Some (match mark_bit bits index with Done v => Some v | Panic => None end).
Proof.
  intros Hb Hi. unfold mark_bit. rewrite get_bit_spec by done. cbn [obind].
  destruct (Z.testbit bits index); [by eexists |].
  destruct (set_bit_spec bits index Hb Hi) as (v & -> & _). by eexists.
Qed.

(** The indices acknowledged by some offsets. *)
Definition ack_indices (ck : PopCheckPoint) (offs : list Z) : list Z :=
  filter (λ i, -1 < i) (index_of_ack ck <$> offs).

Lemma as_i64_nonneg_usize (z : Z) : 0 ≤ z < 2 ^ 63 → as_usize z = z.
Proof. intros H. apply wrap_u_id. unfold in_u. lia. Qed.

Lemma index_of_ack_range (ck : PopCheckPoint) (o : Z) :
  Forall (in_s 32) (ck_queue_offset_diff ck) → in_s 32 (index_of_ack ck o).
Proof.
  intros HF. unfold index_of_ack.
  destruct (o <? ck_start_offset ck); [in_range |].
  destruct (ck_queue_offset_diff ck) as [| d ds] eqn:E.
  - destruct (_ <? _); [by apply wrap_s_range | in_range].
  - destruct (_ <=? _); [in_range |].
    destruct ((d :: ds) !! _) as [z |] eqn:Ez; cbn; [| in_range].
    rewrite Forall_forall in HF. apply HF. by eapply list_elem_of_lookup_2.
Qed.

Lemma mark_acks_spec (ck : PopCheckPoint) (offs : list Z) (bits bits' : Z) :
  Forall (in_s 32) (ck_queue_offset_diff ck) → in_s 32 bits →
  mark_acks ck offs bits = Done bits' →
  in_s 32 bits' ∧
  ∀ i, 0 ≤ i < 32 →
    Z.testbit bits' i = Z.testbit bits i || bool_decide (i ∈ ack_indices ck offs).
Proof.
  intros HF. revert bits. induction offs as [| o offs IH]; intros bits Hb; cbn [mark_acks].
  { intros [= <-]. split; [done |]. intros i Hi.
    rewrite bool_decide_false by (apply not_elem_of_nil). by rewrite orb_false_r. }
  pose proof (index_of_ack_range ck o HF) as Hr.
  unfold ack_indices. rewrite fmap_cons, filter_cons. fold (ack_indices ck offs).
  destruct (Z.ltb_spec (-1) (index_of_ack ck o)) as [Hpos | Hneg].
  - rewrite decide_True by lia.
    rewrite as_i64_nonneg_usize by in_range. intros (b1 & H1 & H2)%obind_done.
    apply mark_bit_spec in H1 as (Hlt & Hb1 & Hs1); [| done | lia].
    apply IH in H2 as [Hb' Hs2]; [| done]. split; [done |].
    intros i Hi. rewrite Hs2, Hs1 by done. rewrite <- orb_assoc. f_equal.
    rewrite (bool_decide_ext (i ∈ _ :: _) (i = index_of_ack ck o ∨ i ∈ ack_indices ck offs))
      by apply elem_of_cons.
    by rewrite bool_decide_or.
  - rewrite decide_False by lia. intros H. by apply IH in H.
Qed.

Section Steps.
Context {W : Type} `{!PopWorld W}.
Variables (cfg : PopConfig) (cd : PopCodec) (revive_topic : string).
Abbreviation broker := (PopBroker W).
Implicit Types (b : broker) (w : PopCheckPointWrapper) (s : PopBufferMergeService).

Lemma read_clock_service b : pop_service (snd (read_clock b)) = pop_service b.
Proof. unfold read_clock. by destruct (current_millis _). Qed.

Lemma set_stored_evolves (id : nat) (rqo : Z) w s :
  wrappers s !! id = Some w → evolves s (write id (set_stored rqo w) s).
Proof. intros Hw. apply (evolves_write id w); [done | by constructor | intros []; by constructor]. Qed.

Lemma put_ck_to_store_evolves (id : nat) b b' :
  put_ck_to_store cd revive_topic id b = Done b' → evolves (pop_service b) (pop_service b').
Proof.
  unfold put_ck_to_store. destruct (wrappers (pop_service b) !! id) as [w |] eqn:Hw; [| done].
  cbn [unwrap obind]. destruct (_ <=? _); [by intros [= <-] |].
  pose proof (read_clock_service b) as Hc. destruct (read_clock b) as [born b1]. cbn in Hc.
  intros (msg & _ & H)%obind_done. apply obind_done in H as ([r wd] & _ & H).
  cbn [set_world pop_service] in H. rewrite Hc in H.
  destruct (negb _); [injection H as <-; cbn; by rewrite Hc |].
  destruct (remote_put r); [injection H as <-; cbn; by apply set_stored_evolves |].
  apply obind_done in H as (a & _ & [= <-]). cbn. by apply set_stored_evolves.
Qed.

(** A put of acknowledgements does not touch the service. *)
Lemma put_ack_service w (index : Z) b b' (ok : bool) :
  put_ack_to_store cd revive_topic w index b = Done (ok, b') → pop_service b' = pop_service b.
Proof.
  unfold put_ack_to_store. intros (o & _ & H)%obind_done. apply obind_done in H as (body & _ & H).
  pose proof (read_clock_service b) as Hc. destruct (read_clock b) as [born b1]. cbn in Hc.
  apply obind_done in H as ([r wd] & _ & [= <- <-]). done.
Qed.
Lemma put_batch_ack_service w (idxs : list Z) b b' (ok : bool) :
  put_batch_ack_to_store cd revive_topic w idxs b = Done (ok, b') →
  pop_service b' = pop_service b.
Proof.
  unfold put_batch_ack_to_store. intros (o & _ & H)%obind_done.
  apply obind_done in H as (body & _ & H).
  pose proof (read_clock_service b) as Hc. destruct (read_clock b) as [born b1]. cbn in Hc.
  apply obind_done in H as ([r wd] & _ & [= <- <-]). done.
Qed.

Lemma to_store_spec w (i : Z) :
  wok w → 0 ≤ i < 32 →
  to_store w i = Done (Z.testbit (pw_bits w) i && negb (Z.testbit (pw_to_store_bits w) i)).
Proof.
  intros [] Hi. unfold to_store. rewrite !get_bit_spec by done. cbn [obind].
  by destruct (Z.testbit (pw_bits w) i).
Qed.

(** Marking acknowledged bits as written. *)
Lemma mark_stored_wle w (bits : Z) :
  (∀ i, 0 ≤ i < 32 → Z.testbit (pw_to_store_bits w) i = true → Z.testbit bits i = true) →
  wle w (set_to_store_bits bits w).
Proof. intros Hsub. by constructor. Qed.
Lemma mark_stored_wok w (bits : Z) :
  in_s 32 bits → (∀ i, 0 ≤ i < 32 → Z.testbit bits i = true → acked w i = true) →
  wok w → wok (set_to_store_bits bits w).
Proof. intros Hb Ha []. by constructor. Qed.

Definition all_wok s : Prop := Forall wok (wrappers s).

Lemma all_wok_lookup s (id : nat) w : all_wok s → wrappers s !! id = Some w → wok w.
Proof. intros H Hw. unfold all_wok in H. rewrite Forall_lookup in H. eauto. Qed.
Lemma evolves_all_wok s s' : evolves s s' → all_wok s → all_wok s'.
Proof.
  intros [_ _ Hl Hw] Hok. apply Forall_lookup. intros id w' Hw'.
  destruct (lookup_lt_is_Some_2 (wrappers s) id) as [w Hs].
  { rewrite <- Hl. by eapply lookup_lt_Some. }
  destruct (Hw id w Hs) as (w1 & H1 & _ & O1). assert (w1 = w') as -> by congruence.
  apply O1. by eapply all_wok_lookup.
Qed.

Lemma store_ack_evolves (id : nat) w (i bits : Z) s :
  wok w → wrappers s !! id = Some w → 0 ≤ i < 32 → acked w i = true →
  mark_bit (pw_to_store_bits w) i = Done bits →
  evolves s (write id (set_to_store_bits bits w) s).
Proof.
  intros Hok Hw Hi Ha Hm. apply mark_bit_spec in Hm as (_ & Hb & Hs); [| apply Hok | lia].
  apply (evolves_write id w); [done | |].
  - apply mark_stored_wle. intros j Hj Hj'. by rewrite Hs, Hj'.
  - intros _. apply mark_stored_wok; [done | | done]. intros j Hj.
    rewrite Hs by done. intros [Hj' | <-%bool_decide_eq_true]%orb_true_iff; [| done].
    by apply Hok.
Qed.

Lemma store_acks_single_evolves (n : nat) (from : Z) (id : nat) b b' :
  all_wok (pop_service b) → 0 ≤ from → from + Z.of_nat n ≤ 32 →
  store_acks_single cd revive_topic n from id b = Done b' →
  evolves (pop_service b) (pop_service b').
Proof.
  revert from b. induction n as [| n IH]; intros from b Hok Hf Hn; cbn [store_acks_single].
  { by intros [= <-]. }
  destruct (wrappers (pop_service b) !! id) as [w |] eqn:Hw; [| done]. cbn [unwrap obind].
  pose proof (all_wok_lookup _ _ _ Hok Hw) as Hwok.
  rewrite to_store_spec by (done || lia). cbn [obind].
  intros (b1 & H1 & H2)%obind_done.
  assert (evolves (pop_service b) (pop_service b1)) as Hev.
  { destruct (_ && _) eqn:Et; [| by injection H1 as <-].
    apply andb_true_iff in Et as [Ea _].
    apply obind_done in H1 as ([ok b2] & Hput & H1). apply put_ack_service in Hput.
    destruct ok; [| injection H1 as <-; by rewrite Hput].
    apply obind_done in H1 as (bits & Hm & [= <-]). cbn. rewrite Hput.
    eapply store_ack_evolves; eauto. lia. }
  etrans; [exact Hev |]. eapply IH; [by eapply evolves_all_wok | | | exact H2]; lia.
Qed.

Lemma batch_indices_spec w (n : nat) (from : Z) :
  wok w → 0 ≤ from → from + Z.of_nat n ≤ 32 →
  ∃ idxs, batch_indices n from w = Done idxs ∧
    ∀ i, i ∈ idxs ↔ from ≤ i < from + Z.of_nat n ∧ acked w i = true ∧
                    Z.testbit (pw_to_store_bits w) i = false.
Proof.
  intros Hok. revert from. induction n as [| n IH]; intros from Hf Hn; cbn [batch_indices].
  { exists []. split; [done |]. intros i. rewrite elem_of_nil. lia. }
  rewrite to_store_spec by (done || lia). cbn [obind].
  destruct (IH (from + 1) ltac:(lia) ltac:(lia)) as (idxs & -> & Hi). cbn [obind].
  eexists. split; [done |]. intros i. unfold acked in *.
  destruct (Z.testbit (pw_bits w) from) eqn:Ea, (Z.testbit (pw_to_store_bits w) from) eqn:Et;
    cbn [andb negb]; rewrite ?elem_of_cons, Hi;
    destruct (decide (i = from)) as [-> |]; rewrite ?Ea, ?Et; naive_solver lia.
Qed.

Lemma mark_indices_spec (idxs : list Z) (bits : Z) :
  in_s 32 bits → Forall (λ i, 0 ≤ i < 32) idxs →
  ∃ bits', mark_indices idxs bits = Done bits' ∧ in_s 32 bits' ∧
    ∀ i, 0 ≤ i < 32 → Z.testbit bits' i = Z.testbit bits i || bool_decide (i ∈ idxs).
Proof.
  intros Hb HF. revert bits Hb. induction HF as [| x idxs Hx HF IH]; intros bits Hb.
  { exists bits. split_and!; [done | done |]. intros i Hi.
    rewrite bool_decide_false by apply not_elem_of_nil. by rewrite orb_false_r. }
  cbn [mark_indices]. destruct (mark_bit bits x) as [b1 |] eqn:Hm.
  2:{ destruct (mark_bit_total bits x Hb Hx) as [v Hv]. by rewrite Hm in Hv. }
  apply mark_bit_spec in Hm as (_ & Hb1 & Hs1); [| done | lia]. cbn [obind].
  destruct (IH b1 Hb1) as (b2 & -> & Hb2 & Hs2). exists b2. split_and!; [done | done |].
  intros i Hi. rewrite Hs2, Hs1 by done. rewrite <- orb_assoc. f_equal.
  rewrite (bool_decide_ext (i ∈ _ :: _) (i = x ∨ i ∈ idxs)) by apply elem_of_cons.
  by rewrite bool_decide_or.
Qed.

Lemma store_acks_batch_evolves (id : nat) b b' :
  all_wok (pop_service b) → store_acks_batch cd revive_topic id b = Done b' →
  evolves (pop_service b) (pop_service b').
Proof.
  intros Hok. unfold store_acks_batch.
  destruct (wrappers (pop_service b) !! id) as [w |] eqn:Hw; [| done]. cbn [unwrap obind].
  pose proof (all_wok_lookup _ _ _ Hok Hw) as Hwok.
  destruct (batch_indices_spec w (Z.to_nat (ck_num (pw_ck w))) 0 Hwok) as (idxs & -> & Hi);
    [lia | destruct Hwok; lia |]. cbn [obind].
  destruct idxs as [| x idxs]; [by intros [= <-] |]. set (l := x :: idxs) in *.
  intros ([ok b2] & Hput & H)%obind_done. apply put_batch_ack_service in Hput.
  destruct ok; [| injection H as <-; by rewrite Hput].
  destruct (mark_indices_spec l (pw_to_store_bits w)) as (bits & Hm & Hb & Hs).
  { apply Hwok. }
  { apply Forall_forall. intros i Hin. apply Hi in Hin. destruct Hwok. lia. }
  rewrite Hm in H. injection H as <-. cbn. rewrite Hput.
  apply (evolves_write id w); [done | |].
  - apply mark_stored_wle. intros j Hj Hj'. by rewrite Hs, Hj'.
  - intros _. apply mark_stored_wok; [done | | done]. intros j Hj. rewrite Hs by done.
    intros [Hj' | Hj'%bool_decide_eq_true]%orb_true_iff; [by apply Hwok | by apply Hi].
Qed.

Lemma add_ack_evolves (a : AckMessage) b b' (r : bool) :
  all_wok (pop_service b) → add_ack cfg a b = Done (r, b') →
  evolves (pop_service b) (pop_service b').
Proof.
  intros Hok. unfold add_ack. destruct (negb _); [by intros [= <- <-] |].
  destruct (negb _); [by intros [= <- <-] |].
  destruct (buffer_map _ !! _) as [id |]; [| by intros [= <- <-]].
  destruct (wrappers (pop_service b) !! id) as [w |] eqn:Hw; [| done]. cbn [unwrap obind].
  destruct (pw_just_offset w); [by intros [= <- <-] |].
  pose proof (read_clock_service b) as Hc. destruct (read_clock b) as [now b1]. cbn in Hc.
  destruct (_ <? _); [intros [= <- <-]; by rewrite Hc |].
  destruct (_ <? _); [intros [= <- <-]; by rewrite Hc |].
  intros (bits & Hm & [= <- <-])%obind_done. cbn. rewrite Hc.
  pose proof (all_wok_lookup _ _ _ Hok Hw) as Hwok.
  apply mark_acks_spec in Hm as [Hb Hs]; [| apply Hwok..].
  apply (evolves_write id w); [done | |].
  - constructor; try done. intros i Hi Hi'. cbn. by rewrite Hs, Hi'.
  - intros []. constructor; try done. intros i Hi Hi'. cbn. rewrite Hs by done.
    by rewrite wok_sub0.
Qed.

Lemma count_down_evolves b : evolves (pop_service b) (pop_service (count_down b)).
Proof. constructor; try done. intros id w Hw. by exists w. Qed.

(** A visit of the scan adds bits and marks, and asks for the removal of
    finished checkpoints only. *)
Lemma scan_entry_spec (k : string) b b' (r : bool) :
  all_wok (pop_service b) → scan_entry cfg cd revive_topic k b = Done (r, b') →
  evolves (pop_service b) (pop_service b') ∧
  (r = true → ∃ id w, buffer_map (pop_service b') !! k = Some id ∧
                      wrappers (pop_service b') !! id = Some w ∧ finished w).
Proof.
  intros Hok. unfold scan_entry.
  destruct (buffer_map (pop_service b) !! k) as [id |] eqn:Hk; [| by intros [= <- <-]].
  destruct (wrappers (pop_service b) !! id) as [w |] eqn:Hw; [| done]. cbn [unwrap obind].
  destruct (ck_finished_spec w (all_wok_lookup _ _ _ Hok Hw)) as (f & -> & Hf). cbn [obind].
  destruct f.
  { intros [= <- <-]. split; [apply count_down_evolves |]. intros _. exists id, w. naive_solver. }
  pose proof (read_clock_service b) as Hc. destruct (read_clock b) as [now b1]. cbn in Hc.
  destruct (is_ck_done w) as [d |]; [| done]. cbn [obind].
  destruct d; [intros [= <- <-]; by rewrite Hc |].
  destruct (pw_just_offset w).
  { intros (b2 & H2 & [= <- <-])%obind_done. apply put_ck_to_store_evolves in H2. by rewrite Hc in H2. }
  destruct (remove_ck cfg (pop_service b1) w now); [| intros [= <- <-]; by rewrite Hc].
  intros (b2 & H2 & H)%obind_done. apply put_ck_to_store_evolves in H2. rewrite Hc in H2.
  pose proof (evolves_all_wok _ _ H2 Hok) as Hok2.
  destruct (wrappers (pop_service b2) !! id) as [w2 |] eqn:Hw2; [| done]. cbn [unwrap obind] in H.
  destruct (negb _); [by injection H as <- <- |].
  apply obind_done in H as (b3 & H3 & H).
  assert (evolves (pop_service b2) (pop_service b3)) as Hev.
  { destruct (enable_pop_batch_ack cfg); [by eapply store_acks_batch_evolves |].
    pose proof (all_wok_lookup _ _ _ Hok2 Hw2) as []. eapply store_acks_single_evolves; eauto; lia. }
  assert (evolves (pop_service b) (pop_service b3)) as Hev' by (by etrans).
  pose proof (evolves_all_wok _ _ Hev' Hok) as Hok3.
  destruct (wrappers (pop_service b3) !! id) as [w3 |] eqn:Hw3; [| done]. cbn [unwrap obind] in H.
  destruct (done_for_finish_acked w3 (all_wok_lookup _ _ _ Hok3 Hw3)) as (f & Ef & Hff).
  rewrite Ef in H. cbn [obind] in H.
  destruct (f && pw_ck_stored w3) eqn:Efs; injection H as <- <-; [| done].
  split; [etrans; [exact Hev' | apply count_down_evolves] |]. intros _.
  exists id, w3. cbn. rewrite (ev_map _ _ Hev'). apply andb_true_iff in Efs as [-> _].
  split_and!; [done | done |]. right. auto.
Qed.
End Steps.
