(* ===== verification/PopRuns.v ===== *)
(** * PopRuns: runs of the POP buffer

    The calls of the POP and ACK processors, the visits of the scan, the commits
    of offsets, the collection of garbage and the clearing of queues, in any
    order: [pop_step].  The invariant says that a checkpoint that is not finished
    (not all of its messages are acknowledged, and it is not one that only
    carries an offset and was stored) is still in the map, where its
    acknowledgements find it, and still in the queue of its consumer queue,
    where it holds back the offset, unless a collection or a clearing took it
    out. *)

From stdpp Require Import base gmap list strings pretty relations sorting.
From Stdlib Require Import ZArith Lia.
From S2P Require Import Prelude Bytes FileName Numerals Message MessageExtEncoder AppendCallback CommitLog RouteInfo Rebalance Offsets PopInfo PopCheckPoint PopBuffer.
Open Scope Z_scope.
Open Scope rmq_scope.

(** A checkpoint as POP builds it: at most 32 messages, 32-bit distances. *)
Definition ck_ok (ck : PopCheckPoint) : Prop :=
  0 ≤ ck_num ck ≤ 32 ∧ Forall (in_s 32) (ck_queue_offset_diff ck).

Section Runs.
Context {W : Type} `{!PopWorld W}.
Variables (cfg : PopConfig) (cd : PopCodec) (revive_topic : string).
Abbreviation broker := (PopBroker W).

(** What a run is known by besides the broker: the keys a scan has collected,
    the objects that were in a queue when it was dropped, and those that were in
    the map when it was cleared. *)
Record history := mkHistory {
  pending : list string;
  dropped_queued : gset nat;
  dropped_buffered : gset nat;
}.
Definition set_pending_keys (p : list string) (h : history) : history :=
  mkHistory p (dropped_queued h) (dropped_buffered h).
Definition drop_queued (ids : gset nat) (h : history) : history :=
  mkHistory (pending h) (dropped_queued h ∪ ids) (dropped_buffered h).
Definition drop_buffered (ids : gset nat) (h : history) : history :=
  mkHistory (pending h) (dropped_queued h) (dropped_buffered h ∪ ids).
(** The objects in queues, and those whose queue is in the first table only. *)
Definition queued_ids (m : gmap string QueueWithTime) : gset nat :=
  list_to_set (concat (qt_queue <$> (map_to_list m).*2)).
Definition lost_ids (m m' : gmap string QueueWithTime) : gset nat :=
  queued_ids (filter (λ kq, m' !! kq.1 = None) m).
Definition buffered_ids (m : gmap string nat) : gset nat := list_to_set (map_to_list m).*2.

(** One call, one visit, the removal of the keys a scan collected, the commit of
    one queue's front, a collection of garbage or a clearing; between them other
    tasks use the locks, the offsets and the store.  The collection and the
    clearing of everything are steps of the task that scans, between scans. *)
Inductive pop_step : history * broker → history * broker → Prop :=
| step_add_ck point rq rqo nbo p b :
    ck_ok point → pop_step (p, b) (p, snd (add_ck cfg point rq rqo nbo b))
| step_add_just_offset point rq rqo nbo p b r b' :
    ck_ok point → add_ck_just_offset cd revive_topic point rq rqo nbo b = Done (r, b') →
    pop_step (p, b) (p, b')
| step_add_mock group topic q so it pt rq nbo bn p b :
    pop_step (p, b) (p, add_ck_mock group topic q so it pt rq nbo bn b)
| step_ack a p b r b' :
    add_ack cfg a b = Done (r, b') → pop_step (p, b) (p, b')
| step_visit k p b r b' :
    scan_entry cfg cd revive_topic k b = Done (r, b') →
    pop_step (p, b) (if r then set_pending_keys (k :: pending p) p else p, b')
| step_remove p b : pop_step (p, b) (set_pending_keys [] p, remove_keys (pending p) b)
| step_commit k p b r b' :
    commit_front cfg k b = Done (r, b') → pop_step (p, b) (p, b')
| step_stop p b (v : bool) :
    pop_step (p, b) (p, set_service (with_serving v (pop_service b)) b)
| step_tick p b (t c : Z) :
    pop_step (p, b) (p, set_service (with_scan_times t c (pop_service b)) b)
| step_garbage topics groups now p b :
    pending p = [] →
    let s := scan_garbage topics groups now (pop_service b) in
    pop_step (p, b)
      (drop_queued (lost_ids (commit_offsets (pop_service b)) (commit_offsets s)) p, set_service s b)
| step_clear_queue k p b :
    let s := clear_offset_queue k (pop_service b) in
    pop_step (p, b)
      (drop_queued (lost_ids (commit_offsets (pop_service b)) (commit_offsets s)) p, set_service s b)
| step_clear_all p b :
    pending p = [] →
    let s := pop_service b in
    pop_step (p, b)
      (drop_buffered (buffered_ids (buffer_map s)) (drop_queued (queued_ids (commit_offsets s)) p),
       set_service (with_commit_offsets ∅ (with_buffer ∅ (pb_counter s) s)) b)
| step_master p b (v : bool) :
    pop_step (p, b) (p, set_service (with_master v (pop_service b)) b)
| step_other p b ls om w :
    pop_step (p, b) (p, mkPopBroker (pop_service b) ls om w).

Definition pop_start (ls : queue_locks) (om : ConsumerOffsetManager) (w : W) :=
  (mkHistory [] ∅ ∅, mkPopBroker new_pop_buffer ls om w).
Definition pop_reachable (st : history * broker) : Prop :=
  ∃ ls om w, rtc pop_step (pop_start ls om w) st.

(** The invariant; [eq] and [eb] are objects that need not be in their queue or
    in the map: they are not yet there, or were taken out. *)
Record pop_inv_but (eq eb : nat → Prop) (p : list string) (s : PopBufferMergeService) : Prop := {
  inv_wok : all_wok s;
  inv_map : ∀ k id, buffer_map s !! k = Some id →
    ∃ w, wrappers s !! id = Some w ∧ pw_merge_key w = k;
  inv_queue : ∀ k q id, commit_offsets s !! k = Some q → id ∈ qt_queue q →
    ∃ w, wrappers s !! id = Some w ∧ pw_lock_key w = k;
  inv_sorted : ∀ k q, commit_offsets s !! k = Some q → StronglySorted lt (qt_queue q);
  inv_queued : ∀ id w, wrappers s !! id = Some w → ¬ finished w → ¬ eq id →
    ∃ q, commit_offsets s !! pw_lock_key w = Some q ∧ id ∈ qt_queue q;
  inv_buffered : ∀ id w, wrappers s !! id = Some w → ¬ finished w → ¬ eb id →
    buffer_map s !! pw_merge_key w = Some id;
  inv_pending : ∀ k, k ∈ p → ∃ id w, buffer_map s !! k = Some id ∧
    wrappers s !! id = Some w ∧ finished w;
}.
Definition pop_inv (h : history) : PopBufferMergeService → Prop :=
  pop_inv_but (λ i, i ∈ dropped_queued h) (λ i, i ∈ dropped_buffered h) (pending h).

Lemma evolves_back s s' (id : nat) w' :
  evolves s s' → wrappers s' !! id = Some w' → ∃ w, wrappers s !! id = Some w ∧ wle w w'.
Proof.
  intros [_ _ Hl Hw] Hw'. destruct (lookup_lt_is_Some_2 (wrappers s) id) as [w Hs].
  { rewrite <- Hl. by eapply lookup_lt_Some. }
  destruct (Hw id w Hs) as (w1 & H1 & L1 & O1). exists w.
  assert (w1 = w') as -> by congruence. done.
Qed.
Lemma evolves_unfinished s s' (id : nat) w' :
  all_wok s → evolves s s' → wrappers s' !! id = Some w' → ¬ finished w' →
  ∃ w, wrappers s !! id = Some w ∧ wle w w' ∧ ¬ finished w.
Proof.
  intros Hok Hev Hw' Hf. destruct (evolves_back _ _ _ _ Hev Hw') as (w & Hw & L).
  exists w. split_and!; [done.. |]. intros Hfw. apply Hf.
  eapply finished_mono; [| exact L | exact Hfw]. by eapply all_wok_lookup.
Qed.

Lemma evolves_inv eq eb p s s' :
  evolves s s' → pop_inv_but eq eb p s → pop_inv_but eq eb p s'.
Proof.
  intros Hev [Hok Hm Hq Hs Hqd Hb Hp]. pose proof Hev as [Em Eq _ Ew].
  constructor; rewrite ?Em, ?Eq; try done.
  - by eapply evolves_all_wok.
  - intros k id Hk. destruct (Hm k id Hk) as (w & Hw & <-).
    destruct (Ew id w Hw) as (w' & Hw' & L & _). exists w'. split; [done | apply L].
  - intros k q id Hk Hin. destruct (Hq k q id Hk Hin) as (w & Hw & <-).
    destruct (Ew id w Hw) as (w' & Hw' & L & _). exists w'. split; [done | apply L].
  - intros id w' Hw' Hf. destruct (evolves_unfinished _ _ _ _ Hok Hev Hw' Hf) as (w & Hw & L & Hfw).
    rewrite (wle_lock _ _ L). by apply Hqd.
  - intros id w' Hw' Hf. destruct (evolves_unfinished _ _ _ _ Hok Hev Hw' Hf) as (w & Hw & L & Hfw).
    rewrite (wle_merge _ _ L). by apply Hb.
  - intros k Hk. destruct (Hp k Hk) as (id & w & H1 & H2 & H3).
    destruct (Ew id w H2) as (w' & Hw' & L & _). exists id, w'. split_and!; [done.. |].
    eapply finished_mono; [| exact L | done]. by eapply all_wok_lookup.
Qed.

(** A step that keeps the objects and the two maps keeps the invariant. *)
Lemma same_inv eq eb p s s' :
  wrappers s' = wrappers s → buffer_map s' = buffer_map s →
  commit_offsets s' = commit_offsets s → pop_inv_but eq eb p s → pop_inv_but eq eb p s'.
Proof.
  intros E1 E2 E3. apply evolves_inv. constructor; rewrite ?E1; try done.
  intros id w Hw. by exists w.
Qed.

(** *** A new object *)

Lemma alloc_inv eq eb p s w :
  pop_inv_but eq eb p s → wok w →
  pop_inv_but (λ i, eq i ∨ i = length (wrappers s)) (λ i, eb i ∨ i = length (wrappers s)) p
    (snd (alloc w s)).
Proof.
  intros [Hok Hm Hq Hs Hqd Hb Hp] Hw. cbn [alloc snd].
  assert (∀ i v, (wrappers s ++ [w]) !! i = Some v → i ≠ length (wrappers s) →
    wrappers s !! i = Some v) as Hl.
  { intros i v Hv Hne. apply lookup_app_Some in Hv as [Hv | [Hge Hv]]; [done |].
    apply list_lookup_singleton_Some in Hv as [? _]. lia. }
  constructor; cbn [with_wrappers wrappers buffer_map commit_offsets]; try done.
  - apply Forall_app_2; [done | by apply Forall_singleton].
  - intros k id Hk. destruct (Hm k id Hk) as (v & Hv & E). exists v.
    split; [by apply lookup_app_l_Some | done].
  - intros k q id Hk Hi. destruct (Hq k q id Hk Hi) as (v & Hv & E). exists v.
    split; [by apply lookup_app_l_Some | done].
  - intros id v Hv Hf Hne. apply (Hqd id v); [apply Hl; tauto | done | tauto].
  - intros id v Hv Hf Hne. apply (Hb id v); [apply Hl; tauto | done | tauto].
  - intros k Hk. destruct (Hp k Hk) as (id & v & H1 & H2 & H3). exists id, v.
    split_and!; [done | by apply lookup_app_l_Some | done].
Qed.

(** Into its queue, behind all others. *)
Lemma enqueue_inv eq eb p s (id : nat) w v t :
  pop_inv_but (λ i, eq i ∨ i = id) eb p s → wrappers s !! id = Some v → pw_lock_key v = pw_lock_key w →
  (∀ k q i, commit_offsets s !! k = Some q → i ∈ qt_queue q → (i < id)%nat) →
  pop_inv_but eq eb p (put_offset_queue t id w s).
Proof.
  intros [Hok Hm Hq Hs Hqd Hb Hp] Hv Hlk Hlt.
  set (q0 := default (mkQueue [] t) (commit_offsets s !! pw_lock_key w)).
  assert (∀ i, i ∈ qt_queue q0 → ∃ q, commit_offsets s !! pw_lock_key w = Some q ∧ i ∈ qt_queue q)
    as Hq0.
  { intros i. subst q0. destruct (commit_offsets s !! _) as [q |]; cbn; [by exists q |].
    by intros ?%elem_of_nil. }
  constructor; cbn [put_offset_queue with_commit_offsets wrappers buffer_map commit_offsets];
    fold q0; try done.
  - intros k q i [[<- <-] | [_ Hk]]%lookup_insert_Some Hi; [| by eapply Hq].
    cbn in Hi. apply elem_of_app in Hi as [Hi | Hi%list_elem_of_singleton].
    + destruct (Hq0 i Hi) as (q & Eq & Hi'). by eapply Hq.
    + subst i. by exists v.
  - intros k q [[<- <-] | [_ Hk]]%lookup_insert_Some; [| by eapply Hs]. cbn.
    apply StronglySorted_app_2.
    + intros i j Hi ->%list_elem_of_singleton. destruct (Hq0 i Hi) as (q & Eq & Hi'). by eapply Hlt.
    + subst q0. destruct (commit_offsets s !! _) as [q |] eqn:Eq; cbn; [by eapply Hs | constructor].
    + repeat constructor.
  - intros i u Hu Hf Hx. destruct (decide (i = id)) as [-> | Hne].
    + assert (u = v) as -> by congruence. rewrite Hlk. eexists. rewrite lookup_insert_eq.
      split; [done |]. cbn. apply elem_of_app. right. by apply list_elem_of_singleton.
    + destruct (Hqd i u Hu Hf ltac:(tauto)) as (q & Eq & Hi).
      destruct (decide (pw_lock_key u = pw_lock_key w)) as [E | Hk].
      * rewrite E, lookup_insert_eq. eexists. split; [done |]. cbn. subst q0.
        rewrite <- E, Eq. cbn. apply elem_of_app. by left.
      * rewrite lookup_insert_ne by done. eauto.
Qed.

(** Into the map, under a key of its own. *)
Lemma insert_inv eq eb p s (id : nat) w v :
  pop_inv_but eq (λ i, eb i ∨ i = id) p s → wrappers s !! id = Some v →
  pw_merge_key v = pw_merge_key w → buffer_map s !! pw_merge_key w = None →
  pop_inv_but eq eb p (insert_wrapper id w s).
Proof.
  intros [Hok Hm Hq Hs Hqd Hb Hp] Hv Hmk Hn.
  constructor; cbn [insert_wrapper with_buffer wrappers buffer_map commit_offsets]; try done.
  - intros k i [[<- <-] | [_ Hk]]%lookup_insert_Some; [by exists v | by apply Hm].
  - intros i u Hu Hf Hx. destruct (decide (i = id)) as [-> | Hne].
    + assert (u = v) as -> by congruence. by rewrite Hmk, lookup_insert_eq.
    + pose proof (Hb i u Hu Hf ltac:(tauto)) as E. rewrite lookup_insert_ne; [done | congruence].
  - intros k Hk. destruct (Hp k Hk) as (i & u & H1 & H2 & H3). exists i, u.
    split_and!; [| done | done]. rewrite lookup_insert_ne; [done | congruence].
Qed.

(** *** The calls *)

Lemma queue_ids_old eq eb p s (k : string) (q : QueueWithTime) (i : nat) :
  pop_inv_but eq eb p s → commit_offsets s !! k = Some q → i ∈ qt_queue q → (i < length (wrappers s))%nat.
Proof.
  intros Hinv Hk Hi. destruct (inv_queue _ _ _ _ Hinv k q i Hk Hi) as (w & Hw & _).
  by eapply lookup_lt_Some.
Qed.

Lemma new_wrapper_wok rq rqo ck nbo j : ck_ok ck → wok (new_with_offset rq rqo ck nbo j).
Proof. intros [Hn HF]. constructor; cbn; [in_range.. | | done]. intros i _. by rewrite Z.bits_0. Qed.

(** From the object to its queue, through calls that do not touch the maps. *)
Lemma publish_inv eq eb p s s1 w t :
  pop_inv_but eq eb p s → wok w → evolves (snd (alloc w s)) s1 →
  pop_inv_but eq (λ i, eb i ∨ i = length (wrappers s)) p
    (put_offset_queue t (length (wrappers s)) w s1) ∧
  ∃ v, wrappers s1 !! length (wrappers s) = Some v ∧ wle w v.
Proof.
  intros Hinv Hw Hev. pose proof Hev as [_ Eq _ Ew].
  destruct (Ew (length (wrappers s)) w) as (v & Hv & L & _); [by apply list_lookup_middle |].
  split; [| by exists v]. apply (enqueue_inv _ _ _ _ _ _ v); [| done | apply L |].
  - eapply evolves_inv; [exact Hev | by apply alloc_inv].
  - intros k q i. rewrite Eq. cbn. by eapply queue_ids_old.
Qed.

Lemma add_ck_inv point rq rqo nbo eq eb p b :
  ck_ok point → pop_inv_but eq eb p (pop_service b) →
  pop_inv_but eq eb p (pop_service (snd (add_ck cfg point rq rqo nbo b))).
Proof.
  intros Hck Hinv. unfold add_ck. destruct (negb _); [done |]. destruct (negb _); [done |].
  pose proof (read_clock_service b) as Hc. destruct (read_clock b) as [now b1]. cbn in Hc.
  destruct (_ <? _); [by cbn; rewrite Hc |]. destruct (_ <? _); [by cbn; rewrite Hc |].
  destruct (negb _); [by cbn; rewrite Hc |].
  case_bool_decide as Hk; [by cbn; rewrite Hc |].
  pose proof (read_clock_service b1) as Hc1. destruct (read_clock b1) as [t b2]. cbn in Hc1.
  cbn. rewrite Hc1, Hc in *.
  set (w := new_wrapper rq rqo point nbo) in *.
  assert (wok w) as Hw by (by apply new_wrapper_wok).
  destruct (publish_inv eq eb p (pop_service b) (snd (alloc w (pop_service b))) w t Hinv Hw)
    as (Hi & v & Hv & L); [done |].
  apply (insert_inv _ _ _ _ _ _ v); [exact Hi | done | apply L |].
  cbn. by apply eq_None_not_Some.
Qed.

Lemma add_ck_just_offset_inv point rq rqo nbo eq eb p b r b' :
  ck_ok point → pop_inv_but eq eb p (pop_service b) →
  add_ck_just_offset cd revive_topic point rq rqo nbo b = Done (r, b') →
  pop_inv_but eq eb p (pop_service b').
Proof.
  intros Hck Hinv. unfold add_ck_just_offset. set (w := new_with_offset _ _ _ _ _).
  assert (wok w) as Hw by (by apply new_wrapper_wok).
  case_bool_decide as Hk; [by intros [= <- <-] |]. cbn [alloc].
  intros (b1 & H1 & H)%obind_done. apply put_ck_to_store_evolves in H1 as Hev.
  pose proof (read_clock_service b1) as Hc. destruct (read_clock b1) as [t b2]. cbn in Hc.
  injection H as <- <-. cbn. rewrite Hc.
  destruct (publish_inv eq eb p (pop_service b) (pop_service b1) w t Hinv Hw Hev) as (Hi & v & Hv & L).
  apply (insert_inv _ _ _ _ _ _ v); [exact Hi | done | apply L |].
  cbn. rewrite (ev_map _ _ Hev). by apply eq_None_not_Some.
Qed.

Lemma add_ck_mock_inv group topic q so it pt rq nbo bn eq eb p (b : broker) :
  pop_inv_but eq eb p (pop_service b) →
  pop_inv_but eq eb p (pop_service (add_ck_mock group topic q so it pt rq nbo bn b)).
Proof.
  intros Hinv. unfold add_ck_mock. set (w := mkWrapper _ _ _ _ _ _ _ _ _ _).
  assert (wok w) as Hw.
  { constructor; cbn; [in_range.. | | constructor]. intros i _. by rewrite Z.bits_0. }
  pose proof (read_clock_service b) as Hc. destruct (read_clock b) as [t b1]. cbn in Hc.
  cbn. rewrite Hc.
  destruct (publish_inv eq eb p (pop_service b) (snd (alloc w (pop_service b))) w t Hinv Hw)
    as (Hi & v & Hv & L); [done |].
  destruct Hi as [Hok Hm Hq Hs Hqd Hb Hp]. constructor; try done.
  intros id u Hu Hf Hx. apply Hb; [done | done |]. intros [? | ->]; [done |]. apply Hf. left.
  assert (u = v) as -> by (cbn in Hu, Hv; congruence).
  split; [by rewrite (wle_just _ _ L) | by apply (wle_stored _ _ L)].
Qed.

Lemma remove_keys_inv eq eb p (b : broker) :
  pop_inv_but eq eb p (pop_service b) → pop_inv_but eq eb [] (pop_service (remove_keys p b)).
Proof.
  intros [Hok Hm Hq Hs Hqd Hb Hp].
  constructor; cbn [remove_keys set_service pop_service with_buffer wrappers buffer_map
    commit_offsets]; try done.
  - intros k id. rewrite lookup_delete_keys. case_bool_decide; [done | apply Hm].
  - intros id w Hw Hf Hx. rewrite lookup_delete_keys.
    pose proof (Hb id w Hw Hf Hx) as E.
    rewrite bool_decide_false; [done |]. intros Hin.
    destruct (Hp _ Hin) as (id' & w' & H1 & H2 & H3). congruence.
  - intros k Hk. by apply elem_of_nil in Hk.
Qed.

Lemma lock_queue_service (key : string) (b : broker) :
  pop_service (snd (lock_queue key b)) = pop_service b.
Proof.
  unfold lock_queue. pose proof (read_clock_service b) as Hc.
  destruct (pop_locks b !! key) as [l |]; cbn.
  - destruct (lock_held l); [| destruct (read_clock b)]; by destruct (try_lock_with_key _ _ _ _).
  - destruct (read_clock b) as [t b1]. cbn in Hc. rewrite <- Hc, <- (read_clock_service b1).
    destruct (read_clock b1). by destruct (try_lock_with_key _ _ _ _).
Qed.

(** A commit changes the offsets and the locks only. *)
Lemma commit_ck_offset_service w b (ok : bool) b' :
  commit_ck_offset cfg w b = Done (ok, b') → pop_service b' = pop_service b.
Proof.
  unfold commit_ck_offset. destruct (_ <? _); [by intros [= <- <-] |].
  pose proof (lock_queue_service (pw_lock_key w) b) as Hl.
  destruct (lock_queue _ b) as [l b1]. cbn in Hl. destruct l; cbn [negb]; [| by intros [= <- <-]].
  pose proof (read_clock_service b1) as Hc. destruct (read_clock b1) as [t b2]. cbn in Hc.
  intros (om & _ & [= <- <-])%obind_done. cbn. by rewrite Hc.
Qed.

(** What taking the front off a queue means. *)
Lemma commit_front_spec k eq eb p b b' :
  pop_inv_but eq eb p (pop_service b) → commit_front cfg k b = Done (true, b') →
  ∃ id ids t w b1,
    commit_offsets (pop_service b) !! k = Some (mkQueue (id :: ids) t) ∧
    wrappers (pop_service b) !! id = Some w ∧ finished w ∧
    commit_ck_offset cfg w b = Done (true, b1) ∧
    b' = set_service (with_commit_offsets
           (<[k := mkQueue ids t]> (commit_offsets (pop_service b))) (pop_service b)) b1.
Proof.
  intros Hinv. unfold commit_front.
  destruct (commit_offsets (pop_service b) !! k) as [[[| id ids] t] |] eqn:Ek; try done.
  destruct (wrappers (pop_service b) !! id) as [w |] eqn:Hw; [| done]. cbn [unwrap obind].
  destruct (ck_finished_spec w (all_wok_lookup _ _ _ (inv_wok _ _ _ _ Hinv) Hw)) as (f & -> & Hf).
  cbn [obind]. destruct f; [| done]. intros ([ok b1] & H1 & H)%obind_done.
  destruct ok; [| done]. injection H as <-. apply commit_ck_offset_service in H1 as Hs.
  exists id, ids, t, w, b1. rewrite Hs. split_and!; [done | done | by apply Hf | done | done].
Qed.

Lemma commit_front_inv k eq eb p b (r : bool) b' :
  pop_inv_but eq eb p (pop_service b) → commit_front cfg k b = Done (r, b') → pop_inv_but eq eb p (pop_service b').
Proof.
  intros Hinv H. destruct r.
  - destruct (commit_front_spec _ _ _ _ _ _ Hinv H) as (id & ids & t & w & b1 & Ek & Hw & Hf & _ & ->).
    destruct Hinv as [Hok Hm Hq Hs Hqd Hb Hp].
    constructor; cbn [set_service pop_service with_commit_offsets wrappers buffer_map commit_offsets];
      try done.
    + intros k' q i [[<- <-] | [_ Hk]]%lookup_insert_Some Hi; [| by eapply Hq].
      eapply Hq; [exact Ek |]. by apply list_elem_of_further.
    + intros k' q [[<- <-] | [_ Hk]]%lookup_insert_Some; [| by eapply Hs].
      apply Hs in Ek. cbn in *. by inversion Ek.
    + intros i u Hu Hfu Hx. destruct (Hqd i u Hu Hfu Hx) as (q & Eq & Hi).
      destruct (decide (pw_lock_key u = k)) as [E | Hne].
      * rewrite E in *. rewrite lookup_insert_eq. eexists. split; [done |]. cbn.
        assert (q = mkQueue (id :: ids) t) as -> by congruence.
        cbn in Hi. apply elem_of_cons in Hi as [-> | Hi]; [congruence | done].
      * rewrite lookup_insert_ne by done. eauto.
  - revert H. unfold commit_front.
    destruct (commit_offsets (pop_service b) !! k) as [[[| id ids] t] |]; try by intros [= <-].
    destruct (wrappers (pop_service b) !! id) as [w |]; [| done]. cbn [unwrap obind].
    destruct (ck_finished w) as [[] |]; [| by intros [= <-] | done]. cbn [obind].
    intros ([ok b1] & H1 & H)%obind_done. destruct ok; [done |]. injection H as <-.
    apply commit_ck_offset_service in H1. by rewrite H1.
Qed.

(** *** Dropping queues *)

Lemma inv_weaken (eq eq' eb eb' : nat → Prop) p s :
  (∀ i, eq i → eq' i) → (∀ i, eb i → eb' i) → pop_inv_but eq eb p s → pop_inv_but eq' eb' p s.
Proof.
  intros H1 H2 [Hok Hm Hq Hs Hqd Hb Hp]. constructor; try done.
  - intros id w Hw Hf Hx. apply Hqd; [done | done |]. eauto.
  - intros id w Hw Hf Hx. apply Hb; [done | done |]. eauto.
Qed.
Lemma elem_of_queued_ids (m : gmap string QueueWithTime) (k : string) (q : QueueWithTime) (i : nat) :
  m !! k = Some q → i ∈ qt_queue q → i ∈ queued_ids m.
Proof.
  intros Hk Hi. apply elem_of_list_to_set, list_elem_of_In, in_concat. exists (qt_queue q).
  split; [| by apply list_elem_of_In]. apply list_elem_of_In, list_elem_of_fmap. exists q.
  split; [done |]. apply list_elem_of_fmap. exists (k, q). split; [done |].
  by apply elem_of_map_to_list.
Qed.
Lemma elem_of_lost_ids (m m' : gmap string QueueWithTime) (k : string) (q : QueueWithTime) (i : nat) :
  m !! k = Some q → i ∈ qt_queue q → m' !! k = None → i ∈ lost_ids m m'.
Proof.
  intros Hk Hi Hn. eapply elem_of_queued_ids; [| exact Hi]. by apply map_lookup_filter_Some.
Qed.
Lemma drop_queues_inv h s m :
  m ⊆ commit_offsets s → pop_inv h s →
  pop_inv (drop_queued (lost_ids (commit_offsets s) m) h) (with_commit_offsets m s).
Proof.
  intros Hsub [Hok Hm Hq Hs Hqd Hb Hp]. constructor; try done; cbn.
  - intros k q id Hk. eapply Hq. by eapply lookup_weaken.
  - intros k q Hk. eapply Hs. by eapply lookup_weaken.
  - intros id w Hw Hf Hx. apply not_elem_of_union in Hx as [Hx1 Hx2].
    destruct (Hqd id w Hw Hf Hx1) as (q & Hk & Hi). exists q. split; [| done].
    destruct (m !! pw_lock_key w) as [q' |] eqn:E.
    + pose proof (lookup_weaken _ _ _ _ E Hsub). congruence.
    + exfalso. apply Hx2. by eapply elem_of_lost_ids.
Qed.
Lemma clear_all_inv h s c :
  pending h = [] → pop_inv h s →
  pop_inv (drop_buffered (buffered_ids (buffer_map s)) (drop_queued (queued_ids (commit_offsets s)) h))
    (with_commit_offsets ∅ (with_buffer ∅ c s)).
Proof.
  intros Hn [Hok Hm Hq Hs Hqd Hb Hp]. constructor; try done; cbn.
  - intros id w Hw Hf Hx. apply not_elem_of_union in Hx as [Hx1 Hx2].
    destruct (Hqd id w Hw Hf Hx1) as (q & Hk & Hi). destruct Hx2. by eapply elem_of_queued_ids.
  - intros id w Hw Hf Hx. apply not_elem_of_union in Hx as [Hx1 Hx2].
    specialize (Hb id w Hw Hf Hx1). destruct Hx2. unfold buffered_ids.
    apply elem_of_list_to_set, list_elem_of_fmap. exists (pw_merge_key w, id).
    split; [done |]. by apply elem_of_map_to_list.
  - rewrite Hn. intros k Hk. by apply elem_of_nil in Hk.
Qed.

Lemma pop_step_inv p b p' b' :
  pop_step (p, b) (p', b') → pop_inv p (pop_service b) → pop_inv p' (pop_service b').
Proof.
  intros Hstep Hinv. inversion Hstep; subst.
  - by apply add_ck_inv.
  - by eapply add_ck_just_offset_inv.
  - by apply add_ck_mock_inv.
  - eapply evolves_inv; [| exact Hinv]. eapply add_ack_evolves; [apply Hinv | done].
  - match goal with H : scan_entry _ _ _ _ _ = _ |- _ =>
      apply scan_entry_spec in H as [Hev Hr]; [| apply Hinv] end.
    apply (evolves_inv _ _ _ _ _ Hev) in Hinv as [].
    destruct r; constructor; try done.
    intros k' [-> | Hk']%elem_of_cons; [by apply Hr | auto].
  - by eapply remove_keys_inv.
  - by eapply commit_front_inv.
  - eapply same_inv; [..| exact Hinv]; done.
  - eapply same_inv; [..| exact Hinv]; done.
  - apply drop_queues_inv; [apply map_filter_subseteq | done].
  - apply drop_queues_inv; [apply delete_subseteq | done].
  - by apply clear_all_inv.
  - eapply same_inv; [..| exact Hinv]; done.
  - done.
Qed.

Lemma pop_reachable_inv st : pop_reachable st → pop_inv (fst st) (pop_service (snd st)).
Proof.
  intros (ls & om & w & Hr). remember (pop_start ls om w) as st0 eqn:E0.
  assert (pop_inv (fst st0) (pop_service (snd st0))) as H0.
  { subst st0. constructor; cbn; try done.
    - constructor.
    - intros k Hk. by apply elem_of_nil in Hk. }
  clear E0. induction Hr as [| [p b] [p1 b1] st2 Hstep Hr IH]; [done |].
  apply IH. by eapply pop_step_inv.
Qed.

(** ** A scan is a run *)

Lemma set_pending_same (h : history) : set_pending_keys (pending h) h = h.
Proof. by destruct h. Qed.
Lemma scan_entries_run keys (b b' : broker) rs h :
  scan_entries cfg cd revive_topic keys b = Done (rs, b') →
  ∃ p', rtc pop_step (h, b) (set_pending_keys p' h, b') ∧ p' ≡ₚ rs ++ pending h.
Proof.
  revert b rs h. induction keys as [| k keys IH]; intros b rs h; cbn [scan_entries].
  { intros [= <- <-]. exists (pending h). by rewrite set_pending_same. }
  intros ([r b1] & H1 & H)%obind_done. apply obind_done in H as ([rs1 b2] & H2 & [= <- <-]).
  destruct (IH _ _ (if r then set_pending_keys (k :: pending h) h else h) H2) as (p' & Hrun & Hp).
  exists p'. split.
  - eapply rtc_l; [by eapply step_visit |]. by destruct r.
  - rewrite Hp. destruct r; cbn [pending set_pending_keys]; [by rewrite <- Permutation_middle | done].
Qed.

Lemma commit_queue_run fuel k (b b' : broker) p :
  commit_queue cfg fuel k b = Done b' → rtc pop_step (p, b) (p, b').
Proof.
  revert b. induction fuel as [| fuel IH]; intros b; cbn [commit_queue]; [by intros [= <-] |].
  intros ([more b1] & H1 & H)%obind_done. eapply rtc_l; [by eapply step_commit |].
  destruct more; [by apply IH | by injection H as <-].
Qed.
Lemma scan_commit_offset_run keys (b b' : broker) p :
  scan_commit_offset cfg keys b = Done b' → rtc pop_step (p, b) (p, b').
Proof.
  revert b. induction keys as [| k keys IH]; intros b; cbn [scan_commit_offset];
    [by intros [= <-] |].
  intros (b1 & H1 & H)%obind_done. etrans; [by eapply commit_queue_run | by apply IH].
Qed.

Lemma remove_keys_perm (ks ks' : list string) (b : broker) :
  ks ≡ₚ ks' → remove_keys ks b = remove_keys ks' b.
Proof.
  intros Hp. unfold remove_keys.
  assert (foldr delete (buffer_map (pop_service b)) ks =
          foldr delete (buffer_map (pop_service b)) ks') as ->; [| done].
  apply map_eq. intros k. rewrite !lookup_delete_keys.
  rewrite (bool_decide_ext (k ∈ ks) (k ∈ ks')); [done | by rewrite Hp].
Qed.

Lemma scan_run keys queues eclipse (b b' : broker) h :
  pending h = [] →
  scan cfg cd revive_topic keys queues eclipse b = Done b' → rtc pop_step (h, b) (h, b').
Proof.
  intros Hn. unfold scan. intros ([rs b1] & H1 & H)%obind_done.
  apply obind_done in H as (b2 & H2 & [= <-]).
  destruct (scan_entries_run _ _ _ _ h H1) as (p & Hrun & Hp). rewrite Hn, app_nil_r in Hp.
  etrans; [exact Hrun |]. eapply rtc_l; [apply step_remove |].
  cbn [pending set_pending_keys]. rewrite (remove_keys_perm _ _ _ Hp).
  change (set_pending_keys [] (set_pending_keys p h)) with (set_pending_keys [] h).
  rewrite <- Hn, set_pending_same.
  etrans; [by eapply scan_commit_offset_run |].
  set (s := if (_ <? eclipse : bool) then with_serving false (pop_service b2) else pop_service b2).
  assert (rtc pop_step (h, b2) (h, set_service s b2)) as Hs.
  { subst s. destruct (_ <? _); [apply rtc_once, step_stop |].
    replace (set_service (pop_service b2) b2) with b2 by (by destruct b2). done. }
  etrans; [exact Hs |].
  destruct (_ <=? _); apply rtc_once;
    [apply (step_tick h (set_service s b2) 0) | apply (step_tick h (set_service s b2))].
Qed.

(** A round of the service is a run. *)
Lemma round_run keys queues eclipse topics groups (b b' : broker) h :
  pending h = [] →
  service_round cfg cd revive_topic keys queues eclipse topics groups b = Done b' →
  ∃ h', pending h' = [] ∧ rtc pop_step (h, b) (h', b').
Proof.
  intros Hn. unfold service_round, is_should_running.
  assert (∀ v : bool, rtc pop_step (h, b) (h, set_service (if v then pop_service b else
    with_master (negb (broker_is_slave cfg)) (pop_service b)) b)) as Hm.
  { intros []; [| apply rtc_once, step_master].
    replace (set_service (pop_service b) b) with b by (by destruct b). done. }
  specialize (Hm (PopBuffer.enable_slave_acting_master cfg)).
  set (run := PopBuffer.enable_slave_acting_master cfg || negb (broker_is_slave cfg)).
  set (b0 := set_service _ _) in Hm.
  replace (if PopBuffer.enable_slave_acting_master cfg then _ else _) with
    (run, pop_service b0); [| unfold run, b0; by destruct (PopBuffer.enable_slave_acting_master cfg)].
  cbn beta iota. replace (set_service (pop_service b0) b) with b0 by done. clearbody run b0.
  destruct run; cbn [negb].
  - intros (b1 & H1 & H)%obind_done. injection H as <-. apply (scan_run _ _ _ _ _ h Hn) in H1.
    set (c := (scan_times _ mod _ =? 0)%Z).
    assert (∃ h', pending h' = [] ∧ rtc pop_step (h, b) (h', if c then
      let '(now, b) := read_clock b1 in set_service (scan_garbage topics groups now (pop_service b)) b
      else b1)) as (h1 & Hn1 & Hr1).
    { destruct c; [| exists h; split; [done | by etrans]].
      pose proof (read_clock_service b1) as Hc. destruct (read_clock b1) as [now b2] eqn:E.
      assert (pop_step (h, b1) (h, b2)) as Hs.
      { destruct b2 as [s2 l2 o2 w2]. cbn in Hc. subst s2. apply step_other. }
      eexists. split; [| etrans; [exact Hm |]; etrans; [exact H1 |]; eapply rtc_l; [exact Hs |];
        apply rtc_once, (step_garbage topics groups now h b2 Hn)]. done. }
    set (b2 := if c then _ else _) in *. clearbody b2.
    exists h1. split; [done |]. etrans; [exact Hr1 |].
    destruct (_ && _ && _); [apply rtc_once, step_stop | done].
  - intros [= <-]. eexists. split; [| etrans; [exact Hm |]; apply rtc_once, (step_clear_all h b0 Hn)].
    done.
Qed.

(** ** Theorems *)

(** C20: In every reachable state a checkpoint that waits for acknowledgements (or,
    if it only carries an offset, for the store) is in the map under its key,
    unless a broker that became a slave cleared the map while it was there, and
    in the queue of its consumer queue, unless that queue was cleared or
    collected as garbage while it was there. *)
Theorem unacked_checkpoint_kept h (b : broker) (id : nat) w :
  pop_reachable (h, b) → wrappers (pop_service b) !! id = Some w → ¬ finished w →
  (id ∉ dropped_buffered h → buffer_map (pop_service b) !! pw_merge_key w = Some id) ∧
  (id ∉ dropped_queued h →
   ∃ q, commit_offsets (pop_service b) !! pw_lock_key w = Some q ∧ id ∈ qt_queue q).
Proof.
  intros Hr Hw Hf. apply pop_reachable_inv in Hr as [_ _ _ _ Hqd Hb _].
  split; intros Hd; [by apply Hb | by apply Hqd].
Qed.

Lemma read_clock_offsets (b : broker) : pop_offsets (snd (read_clock b)) = pop_offsets b.
Proof. unfold read_clock. by destruct (current_millis _). Qed.
Lemma lock_queue_offsets (key : string) (b : broker) :
  pop_offsets (snd (lock_queue key b)) = pop_offsets b.
Proof.
  unfold lock_queue. pose proof (read_clock_offsets b) as Hc.
  destruct (pop_locks b !! key) as [l |]; cbn.
  - destruct (lock_held l); [| destruct (read_clock b)]; by destruct (try_lock_with_key _ _ _ _).
  - destruct (read_clock b) as [t b1]. cbn in Hc. rewrite <- Hc, <- (read_clock_offsets b1).
    destruct (read_clock b1). by destruct (try_lock_with_key _ _ _ _).
Qed.

(** The table after a commit of the front. *)
Lemma commit_ck_offset_table w (b b' : broker) :
  commit_ck_offset cfg w b = Done (true, b') →
  offset_table (pop_offsets b') =
    if pw_next_begin_offset w <? 0 then offset_table (pop_offsets b)
    else put_offset (topic_at_group (ck_topic (pw_ck w)) (ck_cid (pw_ck w))) (ck_queue_id (pw_ck w))
           (pw_next_begin_offset w) (offset_table (pop_offsets b)).
Proof.
  unfold commit_ck_offset. destruct (_ <? _); [by intros [= <-] |].
  pose proof (lock_queue_offsets (pw_lock_key w) b) as Hl.
  destruct (lock_queue _ b) as [l b1]. cbn in Hl. destruct l; cbn [negb]; [| done].
  pose proof (read_clock_offsets b1) as Hc. destruct (read_clock b1) as [t b2]. cbn in Hc.
  unfold commit_offset. destruct (_ =? 0); [done |].
  intros [= <-]. cbn. by rewrite Hc, Hl.
Qed.

(** C21: A commit takes the front off a queue and commits its offset, nothing else.
    The front is finished, and so is every older checkpoint of the consumer queue
    except those that were in a queue that was cleared or collected as garbage,
    which may be passed unfinished. *)
Theorem commit_in_order k h (b b' : broker) :
  pop_reachable (h, b) → commit_front cfg k b = Done (true, b') →
  ∃ id ids t w, commit_offsets (pop_service b) !! k = Some (mkQueue (id :: ids) t) ∧
    commit_offsets (pop_service b') = <[k := mkQueue ids t]> (commit_offsets (pop_service b)) ∧
    wrappers (pop_service b) !! id = Some w ∧ pw_lock_key w = k ∧ finished w ∧
    (∀ id' w', (id' < id)%nat → wrappers (pop_service b) !! id' = Some w' →
               pw_lock_key w' = k → finished w' ∨ id' ∈ dropped_queued h) ∧
    offset_table (pop_offsets b') =
      if pw_next_begin_offset w <? 0 then offset_table (pop_offsets b)
      else put_offset (topic_at_group (ck_topic (pw_ck w)) (ck_cid (pw_ck w)))
             (ck_queue_id (pw_ck w)) (pw_next_begin_offset w) (offset_table (pop_offsets b)).
Proof.
  intros Hr H. apply pop_reachable_inv in Hr as Hinv. cbn in Hinv.
  destruct (commit_front_spec _ _ _ _ _ _ Hinv H) as (id & ids & t & w & b1 & Ek & Hw & Hf & Hc & ->).
  destruct Hinv as [Hok _ Hq Hs Hqd _ _]. exists id, ids, t, w. split_and!; [done | done | done | | done | |].
  - destruct (Hq k _ id Ek (list_elem_of_here _ _)) as (w' & Hw' & <-). congruence.
  - intros id' w' Hle Hw' Hk'. destruct (decide (id' ∈ dropped_queued h)) as [Hd | Hd]; [by right |]. left.
    destruct (ck_finished_spec w' (all_wok_lookup _ _ _ Hok Hw')) as (f & _ & Hff).
    destruct f; [by apply Hff |].
    destruct (Hqd id' w' Hw') as (q & Eq & Hi); [naive_solver | done |].
    rewrite Hk', Ek in Eq. injection Eq as <-. cbn in Hi. apply elem_of_cons in Hi as [-> | Hi].
    + lia.
    + apply Hs in Ek. cbn in Ek. apply StronglySorted_inv in Ek as [_ HF].
      rewrite Forall_forall in HF. apply HF in Hi. lia.
  - apply commit_ck_offset_table in Hc. done.
Qed.
End Runs.

(** ** Example *)

(** A world whose clock stands still and whose store takes everything. *)
#[export] Instance still_world : PopWorld (Z * Z) := {|
  current_millis := λ w, (fst w, w);
  put_message_to_specific_queue := λ _ w,
    Done (mkPutResult StatusPutOk
            (Some (mkAppendResult PutOk 0 0 None 0 (snd w) 0 1)) false, (fst w, snd w + 1));
|}.
Definition example_pop_config : PopConfig :=
  mkPopConfig true 3000 10000 200000 20000 false false false (mkOffsetConfig false 500) 0.
Definition example_codec : PopCodec :=
  mkPopCodec (λ _, Some []) (λ _, Some []) (λ _, Some []) (λ m, map_to_list m) default_host.
(** Two messages popped at 1000, invisible for a minute. *)
Definition example_point : PopCheckPoint :=
  mkCk 10 1000 60000 0 2 0 "orders" "billing" 0 [] (Some "broker-a") None.
Definition at_time (t : Z) (b : PopBroker (Z * Z)) : PopBroker (Z * Z) :=
  set_world (t, snd (pop_world b)) b.
Definition example_start : PopBroker (Z * Z) :=
  mkPopBroker new_pop_buffer ∅ (new_offsets (mkDataVersion 0 0 0)) (1000, 0).
Definition example_added : PopBroker (Z * Z) :=
  snd (add_ck example_pop_config example_point 0 (-1) 12 example_start).
Definition example_ack (o : Z) : AckMessage :=
  SingleAck (mkAck o 10 "billing" "orders" 0 1000 "broker-a").
Definition example_visit (b : PopBroker (Z * Z)) : outcome (bool * PopBroker (Z * Z)) :=
  scan_entry example_pop_config example_codec "revive" "ordersbilling0101000broker-a" b.

Definition no_history : history := mkHistory [] ∅ ∅.
Lemma example_added_reachable :
  pop_reachable example_pop_config example_codec "revive" (no_history, example_added).
Proof.
  exists ∅, (new_offsets (mkDataVersion 0 0 0)), (1000, 0). apply rtc_once.
  apply (step_add_ck _ _ _ example_point 0 (-1) 12). split; [cbn; lia | constructor].
Qed.

Lemma unacked_checkpoint_kept_witness :
  buffer_map (pop_service example_added) !! "ordersbilling0101000broker-a" = Some 0%nat.
Proof.
  apply (unacked_checkpoint_kept example_pop_config example_codec "revive" no_history example_added 0
    (new_wrapper 0 (-1) example_point 12) example_added_reachable).
  - vm_compute. reflexivity.
  - intros [[H _] | H]; [discriminate H |]. specialize (H 0 ltac:(cbn; lia)). discriminate H.
  - set_solver.
Defined.

(** The state after a call that does not panic. *)
Definition after (b : PopBroker (Z * Z)) (m : outcome (bool * PopBroker (Z * Z)))
  : PopBroker (Z * Z) := match m with Done (_, b') => b' | Panic => b end.
Definition answer (m : outcome (bool * PopBroker (Z * Z))) : option bool :=
  match m with Done (r, _) => Some r | Panic => None end.
Lemma answer_done (b : PopBroker (Z * Z)) m r : answer m = Some r → m = Done (r, after b m).
Proof. destruct m as [[r' b'] |]; cbn; congruence. Qed.

Definition acked_once : PopBroker (Z * Z) :=
  after example_added (add_ack example_pop_config (example_ack 10) example_added).
Definition acked_twice : PopBroker (Z * Z) :=
  after acked_once (add_ack example_pop_config (example_ack 11) acked_once).

Lemma acked_twice_reachable :
  pop_reachable example_pop_config example_codec "revive" (no_history, acked_twice).
Proof.
  destruct example_added_reachable as (ls & om & w & H). exists ls, om, w.
  etrans; [exact H |].
  eapply rtc_l; [apply (step_ack _ _ _ (example_ack 10) _ _ true acked_once), answer_done;
                 by vm_compute |].
  apply rtc_once. apply (step_ack _ _ _ (example_ack 11) _ _ true), answer_done. by vm_compute.
Qed.

Lemma commit_in_order_witness :
  let b' := after acked_twice (commit_front example_pop_config "orders@billing@0" acked_twice) in
  ∃ id ids t w, commit_offsets (pop_service acked_twice) !! "orders@billing@0" =
      Some (mkQueue (id :: ids) t) ∧
    commit_offsets (pop_service b') =
      <["orders@billing@0" := mkQueue ids t]> (commit_offsets (pop_service acked_twice)) ∧
    wrappers (pop_service acked_twice) !! id = Some w ∧
    pw_lock_key w = "orders@billing@0" ∧ finished w ∧
    (∀ id' w', (id' < id)%nat → wrappers (pop_service acked_twice) !! id' = Some w' →
               pw_lock_key w' = "orders@billing@0" → finished w' ∨ id' ∈ dropped_queued no_history) ∧
    offset_table (pop_offsets b') =
      if pw_next_begin_offset w <? 0 then offset_table (pop_offsets acked_twice)
      else put_offset (topic_at_group (ck_topic (pw_ck w)) (ck_cid (pw_ck w)))
             (ck_queue_id (pw_ck w)) (pw_next_begin_offset w)
             (offset_table (pop_offsets acked_twice)).
Proof.
  intros b'. apply (commit_in_order example_pop_config example_codec "revive" "orders@billing@0"
    no_history acked_twice b' acked_twice_reachable).
  apply answer_done. by vm_compute.
Defined.

(** One of two messages is acknowledged and the checkpoint times out: the scan
    writes the checkpoint and the acknowledgement, and keeps the checkpoint in
    the map and at the front of its queue, where no later scan releases it. *)
Example written_checkpoint_stays :
  let b := after acked_once (example_visit (at_time 100000 acked_once)) in
  answer (example_visit (at_time 100000 acked_once)) = Some false ∧
  snd (pop_world b) = 2 ∧
  (wrappers (pop_service b) !! 0%nat) =
    Some (set_to_store_bits 1 (set_stored 0 (set_bits 1 (new_wrapper 0 (-1) example_point 12)))) ∧
  answer (example_visit b) = Some false ∧
  answer (commit_front example_pop_config "orders@billing@0" b) = Some false.
Proof. by vm_compute. Qed.

(** ** Garbage *)

(** The queue of a topic and a group the broker knows is dropped by the next
    collection, whatever it holds, and the one of a group that is gone is kept
    for five minutes. *)
Theorem garbage_takes_live_queues (topics groups : gset string) (now q : Z)
    (topic cid : string) (qt : QueueWithTime) (s : PopBufferMergeService) :
  plain topic → plain cid → cid ≠ "" → topic ∈ topics →
  commit_offsets s !! build_lock_key topic cid q = Some qt →
  commit_offsets (scan_garbage topics groups now s) !! build_lock_key topic cid q =
    if decide (cid ∈ groups) then None
    else if minute5 <? as_u64 (now - qt_time qt) then None else Some qt.
Proof.
  intros Ht Hc Hne Hin Hq. cbn [scan_garbage with_commit_offsets commit_offsets].
  assert (keep_queue topics groups now (build_lock_key topic cid q, qt) =
    (negb (bool_decide (cid ∈ groups)) && negb (minute5 <? as_u64 (now - qt_time qt)))) as Hk.
  { unfold keep_queue. cbn [fst snd].
    change (build_lock_key topic cid q) with (join "@" [topic; cid; pretty q]).
    rewrite split_char_join; [| done | done |].
    - rewrite bool_decide_true by done. unfold contains_subscription_group.
      rewrite (bool_decide_false (cid = "")) by done. cbn.
      by destruct (bool_decide _), (_ <? _).
    - apply Forall_cons; split; [done |]. apply Forall_cons; split; [done |].
      apply Forall_singleton. by apply pretty_not_byte. }
  rewrite map_lookup_filter, Hq. cbn. rewrite Hk.
  destruct (decide (cid ∈ groups)) as [Hg | Hg].
  - rewrite bool_decide_true by done. cbn. by rewrite option_guard_False.
  - rewrite bool_decide_false by done. cbn.
    destruct (_ <? _); cbn; [by rewrite option_guard_False | by rewrite option_guard_True].
Qed.
Lemma garbage_takes_live_queues_witness :
  commit_offsets (scan_garbage {["orders"]} {["billing"]} 2000 (pop_service acked_once))
    !! build_lock_key "orders" "billing" 0 = None.
Proof.
  etrans; [| apply (decide_True (P := "billing" ∈ ({["billing"]} : gset string)) None
    (if minute5 <? as_u64 (2000 - 1000) then None else Some (mkQueue [0%nat] 1000))); set_solver].
  apply (garbage_takes_live_queues {["orders"]} {["billing"]} 2000 0 "orders" "billing"
    (mkQueue [0%nat] 1000) (pop_service acked_once)).
  - solve_plain.
  - solve_plain.
  - discriminate.
  - set_solver.
  - vm_compute. reflexivity.
Defined.
