(* ===== verification/Attributes.v ===== *)
(** * Attributes: attributes of topics ([attribute/] of [rocketmq-common])

    A topic carries named attributes.  A request changes them: a key with a
    plus sign adds or alters an attribute, one with a minus sign removes it.
    [alter_current_attributes] checks the whole request and then applies it. *)

From stdpp Require Import base gmap list strings.
From coqutil Require Import Byte.
From Stdlib Require Import ZArith Lia.
From S2P Require Import Prelude Bytes FileName Numerals Rebalance PopInfo.
Open Scope Z_scope.
Open Scope rmq_scope.

(** ** Kinds of attributes *)

(** The set of allowed values is only asked for its members. *)
Inductive Attribute :=
| EnumAttribute (name : string) (changeable : bool) (universe : list string) (default_value : string)
| BooleanAttribute (name : string) (changeable : bool) (default_value : bool)
| LongRangeAttribute (name : string) (changeable : bool) (min max default_value : Z).

Definition attribute_name (a : Attribute) : string :=
  match a with
  | EnumAttribute n _ _ _ | BooleanAttribute n _ _ | LongRangeAttribute n _ _ _ _ => n
  end.
Definition is_changeable (a : Attribute) : bool :=
  match a with
  | EnumAttribute _ c _ _ | BooleanAttribute _ c _ | LongRangeAttribute _ c _ _ _ => c
  end.

(** No character outside ASCII has a lower case in ["true"] or ["false"]. *)
Definition lower_byte (b : byte) : byte :=
  let v := byte.unsigned b in
  if (65 <=? v) && (v <=? 90) then byte.of_Z (v + 32) else b.
Definition parse_bool (value : string) : option bool :=
  let l := bytes_str (lower_byte <$> str_bytes value) in
  if decide (l = "true") then Some true
  else if decide (l = "false") then Some false else None.

(** The three [verify]: whether it is [Ok]. *)
Definition enum_verify (universe : list string) (value : string) : bool :=
  bool_decide (value ∈ universe).
Definition boolean_verify (value : string) : bool :=
  if decide (value = "") then false else bool_decide (is_Some (parse_bool value)).
Definition long_range_verify (mn mx : Z) (value : string) : bool :=
  match parse_i64 value with
  | Some v => negb ((v <? mn) || (mx <? v))
  | None => false
  end.
Definition verify (a : Attribute) (value : string) : bool :=
  match a with
  | EnumAttribute _ _ universe _ => enum_verify universe value
  | BooleanAttribute _ _ _ => boolean_verify value
  | LongRangeAttribute _ _ mn mx _ => long_range_verify mn mx value
  end.

(** ** [TopicAttributes] *)
Definition topic_message_type_set : list string :=
  ["UNSPECIFIED"; "NORMAL"; "FIFO"; "DELAY"; "TRANSACTION"; "MIXED"].
Definition queue_type_attribute : Attribute :=
  EnumAttribute "queue.type" false ["BatchCQ"; "SimpleCQ"] "SimpleCQ".
Definition cleanup_policy_attribute : Attribute :=
  EnumAttribute "cleanup.policy" false ["DELETE"; "COMPACTION"] "DELETE".
Definition topic_message_type_attribute : Attribute :=
  EnumAttribute "message.type" true topic_message_type_set "NORMAL".
Definition topic_reserve_time_attribute : Attribute :=
  LongRangeAttribute "reserve.time" true (-1) (2 ^ 63 - 1) (-1).
Definition all_attributes : gmap string Attribute :=
  list_to_map ((λ a, (attribute_name a, a)) <$>
    [queue_type_attribute; cleanup_policy_attribute; topic_message_type_attribute;
     topic_reserve_time_attribute]).

(** ** [AttributeUtil] *)

(** The text of a failed verification is left out. *)
Inductive AttributeError :=
| CreateOnlySupportsAdd (key : string)
| DeleteNonexistentKey (key : string)
| WrongFormatKey (key : string)
| DuplicateKey (key : string)
| KvStringFormatWrong
| UnsupportedKey (key : string)
| UnchangeableAttribute (key : string)
| AttributeVerificationFailed (key : string).

Abbreviation attrs := (gmap string string).
Definition attempt {A B} (m : AttributeError + A) (k : A → AttributeError + B)
  : AttributeError + B := match m with inl e => inl e | inr a => k a end.

Definition real_key (key : string) : AttributeError + string :=
  if (str_len key <? 2)%nat then inl KvStringFormatWrong
  else
    match str_bytes key with
    | c :: rest =>
        if decide (c = Byte.x2b ∨ c = Byte.x2d) then inr (bytes_str rest)
        else inl (WrongFormatKey key)
    | [] => inl KvStringFormatWrong
    end.

Definition validate (kv_attribute : string) : AttributeError + unit :=
  if decide (kv_attribute = "") then inl KvStringFormatWrong
  else if contains_char Byte.x2b kv_attribute then inl KvStringFormatWrong
  else if contains_char Byte.x2d kv_attribute then inl KvStringFormatWrong
  else inr tt.

Definition duplication_check (keys : gset string) (key : string)
  : AttributeError + gset string :=
  if decide (key ∈ keys) then inl (DuplicateKey key) else inr ({[key]} ∪ keys).

(** [key.starts_with('+')] *)
Definition is_plus (key : string) : bool :=
  match str_bytes key with c :: _ => bool_decide (c = Byte.x2b) | [] => false end.
Definition is_minus (key : string) : bool :=
  match str_bytes key with c :: _ => bool_decide (c = Byte.x2d) | [] => false end.

(** The four kinds of changes. *)
Record changes := mkChanges {
  ch_init : attrs; ch_add : attrs; ch_update : attrs; ch_delete : attrs;
}.
Definition no_changes : changes := mkChanges ∅ ∅ ∅ ∅.

Definition classify_one (create : bool) (current : attrs) (key real value : string)
    (ch : changes) : AttributeError + changes :=
  if create then
    if is_plus key
    then inr (mkChanges (<[real := value]> (ch_init ch)) (ch_add ch) (ch_update ch) (ch_delete ch))
    else inl (CreateOnlySupportsAdd real)
  else if is_plus key then
    match current !! real with
    | None =>
        inr (mkChanges (ch_init ch) (<[real := value]> (ch_add ch)) (ch_update ch) (ch_delete ch))
    | Some _ =>
        inr (mkChanges (ch_init ch) (ch_add ch) (<[real := value]> (ch_update ch)) (ch_delete ch))
    end
  else if is_minus key then
    match current !! real with
    | None => inl (DeleteNonexistentKey real)
    | Some _ =>
        inr (mkChanges (ch_init ch) (ch_add ch) (ch_update ch) (<[real := value]> (ch_delete ch)))
    end
  else inl (WrongFormatKey real).

(** The loop over the request. *)
Fixpoint classify (create : bool) (current : attrs) (request : list (string * string))
    (keys : gset string) (ch : changes) : AttributeError + changes :=
  match request with
  | [] => inr ch
  | (key, value) :: request' =>
      attempt (real_key key) (λ real,
      attempt (validate real) (λ _,
      attempt (duplication_check keys real) (λ keys,
      attempt (classify_one create current key real value ch) (λ ch,
      classify create current request' keys ch))))
  end.

Fixpoint validate_alter (all : gmap string Attribute) (alter : list (string * string))
    (init delete : bool) : AttributeError + unit :=
  match alter with
  | [] => inr tt
  | (key, value) :: alter' =>
      match all !! key with
      | None => inl (UnsupportedKey key)
      | Some a =>
          if negb init && negb (is_changeable a) then inl (UnchangeableAttribute key)
          else if negb delete && negb (verify a value) then inl (AttributeVerificationFailed key)
          else validate_alter all alter' init delete
      end
  end.

Section Alter.
(** The iteration order of a [HashMap]. *)
Variable order : attrs → list (string * string).

Definition alter_current_attributes (create : bool) (all : gmap string Attribute)
    (current new : attrs) : AttributeError + attrs :=
  attempt (classify create current (order new) ∅ no_changes) (λ ch,
  attempt (validate_alter all (order (ch_init ch)) true false) (λ _,
  attempt (validate_alter all (order (ch_add ch)) false false) (λ _,
  attempt (validate_alter all (order (ch_update ch)) false false) (λ _,
  attempt (validate_alter all (order (ch_delete ch)) false true) (λ _,
  let final := ch_update ch ∪ (ch_add ch ∪ (ch_init ch ∪ current)) in
  inr (foldr delete final (order (ch_delete ch)).*1)))))).
End Alter.

(** ** [AttributeParser] *)

(** [Err] carries the text of the message. *)
Definition parse_kv (kv : string) : string + (string * string) :=
  if contains_char Byte.x3d kv then
    match split_char Byte.x3d kv with
    | key :: value :: _ =>
        if contains_char Byte.x2b key then inr (key, value)
        else inl ("add/alter attribute format is wrong: " +:+ key)
    | _ => inl ""
    end
  else if contains_char Byte.x2d kv then inr (kv, "")
  else inl ("delete attribute format is wrong: " +:+ kv).
Fixpoint parse_kvs (kvs : list string) (m : attrs) : string + attrs :=
  match kvs with
  | [] => inr m
  | kv :: kvs' =>
      match parse_kv kv with
      | inl e => inl e
      | inr (key, value) =>
          if bool_decide (is_Some (m !! key)) then inl ("key duplication: " +:+ key)
          else parse_kvs kvs' (<[key := value]> m)
      end
  end.
Definition parse_to_map (attributes_modification : string) : string + attrs :=
  if decide (attributes_modification = "") then inr ∅
  else parse_kvs (split_char Byte.x2c attributes_modification) ∅.
(** Over the entries in iteration order. *)
Definition kv_text (kv : string * string) : string :=
  if decide (kv.2 = "") then kv.1 else kv.1 +:+ "=" +:+ kv.2.
Definition parse_to_string (entries : list (string * string)) : string :=
  match entries with [] => "" | _ => join "," (kv_text <$> entries) end.

(** ** Keys of a request *)

Definition op_key (minus : bool) (k : string) : string :=
  bytes_str ((if minus then Byte.x2d else Byte.x2b) :: str_bytes k).
Definition good_key (k : string) : Prop :=
  k ≠ "" ∧ Byte.x2b ∉ str_bytes k ∧ Byte.x2d ∉ str_bytes k.

Lemma op_key_bytes (minus : bool) (k : string) :
  str_bytes (op_key minus k) = (if minus then Byte.x2d else Byte.x2b) :: str_bytes k.
Proof. apply str_bytes_str. Qed.
Lemma op_key_inj (m m' : bool) (k k' : string) :
  op_key m k = op_key m' k' → m = m' ∧ k = k'.
Proof.
  intros H. apply (f_equal str_bytes) in H. rewrite !op_key_bytes in H. injection H as Hc Hk.
  split; [by destruct m, m' |]. apply (f_equal bytes_str) in Hk. by rewrite !bytes_str_bytes in Hk.
Qed.
Lemma op_key_plus (m : bool) (k : string) : is_plus (op_key m k) = negb m.
Proof. unfold is_plus. rewrite op_key_bytes. by destruct m. Qed.
Lemma op_key_minus (m : bool) (k : string) : is_minus (op_key m k) = m.
Proof. unfold is_minus. rewrite op_key_bytes. by destruct m. Qed.

Lemma real_key_ok (key k : string) :
  real_key key = inr k ∧ validate k = inr tt ↔ good_key k ∧ ∃ m, key = op_key m k.
Proof.
  unfold real_key, validate, good_key, contains_char. split.
  - intros [Hr Hv]. destruct (_ <? _)%nat; [done |].
    destruct (str_bytes key) as [| c rest] eqn:E; [done |].
    destruct (decide _) as [Hc | _]; [| done]. injection Hr as <-.
    destruct (decide _) as [| Hne]; [done |].
    case_bool_decide as H1; [done |]. case_bool_decide as H2; [done |].
    split; [done |]. exists (bool_decide (c = Byte.x2d)).
    apply (f_equal bytes_str) in E. rewrite bytes_str_bytes in E. rewrite E. unfold op_key.
    rewrite str_bytes_str. by destruct Hc as [-> | ->].
  - intros [(Hne & H1 & H2) [m ->]]. unfold str_len. rewrite op_key_bytes. cbn [length].
    assert (0 < length (str_bytes k))%nat as Hl.
    { destruct (str_bytes k) eqn:E; [| cbn; lia]. apply (f_equal bytes_str) in E.
      rewrite bytes_str_bytes in E. done. }
    rewrite (proj2 (Nat.ltb_ge _ _)) by lia. rewrite decide_True by (destruct m; auto).
    rewrite bytes_str_bytes. split; [done |].
    rewrite decide_False, !bool_decide_false by done. done.
Qed.

(** What the request asks for each key it names. *)
Definition asks (create : bool) (current : attrs) (minus : bool) (k : string) : Prop :=
  if create then minus = false else minus = true → is_Some (current !! k).

(** The changes stand for the entries read so far. *)
Record stands_for (create : bool) (current : attrs) (l : list (string * string)) (ch : changes)
  : Prop := {
  sf_init : ∀ k v, ch_init ch !! k = Some v ↔ create = true ∧ (op_key false k, v) ∈ l;
  sf_add : ∀ k v, ch_add ch !! k = Some v ↔
    (create = false ∧ current !! k = None) ∧ (op_key false k, v) ∈ l;
  sf_update : ∀ k v, ch_update ch !! k = Some v ↔
    (create = false ∧ is_Some (current !! k)) ∧ (op_key false k, v) ∈ l;
  sf_delete : ∀ k v, ch_delete ch !! k = Some v ↔
    create = false ∧ (op_key true k, v) ∈ l;
}.
(** The keys of the entries read so far. *)
Definition seen (l : list (string * string)) (keys : gset string) : Prop :=
  ∀ k, k ∈ keys ↔ ∃ m v, (op_key m k, v) ∈ l.

Lemma op_entry_inj (m m' : bool) (k k' v v' : string) :
  (op_key m k, v) = (op_key m' k', v') → m = m' ∧ k = k' ∧ v = v'.
Proof.
  intros H. assert (op_key m k = op_key m' k' ∧ v = v') as [E ->] by (split; congruence).
  by apply op_key_inj in E as [-> ->].
Qed.
Lemma in_snoc_key (l : list (string * string)) (m m' : bool) (k k' v v' : string) :
  (op_key m' k', v') ∈ l ++ [(op_key m k, v)] ↔
  (op_key m' k', v') ∈ l ∨ (m' = m ∧ k' = k ∧ v' = v).
Proof.
  rewrite elem_of_app, list_elem_of_singleton. split; intros [H | H]; auto; right.
  - by apply op_entry_inj.
  - by destruct H as (-> & -> & ->).
Qed.

(** One more entry of a kind, and of another kind. *)
Lemma insert_entry (mm : attrs) (P : string → Prop) (m : bool) l (k v : string) :
  (∀ v', (op_key m k, v') ∉ l) → P k →
  (∀ k' v', mm !! k' = Some v' ↔ P k' ∧ (op_key m k', v') ∈ l) →
  ∀ k' v', <[k := v]> mm !! k' = Some v' ↔ P k' ∧ (op_key m k', v') ∈ l ++ [(op_key m k, v)].
Proof.
  intros Hf HP Hm k' v'. rewrite in_snoc_key. destruct (decide (k' = k)) as [-> | Hne].
  - rewrite lookup_insert_eq. split; [intros [= <-]; auto |].
    intros [_ [H | (_ & _ & ->)]]; [by destruct (Hf v') | done].
  - rewrite lookup_insert_ne, Hm by done. split; [intros [? ?]; auto |].
    intros [HP' [H | (_ & Hk & _)]]; [done | congruence].
Qed.
Lemma other_entry (mm : attrs) (P : string → Prop) (m m' : bool) l (k v : string) :
  m ≠ m' ∨ ¬ P k →
  (∀ k' v', mm !! k' = Some v' ↔ P k' ∧ (op_key m' k', v') ∈ l) →
  ∀ k' v', mm !! k' = Some v' ↔ P k' ∧ (op_key m' k', v') ∈ l ++ [(op_key m k, v)].
Proof.
  intros Hn Hm k' v'. rewrite in_snoc_key, Hm. split; [intros [? ?]; auto |].
  intros [HP [H | (E & -> & _)]]; [done |]. destruct Hn; [congruence | done].
Qed.

Lemma classify_one_stands create current l keys ch (m : bool) (k v : string) :
  stands_for create current l ch → seen l keys → k ∉ keys → asks create current m k →
  ∃ ch', classify_one create current (op_key m k) k v ch = inr ch' ∧
         stands_for create current (l ++ [(op_key m k, v)]) ch'.
Proof.
  intros [Hi Ha Hu Hd] Hs Hk Hask. unfold classify_one. rewrite op_key_plus, op_key_minus.
  assert (∀ m' v', (op_key m' k, v') ∉ l) as Hfresh.
  { intros m' v' Hin. apply Hk, Hs. eauto. }
  unfold asks in Hask. destruct create; [subst m |].
  - eexists. split; [done |]. constructor; cbn [ch_init ch_add ch_update ch_delete].
    + by apply (insert_entry _ (λ _, true = true)).
    + apply (other_entry _ (λ k, true = false ∧ current !! k = None)); [right; by intros [] | done].
    + apply (other_entry _ (λ k, true = false ∧ is_Some (current !! k))); [right; by intros [] | done].
    + apply (other_entry _ (λ _, true = false)); [by left | done].
  - assert (∀ k' v', ch_init ch !! k' = Some v' ↔
      false = true ∧ (op_key false k', v') ∈ l ++ [(op_key m k, v)]) as Hi'.
    { apply (other_entry _ (λ _, false = true)); [by right | done]. }
    destruct m; cbn [negb].
    + destruct (Hask eq_refl) as [x Hx]. rewrite Hx. eexists. split; [done |].
      constructor; cbn [ch_init ch_add ch_update ch_delete]; [done | | |].
      * apply (other_entry _ (λ k, false = false ∧ current !! k = None)); [by left | done].
      * apply (other_entry _ (λ k, false = false ∧ is_Some (current !! k))); [by left | done].
      * by apply (insert_entry _ (λ _, false = false)).
    + destruct (current !! k) as [x |] eqn:Hx; (eexists; split; [done |]);
        constructor; cbn [ch_init ch_add ch_update ch_delete]; try done.
      * apply (other_entry _ (λ k, false = false ∧ current !! k = None)); [right | done].
        intros [_ ?]. congruence.
      * apply (insert_entry _ (λ k, false = false ∧ is_Some (current !! k))); [done | | done].
        split; [done | by eexists].
      * apply (other_entry _ (λ _, false = false)); [by left | done].
      * by apply (insert_entry _ (λ k, false = false ∧ current !! k = None)).
      * apply (other_entry _ (λ k, false = false ∧ is_Some (current !! k))); [right | done].
        intros [_ [? ?]]. congruence.
      * apply (other_entry _ (λ _, false = false)); [by left | done].
Qed.
Lemma classify_one_asks create current ch ch' (m : bool) (k v : string) :
  classify_one create current (op_key m k) k v ch = inr ch' → asks create current m k.
Proof.
  unfold classify_one, asks. rewrite op_key_plus, op_key_minus.
  destruct create, m; cbn; try done. destruct (current !! k); [by eexists | done].
Qed.

(** Every entry names a good key once, and asks for something allowed. *)
Fixpoint readable (create : bool) (current : attrs) (l : list (string * string))
    (keys : gset string) : Prop :=
  match l with
  | [] => True
  | (key, _) :: l' =>
      ∃ m k, key = op_key m k ∧ good_key k ∧ k ∉ keys ∧ asks create current m k ∧
             readable create current l' ({[k]} ∪ keys)
  end.

Lemma classify_iff create current l l0 keys ch :
  stands_for create current l0 ch → seen l0 keys →
  (readable create current l keys →
   ∃ ch', classify create current l keys ch = inr ch' ∧
          stands_for create current (l0 ++ l) ch') ∧
  (∀ ch', classify create current l keys ch = inr ch' → readable create current l keys).
Proof.
  revert l0 keys ch. induction l as [| [key v] l IH]; intros l0 keys ch Hst Hs; cbn [classify readable].
  { split; [intros _; exists ch; by rewrite app_nil_r | done]. }
  assert (∀ m k, seen (l0 ++ [(op_key m k, v)]) ({[k]} ∪ keys)) as Hseen.
  { intros m k k'. rewrite elem_of_union, elem_of_singleton, (Hs k'). split.
    - intros [-> | (m' & v' & H)]; [exists m, v | exists m', v']; rewrite in_snoc_key; auto.
    - intros (m' & v' & H). apply in_snoc_key in H as [H | (_ & -> & _)]; eauto. }
  split.
  - intros (m & k & -> & Hg & Hk & Hask & Hr).
    destruct (proj2 (real_key_ok (op_key m k) k)) as [-> Hv]; [by eauto |].
    cbn [attempt]. rewrite Hv. cbn [attempt]. unfold duplication_check.
    rewrite decide_False by done. cbn [attempt].
    destruct (classify_one_stands _ _ _ _ _ m k v Hst Hs Hk Hask) as (ch1 & -> & Hst1).
    cbn [attempt]. destruct (IH _ _ _ Hst1 (Hseen m k)) as [Hok _].
    destruct (Hok Hr) as (ch' & -> & Hst'). exists ch'. split; [done |].
    by rewrite <- (assoc_L (++)) in Hst'.
  - intros ch'. destruct (real_key key) as [e | k] eqn:Hr; [done |]. cbn [attempt].
    destruct (validate k) as [e | []] eqn:Hv; [done |]. cbn [attempt].
    destruct (proj1 (real_key_ok key k)) as [Hg [m ->]]; [done |].
    unfold duplication_check. destruct (decide (k ∈ keys)) as [| Hk]; [done |]. cbn [attempt].
    destruct (classify_one create current (op_key m k) k v ch) as [e | ch1] eqn:H1; [done |].
    cbn [attempt]. intros H. pose proof (classify_one_asks _ _ _ _ _ _ _ H1) as Hask.
    destruct (classify_one_stands _ _ _ _ _ m k v Hst Hs Hk Hask) as (ch2 & H2 & Hst1).
    assert (ch2 = ch1) as -> by congruence.
    exists m, k. split_and!; try done. by eapply (IH _ _ _ Hst1 (Hseen m k)).
Qed.

Lemma validate_alter_iff all l init del :
  validate_alter all l init del = inr tt ↔
  ∀ k v, (k, v) ∈ l → ∃ a, all !! k = Some a ∧ (init = false → is_changeable a = true) ∧
                           (del = false → verify a v = true).
Proof.
  induction l as [| [k v] l IH]; cbn [validate_alter].
  { split; [intros _ k v H; by apply elem_of_nil in H | done]. }
  setoid_rewrite elem_of_cons. destruct (all !! k) as [a |] eqn:Ea.
  - destruct (negb init && negb (is_changeable a)) eqn:E1.
    { split; [done |]. intros H. destruct (H k v (or_introl eq_refl)) as (a' & Ha & H1 & _).
      simplify_eq. destruct init; [done |]. by rewrite H1 in E1. }
    destruct (negb del && negb (verify a v)) eqn:E2.
    { split; [done |]. intros H. destruct (H k v (or_introl eq_refl)) as (a' & Ha & _ & H2).
      simplify_eq. destruct del; [done |]. by rewrite H2 in E2. }
    rewrite IH. split; [| by auto]. intros H k' v' [[= -> ->] | Hin]; [| by apply H].
    exists a. destruct init, del, (is_changeable a), (verify a v); naive_solver.
  - split; [done |]. intros H. destruct (H k v (or_introl eq_refl)) as (a & Ha & _). congruence.
Qed.

Lemma readable_iff create current l keys :
  NoDup l.*1 →
  readable create current l keys ↔
  ∀ key v, (key, v) ∈ l → ∃ m k, key = op_key m k ∧ good_key k ∧ asks create current m k ∧
    k ∉ keys ∧ ∀ v', (op_key (negb m) k, v') ∉ l.
Proof.
  revert keys. induction l as [| [key v] l IH]; intros keys Hnd; cbn [readable].
  { split; [intros _ key v H; by apply elem_of_nil in H | done]. }
  apply NoDup_cons in Hnd as [Hni Hnd]. split.
  - intros (m & k & -> & Hg & Hk & Hask & Hr).
    pose proof (proj1 (IH ({[k]} ∪ keys) Hnd) Hr) as Hl. clear IH Hr.
    intros key' v' [[= -> ->] | Hin]%elem_of_cons.
    + exists m, k. split_and!; try done. intros v' [E | Hin]%elem_of_cons.
      * apply op_entry_inj in E as [E _]. by destruct m.
      * destruct (Hl _ _ Hin) as (m1 & k1 & E & _ & _ & Hk1 & _). apply op_key_inj in E as [_ <-].
        set_solver.
    + destruct (Hl _ _ Hin) as (m1 & k1 & -> & Hg1 & Ha1 & Hk1 & Ho1). exists m1, k1.
      split_and!; [done.. | set_solver |]. intros v1 [E | Hin1]%elem_of_cons.
      * apply op_entry_inj in E as (_ & -> & _). set_solver.
      * by apply (Ho1 v1).
  - intros Hl. destruct (Hl key v) as (m & k & -> & Hg & Hask & Hk & Ho);
      [by apply list_elem_of_here |].
    exists m, k. split_and!; try done. apply IH; [done |]. intros key' v' Hin.
    destruct (Hl key' v') as (m1 & k1 & -> & Hg1 & Ha1 & Hk1 & Ho1);
      [by apply list_elem_of_further |].
    exists m1, k1. split_and!; try done.
    + intros [->%elem_of_singleton | ?]%elem_of_union; [| done].
      destruct (decide (m1 = m)) as [-> | Hm].
      * apply Hni. apply (list_elem_of_fmap_2 fst _ _ Hin).
      * apply (Ho v'). apply list_elem_of_further. by destruct m, m1.
    + intros v1 Hin1. apply (Ho1 v1). by apply list_elem_of_further.
Qed.

(** ** Altering attributes *)

(** A request that is taken: good keys, each named once; a new topic only adds,
    an attribute that is removed is there; every attribute is known, changeable
    unless the topic is new, and gets a value it allows. *)
Definition request_ok (create : bool) (all : gmap string Attribute) (current new : attrs) : Prop :=
  ∀ key v, new !! key = Some v → ∃ m k a,
    key = op_key m k ∧ good_key k ∧ new !! op_key (negb m) k = None ∧ all !! k = Some a ∧
    asks create current m k ∧ (create = false → is_changeable a = true) ∧
    (m = false → verify a v = true).
(** What it leaves. *)
Definition altered (current new : attrs) (k : string) : option string :=
  match new !! op_key false k, new !! op_key true k with
  | Some v, _ => Some v
  | None, Some _ => None
  | None, None => current !! k
  end.

Section AlterSpec.
Variable order : attrs → list (string * string).
Hypothesis order_perm : ∀ m, order m ≡ₚ map_to_list m.

Lemma elem_of_order (m : attrs) (k v : string) : (k, v) ∈ order m ↔ m !! k = Some v.
Proof. by rewrite order_perm, elem_of_map_to_list. Qed.
Lemma no_changes_stand create current : stands_for create current [] no_changes.
Proof.
  constructor; intros k v; cbn; rewrite lookup_empty, elem_of_nil; naive_solver.
Qed.

Lemma classify_order create current (new : attrs) :
  (∀ ch, classify create current (order new) ∅ no_changes = inr ch →
     readable create current (order new) ∅ ∧ stands_for create current (order new) ch) ∧
  (readable create current (order new) ∅ →
     ∃ ch, classify create current (order new) ∅ no_changes = inr ch).
Proof.
  destruct (classify_iff create current (order new) [] ∅ no_changes (no_changes_stand _ _))
    as [H1 H2].
  { intros k. split; [set_solver |]. intros (m & v & H). by apply elem_of_nil in H. }
  split.
  - intros ch Hch. pose proof (H2 ch Hch) as Hr. split; [done |].
    destruct (H1 Hr) as (ch' & E & Hst). by assert (ch' = ch) as <- by congruence.
  - intros Hr. destruct (H1 Hr) as (ch & E & _). eauto.
Qed.

Lemma readable_order create current (new : attrs) :
  readable create current (order new) ∅ ↔
  ∀ key v, new !! key = Some v → ∃ m k, key = op_key m k ∧ good_key k ∧
    asks create current m k ∧ new !! op_key (negb m) k = None.
Proof.
  rewrite readable_iff by (rewrite order_perm; apply NoDup_fst_map_to_list).
  setoid_rewrite elem_of_order. split; intros H key v Hk;
    destruct (H key v Hk) as (m & k & -> & Hg & Ha & H1); exists m, k; split_and!; try done.
  - apply eq_None_not_Some. intros [v' E]. by apply (proj2 H1 v').
  - intros v' Hv'. congruence.
Qed.

(** The checks of the four kinds together. *)
Definition checks (create : bool) (all : gmap string Attribute) (new : attrs) : Prop :=
  ∀ m k v, new !! op_key m k = Some v → ∃ a, all !! k = Some a ∧
    (create = false → is_changeable a = true) ∧ (m = false → verify a v = true).

Lemma checks_iff create all current new ch :
  readable create current (order new) ∅ → stands_for create current (order new) ch →
  (validate_alter all (order (ch_init ch)) true false = inr tt ∧
   validate_alter all (order (ch_add ch)) false false = inr tt ∧
   validate_alter all (order (ch_update ch)) false false = inr tt ∧
   validate_alter all (order (ch_delete ch)) false true = inr tt) ↔ checks create all new.
Proof.
  rewrite readable_order. intros Hr [Hi Ha Hu Hd]. rewrite !validate_alter_iff.
  setoid_rewrite elem_of_order. setoid_rewrite Hi. setoid_rewrite Ha. setoid_rewrite Hu.
  setoid_rewrite Hd. setoid_rewrite elem_of_order. split.
  - intros (H1 & H2 & H3 & H4) m k v Hk.
    destruct (Hr _ _ Hk) as (m' & k' & E & _ & Hask & _). apply op_key_inj in E as [<- <-].
    unfold asks in Hask. destruct create; [subst m; destruct (H1 k v) as (a & ? & _ & ?); naive_solver |].
    destruct m; [destruct (H4 k v) as (a & ? & ? & _); naive_solver |].
    destruct (current !! k) as [x |] eqn:Ek.
    + destruct (H3 k v) as (a & ? & ? & ?); [rewrite Ek; naive_solver |]. naive_solver.
    + destruct (H2 k v) as (a & ? & ? & ?); [naive_solver |]. naive_solver.
  - intros Hc. split_and!; intros k v Hk.
    + destruct Hk as [-> Hk]. destruct (Hc _ _ _ Hk) as (a & ? & ? & ?). naive_solver.
    + destruct Hk as [[-> _] Hk]. destruct (Hc _ _ _ Hk) as (a & ? & ? & ?). naive_solver.
    + destruct Hk as [[-> _] Hk]. destruct (Hc _ _ _ Hk) as (a & ? & ? & ?). naive_solver.
    + destruct Hk as [-> Hk]. destruct (Hc _ _ _ Hk) as (a & ? & ? & ?). naive_solver.
Qed.
Lemma stands_lookup create current (new : attrs) ch (k : string) :
  stands_for create current (order new) ch → new !! op_key false k = None →
  (ch_update ch ∪ (ch_add ch ∪ (ch_init ch ∪ current))) !! k = current !! k.
Proof.
  intros [Hi Ha Hu _] Hn. setoid_rewrite elem_of_order in Hi.
  setoid_rewrite elem_of_order in Ha. setoid_rewrite elem_of_order in Hu.
  assert (ch_update ch !! k = None ∧ ch_add ch !! k = None ∧ ch_init ch !! k = None)
    as (E1 & E2 & E3).
  { split_and!; apply eq_None_not_Some; intros [v Hv];
      [apply Hu in Hv as [_ Hv] | apply Ha in Hv as [_ Hv] | apply Hi in Hv as [_ Hv]]; congruence. }
  by rewrite !lookup_union, E1, E2, E3, !(left_id_L None (∪)).
Qed.
Lemma stands_lookup_add create current (new : attrs) ch (k v : string) :
  stands_for create current (order new) ch → new !! op_key false k = Some v →
  (ch_update ch ∪ (ch_add ch ∪ (ch_init ch ∪ current))) !! k = Some v.
Proof.
  intros [Hi Ha Hu _] Hn. setoid_rewrite elem_of_order in Hi.
  setoid_rewrite elem_of_order in Ha. setoid_rewrite elem_of_order in Hu.
  apply lookup_union_Some_raw.
  destruct create.
  - right. split; [apply eq_None_not_Some; intros [x Hx]; apply Hu in Hx as [[? _] _]; done |].
    apply lookup_union_Some_raw. right.
    split; [apply eq_None_not_Some; intros [x Hx]; apply Ha in Hx as [[? _] _]; done |].
    apply lookup_union_Some_raw. left. by apply Hi.
  - destruct (current !! k) as [x |] eqn:Ek.
    + left. apply Hu. rewrite Ek. split; [split; [done | by eexists] | done].
    + right. split.
      * apply eq_None_not_Some. intros [y Hy]. apply Hu in Hy as [[_ [z Hz]] _]. congruence.
      * apply lookup_union_Some_raw. left. by apply Ha.
Qed.

Lemma altered_lookup create current new ch (k : string) :
  readable create current (order new) ∅ → stands_for create current (order new) ch →
  foldr delete (ch_update ch ∪ (ch_add ch ∪ (ch_init ch ∪ current))) (order (ch_delete ch)).*1 !! k =
    altered current new k.
Proof.
  rewrite readable_order. intros Hr Hst. rewrite lookup_delete_keys. unfold altered.
  assert (k ∈ (order (ch_delete ch)).*1 ↔ create = false ∧ is_Some (new !! op_key true k)) as Hd.
  { pose proof (sf_delete _ _ _ _ Hst) as Hd. setoid_rewrite elem_of_order in Hd.
    rewrite list_elem_of_fmap. split.
    - intros ([k' v] & -> & Hin). apply elem_of_order, Hd in Hin as [-> Hv]. split; [done | by eexists].
    - intros [-> [v Hv]]. exists (k, v). split; [done |]. by apply elem_of_order, Hd. }
  destruct (new !! op_key false k) as [v |] eqn:E1.
  - destruct (Hr _ _ E1) as (m & k' & E & _ & _ & Ho). apply op_key_inj in E as [<- <-].
    rewrite bool_decide_false by (rewrite Hd; cbn [negb] in Ho; rewrite Ho; intros [_ [? ?]]; done).
    by eapply stands_lookup_add.
  - destruct (new !! op_key true k) as [v |] eqn:E2.
    + destruct (Hr _ _ E2) as (m & k' & E & _ & Hask & _). apply op_key_inj in E as [<- <-].
      rewrite bool_decide_true; [done |]. rewrite Hd. split; [by destruct create | by eexists].
    + rewrite bool_decide_false by (rewrite Hd; intros [_ [? ?]]; done).
      by apply (stands_lookup create _ new).
Qed.

Lemma request_ok_iff create all current new :
  request_ok create all current new ↔
  readable create current (order new) ∅ ∧ checks create all new.
Proof.
  rewrite readable_order. unfold request_ok, checks. split.
  - intros H. split.
    + intros key v Hk. destruct (H key v Hk) as (m & k & a & ? & ? & ? & ? & ? & _). eauto 10.
    + intros m k v Hk. destruct (H _ v Hk) as (m' & k' & a & E & _ & _ & Ha & _ & H1 & H2).
      apply op_key_inj in E as [<- <-]. eauto.
  - intros [Hr Hc] key v Hk. destruct (Hr key v Hk) as (m & k & -> & Hg & Ha & Ho).
    destruct (Hc _ _ _ Hk) as (a & Ea & H1 & H2). exists m, k, a. done.
Qed.

Lemma alter_iff create all current new final :
  alter_current_attributes order create all current new = inr final ↔
  request_ok create all current new ∧ ∀ k, final !! k = altered current new k.
Proof.
  destruct (classify_order create current new) as [Hs Hc]. unfold alter_current_attributes.
  rewrite request_ok_iff. split.
  - destruct (classify _ _ _ _ _) as [e | ch] eqn:E; [done |].
    destruct (Hs ch eq_refl) as [Hr Hst]. cbn [attempt].
    destruct (validate_alter all (order (ch_init ch)) true false) as [e | []] eqn:E1; [done |].
    destruct (validate_alter all (order (ch_add ch)) false false) as [e | []] eqn:E2; [done |].
    destruct (validate_alter all (order (ch_update ch)) false false) as [e | []] eqn:E3; [done |].
    destruct (validate_alter all (order (ch_delete ch)) false true) as [e | []] eqn:E4; [done |].
    cbn [attempt]. intros [= <-]. split; [split; [done | by eapply checks_iff] |].
    intros k. by eapply altered_lookup.
  - intros [[Hr Hck] Hf]. destruct (Hc Hr) as [ch E]. rewrite E in *. cbn [attempt].
    destruct (Hs ch eq_refl) as [_ Hst].
    destruct (proj2 (checks_iff _ _ _ _ _ Hr Hst) Hck) as (-> & -> & -> & ->). cbn [attempt].
    f_equal. apply map_eq. intros k. rewrite Hf. by eapply altered_lookup.
Qed.

(** Attributes with values they allow stay so. *)
Definition attrs_valid (all : gmap string Attribute) (m : attrs) : Prop :=
  map_Forall (λ k v, ∃ a, all !! k = Some a ∧ verify a v = true) m.
(** C29: A request is taken exactly when it is in order; then every attribute it
    adds or alters has the value asked for, those it removes are gone, the
    others stay, and attributes with allowed values keep allowed values. *)
Theorem alter_spec (create : bool) (all : gmap string Attribute) (current new final : attrs) :
  (alter_current_attributes order create all current new = inr final ↔
   request_ok create all current new ∧ ∀ k, final !! k = altered current new k) ∧
  (alter_current_attributes order create all current new = inr final →
   attrs_valid all current → attrs_valid all final).
Proof.
  split; [apply alter_iff |]. rewrite alter_iff. intros [Hok Hf] Hv k v Hk. rewrite Hf in Hk. unfold altered in Hk.
  destruct (new !! op_key false k) as [x |] eqn:E.
  - destruct (Hok _ _ E) as (m & k' & a & Ek & _ & _ & Ha & _ & _ & Hver).
    apply op_key_inj in Ek as [<- <-]. naive_solver.
  - destruct (new !! op_key true k); [done | by apply Hv].
Qed.
End AlterSpec.

(** In the order of [map_to_list]. *)
Lemma alter_spec_witness :
  ∃ final, alter_current_attributes map_to_list false all_attributes
    {["message.type" := "NORMAL"; "queue.type" := "SimpleCQ"]}
    {["+message.type" := "FIFO"; "+reserve.time" := "3600"]} = inr final ∧
  final !! "message.type" = Some "FIFO" ∧ final !! "queue.type" = Some "SimpleCQ" ∧
  attrs_valid all_attributes final.
Proof.
  set (cur := {["message.type" := "NORMAL"; "queue.type" := "SimpleCQ"]} : attrs).
  set (new := {["+message.type" := "FIFO"; "+reserve.time" := "3600"]} : attrs).
  destruct (alter_current_attributes map_to_list false all_attributes cur new) as [e | final] eqn:E;
    [exfalso; vm_compute in E; discriminate E |].
  exists final. split; [reflexivity |].
  destruct (alter_spec map_to_list (λ _, reflexivity _) false all_attributes cur new final)
    as [H1 H2]. destruct (proj1 H1 E) as [_ Hf]. rewrite !Hf.
  split_and!; [vm_compute; reflexivity | vm_compute; reflexivity |].
  apply H2; [exact E |]. clear.
  intros k v [[<- <-] | [_ [<- <-]%lookup_singleton_Some]]%lookup_insert_Some.
  - exists topic_message_type_attribute. split; vm_compute; reflexivity.
  - exists queue_type_attribute. split; vm_compute; reflexivity.
Defined.

(** ** Text of a request *)

(** An entry the text can carry: an added attribute with a value, or a removed
    one, without the separators. *)
Definition kv_ok (kv : string * string) : Prop :=
  Byte.x2c ∉ str_bytes kv.1 ∧ Byte.x2c ∉ str_bytes kv.2 ∧
  Byte.x3d ∉ str_bytes kv.1 ∧ Byte.x3d ∉ str_bytes kv.2 ∧
  (if decide (kv.2 = "") then Byte.x2d ∈ str_bytes kv.1 else Byte.x2b ∈ str_bytes kv.1).

Lemma parse_kv_text (kv : string * string) : kv_ok kv → parse_kv (kv_text kv) = inr kv.
Proof.
  destruct kv as [k v]. intros (_ & _ & H3 & H4 & H5). cbn [fst snd] in *.
  unfold parse_kv, kv_text, contains_char. cbn [fst snd].
  destruct (decide (v = "")) as [-> | Hv].
  - rewrite bool_decide_false, bool_decide_true by done. done.
  - change (k +:+ ("=" +:+ v)) with (join "=" [k; v]).
    rewrite split_char_join; [| done | done | by repeat (apply Forall_cons; split)].
    rewrite (bool_decide_true (Byte.x3d ∈ _)).
    + by rewrite bool_decide_true.
    + cbn [join]. rewrite !str_bytes_app. apply elem_of_app. right. by apply list_elem_of_here.
Qed.
Lemma kv_text_no_comma (kv : string * string) : kv_ok kv → Byte.x2c ∉ str_bytes (kv_text kv).
Proof.
  destruct kv as [k v]. intros (H1 & H2 & _). cbn [fst snd] in *. unfold kv_text. cbn [fst snd].
  destruct (decide _); [done |]. rewrite !str_bytes_app, !not_elem_of_app. split_and!; try done.
  apply (bool_decide_unpack _). by vm_compute.
Qed.
Lemma parse_kvs_text (entries : list (string * string)) (m : attrs) :
  Forall kv_ok entries → NoDup entries.*1 → (∀ k, k ∈ entries.*1 → m !! k = None) →
  parse_kvs (kv_text <$> entries) m = inr (list_to_map entries ∪ m).
Proof.
  intros HF. revert m. induction HF as [| [k v] entries Hk HF IH]; intros m Hnd Hm.
  { cbn. by rewrite (left_id_L ∅ (∪)). }
  rewrite fmap_cons in Hnd, Hm. apply NoDup_cons in Hnd as [Hni Hnd].
  rewrite fmap_cons. cbn [parse_kvs]. rewrite parse_kv_text by done.
  cbn [fst] in *. rewrite bool_decide_false.
  2:{ rewrite Hm; [by intros [? ?] | apply list_elem_of_here]. }
  rewrite IH; [| done |].
  - f_equal. cbn [list_to_map foldr fst snd]. rewrite <- insert_union_l, insert_union_r; [done |].
    by apply not_elem_of_list_to_map_1.
  - intros k' Hk'. rewrite lookup_insert_ne by (by intros ->). apply Hm. by apply list_elem_of_further.
Qed.

(** The text of a request is read back. *)
Lemma attribute_text_roundtrip (entries : list (string * string)) :
  Forall kv_ok entries → NoDup entries.*1 →
  parse_to_map (parse_to_string entries) = inr (list_to_map entries).
Proof.
  intros HF Hnd. unfold parse_to_map, parse_to_string. destruct entries as [| kv entries]; [done |].
  set (l := kv :: entries) in *.
  assert (join "," (kv_text <$> l) ≠ "") as Hne.
  { apply Forall_cons in HF as [(_ & _ & _ & _ & H5) _]. intros E.
    apply (f_equal str_bytes) in E. subst l. destruct kv as [k v]. cbn [fst snd] in H5.
    assert (∃ b bs, str_bytes k = b :: bs) as (b & bs & Hb).
    { destruct (str_bytes k) as [| b bs]; [| by eauto]. exfalso.
      destruct (decide (v = "")); by apply elem_of_nil in H5. }
    destruct entries; cbn [fmap list_fmap join] in E; unfold kv_text in E; cbn [fst snd] in E;
      destruct (decide (v = "")); rewrite ?str_bytes_app, Hb in E; done. }
  rewrite decide_False by done.
  rewrite split_char_join; [| done | done |].
  - rewrite parse_kvs_text; [by rewrite (right_id_L ∅ (∪)) | done | done |].
    intros k _. apply lookup_empty.
  - apply Forall_fmap. eapply Forall_impl; [exact HF | apply kv_text_no_comma].
Qed.
