(* ===== verification/TopicConfigs.v ===== *)
(** * TopicConfigs: topics and subscription groups of the broker
    ([config.rs] and [topic.rs] of [rocketmq-common], [topic_config_manager.rs]
    and [subscription_group_manager.rs] of the broker)

    The broker keeps a table of topics, with their queues, permissions and
    attributes, and a table of subscription groups.  Topics are created on the
    first message sent to them, from the configuration of a default topic;
    groups on the first request that names them.  Every change moves the data
    version on and writes the table; a write that fails is only logged. *)

From stdpp Require Import base gmap list strings pretty.
From coqutil Require Import Byte.
From Stdlib Require Import ZArith Lia.
From S2P Require Import Prelude Bytes FileName Numerals CheckMessage RouteInfo Rebalance Offsets ConfigFile PopInfo Attributes.
Open Scope Z_scope.
Open Scope rmq_scope.

(** ** Strings *)

(** [char::is_whitespace], as the UTF-8 encodings of the characters. *)
Definition whitespace : list buffer :=
  [[Byte.x09]; [Byte.x0a]; [Byte.x0b]; [Byte.x0c]; [Byte.x0d]; [Byte.x20];
   [Byte.xc2; Byte.x85]; [Byte.xc2; Byte.xa0]; [Byte.xe1; Byte.x9a; Byte.x80];
   [Byte.xe2; Byte.x80; Byte.x80]; [Byte.xe2; Byte.x80; Byte.x81]; [Byte.xe2; Byte.x80; Byte.x82];
   [Byte.xe2; Byte.x80; Byte.x83]; [Byte.xe2; Byte.x80; Byte.x84]; [Byte.xe2; Byte.x80; Byte.x85];
   [Byte.xe2; Byte.x80; Byte.x86]; [Byte.xe2; Byte.x80; Byte.x87]; [Byte.xe2; Byte.x80; Byte.x88];
   [Byte.xe2; Byte.x80; Byte.x89]; [Byte.xe2; Byte.x80; Byte.x8a]; [Byte.xe2; Byte.x80; Byte.xa8];
   [Byte.xe2; Byte.x80; Byte.xa9]; [Byte.xe2; Byte.x80; Byte.xaf]; [Byte.xe2; Byte.x81; Byte.x9f];
   [Byte.xe3; Byte.x80; Byte.x80]].
Definition strip_one (ws : list buffer) (bs : buffer) : option buffer :=
  w ← list_find (λ w, take (length w) bs = w) ws; Some (drop (length w.2) bs).
Fixpoint strip (ws : list buffer) (fuel : nat) (bs : buffer) : buffer :=
  match fuel with
  | O => bs
  | S fuel' => match strip_one ws bs with Some bs' => strip ws fuel' bs' | None => bs end
  end.
(** [str::trim] *)
Definition trim (s : string) : string :=
  let bs := str_bytes s in
  let bs := strip whitespace (length bs) bs in
  bytes_str (reverse (strip (reverse <$> whitespace) (length bs) (reverse bs))).

(** ** [TopicValidator] *)
Definition TOPIC_MAX_LENGTH : nat := 127.
Definition AUTO_CREATE_TOPIC_KEY_TOPIC : string := "TBW102".
Definition RMQ_SYS_BENCHMARK_TOPIC : string := "BenchmarkTest".
Definition RMQ_SYS_TRANS_HALF_TOPIC : string := "RMQ_SYS_TRANS_HALF_TOPIC".
Definition RMQ_SYS_TRACE_TOPIC : string := "RMQ_SYS_TRACE_TOPIC".
Definition RMQ_SYS_TRANS_OP_HALF_TOPIC : string := "RMQ_SYS_TRANS_OP_HALF_TOPIC".
Definition RMQ_SYS_TRANS_CHECK_MAX_TIME_TOPIC : string := "TRANS_CHECK_MAX_TIME_TOPIC".
Definition RMQ_SYS_SELF_TEST_TOPIC : string := "SELF_TEST_TOPIC".
Definition RMQ_SYS_OFFSET_MOVED_EVENT : string := "OFFSET_MOVED_EVENT".
Definition RMQ_SYS_ROCKSDB_OFFSET_TOPIC : string := "CHECKPOINT_TOPIC".
Definition SYSTEM_TOPIC_PREFIX : string := "rmq_sys_".

Definition SYSTEM_TOPIC_SET : gset string :=
  list_to_set [AUTO_CREATE_TOPIC_KEY_TOPIC; RMQ_SYS_SCHEDULE_TOPIC; RMQ_SYS_BENCHMARK_TOPIC;
    RMQ_SYS_TRANS_HALF_TOPIC; RMQ_SYS_TRACE_TOPIC; RMQ_SYS_TRANS_OP_HALF_TOPIC;
    RMQ_SYS_TRANS_CHECK_MAX_TIME_TOPIC; RMQ_SYS_SELF_TEST_TOPIC; RMQ_SYS_OFFSET_MOVED_EVENT;
    RMQ_SYS_ROCKSDB_OFFSET_TOPIC].
Definition NOT_ALLOWED_SEND_TOPIC_SET : gset string :=
  list_to_set [RMQ_SYS_SCHEDULE_TOPIC; RMQ_SYS_TRANS_HALF_TOPIC; RMQ_SYS_TRANS_OP_HALF_TOPIC;
    RMQ_SYS_TRANS_CHECK_MAX_TIME_TOPIC; RMQ_SYS_SELF_TEST_TOPIC; RMQ_SYS_OFFSET_MOVED_EVENT].

(** [VALID_CHAR_BIT_MAP]; every byte of a character outside ASCII is at least
    128. *)
Definition valid_char (b : byte) : bool :=
  let v := byte.unsigned b in
  bool_decide (b ∈ [Byte.x25; Byte.x2d; Byte.x5f; Byte.x7c]) ||
  ((48 <=? v) && (v <=? 57)) || ((65 <=? v) && (v <=? 90)) || ((97 <=? v) && (v <=? 122)).
Definition is_topic_or_group_illegal (name : string) : bool :=
  negb (forallb valid_char (str_bytes name)).

(** Whether the topic is valid, and the remark. *)
Definition validate_topic (topic : string) : bool * string :=
  if decide (trim topic = "") then (false, "The specified topic is blank.")
  else if is_topic_or_group_illegal topic then
    (false, "The specified topic contains illegal characters, allowing only ^[%|a-zA-Z0-9_-]+$")
  else if (TOPIC_MAX_LENGTH <? str_len topic)%nat then
    (false, "The specified topic is longer than topic max length 127.")
  else (true, "").
Definition is_system_topic (system_topics : gset string) (topic : string) : bool :=
  bool_decide (topic ∈ system_topics) || String.prefix SYSTEM_TOPIC_PREFIX topic.
Definition is_not_allowed_send_topic (topic : string) : bool :=
  bool_decide (topic ∈ NOT_ALLOWED_SEND_TOPIC_SET).
Definition add_system_topic (topic : string) (system_topics : gset string) : gset string :=
  {[topic]} ∪ system_topics.

(** ** [TopicConfig] *)
Inductive TopicFilterType := SingleTag | MultiTag.
Definition filter_type_str (f : TopicFilterType) : string :=
  match f with SingleTag => "SINGLE_TAG" | MultiTag => "MULTI_TAG" end.
Definition filter_type_from (s : string) : TopicFilterType :=
  if decide (s = "SINGLE_TAG") then SingleTag
  else if decide (s = "MULTI_TAG") then MultiTag else SingleTag.

(** The fields the name server reads are those of [RouteInfo]. *)
Record BrokerTopicConfig := mkBrokerTopic {
  bt_config : TopicConfig;
  topic_filter_type : TopicFilterType;
  bt_order : bool;
  bt_attributes : attrs;
}.
Definition bt_name (t : BrokerTopicConfig) : option string := topic_name (bt_config t).

Definition DEFAULT_READ_QUEUE_NUMS : Z := 16.
Definition DEFAULT_WRITE_QUEUE_NUMS : Z := 16.
Definition READ_WRITE : Z := Z.lor PermName.PERM_READ PermName.PERM_WRITE.

Definition with_sys_flag (topic : string) (read write perm flag : Z) : BrokerTopicConfig :=
  mkBrokerTopic (mkTopicConfig (Some topic) read write perm flag) SingleTag false ∅.
Definition with_perm (topic : string) (read write perm : Z) : BrokerTopicConfig :=
  with_sys_flag topic read write perm 0.
Definition with_queues (topic : string) (read write : Z) : BrokerTopicConfig :=
  with_perm topic read write READ_WRITE.
Definition new_topic_config (topic : string) : BrokerTopicConfig :=
  with_queues topic DEFAULT_READ_QUEUE_NUMS DEFAULT_WRITE_QUEUE_NUMS.
Definition default_topic_config : BrokerTopicConfig :=
  mkBrokerTopic (mkTopicConfig None DEFAULT_READ_QUEUE_NUMS DEFAULT_WRITE_QUEUE_NUMS READ_WRITE 0)
    SingleTag false ∅.

(** [parse::<u32>] *)
Definition parse_u32 (s : string) : option Z :=
  n ← parse_u64 s; if n <? 2 ^ 32 then Some n else None.

Section Text.
(** JSON of the attributes (serde_json). *)
Variables (attrs_to_json : attrs → string) (attrs_from_json : string → option attrs).

Definition encode_topic (t : BrokerTopicConfig) : string :=
  let c := bt_config t in
  trim (default "" (topic_name c) +:+ " " +:+ pretty (tc_read_queue_nums c) +:+ " " +:+
        pretty (tc_write_queue_nums c) +:+ " " +:+ pretty (tc_perm c) +:+ " " +:+
        filter_type_str (topic_filter_type t) +:+ " " +:+
        (if bool_decide (bt_attributes t = ∅) then "" else attrs_to_json (bt_attributes t))).

Definition decode_topic (input : string) (t : BrokerTopicConfig) : bool * BrokerTopicConfig :=
  match split_char Byte.x20 input with
  | name :: r :: w :: p :: f :: rest =>
      (true, mkBrokerTopic
        (mkTopicConfig (Some name) (default DEFAULT_READ_QUEUE_NUMS (parse_u32 r))
           (default DEFAULT_WRITE_QUEUE_NUMS (parse_u32 w)) (default READ_WRITE (parse_u32 p))
           (tc_topic_sys_flag (bt_config t)))
        (filter_type_from f) (bt_order t)
        (match rest with
         | js :: _ => default (bt_attributes t) (attrs_from_json js)
         | [] => bt_attributes t
         end))
  | _ => (false, t)
  end.
End Text.

(** ** [TopicConfigManager] *)
Abbreviation topic_table := (gmap string BrokerTopicConfig).

(** The file with the table and the version, its backup, and the topics handed
    to the task that registers them, are part of the state. *)
Record TopicConfigManager := mkTopicManager {
  tcm_table : topic_table;
  tcm_version : DataVersion;
  tcm_file : ConfigFile (topic_table * DataVersion);
  tcm_registered : list BrokerTopicConfig;
}.

Record TopicManagerConfig := mkTopicManagerConfig {
  auto_create_topic_enable : bool;
  default_topic_queue_nums : Z;
  broker_cluster_name : string;
  tmc_broker_name : string;
  cluster_topic_enable : bool;
  broker_topic_enable : bool;
  trace_topic_enable : bool;
  msg_trace_topic_name : string;
  revive_queue_num : Z;
  timer_wheel_enable : bool;
  enable_split_registration : bool;
}.

Definition set_table (t : topic_table) (m : TopicConfigManager) : TopicConfigManager :=
  mkTopicManager t (tcm_version m) (tcm_file m) (tcm_registered m).
Definition set_version (v : DataVersion) (m : TopicConfigManager) : TopicConfigManager :=
  mkTopicManager (tcm_table m) v (tcm_file m) (tcm_registered m).
(** The text of the document is never empty. *)
Definition persist_topics (ws : written * written) (m : TopicConfigManager) : TopicConfigManager :=
  mkTopicManager (tcm_table m) (tcm_version m)
    (save ws (tcm_table m, tcm_version m) (tcm_file m)) (tcm_registered m).
Definition register_broker_data (t : BrokerTopicConfig) (m : TopicConfigManager)
  : TopicConfigManager :=
  mkTopicManager (tcm_table m) (tcm_version m) (tcm_file m) (tcm_registered m ++ [t]).

(** The name is unwrapped. *)
Definition put_topic_config (t : BrokerTopicConfig) (m : TopicConfigManager)
  : outcome TopicConfigManager :=
  let* name := unwrap (bt_name t) in
  Done (set_table (<[name := t]> (tcm_table m)) m).
Definition get_topic_config (topic : string) (m : TopicConfigManager)
  : option BrokerTopicConfig := tcm_table m !! topic.
Definition select_topic_config (topic : string) (m : TopicConfigManager)
  : option BrokerTopicConfig := tcm_table m !! topic.
Definition contains_topic (topic : string) (m : TopicConfigManager) : bool :=
  bool_decide (is_Some (tcm_table m !! topic)).
Definition is_order_topic (topic : string) (m : TopicConfigManager) : bool :=
  match get_topic_config topic m with None => false | Some t => bt_order t end.

Fixpoint put_topics (ts : list BrokerTopicConfig) (m : TopicConfigManager)
  : outcome TopicConfigManager :=
  match ts with
  | [] => Done m
  | t :: ts' => let* m := put_topic_config t m in put_topics ts' m
  end.

Definition REPLY_TOPIC_POSTFIX : string := "REPLY_TOPIC".
Definition TIMER_TOPIC : string := "rmq_sys_wheel_timer".
Definition SCHEDULE_TOPIC_QUEUE_NUM : Z := 18.

Section Manager.
Variable cfg : TopicManagerConfig.

Definition inherited (enabled : bool) : Z :=
  if enabled then Z.lor PermName.PERM_INHERIT READ_WRITE else PermName.PERM_INHERIT.
(** The topics [init] puts, in its order. *)
Definition initial_topics : list BrokerTopicConfig :=
  [with_queues RMQ_SYS_SELF_TEST_TOPIC 1 1] ++
  (if auto_create_topic_enable cfg
   then [with_perm AUTO_CREATE_TOPIC_KEY_TOPIC (default_topic_queue_nums cfg)
           (default_topic_queue_nums cfg) (Z.lor PermName.PERM_INHERIT READ_WRITE)] else []) ++
  [with_queues RMQ_SYS_BENCHMARK_TOPIC 1024 1024;
   with_perm (broker_cluster_name cfg) DEFAULT_READ_QUEUE_NUMS DEFAULT_WRITE_QUEUE_NUMS
     (inherited (cluster_topic_enable cfg));
   with_perm (tmc_broker_name cfg) 1 1 (inherited (broker_topic_enable cfg));
   with_queues RMQ_SYS_OFFSET_MOVED_EVENT 1 1;
   with_queues RMQ_SYS_SCHEDULE_TOPIC SCHEDULE_TOPIC_QUEUE_NUM SCHEDULE_TOPIC_QUEUE_NUM] ++
  (if trace_topic_enable cfg then [with_queues (msg_trace_topic_name cfg) 1 1] else []) ++
  [with_queues (tmc_broker_name cfg +:+ "_" +:+ REPLY_TOPIC_POSTFIX) 1 1;
   with_queues (build_cluster_revive_topic (broker_cluster_name cfg)) (revive_queue_num cfg)
     (revive_queue_num cfg);
   with_perm (SYNC_BROKER_MEMBER_GROUP_PREFIX +:+ "_" +:+ tmc_broker_name cfg) 1 1
     PermName.PERM_INHERIT;
   with_queues RMQ_SYS_TRANS_HALF_TOPIC 1 1;
   with_queues RMQ_SYS_TRANS_OP_HALF_TOPIC 1 1] ++
  (if timer_wheel_enable cfg then [with_queues TIMER_TOPIC 1 1] else []).
(** The topics [init] adds to the system topics. *)
Definition initial_system_topics : list string :=
  [broker_cluster_name cfg; tmc_broker_name cfg] ++
  (if trace_topic_enable cfg then [msg_trace_topic_name cfg] else []) ++
  [tmc_broker_name cfg +:+ "_" +:+ REPLY_TOPIC_POSTFIX;
   build_cluster_revive_topic (broker_cluster_name cfg);
   SYNC_BROKER_MEMBER_GROUP_PREFIX +:+ "_" +:+ tmc_broker_name cfg] ++
  (if timer_wheel_enable cfg then [TIMER_TOPIC] else []).
Definition init_topics (system_topics : gset string) (m : TopicConfigManager)
  : outcome (gset string * TopicConfigManager) :=
  let* m := put_topics initial_topics m in
  Done (foldl (λ s t, add_system_topic t s) system_topics initial_system_topics, m).
Definition new_topic_manager (now : Z) (init : bool) (system_topics : gset string)
  : outcome (gset string * TopicConfigManager) :=
  let m := mkTopicManager ∅ (mkDataVersion 0 now 0) (mkConfigFile Blank Blank) [] in
  if init then init_topics system_topics m else Done (system_topics, m).

Section Store.
(** The clock, the version of the state machine of the store (there is none
    without a store, and the operations that unwrap it panic), how the writes
    of the backup and of the file end, and the iteration order of a map. *)
Variables (now : Z) (store_version : option Z) (ws : written * written).
Variable order : attrs → list (string * string).

(** Moves the version on and writes the table. *)
Definition changed (m : TopicConfigManager) : outcome TopicConfigManager :=
  let* v := unwrap store_version in
  Done (persist_topics ws (set_version (next_version_with now v (tcm_version m)) m)).

Definition set_attributes (a : attrs) (t : BrokerTopicConfig) : BrokerTopicConfig :=
  mkBrokerTopic (bt_config t) (topic_filter_type t) (bt_order t) a.
Definition set_order (o : bool) (t : BrokerTopicConfig) : BrokerTopicConfig :=
  mkBrokerTopic (bt_config t) (topic_filter_type t) o (bt_attributes t).

Definition current_attributes (topic : string) (m : TopicConfigManager) : attrs :=
  match get_topic_config topic m with None => ∅ | Some t => bt_attributes t end.

(** [alter_current_attributes] takes the current attributes and then the
    request; it is called with the request and then the current attributes. *)
Definition update_topic_config (t : BrokerTopicConfig) (m : TopicConfigManager)
  : outcome (BrokerTopicConfig * TopicConfigManager) :=
  let new_attributes := bt_attributes t in
  let* name := unwrap (bt_name t) in
  let create := negb (contains_topic name m) in
  let t := set_attributes
    (match alter_current_attributes order create all_attributes new_attributes
             (current_attributes name m) with
     | inr final => final
     | inl _ => ∅
     end) t in
  let* m := put_topic_config t m in
  let* m := changed m in
  Done (t, m).
Fixpoint update_topic_config_list (ts : list BrokerTopicConfig) (m : TopicConfigManager)
  : outcome TopicConfigManager :=
  match ts with
  | [] => Done m
  | t :: ts' => let* (_, m) := update_topic_config t m in update_topic_config_list ts' m
  end.

Definition delete_topic_config (topic : string) (m : TopicConfigManager) : TopicConfigManager :=
  match tcm_table m !! topic with
  | Some _ =>
      let m := set_table (delete topic (tcm_table m)) m in
      persist_topics ws (set_version
        (next_version_with now (default 0 store_version) (tcm_version m)) m)
  | None => m
  end.

(** The new topic of a default topic that can be inherited. *)
Definition topic_from_default (topic : string) (client_queue_nums topic_sys_flag : Z)
    (d : BrokerTopicConfig) : BrokerTopicConfig :=
  let c := bt_config d in
  let queue_nums := Z.max (Z.min client_queue_nums (as_i32 (tc_write_queue_nums c))) 0 in
  mkBrokerTopic
    (mkTopicConfig (Some topic) (as_u32 queue_nums) (as_u32 queue_nums)
       (Z.ldiff (tc_perm c) PermName.PERM_INHERIT) topic_sys_flag)
    (topic_filter_type d) false ∅.
Definition is_inherited (perm : Z) : bool :=
  Z.land perm PermName.PERM_INHERIT =? PermName.PERM_INHERIT.

(** Puts a new topic, moves the version on, writes the table and registers the
    topic. *)
Definition create_topic (t : BrokerTopicConfig) (m : TopicConfigManager)
  : outcome (option BrokerTopicConfig * TopicConfigManager) :=
  let* m := put_topic_config t m in
  let* m := changed m in
  Done (Some t, register_broker_data t m).

(** [locked] says whether the lock is free within three seconds. *)
Definition create_topic_in_send_message_method (locked : bool) (topic default_topic : string)
    (client_queue_nums topic_sys_flag : Z) (m : TopicConfigManager)
  : outcome (option BrokerTopicConfig * TopicConfigManager) :=
  if negb locked then Done (None, m)
  else
    match get_topic_config topic m with
    | Some t => Done (Some t, m)
    | None =>
        match get_topic_config default_topic m with
        | None => Done (None, m)
        | Some d =>
            let perm :=
              if bool_decide (default_topic = AUTO_CREATE_TOPIC_KEY_TOPIC) &&
                 negb (auto_create_topic_enable cfg)
              then READ_WRITE else tc_perm (bt_config d) in
            if is_inherited perm
            then create_topic (topic_from_default topic client_queue_nums topic_sys_flag d) m
            else Done (None, m)
        end
    end.

Definition create_topic_in_send_message_back_method (locked : bool) (topic : string)
    (client_queue_nums perm : Z) (is_order : bool) (topic_sys_flag : Z) (m : TopicConfigManager)
  : outcome (option BrokerTopicConfig * TopicConfigManager) :=
  match get_topic_config topic m with
  | Some t =>
      if Bool.eqb is_order (bt_order t) then Done (Some t, m)
      else
        let* (t, m) := update_topic_config (set_order is_order t) m in
        Done (Some t, m)
  | None =>
      if negb locked then Done (None, m)
      else
        create_topic
          (mkBrokerTopic
             (mkTopicConfig (Some topic) (as_u32 client_queue_nums) (as_u32 client_queue_nums)
                perm topic_sys_flag) SingleTag is_order ∅) m
  end.

Definition create_topic_of_tran_check_max_time (locked : bool) (client_queue_nums perm : Z)
    (m : TopicConfigManager) : outcome (option BrokerTopicConfig * TopicConfigManager) :=
  match get_topic_config RMQ_SYS_TRANS_CHECK_MAX_TIME_TOPIC m with
  | Some t => Done (Some t, m)
  | None =>
      if negb locked then Done (None, m)
      else
        create_topic
          (with_sys_flag RMQ_SYS_TRANS_CHECK_MAX_TIME_TOPIC (as_u32 client_queue_nums)
             (as_u32 client_queue_nums) perm 0) m
  end.

(** What is sent to the name server: the given topics and the version. *)
Definition build_serialize_wrapper (table : topic_table) (m : TopicConfigManager)
  : TopicConfigManager * (topic_table * DataVersion) :=
  let m := if enable_split_registration cfg
           then set_version (next_version_with now 0 (tcm_version m)) m else m in
  (m, (table, tcm_version m)).
End Store.
End Manager.

(** [decode] of a parsed wrapper. *)
Definition load_topic_configs (version : option DataVersion) (table : option topic_table)
    (m : TopicConfigManager) : TopicConfigManager :=
  let m := match version with Some v => set_version v m | None => m end in
  match table with Some t => set_table (t ∪ tcm_table m) m | None => m end.
(** [load] from the files left behind. *)
Definition load_topic_file (f : ConfigFile (topic_table * DataVersion)) (m : TopicConfigManager)
  : outcome TopicConfigManager :=
  let* doc := read_saved f in
  Done (match doc with
        | Some (table, version) => load_topic_configs (Some version) (Some table) m
        | None => m
        end).

(** ** [SubscriptionGroupManager] *)

(** The retry policy and the set of subscriptions, which nothing here reads,
    are left out. *)
Record SubscriptionGroupConfig := mkGroupConfig {
  sg_group_name : string;
  consume_enable : bool;
  consume_from_min_enable : bool;
  consume_broadcast_enable : bool;
  consume_message_orderly : bool;
  retry_queue_nums : Z;
  retry_max_times : Z;
  sg_broker_id : Z;
  which_broker_when_consume_slowly : Z;
  notify_consumer_ids_changed_enable : bool;
  group_sys_flag : Z;
  consume_timeout_minute : Z;
  sg_attributes : attrs;
}.
Definition default_group_config (group : string) : SubscriptionGroupConfig :=
  mkGroupConfig group true false true false 1 16 MASTER_ID 1 true 0 15 ∅.

Record SubscriptionGroupManager := mkGroupManager {
  subscription_group_table : gmap string SubscriptionGroupConfig;
  forbidden_table : gmap string (gmap string Z);
  sgm_version : DataVersion;
  sgm_file : ConfigFile (gmap string SubscriptionGroupConfig * gmap string (gmap string Z) * DataVersion);
}.
Definition CHARACTER_MAX_LENGTH : nat := 255.
Definition is_sys_consumer_group (group : string) : bool := String.prefix "CID_RMQ_SYS_" group.

Definition find_subscription_group_config_inner (group : string) (m : SubscriptionGroupManager)
  : option SubscriptionGroupConfig := subscription_group_table m !! group.

Definition find_subscription_group_config (now : Z) (store_version : option Z)
    (ws : written * written) (auto_create_subscription_group : bool) (group : string) (m : SubscriptionGroupManager)
  : option SubscriptionGroupConfig * SubscriptionGroupManager :=
  match find_subscription_group_config_inner group m with
  | Some c => (Some c, m)
  | None =>
      if auto_create_subscription_group || is_sys_consumer_group group then
        if (CHARACTER_MAX_LENGTH <? str_len group)%nat || is_topic_or_group_illegal group
        then (None, m)
        else
          let c := default_group_config group in
          let table := <[group := c]> (subscription_group_table m) in
          let v := next_version_with now (default 0 store_version) (sgm_version m) in
          (Some c, mkGroupManager table (forbidden_table m) v
                     (save ws (table, forbidden_table m, v) (sgm_file m)))
      else (None, m)
  end.

Definition get_forbidden_internal (group topic : string) (m : SubscriptionGroupManager) : Z :=
  match forbidden_table m !! group with
  | Some ts =>
      match ts !! topic with
      | Some f => if f <? 0 then 0 else f
      | None => 0
      end
  | None => 0
  end.
(** The shift takes its distance modulo 32. *)
Definition get_forbidden (group topic : string) (forbidden_index : Z)
    (m : SubscriptionGroupManager) : bool :=
  let bit := as_i32 (Z.shiftl 1 (forbidden_index mod 32)) in
  Z.land (get_forbidden_internal group topic m) bit =? bit.

(** [decode] of a parsed wrapper. *)
Definition load_groups (w m : SubscriptionGroupManager) : SubscriptionGroupManager :=
  mkGroupManager (subscription_group_table w ∪ subscription_group_table m)
    (forbidden_table w ∪ forbidden_table m) (sgm_version w) (sgm_file m).

(** ** Runs of the topic table *)

Section Runs.
Variable cfg : TopicManagerConfig.
Variable order : attrs → list (string * string).

(** A change of the topics whose writes, if any, end as [ws] says. *)
Inductive topic_step (ws : written * written) : TopicConfigManager → TopicConfigManager → Prop :=
| ts_send now sv locked topic d q f r m m' :
    create_topic_in_send_message_method cfg now sv ws locked topic d q f m = Done (r, m') →
    topic_step ws m m'
| ts_send_back now sv locked topic q perm o f r m m' :
    create_topic_in_send_message_back_method now sv ws order locked topic q perm o f m =
      Done (r, m') →
    topic_step ws m m'
| ts_tran_check now sv locked q perm r m m' :
    create_topic_of_tran_check_max_time now sv ws locked q perm m = Done (r, m') →
    topic_step ws m m'
| ts_update now sv t r m m' :
    update_topic_config now sv ws order t m = Done (r, m') → topic_step ws m m'
| ts_delete now sv topic m : topic_step ws m (delete_topic_config now sv ws topic m)
| ts_report now table m : topic_step ws m (fst (build_serialize_wrapper cfg now table m)).
(** Changes whatever happens to their writes, and changes that are written. *)
Definition any_step (m m' : TopicConfigManager) : Prop := ∃ ws, topic_step ws m m'.
Definition whole_step : TopicConfigManager → TopicConfigManager → Prop := topic_step whole.

Definition initial_table : topic_table :=
  foldl (λ t c, match bt_name c with Some n => <[n := c]> t | None => t end) ∅
    (initial_topics cfg).

(** Names agree with the keys. *)
Definition named (t : topic_table) : Prop := ∀ k c, t !! k = Some c → bt_name c = Some k.
(** The file has the table, or nothing was written since the start. *)
Definition synced (m : TopicConfigManager) : Prop :=
  (∃ v, file_main (tcm_file m) = Saved (tcm_table m, v)) ∨
  (tcm_file m = mkConfigFile Blank Blank ∧ tcm_table m = initial_table).
(** What a change does to the table and to the file. *)
Definition kept_or_written (ws : written * written) (m m' : TopicConfigManager) : Prop :=
  (tcm_table m' = tcm_table m ∧ tcm_file m' = tcm_file m) ∨
  ∃ v, tcm_file m' = save ws (tcm_table m', v) (tcm_file m).

Lemma put_topics_spec (ts : list BrokerTopicConfig) (m : TopicConfigManager) :
  Forall (λ t, is_Some (bt_name t)) ts →
  put_topics ts m =
    Done (set_table (foldl (λ t c, match bt_name c with Some n => <[n := c]> t | None => t end)
                       (tcm_table m) ts) m).
Proof.
  intros HF. revert m. induction HF as [| t ts [n Hn] HF IH]; intros m; [by destruct m |].
  cbn [put_topics]. unfold put_topic_config. rewrite Hn. cbn [unwrap obind]. rewrite IH. cbn.
  by rewrite Hn.
Qed.
Lemma initial_named : Forall (λ t, is_Some (bt_name t)) (initial_topics cfg).
Proof.
  unfold initial_topics.
  repeat (apply Forall_app_2 || (apply Forall_cons_2; [by eexists |]) || apply Forall_nil_2 ||
          case_match).
Qed.

Lemma table_names (ts : list BrokerTopicConfig) (t0 : topic_table) :
  named t0 →
  named (foldl (λ t c, match bt_name c with Some n => <[n := c]> t | None => t end) t0 ts).
Proof.
  revert t0. induction ts as [| c ts IH]; intros t0 H0; [done |]. cbn [foldl]. apply IH.
  destruct (bt_name c) as [n |] eqn:Hn; [| done].
  intros k t [[<- <-] | [_ Ht]]%lookup_insert_Some; [done | by apply H0].
Qed.

Lemma new_topics now sys : ∃ sys',
  new_topic_manager cfg now true sys =
    Done (sys', mkTopicManager initial_table (mkDataVersion 0 now 0) (mkConfigFile Blank Blank) []) ∧
  named initial_table.
Proof.
  unfold new_topic_manager, init_topics. rewrite put_topics_spec by apply initial_named.
  cbn [obind]. eexists. split; [done |]. apply table_names. intros k t Hk. by rewrite lookup_empty in Hk.
Qed.

Lemma put_written now sv ws c m m1 m2 :
  put_topic_config c m = Done m1 → changed now sv ws m1 = Done m2 →
  (named (tcm_table m) → named (tcm_table m2)) ∧ kept_or_written ws m m2.
Proof.
  unfold put_topic_config, changed.
  destruct (bt_name c) as [n |] eqn:En; [| done]. cbn [unwrap obind]. intros [= <-].
  destruct sv as [v |]; [| done]. cbn [unwrap obind]. intros [= <-]. split; [| by right; eexists].
  intros Hn k t Ht. cbn in Ht. apply lookup_insert_Some in Ht as [[<- <-] | [_ Ht]]; [done | by apply Hn].
Qed.
Lemma create_topic_written now sv ws c m r m' :
  create_topic now sv ws c m = Done (r, m') →
  (named (tcm_table m) → named (tcm_table m')) ∧ kept_or_written ws m m'.
Proof.
  unfold create_topic. intros (m1 & H1 & H)%obind_done.
  apply obind_done in H as (m2 & H2 & [= <- <-]). exact (put_written _ _ _ _ _ _ _ H1 H2).
Qed.
Lemma update_topic_written now sv ws t m r m' :
  update_topic_config now sv ws order t m = Done (r, m') →
  (named (tcm_table m) → named (tcm_table m')) ∧ kept_or_written ws m m'.
Proof.
  unfold update_topic_config. intros (n & _ & H)%obind_done.
  apply obind_done in H as (m1 & H1 & H). apply obind_done in H as (m2 & H2 & [= <- <-]).
  exact (put_written _ _ _ _ _ _ _ H1 H2).
Qed.

Lemma topic_step_written ws m m' :
  topic_step ws m m' →
  (named (tcm_table m) → named (tcm_table m')) ∧ kept_or_written ws m m'.
Proof.
  assert (∀ m, (named (tcm_table m) → named (tcm_table m)) ∧ kept_or_written ws m m) as Hsame
    by (intros m0; split; [done | by left]).
  intros Hs. inversion Hs as [? ? ? ? ? ? ? ? ? ? H | ? ? ? ? ? ? ? ? ? ? ? H
    | ? ? ? ? ? ? ? ? H | ? ? ? ? ? ? H | |]; subst.
  - unfold create_topic_in_send_message_method in H. destruct (negb locked); [by injection H as <- <- |].
    destruct (get_topic_config topic m); [by injection H as <- <- |].
    destruct (get_topic_config d m); [| by injection H as <- <-].
    destruct (is_inherited _); [by eapply create_topic_written | by injection H as <- <-].
  - unfold create_topic_in_send_message_back_method in H.
    destruct (get_topic_config topic m) as [t |].
    + destruct (Bool.eqb _ _); [by injection H as <- <- |].
      apply obind_done in H as ([t' m1] & H1 & [= <- <-]). by eapply update_topic_written.
    + destruct (negb locked); [by injection H as <- <- | by eapply create_topic_written].
  - unfold create_topic_of_tran_check_max_time in H.
    destruct (get_topic_config _ m); [by injection H as <- <- |].
    destruct (negb locked); [by injection H as <- <- | by eapply create_topic_written].
  - by eapply update_topic_written.
  - unfold delete_topic_config. destruct (tcm_table m !! topic); [| done].
    split; [| right; by eexists]. intros Hn k c Hk. cbn in Hk.
    apply lookup_delete_Some in Hk as [_ Hk]. by apply Hn.
  - unfold build_serialize_wrapper. destruct (enable_split_registration cfg); [| apply Hsame].
    split; [done | by left].
Qed.

Lemma any_run_named m m' : rtc any_step m m' → named (tcm_table m) → named (tcm_table m').
Proof.
  induction 1 as [| m m1 m' [ws Hs] _ IH]; [done |]. intros Hn. by apply IH, (topic_step_written ws m).
Qed.
(** Changes that are written bring the file in step with the table. *)
Lemma whole_run_synced m m' :
  rtc whole_step m m' →
  (named (tcm_table m) → named (tcm_table m')) ∧
  (synced m ∨ tcm_table m ≠ tcm_table m' → synced m').
Proof.
  intros Hr. induction Hr as [m | m m1 m' Hs Hr [IHn IHs]];
    [split; [done | by intros [? | ?]] |].
  destruct (topic_step_written _ _ _ Hs) as [Hn [[Et Ef] | [v Ef]]]; (split; [by intros ?%Hn%IHn |]).
  - intros H. apply IHs. rewrite Et. destruct H as [H | H]; [left | by right].
    unfold synced in *. by rewrite Et, Ef.
  - intros _. apply IHs. left. left. exists v. by rewrite Ef.
Qed.

(** C28: Topics are created, changed and deleted, and the writes of some of the
    changes go wrong, in any way.  When the changes since some point are all
    written, and one of them changed the table or the point is the start, then
    a broker that starts again, with the topics it always has, loads the file
    and knows every topic that was known, under its name and with the same
    configuration; a topic that was not known is one of those it always has. *)
Theorem topics_survive_restart (now now' : Z) (sys sys' sys1 : gset string)
    (m0 ma m m1 : TopicConfigManager) :
  new_topic_manager cfg now true sys = Done (sys', m0) → rtc any_step m0 ma →
  rtc whole_step ma m → ma = m0 ∨ tcm_table ma ≠ tcm_table m →
  new_topic_manager cfg now' true sys' = Done (sys1, m1) →
  ∃ restarted, load_topic_file (tcm_file m) m1 = Done restarted ∧
  (∀ k t, tcm_table m !! k = Some t → bt_name t = Some k ∧ tcm_table restarted !! k = Some t) ∧
  ∀ k t, tcm_table m !! k = None → tcm_table restarted !! k = Some t →
         initial_table !! k = Some t.
Proof.
  intros H0 Ha Hw Hc H1. destruct (new_topics now sys) as (s1 & E0 & Hok0).
  rewrite E0 in H0. injection H0 as _ <-.
  destruct (new_topics now' sys') as (s2 & E1 & _). rewrite E1 in H1. injection H1 as _ <-.
  destruct (whole_run_synced _ _ Hw) as [Hn Hs].
  assert (named (tcm_table m)) as Hm by (by apply Hn, (any_run_named _ _ Ha)).
  assert (synced m) as [[v Hf] | [Hf Ht]].
  { apply Hs. destruct Hc as [-> | Hc]; [left; by right | by right]. }
  - unfold load_topic_file, read_saved. rewrite Hf. cbn [obind]. eexists. split; [done |]. cbn. split.
    + intros k t Hk. split; [by apply Hm |]. apply lookup_union_Some_raw. by left.
    + intros k t Hk Ht. apply lookup_union_Some_raw in Ht as [Ht | [_ Ht]]; [congruence | done].
  - unfold load_topic_file, read_saved. rewrite Hf. cbn. eexists. split; [done |]. cbn. rewrite Ht.
    split; [| congruence]. intros k t Hk. split; [by apply Hm; rewrite Ht | done].
Qed.
End Runs.

(** A topic of the example survives, also when the write of the topic created
    before it was refused. *)
Definition example_manager_config : TopicManagerConfig :=
  mkTopicManagerConfig true 8 "cluster" "broker-a" true true false "" 8 false false.
Definition example_manager : TopicConfigManager :=
  mkTopicManager (initial_table example_manager_config) (mkDataVersion 0 0 0)
    (mkConfigFile Blank Blank) [].
Definition send_to (ws : written * written) (topic : string) (m : TopicConfigManager)
  : outcome (option BrokerTopicConfig * TopicConfigManager) :=
  create_topic_in_send_message_method example_manager_config 5 (Some 0) ws true topic
    AUTO_CREATE_TOPIC_KEY_TOPIC 4 0 m.
Definition sent_to (ws : written * written) (topic : string) (m : TopicConfigManager)
  : TopicConfigManager :=
  match send_to ws topic m with Done (_, m) => m | Panic => m end.
Definition refused_manager : TopicConfigManager := sent_to (Whole, Refused) "payments" example_manager.
Definition created_manager : TopicConfigManager := sent_to whole "orders" refused_manager.

Lemma topics_survive_restart_witness :
  ∃ t t' m', tcm_table created_manager !! "orders" = Some t ∧
    tcm_table created_manager !! "payments" = Some t' ∧
    load_topic_file (tcm_file created_manager) (set_version (mkDataVersion 0 9 0) example_manager) = Done m' ∧
    tcm_table m' !! "orders" = Some t ∧ tcm_table m' !! "payments" = Some t'.
Proof.
  destruct (new_topics example_manager_config 0 ∅) as (sys' & H0 & _).
  destruct (new_topics example_manager_config 9 sys') as (sys1 & H1 & _).
  assert (∀ ws topic m, send_to ws topic m =
    Done (match send_to ws topic m with Done (r, _) => r | Panic => None end, sent_to ws topic m) →
    topic_step example_manager_config map_to_list ws m (sent_to ws topic m)) as Hstep
    by (intros ws topic m; apply ts_send).
  destruct (topics_survive_restart example_manager_config map_to_list 0 9 ∅ sys' sys1 _
    refused_manager created_manager (set_version (mkDataVersion 0 9 0) example_manager) H0) as (m' & Hm & Hk & _);
    [apply rtc_once; exists (Whole, Refused); apply Hstep; vm_compute; reflexivity
    | apply rtc_once, Hstep; vm_compute; reflexivity
    | right; intros E; apply (f_equal (.!! "orders")) in E; vm_compute in E; discriminate E
    | exact H1 |].
  destruct (tcm_table created_manager !! "orders") as [t |] eqn:Et;
    [| vm_compute in Et; discriminate Et].
  destruct (tcm_table created_manager !! "payments") as [t' |] eqn:Et';
    [| vm_compute in Et'; discriminate Et'].
  exists t, t', m'. split_and!; [done | done | exact Hm | by apply Hk | by apply Hk].
Defined.

(** A topic whose write was refused is used until the broker stops and unknown
    when it starts again; one whose write was cut makes the start panic. *)
Lemma unwritten_topic_lost :
  is_Some (tcm_table refused_manager !! "payments") ∧
  (∃ m', load_topic_file (tcm_file refused_manager) example_manager = Done m' ∧
     tcm_table m' !! "payments" = None) ∧
  load_topic_file (tcm_file (sent_to (Whole, Cut 7 false) "payments" example_manager)) example_manager = Panic.
Proof.
  split_and!; [by eexists; vm_compute | | by vm_compute].
  eexists. split; [by vm_compute |]. by vm_compute.
Qed.

(** ** Attributes of a topic *)

(** The request and the current attributes change places: a new topic gets the
    keys of the request as they are, whatever they say, and a topic that has
    attributes loses them all, whatever is asked. *)
Theorem update_topic_attributes (now v : Z) (ws : written * written) (order : attrs → list (string * string))
    (t : BrokerTopicConfig) (name : string) (m : TopicConfigManager) :
  (∀ a, order a ≡ₚ map_to_list a) → bt_name t = Some name →
  (get_topic_config name m = None →
   ∃ m', update_topic_config now (Some v) ws order t m = Done (t, m') ∧
         get_topic_config name m' = Some t) ∧
  ∀ old, get_topic_config name m = Some old → bt_attributes old ≠ ∅ →
    (∀ k, is_Some (bt_attributes old !! k) → good_key k) →
    ∃ m', update_topic_config now (Some v) ws order t m = Done (set_attributes ∅ t, m') ∧
          get_topic_config name m' = Some (set_attributes ∅ t).
Proof.
  intros Ho Hn.
  assert (∀ a, ∃ m', (let* m1 := put_topic_config (set_attributes a t) m in
      let* m1 := changed now (Some v) ws m1 in Done (set_attributes a t, m1)) =
      Done (set_attributes a t, m') ∧ get_topic_config name m' = Some (set_attributes a t)) as Hput.
  { intros a. unfold put_topic_config.
    assert (bt_name (set_attributes a t) = Some name) as -> by done.
    cbn [unwrap obind changed]. eexists. split; [done |].
    unfold get_topic_config. cbn. by rewrite lookup_insert_eq. }
  unfold update_topic_config. rewrite Hn. cbn [unwrap obind]. unfold contains_topic, current_attributes.
  split.
  - intros Hg. rewrite Hg. unfold get_topic_config in Hg. rewrite Hg.
    rewrite bool_decide_false by (by intros [? ?]). cbn [negb].
    rewrite (proj2 (alter_iff order Ho true all_attributes (bt_attributes t) ∅ (bt_attributes t))).
    + destruct (Hput (bt_attributes t)) as (m' & H1 & H2). exists m'.
      by replace (set_attributes (bt_attributes t) t) with t in * by (by destruct t).
    + split; [intros k x; by rewrite lookup_empty |]. intros k. unfold altered. by rewrite !lookup_empty.
  - intros old Hg Hne Hgood. rewrite Hg. unfold get_topic_config in Hg. rewrite Hg.
    rewrite bool_decide_true by (by eexists). cbn [negb].
    destruct (alter_current_attributes _ _ _ _ _) as [e | final] eqn:E; [apply Hput |].
    apply (alter_iff order Ho) in E as [Hok _]. exfalso.
    destruct (map_choose _ Hne) as (key & x & Hk).
    destruct (Hok key x Hk) as (mi & k & a & -> & _).
    destruct (Hgood _ (mk_is_Some _ _ Hk)) as (_ & Hp & Hmi). rewrite op_key_bytes in Hp, Hmi.
    destruct mi; [apply Hmi | apply Hp]; apply list_elem_of_here.
Qed.

Definition typed_topic (kind : string) : BrokerTopicConfig :=
  mkBrokerTopic (mkTopicConfig (Some "orders") 4 4 6 0) SingleTag false {["message.type" := kind]}.
Lemma update_topic_attributes_witness :
  ∃ m', update_topic_config 5 (Some 0) whole map_to_list
    (set_attributes {["+message.type" := "FIFO"]} (typed_topic "NORMAL"))
    (set_table {["orders" := typed_topic "NORMAL"]} example_manager) =
    Done (set_attributes ∅ (typed_topic "NORMAL"), m') ∧
  get_topic_config "orders" m' = Some (set_attributes ∅ (typed_topic "NORMAL")).
Proof.
  destruct (update_topic_attributes 5 0 whole map_to_list
    (set_attributes {["+message.type" := "FIFO"]} (typed_topic "NORMAL")) "orders"
    (set_table {["orders" := typed_topic "NORMAL"]} example_manager)) as [_ H];
    [done | done |].
  apply (H (typed_topic "NORMAL")).
  - apply lookup_singleton_eq.
  - apply insert_non_empty.
  - intros k [v Hk]. cbn [typed_topic bt_attributes] in Hk.
    apply lookup_singleton_Some in Hk as [<- _].
    split_and!; [done | apply (bool_decide_unpack _); by vm_compute..].
Defined.

(** ** The text of a topic *)

(** No whitespace starts with the byte. *)
Definition opaque (ws : list buffer) (b : byte) : Prop :=
  Forall (λ w, head w ≠ Some b ∧ w ≠ []) ws.
#[export] Instance opaque_dec ws b : Decision (opaque ws b).
Proof. unfold opaque. apply _. Defined.

Lemma strip_opaque (ws : list buffer) (fuel : nat) (b : byte) (bs : buffer) :
  head bs = Some b → opaque ws b → strip ws fuel bs = bs.
Proof.
  destruct bs as [| b' bs]; intros [= ->] Hb. destruct fuel; [done |]. cbn [strip].
  assert (strip_one ws (b :: bs) = None) as ->; [| done].
  unfold strip_one. rewrite (proj2 (list_find_None _ _)); [done |].
  eapply Forall_impl; [exact Hb |]. intros [| c w] [Hh Hn] Ht; [done |].
  cbn in Ht. injection Ht as <- _. done.
Qed.
Lemma valid_char_opaque (b : byte) : valid_char b = true → opaque whitespace b.
Proof.
  intros Hv. apply Forall_forall. intros w Hw. split; [| intros ->; vm_compute in Hw; set_solver].
  intros Hh. assert (forallb (λ w, match head w with Some c => negb (valid_char c) | None => true end)
    whitespace = true) as Hall by (by vm_compute).
  rewrite forallb_forall in Hall. specialize (Hall w (proj1 (list_elem_of_In _ _) Hw)).
  rewrite Hh, Hv in Hall. done.
Qed.

(** A text between bytes that are not white space, with or without a space
    after it. *)
Lemma trim_framed (s : string) (b e : byte) :
  head (str_bytes s) = Some b → last (str_bytes s) = Some e →
  opaque whitespace b → opaque (reverse <$> whitespace) e →
  trim s = s ∧ trim (s +:+ " ") = s.
Proof.
  intros Hh Hl Hb He. assert (head (reverse (str_bytes s)) = Some e) as Hr by (by rewrite head_reverse).
  assert (bytes_str (reverse (reverse (str_bytes s))) = s) as Hs
    by (by rewrite reverse_involutive, bytes_str_bytes).
  unfold trim. split.
  - rewrite (strip_opaque whitespace _ b), (strip_opaque (reverse <$> whitespace) _ e) by assumption. exact Hs.
  - rewrite str_bytes_app. change (str_bytes " ") with [Byte.x20].
    rewrite (strip_opaque whitespace _ b); [| by destruct (str_bytes s) | exact Hb].
    rewrite reverse_app, reverse_singleton, length_app, Nat.add_comm. cbn [app length Nat.add strip].
    assert (strip_one (reverse <$> whitespace) (Byte.x20 :: reverse (str_bytes s)) =
      Some (reverse (str_bytes s))) as -> by reflexivity.
    rewrite (strip_opaque (reverse <$> whitespace) _ e) by assumption. exact Hs.
Qed.

Lemma parse_u32_pretty (z : Z) : in_u 32 z → parse_u32 (pretty z) = Some z.
Proof.
  intros H. unfold parse_u32. enough (parse_u64 (pretty z) = Some z) as ->.
  { cbn. by rewrite (proj2 (Z.ltb_lt _ _)) by in_range. }
  destruct z as [| p | p]; [done | | in_range].
  destruct (pretty_pos_digits p) as (Hd & Hn & Hp). unfold parse_u64.
  change (pretty (Z.pos p)) with (pretty p).
  rewrite <- (Hp ltac:(in_range)). destruct (str_bytes (pretty p)) as [| c cs]; [done |].
  inversion Hd as [| ? ? [v Hv] _]; subst. rewrite decide_False; [done | by intros ->].
Qed.

Section TopicText.
Variables (attrs_to_json : attrs → string) (attrs_from_json : string → option attrs).
Notation encode_topic := (encode_topic attrs_to_json).
Notation decode_topic := (decode_topic attrs_from_json).

(** The attributes as an object, in a text with no space, that is read back:
    what serde_json writes when no key or value has a space. *)
Definition attrs_text (a : attrs) : Prop :=
  head (str_bytes (attrs_to_json a)) = Some Byte.x7b ∧
  last (str_bytes (attrs_to_json a)) = Some Byte.x7d ∧
  Byte.x20 ∉ str_bytes (attrs_to_json a) ∧ attrs_from_json (attrs_to_json a) = Some a.

(** The five parts that are always written. *)
Definition topic_parts (name : string) (t : BrokerTopicConfig) : list string :=
  let c := bt_config t in
  [name; pretty (tc_read_queue_nums c); pretty (tc_write_queue_nums c); pretty (tc_perm c);
   filter_type_str (topic_filter_type t)].

Lemma filter_type_roundtrip (f : TopicFilterType) : filter_type_from (filter_type_str f) = f.
Proof. by destruct f. Qed.

Lemma legal_name_bytes (name : string) :
  validate_topic name = (true, "") →
  ∃ b bs, str_bytes name = b :: bs ∧ opaque whitespace b ∧ Byte.x20 ∉ str_bytes name.
Proof.
  unfold validate_topic, is_topic_or_group_illegal. destruct (decide (trim name = "")) as [| Ht]; [done |].
  destruct (forallb valid_char (str_bytes name)) eqn:Hv; [| done]. intros _.
  rewrite forallb_forall in Hv. setoid_rewrite <- list_elem_of_In in Hv.
  destruct (str_bytes name) as [| b bs] eqn:E.
  - exfalso. apply Ht. by rewrite <- (bytes_str_bytes name), E.
  - exists b, bs. split_and!; [done | by apply valid_char_opaque, Hv, list_elem_of_here |].
    intros Hin. by specialize (Hv _ Hin).
Qed.

Lemma topic_parts_plain (name : string) (t : BrokerTopicConfig) :
  Byte.x20 ∉ str_bytes name → Forall (λ s, Byte.x20 ∉ str_bytes s) (topic_parts name t).
Proof.
  intros Hn. repeat constructor; [done | by apply pretty_not_byte.. |].
  destruct (topic_filter_type t); apply (bool_decide_unpack _); by vm_compute.
Qed.

Lemma join_last (sep : string) (parts : list string) (s : string) (e : byte) :
  last (str_bytes s) = Some e → last (str_bytes (join sep (parts ++ [s]))) = Some e.
Proof.
  intros Hs. induction parts as [| p parts IH]; [done |]. cbn [app].
  destruct (parts ++ [s]) as [| q qs] eqn:E; [by destruct parts |].
  change (join sep (p :: q :: qs)) with (p +:+ (sep +:+ join sep (q :: qs))).
  rewrite !str_bytes_app, app_assoc. apply last_app_Some. by left.
Qed.
Lemma join_head (sep : string) (parts : list string) (s : string) (b : byte) :
  head (str_bytes s) = Some b → head (str_bytes (join sep (s :: parts))) = Some b.
Proof.
  intros Hs. destruct parts as [| p parts]; [done |].
  change (join sep (s :: p :: parts)) with (s +:+ (sep +:+ join sep (p :: parts))).
  rewrite str_bytes_app. by destruct (str_bytes s).
Qed.

Lemma encode_topic_parts (name : string) (t : BrokerTopicConfig) :
  bt_name t = Some name → validate_topic name = (true, "") →
  (bt_attributes t ≠ ∅ → attrs_text (bt_attributes t)) →
  encode_topic t =
    join " " (topic_parts name t ++
      (if bool_decide (bt_attributes t = ∅) then [] else [attrs_to_json (bt_attributes t)])).
Proof.
  intros Hn (b & bs & Hb & Hw & _)%legal_name_bytes Ha. unfold encode_topic. unfold bt_name in Hn.
  rewrite Hn. cbn [default].
  assert (head (str_bytes name) = Some b) as Hh by (by rewrite Hb).
  case_bool_decide as He.
  - rewrite app_nil_r. destruct (trim_framed (join " " (topic_parts name t)) b Byte.x47) as [_ <-]; [by apply join_head | | done | |].
    + apply (join_last _ (take 4 (topic_parts name t))). by destruct (topic_filter_type t).
    + apply (bool_decide_unpack _); by vm_compute.
    + f_equal. unfold topic_parts. cbn [join app]. by rewrite !string_app_assoc.
  - destruct (Ha He) as (Hjh & Hjl & _ & _).
    match goal with |- _ = ?r => destruct (trim_framed r b Byte.x7d) as [<- _] end;
      [by apply join_head | by apply join_last | done | |].
    + apply (bool_decide_unpack _); by vm_compute.
    + reflexivity.
Qed.

(** A topic with a legal name, with no attributes or with attributes whose text
    has no space, is read back from its text: its name, queues, permission,
    filter and attributes.  The order flag, the system flag and, where the text
    has no attributes, the attributes are those the reader had. *)
Theorem topic_text_roundtrip (name : string) (t d : BrokerTopicConfig) :
  let c := bt_config t in
  bt_name t = Some name → validate_topic name = (true, "") →
  in_u 32 (tc_read_queue_nums c) → in_u 32 (tc_write_queue_nums c) → in_u 32 (tc_perm c) →
  (bt_attributes t ≠ ∅ → attrs_text (bt_attributes t)) →
  decode_topic (encode_topic t) d =
    (true, mkBrokerTopic
       (mkTopicConfig (Some name) (tc_read_queue_nums c) (tc_write_queue_nums c) (tc_perm c)
          (tc_topic_sys_flag (bt_config d)))
       (topic_filter_type t) (bt_order d)
       (if bool_decide (bt_attributes t = ∅) then bt_attributes d else bt_attributes t)).
Proof.
  intros c Hn Hv Hr Hw Hp Ha. rewrite (encode_topic_parts name) by done.
  destruct (legal_name_bytes _ Hv) as (b & bs & _ & _ & Hsp).
  pose proof (topic_parts_plain name t Hsp) as HF.
  unfold decode_topic. rewrite split_char_join; [| done | by case_bool_decide |].
  - unfold topic_parts. cbn [app]. rewrite !parse_u32_pretty, filter_type_roundtrip by done.
    cbn [default]. case_bool_decide as He; [done |].
    destruct (Ha He) as (_ & _ & _ & ->). done.
  - apply Forall_app_2; [done |]. case_bool_decide as He; [done |].
    apply Forall_singleton, (Ha He).
Qed.
End TopicText.

Definition fifo_attrs : attrs := {["message.type" := "FIFO"]}.
(** The text serde_json writes for them, byte by byte. *)
Definition fifo_json : string :=
  bytes_str ([Byte.x7b; Byte.x22] ++ str_bytes "message.type" ++ [Byte.x22; Byte.x3a; Byte.x22] ++
             str_bytes "FIFO" ++ [Byte.x22; Byte.x7d]).
Lemma topic_text_roundtrip_witness :
  decode_topic (λ s, if decide (s = fifo_json) then Some fifo_attrs else None)
    (encode_topic (λ _, fifo_json)
       (mkBrokerTopic (mkTopicConfig (Some "orders") 4 4 6 7) MultiTag true fifo_attrs))
    default_topic_config =
  (true, mkBrokerTopic (mkTopicConfig (Some "orders") 4 4 6 0) MultiTag false fifo_attrs).
Proof.
  rewrite (topic_text_roundtrip (λ _, fifo_json)
    (λ s, if decide (s = fifo_json) then Some fifo_attrs else None) "orders");
    [| done | by vm_compute | by vm_compute.. |].
  - rewrite bool_decide_false by apply insert_non_empty. done.
  - intros _. split_and!; [done | done | apply (bool_decide_unpack _); by vm_compute |].
    by rewrite decide_True.
Defined.
