(* ===== verification/Subscriptions.v ===== *)
(** * Subscriptions: expressions of tags and the two filters
    ([filter_api.rs], [expression_message_filter.rs], [pull_api_wrapper.rs])

    A consumer subscribes to a topic with an expression, tags separated by two
    bars.  The broker filters by the hash of the tag it finds in the consume
    queue; the client filters the messages it gets again, by the tag itself. *)

From stdpp Require Import base gmap list strings pretty.
From coqutil Require Import Byte.
From Stdlib Require Import ZArith Lia.
From S2P Require Import Prelude Bytes Utf8 Numerals Hasher Message Properties MessageDecoder MessageCodec MessageUtils CheckMessage RouteInfo Rebalance LockManager ProcessQueue PopInfo ClientManagers TopicConfigs.
Open Scope Z_scope.
Open Scope rmq_scope.

(** ** [ExpressionType] and [SubscriptionData] *)
Definition SQL92 : string := "SQL92".
Definition TAG : string := "TAG".
Definition is_tag_type (t : option string) : bool :=
  match t with None => true | Some s => bool_decide (s = "") || bool_decide (s = TAG) end.

Definition SUB_ALL : string := "*".
Definition default_subscription (now : Z) : SubscriptionData :=
  mkSub false "" "" ∅ ∅ now TAG "".

(** ** [FilterAPI] *)

(** The subscription with one more part of the expression. *)
Definition add_tag (d : SubscriptionData) (tag : string) : SubscriptionData :=
  let trimmed_tag := trim tag in
  if decide (trimmed_tag = "") then d
  else mkSub (class_filter_mode d) (sub_topic d) (sub_string d) ({[trimmed_tag]} ∪ tags_set d)
         ({[hash_str tag]} ∪ code_set d) (sub_version d) (expression_type d)
         (filter_class_source d).

Definition build_subscription_data (now : Z) (topic sub : string) : string + SubscriptionData :=
  let d := mkSub false topic sub ∅ ∅ now TAG "" in
  if bool_decide (sub = "") || bool_decide (sub = SUB_ALL) then
    inr (mkSub false topic SUB_ALL ∅ ∅ now TAG "")
  else
    match split_text "||" sub with
    | [] => inl "subString split error"
    | tags => inr (foldl add_tag d tags)
    end.
Definition set_expression_type (t : string) (d : SubscriptionData) : SubscriptionData :=
  mkSub (class_filter_mode d) (sub_topic d) (sub_string d) (tags_set d) (code_set d)
    (sub_version d) t (filter_class_source d).
Definition build_subscription_data_with_expression_type (now : Z) (topic sub : string)
    (expr : option string) : string + SubscriptionData :=
  match build_subscription_data now topic sub with
  | inl e => inl e
  | inr d => inr (match expr with Some t => set_expression_type t d | None => d end)
  end.
Definition build (now : Z) (topic sub : string) (type : option string)
  : string + SubscriptionData :=
  match type with
  | None => build_subscription_data now topic sub
  | Some t =>
      if decide (t = TAG) then build_subscription_data now topic sub
      else if decide (sub = "") then inl ("Expression can't be null! " +:+ t)
      else inr (set_expression_type t (mkSub false topic sub ∅ ∅ now TAG ""))
  end.

(** ** [ExpressionMessageFilter] *)

(** What the filter of a group was compiled to: a function of the properties
    of a message, [None] where it fails or gives no boolean. *)
Record ConsumerFilterData := mkFilterData {
  fd_expression : option string;
  fd_expression_type : option string;
  compiled_expression : option (option (gmap string string) → option bool);
}.

(** An expression in SQL is not implemented. *)
Definition matched_by_consume_queue (subscription : option SubscriptionData)
    (tags_code : option Z) : outcome bool :=
  match subscription with
  | None => Done true
  | Some d =>
      if class_filter_mode d then Done true
      else if is_tag_type (Some (expression_type d)) then
        match tags_code with
        | None => Done true
        | Some code =>
            if decide (sub_string d = SUB_ALL) then Done true
            else Done (bool_decide (as_i32 code ∈ code_set d))
        end
      else Panic
  end.

Section CommitLogSide.
Variable decode_properties : buffer → outcome (option (gmap string string)).

(** Properties that are given are not looked at. *)
Definition matched_by_commit_log (subscription : option SubscriptionData)
    (filter_data : option ConsumerFilterData) (msg_buffer : option buffer)
    (properties : option (gmap string string)) : outcome bool :=
  match subscription with
  | None => Done true
  | Some d =>
      if class_filter_mode d then Done true
      else if is_tag_type (Some (expression_type d)) then Done true
      else
        match filter_data with
        | Some (mkFilterData (Some _) (Some _) (Some evaluate)) =>
            let* temp_properties :=
              match properties, msg_buffer with
              | None, Some bytes => decode_properties bytes
              | _, _ => Done None
              end in
            Done (default false (evaluate temp_properties))
        | _ => Done true
        end
  end.
End CommitLogSide.

(** ** [PullAPIWrapper] *)
Inductive PullStatus := Found | NoNewMsg | NoMatchedMsg | OffsetIllegal.
Definition pull_status_from (i : Z) : PullStatus :=
  if i =? 0 then Found else if i =? 1 then NoNewMsg else if i =? 2 then NoMatchedMsg
  else if i =? 3 then OffsetIllegal else Found.
Definition pull_status_code (s : PullStatus) : Z :=
  match s with Found => 0 | NoNewMsg => 1 | NoMatchedMsg => 2 | OffsetIllegal => 3 end.

Record PullResult := mkPullResult {
  pull_status : PullStatus;
  next_begin_offset : Z;
  pr_min_offset : Z;
  pr_max_offset : Z;
  msg_found_list : option (list MessageExt);
}.
Record PullResultExt := mkPullResultExt {
  pull_result : PullResult;
  suggest_which_broker_id : Z;
  message_binary : option buffer;
  offset_delta : option Z;
}.

Definition PROPERTY_MIN_OFFSET : string := "MIN_OFFSET".
Definition PROPERTY_WAIT_STORE_MSG_OK : string := "WAIT".
Definition PROPERTY_TRANSACTION_PREPARED : string := "TRAN_MSG".
Definition NEED_UNWRAP_FLAG : Z := Z.shiftl 1 6.

Definition get_tags (m : MessageExt) : option string :=
  properties (message m) !! MessageConst.PROPERTY_TAGS.
Definition bool_str (b : bool) : string := if b then "true" else "false".
(** [parse::<bool>] *)
Definition parse_bool_exact (s : string) : option bool :=
  if decide (s = "true") then Some true else if decide (s = "false") then Some false else None.
Definition message_wait_store_ok (m : Message) : bool :=
  match properties m !! PROPERTY_WAIT_STORE_MSG_OK with
  | None => true
  | Some v => default true (parse_bool_exact v)
  end.

Definition set_properties (p : gmap string string) (m : Message) : Message :=
  mkMessage (topic m) (flag m) p (body m) (compressed_body m) (transaction_id m).
Definition put_property (k v : string) (m : Message) : Message :=
  set_properties (<[k := v]> (properties m)) m.

(** One message of a batch, with the fields of the batch. *)
Definition inner_message (outer : MessageExt) (m : Message) : MessageExt :=
  let m := mkMessage (topic (message outer)) (flag (message outer)) (properties m) (body m)
             (compressed_body m) (transaction_id m) in
  let m := put_property PROPERTY_WAIT_STORE_MSG_OK (bool_str (message_wait_store_ok (message outer))) m in
  mkMessageExt m "" (queue_id outer) 0 (queue_offset outer) (sys_flag outer) (born_timestamp outer)
    (born_host outer) (store_timestamp outer) (store_host outer) "" (commit_log_offset outer) 0 0 0.
(** [None] when the fuel of [decode_messages] runs out. *)
Definition decode_messages_from (m : MessageExt) : option (outcome (list MessageExt)) :=
  match body (message m) with
  | None => Some Panic
  | Some b =>
      match decode_messages b with
      | None => None
      | Some ms => Some (let* ms := ms in Done (map (inner_message m) ms))
      end
  end.

Definition is_inner_batch (m : MessageExt) : bool :=
  MessageSysFlag.check (sys_flag m) MessageSysFlag.INNER_BATCH_FLAG &&
  MessageSysFlag.check (sys_flag m) NEED_UNWRAP_FLAG.
Fixpoint unwrap_batches (ms : list MessageExt) : option (outcome (list MessageExt)) :=
  match ms with
  | [] => Some (Done [])
  | m :: ms' =>
      match (if is_inner_batch m then decode_messages_from m else Some (Done [m])),
            unwrap_batches ms' with
      | Some inner, Some rest => Some (let* inner := inner in let* rest := rest in Done (inner ++ rest))
      | _, _ => None
      end
  end.

(** The second filter. *)
Definition tag_wanted (d : SubscriptionData) (m : MessageExt) : bool :=
  match get_tags m with Some t => bool_decide (t ∈ tags_set d) | None => false end.
Definition filter_again (d : SubscriptionData) (ms : list MessageExt) : list MessageExt :=
  if negb (bool_decide (tags_set d = ∅)) && negb (class_filter_mode d)
  then List.filter (tag_wanted d) ms else ms.

(** The properties and fields the client adds. *)
Definition stamp_message (mq : MessageQueue) (r : PullResultExt) (m : MessageExt) : MessageExt :=
  let inner := message m in
  let tra_flag :=
    match properties inner !! PROPERTY_TRANSACTION_PREPARED with
    | Some v => default false (parse_bool_exact v)
    | None => false
    end in
  let inner :=
    if tra_flag then
      match properties inner !! MessageConst.PROPERTY_UNIQ_CLIENT_MESSAGE_ID_KEYIDX with
      | Some id =>
          mkMessage (topic inner) (flag inner) (properties inner) (body inner)
            (compressed_body inner) (Some id)
      | None => inner
      end
    else inner in
  let inner := put_property PROPERTY_MIN_OFFSET (pretty (pr_min_offset (pull_result r))) inner in
  let inner := put_property PROPERTY_MAX_OFFSET (pretty (pr_max_offset (pull_result r))) inner in
  mkMessageExt inner (mq_broker_name mq) (mq_queue_id mq) (store_size m)
    (match offset_delta r with Some d => as_i64 (queue_offset m + d) | None => queue_offset m end)
    (sys_flag m) (born_timestamp m) (born_host m) (store_timestamp m) (store_host m) (msg_id m)
    (commit_log_offset m) (body_crc m) (reconsume_times m) (prepared_transaction_offset m).

Section Client.
Variable crc32fast : buffer → Z.
Variable decompression : CompressionType → buffer → outcome buffer.
Variables (decode_read_body decode_decompress_body : bool).

(** The table of brokers to pull from and the result; [None] when the fuel of a
    decoder runs out. *)
Definition process_pull_result (mq : MessageQueue) (d : SubscriptionData)
    (nodes : gmap MessageQueue Z) (r : PullResultExt)
  : option (outcome (gmap MessageQueue Z * PullResultExt)) :=
  let nodes := <[mq := suggest_which_broker_id r]> nodes in
  match pull_status (pull_result r) with
  | Found =>
      match decodes_batch crc32fast decompression (default [] (message_binary r)) decode_read_body
              decode_decompress_body with
      | None => None
      | Some Panic => Some Panic
      | Some (Done ms) =>
          match (if existsb is_inner_batch ms then unwrap_batches ms else Some (Done ms)) with
          | None => None
          | Some ms =>
              Some (
                let* ms := ms in
                let ms := map (stamp_message mq r) (filter_again d ms) in
                let p := pull_result r in
                Done (nodes, mkPullResultExt
                  (mkPullResult (pull_status p) (next_begin_offset p) (pr_min_offset p)
                     (pr_max_offset p) (Some ms))
                  (suggest_which_broker_id r) None (offset_delta r)))
          end
      end
  | _ => Some (Done (nodes, r))
  end.
End Client.
Definition recalculate_pull_from_which_node (connect_by_user : bool) (default_broker_id : Z)
    (nodes : gmap MessageQueue Z) (mq : MessageQueue) : Z :=
  if connect_by_user then default_broker_id
  else default MASTER_ID (nodes !! mq).

(** ** Splitting an expression *)

Lemma starts_with_refl (a b : buffer) : starts_with a (a ++ b) = true.
Proof.
  induction a as [| x a IH]; [done |]. cbn. rewrite bool_decide_true by done. by rewrite IH.
Qed.
Lemma find_sub_first (c : byte) (sep p rest : buffer) :
  c ∉ p → find_sub (c :: sep) (p ++ (c :: sep) ++ rest) = Some (length p).
Proof.
  induction p as [| x p IH]; intros Hc.
  - pose proof (starts_with_refl (c :: sep) rest) as H. cbn [app find_sub starts_with] in *.
    by rewrite H.
  - apply not_elem_of_cons in Hc as [Hx Hc]. specialize (IH Hc). cbn [app find_sub starts_with].
    rewrite bool_decide_false by done. cbn [andb]. by setoid_rewrite IH.
Qed.

Lemma split_sub_join (c : byte) (sep : buffer) (parts : list string) (fuel : nat) :
  parts ≠ [] → Forall (λ p, c ∉ str_bytes p) parts → (length parts ≤ S fuel)%nat →
  split_sub fuel (c :: sep) (str_bytes (join (bytes_str (c :: sep)) parts)) = str_bytes <$> parts.
Proof.
  intros Hne HF. revert fuel. induction HF as [| p parts Hp HF IH]; intros fuel Hl; [done |].
  destruct parts as [| q parts].
  - cbn [join]. destruct fuel; [done |]. cbn [split_sub]. by rewrite find_sub_absent.
  - change (join (bytes_str (c :: sep)) (p :: q :: parts)) with
      (p +:+ (bytes_str (c :: sep) +:+ join (bytes_str (c :: sep)) (q :: parts))).
    rewrite !str_bytes_app, str_bytes_str. cbn [length] in Hl. destruct fuel as [| fuel]; [lia |].
    cbn [split_sub]. rewrite find_sub_first by done. rewrite take_app_length.
    rewrite app_assoc, drop_app_length' by (rewrite length_app; done).
    rewrite IH by (cbn; done || lia). done.
Qed.

Lemma split_bars (tags : list string) :
  tags ≠ [] → Forall (λ t, Byte.x7c ∉ str_bytes t) tags → split_text "||" (join "||" tags) = tags.
Proof.
  intros Hne HF. unfold split_text. change (str_bytes "||") with [Byte.x7c; Byte.x7c].
  change "||"%string with (bytes_str [Byte.x7c; Byte.x7c]).
  rewrite split_sub_join; [| done | done |].
  - rewrite <- list_fmap_compose. etrans; [| apply list_fmap_id]. apply list_fmap_ext.
    intros i t _. apply bytes_str_bytes.
  - clear HF. induction tags as [| t [| t' tags] IH]; [done | cbn; lia |].
    change (join (bytes_str [Byte.x7c; Byte.x7c]) (t :: t' :: tags)) with
      (t +:+ (bytes_str [Byte.x7c; Byte.x7c] +:+ join (bytes_str [Byte.x7c; Byte.x7c]) (t' :: tags))).
    rewrite !str_bytes_app, str_bytes_str, !length_app. specialize (IH ltac:(done)). cbn in *. lia.
Qed.

Lemma add_tags_spec (tags : list string) (d : SubscriptionData) :
  let wanted := filter (λ t, trim t ≠ "") tags in
  foldl add_tag d tags =
    mkSub (class_filter_mode d) (sub_topic d) (sub_string d)
      (list_to_set (trim <$> wanted) ∪ tags_set d) (list_to_set (hash_str <$> wanted) ∪ code_set d)
      (sub_version d) (expression_type d) (filter_class_source d).
Proof.
  cbn zeta. revert d. induction tags as [| t tags IH]; intros d.
  - cbn. rewrite !(left_id_L ∅ (∪)). by destruct d.
  - cbn [foldl]. rewrite IH. unfold add_tag. destruct (decide (trim t = "")) as [E | E].
    + rewrite filter_cons_False by tauto. done.
    + rewrite filter_cons_True by done. cbn. f_equal; set_solver.
Qed.

(** ** What a consumer gets *)

(** The filter of the broker, on the code that was dispatched for the
    message. *)
Definition broker_passes (delay : DelayLevels) (d : SubscriptionData) (m : MessageExt) : bool :=
  match tags_code_of delay (topic (message m)) (store_timestamp m) (properties (message m)) with
  | Panic => false
  | Done code =>
      match matched_by_consume_queue (Some d) (Some code) with Done b => b | Panic => false end
  end.
Definition delivered (delay : DelayLevels) (d : SubscriptionData) (ms : list MessageExt)
  : list MessageExt := filter_again d (List.filter (broker_passes delay d) ms).
Definition has_tag (tags : list string) (m : MessageExt) : bool :=
  match get_tags m with Some t => bool_decide (t ∈ tags) | None => false end.
Definition plain_topic (m : MessageExt) : Prop := topic (message m) ≠ RMQ_SYS_SCHEDULE_TOPIC.

Lemma filter_and {A} (f g : A → bool) (l : list A) :
  List.filter f (List.filter g l) = List.filter (λ x, g x && f x) l.
Proof.
  induction l as [| x l IH]; [done |]. cbn. destruct (g x); cbn; [| done].
  destruct (f x); by rewrite IH.
Qed.
Lemma retain_nothing {A} (f : A → bool) (l : list A) :
  Forall (λ x, f x = false) l → List.filter f l = [].
Proof. induction 1 as [| x l Hx _ IH]; cbn; [done | by rewrite Hx]. Qed.
Lemma filter_same {A} (f g : A → bool) (l : list A) :
  Forall (λ x, f x = g x) l → List.filter f l = List.filter g l.
Proof. induction 1 as [| x l Hx _ IH]; cbn; [done | by rewrite Hx, IH]. Qed.

Lemma plain_code (delay : DelayLevels) (m : MessageExt) : plain_topic m →
  tags_code_of delay (topic (message m)) (store_timestamp m) (properties (message m)) =
    Done (tags_string2tags_code (get_tags m)).
Proof.
  intros Hm. unfold tags_code_of, get_tags. destruct (_ !! MessageConst.PROPERTY_DELAY_TIME_LEVEL); [| done].
  by rewrite decide_False.
Qed.

Lemma build_expression (now : Z) (t sub : string) :
  sub ≠ "" → sub ≠ SUB_ALL →
  let wanted := filter (λ p, trim p ≠ "") (split_text "||" sub) in
  build_subscription_data now t sub =
    inr (mkSub false t sub (list_to_set (trim <$> wanted)) (list_to_set (hash_str <$> wanted)) now TAG "").
Proof.
  intros H0 H1. cbn zeta. unfold build_subscription_data. rewrite !bool_decide_false by done. cbn [orb].
  assert (split_text "||" sub ≠ []) as Hne.
  { unfold split_text. destruct (length (str_bytes sub)); [done |]. cbn [split_sub].
    destruct (find_sub _ _); done. }
  destruct (split_text "||" sub) as [| p ps] eqn:E; [done |]. rewrite <- E in *.
  rewrite add_tags_spec. cbn. by rewrite !(right_id_L ∅ (∪)).
Qed.

(** Any expression: the tag is one of the parts without the white space around
    them, and its hash that of a part as it was written. *)
Lemma delivered_spec (now : Z) (t sub : string) (d : SubscriptionData) (delay : DelayLevels)
    (ms : list MessageExt) :
  sub ≠ "" → sub ≠ SUB_ALL → build_subscription_data now t sub = inr d → Forall plain_topic ms →
  let wanted := filter (λ p, trim p ≠ "") (split_text "||" sub) in
  delivered delay d ms =
    List.filter (λ m, has_tag (trim <$> wanted) m &&
      bool_decide (tags_string2tags_code (get_tags m) ∈ hash_str <$> wanted)) ms.
Proof.
  intros H0 H1 Hd Hms. cbn zeta. rewrite build_expression in Hd by done. injection Hd as <-.
  set (wanted := filter _ _). set (d := mkSub _ _ _ _ _ _ _ _).
  assert (Forall (λ m, broker_passes delay d m =
    bool_decide (tags_string2tags_code (get_tags m) ∈ hash_str <$> wanted)) ms) as Hb.
  { eapply Forall_impl; [exact Hms |]. intros m Hm. unfold broker_passes. rewrite plain_code by done.
    unfold matched_by_consume_queue. cbn [class_filter_mode d is_tag_type expression_type].
    rewrite orb_true_r. cbn [sub_string code_set]. rewrite decide_False by done.
    apply bool_decide_ext. cbn [code_set d]. rewrite elem_of_list_to_set.
    assert (as_i32 (tags_string2tags_code (get_tags m)) = tags_string2tags_code (get_tags m)) as ->; [| done].
    apply wrap_s_id; [lia |]. unfold tags_string2tags_code. destruct (get_tags m); [| in_range].
    case_decide; [in_range | apply hash_str_range]. }
  unfold delivered. rewrite (filter_same _ _ _ Hb). unfold filter_again. cbn [class_filter_mode d negb].
  rewrite andb_true_r. case_bool_decide as He; cbn [negb].
  - assert (wanted = []) as ->.
    { destruct wanted as [| p w]; [done |]. exfalso. cbn [tags_set d] in He. set_solver. }
    rewrite !retain_nothing; [done | |]; apply Forall_true; intros m; [unfold has_tag |];
      [destruct (get_tags m) |]; done.
  - rewrite filter_and. apply filter_same, Forall_true. intros m. rewrite andb_comm. f_equal.
    unfold tag_wanted, has_tag. destruct (get_tags m); [| done]. apply bool_decide_ext.
    cbn [tags_set d]. by rewrite elem_of_list_to_set.
Qed.

(** A tag that an expression can name: no bar, no white space around it. *)
Definition tag_ok (t : string) : Prop :=
  t ≠ "" ∧ trim t = t ∧ Byte.x7c ∉ str_bytes t.

Lemma tags_wanted (tags : list string) :
  Forall tag_ok tags → filter (λ p, trim p ≠ "") tags = tags ∧ trim <$> tags = tags.
Proof.
  induction 1 as [| t tags (Hne & Ht & _) _ [IH1 IH2]]; [done |].
  rewrite filter_cons_True by congruence. cbn. by rewrite IH1, Ht, IH2.
Qed.

(** C27: Tags joined by two bars without white space: of any messages of the topic,
    in any number, the consumer gets exactly those that have one of the tags,
    in their order.  The filter of the broker, which only sees the hash of a
    tag, never holds back a message the consumer wants, and the client drops
    those that collide with one. *)
Theorem tag_filters_agree (now : Z) (t : string) (tags : list string)
    (delay : DelayLevels) (ms : list MessageExt) :
  tags ≠ [] → Forall tag_ok tags → join "||" tags ≠ SUB_ALL → Forall plain_topic ms →
  ∃ d, build_subscription_data now t (join "||" tags) = inr d ∧
       delivered delay d ms = List.filter (has_tag tags) ms.
Proof.
  intros Hne HF Hall Hms.
  assert (split_text "||" (join "||" tags) = tags) as Hsplit.
  { apply split_bars; [done |]. eapply Forall_impl; [exact HF |]. by intros x (_ & _ & ?). }
  assert (join "||" tags ≠ "") as H0.
  { intros E. rewrite E in Hsplit. change (split_text "||" "") with [""%string] in Hsplit.
    rewrite <- Hsplit in HF. inversion HF as [| ? ? (H & _) _]; subst. done. }
  destruct (tags_wanted tags HF) as [Hw Ht].
  eexists. split; [by apply build_expression |].
  erewrite delivered_spec; [| exact H0 | exact Hall | by apply build_expression | exact Hms].
  rewrite Hsplit, Hw, Ht. apply filter_same, Forall_true. intros m. unfold has_tag.
  destruct (get_tags m) as [x |]; [| done]. case_bool_decide as Hx; [| done]. cbn [andb].
  apply bool_decide_true, list_elem_of_fmap. exists x. split; [| done].
  rewrite Forall_forall in HF. destruct (HF x Hx) as (Hx0 & _). cbn. by rewrite decide_False.
Qed.

Definition tagged (tag : string) : MessageExt :=
  mkMessageExt (mkMessage "orders" 0 {[MessageConst.PROPERTY_TAGS := tag]} None None None) "" 0 0 0 0
    0 default_host 0 default_host "" 0 0 0 0.
(** "Aa" and "BB" have the same hash. *)
Lemma tag_filters_agree_witness :
  hash_str "Aa" = hash_str "BB" ∧
  ∃ d, build_subscription_data 7 "orders" (join "||" ["Aa"; "TagC"]) = inr d ∧
       delivered (mkDelay ∅ 0) d [tagged "Aa"; tagged "BB"; tagged "TagC"; tagged "TagD"] =
         [tagged "Aa"; tagged "TagC"].
Proof.
  split; [reflexivity |].
  destruct (tag_filters_agree 7 "orders" ["Aa"; "TagC"] (mkDelay ∅ 0)
    [tagged "Aa"; tagged "BB"; tagged "TagC"; tagged "TagD"]) as (d & Hd & H).
  - discriminate.
  - repeat constructor; try (vm_compute; discriminate); try (vm_compute; reflexivity);
      apply (bool_decide_unpack _); vm_compute; reflexivity.
  - vm_compute. discriminate.
  - repeat constructor; discriminate.
  - exists d. split; [exact Hd |]. rewrite H. vm_compute. reflexivity.
Defined.

(** The codes are those of the parts with the white space around them, the tags
    without: a tag written next to a space is never delivered. *)
Example spaced_tag_missed :
  ∃ d, build_subscription_data 7 "orders" "TagA || TagB" = inr d ∧
       "TagA" ∈ tags_set d ∧ "TagB" ∈ tags_set d ∧
       delivered (mkDelay ∅ 0) d [tagged "TagA"; tagged "TagB"] = [].
Proof.
  eexists. split; [vm_compute; reflexivity |].
  split_and!; [apply (bool_decide_unpack _); vm_compute; reflexivity.. | vm_compute; reflexivity].
Qed.

(** A pulled buffer of stored records, none of them a batch to unwrap: the
    client decodes every record, keeps those its tags name and adds its own
    fields, and remembers the broker to pull from. *)
Theorem pulled_messages (crc32fast : buffer → Z)
    (decompression : CompressionType → buffer → outcome buffer) (dc : bool) (mq : MessageQueue)
    (d : SubscriptionData) (nodes : gmap MessageQueue Z) (r : PullResultExt)
    (items : list (MessageVersion * MessageExt * buffer * buffer)) :
  Forall (batch_item dc) items → Forall (λ i, is_inner_batch (item_decoded i) = false) items →
  pull_status (pull_result r) = Found → message_binary r = Some (concat (item_bytes <$> items)) →
  ∃ r', process_pull_result crc32fast decompression true dc mq d nodes r =
          Some (Done (<[mq := suggest_which_broker_id r]> nodes, r')) ∧
        msg_found_list (pull_result r') =
          Some (stamp_message mq r <$> filter_again d (item_decoded <$> items)) ∧
        recalculate_pull_from_which_node false 0 (<[mq := suggest_which_broker_id r]> nodes) mq =
          suggest_which_broker_id r.
Proof.
  intros Hi Hb Hs Hm. unfold process_pull_result. rewrite Hs, Hm. cbn [from_option id].
  rewrite decodes_batch_records by done.
  assert (existsb is_inner_batch (item_decoded <$> items) = false) as ->.
  { clear Hi Hm. induction Hb as [| i items Hi _ IH]; [done |]. cbn. by rewrite Hi, IH. }
  cbn [obind]. eexists. split_and!; [done | done |].
  unfold recalculate_pull_from_which_node. by rewrite lookup_insert_eq.
Qed.
Lemma pulled_messages_witness :
  let i := (V2, sample_message, str_bytes "hello",
            str_bytes (message_properties_to_string [("TAGS", "TagA")])) in
  let r := mkPullResultExt (mkPullResult Found 1 0 2 None) 3
             (Some (concat (item_bytes <$> [i; i]))) None in
  ∃ r', process_pull_result (λ _, 0) (λ _ b, Done b) true true (mkMQ "orders" "broker-a" 1)
          (default_subscription 7) ∅ r = Some (Done ({[mkMQ "orders" "broker-a" 1 := 3]}, r')).
Proof.
  intros i r.
  destruct (pulled_messages (λ _, 0) (λ _ b, Done b) true (mkMQ "orders" "broker-a" 1)
    (default_subscription 7) ∅ r [i; i]) as (r' & H & _).
  - repeat constructor; by vm_compute.
  - repeat constructor; by vm_compute.
  - reflexivity.
  - reflexivity.
  - exists r'. exact H.
Defined.
