(* ===== verification/OffsetStores.v ===== *)
(** * OffsetStores: offsets on the side of the consumer
    ([consumer/store/] of [rocketmq-client])

    A consumer keeps the offset up to which it consumed each of its queues.  In
    clustering mode the offsets are sent to the broker, in broadcasting mode
    they are kept in a local file.  An offset can be frozen, after which
    consuming no longer moves it.  Every operation holds the lock of the table,
    so operations on a table run one after the other. *)

From stdpp Require Import base gmap list strings.
From Stdlib Require Import ZArith Lia.
From S2P Require Import Prelude Bytes Rebalance LockManager ConfigFile.
Open Scope Z_scope.
Open Scope rmq_scope.

(** ** [ControllableOffset] *)
Record ControllableOffset := mkControllable { co_value : Z; allow_to_update : bool }.
Definition new_controllable (value : Z) : ControllableOffset := mkControllable value true.
Definition controllable_update (target : Z) (increase_only : bool) (o : ControllableOffset)
  : ControllableOffset :=
  if allow_to_update o then
    mkControllable (if increase_only then Z.max target (co_value o) else target) true
  else o.
Definition update_unconditionally (target : Z) : ControllableOffset → ControllableOffset :=
  controllable_update target false.
Definition update_and_freeze (target : Z) (o : ControllableOffset) : ControllableOffset :=
  mkControllable target false.
Definition get_offset (o : ControllableOffset) : Z := co_value o.

Inductive ReadOffsetType := ReadFromMemory | ReadFromStore | MemoryFirstThenStore.
Definition read_offset_type_from (v : Z) : ReadOffsetType :=
  if v =? 0 then ReadFromMemory else if v =? 1 then ReadFromStore
  else if v =? 2 then MemoryFirstThenStore else ReadFromMemory.

(** ** The table, the same in both stores *)
Abbreviation client_offsets := (gmap MessageQueue ControllableOffset).

(** [entry(mq).or_insert_with(new)] *)
Definition entry_or_new (mq : MessageQueue) (offset : Z) (t : client_offsets)
  : ControllableOffset := default (new_controllable offset) (t !! mq).
Definition update_client_offset (mq : MessageQueue) (offset : Z) (increase_only : bool)
    (t : client_offsets) : client_offsets :=
  let old := entry_or_new mq offset t in
  <[mq := if increase_only then controllable_update offset true old
          else update_unconditionally offset old]> t.
Definition update_and_freeze_offset (mq : MessageQueue) (offset : Z) (t : client_offsets)
  : client_offsets := <[mq := update_and_freeze offset (entry_or_new mq offset t)]> t.
Definition remove_client_offset (mq : MessageQueue) (t : client_offsets) : client_offsets :=
  delete mq t.

(** ** [RemoteBrokerOffsetStore] *)

(** The answer of a broker that is asked for an offset. *)
Inductive query_answer := Offset (v : Z) | OffsetNotFoundError | OtherError.
Record offset_update := mkOffsetUpdate {
  ou_addr : string; ou_group : string; ou_queue : MessageQueue; ou_offset : Z; ou_oneway : bool;
}.

Section Remote.
(** The address of a queue's broker, where only the master will do or any of
    its brokers, before and after the routes of the topic are fetched again; the
    answer of the broker; whether a request goes out. *)
Variable find_broker : bool → bool → MessageQueue → option string.
Variable query_consumer_offset : string → MessageQueue → query_answer.
Variable request_sent : offset_update → bool.
Variable group : string.

Definition find_or_refresh (only_this_broker : bool) (mq : MessageQueue) : option string :=
  match find_broker only_this_broker false mq with
  | Some a => Some a
  | None => find_broker false true mq
  end.

Definition fetch_consume_offset_from_broker (mq : MessageQueue) : query_answer :=
  match find_or_refresh true mq with
  | Some addr => query_consumer_offset addr mq
  | None => OtherError
  end.

Definition remote_read_offset (mq : MessageQueue) (type : ReadOffsetType) (t : client_offsets)
  : Z * client_offsets :=
  match type with
  | ReadFromMemory | MemoryFirstThenStore =>
      match t !! mq with
      | Some o => (get_offset o, t)
      | None => (match type with ReadFromMemory => -1 | _ => -3 end, t)
      end
  | ReadFromStore =>
      match fetch_consume_offset_from_broker mq with
      | Offset v => (v, update_client_offset mq v false t)
      | OffsetNotFoundError => (-1, t)
      | OtherError => (-2, t)
      end
  end.

(** The request that is sent, if a broker is found, and whether it is [Ok]. *)
Definition update_consume_offset_to_broker (mq : MessageQueue) (offset : Z) (is_oneway : bool)
  : list offset_update * bool :=
  match find_or_refresh false mq with
  | Some addr =>
      let r := mkOffsetUpdate addr group mq offset is_oneway in
      ([r], request_sent r)
  | None => ([], false)
  end.

(** The requests that go out, in the iteration order of the table; errors are
    logged. *)
Definition remote_persist_all (order : client_offsets → list (MessageQueue * ControllableOffset))
    (mqs : gset MessageQueue) (t : client_offsets) : list offset_update * client_offsets :=
  if decide (mqs = ∅) then ([], t)
  else
    let used := filter (λ e, e.1 ∈ mqs) (order t) in
    (used ≫= λ e, fst (update_consume_offset_to_broker e.1 (get_offset e.2) true),
     filter (λ e, e.1 ∈ mqs) t).
Definition remote_persist (mq : MessageQueue) (t : client_offsets) : list offset_update :=
  match t !! mq with
  | None => []
  | Some o => fst (update_consume_offset_to_broker mq (get_offset o) true)
  end.
Definition remote_clone_offset_table (topic : string) (t : client_offsets) : gmap MessageQueue Z :=
  get_offset <$> filter (λ e, mq_topic e.1 = topic) t.
End Remote.

(** ** [LocalFileOffsetStore] *)

Section Local.
(** JSON of a queue and of the table with its queues as text (serde_json);
    [expect] on a text that is no queue panics. *)
Variables (mq_to_json : MessageQueue → string) (mq_from_json : string → option MessageQueue).
Variables (offsets_to_json : gmap string Z → string)
  (offsets_from_json : string → option (gmap string Z)).
Variable store_path : string.
(** How the writes of the file and of its backup end; an error is logged. *)
Variable ws : written * written.

Definition to_serialize (t : gmap MessageQueue Z) : gmap string Z := kmap mq_to_json t.
Fixpoint decode_queues (l : list (string * Z)) (t : gmap MessageQueue Z)
  : outcome (gmap MessageQueue Z) :=
  match l with
  | [] => Done t
  | (k, v) :: l' => let* mq := unwrap (mq_from_json k) in decode_queues l' (<[mq := v]> t)
  end.
Definition from_serialize (t : gmap string Z) : outcome (gmap MessageQueue Z) :=
  decode_queues (map_to_list t) ∅.

(** [inl] is the error. *)
Definition decode_local (content : string) : outcome (unit + option (gmap MessageQueue Z)) :=
  match offsets_from_json content with
  | Some s => let* t := from_serialize s in Done (inr (Some t))
  | None => Done (inl tt)
  end.
Definition read_local_offset_bak (fs : files) : outcome (unit + option (gmap MessageQueue Z)) :=
  let content := file_to_string (bak_name store_path) fs in
  if decide (content = "") then Done (inr None) else decode_local content.
Definition read_local_offset (fs : files) : outcome (unit + option (gmap MessageQueue Z)) :=
  let content := file_to_string store_path fs in
  if decide (content = "") then read_local_offset_bak fs else decode_local content.

(** Whether it is [Ok]. *)
Definition local_load (fs : files) (t : client_offsets) : outcome (bool * client_offsets) :=
  let* r := read_local_offset fs in
  match r with
  | inl _ => Done (false, t)
  | inr None => Done (true, t)
  | inr (Some s) => Done (true, (new_controllable <$> s) ∪ t)
  end.

Definition local_read_offset (mq : MessageQueue) (type : ReadOffsetType) (fs : files)
    (t : client_offsets) : outcome Z :=
  match type with
  | ReadFromMemory | MemoryFirstThenStore =>
      Done (match t !! mq with Some o => get_offset o | None => -1 end)
  | ReadFromStore =>
      let* r := read_local_offset fs in
      Done (match r with inr (Some s) => default (-1) (s !! mq) | _ => -1 end)
  end.

(** Writes the offsets into what the file holds. *)
Definition write_offsets (new : gmap MessageQueue Z) (fs : files) : outcome files :=
  let* r := read_local_offset fs in
  match r with
  | inl _ => Done fs
  | inr s =>
      let content := offsets_to_json (to_serialize (new ∪ default ∅ s)) in
      Done (if decide (content = "") then fs else (string_to_file ws content store_path fs).1)
  end.
Definition local_persist_all (mqs : gset MessageQueue) (t : client_offsets) (fs : files)
  : outcome files :=
  if decide (mqs = ∅) then Done fs
  else write_offsets (get_offset <$> filter (λ e, e.1 ∈ mqs) t) fs.
Definition local_persist (mq : MessageQueue) (t : client_offsets) (fs : files) : outcome files :=
  match t !! mq with
  | None => Done fs
  | Some o => write_offsets {[mq := get_offset o]} fs
  end.
Definition local_clone_offset_table (topic : string) (t : client_offsets) : gmap MessageQueue Z :=
  get_offset <$> filter (λ e, topic = "" ∨ mq_topic e.1 = topic) t.
End Local.

(** ** Runs of updates *)
Inductive offset_op :=
| OpUpdate (mq : MessageQueue) (offset : Z) (increase_only : bool)
| OpFreeze (mq : MessageQueue) (offset : Z)
| OpRemove (mq : MessageQueue).
Definition offset_step (t : client_offsets) (op : offset_op) : client_offsets :=
  match op with
  | OpUpdate mq o inc => update_client_offset mq o inc t
  | OpFreeze mq o => update_and_freeze_offset mq o t
  | OpRemove mq => remove_client_offset mq t
  end.
Definition op_queue (op : offset_op) : MessageQueue :=
  match op with OpUpdate mq _ _ | OpFreeze mq _ | OpRemove mq => mq end.

(** The operation only moves the offset of the queue forward. *)
Definition forward (mq : MessageQueue) (op : offset_op) : Prop :=
  op_queue op = mq → match op with OpUpdate _ _ inc => inc = true | _ => False end.
(** The offsets reported for the queue. *)
Definition reported (mq : MessageQueue) (ops : list offset_op) : list Z :=
  omap (λ op, match op with OpUpdate q o _ => if decide (q = mq) then Some o else None
                       | _ => None end) ops.
Definition not_moved (mq : MessageQueue) (op : offset_op) : Prop :=
  op_queue op = mq → match op with OpUpdate _ _ _ => True | _ => False end.

Lemma step_other (t : client_offsets) (op : offset_op) (mq : MessageQueue) :
  op_queue op ≠ mq → offset_step t op !! mq = t !! mq.
Proof.
  destruct op as [q o inc | q o | q]; cbn; intros Hq;
    [by apply lookup_insert_ne | by apply lookup_insert_ne | by apply lookup_delete_ne].
Qed.

Lemma forward_run (mq : MessageQueue) (ops : list offset_op) (t : client_offsets) (v : Z) :
  Forall (forward mq) ops → t !! mq = Some (mkControllable v true) →
  foldl offset_step t ops !! mq = Some (mkControllable (foldl Z.max v (reported mq ops)) true).
Proof.
  intros HF. revert t v. induction HF as [| op ops Hop HF IH]; intros t v Ht; [done |].
  cbn [foldl]. destruct (decide (op_queue op = mq)) as [E | E].
  - specialize (Hop E). destruct op as [q o inc | |]; [| done | done]. cbn in E. subst q inc.
    cbn. rewrite decide_True by done. cbn [foldl]. apply IH. unfold update_client_offset, entry_or_new.
    rewrite lookup_insert_eq, Ht. cbn. by rewrite Z.max_comm.
  - rewrite (IH _ v) by (by rewrite step_other). do 3 f_equal.
    destruct op as [q o inc | |]; cbn in *; [by rewrite decide_False | done | done].
Qed.

(** Offsets reported as consumed while the queue is assigned, in any order: the
    consumer is at the largest of them; once frozen it stays where it was put,
    whatever is reported, until the queue is removed. *)
Theorem consumed_offset_spec (mq : MessageQueue) (ops after : list offset_op) (o f : Z)
    (t : client_offsets) :
  t !! mq = None → Forall (forward mq) ops → Forall (not_moved mq) after →
  get_offset <$> foldl offset_step t (OpUpdate mq o true :: ops) !! mq =
    Some (foldl Z.max o (reported mq ops)) ∧
  get_offset <$> foldl offset_step t (OpUpdate mq o true :: ops ++ OpFreeze mq f :: after) !! mq =
    Some f.
Proof.
  intros Ht HF HA.
  assert (offset_step t (OpUpdate mq o true) !! mq = Some (mkControllable o true)) as H0.
  { cbn. unfold update_client_offset, entry_or_new. rewrite lookup_insert_eq, Ht. cbn. by rewrite Z.max_id. }
  split; cbn [foldl].
  - by rewrite (forward_run _ _ _ o).
  - rewrite foldl_app. cbn [foldl]. generalize (foldl offset_step (offset_step t (OpUpdate mq o true)) ops).
    intros t1. assert (offset_step t1 (OpFreeze mq f) !! mq = Some (mkControllable f false)) as H1
      by (cbn; unfold update_and_freeze_offset; by rewrite lookup_insert_eq).
    revert H1. generalize (offset_step t1 (OpFreeze mq f)). clear -HA.
    induction HA as [| op ops Hop HA IH]; intros t Ht; cbn [foldl]; [by rewrite Ht |].
    apply IH. destruct (decide (op_queue op = mq)) as [E | E]; [| by rewrite step_other].
    specialize (Hop E). destruct op as [q v inc | |]; [| done | done]. cbn in E. subst q.
    cbn. unfold update_client_offset, entry_or_new. rewrite lookup_insert_eq, Ht. by destruct inc.
Qed.
Lemma consumed_offset_spec_witness :
  get_offset <$> foldl offset_step ∅ [OpUpdate (mkMQ "t" "b" 0) 5 true; OpUpdate (mkMQ "t" "b" 0) 9 true;
    OpUpdate (mkMQ "t" "b" 1) 2 false; OpUpdate (mkMQ "t" "b" 0) 7 true] !! mkMQ "t" "b" 0 = Some 9.
Proof.
  destruct (consumed_offset_spec (mkMQ "t" "b" 0) [OpUpdate (mkMQ "t" "b" 0) 9 true;
    OpUpdate (mkMQ "t" "b" 1) 2 false; OpUpdate (mkMQ "t" "b" 0) 7 true] [] 5 0 ∅) as [H _].
  - apply lookup_empty.
  - apply Forall_cons_2; [by intros _ |]. apply Forall_cons_2; [by intros E |].
    apply Forall_cons_2; [by intros _ | apply Forall_nil_2].
  - apply Forall_nil_2.
  - rewrite H. reflexivity.
Defined.

(** Offsets that are not in memory are not asked for: [-3] is answered. *)
Theorem memory_first_misses find query mq (t : client_offsets) :
  t !! mq = None → remote_read_offset find query mq MemoryFirstThenStore t = (-3, t).
Proof. intros Ht. unfold remote_read_offset. by rewrite Ht. Qed.
Lemma memory_first_misses_witness :
  remote_read_offset (λ _ _ _, Some "10.0.0.1:10911") (λ _ _, Offset 42) (mkMQ "t" "b" 0)
    MemoryFirstThenStore ∅ = (-3, ∅).
Proof. apply memory_first_misses. apply lookup_empty. Defined.

(** ** Offsets in the local file *)
Section LocalRoundtrip.
Variables (mq_to_json : MessageQueue → string) (mq_from_json : string → option MessageQueue).
Variables (offsets_to_json : gmap string Z → string)
  (offsets_from_json : string → option (gmap string Z)).
Hypothesis queue_json : ∀ q, mq_from_json (mq_to_json q) = Some q.
Hypothesis offsets_json : ∀ t, offsets_from_json (offsets_to_json t) = Some t.
Hypothesis offsets_text : ∀ t, offsets_to_json t ≠ "".
Notation read_local_offset := (read_local_offset mq_from_json offsets_from_json).
Notation local_persist_all :=
  (local_persist_all mq_to_json mq_from_json offsets_to_json offsets_from_json).
Notation local_load := (local_load mq_from_json offsets_from_json).

Lemma decode_queues_all (l : list (MessageQueue * Z)) (t : gmap MessageQueue Z) :
  decode_queues mq_from_json (prod_map mq_to_json id <$> l) t = Done (foldl (λ t e, <[e.1 := e.2]> t) t l).
Proof using queue_json.
  revert t. induction l as [| [q v] l IH]; intros t; [done |]. cbn. rewrite queue_json. cbn.
  by rewrite IH.
Qed.
Lemma foldl_insert_lookup (l : list (MessageQueue * Z)) (t : gmap MessageQueue Z) :
  NoDup l.*1 → foldl (λ t e, <[e.1 := e.2]> t) t l = list_to_map l ∪ t.
Proof.
  revert t. induction l as [| [q v] l IH]; intros t Hnd; cbn; [by rewrite (left_id_L ∅ (∪)) |].
  apply NoDup_cons in Hnd as [Hq Hnd]. rewrite IH by done.
  rewrite <- insert_union_r by (by apply not_elem_of_list_to_map_1).
  by rewrite insert_union_l.
Qed.
Lemma from_to_serialize (t : gmap MessageQueue Z) :
  from_serialize mq_from_json (to_serialize mq_to_json t) = Done t.
Proof using queue_json.
  assert (Inj (=) (=) mq_to_json) as Hinj.
  { intros a b E. apply (f_equal mq_from_json) in E. rewrite !queue_json in E. congruence. }
  unfold from_serialize, to_serialize.
  assert (∃ l, map_to_list (kmap mq_to_json t) = prod_map mq_to_json id <$> l ∧ l ≡ₚ map_to_list t)
    as (l & -> & Hl).
  { destruct (Permutation_map_inv _ _ (map_to_list_kmap (M2 := gmap string) mq_to_json t))
      as (l & E & Hp). by exists l. }
  rewrite decode_queues_all, foldl_insert_lookup.
  - rewrite (right_id_L ∅ (∪)), (list_to_map_proper _ (map_to_list t)), list_to_map_to_list; [done | | done].
    rewrite Hl. apply NoDup_fst_map_to_list.
  - rewrite Hl. apply NoDup_fst_map_to_list.
Qed.

Lemma read_written (path : string) (t : gmap MessageQueue Z) (fs : files) :
  read_local_offset path (string_to_file whole (offsets_to_json (to_serialize mq_to_json t)) path fs).1 =
    Done (inr (Some t)).
Proof using queue_json offsets_json offsets_text.
  unfold read_local_offset, file_to_string, string_to_file. cbn. rewrite lookup_insert_eq.
  cbn [from_option id]. rewrite decide_False by done. unfold decode_local.
  by rewrite offsets_json, from_to_serialize.
Qed.

(** Offsets persisted, with whole writes, to a file that can be read, or that is not there yet, are
    found by a consumer that starts again: those of the given queues as they
    were in memory, those of the other queues as the file had them. *)
Theorem local_offsets_restored (path : string) (mqs : gset MessageQueue) (t : client_offsets)
    (fs : files) (s : option (gmap MessageQueue Z)) :
  mqs ≠ ∅ → read_local_offset path fs = Done (inr s) →
  ∃ fs' t', local_persist_all path whole mqs t fs = Done fs' ∧ local_load path fs' ∅ = Done (true, t') ∧
    ∀ q, get_offset <$> t' !! q =
      match t !! q with
      | Some o => if decide (q ∈ mqs) then Some (get_offset o) else default ∅ s !! q
      | None => default ∅ s !! q
      end.
Proof using queue_json offsets_json offsets_text.
  intros Hm Hr. unfold local_persist_all. rewrite decide_False by done. unfold write_offsets.
  rewrite Hr. cbn [obind]. rewrite decide_False by done. eexists _, _. split; [done |].
  unfold local_load. rewrite read_written. cbn [obind]. split; [done |]. intros q.
  rewrite (right_id_L ∅ (∪)), lookup_fmap, <- option_fmap_compose, option_fmap_id.
  rewrite lookup_union, lookup_fmap, map_lookup_filter.
  destruct (t !! q) as [o |]; cbn; [| by rewrite (left_id_L None (∪))].
  destruct (decide (q ∈ mqs)) as [Hq | Hq].
  - rewrite option_guard_True by done. cbn. by rewrite union_Some_l.
  - rewrite option_guard_False by done. cbn. by rewrite (left_id_L None (∪)).
Qed.
End LocalRoundtrip.

Lemma local_offsets_restored_witness :
  let q := mkMQ "t" "b" 0 in
  ∃ fs' t', local_persist_all toy_print toy_parse toy_print toy_parse "/offsets.json" whole {[q]}
      {[q := mkControllable 7 true; mkMQ "t" "b" 1 := mkControllable 3 true]} ∅ = Done fs' ∧
    local_load toy_parse toy_parse "/offsets.json" fs' ∅ = Done (true, t') ∧
    get_offset <$> t' !! q = Some 7.
Proof.
  intros q. destruct (local_offsets_restored toy_print toy_parse toy_print toy_parse toy_parse_print
    toy_parse_print ltac:(intros t H; discriminate H) "/offsets.json" {[q]}
    {[q := mkControllable 7 true; mkMQ "t" "b" 1 := mkControllable 3 true]} ∅ None)
    as (fs' & t' & Hp & Hl & Hq).
  - apply non_empty_singleton_L.
  - reflexivity.
  - exists fs', t'. split; [exact Hp |]. split; [exact Hl |]. rewrite Hq, lookup_insert_eq.
    rewrite decide_True by (by apply elem_of_singleton). reflexivity.
Defined.
