(* ===== verification/PullHold.v ===== *)
(** * PullHold: pull requests that wait for messages
    ([pull_request_hold_service.rs], [many_pull_request.rs], [pull_request.rs]
    of the broker)

    A pull request that finds no message is suspended under its topic and
    queue.  It is woken, that is processed again, when a message that its filter
    takes arrives, when the time it may wait is over, or when the master is
    online again.  A notification takes the list of a queue under the lock of
    the table, looks at the requests without the lock, and puts those that still
    wait back; suspensions and other notifications run in between. *)

From stdpp Require Import base gmap list strings pretty sorting.
From coqutil Require Import Byte.
From Stdlib Require Import ZArith Lia.
From S2P Require Import Prelude Bytes FileName Numerals Rebalance Remoting ClientManagers PopInfo.
Open Scope Z_scope.
Open Scope rmq_scope.

(** ** Requests *)

(** The filter as the two questions it is asked: by the code of the tags, and
    by the properties of the message. *)
Record PullRequest := mkPullRequest {
  request_command : RemotingCommand;
  client_channel : Channel;
  timeout_millis : Z;
  suspend_timestamp : Z;
  pull_from_this_offset : Z;
  filter_by_code : option Z → bool;
  filter_by_properties : gmap string string → bool;
}.
Definition set_suspended (c : RemotingCommand) : RemotingCommand :=
  mkCmd (code c) (language c) (version c) (opaque c) (flag c) (remark c) (ext_fields c) (body c)
    true (command_custom_header c) (serialize_type c).
Definition suspend_request (r : PullRequest) : PullRequest :=
  mkPullRequest (set_suspended (request_command r)) (client_channel r) (timeout_millis r)
    (suspend_timestamp r) (pull_from_this_offset r) (filter_by_code r) (filter_by_properties r).

(** ** [ManyPullRequest] *)
Abbreviation many := (list PullRequest).
Definition add_pull_request (r : PullRequest) (l : many) : many := l ++ [r].
Definition add_pull_requests (rs : list PullRequest) (l : many) : many := l ++ rs.
Definition clone_list_and_clear (l : many) : option (list PullRequest) * many :=
  match l with [] => (None, l) | _ => (Some l, []) end.

(** ** [PullRequestHoldService] *)
Abbreviation hold_table := (gmap string many).
Definition TOPIC_QUEUE_ID_SEPARATOR : string := "@".
Definition hold_key (topic : string) (queue_id : Z) : string :=
  topic +:+ TOPIC_QUEUE_ID_SEPARATOR +:+ pretty queue_id.

Definition suspend_pull_request (topic : string) (queue_id : Z) (r : PullRequest) (t : hold_table)
  : hold_table :=
  let key := hold_key topic queue_id in
  <[key := add_pull_request (suspend_request r) (default [] (t !! key))]> t.

(** What a notification says of the message that arrived. *)
Record pull_arrival := mkArrival {
  arr_max_offset : Z;
  arr_tags_code : option Z;
  arr_properties : option (gmap string string);
}.

(** Whether the request is processed again; [now] is the clock and [max_in_queue]
    the answer of the store when it is looked at. *)
Definition woken_by (a : pull_arrival) (now max_in_queue : Z) (r : PullRequest) : bool :=
  let newest_offset :=
    if arr_max_offset a <=? pull_from_this_offset r then max_in_queue else arr_max_offset a in
  let matched :=
    if pull_from_this_offset r <? newest_offset then
      if filter_by_code r (arr_tags_code a) then
        match arr_properties a with Some p => filter_by_properties r p | None => true end
      else false
    else false in
  matched || (as_u64 (suspend_timestamp r + timeout_millis r) <=? now).

(** The clock and the store as each request is looked at. *)
Fixpoint examine (a : pull_arrival) (env : nat → Z * Z) (i : nat) (l : list PullRequest)
  : list PullRequest * list PullRequest :=
  match l with
  | [] => ([], [])
  | r :: l' =>
      let '(woken, replay) := examine a env (S i) l' in
      if woken_by a (env i).1 (env i).2 r then (r :: woken, replay) else (woken, r :: replay)
  end.

(** The first critical section: the list of the queue, if it has requests. *)
Definition take_requests (key : string) (t : hold_table) : option (list PullRequest * hold_table) :=
  match t !! key with
  | None => None
  | Some l =>
      match clone_list_and_clear l with
      | (Some rs, l') => Some (rs, <[key := l']> t)
      | (None, _) => None
      end
  end.
(** The second one. *)
Definition put_back (key : string) (replay : list PullRequest) (t : hold_table) : hold_table :=
  match replay with
  | [] => t
  | _ => <[key := add_pull_requests replay (default [] (t !! key))]> t
  end.

(** A notification that nothing interrupts: the requests that are processed
    again, in order. *)
Definition notify_message_arriving_ext (topic : string) (queue_id : Z) (a : pull_arrival)
    (env : nat → Z * Z) (t : hold_table) : list PullRequest * hold_table :=
  let key := hold_key topic queue_id in
  match take_requests key t with
  | None => ([], t)
  | Some (rs, t) =>
      let '(woken, replay) := examine a env 0 rs in (woken, put_back key replay t)
  end.
Definition notify_message_arriving (topic : string) (queue_id max_offset : Z) (env : nat → Z * Z)
    (t : hold_table) : list PullRequest * hold_table :=
  notify_message_arriving_ext topic queue_id (mkArrival max_offset None None) env t.

Section Check.
(** The store, and the clock and the store as the requests of each key are
    looked at. *)
Variable get_max_offset_in_queue : string → Z → Z.
Variable env : string → nat → Z * Z.

Definition check_key (key : string) (t : hold_table) : outcome (list PullRequest * hold_table) :=
  match split_char Byte.x40 key with
  | [topic; q] =>
      let* queue_id := unwrap (parse_i32 q) in
      Done (notify_message_arriving topic queue_id (get_max_offset_in_queue topic queue_id)
              (env key) t)
  | _ => Done ([], t)
  end.
Fixpoint check_keys (keys : list string) (t : hold_table)
  : outcome (list PullRequest * hold_table) :=
  match keys with
  | [] => Done ([], t)
  | k :: keys' =>
      let* (woken, t) := check_key k t in
      let* (rest, t) := check_keys keys' t in
      Done (woken ++ rest, t)
  end.
(** [order] gives the keys of the table in iteration order. *)
Definition check_hold_request (order : hold_table → list string) (t : hold_table)
  : outcome (list PullRequest * hold_table) := check_keys (order t) t.
End Check.

Definition notify_master_online (order : hold_table → list string) (t : hold_table)
  : list PullRequest * hold_table :=
  (order t ≫= λ k, default [] (t !! k), (λ _, []) <$> t).

(** ** Interleaved runs *)

Record notification := mkNotification {
  nt_key : string; nt_arrival : pull_arrival; nt_todo : list PullRequest; nt_replay : list PullRequest;
}.
Record hold_state := mkHold {
  hs_table : hold_table;
  hs_running : list notification;
  hs_woken : list PullRequest;
  hs_suspended : list PullRequest;
}.
Definition hold_start : hold_state := mkHold ∅ [] [] [].

(** The critical sections of suspensions, notifications and of the return of the
    master, and the looks at single requests between them, in any order. *)
Inductive hold_step : hold_state → hold_state → Prop :=
| hs_suspend topic queue_id r t ns w s :
    hold_step (mkHold t ns w s)
      (mkHold (suspend_pull_request topic queue_id r t) ns w (s ++ [suspend_request r]))
| hs_take key a rs t t' ns w s :
    take_requests key t = Some (rs, t') →
    hold_step (mkHold t ns w s) (mkHold t' (mkNotification key a rs [] :: ns) w s)
| hs_look key a now mx r rs replay t ns1 ns2 w s :
    hold_step (mkHold t (ns1 ++ mkNotification key a (r :: rs) replay :: ns2) w s)
      (if woken_by a now mx r
       then mkHold t (ns1 ++ mkNotification key a rs replay :: ns2) (w ++ [r]) s
       else mkHold t (ns1 ++ mkNotification key a rs (replay ++ [r]) :: ns2) w s)
| hs_back key a replay t ns1 ns2 w s :
    hold_step (mkHold t (ns1 ++ mkNotification key a [] replay :: ns2) w s)
      (mkHold (put_back key replay t) (ns1 ++ ns2) w s)
| hs_online key rs t t' ns w s :
    take_requests key t = Some (rs, t') →
    hold_step (mkHold t ns w s) (mkHold t' ns (w ++ rs) s).

(** The requests a table holds, and those a notification has in its hands. *)
Definition held (t : hold_table) : list PullRequest := concat (map_to_list t).*2.
Definition in_hand (ns : list notification) : list PullRequest :=
  ns ≫= λ n, nt_todo n ++ nt_replay n.

#[local] Instance app_permutation {A} :
  Proper ((≡ₚ) ==> (≡ₚ) ==> (≡ₚ)) (@app A) | 0.
Proof. intros a b H c d H'. by apply Permutation_app. Qed.

Lemma held_at (t : hold_table) (k : string) :
  held t ≡ₚ default [] (t !! k) ++ held (delete k t).
Proof.
  unfold held. destruct (t !! k) as [l |] eqn:E.
  - rewrite <- (insert_delete_id t k l E) at 1.
    rewrite map_to_list_insert by apply lookup_delete_eq. done.
  - by rewrite delete_id.
Qed.
Lemma held_insert (t : hold_table) (k : string) (l : many) :
  held (<[k := l]> t) ≡ₚ l ++ held (delete k t).
Proof. by rewrite (held_at _ k), lookup_insert_eq, delete_insert_eq. Qed.

Lemma take_held (k : string) (t t' : hold_table) (rs : list PullRequest) :
  take_requests k t = Some (rs, t') → held t ≡ₚ rs ++ held t'.
Proof.
  unfold take_requests. destruct (t !! k) as [l |] eqn:E; [| done].
  destruct l as [| r l]; [done |]. cbn. intros [= <- <-]. rewrite held_insert, (held_at t k), E. done.
Qed.
Lemma put_back_held (k : string) (rs : list PullRequest) (t : hold_table) :
  held (put_back k rs t) ≡ₚ rs ++ held t.
Proof.
  unfold put_back. destruct rs as [| r rs]; [done |]. rewrite held_insert, (held_at t k).
  unfold add_pull_requests. by rewrite app_assoc, (Permutation_app_comm (default [] (t !! k))).
Qed.

Lemma in_hand_app ns1 n ns2 :
  in_hand (ns1 ++ n :: ns2) ≡ₚ (nt_todo n ++ nt_replay n) ++ in_hand (ns1 ++ ns2).
Proof. unfold in_hand. rewrite !bind_app, bind_cons. by solve_Permutation. Qed.

(** C25: However suspensions, notifications and the return of the master
    interleave, every request that was suspended is held by the table, in the
    hands of one notification, or was woken, exactly once: none is lost and
    none is answered twice. *)
Theorem requests_conserved (s : hold_state) :
  rtc hold_step hold_start s →
  hs_suspended s ≡ₚ held (hs_table s) ++ in_hand (hs_running s) ++ hs_woken s.
Proof.
  intros Hr. remember hold_start as s0 eqn:E0.
  assert (hs_suspended s0 ≡ₚ held (hs_table s0) ++ in_hand (hs_running s0) ++ hs_woken s0) as H0
    by (by subst).
  clear E0. induction Hr as [s | s0 s1 s Hs Hr IH]; [done |]. apply IH. clear IH Hr.
  destruct Hs as [topic q r t ns w s' | key a rs t t' ns w s' Ht | key a now mx r rs replay t ns1 ns2 w s'
    | key a replay t ns1 ns2 w s' | key rs t t' ns w s' Ht]; cbn [hs_table hs_running hs_woken hs_suspended] in *.
  - rewrite H0. unfold suspend_pull_request, add_pull_request.
    rewrite held_insert, (held_at t (hold_key topic q)). solve_Permutation.
  - rewrite H0, (take_held _ _ _ _ Ht). cbn [in_hand]. unfold in_hand. rewrite bind_cons. cbn.
    rewrite app_nil_r. solve_Permutation.
  - rewrite in_hand_app in H0. destruct (woken_by a now mx r); cbn [hs_table hs_running hs_woken hs_suspended];
      rewrite H0, in_hand_app; cbn [nt_todo nt_replay]; solve_Permutation.
  - rewrite H0, in_hand_app, put_back_held. cbn [nt_todo nt_replay app]. solve_Permutation.
  - rewrite H0, (take_held _ _ _ _ Ht). solve_Permutation.
Qed.

(** ** What a notification wakes *)

Lemma examine_spec (a : pull_arrival) (env : nat → Z * Z) (i : nat) (l : list PullRequest) :
  (examine a env i l).1 ++ (examine a env i l).2 ≡ₚ l ∧
  (∀ r, r ∈ (examine a env i l).2 → ∃ j, woken_by a (env j).1 (env j).2 r = false) ∧
  (∀ r, r ∈ l → (∀ j, woken_by a (env j).1 (env j).2 r = true) → r ∈ (examine a env i l).1).
Proof.
  revert i. induction l as [| r l IH]; intros i; cbn [examine]; [set_solver |].
  destruct (IH (S i)) as (Hp & Hn & Hw). destruct (examine a env (S i) l) as [w p]. cbn [fst snd] in *.
  destruct (woken_by a (env i).1 (env i).2 r) eqn:E; cbn [fst snd].
  - split_and!; [by apply Permutation_skip | done |]. intros x [-> | Hx]%elem_of_cons Hj; [left | right; auto].
  - split_and!; [rewrite <- Permutation_middle; by apply Permutation_skip | |].
    + intros x [-> | Hx]%elem_of_cons; [by exists i | auto].
    + intros x [-> | Hx]%elem_of_cons Hj; [by rewrite Hj in E | auto].
Qed.

Lemma notify_spec (topic : string) (q : Z) (a : pull_arrival) (env : nat → Z * Z) (t : hold_table) :
  let key := hold_key topic q in
  let '(woken, t') := notify_message_arriving_ext topic q a env t in
  woken ++ default [] (t' !! key) ≡ₚ default [] (t !! key) ∧ delete key t' = delete key t ∧
  (∀ r, r ∈ default [] (t' !! key) → ∃ j, woken_by a (env j).1 (env j).2 r = false) ∧
  (∀ r, r ∈ default [] (t !! key) → (∀ j, woken_by a (env j).1 (env j).2 r = true) → r ∈ woken).
Proof.
  cbn zeta. unfold notify_message_arriving_ext, take_requests.
  set (key := hold_key topic q).
  assert (default [] (t !! key) = [] →
    [] ++ default [] (t !! key) ≡ₚ default [] (t !! key) ∧ delete key t = delete key t ∧
    (∀ r, r ∈ default [] (t !! key) → ∃ j, woken_by a (env j).1 (env j).2 r = false) ∧
    (∀ r, r ∈ default [] (t !! key) → (∀ j, woken_by a (env j).1 (env j).2 r = true) →
          r ∈ ([] : list PullRequest))) as Hnone.
  { intros ->. split_and!; [done | done | by intros r Hr%elem_of_nil | by intros r Hr%elem_of_nil]. }
  destruct (t !! key) as [[| r l] |] eqn:E;
    cbn [clone_list_and_clear from_option id];
    [rewrite E; by apply Hnone | | rewrite E; by apply Hnone]. clear Hnone.
  destruct (examine_spec a env 0 (r :: l)) as (Hp & Hn & Hw).
  destruct (examine a env 0 (r :: l)) as [w p]. cbn [fst snd] in *.
  destruct p as [| x p]; cbn [put_back].
  - rewrite lookup_insert_eq, delete_insert_eq. cbn [from_option id]. rewrite app_nil_r in *.
    split_and!; [done | done | by intros x Hx%elem_of_nil | done].
  - rewrite lookup_insert_eq, !delete_insert_eq. cbn [from_option id].
    rewrite lookup_insert_eq. cbn [from_option id add_pull_requests app]. done.
Qed.

(** A message that arrives behind the offset of a waiting request and that its
    filter takes wakes the request. *)
Theorem arrival_wakes (topic : string) (q : Z) (a : pull_arrival) (env : nat → Z * Z) (t : hold_table)
    (r : PullRequest) :
  r ∈ default [] (t !! hold_key topic q) → pull_from_this_offset r < arr_max_offset a →
  filter_by_code r (arr_tags_code a) = true →
  match arr_properties a with Some p => filter_by_properties r p = true | None => True end →
  r ∈ (notify_message_arriving_ext topic q a env t).1.
Proof.
  intros Hr Ho Hc Hp. pose proof (notify_spec topic q a env t) as H. cbn zeta in H.
  destruct (notify_message_arriving_ext topic q a env t) as [w t']. destruct H as (_ & _ & _ & H).
  apply H; [done |]. intros j. unfold woken_by. rewrite (proj2 (Z.leb_gt _ _)) by lia.
  rewrite (proj2 (Z.ltb_lt _ _)) by lia. rewrite Hc. by destruct (arr_properties a) as [p |]; [rewrite Hp |].
Qed.

Definition example_request (from deadline : Z) : PullRequest :=
  mkPullRequest (mkCmd 11 RUST 0 1 0 None None None false None JSON) (example_channel "c1")
    deadline 0 from (λ _, true) (λ _, true).
Definition example_table : hold_table :=
  {[hold_key "orders" 3 := [example_request 5 1000; example_request 9 50]]}.
Lemma arrival_wakes_witness :
  example_request 5 1000 ∈
    (notify_message_arriving_ext "orders" 3 (mkArrival 6 (Some 7) None) (λ _, (10, 6)) example_table).1.
Proof.
  apply arrival_wakes.
  - unfold example_table. rewrite lookup_singleton_eq. apply list_elem_of_here.
  - reflexivity.
  - reflexivity.
  - exact I.
Defined.

(** ** The regular check *)
Definition key_ok (k : string) : Prop :=
  ∃ topic q, k = hold_key topic q ∧ Byte.x40 ∉ str_bytes topic ∧ in_s 32 q.
Definition deadline (r : PullRequest) : Z := as_u64 (suspend_timestamp r + timeout_millis r).

Section CheckSpec.
Variable get_max_offset_in_queue : string → Z → Z.
Variable env : string → nat → Z * Z.
Variable now : Z.
Hypothesis clock : ∀ k i, now ≤ (env k i).1.
Notation check_key := (check_key get_max_offset_in_queue env).
Notation check_keys := (check_keys get_max_offset_in_queue env).

Lemma check_key_spec (k : string) (t : hold_table) : key_ok k →
  ∃ woken t', check_key k t = Done (woken, t') ∧
    woken ++ default [] (t' !! k) ≡ₚ default [] (t !! k) ∧ delete k t' = delete k t ∧
    ∀ r, r ∈ default [] (t' !! k) → now < deadline r.
Proof using clock.
  intros (topic & q & -> & Ht & Hq). unfold check_key.
  assert (split_char Byte.x40 (hold_key topic q) = [topic; pretty q]) as ->.
  { apply (split_char_join Byte.x40 "@" [topic; pretty q]); [done | done |].
    repeat constructor; [done | by apply pretty_not_byte]. }
  rewrite parse_i32_pretty by done. cbn [unwrap obind]. unfold notify_message_arriving.
  pose proof (notify_spec topic q (mkArrival (get_max_offset_in_queue topic q) None None)
    (env (hold_key topic q)) t) as H. cbn zeta in H.
  destruct (notify_message_arriving_ext _ _ _ _ _) as [w t']. destruct H as (Hp & Hd & Hn & _).
  eexists _, _. split_and!; [done | done | done |].
  intros r Hr. destruct (Hn r Hr) as [j Hj]. unfold woken_by in Hj.
  apply orb_false_iff in Hj as [_ Hj]. apply Z.leb_gt in Hj.
  specialize (clock (hold_key topic q) j). unfold deadline. lia.
Qed.

Lemma check_keys_spec (keys : list string) (t : hold_table) :
  NoDup keys → Forall key_ok keys →
  ∃ woken t', check_keys keys t = Done (woken, t') ∧ woken ++ held t' ≡ₚ held t ∧
    (∀ k, k ∉ keys → t' !! k = t !! k) ∧
    ∀ k, k ∈ keys → ∀ r, r ∈ default [] (t' !! k) → now < deadline r.
Proof using clock.
  intros Hnd HF. revert t Hnd. induction HF as [| k keys Hk HF IH]; intros t Hnd.
  { exists [], t. split_and!; [done | done | done | by intros k Hk%elem_of_nil]. }
  apply NoDup_cons in Hnd as [Hin Hnd].
  destruct (check_key_spec k t Hk) as (w1 & t1 & E1 & Hp1 & Hd1 & Hn1).
  destruct (IH t1 Hnd) as (w2 & t2 & E2 & Hp2 & Ho2 & Hn2).
  exists (w1 ++ w2), t2. cbn [check_keys]. unfold PullHold.check_keys. rewrite E1. cbn [obind].
  fold check_keys. rewrite E2. cbn [obind]. split_and!; [done | | |].
  - rewrite <- app_assoc, Hp2, (held_at t1 k), (held_at t k), <- Hp1, Hd1. by rewrite app_assoc.
  - intros k' [Hne Hk']%not_elem_of_cons. rewrite Ho2 by done.
    pose proof (f_equal (lookup k') Hd1) as H. by rewrite !lookup_delete_ne in H by done.
  - intros k' [-> | Hk']%elem_of_cons; [| by apply Hn2]. rewrite Ho2 by done. apply Hn1.
Qed.

Lemma held_elem (t : hold_table) (r : PullRequest) :
  r ∈ held t → ∃ k, is_Some (t !! k) ∧ r ∈ default [] (t !! k).
Proof.
  unfold held. intros (l & Hl & Hr)%list_elem_of_In%in_concat.
  apply list_elem_of_In in Hl, Hr. apply list_elem_of_fmap in Hl as ([k l'] & -> & Hkl). apply elem_of_map_to_list in Hkl.
  exists k. rewrite Hkl. split; [by eexists | done].
Qed.

(** C26: The check that runs every few seconds answers every request whose time is
    over, loses none, and what is held afterwards has time left. *)
Theorem expired_requests_woken (order : hold_table → list string) (t : hold_table) :
  order t ≡ₚ (map_to_list t).*1 → (∀ k, is_Some (t !! k) → key_ok k) →
  ∃ woken t', check_hold_request get_max_offset_in_queue env order t = Done (woken, t') ∧
    woken ++ held t' ≡ₚ held t ∧ ∀ r, r ∈ held t' → now < deadline r.
Proof using clock.
  intros Ho Hk.
  assert (∀ k, k ∈ order t ↔ is_Some (t !! k)) as Hin.
  { intros k. rewrite Ho, list_elem_of_fmap. split.
    - intros ([k' l] & -> & H%elem_of_map_to_list). by eexists.
    - intros [l Hl]. exists (k, l). split; [done | by apply elem_of_map_to_list]. }
  destruct (check_keys_spec (order t) t) as (w & t' & E & Hp & Hother & Hn).
  - rewrite Ho. apply NoDup_fst_map_to_list.
  - apply Forall_forall. intros k Hk'%Hin. by apply Hk.
  - exists w, t'. split_and!; [done | done |]. intros r (k & Hs & Hr)%held_elem.
    destruct (decide (k ∈ order t)) as [Hko | Hko]; [by eapply Hn |].
    rewrite Hother in Hs by done. exfalso. by apply Hko, Hin.
Qed.
End CheckSpec.

Lemma expired_requests_woken_witness :
  ∃ woken t', check_hold_request (λ _ _, 5) (λ _ _, (100, 5)) (λ t, (map_to_list t).*1) example_table =
      Done (woken, t') ∧
    woken ++ held t' ≡ₚ held example_table ∧ ∀ r, r ∈ held t' → 100 < deadline r.
Proof.
  apply (expired_requests_woken (λ _ _, 5) (λ _ _, (100, 5)) 100).
  - intros k i. reflexivity.
  - reflexivity.
  - intros k [l Hl]. unfold example_table in Hl. apply lookup_singleton_Some in Hl as [<- _].
    exists "orders", 3. split; [reflexivity |]. split; [| by vm_compute].
    apply (bool_decide_unpack _). by vm_compute.
Defined.
(** One suspension, a notification that wakes it, nothing left. *)
Lemma requests_conserved_witness :
  let r := example_request 5 1000 in
  ∃ s, rtc hold_step hold_start s ∧ hs_woken s = [suspend_request r] ∧
    hs_suspended s ≡ₚ held (hs_table s) ++ in_hand (hs_running s) ++ hs_woken s.
Proof.
  intros r.
  assert (rtc hold_step hold_start
    (mkHold (<[hold_key "orders" 3 := []]> (suspend_pull_request "orders" 3 r ∅)) []
       [suspend_request r] [suspend_request r])) as Hr.
  { eapply rtc_l; [apply (hs_suspend "orders" 3 r) |].
    eapply rtc_l; [eapply (hs_online (hold_key "orders" 3)) |]; [| apply rtc_refl].
    unfold take_requests, suspend_pull_request. rewrite lookup_insert_eq. reflexivity. }
  eexists. split; [exact Hr |]. split; [reflexivity |]. apply (requests_conserved _ Hr).
Defined.
