(* ===== verification/PutHooks.v ===== *)
(** * PutHooks: what the broker does to a message before it is put
    ([hook_utils.rs] of the broker)

    The hooks refuse messages the store cannot take, and send a delayed message
    to another topic: one with a delay level to a queue of the schedule topic,
    one with a time of its own to the topic of the timer wheel.  The topic and
    queue it was meant for are kept in its properties. *)

From stdpp Require Import base gmap list strings pretty.
From Stdlib Require Import ZArith Lia.
From S2P Require Import Prelude Bytes FileName Numerals Message Properties MessageExtEncoder CheckMessage ConsumeQueueStore Subscriptions TopicConfigs PopInfo.
Open Scope Z_scope.
Open Scope rmq_scope.

(** ** Refusing messages *)
Definition MAX_TOPIC_LENGTH : nat := 255.

(** The store: whether it has shut down, whether it is the slave of a pair that
    duplicates, whether it is writeable and whether its page cache is busy. *)
Record put_guard := mkGuard {
  gd_shutdown : bool; duplication_enable : bool; gd_slave : bool; gd_writeable : bool;
  os_page_cache_busy : bool;
}.
Definition check_before_put_message (g : put_guard) (m : MessageExt) : option PutMessageStatus :=
  let topic_len := str_len (topic (message m)) in
  if gd_shutdown g then Some ServiceNotAvailable
  else if duplication_enable g && gd_slave g then Some ServiceNotAvailable
  else if negb (gd_writeable g) then Some ServiceNotAvailable
  else if negb (String.prefix RETRY_GROUP_TOPIC_PREFIX (topic (message m))) &&
          (127 <? topic_len)%nat then Some MessageIllegal
  else if (MAX_TOPIC_LENGTH <? topic_len)%nat then Some MessageIllegal
  else match body (message m) with
       | None => Some MessageIllegal
       | Some _ => if os_page_cache_busy g then Some OsPageCacheBusy else None
       end.

Definition check_inner_batch (t : topic_table) (m : MessageExt) : option PutMessageStatus :=
  let batch := MessageSysFlag.check (sys_flag m) MessageSysFlag.INNER_BATCH_FLAG in
  if bool_decide (is_Some (properties (message m) !! MessageConst.PROPERTY_INNER_NUM)) && negb batch
  then Some MessageIllegal
  else if batch && negb (is_batch_cq (bt_attributes <$> t !! topic (message m)))
  then Some MessageIllegal
  else None.

(** ** Delayed messages *)
Definition PROPERTY_TIMER_DELIVER_MS : string := "TIMER_DELIVER_MS".
Definition PROPERTY_TIMER_DELAY_SEC : string := "TIMER_DELAY_SEC".
Definition PROPERTY_TIMER_DELAY_MS : string := "TIMER_DELAY_MS".
Definition PROPERTY_TIMER_OUT_MS : string := "TIMER_OUT_MS".
Definition PROPERTY_TIMER_DEL_UNIQKEY : string := "TIMER_DEL_UNIQKEY".
Definition PROPERTY_REAL_TOPIC : string := "REAL_TOPIC".
Definition PROPERTY_REAL_QUEUE_ID : string := "REAL_QID".

Definition set_delay_time_level (level : Z) (m : Message) : Message :=
  put_property MessageConst.PROPERTY_DELAY_TIME_LEVEL (pretty level) m.
Definition has_property (k : string) (m : Message) : bool :=
  bool_decide (is_Some (properties m !! k)).

Definition inner_msg (m : MessageExtBrokerInner) : Message := message (message_ext_inner m).
Definition set_msg_topic (t : string) (m : Message) : Message :=
  mkMessage t (flag m) (properties m) (body m) (compressed_body m) (transaction_id m).
(** The message of a message, and its queue. *)
Definition with_msg (m : Message) (e : MessageExt) : MessageExt :=
  mkMessageExt m (broker_name e) (queue_id e) (store_size e) (queue_offset e) (sys_flag e)
    (born_timestamp e) (born_host e) (store_timestamp e) (store_host e) (msg_id e)
    (commit_log_offset e) (body_crc e) (reconsume_times e) (prepared_transaction_offset e).
Definition with_queue_id (q : Z) (e : MessageExt) : MessageExt :=
  mkMessageExt (message e) (broker_name e) q (store_size e) (queue_offset e) (sys_flag e)
    (born_timestamp e) (born_host e) (store_timestamp e) (store_host e) (msg_id e)
    (commit_log_offset e) (body_crc e) (reconsume_times e) (prepared_transaction_offset e).
Definition on_inner_msg (f : Message → Message) (m : MessageExtBrokerInner)
  : MessageExtBrokerInner := set_inner (with_msg (f (inner_msg m)) (message_ext_inner m)) m.
Definition with_properties_string (s : string) (m : MessageExtBrokerInner)
  : MessageExtBrokerInner :=
  mkBrokerInner (message_ext_inner m) s (tags_code m) (encoded_buff m) (encode_completed m)
    (version m).

Definition delay_level_to_queue_id (delay_level : Z) : Z := as_i32 (delay_level - 1).
Definition queue_id_to_delay_level (queue_id : Z) : Z := as_i32 (queue_id + 1).

Definition is_rolled_timer_message (m : MessageExtBrokerInner) : bool :=
  bool_decide (TIMER_TOPIC = topic (inner_msg m)).

Definition check_if_timer_message (m : MessageExtBrokerInner) : bool * MessageExtBrokerInner :=
  let msg := inner_msg m in
  if 0 <? get_delay_time_level msg then
    (false, on_inner_msg (λ x, clear_property PROPERTY_TIMER_DELAY_MS
              (clear_property PROPERTY_TIMER_DELAY_SEC
                 (clear_property PROPERTY_TIMER_DELIVER_MS x))) m)
  else if bool_decide (TIMER_TOPIC = topic msg) || has_property PROPERTY_TIMER_OUT_MS msg
  then (false, m)
  else (has_property PROPERTY_TIMER_DELIVER_MS msg || has_property PROPERTY_TIMER_DELAY_MS msg ||
        has_property PROPERTY_TIMER_DELAY_SEC msg, m).

Section Transform.
(** The iteration order of the properties. *)
Variable order : gmap string string → list (string * string).

(** The topic and queue of the message go to its properties, the message to
    the topic and queue given. *)
Definition redirect (new_topic : string) (new_queue : Message → Z) (m : MessageExtBrokerInner)
  : MessageExtBrokerInner :=
  let m := on_inner_msg (put_property PROPERTY_REAL_TOPIC (topic (inner_msg m))) m in
  let m := on_inner_msg (put_property PROPERTY_REAL_QUEUE_ID
                           (pretty (queue_id (message_ext_inner m)))) m in
  let m := with_properties_string (message_properties_to_string (order (properties (inner_msg m)))) m in
  let m := on_inner_msg (set_msg_topic new_topic) m in
  set_inner (with_queue_id (new_queue (inner_msg m)) (message_ext_inner m)) m.

Definition transform_delay_level_message (max_level : Z) (m : MessageExtBrokerInner)
  : MessageExtBrokerInner :=
  let m := if max_level <? get_delay_time_level (inner_msg m)
           then on_inner_msg (set_delay_time_level max_level) m else m in
  redirect RMQ_SYS_SCHEDULE_TOPIC (λ x, delay_level_to_queue_id (get_delay_time_level x)) m.

(** The clock is read up to three times; [is_reject] of the timer store is
    always false. *)
Definition transform_timer_message (clock : nat → Z) (timer_max_delay_sec timer_precision_ms : Z)
    (m : MessageExtBrokerInner) : outcome (option PutMessageStatus * MessageExtBrokerInner) :=
  let p := properties (inner_msg m) in
  let* deliver :=
    match p !! PROPERTY_TIMER_DELAY_SEC with
    | Some s => let* v := unwrap (parse_u64 s) in Done (Some (as_u64 (clock 0%nat + as_u64 (v * 1000))))
    | None =>
        match p !! PROPERTY_TIMER_DELAY_MS with
        | Some s => let* v := unwrap (parse_u64 s) in Done (Some (as_u64 (clock 0%nat + v)))
        | None =>
            match p !! PROPERTY_TIMER_DELIVER_MS with
            | Some s => let* v := unwrap (parse_u64 s) in Done (Some v)
            | None => Done None
            end
        end
    end in
  match deliver with
  | None => Done (Some WheelTimerMsgIllegal, m)
  | Some deliver_ms =>
      if clock 1%nat <? deliver_ms then
        if (get_delay_time_level (inner_msg m) <=? 0) &&
           (as_u64 (timer_max_delay_sec * 1000) <? as_u64 (deliver_ms - clock 2%nat))
        then Done (Some WheelTimerMsgIllegal, m)
        else if timer_precision_ms =? 0 then Panic
        else
          let deliver_ms :=
            if deliver_ms mod timer_precision_ms =? 0
            then as_u64 (deliver_ms - timer_precision_ms)
            else deliver_ms / timer_precision_ms * timer_precision_ms in
          let m := on_inner_msg (put_property PROPERTY_TIMER_OUT_MS (pretty deliver_ms)) m in
          Done (None, redirect TIMER_TOPIC (λ _, 0) m)
      else if has_property PROPERTY_TIMER_DEL_UNIQKEY (inner_msg m)
      then Done (Some WheelTimerMsgIllegal, m)
      else Done (None, m)
  end.

Definition handle_schedule_message (clock : nat → Z) (timer_wheel_enable : bool)
    (timer_max_delay_sec timer_precision_ms max_level : Z) (m : MessageExtBrokerInner)
  : outcome (option PutMessageStatus * MessageExtBrokerInner) :=
  let tran_type := MessageSysFlag.get_transaction_value (sys_flag (message_ext_inner m)) in
  if (tran_type =? 0) || (tran_type =? MessageSysFlag.TRANSACTION_COMMIT_TYPE) then
    let* (answer, m) :=
      if is_rolled_timer_message m then Done (None, m)
      else
        let '(timer, m) := check_if_timer_message m in
        if timer then
          if negb timer_wheel_enable then Done (Some WheelTimerNotEnable, m)
          else transform_timer_message clock timer_max_delay_sec timer_precision_ms m
        else Done (None, m) in
    match answer with
    | Some s => Done (Some s, m)
    | None =>
        if 0 <? get_delay_time_level (inner_msg m)
        then Done (None, transform_delay_level_message max_level m)
        else Done (None, m)
    end
  else Done (None, m).
End Transform.
