(* ===== verification/Schedule.v ===== *)
(** * Schedule: delivery of delayed messages
    ([schedule_message_service.rs] of the broker)

    Messages with a delay level wait in a queue of the schedule topic, one queue
    per level.  A task per level reads its queue from the offset it has reached,
    delivers the messages whose time has come to the topic and queue they were
    meant for, and keeps the offset up to which it delivered.  Deliveries are
    waited for, or kept in a list that a second task works off. *)

From stdpp Require Import base gmap list strings pretty.
From Stdlib Require Import ZArith Lia.
From S2P Require Import Prelude Bytes FileName Numerals Hasher Message Properties MessageExtEncoder CheckMessage RouteInfo Offsets Rebalance ConsumeQueue TopicConfigs Subscriptions PutHooks.
Open Scope Z_scope.
Open Scope rmq_scope.

(** ** State *)
Inductive ProcessStatus := Running | Success | Exception | Skip.
#[export] Instance ProcessStatus_eq_dec : EqDecision ProcessStatus.
Proof. solve_decision. Defined.
#[export] Instance PutMessageStatus_eq_dec : EqDecision PutMessageStatus.
Proof. solve_decision. Defined.

Record PutResultProcess := mkProcess {
  pp_topic : string;
  pp_offset : Z;
  physic_offset : Z;
  physic_size : Z;
  pp_delay_level : Z;
  pp_msg_id : string;
  auto_resend : bool;
  put_result : option PutMessageStatus;
  resend_count : Z;
  pp_status : ProcessStatus;
}.
Definition process_next_offset (p : PutResultProcess) : Z := as_i64 (pp_offset p + 1).
Definition set_status (s : ProcessStatus) (p : PutResultProcess) : PutResultProcess :=
  mkProcess (pp_topic p) (pp_offset p) (physic_offset p) (physic_size p) (pp_delay_level p)
    (pp_msg_id p) (auto_resend p) (put_result p) (resend_count p) s.
Definition handle_result (r : PutMessageStatus) (p : PutResultProcess) : PutResultProcess :=
  set_status (if decide (r = StatusPutOk) then Success
              else if auto_resend p then Exception else Skip) p.

Record ScheduleMessageService := mkSchedule {
  ss_levels : DelayLevels;
  ss_offset_table : gmap Z Z;
  started : bool;
  ss_data_version : DataVersion;
  version_change_counter : Z;
  deliver_pending_table : gmap Z (list PutResultProcess);
}.
Record ScheduleConfig := mkScheduleConfig {
  message_delay_level : string;
  enable_async_deliver : bool;
  max_pending_limit : nat;
  max_resend_num2_blocked : Z;
  delay_offset_update_version_step : Z;
}.
Definition new_schedule (now : Z) : ScheduleMessageService :=
  mkSchedule (mkDelay ∅ 0) ∅ false (mkDataVersion 0 now 0) 0 ∅.
Definition set_levels d (s : ScheduleMessageService) :=
  mkSchedule d (ss_offset_table s) (started s) (ss_data_version s) (version_change_counter s)
    (deliver_pending_table s).
Definition set_offsets t (s : ScheduleMessageService) :=
  mkSchedule (ss_levels s) t (started s) (ss_data_version s) (version_change_counter s)
    (deliver_pending_table s).
Definition set_pending t (s : ScheduleMessageService) :=
  mkSchedule (ss_levels s) (ss_offset_table s) (started s) (ss_data_version s)
    (version_change_counter s) t.

Section Service.
Variable cfg : ScheduleConfig.

(** ** Levels *)

(** Stops at the first level that cannot be read, which keeps the levels read
    before and the old largest level. *)
Fixpoint parse_levels_strictly (level : Z) (values : list buffer) (max_level : Z)
    (s : ScheduleMessageService) : outcome (bool * Z * ScheduleMessageService) :=
  match values with
  | [] => Done (true, max_level, s)
  | value :: values' =>
      let* ch := unwrap (last (chars (bytes_str value))) in
      match time_unit ch with
      | None => Done (false, max_level, s)
      | Some tu =>
          let max_level := if max_level <? level then level else max_level in
          match parse_i64 (bytes_str (take (length value - 1) value)) with
          | None => Done (false, max_level, s)
          | Some num =>
              let d := ss_levels s in
              let s := set_levels (mkDelay (<[level := as_i64 (tu * num)]> (delay_level_table d))
                                     (max_delay_level d)) s in
              let s := if enable_async_deliver cfg
                       then set_pending (<[level := []]> (deliver_pending_table s)) s else s in
              parse_levels_strictly (as_i32 (level + 1)) values' max_level s
          end
      end
  end.
Definition schedule_parse_delay_level (s : ScheduleMessageService)
  : outcome (bool * ScheduleMessageService) :=
  let* r := parse_levels_strictly 1
              (split_byte Byte.x20 (str_bytes (message_delay_level cfg)) []) 0 s in
  match r with
  | (true, max_level, s) =>
      Done (true, set_levels (mkDelay (delay_level_table (ss_levels s)) max_level) s)
  | (false, _, s) => Done (false, s)
  end.

Definition compute_deliver_timestamp (delay_level store_timestamp : Z) (s : ScheduleMessageService)
  : Z :=
  match delay_level_table (ss_levels s) !! delay_level with
  | Some t => as_i64 (t + store_timestamp)
  | None => as_i64 (store_timestamp + 1000)
  end.

(** Every so many updates the version moves on. *)
Definition update_offset (now store_version delay_level offset : Z) (s : ScheduleMessageService)
  : outcome ScheduleMessageService :=
  let c := version_change_counter s in
  let step := as_i64 (delay_offset_update_version_step cfg) in
  if step =? 0 then Panic
  else
    Done (mkSchedule (ss_levels s) (<[delay_level := offset]> (ss_offset_table s)) (started s)
      (if rrem c step =? 0 then next_version_with now store_version (ss_data_version s)
       else ss_data_version s)
      (as_i64 (c + 1)) (deliver_pending_table s)).

(** The offset of a level brought within the bounds of its queue. *)
Definition correct_offset (cq_min cq_max offset : Z) : Z :=
  let c := if offset <? cq_min then cq_min else offset in
  if cq_max <? offset then cq_max else c.
(** [bounds] gives the smallest and largest offset of the queue of a level. *)
Definition correct_delay_offset (bounds : Z → Z * Z) (s : ScheduleMessageService)
  : ScheduleMessageService :=
  set_offsets (map_imap (λ level o,
      match delay_level_table (ss_levels s) !! level with
      | Some _ => Some (correct_offset (bounds level).1 (bounds level).2 o)
      | None => Some o
      end) (ss_offset_table s)) s.

(** [decode] of a parsed wrapper. *)
Definition load_offsets (table : option (gmap Z Z)) (dv : option DataVersion)
    (s : ScheduleMessageService) : ScheduleMessageService :=
  mkSchedule (ss_levels s) (default ∅ table ∪ ss_offset_table s) (started s)
    (default (ss_data_version s) dv) (version_change_counter s) (deliver_pending_table s).

(** ** The message that is delivered *)
Section Deliver.
Variable order : gmap string string → list (string * string).

Definition message_time_up (e : MessageExt) : outcome MessageExtBrokerInner :=
  let m := message e in
  let props := properties m in
  let code := tags_string2tags_code (props !! MessageConst.PROPERTY_TAGS) in
  let text := message_properties_to_string (order props) in
  let props := <[PROPERTY_WAIT_STORE_MSG_OK := "false"]> props in
  let props := delete PROPERTY_TIMER_DELAY_SEC (delete PROPERTY_TIMER_DELIVER_MS
                 (delete MessageConst.PROPERTY_DELAY_TIME_LEVEL props)) in
  let real_topic := default "" (props !! PROPERTY_REAL_TOPIC) in
  let* q := match props !! PROPERTY_REAL_QUEUE_ID with
            | Some q => unwrap (parse_i32 q)
            | None => Done 0
            end in
  Done (mkBrokerInner
    (mkMessageExt (mkMessage real_topic (flag m) props (body m) None None) "" q 0 0 (sys_flag e)
       (born_timestamp e) (born_host e) 0 (store_host e) "" 0 0 (reconsume_times e) 0)
    text code None false V1).

(** ** The task of a level *)

(** The store: the message at an offset with its size, the store time of a
    message, and the answer to a put. *)
Variable look_message : Z → Z → option MessageExt.
Variable pickup_store_timestamp : Z → Z → Z.
Variable put_message : MessageExtBrokerInner → PutMessageStatus.
Variable store_version : Z.
Variable level : Z.

Definition correct_deliver_timestamp (now deliver_timestamp : Z) (s : ScheduleMessageService)
  : outcome Z :=
  let* delay_time := unwrap (delay_level_table (ss_levels s) !! level) in
  let max_timestamp := as_i64 (now + delay_time) in
  Done (if max_timestamp <? deliver_timestamp then now else deliver_timestamp).

(** Puts the message and notes the result. *)
Definition deliver_message (m : MessageExtBrokerInner) (id : string) (offset offset_py size_py : Z)
    (resend : bool) : PutResultProcess :=
  let r := put_message m in
  handle_result r (mkProcess (topic (inner_msg m)) offset offset_py size_py level id resend (Some r) 0
                     Running).

Definition sync_deliver (now : Z) (m : MessageExtBrokerInner) (id : string)
    (offset offset_py size_py : Z) (s : ScheduleMessageService)
  : outcome (bool * list MessageExtBrokerInner * ScheduleMessageService) :=
  let p := deliver_message m id offset offset_py size_py false in
  if decide (default StatusUnknownError (put_result p) = StatusPutOk) then
    let* s := update_offset now store_version level (process_next_offset p) s in Done (true, [m], s)
  else Done (false, [m], s).

Definition need2_blocked (p : PutResultProcess) : bool :=
  as_i32 (max_resend_num2_blocked cfg) <? resend_count p.
Definition need2_skip (p : PutResultProcess) : bool :=
  as_i32 (max_resend_num2_blocked cfg * 2) <? resend_count p.

Definition async_deliver (m : MessageExtBrokerInner) (id : string) (offset offset_py size_py : Z)
    (s : ScheduleMessageService)
  : outcome (bool * list MessageExtBrokerInner * ScheduleMessageService) :=
  let* queue := unwrap (deliver_pending_table s !! level) in
  if (max_pending_limit cfg <? length queue)%nat then Done (false, [], s)
  else if match queue with p :: _ => need2_blocked p | [] => false end then Done (false, [], s)
  else
    let p := deliver_message m id offset offset_py size_py true in
    Done (true, [m], set_pending (<[level := queue ++ [p]]> (deliver_pending_table s)) s).

(** Whether the service runs and what the clock says as each unit is reached. *)
Variable env : nat → bool * Z.

(** The offset to go on from, what was put, and the state. *)
Fixpoint deliver_units (i : nat) (units : list CqUnit) (next_offset : Z) (s : ScheduleMessageService)
  : outcome (Z * list MessageExtBrokerInner * ScheduleMessageService) :=
  match units with
  | [] => Done (next_offset, [], s)
  | u :: us =>
      if negb (env i).1 then Done (next_offset, [], s)
      else
        let code :=
          if is_ext_addr (cu_tags_code u)
          then compute_deliver_timestamp level (pickup_store_timestamp (cu_pos u) (cu_size u)) s
          else cu_tags_code u in
        let now := (env i).2 in
        let* deliver_timestamp := correct_deliver_timestamp now code s in
        let curr_offset := cu_queue_offset u in
        let next_offset := as_i64 (curr_offset + 1) in
        if 0 <? as_i64 (deliver_timestamp - now) then
          let* s := update_offset now store_version level curr_offset s in
          Done (curr_offset, [], s)
        else
          match look_message (cu_pos u) (cu_size u) with
          | None => deliver_units (S i) us next_offset s
          | Some e =>
              let* m := message_time_up e in
              if decide (topic (inner_msg m) = RMQ_SYS_TRANS_HALF_TOPIC)
              then deliver_units (S i) us next_offset s
              else
                let* r := if enable_async_deliver cfg
                          then async_deliver m (msg_id e) curr_offset (cu_pos u) (cu_size u) s
                          else sync_deliver now m (msg_id e) curr_offset (cu_pos u) (cu_size u) s in
                let '(ok, put, s) := r in
                if ok then
                  let* rest := deliver_units (S i) us next_offset s in
                  let '(next, puts, s) := rest in Done (next, put ++ puts, s)
                else Done (next_offset, put, s)
          end
  end.

Definition DELAY_FOR_A_WHILE : Z := 100.
(** What is known of the queue: its iterator from the offset of the task, if
    there is one, and its bounds.  The answer is the offset and delay of the
    next task, what was put, and the state. *)
Definition execute_on_time_up (offset : Z) (cq : option (option (list CqUnit) * Z * Z))
    (s : ScheduleMessageService)
  : outcome (Z * Z * list MessageExtBrokerInner * ScheduleMessageService) :=
  match cq with
  | None => Done (offset, DELAY_FOR_A_WHILE, [], s)
  | Some (None, cq_min, cq_max) =>
      let reset_offset := if offset <? cq_min then cq_min
                          else if cq_max <? offset then cq_max else offset in
      Done (reset_offset, DELAY_FOR_A_WHILE, [], s)
  | Some (Some units, _, _) =>
      let* r := deliver_units 0 units offset s in
      let '(next, puts, s) := r in Done (next, DELAY_FOR_A_WHILE, puts, s)
  end.

(** ** The task that works off pending deliveries *)
Definition do_resend (p : PutResultProcess) : outcome PutResultProcess :=
  let p := mkProcess (pp_topic p) (pp_offset p) (physic_offset p) (physic_size p)
             (pp_delay_level p) (pp_msg_id p) (auto_resend p) (put_result p)
             (as_i32 (resend_count p + 1)) (pp_status p) in
  match look_message (physic_offset p) (physic_size p) with
  | Some e => let* m := message_time_up e in Done (handle_result (put_message m) p)
  | None => Done (set_status (if need2_skip p then Skip else Exception) p)
  end.

Fixpoint handle_pending (now : nat → Z) (i : nat) (queue : list PutResultProcess)
    (s : ScheduleMessageService) : outcome (list PutResultProcess * ScheduleMessageService) :=
  match queue with
  | [] => Done ([], s)
  | p :: queue' =>
      match pp_status p with
      | Success =>
          let* s := update_offset (now i) store_version level (process_next_offset p) s in
          handle_pending now (S i) queue' s
      | Running => Done (queue, s)
      | Exception =>
          if started s then let* p := do_resend p in Done (p :: queue', s) else Done (queue, s)
      | Skip => Done (queue', s)
      end
  end.
Definition handle_put_result (now : nat → Z) (s : ScheduleMessageService)
  : outcome ScheduleMessageService :=
  match deliver_pending_table s !! level with
  | None => Done s
  | Some queue =>
      let* r := handle_pending now 0 queue s in
      Done (set_pending (<[level := r.1]> (deliver_pending_table r.2)) r.2)
  end.
End Deliver.
End Service.

(** ** A delayed message gets back to its topic *)

Lemma on_inner_msg_msg (f : Message → Message) (m : MessageExtBrokerInner) :
  inner_msg (on_inner_msg f m) = f (inner_msg m).
Proof. done. Qed.

(** The level of a message and the level it waits in. *)
Definition capped (max_level level : Z) : Z := if max_level <? level then max_level else level.

Lemma get_delay_put (k v : string) (m : Message) :
  k ≠ MessageConst.PROPERTY_DELAY_TIME_LEVEL →
  get_delay_time_level (put_property k v m) = get_delay_time_level m.
Proof. intros Hk. unfold get_delay_time_level. cbn. by rewrite lookup_insert_ne. Qed.
Lemma get_delay_clear (k : string) (m : Message) :
  k ≠ MessageConst.PROPERTY_DELAY_TIME_LEVEL →
  get_delay_time_level (clear_property k m) = get_delay_time_level m.
Proof. intros Hk. unfold get_delay_time_level. cbn. by rewrite lookup_delete_ne. Qed.
Lemma get_delay_set (l : Z) (m : Message) :
  in_s 32 l → get_delay_time_level (set_delay_time_level l m) = l.
Proof.
  intros Hl. unfold get_delay_time_level. cbn. rewrite lookup_insert_eq. by rewrite parse_i32_pretty.
Qed.
Lemma get_delay_range (m : Message) : in_s 32 (get_delay_time_level m).
Proof.
  unfold get_delay_time_level. destruct (_ !! _) as [t |]; [| in_range].
  destruct (parse_i32 t) as [v |] eqn:E; cbn; [| in_range]. revert E. unfold parse_i32, parse_signed.
  destruct (str_bytes t) as [| c cs]; [done |]. cbn zeta.
  destruct (if decide _ then _ else _) as [| x y]; [done |].
  destruct (parse_digits _ _) as [n |]; [| done]. destruct (_ && _) eqn:Hb; [| done].
  intros [= <-]. apply andb_true_iff in Hb as [H1 H2]. apply Z.leb_le in H1, H2.
  unfold in_s. lia.
Qed.

(** The properties a redirected message ends up with. *)
Lemma redirect_spec (order : gmap string string → list (string * string)) (t : string)
    (q : Message → Z) (m : MessageExtBrokerInner) :
  let m' := redirect order t q m in
  let p := <[PROPERTY_REAL_QUEUE_ID := pretty (queue_id (message_ext_inner m))]>
             (<[PROPERTY_REAL_TOPIC := topic (inner_msg m)]> (properties (inner_msg m))) in
  properties (inner_msg m') = p ∧ topic (inner_msg m') = t ∧
  queue_id (message_ext_inner m') = q (set_msg_topic t (set_properties p (inner_msg m))) ∧
  body (inner_msg m') = body (inner_msg m) ∧ flag (inner_msg m') = flag (inner_msg m) ∧
  sys_flag (message_ext_inner m') = sys_flag (message_ext_inner m).
Proof. done. Qed.

(** The parts of a message that survive. *)
Record same_content (a b : MessageExtBrokerInner) : Prop := {
  sc_topic : topic (inner_msg a) = topic (inner_msg b);
  sc_queue : queue_id (message_ext_inner a) = queue_id (message_ext_inner b);
  sc_body : body (inner_msg a) = body (inner_msg b);
  sc_flag : flag (inner_msg a) = flag (inner_msg b);
  sc_tags : properties (inner_msg a) !! MessageConst.PROPERTY_TAGS =
            properties (inner_msg b) !! MessageConst.PROPERTY_TAGS;
}.

Definition not_prepared (m : MessageExtBrokerInner) : Prop :=
  let tran := MessageSysFlag.get_transaction_value (sys_flag (message_ext_inner m)) in
  tran = 0 ∨ tran = MessageSysFlag.TRANSACTION_COMMIT_TYPE.

(** A message with a level only loses the properties of the timer before it is
    redirected. *)
Lemma handled_by_level (order : gmap string string → list (string * string))
    (clock : nat → Z) (wheel : bool) (max_delay precision max_level : Z)
    (m : MessageExtBrokerInner) :
  0 < get_delay_time_level (inner_msg m) → not_prepared m →
  ∃ m1, handle_schedule_message order clock wheel max_delay precision max_level m =
      Done (None, transform_delay_level_message order max_level m1) ∧
    get_delay_time_level (inner_msg m1) = get_delay_time_level (inner_msg m) ∧ same_content m1 m.
Proof.
  intros Hl Htran. unfold handle_schedule_message. set (tran := MessageSysFlag.get_transaction_value _).
  assert ((tran =? 0) || (tran =? MessageSysFlag.TRANSACTION_COMMIT_TYPE) = true) as ->.
  { apply orb_true_iff. unfold not_prepared in Htran. fold tran in Htran. cbn zeta in Htran.
    by destruct Htran as [-> | ->]; [left | right]. }
  apply Z.ltb_lt in Hl as Hb. destruct (is_rolled_timer_message m).
  - cbn [obind]. rewrite Hb. by exists m.
  - unfold check_if_timer_message. rewrite Hb. cbn [obind].
    rewrite on_inner_msg_msg, !get_delay_clear, Hb by done. eexists. split; [done |].
    rewrite on_inner_msg_msg, !get_delay_clear by done. split; [done |].
    constructor; [done.. |]. cbn. by rewrite !lookup_delete_ne.
Qed.
Lemma level_capped (max_level : Z) (m : MessageExtBrokerInner) : in_s 32 max_level →
  let m' := if max_level <? get_delay_time_level (inner_msg m)
            then on_inner_msg (set_delay_time_level max_level) m else m in
  get_delay_time_level (inner_msg m') = capped max_level (get_delay_time_level (inner_msg m)) ∧
  same_content m' m.
Proof.
  intros Hmax. unfold capped. cbn zeta. destruct (max_level <? _); [| done].
  rewrite on_inner_msg_msg, get_delay_set by done. split; [done |]. constructor; [done.. |]. cbn.
  by rewrite lookup_insert_ne.
Qed.

(** The message that is delivered for one that was redirected. *)
Lemma redirected_restored (order : gmap string string → list (string * string)) (t : string)
    (q : Message → Z) (m : MessageExtBrokerInner) (e : MessageExt) :
  let m' := redirect order t q m in
  in_s 32 (queue_id (message_ext_inner m)) →
  properties (message e) = properties (inner_msg m') → body (message e) = body (inner_msg m') →
  flag (message e) = flag (inner_msg m') →
  ∃ x, message_time_up order e = Done x ∧ same_content x m ∧
    tags_code x = tags_string2tags_code (properties (inner_msg m) !! MessageConst.PROPERTY_TAGS) ∧
    get_delay_time_level (inner_msg x) = 0.
Proof.
  intros m' Hq Hp Hb Hf. destruct (redirect_spec order t q m) as (Gp & _ & _ & Gb & Gf & _).
  fold m' in Gp, Gb, Gf. rewrite Gp in Hp. unfold message_time_up. rewrite Hp.
  rewrite !(lookup_delete_ne _ _ PROPERTY_REAL_QUEUE_ID) by done.
  rewrite (lookup_insert_ne _ _ PROPERTY_REAL_QUEUE_ID) by done. rewrite lookup_insert_eq.
  rewrite parse_i32_pretty by done. cbn [unwrap obind]. eexists. split; [done |].
  split_and!; [constructor; cbn | cbn | unfold get_delay_time_level; cbn].
  - by rewrite !lookup_delete_ne, !lookup_insert_ne, lookup_insert_eq by done.
  - done.
  - by rewrite Hb, Gb.
  - by rewrite Hf, Gf.
  - by rewrite !lookup_delete_ne, !lookup_insert_ne by done.
  - by rewrite !lookup_insert_ne by done.
  - by rewrite !(lookup_delete_ne _ _ MessageConst.PROPERTY_DELAY_TIME_LEVEL), lookup_delete_eq by done.
Qed.

(** The text of the properties is that of the message as it was read. *)
Lemma time_up_text (order : gmap string string → list (string * string)) (e : MessageExt)
    (x : MessageExtBrokerInner) :
  message_time_up order e = Done x →
  properties_string x = message_properties_to_string (order (properties (message e))).
Proof. unfold message_time_up. by intros (q & _ & [= <-])%obind_done. Qed.

(** C23: A message with a delay level that is of no transaction, or of a committed
    one, is put into the queue of its level, or of the highest level when its
    own is above it.  The message that is delivered for it, once it is read
    back with its properties, body and flag, has its topic, queue, body, flag
    and tags; its property map has no level, while the text of its properties,
    which is what the store writes, is made before the level is removed and is
    that of the waiting message, with the level it waited in. *)
Theorem delayed_message_restored (order : gmap string string → list (string * string))
    (clock : nat → Z) (wheel : bool) (max_delay precision max_level : Z)
    (m : MessageExtBrokerInner) :
  let level := get_delay_time_level (inner_msg m) in
  0 < level → in_s 32 max_level → not_prepared m → in_s 32 (queue_id (message_ext_inner m)) →
  ∃ m', handle_schedule_message order clock wheel max_delay precision max_level m = Done (None, m') ∧
    topic (inner_msg m') = RMQ_SYS_SCHEDULE_TOPIC ∧
    queue_id (message_ext_inner m') = delay_level_to_queue_id (capped max_level level) ∧
    ∀ e, properties (message e) = properties (inner_msg m') → body (message e) = body (inner_msg m') →
      flag (message e) = flag (inner_msg m') →
      ∃ x, message_time_up order e = Done x ∧ same_content x m ∧
        tags_code x = tags_string2tags_code (properties (inner_msg m) !! MessageConst.PROPERTY_TAGS) ∧
        get_delay_time_level (inner_msg x) = 0 ∧
        properties_string x = message_properties_to_string (order (properties (message e))) ∧
        get_delay_time_level (message e) = capped max_level level.
Proof.
  intros level Hl Hmax Htran Hq.
  destruct (handled_by_level order clock wheel max_delay precision max_level m Hl Htran)
    as (m1 & -> & El & E1).
  eexists. split; [done |]. unfold transform_delay_level_message.
  destruct (level_capped max_level m1 Hmax) as [Fl F1]. rewrite El in *. cbn zeta in Fl, F1.
  set (m2 := if max_level <? _ then _ else _) in *. clearbody m2.
  destruct (redirect_spec order RMQ_SYS_SCHEDULE_TOPIC
    (λ x, delay_level_to_queue_id (get_delay_time_level x)) m2) as (Gp & Gt & Gq & _).
  fold level in Fl. split; [exact Gt |]. split.
  { rewrite Gq. f_equal. rewrite <- Fl. unfold get_delay_time_level. cbn.
    by rewrite !lookup_insert_ne. }
  intros e Hp Hb Hf. destruct E1, F1.
  destruct (redirected_restored order RMQ_SYS_SCHEDULE_TOPIC
    (λ x, delay_level_to_queue_id (get_delay_time_level x)) m2 e) as (x & Hx & [] & Hc & Hd);
    [congruence | done | done | done |].
  exists x. split_and!; [done | constructor; congruence | congruence | done | by apply time_up_text |].
  rewrite <- Fl. unfold get_delay_time_level. rewrite Hp, Gp. by rewrite !lookup_insert_ne.
Qed.

Definition delayed_example : MessageExtBrokerInner :=
  mkBrokerInner
    (mkMessageExt (mkMessage "orders" 0 {[MessageConst.PROPERTY_DELAY_TIME_LEVEL := "99"]} None None None)
       "" 3 0 0 0 0 default_host 0 default_host "" 0 0 0 0) "" 0 None false V1.
Lemma delayed_message_restored_witness :
  ∃ m', handle_schedule_message map_to_list (λ _, 5) false 0 1000 18 delayed_example = Done (None, m') ∧
    topic (inner_msg m') = "SCHEDULE_TOPIC_XXXX" ∧ queue_id (message_ext_inner m') = 17 ∧
    ∃ x, message_time_up map_to_list (message_ext_inner m') = Done x ∧ topic (inner_msg x) = "orders" ∧
      queue_id (message_ext_inner x) = 3 ∧
      properties_string x = message_properties_to_string (map_to_list (properties (inner_msg m'))).
Proof.
  destruct (delayed_message_restored map_to_list (λ _, 5) false 0 1000 18 delayed_example)
    as (m' & H & Ht & Hq & Hx).
  - reflexivity.
  - by vm_compute.
  - left. reflexivity.
  - by vm_compute.
  - exists m'. split; [exact H |]. split; [exact Ht |]. split; [rewrite Hq; reflexivity |].
    destruct (Hx (message_ext_inner m') eq_refl eq_refl eq_refl) as (x & E & [] & _ & _ & Es & _).
    exists x. split; [exact E |]. split_and!; assumption.
Defined.

(** ** The messages a task delivers *)
Section Runs.
Variable cfg : ScheduleConfig.
Variable order : gmap string string → list (string * string).
Variable look_message : Z → Z → option MessageExt.
Variable pickup_store_timestamp : Z → Z → Z.
Variable put_message : MessageExtBrokerInner → PutMessageStatus.
Variables (store_version level : Z).
Variable env : nat → bool * Z.
Notation deliver_units := (deliver_units cfg order look_message pickup_store_timestamp put_message
  store_version level env).

(** The time a unit is due, and how long it still waits. *)
Definition unit_time (s : ScheduleMessageService) (u : CqUnit) : Z :=
  if is_ext_addr (cu_tags_code u)
  then compute_deliver_timestamp level (pickup_store_timestamp (cu_pos u) (cu_size u)) s
  else cu_tags_code u.
Definition countdown (s : ScheduleMessageService) (delay now : Z) (u : CqUnit) : Z :=
  let t := unit_time s u in
  as_i64 ((if as_i64 (now + delay) <? t then now else t) - now).
(** The message that is put for a unit. *)
Definition unit_message (u : CqUnit) (m : MessageExtBrokerInner) : Prop :=
  ∃ e, look_message (cu_pos u) (cu_size u) = Some e ∧ message_time_up order e = Done m ∧
       topic (inner_msg m) ≠ RMQ_SYS_TRANS_HALF_TOPIC.

Lemma corrected (now code delay : Z) (s : ScheduleMessageService) :
  delay_level_table (ss_levels s) !! level = Some delay →
  correct_deliver_timestamp level now code s =
    Done (if as_i64 (now + delay) <? code then now else code).
Proof. intros H. unfold correct_deliver_timestamp. by rewrite H. Qed.

Lemma update_offset_levels (now sv l o : Z) (s s' : ScheduleMessageService) :
  update_offset cfg now sv l o s = Done s' →
  ss_levels s' = ss_levels s ∧ ss_offset_table s' = <[l := o]> (ss_offset_table s).
Proof. unfold update_offset. case_match; [done |]. by intros [= <-]. Qed.

Lemma unit_time_levels (s s' : ScheduleMessageService) (u : CqUnit) :
  ss_levels s' = ss_levels s → unit_time s' u = unit_time s u.
Proof. intros H. unfold unit_time, compute_deliver_timestamp. by rewrite H. Qed.

(** What one unit does to the loop. *)
Lemma deliver_unit (i : nat) (u : CqUnit) (us : list CqUnit) (next delay : Z)
    (s : ScheduleMessageService) :
  (env i).1 = true → delay_level_table (ss_levels s) !! level = Some delay →
  deliver_units i (u :: us) next s =
    if 0 <? countdown s delay (env i).2 u then
      let* s := update_offset cfg (env i).2 store_version level (cu_queue_offset u) s in
      Done (cu_queue_offset u, [], s)
    else
      match look_message (cu_pos u) (cu_size u) with
      | None => deliver_units (S i) us (as_i64 (cu_queue_offset u + 1)) s
      | Some e =>
          let* m := message_time_up order e in
          if decide (topic (inner_msg m) = RMQ_SYS_TRANS_HALF_TOPIC)
          then deliver_units (S i) us (as_i64 (cu_queue_offset u + 1)) s
          else
            let* r := if enable_async_deliver cfg
                      then async_deliver cfg put_message level m (msg_id e) (cu_queue_offset u)
                             (cu_pos u) (cu_size u) s
                      else sync_deliver cfg put_message store_version level (env i).2 m (msg_id e)
                             (cu_queue_offset u) (cu_pos u) (cu_size u) s in
            let '(ok, put, s) := r in
            if ok then
              let* rest := deliver_units (S i) us (as_i64 (cu_queue_offset u + 1)) s in
              let '(next, puts, s) := rest in Done (next, put ++ puts, s)
            else Done (as_i64 (cu_queue_offset u + 1), put, s)
      end.
Proof.
  intros He Hd. cbn [Schedule.deliver_units]. rewrite He. cbn [negb].
  rewrite (corrected _ _ delay) by done. cbn [obind]. done.
Qed.

(** The offset a level has reached. *)
Definition level_offset (s : ScheduleMessageService) : Z := default 0 (ss_offset_table s !! level).

(** A message that is due, is found and is put. *)
Lemma deliver_one (i : nat) (u : CqUnit) (us : list CqUnit) (m : MessageExtBrokerInner)
    (next delay : Z) (s : ScheduleMessageService) :
  enable_async_deliver cfg = false → as_i64 (delay_offset_update_version_step cfg) ≠ 0 →
  delay_level_table (ss_levels s) !! level = Some delay → (env i).1 = true →
  put_message m = StatusPutOk → unit_message u m → countdown s delay (env i).2 u ≤ 0 →
  ∃ s1, ss_levels s1 = ss_levels s ∧ level_offset s1 = as_i64 (cu_queue_offset u + 1) ∧
    deliver_units i (u :: us) next s =
      let* rest := deliver_units (S i) us (as_i64 (cu_queue_offset u + 1)) s1 in
      let '(next, puts, s) := rest in Done (next, m :: puts, s).
Proof.
  intros Hsync Hstep Hd He Hok (e & Hl & Hm & Ht) Hc.
  rewrite deliver_unit with (delay := delay) by done.
  rewrite (proj2 (Z.ltb_ge _ _)) by done. rewrite Hl, Hm. cbn [obind]. rewrite decide_False by done.
  rewrite Hsync. unfold sync_deliver, deliver_message. rewrite Hok.
  cbn [put_result handle_result set_status from_option id]. rewrite decide_True by done.
  unfold update_offset at 1. rewrite (proj2 (Z.eqb_neq _ _)) by done. cbn [obind app].
  eexists. split; [| split; [| done]]; [done |]. unfold level_offset. cbn. by rewrite lookup_insert_eq.
Qed.

(** C22: Delivery that waits for the store ([enable_async_deliver] off), while the
    service runs, every message that is due is found and is not a prepared one,
    and the store answers each put with PutOk: the messages that are due are
    put in the order of the queue, up to the first that is not due; the offset
    of the level is then that of the first message that still waits, and the
    next task starts there. *)
Theorem due_messages_delivered (due rest : list CqUnit) (ms : list MessageExtBrokerInner)
    (i : nat) (o delay : Z) (s : ScheduleMessageService) :
  enable_async_deliver cfg = false → as_i64 (delay_offset_update_version_step cfg) ≠ 0 →
  delay_level_table (ss_levels s) !! level = Some delay →
  (∀ j, (env j).1 = true) → (∀ m, m ∈ ms → put_message m = StatusPutOk) →
  Forall2 unit_message due ms →
  (∀ j u, (due ++ rest) !! j = Some u → cu_queue_offset u = o + Z.of_nat j) →
  level_offset s = o → in_s 64 o → in_s 64 (o + Z.of_nat (length due)) →
  (∀ j u, due !! j = Some u → countdown s delay (env (i + j)%nat).2 u ≤ 0) →
  (∀ u, head rest = Some u → 0 < countdown s delay (env (i + length due)%nat).2 u) →
  ∃ s', deliver_units i (due ++ rest) o s = Done (o + Z.of_nat (length due), ms, s') ∧
    level_offset s' = o + Z.of_nat (length due).
Proof.
  intros Hsync Hstep Hd He Hok HF. revert i o s Hd.
  induction HF as [| u m due ms Hu HF IH]; intros i o s Hd Ho Hs Hr Hr' Hdue Hrest.
  - cbn [app length] in *. rewrite Z.add_0_r. destruct rest as [| u us]; [by exists s |].
    specialize (Hrest u eq_refl). rewrite Nat.add_0_r in Hrest.
    rewrite deliver_unit with (delay := delay) by done. rewrite (proj2 (Z.ltb_lt _ _)) by done.
    unfold update_offset. rewrite (proj2 (Z.eqb_neq _ _)) by done. cbn [obind].
    rewrite (Ho 0%nat u eq_refl), Z.add_0_r. eexists. split; [done |]. unfold level_offset. cbn.
    by rewrite lookup_insert_eq.
  - cbn [app length] in *. specialize (Hdue 0%nat u eq_refl) as Hc. rewrite Nat.add_0_r in Hc.
    destruct (deliver_one i u (due ++ rest) m o delay s Hsync Hstep Hd (He i)
      (Hok m (list_elem_of_here _ _)) Hu Hc) as (s1 & E1 & E2 & ->).
    rewrite (Ho 0%nat u eq_refl), Z.add_0_r in *.
    assert (as_i64 (o + 1) = o + 1) as E by (apply as_i64_id; in_range). rewrite E in *.
    assert (∀ now x, countdown s1 delay now x = countdown s delay now x) as Hcd.
    { intros now x. unfold countdown. by rewrite (unit_time_levels s s1). }
    destruct (IH ltac:(intros x Hx; apply Hok; by right) (S i) (o + 1) s1) as (s' & -> & Hs').
    + by rewrite E1.
    + intros j x Hj. specialize (Ho (S j) x Hj). lia.
    + done.
    + in_range.
    + in_range.
    + intros j x Hj. rewrite Hcd. specialize (Hdue (S j) x Hj). by rewrite Nat.add_succ_r in Hdue.
    + intros x Hx. rewrite Hcd. specialize (Hrest x Hx). by rewrite Nat.add_succ_r in Hrest.
    + exists s'. cbn [obind]. split; [do 3 f_equal; lia | lia].
Qed.

(** C31: A delivery that fails leaves the offset of the level alone, but the next
    task starts after the message: it is passed over, and the next message that
    is put moves the offset of the level past it. *)
Theorem failed_delivery_skipped (i : nat) (u : CqUnit) (us : list CqUnit)
    (m : MessageExtBrokerInner) (next delay : Z) (s : ScheduleMessageService) :
  enable_async_deliver cfg = false →
  delay_level_table (ss_levels s) !! level = Some delay → (env i).1 = true →
  put_message m ≠ StatusPutOk → unit_message u m → countdown s delay (env i).2 u ≤ 0 →
  deliver_units i (u :: us) next s = Done (as_i64 (cu_queue_offset u + 1), [m], s).
Proof.
  intros Hsync Hd He Hno (e & Hl & Hm & Ht) Hc. rewrite deliver_unit with (delay := delay) by done.
  rewrite (proj2 (Z.ltb_ge _ _)) by done. rewrite Hl, Hm. cbn [obind]. rewrite decide_False by done.
  rewrite Hsync. unfold sync_deliver, deliver_message.
  cbn [put_result handle_result set_status from_option id]. by rewrite decide_False.
Qed.

Lemma deliveries_keep_levels (now : Z) (m : MessageExtBrokerInner) (id : string) (o p z : Z)
    (s : ScheduleMessageService) (r : bool * list MessageExtBrokerInner * ScheduleMessageService) :
  (if enable_async_deliver cfg then async_deliver cfg put_message level m id o p z s
   else sync_deliver cfg put_message store_version level now m id o p z s) = Done r →
  ss_levels r.2 = ss_levels s ∧ ∀ x, x ∈ r.1.2 → x = m.
Proof.
  assert (∀ x, x ∈ [m] → x = m) as Hone by (intros x Hx; by apply list_elem_of_singleton in Hx).
  assert (∀ x, x ∈ [] → x = m) as Hnone by (by intros x Hx%elem_of_nil).
  destruct (enable_async_deliver cfg).
  - unfold async_deliver. destruct (deliver_pending_table s !! level) as [q |]; [| done]. cbn [unwrap obind].
    destruct (_ <? _)%nat; [by intros [= <-] |]. destruct (match q with [] => _ | _ => _ end);
      by intros [= <-].
  - unfold sync_deliver. case_decide; [| by intros [= <-]].
    intros (s1 & H1 & [= <-])%obind_done. by apply update_offset_levels in H1 as [? _].
Qed.

Lemma puts_are_due (units : list CqUnit) (i : nat) (o delay next : Z)
    (puts : list MessageExtBrokerInner) (s s' : ScheduleMessageService) :
  delay_level_table (ss_levels s) !! level = Some delay →
  deliver_units i units o s = Done (next, puts, s') →
  ∀ m, m ∈ puts → ∃ j u, units !! j = Some u ∧ unit_message u m ∧
    countdown s delay (env (i + j)%nat).2 u ≤ 0.
Proof.
  revert i o s puts. induction units as [| u us IH]; intros i o s puts Hd H m Hin.
  { injection H as _ <- _. by apply elem_of_nil in Hin. }
  assert (∀ o' s1 puts', ss_levels s1 = ss_levels s → deliver_units (S i) us o' s1 = Done (next, puts', s') →
    m ∈ puts' → ∃ j u0, (u :: us) !! j = Some u0 ∧ unit_message u0 m ∧
      countdown s delay (env (i + j)%nat).2 u0 ≤ 0) as Hrec.
  { intros o' s1 puts' Hl H' Hm. 
    destruct (IH (S i) o' s1 puts' ltac:(by rewrite Hl) H' m Hm) as (j & x & Hj & Hx & Hc).
    exists (S j), x. split_and!; [done | done |]. unfold countdown in *.
    rewrite (unit_time_levels s s1) in Hc by done. by rewrite Nat.add_succ_r. }
  destruct (env i).1 eqn:He; [| cbn in H; rewrite He in H; injection H as _ <- _; by apply elem_of_nil in Hin].
  rewrite deliver_unit with (delay := delay) in H by done.
  destruct (0 <? countdown s delay (env i).2 u) eqn:Hc.
  { apply obind_done in H as (s1 & _ & H). injection H as _ <- _. by apply elem_of_nil in Hin. }
  apply Z.ltb_ge in Hc. destruct (look_message (cu_pos u) (cu_size u)) as [e |] eqn:Hl; [| by eapply Hrec].
  apply obind_done in H as (x & Hx & H). case_decide as Ht; [by eapply Hrec |].
  apply obind_done in H as ([[ok put] s1] & Hp & H). apply deliveries_keep_levels in Hp as [Hl1 Hput].
  cbn [fst snd] in *.
  assert (m ∈ put → ∃ j u0, (u :: us) !! j = Some u0 ∧ unit_message u0 m ∧
      countdown s delay (env (i + j)%nat).2 u0 ≤ 0) as Hhere.
  { intros Hm%Hput. subst x. exists 0%nat, u. rewrite Nat.add_0_r. split_and!; [done | by exists e | done]. }
  destruct ok; [| injection H as _ <- _; by apply Hhere].
  apply obind_done in H as ([[next' puts'] s2] & Hr & H). injection H as -> <- ->.
  apply elem_of_app in Hin as [Hin | Hin]; [by apply Hhere | by eapply Hrec].
Qed.

(** C24: In either mode of delivery, whatever the store answers, a message that is
    put belongs to a unit whose time had come when the task reached it, or was
    further away than the delay of the level: such a message, stored before the
    level was shortened or the clock was set back, is put at once. *)
Theorem delivered_in_time (units : list CqUnit) (i : nat) (o delay next : Z)
    (puts : list MessageExtBrokerInner) (s s' : ScheduleMessageService) :
  delay_level_table (ss_levels s) !! level = Some delay → 0 ≤ delay < 2 ^ 62 →
  (∀ j, 0 ≤ (env j).2 < 2 ^ 62) → (∀ u, u ∈ units → 0 ≤ unit_time s u < 2 ^ 62) →
  deliver_units i units o s = Done (next, puts, s') →
  ∀ m, m ∈ puts → ∃ j u, units !! j = Some u ∧ unit_message u m ∧
    (unit_time s u ≤ (env (i + j)%nat).2 ∨ (env (i + j)%nat).2 + delay < unit_time s u).
Proof.
  intros Hd Hr He Hu H m Hm. destruct (puts_are_due _ _ _ _ _ _ _ _ Hd H m Hm) as (j & u & Hj & Hum & Hc).
  exists j, u. split_and!; [done | done |]. specialize (He (i + j)%nat).
  specialize (Hu u ltac:(by eapply list_elem_of_lookup_2)). unfold countdown in Hc.
  rewrite (as_i64_id (_ + delay)) in Hc by in_range.
  destruct (_ <? unit_time s u) eqn:E; [right; by apply Z.ltb_lt in E |].
  left. rewrite as_i64_id in Hc by in_range. lia.
Qed.
End Runs.

(** ** A level with three messages, two of them due *)
Definition stored_example : MessageExt :=
  match handle_schedule_message map_to_list (λ _, 5) false 0 1000 18 delayed_example with
  | Done (_, m) => message_ext_inner m
  | Panic => message_ext_inner delayed_example
  end.
Definition restored_example : MessageExtBrokerInner :=
  match message_time_up map_to_list stored_example with Done m => m | Panic => delayed_example end.
Definition schedule_example_config : ScheduleConfig := mkScheduleConfig "1s 5s" false 0 0 200.
Definition schedule_example : ScheduleMessageService :=
  mkSchedule (mkDelay {[1 := 1000; 2 := 5000]} 2) {[2 := 7]} true (mkDataVersion 0 0 0) 1 ∅.
Definition unit_at (o time : Z) : CqUnit := mkCqUnit o 100 (o * 100) time.

Lemma example_unit_message (o time : Z) :
  unit_message map_to_list (λ _ _, Some stored_example) (unit_at o time) restored_example.
Proof.
  exists stored_example. split; [reflexivity |]. split; [vm_compute; reflexivity |].
  vm_compute. discriminate.
Qed.

Lemma due_messages_delivered_witness :
  ∃ s', deliver_units schedule_example_config map_to_list (λ _ _, Some stored_example) (λ _ _, 0)
      (λ _, StatusPutOk) 0 2 (λ _, (true, 9000)) 0
      ([unit_at 7 8000; unit_at 8 8999] ++ [unit_at 9 9500]) 7 schedule_example =
    Done (9, [restored_example; restored_example], s') ∧ level_offset 2 s' = 9.
Proof.
  apply (due_messages_delivered schedule_example_config map_to_list (λ _ _, Some stored_example)
    (λ _ _, 0) (λ _, StatusPutOk) 0 2 (λ _, (true, 9000)) [unit_at 7 8000; unit_at 8 8999]
    [unit_at 9 9500] [restored_example; restored_example] 0 7 5000 schedule_example).
  - reflexivity.
  - discriminate.
  - reflexivity.
  - reflexivity.
  - reflexivity.
  - apply Forall2_cons_2; [apply example_unit_message |].
    apply Forall2_cons_2; [apply example_unit_message | apply Forall2_nil_2].
  - intros [| [| [| j]]] u Hu; [| | | discriminate Hu]; injection Hu as <-; reflexivity.
  - reflexivity.
  - by vm_compute.
  - by vm_compute.
  - intros [| [| j]] u Hu; [| | discriminate Hu]; injection Hu as <-; vm_compute; discriminate.
  - intros u Hu. injection Hu as <-. reflexivity.
Defined.
Lemma failed_delivery_skipped_witness :
  deliver_units schedule_example_config map_to_list (λ _ _, Some stored_example) (λ _ _, 0)
    (λ _, OsPageCacheBusy) 0 2 (λ _, (true, 9000)) 0 [unit_at 7 8000; unit_at 8 8999] 7
    schedule_example = Done (8, [restored_example], schedule_example).
Proof.
  apply (failed_delivery_skipped schedule_example_config map_to_list (λ _ _, Some stored_example)
    (λ _ _, 0) (λ _, OsPageCacheBusy) 0 2 (λ _, (true, 9000)) 0 (unit_at 7 8000) [unit_at 8 8999]
    restored_example 7 5000 schedule_example).
  - reflexivity.
  - reflexivity.
  - reflexivity.
  - discriminate.
  - apply example_unit_message.
  - vm_compute. discriminate.
Defined.
Lemma delivered_in_time_witness :
  ∃ j u, [unit_at 7 8000; unit_at 8 9999] !! j = Some u ∧
    unit_message map_to_list (λ _ _, Some stored_example) u restored_example ∧
    (unit_time (λ _ _, 0) 2 schedule_example u ≤ 9000 ∨
     9000 + 5000 < unit_time (λ _ _, 0) 2 schedule_example u).
Proof.
  assert (∃ s', deliver_units schedule_example_config map_to_list (λ _ _, Some stored_example) (λ _ _, 0)
    (λ _, OsPageCacheBusy) 0 2 (λ _, (true, 9000)) 0 [unit_at 7 8000; unit_at 8 9999] 7
    schedule_example = Done (8, [restored_example], s')) as [s' H]
    by (eexists; vm_compute; reflexivity).
  apply (delivered_in_time schedule_example_config map_to_list (λ _ _, Some stored_example) (λ _ _, 0)
    (λ _, OsPageCacheBusy) 0 2 (λ _, (true, 9000)) _ 0 7 5000 _ _ schedule_example s') with (m := restored_example) in H.
  - exact H.
  - reflexivity.
  - split; [discriminate | reflexivity].
  - intros j. split; [discriminate | reflexivity].
  - intros u Hu. rewrite !elem_of_cons, elem_of_nil in Hu. destruct Hu as [-> | [-> | []]];
      (split; [vm_compute; discriminate | reflexivity]).
  - apply list_elem_of_here.
Defined.
