(* ===== verification/Transactions.v ===== *)
(** * Transactions: half messages and the end of a transaction
    ([transaction/] and [end_transaction_processor.rs] of the broker)

    A message of a transaction is stored first as a half message, in a topic of
    its own where no consumer sees it.  The producer ends the transaction with a
    request: a commit puts the message to its topic, a rollback drops it; either
    notes the half message as ended, in a list per queue from which messages of
    an operation topic are made.

    The store is what the code uses of it: the message at an offset of the log,
    and the answer to a put.  A call that waits for a lock which is never
    released does not answer. *)

From stdpp Require Import base gmap list strings pretty.
From Stdlib Require Import ZArith Lia.
From S2P Require Import Prelude Bytes FileName Numerals Hasher Message Properties MessageDecoder MessageExtEncoder CheckMessage RouteInfo Offsets Rebalance MappedFile MessageStore PopInfo TopicConfigs ClientManagers ProducerManager Subscriptions PutHooks Schedule.
Open Scope Z_scope.
Open Scope rmq_scope.

(** ** Names *)
Definition REMOVE_TAG : string := "d".
Definition OFFSET_SEPARATOR : string := ",".
Definition TRANSACTION_ID : string := "__transactionId__".
Definition build_op_topic : string := RMQ_SYS_TRANS_OP_HALF_TOPIC.
Definition build_half_topic : string := RMQ_SYS_TRANS_HALF_TOPIC.
Definition build_consumer_group : string := "CID_RMQ_SYS_TRANS".
Definition PROPERTY_PRODUCER_GROUP : string := "PGROUP".
Definition PROPERTY_CHECK_IMMUNITY_TIME_IN_SECONDS : string := "CHECK_IMMUNITY_TIME_IN_SECONDS".
Definition PROPERTY_TRANSACTION_PREPARED_QUEUE_OFFSET : string := "TRAN_PREPARED_QUEUE_OFFSET".

Definition TRANSACTION_NOT_TYPE : Z := 0.

Definition user_property (k : string) (e : MessageExt) : option string := properties (message e) !! k.
Definition set_wait_store_msg_ok (b : bool) (m : Message) : Message :=
  put_property PROPERTY_WAIT_STORE_MSG_OK (bool_str b) m.
Definition with_sys_flags (f : Z) (e : MessageExt) : MessageExt :=
  mkMessageExt (message e) (broker_name e) (queue_id e) (store_size e) (queue_offset e) f
    (born_timestamp e) (born_host e) (store_timestamp e) (store_host e) (msg_id e)
    (commit_log_offset e) (body_crc e) (reconsume_times e) (prepared_transaction_offset e).
(** [MessageExtBrokerInner::default] *)
Definition default_inner : MessageExtBrokerInner := mkBrokerInner default_message_ext "" 0 None false V1.
(** [tags_string_to_tags_code] and [tags_string2tags_code] of the message type,
    which does not look at the filter type. *)
Definition tags_string_to_tags_code (tags : string) : Z := tags_string2tags_code (Some tags).

Section Order.
(** The iteration order of the properties. *)
Variable order : gmap string string → list (string * string).
Definition text_of (p : gmap string string) : string := message_properties_to_string (order p).

(** ** Half messages *)
Definition parse_half_message_inner (m : MessageExtBrokerInner) : MessageExtBrokerInner :=
  let m := match properties (inner_msg m) !! MessageConst.PROPERTY_UNIQ_CLIENT_MESSAGE_ID_KEYIDX with
           | Some uniq_id => on_inner_msg (put_property TRANSACTION_ID uniq_id) m
           | None => m
           end in
  let m := on_inner_msg (put_property PROPERTY_REAL_TOPIC (topic (inner_msg m))) m in
  let m := on_inner_msg (put_property PROPERTY_REAL_QUEUE_ID
                           (pretty (queue_id (message_ext_inner m)))) m in
  let e := message_ext_inner m in
  let m := set_inner (with_sys_flags
             (MessageSysFlag.reset_transaction_value (sys_flag e) TRANSACTION_NOT_TYPE) e) m in
  let m := on_inner_msg (set_msg_topic build_half_topic) m in
  let m := set_inner (with_queue_id 0 (message_ext_inner m)) m in
  with_properties_string (text_of (properties (inner_msg m))) m.

(** The properties are set again after the wait flag, which is lost. *)
Definition renew_half_message_inner (e : MessageExt) : MessageExtBrokerInner :=
  let inner := mkBrokerInner e (text_of (properties (message e)))
                 (tags_string_to_tags_code (default "" (get_tags e))) None false V1 in
  let inner := on_inner_msg (set_wait_store_msg_ok false) inner in
  on_inner_msg (set_properties (properties (message e))) inner.
Definition renew_immunity_half_message_inner (e : MessageExt) : MessageExtBrokerInner :=
  let m := renew_half_message_inner e in
  let m := on_inner_msg (put_property PROPERTY_TRANSACTION_PREPARED_QUEUE_OFFSET
             (match user_property PROPERTY_TRANSACTION_PREPARED_QUEUE_OFFSET e with
              | Some o => o
              | None => pretty (queue_offset e)
              end)) m in
  with_properties_string (text_of (properties (inner_msg m))) m.

(** The message a remote broker gets for a half message.  The queue is looked
    up under another name than [parse_half_message_inner] stores it, and the
    tags before the properties are there. *)
Definition build_transactional_message_from_half_message (e : MessageExt) : MessageExtBrokerInner :=
  let m := message e in
  let inner := on_inner_msg (set_wait_store_msg_ok false) default_inner in
  let q := match user_property "REAL_QUEUE_ID" e with
           | Some t => default 0 (parse_i32 t)
           | None => 0
           end in
  let code := tags_string_to_tags_code
                (default "" (properties (inner_msg inner) !! MessageConst.PROPERTY_TAGS)) in
  let p := delete PROPERTY_REAL_QUEUE_ID (delete PROPERTY_TRANSACTION_PREPARED_QUEUE_OFFSET
             (<[PROPERTY_TRANSACTION_PREPARED := "true"]> (properties m))) in
  mkBrokerInner
    (mkMessageExt
       (mkMessage (default "" (user_property PROPERTY_REAL_TOPIC e)) (flag m) p (body m) None
          (user_property MessageConst.PROPERTY_UNIQ_CLIENT_MESSAGE_ID_KEYIDX e))
       "" q 0 0 (Z.lor (sys_flag e) MessageSysFlag.TRANSACTION_PREPARED_TYPE) (born_timestamp e)
       (born_host e) 0 default_host (msg_id e) 0 0 0 0)
    (text_of p) code None false V1.

Definition get_immunity_time (check_immunity_time_str : string) (transaction_timeout : Z) : Z :=
  let t := match parse_u64 check_immunity_time_str with
           | Some parsed_time => as_u64 (parsed_time * 1000)
           | None => 0
           end in
  if t <? transaction_timeout then transaction_timeout else t.

(** ** The message of a committed transaction *)
Definition end_message_transaction (e : MessageExt) : MessageExtBrokerInner :=
  let m := message e in
  let q := default 0 (parse_i32 (default "" (user_property PROPERTY_REAL_QUEUE_ID e))) in
  let p := delete PROPERTY_REAL_QUEUE_ID (delete PROPERTY_REAL_TOPIC (properties m)) in
  mkBrokerInner
    (mkMessageExt
       (mkMessage (default "" (user_property PROPERTY_REAL_TOPIC e)) (flag m) p (body m) None
          (user_property MessageConst.PROPERTY_UNIQ_CLIENT_MESSAGE_ID_KEYIDX e))
       "" q 0 0 (sys_flag e) (born_timestamp e) (born_host e) 0 (store_host e) "" 0 0
       (reconsume_times e) 0)
    (text_of (properties m))
    (match get_tags e with Some tags => tags_string_to_tags_code tags | None => 0 end) None false V1.

(** ** Messages of the operation topic *)

(** [Message::with_tags] *)
Definition message_with_tags (topic tags : string) (body : buffer) : Message :=
  let m := mkMessage topic 0 ∅ (Some body) None None in
  let m := if decide (tags = "") then m else put_property MessageConst.PROPERTY_TAGS tags m in
  set_wait_store_msg_ok true m.

(** [uniq_id] is the id that is made for a message without one. *)
Definition make_op_message_inner (now : Z) (host : SocketAddr) (uniq_id : string) (m : Message)
    (q : MessageQueue) : outcome MessageExtBrokerInner :=
  let* b := unwrap (body m) in
  let p := properties m in
  let code := tags_string_to_tags_code (default "" (p !! MessageConst.PROPERTY_TAGS)) in
  let text := text_of p in
  let p := <[PROPERTY_WAIT_STORE_MSG_OK := "false"]> p in
  let p := match p !! MessageConst.PROPERTY_UNIQ_CLIENT_MESSAGE_ID_KEYIDX with
           | Some _ => p
           | None => <[MessageConst.PROPERTY_UNIQ_CLIENT_MESSAGE_ID_KEYIDX := uniq_id]> p
           end in
  Done (mkBrokerInner
    (mkMessageExt (mkMessage (topic m) 0 p (Some b) None None) "" (mq_queue_id q) 0 0 0 (as_i64 now)
       host 0 host "" 0 0 0 0)
    text code None false V1).

Definition get_op_queue_by_half (queue_id : Z) (broker : string) : MessageQueue :=
  mkMQ build_op_topic broker queue_id.
End Order.

(** ** The service *)
Record MessageQueueOpContext := mkOpContext {
  total_size : Z;
  last_write_timestamp : Z;
  context_queue : list string;
  oc_capacity : Z;
}.
Definition new_op_context (timestamp queue_length : Z) : MessageQueueOpContext :=
  mkOpContext 0 timestamp [] queue_length.
Definition total_size_add (delta : Z) (c : MessageQueueOpContext) : MessageQueueOpContext :=
  mkOpContext (as_i32 (total_size c + delta)) (last_write_timestamp c) (context_queue c)
    (oc_capacity c).
Definition set_last_write_timestamp (t : Z) (c : MessageQueueOpContext) : MessageQueueOpContext :=
  mkOpContext (total_size c) t (context_queue c) (oc_capacity c).
Definition set_queue (q : list string) (c : MessageQueueOpContext) : MessageQueueOpContext :=
  mkOpContext (total_size c) (last_write_timestamp c) q (oc_capacity c).
(** [offer] of the blocking queue.  The queues are used under the lock of their
    table only, so that nothing makes room while an offer waits. *)
Definition offer (d : string) (c : MessageQueueOpContext) : bool * MessageQueueOpContext :=
  if Z.of_nat (length (context_queue c)) <? oc_capacity c
  then (true, set_queue (context_queue c ++ [d]) c) else (false, c).

Record TransService := mkTrans {
  delete_context : gmap Z MessageQueueOpContext;
  delete_locked : bool;
  op_queue_map : gmap Z MessageQueue;
}.
Definition new_trans_service : TransService := mkTrans ∅ false ∅.
Definition set_context (q : Z) (c : MessageQueueOpContext) (s : TransService) : TransService :=
  mkTrans (<[q := c]> (delete_context s)) (delete_locked s) (op_queue_map s).
Definition set_delete_locked (b : bool) (s : TransService) : TransService :=
  mkTrans (delete_context s) b (op_queue_map s).
Definition set_op_queue (q : Z) (mq : MessageQueue) (s : TransService) : TransService :=
  mkTrans (delete_context s) (delete_locked s) (<[q := mq]> (op_queue_map s)).

(** Takes entries until the text is long enough or none is left. *)
Fixpoint drain_ops (max_size : Z) (sb : string) (q : list string) : string * list string :=
  match q with
  | [] => (sb, [])
  | d :: q' => if max_size <=? Z.of_nat (str_len sb) then (sb, q) else drain_ops max_size (sb +:+ d) q'
  end.

Record OperationResult := mkOperation {
  prepare_message : option MessageExt;
  response_remark : option string;
  response_code : Z;
}.
(** [ResponseCode] *)
Module ResponseCode.
Definition Success : Z := 0.
Definition SystemError : Z := 1.
Definition SlaveNotAvailable : Z := 11.
Definition MessageIllegal : Z := 13.
Definition ServiceNotAvailable : Z := 14.
Definition IllegalOperation : Z := 604.
End ResponseCode.
Definition default_operation : OperationResult := mkOperation None None ResponseCode.Success.

Record EndTransactionRequestHeader := mkEndHeader {
  eh_producer_group : string;
  tran_state_table_offset : Z;
  eh_commit_log_offset : Z;
  commit_or_rollback : Z;
  from_transaction_check : bool;
}.
(** A response: its code and remark, and whether it is marked as a response. *)
Record Response := mkResponse { rs_code : Z; rs_remark : option string; rs_marked : bool }.
Definition create_response_command : Response := mkResponse ResponseCode.Success None true.
Definition create_response_command_with_code (c : Z) : Response := mkResponse c None true.
Definition error_response (c : Z) (remark : string) : Response := mkResponse c (Some remark) true.

(** The parts of the configuration that are read. *)
Record TransConfig := mkTransConfig {
  tr_slave : bool;
  transaction_timeout : Z;
  transaction_op_msg_max_size : Z;
  tr_broker_name : string;
  tr_store_host : SocketAddr;
  tr_max_message_size : Z;
  timer_congest_num_each_slot : Z;
  tr_timer_max_delay_sec : Z;
  tr_timer_wheel_enable : bool;
}.

Section Service.
Variable order : gmap string string → list (string * string).
Variable cfg : TransConfig.
Context {W : Type}.
Variable look_message_by_offset : W → Z → option MessageExt.
Variable put_message : MessageExtBrokerInner → W → PutMessageStatus * W.
(** The readings of the clock, and the ids that are made. *)
Variable clock : nat → Z.
Variable uniq_id : string.

Definition put_half_message (m : MessageExtBrokerInner) (w : W) : PutMessageStatus * W :=
  put_message (parse_half_message_inner order m) w.

Definition get_half_message_by_offset (w : W) (offset : Z) : OperationResult :=
  match look_message_by_offset w offset with
  | Some e => mkOperation (Some e) None ResponseCode.Success
  | None => mkOperation None (Some "Find prepared transaction message failed") ResponseCode.SystemError
  end.
Definition commit_message (w : W) (h : EndTransactionRequestHeader) : OperationResult :=
  get_half_message_by_offset w (as_i64 (eh_commit_log_offset h)).
Definition rollback_message (w : W) (h : EndTransactionRequestHeader) : OperationResult :=
  get_half_message_by_offset w (as_i64 (eh_commit_log_offset h)).

(** [None] when the call does not answer. *)
Definition get_op_message (queue_id : Z) (more_data : option string) (s : TransService)
  : option (option Message) * TransService :=
  if delete_locked s then (None, s)
  else
    match delete_context s !! queue_id with
    | None => (Some None, s)
    | Some c =>
        let '(sb, rest) := drain_ops (as_usize (transaction_op_msg_max_size cfg))
                             (default "" more_data) (context_queue c) in
        let s := set_context queue_id (set_queue rest c) s in
        (Some (if decide (sb = "") then None
               else Some (message_with_tags build_op_topic REMOVE_TAG (str_bytes sb))), s)
    end.

Definition write_op (queue_id : Z) (m : Message) (s : TransService) (w : W)
  : outcome (bool * TransService * W) :=
  let q := default (get_op_queue_by_half queue_id (tr_broker_name cfg)) (op_queue_map s !! queue_id) in
  let s := set_op_queue queue_id q s in
  let* inner := make_op_message_inner order (clock 2%nat) (tr_store_host cfg) uniq_id m q in
  let '(st, w) := put_message inner w in
  Done (bool_decide (st = StatusPutOk), s, w).

(** The lock of the table is held to the end.  The batch service that is woken
    has no task that waits. *)
Definition delete_prepare_message (e : MessageExt) (s : TransService) (w : W)
  : outcome (option bool * TransService * W) :=
  if delete_locked s then Done (None, s, w)
  else
    let s := set_delete_locked true s in
    let q := queue_id e in
    let c := default (new_op_context (clock 1%nat) 20000) (delete_context s !! q) in
    let data := pretty (queue_offset e) +:+ OFFSET_SEPARATOR in
    let '(res, c) := offer data c in
    if res then
      let c := total_size_add (as_i32 (Z.of_nat (str_len data))) c in
      Done (Some true, set_delete_locked false (set_context q c s), w)
    else
      match get_op_message q (Some data) (set_context q c s) with
      | (None, s) => Done (None, s, w)
      | (Some msg, s) =>
          let* m := unwrap msg in
          let* (ok, s, w) := write_op q m s w in
          Done (Some ok, set_delete_locked false s, w)
      end.

(** ** The end of a transaction *)
Definition reject_commit_or_rollback (from_check : bool) (e : MessageExt) : bool :=
  if from_check then false
  else
    match user_property PROPERTY_CHECK_IMMUNITY_TIME_IN_SECONDS e with
    | None => false
    | Some t =>
        if decide (t = "") then false
        else get_immunity_time t (transaction_timeout cfg) <?
             as_u64 (clock 0%nat - as_u64 (born_timestamp e))
    end.

Definition check_prepare_message (e : option MessageExt) (h : EndTransactionRequestHeader) : Response :=
  match e with
  | None => error_response ResponseCode.SystemError "Find prepared transaction message failed"
  | Some e =>
      match user_property PROPERTY_PRODUCER_GROUP e with
      | None => error_response ResponseCode.SystemError "he producer group wrong"
      | Some pgroup =>
          if decide (pgroup ≠ eh_producer_group h)
          then error_response ResponseCode.SystemError "The producer group wrong"
          else if negb (queue_offset e =? as_i64 (tran_state_table_offset h))
          then error_response ResponseCode.SystemError "The transaction state table offset wrong"
          else if negb (commit_log_offset e =? as_i64 (eh_commit_log_offset h))
          then error_response ResponseCode.SystemError "The commit log offset wrong"
          else create_response_command
      end
  end.

Definition final_message_response (st : PutMessageStatus) : Response :=
  match st with
  | StatusPutOk | FlushDiskTimeout | FlushSlaveTimeout | SlaveNotAvailable => create_response_command
  | ServiceNotAvailable =>
      error_response ResponseCode.ServiceNotAvailable "Service not available now. "
  | CreateMappedFileFailed => error_response ResponseCode.SystemError "Create mapped file failed."
  | MessageIllegal | PropertiesSizeExceeded =>
      error_response ResponseCode.MessageIllegal
        ("The message is illegal, maybe msg body or properties length not matched. msg body length limit "
         +:+ pretty (tr_max_message_size cfg) +:+ "B, msg properties length limit 32KB.")
  | OsPageCacheBusy =>
      error_response ResponseCode.SystemError "OS page cache busy, please try another machine"
  | StatusUnknownError => error_response ResponseCode.SystemError "Unknown error"
  | InSyncReplicasNotEnough => error_response ResponseCode.SystemError "In sync replicas not enough"
  | PutToRemoteBrokerFail => error_response ResponseCode.SystemError "Put to remote broker failed"
  | LmqConsumeQueueNumExceeded => error_response ResponseCode.SystemError "UNKNOWN_ERROR DEFAULT"
  | WheelTimerFlowControl =>
      error_response ResponseCode.SystemError
        ("timer message is under flow control, max num limit is "
         +:+ pretty (as_u64 (timer_congest_num_each_slot cfg * 2))
         +:+ " or the current value is greater than " +:+ pretty (timer_congest_num_each_slot cfg)
         +:+ " and less than " +:+ pretty (as_u64 (timer_congest_num_each_slot cfg * 2))
         +:+ ", trigger random flow control")
  | WheelTimerMsgIllegal =>
      error_response ResponseCode.MessageIllegal
        ("timer message illegal, the delay time should not be bigger than the max delay "
         +:+ pretty (as_u64 (tr_timer_max_delay_sec cfg * 1000))
         +:+ "ms; or if set del msg, the delay time should be bigger than the current time")
  | WheelTimerNotEnable =>
      error_response ResponseCode.SystemError
        ("accurate timer message is not enabled, timerWheelEnable is "
         +:+ bool_str (tr_timer_wheel_enable cfg))
  end.
Definition send_final_message (m : MessageExtBrokerInner) (w : W) : Response * W :=
  let '(st, w) := put_message m w in (final_message_response st, w).

(** The message that a commit puts. *)
Definition final_message (h : EndTransactionRequestHeader) (e : MessageExt) : MessageExtBrokerInner :=
  let m := end_message_transaction order e in
  let x := message_ext_inner m in
  let m := set_inner
    (mkMessageExt (message x) (broker_name x) (queue_id x) (store_size x)
       (as_i64 (tran_state_table_offset h))
       (MessageSysFlag.reset_transaction_value (sys_flag x) (commit_or_rollback h))
       (born_timestamp x) (born_host x) (store_timestamp e) (store_host x) (msg_id x)
       (commit_log_offset x) (body_crc x) (reconsume_times x) (as_i64 (eh_commit_log_offset h))) m in
  on_inner_msg (clear_property PROPERTY_TRANSACTION_PREPARED) m.

(** What becomes of a request: an answer, no answer at all, or a wait that does
    not end. *)
Inductive reply := Reply (r : Response) | NoReply | Blocked.

(** The reply to a request after the half message has been deleted. *)
Definition after_delete (r : Response) (e : MessageExt) (s : TransService) (w : W)
  : outcome (reply * TransService * W) :=
  let* (d, s, w) := delete_prepare_message e s w in
  Done (match d with None => Blocked | Some _ => Reply r end, s, w).

Definition process_request (h : EndTransactionRequestHeader) (s : TransService) (w : W)
  : outcome (reply * TransService * W) :=
  let unmarked (o : OperationResult) :=
    Reply (mkResponse (response_code o) (response_remark o) false) in
  if tr_slave cfg
  then Done (Reply (create_response_command_with_code ResponseCode.SlaveNotAvailable), s, w)
  else if negb ((commit_or_rollback h =? MessageSysFlag.TRANSACTION_COMMIT_TYPE) ||
                (commit_or_rollback h =? MessageSysFlag.TRANSACTION_ROLLBACK_TYPE))
  then Done (NoReply, s, w)
  else if commit_or_rollback h =? MessageSysFlag.TRANSACTION_COMMIT_TYPE then
    let result := commit_message w h in
    if response_code result =? ResponseCode.Success then
      let* e := unwrap (prepare_message result) in
      if reject_commit_or_rollback (from_transaction_check h) e
      then Done (Reply (create_response_command_with_code ResponseCode.IllegalOperation), s, w)
      else
        let res := check_prepare_message (Some e) h in
        if negb (rs_code res =? ResponseCode.Success) then
          let '(send_result, w) := send_final_message (final_message h e) w in
          if rs_code send_result =? ResponseCode.Success
          then after_delete send_result e s w
          else Done (Reply send_result, s, w)
        else Done (Reply res, s, w)
    else Done (unmarked default_operation, s, w)
  else
    let result := rollback_message w h in
    if response_code result =? ResponseCode.Success then
      let* e := unwrap (prepare_message result) in
      if reject_commit_or_rollback (from_transaction_check h) e
      then Done (Reply (create_response_command_with_code ResponseCode.IllegalOperation), s, w)
      else
        let res := check_prepare_message (Some e) h in
        if rs_code res =? ResponseCode.Success
        then after_delete res e s w
        else Done (Reply res, s, w)
    else Done (unmarked result, s, w).
End Service.

(** ** A half message and the message made of it *)

(** The properties of a half message. *)
Definition half_properties (m : MessageExtBrokerInner) : gmap string string :=
  let p := properties (inner_msg m) in
  <[PROPERTY_REAL_QUEUE_ID := pretty (queue_id (message_ext_inner m))]>
    (<[PROPERTY_REAL_TOPIC := topic (inner_msg m)]>
       match p !! MessageConst.PROPERTY_UNIQ_CLIENT_MESSAGE_ID_KEYIDX with
       | Some id => <[TRANSACTION_ID := id]> p
       | None => p
       end).
Lemma parse_half_spec (order : gmap string string → list (string * string))
    (m : MessageExtBrokerInner) :
  let h := parse_half_message_inner order m in
  properties (inner_msg h) = half_properties m ∧ topic (inner_msg h) = build_half_topic ∧
  queue_id (message_ext_inner h) = 0 ∧ body (inner_msg h) = body (inner_msg m) ∧
  flag (inner_msg h) = flag (inner_msg m) ∧
  sys_flag (message_ext_inner h) =
    MessageSysFlag.reset_transaction_value (sys_flag (message_ext_inner m)) TRANSACTION_NOT_TYPE ∧
  properties_string h = text_of order (half_properties m).
Proof. unfold parse_half_message_inner, half_properties. by destruct (properties (inner_msg m) !! _). Qed.

Lemma half_properties_other (m : MessageExtBrokerInner) (k : string) :
  k ≠ PROPERTY_REAL_QUEUE_ID → k ≠ PROPERTY_REAL_TOPIC → k ≠ TRANSACTION_ID →
  half_properties m !! k = properties (inner_msg m) !! k.
Proof.
  intros. unfold half_properties. cbn zeta. rewrite !lookup_insert_ne by done.
  destruct (_ !! MessageConst.PROPERTY_UNIQ_CLIENT_MESSAGE_ID_KEYIDX); [| done].
  by rewrite lookup_insert_ne.
Qed.
Lemma half_properties_real (m : MessageExtBrokerInner) :
  half_properties m !! PROPERTY_REAL_TOPIC = Some (topic (inner_msg m)) ∧
  half_properties m !! PROPERTY_REAL_QUEUE_ID = Some (pretty (queue_id (message_ext_inner m))).
Proof.
  unfold half_properties. split; [| by rewrite lookup_insert_eq].
  by rewrite lookup_insert_ne, lookup_insert_eq.
Qed.

(** A message of a transaction is put to the half topic, with no transaction
    type in its flags; the message that is made of it to be committed, when it
    is read back with its properties, body and flag, has its topic, queue, body,
    flag and tags and the hash of the tags.  Its property map has the properties
    of the message, less those that keep the real topic and queue, and at most
    the transaction id besides; the text of its properties, which is what the
    store writes, is still that of the half message. *)
Theorem half_message_restored (order : gmap string string → list (string * string))
    (m : MessageExtBrokerInner) :
  in_s 32 (queue_id (message_ext_inner m)) →
  let half := parse_half_message_inner order m in
  topic (inner_msg half) = build_half_topic ∧
  MessageSysFlag.get_transaction_value (sys_flag (message_ext_inner half)) = TRANSACTION_NOT_TYPE ∧
  ∀ e, properties (message e) = properties (inner_msg half) → body (message e) = body (inner_msg half) →
    flag (message e) = flag (inner_msg half) →
    let x := end_message_transaction order e in
    same_content x m ∧
    tags_code x = tags_string2tags_code (properties (inner_msg m) !! MessageConst.PROPERTY_TAGS) ∧
    (∀ k, k ≠ TRANSACTION_ID → properties (inner_msg x) !! k =
      (if decide (k = PROPERTY_REAL_TOPIC ∨ k = PROPERTY_REAL_QUEUE_ID) then None
       else properties (inner_msg m) !! k)) ∧
    properties_string x = properties_string half.
Proof.
  intros Hq half. destruct (parse_half_spec order m) as (Gp & Gt & _ & Gb & Gf & Gs & Gx).
  fold half in Gp, Gt, Gb, Gf, Gs, Gx. split; [exact Gt |]. split.
  { rewrite Gs. by apply reset_transaction_value_get. }
  intros e Hp Hb Hf. rewrite Gp in Hp. destruct (half_properties_real m) as [Ht Hid].
  cbn zeta. unfold end_message_transaction, get_tags, user_property. rewrite Hp.
  split_and!; [constructor | | |];
    unfold inner_msg; cbn [message_ext_inner message topic queue_id body flag properties tags_code];
    fold (inner_msg m).
  - by rewrite Ht.
  - rewrite Hid. cbn [default from_option]. unfold id. by rewrite parse_i32_pretty.
  - by rewrite Hb, Gb.
  - by rewrite Hf, Gf.
  - by rewrite !lookup_delete_ne, half_properties_other.
  - rewrite half_properties_other by done. by destruct (_ !! MessageConst.PROPERTY_TAGS).
  - intros k Hk. destruct (decide _) as [[-> | ->] | Hne].
    + by rewrite lookup_delete_ne, lookup_delete_eq.
    + by rewrite lookup_delete_eq.
    + rewrite !lookup_delete_ne, half_properties_other by naive_solver. done.
  - by rewrite Gx.
Qed.

Definition trans_example : MessageExtBrokerInner :=
  mkBrokerInner
    (mkMessageExt (mkMessage "orders" 0 {[MessageConst.PROPERTY_TAGS := "a"; PROPERTY_PRODUCER_GROUP := "g"]}
                     (Some [Byte.x61]) None None)
       "" 3 0 0 MessageSysFlag.TRANSACTION_PREPARED_TYPE 0 default_host 0 default_host "" 0 0 0 0)
    "" 0 None false V1.
Definition half_example : MessageExt :=
  message_ext_inner (parse_half_message_inner map_to_list trans_example).
Lemma half_message_restored_witness :
  let x := end_message_transaction map_to_list half_example in
  topic (message half_example) = "RMQ_SYS_TRANS_HALF_TOPIC" ∧ topic (inner_msg x) = "orders" ∧
  queue_id (message_ext_inner x) = 3.
Proof.
  destruct (half_message_restored map_to_list trans_example) as (Ht & _ & Hx); [by vm_compute |].
  destruct (Hx half_example eq_refl eq_refl eq_refl) as ([] & _).
  split; [exact Ht |]. split; assumption.
Defined.

(** The message made for another broker loses the queue, and the hash of its
    tags. *)
Lemma remote_message_misrouted (order : gmap string string → list (string * string))
    (m : MessageExtBrokerInner) (e : MessageExt) :
  properties (message e) = half_properties m → properties (inner_msg m) !! "REAL_QUEUE_ID" = None →
  let x := build_transactional_message_from_half_message order e in
  queue_id (message_ext_inner x) = 0 ∧ tags_code x = 0.
Proof.
  intros Hp Hn. cbn zeta. unfold build_transactional_message_from_half_message, user_property.
  rewrite Hp, (half_properties_other m "REAL_QUEUE_ID"), Hn by done. split; [done |]. by vm_compute.
Qed.

(** ** What a request to end a transaction does *)

(** The request is of the producer group and the offsets of the half message. *)
Definition belongs (h : EndTransactionRequestHeader) (e : MessageExt) : Prop :=
  user_property PROPERTY_PRODUCER_GROUP e = Some (eh_producer_group h) ∧
  queue_offset e = as_i64 (tran_state_table_offset h) ∧
  commit_log_offset e = as_i64 (eh_commit_log_offset h).
#[export] Instance belongs_dec h e : Decision (belongs h e).
Proof. unfold belongs. apply _. Defined.

Lemma check_prepare_spec (h : EndTransactionRequestHeader) (e : MessageExt) :
  let res := check_prepare_message (Some e) h in
  (belongs h e → res = create_response_command) ∧
  (¬ belongs h e → rs_code res = ResponseCode.SystemError).
Proof.
  unfold belongs, check_prepare_message. cbn zeta.
  destruct (user_property _ e) as [g |]; [| naive_solver].
  destruct (decide (g ≠ _)) as [Hg | Hg]; [naive_solver |]. apply dec_stable in Hg as ->.
  destruct (Z.eqb_spec (queue_offset e) (as_i64 (tran_state_table_offset h))); cbn [negb];
    [| naive_solver].
  destruct (Z.eqb_spec (commit_log_offset e) (as_i64 (eh_commit_log_offset h))); cbn [negb];
    naive_solver.
Qed.

(** The half messages noted as ended in a queue, and room for one more. *)
Definition ended (q : Z) (s : TransService) : list string :=
  from_option context_queue [] (delete_context s !! q).
Definition capacity (q : Z) (s : TransService) : Z :=
  from_option oc_capacity 20000 (delete_context s !! q).
Definition op_entry (e : MessageExt) : string := pretty (queue_offset e) +:+ OFFSET_SEPARATOR.

Section Requests.
Variable order : gmap string string → list (string * string).
Variable cfg : TransConfig.
Context {W : Type}.
Variable look_message_by_offset : W → Z → option MessageExt.
Variable put_message : MessageExtBrokerInner → W → PutMessageStatus * W.
Variable uniq_id : string.

Notation delete_half clock := (delete_prepare_message order cfg put_message clock uniq_id).
Notation request clock := (process_request order cfg look_message_by_offset put_message clock uniq_id).

(** The half message is noted if there is room; otherwise the call waits for the
    lock it holds, as does every later one. *)
Lemma delete_prepare_spec (clock : nat → Z) (e : MessageExt) (s : TransService) (w : W) :
  ∃ s', delete_half clock e s w =
      Done (if decide (delete_locked s = false ∧ Z.of_nat (length (ended (queue_id e) s)) <
                       capacity (queue_id e) s) then Some true else None, s', w) ∧
    (delete_locked s = true → s' = s) ∧
    (delete_locked s = false →
     if decide (Z.of_nat (length (ended (queue_id e) s)) < capacity (queue_id e) s)
     then delete_locked s' = false ∧ ended (queue_id e) s' = ended (queue_id e) s ++ [op_entry e] ∧
       capacity (queue_id e) s' = capacity (queue_id e) s ∧
       ∀ q, q ≠ queue_id e → delete_context s' !! q = delete_context s !! q
     else delete_locked s' = true ∧ ended (queue_id e) s' = ended (queue_id e) s).
Proof.
  unfold delete_prepare_message. destruct (delete_locked s) eqn:Hl.
  { exists s. by rewrite decide_False by naive_solver. }
  set (c := default _ _). assert (context_queue c = ended (queue_id e) s) as Hc.
  { unfold c, ended. cbn. by destruct (_ !! _). }
  assert (oc_capacity c = capacity (queue_id e) s) as Hcap.
  { unfold c, capacity. cbn. by destruct (_ !! _). }
  unfold offer. rewrite Hc, Hcap.
  destruct (Z.ltb_spec (Z.of_nat (length (ended (queue_id e) s))) (capacity (queue_id e) s)).
  - eexists. rewrite !decide_True by done. split; [done |]. split; [done |]. intros _.
    unfold ended, capacity. cbn. rewrite !lookup_insert_eq. cbn. split_and!; [done.. | |].
    + exact Hcap.
    + intros q Hq. by rewrite lookup_insert_ne.
  - cbn. eexists. rewrite !decide_False by lia. split; [done |]. split; [done |]. intros _.
    split; [done |]. unfold ended at 1. cbn. by rewrite lookup_insert_eq.
Qed.

(** A request this broker works on: it is the master, the half message is there,
    and the time of the producer is not over. *)
Definition accepted (clock : nat → Z) (kind : Z) (h : EndTransactionRequestHeader) (e : MessageExt)
    (w : W) : Prop :=
  tr_slave cfg = false ∧ commit_or_rollback h = kind ∧
  look_message_by_offset w (as_i64 (eh_commit_log_offset h)) = Some e ∧
  reject_commit_or_rollback cfg clock (from_transaction_check h) e = false.

Lemma commit_accepted (clock : nat → Z) (h : EndTransactionRequestHeader) (e : MessageExt)
    (s : TransService) (w : W) :
  accepted clock MessageSysFlag.TRANSACTION_COMMIT_TYPE h e w →
  request clock h s w =
    if decide (belongs h e) then Done (Reply create_response_command, s, w)
    else
      let '(st, w') := put_message (final_message order h e) w in
      let r := final_message_response cfg st in
      if rs_code r =? ResponseCode.Success
      then after_delete order cfg put_message clock uniq_id r e s w'
      else Done (Reply r, s, w').
Proof.
  intros (Hs & Hk & Hl & Hr). unfold process_request. rewrite Hs, Hk. cbn [negb orb Z.eqb].
  unfold commit_message, get_half_message_by_offset. rewrite Hl. cbn [response_code].
  cbn [prepare_message unwrap obind]. rewrite Hr.
  destruct (check_prepare_spec h e) as [Hy Hn]. destruct (decide (belongs h e)) as [Hb | Hb].
  - by rewrite Hy.
  - rewrite Hn by done. unfold send_final_message. by destruct (put_message _ _).
Qed.
Lemma rollback_accepted (clock : nat → Z) (h : EndTransactionRequestHeader) (e : MessageExt)
    (s : TransService) (w : W) :
  accepted clock MessageSysFlag.TRANSACTION_ROLLBACK_TYPE h e w →
  request clock h s w =
    if decide (belongs h e)
    then after_delete order cfg put_message clock uniq_id create_response_command e s w
    else Done (Reply (check_prepare_message (Some e) h), s, w).
Proof.
  intros (Hs & Hk & Hl & Hr). unfold process_request. rewrite Hs, Hk. cbn [negb orb Z.eqb].
  unfold rollback_message, get_half_message_by_offset. rewrite Hl. cbn [response_code].
  cbn [prepare_message unwrap obind]. rewrite Hr.
  destruct (check_prepare_spec h e) as [Hy Hn]. destruct (decide (belongs h e)) as [Hb | Hb].
  - by rewrite Hy.
  - by rewrite Hn.
Qed.

(** C30: The check of a commit is the wrong way round.  A request to commit that this
    broker works on and that names the producer group and the offsets of the
    half message is answered with success, and nothing is done: no message is
    put and the half message is not noted as ended.  One that names another
    group or other offsets has the message put to its topic and is answered by
    what the store says, and where that is a success the half message is noted
    or the request waits for ever. *)
Theorem commit_inverted (clock : nat → Z) (h : EndTransactionRequestHeader) (e : MessageExt)
    (s : TransService) (w : W) :
  accepted clock MessageSysFlag.TRANSACTION_COMMIT_TYPE h e w →
  (belongs h e → request clock h s w = Done (Reply create_response_command, s, w)) ∧
  (¬ belongs h e →
   let (st, w') := put_message (final_message order h e) w in
   let r := final_message_response cfg st in
   ∃ rep s', request clock h s w = Done (rep, s', w') ∧ (rep = Reply r ∨ rep = Blocked) ∧
     (rs_code r = ResponseCode.Success → rep = Reply r →
      ended (queue_id e) s' = ended (queue_id e) s ++ [op_entry e])).
Proof.
  intros Ha. rewrite (commit_accepted clock h e s w Ha). split; intros Hb.
  { by rewrite decide_True. }
  rewrite decide_False by done. destruct (put_message _ w) as [st w']. cbv zeta.
  destruct (rs_code (final_message_response cfg st) =? ResponseCode.Success) eqn:Er.
  - unfold after_delete. destruct (delete_prepare_spec clock e s w') as (s' & -> & _ & Hs).
    cbn [obind]. eexists _, _. split; [done |].
    destruct (decide (delete_locked s = false ∧ _)) as [[Hl Hroom] | _];
      [| by split; [right | intros _ [=]]].
    split; [by left |]. intros _ _. specialize (Hs Hl).
    rewrite decide_True in Hs by done. by destruct Hs as (_ & ? & _).
  - apply Z.eqb_neq in Er. eexists _, _. split; [done |]. split; [by left | done].
Qed.

(** Requests one after the other. *)
Fixpoint run_requests (rs : list ((nat → Z) * EndTransactionRequestHeader)) (s : TransService) (w : W)
  : outcome (list reply * TransService * W) :=
  match rs with
  | [] => Done ([], s, w)
  | (clock, h) :: rs' =>
      let* (r, s, w) := request clock h s w in
      let* (reps, s, w) := run_requests rs' s w in Done (r :: reps, s, w)
  end.
(** A request to roll a half message of the queue back that this broker works
    on, by the group and with the offsets of the message. *)
Definition rollback_of (q : Z) (w : W) (r : (nat → Z) * EndTransactionRequestHeader) (e : MessageExt)
  : Prop :=
  accepted r.1 MessageSysFlag.TRANSACTION_ROLLBACK_TYPE r.2 e w ∧ belongs r.2 e ∧ queue_id e = q.

Lemma rollbacks_run (q : Z) (w : W) (rs : list ((nat → Z) * EndTransactionRequestHeader))
    (es : list MessageExt) (s : TransService) (room : nat) :
  Forall2 (rollback_of q w) rs es →
  (if decide (delete_locked s = true) then room = 0%nat
   else Z.of_nat (length (ended q s) + room) = capacity q s) →
  ∃ s', run_requests rs s w =
      Done (replicate (min room (length rs)) (Reply create_response_command) ++
            replicate (length rs - room) Blocked, s', w) ∧
    ended q s' = ended q s ++ take room (op_entry <$> es).
Proof.
  intros HF. revert s room. induction HF as [| [clock h] e rs es (Ha & Hb & Hq) HF IH]; intros s room Hroom.
  { exists s. rewrite Nat.min_0_r. cbn [length Nat.sub replicate app]. split; [done |].
    change (op_entry <$> []) with (@nil string). by rewrite take_nil, app_nil_r. }
  cbn [run_requests]. rewrite (rollback_accepted clock h e s w Ha), decide_True by done.
  unfold after_delete. destruct (delete_prepare_spec clock e s w) as (s1 & -> & Hl & Hs).
  rewrite Hq in *. cbn [obind]. destruct (delete_locked s) eqn:El.
  - rewrite decide_True in Hroom by done. subst room. rewrite (Hl eq_refl).
    destruct (IH s 0%nat) as (s' & -> & He); [by rewrite decide_True |].
    exists s'. cbn [obind]. rewrite decide_False by naive_solver. cbn. by rewrite Nat.sub_0_r.
  - rewrite decide_False in Hroom by done. specialize (Hs eq_refl).
    destruct room as [| room].
    + rewrite decide_False in Hs by lia. destruct Hs as [Hl1 He1].
      destruct (IH s1 0%nat) as (s' & -> & He); [by rewrite decide_True |].
      exists s'. cbn [obind]. rewrite decide_False by lia. cbn. rewrite Nat.sub_0_r.
      split; [done |]. by rewrite He, He1.
    + rewrite decide_True in Hs by lia. destruct Hs as (Hl1 & He1 & Hc1 & _).
      destruct (IH s1 room) as (s' & -> & Hs');
        [rewrite decide_False, He1, Hc1, length_app by (by rewrite Hl1); cbn; lia |].
      exists s'. cbn [obind]. rewrite decide_True by (split; [done | lia]). cbn. split; [done |].
      rewrite Hs', He1. by rewrite <- app_assoc.
Qed.

(** From the start of the service, half messages of one queue are rolled back
    with requests the broker works on, by their groups and with their offsets:
    the first 20000 requests are answered with success and their half messages
    noted, in order, and nothing is put.  From then on every request waits for
    ever: the full list makes the deletion ask for the lock it holds. *)
Theorem rollbacks_block (q : Z) (w : W) (rs : list ((nat → Z) * EndTransactionRequestHeader))
    (es : list MessageExt) :
  Forall2 (rollback_of q w) rs es →
  ∃ s', run_requests rs new_trans_service w =
      Done (replicate (min 20000 (length rs)) (Reply create_response_command) ++
            replicate (length rs - 20000) Blocked, s', w) ∧
    ended q s' = take 20000 (op_entry <$> es).
Proof.
  intros HF. destruct (rollbacks_run q w rs es new_trans_service 20000 HF) as (s' & -> & He).
  - unfold ended, capacity. cbn [new_trans_service delete_locked delete_context].
    rewrite lookup_empty. rewrite decide_False by done. by vm_compute.
  - exists s'. split; [done |]. rewrite He. unfold ended. cbn [new_trans_service delete_context].
    by rewrite lookup_empty.
Qed.
End Requests.

(** ** A transaction of the example *)

(** The half message as the store answers it, and a request of its group. *)
Definition example_trans_config : TransConfig :=
  mkTransConfig false 6000 4096 "broker-a" default_host 4194304 0 0 false.
Definition stored_half : MessageExt :=
  mkMessageExt (message half_example) "" 0 0 7 0 0 default_host 0 default_host "" 700 0 0 0.
Definition example_end (kind : Z) : EndTransactionRequestHeader := mkEndHeader "g" 7 700 kind false.
Definition example_request (kind : Z) (group : string)
  : outcome (reply * TransService * list MessageExtBrokerInner) :=
  process_request map_to_list example_trans_config (λ _ o, if o =? 700 then Some stored_half else None)
    (λ m w, (StatusPutOk, w ++ [m])) (λ _, 9) "id" (mkEndHeader group 7 700 kind false)
    new_trans_service [].

Lemma commit_inverted_witness :
  example_request MessageSysFlag.TRANSACTION_COMMIT_TYPE "g" =
    Done (Reply create_response_command, new_trans_service, []) ∧
  ∃ rep s' m, example_request MessageSysFlag.TRANSACTION_COMMIT_TYPE "other" = Done (rep, s', [m]) ∧
    topic (inner_msg m) = "orders".
Proof.
  split.
  - destruct (commit_inverted map_to_list example_trans_config
      (λ _ o, if o =? 700 then Some stored_half else None) (λ m w, (StatusPutOk, w ++ [m])) "id"
      (λ _, 9) (example_end MessageSysFlag.TRANSACTION_COMMIT_TYPE) stored_half new_trans_service [])
      as [H _]; [split_and!; reflexivity |].
    apply H. split_and!; reflexivity.
  - destruct (commit_inverted map_to_list example_trans_config
      (λ _ o, if o =? 700 then Some stored_half else None) (λ m w, (StatusPutOk, w ++ [m])) "id"
      (λ _, 9) (mkEndHeader "other" 7 700 MessageSysFlag.TRANSACTION_COMMIT_TYPE false) stored_half
      new_trans_service []) as [_ H]; [split_and!; reflexivity |].
    destruct H as (rep & s' & H & _).
    + intros (H & _). vm_compute in H. discriminate H.
    + eexists rep, s', _. split; [exact H |]. reflexivity.
Defined.
Lemma rollbacks_block_witness :
  ∃ s', run_requests map_to_list example_trans_config
      (λ _ o, if o =? 700 then Some stored_half else None) (λ m w, (StatusPutOk, w)) "id"
      [(λ _, 9, example_end MessageSysFlag.TRANSACTION_ROLLBACK_TYPE)] new_trans_service tt =
    Done ([Reply create_response_command], s', tt) ∧ ended 0 s' = ["7,"].
Proof.
  apply (rollbacks_block map_to_list example_trans_config
    (λ _ o, if o =? 700 then Some stored_half else None) (λ m w, (StatusPutOk, w)) "id" 0 tt
    [(λ _, 9, example_end MessageSysFlag.TRANSACTION_ROLLBACK_TYPE)] [stored_half]).
  apply Forall2_cons_2; [| apply Forall2_nil_2]. split; [split_and!; reflexivity |].
  split; [split_and!; reflexivity | reflexivity].
Defined.
